(* ===== verification/_CoqProject ===== *)
-Q . S2P
Prelude.v
Json.v
Models.v
Sha256.v
Texts.v
Plan.v
Serial.v
StateMachine.v
ConversationStore.v
RunStore.v
EventStore.v
FlowModels.v
FlowLifecycle.v
FlowRepository.v
FlowService.v
FlowBudgets.v
FlowWork.v
SideEffects.v
Recovery.v
Program.v
Tasks.v
Worker.v
Sequential.v
StrategyLogic.v
SequentialRun.v
Runtime.v
Resources.v
Supervision.v
ToolExecutor.v
ModelTool.v
Engine.v
RuntimeLogic.v
Artifacts.v
EngineRun.v
RunHandle.v
React.v
Skills.v
Agent.v
PlanExecution.v
Executions.v
AgentRun.v
RuntimeInvoker.v
RaftInbox.v
RaftWorker.v
RedisEvents.v
Providers.v
Calculator.v
MemoryStore.v
Sandbox.v
SqlGuard.v
DataSources.v
MtbiSource.v
ServerEvents.v
Server.v
PostgresFlow.v
PostgresSessions.v
