(* ===== verification/Prelude.v ===== *)
(** * base-agent: a verification development

    base-agent runs LLM agents.  An _Agent_ answers one request by a loop of
    model calls and tool calls (a _Run_ of the runtime); a _Flow_ composes
    several Agents into a durable, resumable process.  The development models
    the program's own logic, as written under [src/src/base_agent/], and
    proves what makes it correct.  This first file is the prelude: scalars,
    Python exceptions, the outcome monad, tactics, hints, and the lemmas on
    lists, dicts and options the components share.

    ** How the source is represented

    - A Python object is a Record with the source's fields; an [Enum] is an
      Inductive; a pydantic model has a [_fields] test (the [Field]
      constraints, in declaration order), a [_validate] function (its
      [model_validator]s) and a constructor [_new] that raises
      [ValidationError].  [model_copy] is record update and skips validation,
      as in pydantic.
    - A method that may raise returns [outcome A] ([Ok]/[Raise]), with the
      exception's class and message; guards are [raise_when g as e in ...] in
      the order of the source.
    - A store is a value; a method guarded by the store's [asyncio.Lock] is
      one atomic step on it.  A Python dict whose order matters is the
      association list of [Prelude] ([dget], [dset]); others are [gmap]s.
    - The clock, [uuid4] and the token generator are the [ambient] argument: what an
      operation reads is arbitrary unless a theorem says otherwise.
    - Asynchronous code whose interleaving matters is a program of the
      state-and-exception monad of [Program]; what runs during an [await] is
      an arbitrary program (a parameter), so theorems hold under any
      interference that satisfies the named hypotheses.
    - Floats are the rationals they denote; rendering one is the parameter
      [FloatRepr].  Integers are unbounded in Python and are [Z].

    ** Files

    - [Json]: JSON values and the canonical encoding the fingerprints hash.
    - [Models]: [models/*.py] - runs, statuses, messages, tools, turns,
      events, model responses.
    - [Sha256]: [hashlib.sha256], executable, checked on test vectors.
    - [Texts]: string methods and simple patterns, shared by the components
      that read external texts.
    - [Plan]: [models/plan.py] - the execution plan: dependency-graph
      validator ([visit] is the recursive depth-first search; its fuel is one
      more than the number of steps, proved enough by
      [validate_graph_correct]), [ready_steps], lifecycle operations.
    - [StateMachine]: [runtime/state_machine.py].
    - [ConversationStore], [RunStore], [EventStore]: the classes of
      [stores/in_memory.py]; the subscription generator of the event store is
      a state machine interleaved with emissions.
    - [FlowModels]: [flows/models.py], [profiles.py].
    - [FlowLifecycle]: [flows/lifecycle.py], the Flow aggregate.
    - [FlowRepository]: [flows/repository.py], [flows/lease.py] - the
      repository's protocol as the class [FlowRepository], its contract as
      [FlowRepositoryLaws], the in-memory implementation as an instance of
      both.
    - [FlowService]: [flows/service.py], against the class only.
    - [FlowBudgets]: [flows/budget.py].
    - [FlowWork]: the in-memory source of [flows/work.py].
    - [SideEffects]: [flows/side_effects.py], [flows/tool_effects.py]; a
      recorder is a program over the ledger's calls, of which any number are
      interleaved ([run_recorders]); its compare-and-swap loop takes fuel,
      shown to suffice by [recorder_start_terminates].
    - [Recovery]: [flows/recovery.py].
    - [Program]: the monad of asynchronous programs.
    - [Sequential]: [flows/sequential.py]; [advance] takes as fuel the number
      of Agents not yet called (the strategy theorems run it with
      [length (fd_agents d)], which suffices).
    - [StrategyLogic]: a total-correctness program logic for the strategy.
    - [SequentialRun]: the strategy's functional specification.
    - [Serial]: the JSON forms written to events, metadata, messages and
      fingerprints; [datetime.isoformat], [uuid5] and SHA-1 are executable.
    - [Runtime]: [runtime/context.py], [runtime/checkpoint.py],
      [runtime/persistence.py], [skills/models.py], [models/memory.py]; the
      [World] of an execution (its context, the stores, the resource scope,
      and the application's own state), and the programs on it.
    - [Resources]: [resources/manager.py], [memory/manager.py].
    - [Supervision]: [supervision/], [orchestration/supervision.py].
    - [ToolExecutor]: [tools/registry.py], [tools/executor.py],
      [tools/results.py], [tools/effects.py].
    - [ModelTool]: [orchestration/model_tool.py]; the methods subclasses
      override are the record [Hooks]; parsing dumped data back is the class
      [Validators] (pydantic's).
    - [React], [PlanExecution]: [orchestration/react.py],
      [orchestration/planning.py] and [orchestration/plan_execution.py], the
      strategies with hooks of their own; [json.loads] and pydantic's reading
      of what it gives are the class [ModelText].
    - [Engine]: [runtime/engine.py] - [runtime_execute] is [execute]; the
      [while] loop takes as fuel the number of its turns, of which
      [builtin_turns] suffice ([execution_settles]): [2 * max_steps + 2], and
      two more with [PlanningStrategy].
    - [RuntimeLogic]: a total-correctness program logic for these programs:
      the invariant [eng_inv] of an execution, and a triple for each of the
      strategy's operations, generic in the hooks ([HooksLaws]).
    - [EngineRun]: the resources, the loop, the [try] statement and what
      follows it, for any strategy that keeps [StrategyLaws].
    - [Executions]: the built-in strategies keep the laws, hence
      [execution_settles].
    - [Artifacts]: [artifacts/manager.py] and the artifact store of
      [stores/in_memory.py].
    - [RunHandle]: the two functions of [run_handle.py] that end a stored Run
      from outside.
    - [Skills]: [skills/]; the file system and [yaml.safe_load] are the class
      [SkillFiles].
    - [Agent]: [agent.py] - construction and the calls of an Agent;
      [AgentRun] proves what they leave behind.
    - [RuntimeInvoker]: [flows/runtime_invoker.py] and [Flow.sequence] of
      [flows/facade.py]: Agents as the invoker of a Flow.
    - [Tasks]: tasks of an event loop as trees of what they may still do;
      [race], a supervised operation with its heartbeat, and the predicate
      transformer [wp] under interference of other tasks.
    - [Worker]: [flows/worker.py]; [beats] bounds how often a heartbeat gets
      to beat, and the theorems hold for every bound.
    - [RaftInbox]: [integrations/raft/models.py] and [parser.py] - each
      regular expression is a function on the text; [raw_messages] is the
      rendering of the tests.
    - [RaftWorker]: [integrations/raft/worker.py] and [state.py]; files,
      transport and Agent are the record [Outside] of arbitrary functions,
      and the worker's lives (each ends in an exception, a crash or after its
      wakes) are [lives].  The log of a worker records what it asked for and
      which messages it completed; the journal's bound and its eviction are
      the code's.
    - [RedisEvents]: [stores/redis/store.py] - the subscription generator as
      a state machine; what Redis answers at each [await] is a [reply].
    - [Providers]: [providers/cli.py] and [providers/openai_chat.py]; the
      process, the SDK client and [json.loads] (the class [JsonText]) are
      parameters.
    - [Calculator]: [calculate] of [toolkits/utility.py]; float arithmetic is
      the record [FloatOps].
    - [MemoryStore]: [memory/store.py].
    - [Sandbox]: [sandbox/docker.py], over the record [Docker]; the methods
      are codes with explicit waits, of which [sandbox_step] interleaves any
      number with threads, timeouts and cancellations.
    - [DataSources]: [data_sources/models.py], [protocol.py] (the class
      [ReadOnlyDataSource]) and [tools.py], against the class only.
    - [ServerEvents]: the event stream of [server/app.py], to its bytes, and
      the client of the HTML standard that reads it.
    - [Server]: the routes of [server/app.py] as programs over the world of an
      Agent.
    - [PostgresFlow]: [stores/postgres/flow_repository.py] - every method as a
      transaction of SQL statements over three tables; PostgreSQL is the class
      [FlowDatabase], payloads are the class [FlowPayloads].
    - [PostgresSessions]: many such transactions at once, statement by
      statement, under row locks; a schedule is a list of turns.
    - [SqlGuard], [MtbiSource]: [data_sources/mtbi_cli.py] - the guard on SQL
      texts, and the instance of the class over an arbitrary process.

    ** What the theorems show

    - Flow aggregate, repository, service: [flow_lifecycle_invariant] (every
      reachable snapshot is valid), [flow_step_contract],
      [flow_always_terminable]; [lease_mutual_exclusion], [lease_fencing],
      [commit_compare_and_swap], [flow_repository_history];
      [service_refines_aggregate], [event_log_determines_flow] (the event log
      is a faithful record of the state), [service_call_total].
    - PostgreSQL: [postgres_flow_refines_memory] (call by call the in-memory
      repository), [postgres_sessions_linearizable] (interleaved calls are as
      if made one after the other), [postgres_sessions_finish] (no deadlock).
    - Strategy: [strategy_tells_stored_flow] (total correctness under
      interference: the returned result is that of the stored Run),
      [sequential_run_completes] (the functional specification of an
      uninterrupted run), the budget theorems.
    - Durable work and recovery: [work_source_invariant] (for every call),
      [stale_delivery_fenced], [claim_selects_oldest_ready],
      [completion_final], [recovery_is_conservative],
      [recovery_handler_gates_dispatch]; side effects:
      [unsafe_effect_started_once] (over any interleaving of starts),
      [side_effect_evidence_monotone],
      [governed_transport_roundtrip].
    - Executions of a Run: [execution_settles] (total correctness of
      [AgentRuntime.execute] under any behaviour of provider, tools,
      resources, retriever and other tasks, as far as these do not reach into
      the Run or cancel the leaving of a resource), [checkpoint_roundtrip],
      [default_supervisor_refines], [tool_runs_only_through_gate],
      [tool_result_within_limit].
    - Agents: [agent_run_settles] and [waiting_run_lifecycle] (every call of
      an Agent leaves its Run at rest), [skills_stay_within_profile],
      [front_matter_readers_agree], [artifact_content_immutable],
      [artifact_manager_confined].
    - Flows of Agents: [flow_sequence_wires], [invocation_is_one_run],
      [invocation_result_typed]; [run_once_settles] (a worker never leaves a
      claimed item or a lease behind).
    - Adapters: [redis_subscription_delivers], [cli_response_within_request],
      [openai_history_roundtrip], [calculate_contained],
      [sandbox_session_contained] (for overlapping calls),
      [captured_output_bounded],
      [memory_search_ranked], [memory_search_order_free].
    - Server: [sse_exactly_once] (delivery over connections cut anywhere),
      [server_confines_artifacts].
    - Data sources: [sql_scanner_exact] (against a reference lexer of SQL),
      [data_session_read_only] (what a session of tool calls gives to the
      process, and how far that is read-only under the quoting of each
      engine), [query_result_is_table], [data_query_bounded].
    - Raft: [parse_raft_messages_roundtrip]; [raft_reply_final] and
      [raft_inbox_survives] (what the journal on disk guarantees over any
      crashes and restarts).
    - Plans: [validate_graph_correct] (soundness and completeness),
      [plan_lifecycle_invariant], [plan_dependency_order], [plan_progress],
      [replanning_preserves_history].
    - Stores: [conversation_store_invariant], [turn_mutual_exclusion],
      [completed_turn_extends_transcript], [cancel_request_never_lost],
      [checkpoint_claimed_once], [subscription_delivers_log_in_order].

    ** Not modelled

    - Of the Agent: [Agent.start] and the waiting side of [RunHandle], which
      run [Agent.run] as a task; the methods of [Agent], [Flow] and [FlowRun]
      that only delegate.
    - Of the runtime: logging; the values of resources (their type checks and
      the owner task), which only the application sees.
    - Of the Raft integration: the subprocess client and the HTTP wake
      server, which are the outside of [RaftWorker].
    - SQL of the Run stores and the work source ([stores/postgres/store.py],
      [flow_work_source.py]): the contracts they implement are those of the
      in-memory stores.  Of [flow_repository.py], the UNIQUE columns, which
      hold [uuid4()] values, and the width of its integer columns.
    - Of the providers and the sandbox: running the process, the SDK's calls
      and starting the container.  A tool call of the chat SDK without an id
      is not modelled (the code renders it as the text ["None"]).
    - Of the values: the [Field] constraints of [ToolDefinition] and of [Run],
      which no modelled operation relies on; exceptions that are no [Exception]
      other than [CancelledError] ([KeyboardInterrupt], [SystemExit]); the
      newline translation of [read_text] on the Raft spool; and the manifest
      of a selected Skill is what [SkillFiles] gives, whatever its name.
    - Of the server: FastAPI and [server/tasks.py], which keeps the tasks it
      starts.
    - Browser and file-system code, web search and MCP ([browser],
      [web_search], [mcp], [toolkits/workspace.py]): input and output of
      external systems.
    - the legacy [max_invocations] normaliser of [FlowBudget]: it rewrites
      stored data of earlier versions.
*)

From Stdlib Require Import QArith Qround Qabs.
From stdpp Require Import base gmap strings list pretty sorting.
From Stdlib Require Import Lia.

Open Scope Z_scope.

(** ** Scalars of the source

    [uuid]: a UUID is its 128-bit integer.  [time]: a timezone-aware
    [datetime] is its count of microseconds (the resolution of Python's
    [datetime]).  [seconds]: a Python float used as a duration is the
    rational it denotes. *)

Abbreviation uuid := N (only parsing).
Abbreviation time := Z (only parsing).
Abbreviation seconds := Q (only parsing).

(** ** Python exceptions *)

(** The exception classes the modelled code raises or catches.
    [UserException n] is any other subclass of [Exception], by class name
    (what an application callback or transport may raise). *)
Inductive exn_class :=
  | ExValueError | ExKeyError | ExLookupError | ExTypeError
  | ExRuntimeError | ExAssertionError | ExTimeoutError | ExCancelledError
  | ValidationError
  | InvalidPlanTransitionError
  | InvalidStateTransitionError
  | RunNotFoundError | RunAlreadyExistsError | RunNotCancellableError
  | ConversationNotFoundError | ConversationAlreadyExistsError
  | ConversationBusyError | ConversationProfileMismatchError
  | ConversationTurnNotFoundError | CheckpointNotFoundError
  | AttachmentNotFoundError | ArtifactNotFoundError
  | InvalidFlowTransitionError
  | FlowRunAlreadyExistsError | FlowRunNotFoundError
  | FlowRevisionConflictError
  | FlowLeaseUnavailableError | FlowLeaseLostError
  | FlowWorkIdempotencyConflictError | FlowWorkDeliveryLostError
  | FlowWorkNotFoundError | FlowWorkBlockedError
  | FlowWorkReviewConflictError | FlowWorkReviewStateError
  | FlowSideEffectNotFoundError | FlowSideEffectConflictError
  | FlowSideEffectRevisionConflictError | InvalidFlowSideEffectTransitionError
  | ToolSideEffectRecorderError | ToolSideEffectContextError
  | ToolSideEffectReplayUnsafeError | ToolInvalidArgumentsError
  | FlowDefinitionNotFoundError | FlowDefinitionConflictError
  | FlowDefinitionMismatchError
  | UnsupportedFlowStrategyError
  | DuplicateToolError | ToolNotFoundError
  | ResourceError | ResourceNotFoundError | ResourceScopeClosedError
  | ResourceAcquisitionError | MemoryNotConfiguredError
  | ExPermissionError | ArtifactAccessError
  | InvalidSkillError | DuplicateSkillError | SkillNotFoundError
  | SkillNotEnabledError | SkillRequirementsError
  | RaftIntegrationError | RaftCliCommandError | RaftProtocolError | RaftStateError
  | InvalidProviderResponseError | UnsupportedAttachmentError | UnsupportedMemoryError
  | CLIProviderError | CLIProcessError | CLIOutputLimitError
  | CLIExecutableNotFoundError | CLIProcessTimeoutError
  | SandboxPathError | SandboxClosedError | SandboxFileError
  | ExZeroDivisionError | ExOverflowError
  | MtbiCliError | InvalidMtbiCliResponseError
  | UserException (name : string).

#[export] Instance exn_class_eq_dec : EqDecision exn_class.
Proof. solve_decision. Defined.

(** The direct superclass of each class, [None] for [Exception] and, for
    [asyncio.CancelledError], [BaseException]. *)
Definition exn_parent (c : exn_class) : option exn_class :=
  match c with
  | ExKeyError => Some ExLookupError
  | ValidationError | InvalidPlanTransitionError | RunAlreadyExistsError
  | ConversationAlreadyExistsError | ConversationProfileMismatchError
  | UnsupportedFlowStrategyError | ToolInvalidArgumentsError
  | DuplicateToolError | InvalidSkillError | DuplicateSkillError
  | SkillRequirementsError
  | InvalidProviderResponseError | UnsupportedAttachmentError | UnsupportedMemoryError
  | SandboxPathError =>
      Some ExValueError
  | InvalidStateTransitionError | RunNotCancellableError
  | ConversationBusyError | InvalidFlowTransitionError
  | FlowRunAlreadyExistsError | FlowRevisionConflictError
  | FlowLeaseUnavailableError | FlowLeaseLostError
  | FlowWorkIdempotencyConflictError | FlowWorkDeliveryLostError
  | FlowWorkBlockedError | FlowWorkReviewConflictError
  | FlowWorkReviewStateError | FlowSideEffectConflictError
  | FlowSideEffectRevisionConflictError
  | InvalidFlowSideEffectTransitionError | ToolSideEffectRecorderError
  | FlowDefinitionConflictError | FlowDefinitionMismatchError
  | ResourceError | MemoryNotConfiguredError | RaftIntegrationError
  | CLIProviderError | SandboxClosedError | SandboxFileError | MtbiCliError =>
      Some ExRuntimeError
  | InvalidMtbiCliResponseError => Some MtbiCliError
  | CLIProcessError | CLIOutputLimitError | CLIExecutableNotFoundError | CLIProcessTimeoutError =>
      Some CLIProviderError
  | ResourceNotFoundError | ResourceScopeClosedError | ResourceAcquisitionError =>
      Some ResourceError
  | RunNotFoundError | ConversationNotFoundError
  | ConversationTurnNotFoundError | CheckpointNotFoundError
  | AttachmentNotFoundError | ArtifactNotFoundError | ToolNotFoundError
  | SkillNotFoundError => Some ExLookupError
  | ArtifactAccessError | SkillNotEnabledError => Some ExPermissionError
  | RaftCliCommandError | RaftProtocolError | RaftStateError => Some RaftIntegrationError
  | FlowRunNotFoundError | FlowWorkNotFoundError
  | FlowSideEffectNotFoundError | FlowDefinitionNotFoundError =>
      Some ExKeyError
  | ToolSideEffectContextError | ToolSideEffectReplayUnsafeError =>
      Some ToolSideEffectRecorderError
  | _ => None
  end.

(** [issubclass c d], the class hierarchy being at most four deep. *)
Fixpoint subclass_upto (fuel : nat) (c d : exn_class) : bool :=
  bool_decide (c = d) ||
  match fuel, exn_parent c with
  | S fuel', Some p => subclass_upto fuel' p d
  | _, _ => false
  end.

Definition subclass_of (c d : exn_class) : bool := subclass_upto 4 c d.

(** An exception value: its class and the text given to its constructor. *)
Record exn := Exn { exn_cls : exn_class; exn_msg : string }.

#[export] Instance exn_eq_dec : EqDecision exn.
Proof. solve_decision. Defined.

(** [isinstance(exc, c)]. *)
Definition isinstance (e : exn) (c : exn_class) : bool :=
  subclass_of (exn_cls e) c.

(** [except Exception] catches everything but [asyncio.CancelledError],
    which derives from [BaseException]. *)
Definition is_exception (e : exn) : bool :=
  negb (isinstance e ExCancelledError).

(** ** Results of Python code: a value or a raised exception *)

Inductive outcome (A : Type) :=
  | Ok (a : A)
  | Raise (e : exn).
Arguments Ok {A} a.
Arguments Raise {A} e.

Definition is_ok {A} (o : outcome A) : Prop := exists a, o = Ok a.

(** [f] of the value of a call that returned, [otherwise] when it raised. *)
Definition on_Ok {A B} (o : outcome A) (f : A -> B) (otherwise : B) : B :=
  match o with Ok a => f a | Raise _ => otherwise end.

Declare Scope py_scope.
Delimit Scope py_scope with py.

(** [let! x := e in k] runs [e] and passes its value on;
    [raise_when b as e in k] is [if b: raise e] followed by [k]. *)
Notation "'let!' x ':=' e 'in' k" :=
  (match e with Ok x => k | Raise err => Raise err end)
  (at level 10, x name, e at level 200, k at level 200)
  : py_scope.
Notation "'let!' ' pat ':=' e 'in' k" :=
  (match e with Ok pat => k | Raise err => Raise err end)
  (at level 10, pat pattern, e at level 200, k at level 200)
  : py_scope.
Notation "'raise_when' b 'as' e 'in' k" :=
  (if b then Raise e else k)
  (at level 10, b at level 99, e at level 99, k at level 200)
  : py_scope.
Open Scope py_scope.

(** ** Python strings

    A [str] is the string of its characters (code points up to 255). *)

(** [str.isspace] on the characters below 256. *)
Definition py_isspace (a : Ascii.ascii) : bool :=
  let n := Ascii.N_of_ascii a in
  ((9 <=? n) && (n <=? 13) || (28 <=? n) && (n <=? 32)
   || (n =? 133) || (n =? 160))%N.

Fixpoint lstrip (s : string) : string :=
  match s with
  | EmptyString => EmptyString
  | String a s' => if py_isspace a then lstrip s' else s
  end.

(** [str.strip()]. *)
Definition strip (s : string) : string :=
  String.rev (lstrip (String.rev (lstrip s))).

Definition is_empty (s : string) : bool :=
  match s with EmptyString => true | _ => false end.

(** [not s.strip()]: the string is empty or all whitespace. *)
Definition blank (s : string) : bool := is_empty (strip s).

(** A text that begins with anything but whitespace is not blank. *)
Lemma blank_cons a s : py_isspace a = false -> blank (String a s) = false.
Proof.
  intros Ha. unfold blank, strip. simpl. rewrite Ha.
  assert (forall u t, is_empty t = false -> is_empty (String.rev_app u t) = false) as Hrev.
  { induction u as [|b u IH]; intros t Ht; simpl; [done|by apply IH]. }
  assert (forall u t, is_empty (lstrip t) = false -> is_empty (lstrip (String.rev_app u t)) = false)
    as Hu.
  { induction u as [|b u IH]; intros t Ht; simpl; [done|]. apply IH. simpl. by destruct (py_isspace b). }
  unfold String.rev. simpl. specialize (Hu s (String a EmptyString)). simpl in Hu. rewrite Ha in Hu.
  specialize (Hu eq_refl). destruct (lstrip (String.rev_app s (String a EmptyString))) as [|b u]; [done|].
  simpl. by apply Hrev.
Qed.

(** [not s] for [s : str | None]. *)
Definition falsy (s : option string) : bool :=
  match s with None => true | Some s => is_empty s end.

(** Line ends, and texts under concatenation and reversal. *)
Definition newline : string := String (Ascii.ascii_of_N 10) EmptyString.

Lemma string_app_assoc (x y z : string) : (x +:+ y) +:+ z = x +:+ (y +:+ z).
Proof. induction x as [|a x IH]; simpl; [done|]. unfold String.app in *. simpl. by rewrite IH. Qed.

Lemma rev_app_spec u : forall v, String.rev_app u v = String.rev u +:+ v.
Proof.
  induction u as [|a u IH]; intros v; [done|]. unfold String.rev. simpl.
  by rewrite (IH (String a v)), (IH (String a EmptyString)), string_app_assoc.
Qed.

Lemma string_rev_cons a u : String.rev (String a u) = String.rev u +:+ String a EmptyString.
Proof. unfold String.rev at 1. simpl. apply rev_app_spec. Qed.

Lemma string_app_nil (x : string) : x +:+ EmptyString = x.
Proof. induction x as [|a x IH]; [done|]. unfold String.app in *. simpl. by rewrite IH. Qed.

Lemma string_rev_app x y : String.rev (x +:+ y) = String.rev y +:+ String.rev x.
Proof.
  induction x as [|a x IH]; [symmetry; apply string_app_nil|].
  change (String.rev (String a (x +:+ y)) = String.rev y +:+ String.rev (String a x)).
  by rewrite !string_rev_cons, IH, string_app_assoc.
Qed.

(** [len(s)]. *)
Definition slen (s : string) : Z := Z.of_nat (String.length s).

(** An f-string: the concatenation of its rendered parts. *)
Definition fstr (parts : list string) : string := String.concat "" parts.

(** [s[a:] in text]: rendering of integers. *)
Definition zstr (z : Z) : string := pretty z.

Definition hex_digit (d : N) : Ascii.ascii :=
  Ascii.ascii_of_N (if d <? 10 then 48 + d else 87 + d)%N.

(** [width] lowercase hexadecimal digits of [n], most significant first. *)
Fixpoint hex_digits (width : nat) (n : N) : string :=
  match width with
  | O => EmptyString
  | S w => String (hex_digit (n / 16 ^ N.of_nat w)) (hex_digits w (n mod 16 ^ N.of_nat w))
  end.

(** [str(uuid)]: hexadecimal groups of 8, 4, 4, 4 and 12 digits. *)
Definition uuid_str (u : uuid) : string :=
  fstr [hex_digits 8 (u / 2 ^ 96); "-";
        hex_digits 4 ((u / 2 ^ 80) mod 2 ^ 16); "-";
        hex_digits 4 ((u / 2 ^ 64) mod 2 ^ 16); "-";
        hex_digits 4 ((u / 2 ^ 48) mod 2 ^ 16); "-";
        hex_digits 12 (u mod 2 ^ 48)]%N.

Example uuid_str_example :
  uuid_str 24197857161011715162171839636988778104 =
  "12345678-1234-5678-1234-567812345678".
Proof. vm_compute. reflexivity. Qed.

(** [repr(s)] on printable text: the quote is ["'"] unless the text holds
    one and no double quote. *)
Fixpoint repr_body (q : Ascii.ascii) (s : string) : string :=
  match s with
  | EmptyString => EmptyString
  | String a s' =>
      let n := Ascii.N_of_ascii a in
      if bool_decide (a = q) || (n =? 92)%N
      then String (Ascii.ascii_of_N 92) (String a (repr_body q s'))
      else if (n =? 10)%N then "\n" +:+ repr_body q s'
      else if (n =? 13)%N then "\r" +:+ repr_body q s'
      else if (n =? 9)%N then "\t" +:+ repr_body q s'
      else if ((n <? 32) || (126 <? n) && (n <? 161) || (n =? 173))%N
           then "\x" +:+ hex_digits 2 n +:+ repr_body q s'
           else String a (repr_body q s')
  end.

Fixpoint has_char (c : Ascii.ascii) (s : string) : bool :=
  match s with
  | EmptyString => false
  | String a s' => bool_decide (a = c) || has_char c s'
  end.

Definition py_repr (s : string) : string :=
  let sq := Ascii.ascii_of_N 39 in
  let dq := Ascii.ascii_of_N 34 in
  let q := if has_char sq s && negb (has_char dq s) then dq else sq in
  String q (repr_body q s) +:+ String q EmptyString.

(** [str(exc)]: a [KeyError] renders the [repr] of its argument. *)
Definition exn_str (e : exn) : string :=
  if isinstance e ExKeyError then py_repr (exn_msg e) else exn_msg e.

(** [ValueError(f"...")], and the exception of a failed [assert]. *)
Definition value_error (parts : list string) : exn := Exn ExValueError (fstr parts).
Definition assertion_error : exn := Exn ExAssertionError "".

(** [type(exc).__name__]. *)
Definition exn_name (c : exn_class) : string :=
  match c with
  | ExValueError => "ValueError" | ExKeyError => "KeyError"
  | ExLookupError => "LookupError" | ExTypeError => "TypeError"
  | ExRuntimeError => "RuntimeError" | ExAssertionError => "AssertionError"
  | ExTimeoutError => "TimeoutError" | ExCancelledError => "CancelledError"
  | ValidationError => "ValidationError"
  | InvalidPlanTransitionError => "InvalidPlanTransitionError"
  | InvalidStateTransitionError => "InvalidStateTransitionError"
  | RunNotFoundError => "RunNotFoundError"
  | RunAlreadyExistsError => "RunAlreadyExistsError"
  | RunNotCancellableError => "RunNotCancellableError"
  | ConversationNotFoundError => "ConversationNotFoundError"
  | ConversationAlreadyExistsError => "ConversationAlreadyExistsError"
  | ConversationBusyError => "ConversationBusyError"
  | ConversationProfileMismatchError => "ConversationProfileMismatchError"
  | ConversationTurnNotFoundError => "ConversationTurnNotFoundError"
  | CheckpointNotFoundError => "CheckpointNotFoundError"
  | AttachmentNotFoundError => "AttachmentNotFoundError"
  | ArtifactNotFoundError => "ArtifactNotFoundError"
  | InvalidFlowTransitionError => "InvalidFlowTransitionError"
  | FlowRunAlreadyExistsError => "FlowRunAlreadyExistsError"
  | FlowRunNotFoundError => "FlowRunNotFoundError"
  | FlowRevisionConflictError => "FlowRevisionConflictError"
  | FlowLeaseUnavailableError => "FlowLeaseUnavailableError"
  | FlowLeaseLostError => "FlowLeaseLostError"
  | FlowWorkIdempotencyConflictError => "FlowWorkIdempotencyConflictError"
  | FlowWorkDeliveryLostError => "FlowWorkDeliveryLostError"
  | FlowWorkNotFoundError => "FlowWorkNotFoundError"
  | FlowWorkBlockedError => "FlowWorkBlockedError"
  | FlowWorkReviewConflictError => "FlowWorkReviewConflictError"
  | FlowWorkReviewStateError => "FlowWorkReviewStateError"
  | FlowSideEffectNotFoundError => "FlowSideEffectNotFoundError"
  | FlowSideEffectConflictError => "FlowSideEffectConflictError"
  | FlowSideEffectRevisionConflictError => "FlowSideEffectRevisionConflictError"
  | InvalidFlowSideEffectTransitionError => "InvalidFlowSideEffectTransitionError"
  | ToolSideEffectRecorderError => "ToolSideEffectRecorderError"
  | ToolSideEffectContextError => "ToolSideEffectContextError"
  | ToolSideEffectReplayUnsafeError => "ToolSideEffectReplayUnsafeError"
  | ToolInvalidArgumentsError => "ToolInvalidArgumentsError"
  | FlowDefinitionNotFoundError => "FlowDefinitionNotFoundError"
  | FlowDefinitionConflictError => "FlowDefinitionConflictError"
  | FlowDefinitionMismatchError => "FlowDefinitionMismatchError"
  | UnsupportedFlowStrategyError => "UnsupportedFlowStrategyError"
  | DuplicateToolError => "DuplicateToolError"
  | ToolNotFoundError => "ToolNotFoundError"
  | ResourceError => "ResourceError"
  | ResourceNotFoundError => "ResourceNotFoundError"
  | ResourceScopeClosedError => "ResourceScopeClosedError"
  | ResourceAcquisitionError => "ResourceAcquisitionError"
  | MemoryNotConfiguredError => "MemoryNotConfiguredError"
  | ExPermissionError => "PermissionError"
  | ArtifactAccessError => "ArtifactAccessError"
  | InvalidSkillError => "InvalidSkillError"
  | DuplicateSkillError => "DuplicateSkillError"
  | SkillNotFoundError => "SkillNotFoundError"
  | SkillNotEnabledError => "SkillNotEnabledError"
  | SkillRequirementsError => "SkillRequirementsError"
  | RaftIntegrationError => "RaftIntegrationError"
  | RaftCliCommandError => "RaftCliCommandError"
  | RaftProtocolError => "RaftProtocolError"
  | RaftStateError => "RaftStateError"
  | InvalidProviderResponseError => "InvalidProviderResponseError"
  | UnsupportedAttachmentError => "UnsupportedAttachmentError"
  | UnsupportedMemoryError => "UnsupportedMemoryError"
  | SandboxPathError => "SandboxPathError"
  | CLIProviderError => "CLIProviderError"
  | SandboxClosedError => "SandboxClosedError"
  | SandboxFileError => "SandboxFileError"
  | CLIProcessError => "CLIProcessError"
  | CLIOutputLimitError => "CLIOutputLimitError"
  | CLIExecutableNotFoundError => "CLIExecutableNotFoundError"
  | CLIProcessTimeoutError => "CLIProcessTimeoutError"
  | ExZeroDivisionError => "ZeroDivisionError"
  | MtbiCliError => "MtbiCliError"
  | InvalidMtbiCliResponseError => "InvalidMtbiCliResponseError"
  | ExOverflowError => "OverflowError"
  | UserException n => n
  end.

(** ** Character patterns of the pydantic [Field(pattern=...)] constraints *)

Definition is_alnum (a : Ascii.ascii) : bool :=
  let n := Ascii.N_of_ascii a in
  ((48 <=? n) && (n <=? 57) || (65 <=? n) && (n <=? 90)
   || (97 <=? n) && (n <=? 122))%N.

(** [\w] below 256. *)
Definition word_char (a : Ascii.ascii) : bool :=
  let n := Ascii.N_of_ascii a in
  is_alnum a || (n =? 95)%N || bool_decide (n ∈ [170; 178; 179; 181; 185; 186; 188; 189; 190]%N)
  || ((192 <=? n) && negb (n =? 215) && negb (n =? 247))%N.

(** The lower case of a character below 256. *)
Definition lower_char (a : Ascii.ascii) : Ascii.ascii :=
  let n := Ascii.N_of_ascii a in
  if ((65 <=? n) && (n <=? 90) || (192 <=? n) && (n <=? 222) && negb (n =? 215))%N
  then Ascii.ascii_of_N (n + 32) else a.

(** [str.casefold], up to the micro sign. *)
Fixpoint casefold (s : string) : string :=
  match s with
  | EmptyString => EmptyString
  | String a s' =>
      if (Ascii.N_of_ascii a =? 223)%N then "ss" +:+ casefold s'
      else String (lower_char a) (casefold s')
  end.

Definition is_hex_lower (a : Ascii.ascii) : bool :=
  let n := Ascii.N_of_ascii a in
  ((48 <=? n) && (n <=? 57) || (97 <=? n) && (n <=? 102))%N.

Fixpoint all_chars (p : Ascii.ascii -> bool) (s : string) : bool :=
  match s with
  | EmptyString => true
  | String a s' => p a && all_chars p s'
  end.

(** [^[A-Za-z0-9][A-Za-z0-9<extra>]*$]. *)
Definition matches_key (extra : string) (s : string) : bool :=
  match s with
  | EmptyString => false
  | String a s' => is_alnum a && all_chars (fun c => is_alnum c || has_char c extra) s'
  end.

(** [^[0-9a-f]{64}$]. *)
Definition is_sha256_hex (s : string) : bool :=
  (slen s =? 64) && all_chars is_hex_lower s.

(** [Field(min_length=lo, max_length=hi)]. *)
Definition len_between (lo hi : Z) (s : string) : bool :=
  (lo <=? slen s) && (slen s <=? hi).

(** ** Durations *)

(** Rounding to the nearest integer, ties to even, of [n/d]. *)
Definition round_half_even (q : Q) : Z :=
  let n := Qnum q in
  let d := Zpos (Qden q) in
  let f := n / d in
  let r := 2 * (n mod d) in
  if r <? d then f
  else if d <? r then f + 1
  else if Z.even f then f else f + 1.

(** [timedelta(seconds=s)] in microseconds. *)
Definition timedelta (s : seconds) : Z :=
  round_half_even (s * (1000000 # 1)).

(** [(a - b).total_seconds()] for a difference in microseconds. *)
Definition total_seconds (us : Z) : seconds := us # 1000000.

Definition Qltb (x y : Q) : bool := negb (Qle_bool y x).

(** Number of decimal digits of a positive integer. *)
Definition ndigits (z : Z) : Z := slen (zstr z).

(** [q * 10^k] for an integer [k]. *)
Definition scale10 (q : Q) (k : Z) : Q :=
  if 0 <=? k then q * (10 ^ k # 1) else q / (10 ^ (- k) # 1).

Fixpoint drop_zeros (s : string) : string :=
  match s with
  | String a s' => if bool_decide (a = Ascii.ascii_of_N 48) then drop_zeros s' else s
  | EmptyString => EmptyString
  end.

Definition strip_trailing_zeros (s : string) : string :=
  String.rev (drop_zeros (String.rev s)).

Fixpoint zeros (n : nat) : string :=
  match n with O => EmptyString | S n' => String (Ascii.ascii_of_N 48) (zeros n') end.

(** [f"{q:g}"]: six significant digits, trailing zeros removed, scientific
    notation when the exponent is below -4 or at least 6. *)
Definition format_g (q : Q) : string :=
  if (Qnum q =? 0) then "0" else
  let sign := if Qnum q <? 0 then "-" else "" in
  let a := Qabs q in
  let e0 := ndigits (Qnum a) - ndigits (Zpos (Qden a)) in
  let e := if Qle_bool (scale10 1 e0) a then e0 else e0 - 1 in
  let m0 := round_half_even (scale10 a (5 - e)) in
  let '(m, x) := if m0 =? 1000000 then (100000, e + 1) else (m0, e) in
  let digits := zstr m in
  let sci := (x <? -4) || (6 <=? x) in
  let body :=
    if sci then
      let frac := strip_trailing_zeros (String.substring 1 5 digits) in
      let ex := zstr (Z.abs x) in
      fstr [String.substring 0 1 digits;
            if is_empty frac then "" else "." +:+ frac;
            if x <? 0 then "e-" else "e+";
            if slen ex <? 2 then "0" +:+ ex else ex]
    else if x <? 0 then
      fstr ["0."; zeros (Z.to_nat (- x - 1)); strip_trailing_zeros digits]
    else
      let frac := strip_trailing_zeros
                    (String.substring (Z.to_nat (x + 1)) (Z.to_nat (5 - x)) digits) in
      fstr [String.substring 0 (Z.to_nat (x + 1)) digits;
            if is_empty frac then "" else "." +:+ frac] in
  sign +:+ body.

Example format_g_examples :
  map format_g [20#1; 1000000#1; 123456#1; 1234567#1; 1#2; 1#10000; 1#100000;
                1234565#10; 0#1; -3#4; 12#10000000; 999999#1; 9999995#10]
  = ["20"; "1e+06"; "123456"; "1.23457e+06"; "0.5"; "0.0001"; "1e-05";
     "123456"; "0"; "-0.75"; "1.2e-06"; "999999"; "1e+06"].
Proof. vm_compute. reflexivity. Qed.

(** ** Insertion-ordered dictionaries

    A Python [dict] whose iteration order matters is the list of its items
    in insertion order; keys are pairwise distinct. *)

Section Dict.
Context {K V : Type} `{EqDecision K}.

(** [d.get(k)]. *)
Fixpoint dget (k : K) (d : list (K * V)) : option V :=
  match d with
  | [] => None
  | (k', v) :: d' => if decide (k = k') then Some v else dget k d'
  end.

(** [d[k] = v]: an existing key keeps its position. *)
Fixpoint dset (k : K) (v : V) (d : list (K * V)) : list (K * V) :=
  match d with
  | [] => [(k, v)]
  | (k', v') :: d' =>
      if decide (k = k') then (k, v) :: d' else (k', v') :: dset k v d'
  end.

(** [d.pop(k, None)] on the dictionary. *)
Fixpoint ddel (k : K) (d : list (K * V)) : list (K * V) :=
  match d with
  | [] => []
  | (k', v') :: d' => if decide (k = k') then d' else (k', v') :: ddel k d'
  end.

(** [d.values()] and [d.keys()]. *)
Definition dvalues (d : list (K * V)) : list V := map snd d.
Definition dkeys (d : list (K * V)) : list K := map fst d.

(** [{**d, **e}]. *)
Definition dmerge (d e : list (K * V)) : list (K * V) :=
  fold_left (fun acc kv => dset (fst kv) (snd kv) acc) e d.

Lemma dget_dset_eq k v d : dget k (dset k v d) = Some v.
Proof.
  induction d as [|[k' v'] d IH]; simpl; [by rewrite decide_True|].
  case_decide; simpl; [by rewrite decide_True|]. by rewrite decide_False.
Qed.

Lemma dget_dset_ne k k' v d : k <> k' -> dget k' (dset k v d) = dget k' d.
Proof.
  intros Hne. induction d as [|[j w] d IH]; simpl; [by rewrite decide_False|].
  destruct (decide (k = j)) as [->|]; simpl.
  - by rewrite !decide_False.
  - case_decide; [done|apply IH].
Qed.

Lemma dget_dset k k' v d :
  dget k' (dset k v d) = if decide (k = k') then Some v else dget k' d.
Proof. case_decide; subst; [apply dget_dset_eq|by apply dget_dset_ne]. Qed.

Lemma dget_elem k v d : dget k d = Some v -> (k, v) ∈ d.
Proof.
  induction d as [|[j w] d IH]; simpl; [done|].
  case_decide; intros; simplify_eq; [left|right; auto].
Qed.

Lemma dget_None k d : dget k d = None <-> k ∉ dkeys d.
Proof.
  unfold dkeys. induction d as [|[j w] d IH]; simpl; [set_solver|].
  case_decide; rewrite elem_of_cons; naive_solver.
Qed.

Lemma elem_dget k v d : NoDup (dkeys d) -> (k, v) ∈ d -> dget k d = Some v.
Proof.
  unfold dkeys. induction d as [|[j w] d IH]; simpl; [set_solver|].
  rewrite NoDup_cons, elem_of_cons. intros [Hj Hnd] [Heq|Hin]; simplify_eq.
  - by rewrite decide_True.
  - rewrite decide_False; [auto|]. intros ->. apply Hj.
    apply list_elem_of_fmap. by exists (j, v).
Qed.

Lemma dvalues_elem v d :
  v ∈ dvalues d -> NoDup (dkeys d) -> exists k, dget k d = Some v.
Proof.
  unfold dvalues. intros Hin Hnd. apply list_elem_of_fmap in Hin as [[k w] [-> Hin]].
  exists k. by apply elem_dget.
Qed.

Lemma dget_dvalues k v d : dget k d = Some v -> v ∈ dvalues d.
Proof. intros H%dget_elem. apply list_elem_of_fmap. by exists (k, v). Qed.

Lemma dkeys_dset_elem j k v d : j ∈ dkeys (dset k v d) <-> j = k \/ j ∈ dkeys d.
Proof.
  unfold dkeys. induction d as [|[i w] d IH]; simpl; [set_solver|].
  case_decide; simpl; rewrite ?elem_of_cons; [naive_solver|rewrite IH; naive_solver].
Qed.

Lemma dset_NoDup k v d : NoDup (dkeys d) -> NoDup (dkeys (dset k v d)).
Proof.
  induction d as [|[j w] d IH]; simpl.
  - intros _. apply NoDup_singleton.
  - change (dkeys ((j, w) :: d)) with (j :: dkeys d). rewrite NoDup_cons. intros [Hj Hnd].
    case_decide as Hk.
    + subst. by apply NoDup_cons.
    + change (dkeys ((j, w) :: dset k v d)) with (j :: dkeys (dset k v d)).
      apply NoDup_cons. rewrite dkeys_dset_elem. naive_solver.
Qed.

Lemma dset_dkeys_present k v d : k ∈ dkeys d -> dkeys (dset k v d) = dkeys d.
Proof.
  induction d as [|[j w] d IH]; unfold dkeys in *; simpl; [set_solver|].
  rewrite elem_of_cons. case_decide; subst; [done|]. intros [->|Hin]; [done|].
  simpl. by rewrite IH.
Qed.
Lemma dget_ddel_ne k k' d : k <> k' -> dget k' (ddel k d) = dget k' d.
Proof.
  intros Hne. induction d as [|[j w] d IH]; simpl; [done|].
  destruct (decide (k = j)) as [->|]; simpl; [by rewrite decide_False|]. by case_decide.
Qed.

Lemma dkeys_ddel_subset k d j : j ∈ dkeys (ddel k d) -> j ∈ dkeys d.
Proof.
  unfold dkeys. induction d as [|[i w] d IH]; simpl; [done|].
  case_decide; simpl; rewrite ?elem_of_cons; naive_solver.
Qed.

Lemma ddel_NoDup k d : NoDup (dkeys d) -> NoDup (dkeys (ddel k d)) /\ k ∉ dkeys (ddel k d).
Proof.
  induction d as [|[i w] d IH]; simpl; [by intros; split; [constructor|apply not_elem_of_nil]|].
  change (dkeys ((i, w) :: d)) with (i :: dkeys d). rewrite NoDup_cons. intros [Hi Hn].
  case_decide as Hk; [by subst|]. destruct (IH Hn) as [Hx1 Hx2].
  change (dkeys ((i, w) :: ddel k d)) with (i :: dkeys (ddel k d)).
  rewrite NoDup_cons, not_elem_of_cons. split_and!; try done.
  intros Hin. by apply Hi, (dkeys_ddel_subset k).
Qed.

Lemma dget_ddel_eq k d : NoDup (dkeys d) -> dget k (ddel k d) = None.
Proof. intros Hn. by apply dget_None, ddel_NoDup. Qed.
End Dict.


Create HintDb base_agent.
#[export] Hint Resolve dset_NoDup dget_dset_eq : base_agent.

(** ** Nondeterminism of the standard library

    What one call of a modelled operation reads from its environment: the
    value of the injected [self._clock()], the results of its successive
    calls of [utc_now()] and of [uuid4()].  Definitions take the ambient of
    the call as an argument, so that nothing is assumed about clocks or
    generated identifiers unless a theorem says so. *)
Record ambient := Ambient {
  amb_clock : time;
  amb_now : nat -> time;
  amb_uuid : nat -> uuid;
}.

(** The readings a call leaves to the next one it makes: every operation
    of this development reads at most four of each kind. *)
Definition later (amb : ambient) : ambient :=
  Ambient (amb_clock amb) (fun k => amb_now amb (k + 4)%nat) (fun k => amb_uuid amb (k + 4)%nat).

(** ** Sort keys *)

(** [str(a) <= str(b)] for UUIDs: [str] is fixed-width lowercase
    hexadecimal, so it orders as the integers do. *)
Definition uuid_leb (a b : uuid) : bool := (a <=? b)%N.

(** Tuples of a timestamp and a UUID text, and of two timestamps and one. *)
Definition key2_leb (a b : time * uuid) : bool :=
  if fst a <? fst b then true
  else if fst a =? fst b then uuid_leb (snd a) (snd b) else false.

Definition key3_leb (a b : time * (time * uuid)) : bool :=
  if fst a <? fst b then true
  else if fst a =? fst b then key2_leb (snd a) (snd b) else false.

(** [min(x :: l, key=...)]: the first element no later one is strictly
    below. *)
Definition min_by {A} (leb : A -> A -> bool) (x : A) (l : list A) : A :=
  fold_left (fun best y => if leb best y then best else y) l x.

(** [sorted(l, key=...)]: stable insertion sort. *)
Fixpoint insert_by {A} (leb : A -> A -> bool) (x : A) (l : list A) : list A :=
  match l with
  | [] => [x]
  | y :: l' => if leb x y then x :: y :: l' else y :: insert_by leb x l'
  end.

Definition sorted_by {A} (leb : A -> A -> bool) (l : list A) : list A :=
  foldr (insert_by leb) [] l.

(** ** Automation *)

(** [raise_free H] splits the control flow of a computation in [H] that is
    known to return, keeping the tests as hypotheses. *)
Ltac raise_free H :=
  repeat (match type of H with
          | context [match ?x with _ => _ end] =>
              first [ is_var x; destruct x | destruct x eqn:? ]
          end; try discriminate H);
  simplify_eq.

(** Splits every test of the goal. *)
Ltac split_tests :=
  repeat match goal with
         | |- context [match ?x with _ => _ end] =>
             first [ is_var x; destruct x | destruct x eqn:? ]
         end.

(** Booleans to propositions, in the hypotheses and the goal. *)
Ltac reflect :=
  repeat match goal with
         | H : bool_decide _ = true |- _ => apply bool_decide_eq_true_1 in H
         | H : bool_decide _ = false |- _ => apply bool_decide_eq_false_1 in H
         | H : _ && _ = true |- _ => apply andb_true_iff in H as [? ?]
         | H : _ || _ = false |- _ => apply orb_false_iff in H as [? ?]
         | H : negb _ = true |- _ => apply negb_true_iff in H
         | H : negb _ = false |- _ => apply negb_false_iff in H
         | H : (_ =? _)%Z = true |- _ => apply Z.eqb_eq in H
         | H : (_ =? _)%Z = false |- _ => apply Z.eqb_neq in H
         | H : (_ <? _)%Z = true |- _ => apply Z.ltb_lt in H
         | H : (_ <? _)%Z = false |- _ => apply Z.ltb_ge in H
         | H : (_ <=? _)%Z = true |- _ => apply Z.leb_le in H
         | H : (_ <=? _)%Z = false |- _ => apply Z.leb_gt in H
         | H : (_ =? _)%N = true |- _ => apply N.eqb_eq in H
         | H : (_ =? _)%N = false |- _ => apply N.eqb_neq in H
         end.

(** ** Generic lemmas *)

Lemma is_exception_ValueError e :
  isinstance e ExValueError = true -> is_exception e = true.
Proof. destruct e as [c m]; destruct c; vm_compute; congruence. Qed.

Lemma forallb_Forall_bool {A} (p : A -> bool) l :
  forallb p l = true <-> Forall (fun x => p x = true) l.
Proof.
  induction l as [|x l IH]; simpl; [split; auto|].
  rewrite andb_true_iff, Forall_cons, IH. done.
Qed.

Lemma existsb_false_Forall {A} (p : A -> bool) l :
  existsb p l = false <-> Forall (fun x => p x = false) l.
Proof.
  induction l as [|x l IH]; simpl; [split; auto|].
  rewrite orb_false_iff, Forall_cons, IH. done.
Qed.

Section OrderedBy.
Context {A : Type} (leb : A -> A -> bool).
Hypothesis leb_total : forall x y, leb x y = true \/ leb y x = true.
Hypothesis leb_trans : forall x y z, leb x y = true -> leb y z = true -> leb x z = true.

Lemma insert_by_perm x l : insert_by leb x l ≡ₚ x :: l.
Proof.
  induction l as [|y l IH]; simpl; [done|].
  destruct (leb x y); [done|]. rewrite IH. apply Permutation_swap.
Qed.

Lemma sorted_by_perm l : sorted_by leb l ≡ₚ l.
Proof.
  induction l as [|x l IH]; simpl; [done|].
  unfold sorted_by in *; simpl. by rewrite insert_by_perm, IH.
Qed.

Lemma insert_by_sorted x l :
  StronglySorted (fun a b => leb a b = true) l ->
  StronglySorted (fun a b => leb a b = true) (insert_by leb x l).
Proof using leb_total leb_trans.
  induction 1 as [|y l Hs IH Hy]; simpl.
  - repeat constructor.
  - destruct (leb x y) eqn:E.
    + constructor; [by constructor|]. constructor; [done|].
      eapply Forall_impl; [exact Hy|]. intros z; simpl. by apply leb_trans.
    + constructor; [done|]. rewrite insert_by_perm. constructor; [|done].
      destruct (leb_total x y); congruence.
Qed.

Lemma sorted_by_sorted l : StronglySorted (fun a b => leb a b = true) (sorted_by leb l).
Proof using leb_total leb_trans.
  induction l as [|x l IH]; simpl; [constructor|]. by apply insert_by_sorted.
Qed.

Lemma min_by_spec l : forall x,
  min_by leb x l ∈ x :: l /\ Forall (fun y => leb (min_by leb x l) y = true) (x :: l).
Proof using leb_total leb_trans.
  assert (forall x, leb x x = true) as Hrefl by (intros x; by destruct (leb_total x x)).
  unfold min_by. induction l as [|y l IH]; intros x; simpl.
  - split; [set_solver|]. by repeat constructor.
  - destruct (leb x y) eqn:E.
    + destruct (IH x) as [Hin Hall]. apply Forall_cons in Hall as [Hx Hl].
      split; [set_solver|]. repeat constructor; eauto.
    + destruct (IH y) as [Hin Hall]. apply Forall_cons in Hall as [Hy Hl].
      split; [set_solver|]. repeat constructor; eauto.
      destruct (leb_total x y); [congruence|eauto].
Qed.
End OrderedBy.

Lemma key2_leb_total x y : key2_leb x y = true \/ key2_leb y x = true.
Proof.
  destruct x as [a b], y as [c d]; unfold key2_leb, uuid_leb; simpl.
  repeat case_match; reflect; rewrite ?N.leb_le; try lia; auto.
Qed.

Lemma key2_leb_trans x y z :
  key2_leb x y = true -> key2_leb y z = true -> key2_leb x z = true.
Proof.
  destruct x as [a b], y as [c d], z as [e f]; unfold key2_leb, uuid_leb; simpl.
  repeat case_match; rewrite ?N.leb_le; reflect; try done; try lia.
Qed.

Lemma key3_leb_total x y : key3_leb x y = true \/ key3_leb y x = true.
Proof.
  destruct x as [a b], y as [c d]; unfold key3_leb; simpl.
  destruct (key2_leb_total b d);
    repeat case_match; reflect; try lia; auto.
Qed.

Lemma key3_leb_trans x y z :
  key3_leb x y = true -> key3_leb y z = true -> key3_leb x z = true.
Proof.
  destruct x as [a b], y as [c d], z as [e f]; unfold key3_leb; simpl.
  pose proof (key2_leb_trans b d f).
  repeat case_match; reflect; try done; try lia; auto.
Qed.

Lemma dset_fresh {K V} `{EqDecision K} (k : K) (v : V) d :
  k ∉ dkeys d -> dset k v d = d ++ [(k, v)].
Proof.
  unfold dkeys. induction d as [|[j w] d IH]; simpl; [done|].
  rewrite not_elem_of_cons. intros [Hne Hin]. rewrite decide_False by done. by rewrite IH.
Qed.

(** A dictionary comprehension over distinct keys is the list of its
    items. *)
Lemma dmerge_app {K V} `{EqDecision K} (l acc : list (K * V)) :
  NoDup (dkeys (acc ++ l)) -> dmerge acc l = acc ++ l.
Proof.
  unfold dmerge. revert acc. induction l as [|[k v] l IH]; intros acc Hnd; simpl.
  - by rewrite app_nil_r.
  - rewrite dset_fresh.
    + rewrite IH; rewrite <-app_assoc; done.
    + unfold dkeys in *. rewrite map_app, NoDup_app in Hnd. destruct Hnd as (_ & Hd & _).
      intros Hk. apply (Hd _ Hk). by left.
Qed.

Lemma dmerge_nil {K V} `{EqDecision K} (l : list (K * V)) :
  NoDup (map fst l) -> dmerge [] l = l.
Proof. intros H. by apply (dmerge_app l []). Qed.

Lemma find_Some_spec {A} (p : A -> bool) l x :
  List.find p l = Some x -> x ∈ l /\ p x = true.
Proof. intros H. apply List.find_some in H as [H ?]. by apply list_elem_of_In in H. Qed.

Lemma NoDup_map_inj {A B} (f : A -> B) l x y :
  NoDup (map f l) -> x ∈ l -> y ∈ l -> f x = f y -> x = y.
Proof.
  induction l as [|a l IH]; simpl; [set_solver|].
  rewrite NoDup_cons, !elem_of_cons. intros [Ha Hnd] Hx Hy Heq.
  assert (forall z, z ∈ l -> f z <> f a) as Hfa.
  { intros z Hz Hza. apply Ha. rewrite <-Hza. apply list_elem_of_fmap. eauto. }
  destruct Hx as [->|Hx], Hy as [->|Hy]; try done; [|..|by apply IH].
  - symmetry in Heq. by apply Hfa in Heq.
  - by apply Hfa in Heq.
Qed.

Lemma size_list_to_set_le `{Countable A} (l : list A) :
  (size (list_to_set l : gset A) <= length l)%nat.
Proof.
  induction l as [|k ks IH]; simpl; [done|].
  rewrite size_union_alt, size_singleton.
  pose proof (subseteq_size (list_to_set ks ∖ {[k]} : gset A) (list_to_set ks)
                ltac:(by apply subseteq_difference_l)). lia.
Qed.

Lemma length_dkeys {K V} (d : list (K * V)) : length (dkeys d) = length d.
Proof. apply length_map. Qed.

(** The list of what [f] makes of the items. *)
Fixpoint traverse {A B} (f : A -> outcome B) (l : list A) : outcome (list B) :=
  match l with
  | [] => Ok []
  | a :: l' => let! b := f a in let! bs := traverse f l' in Ok (b :: bs)
  end.

Lemma traverse_Forall {A B} (f : A -> outcome B) (P : B -> Prop) l l' :
  (forall a b, f a = Ok b -> P b) -> traverse f l = Ok l' -> Forall P l'.
Proof.
  intros Hf. revert l'. induction l as [|a l IH]; simpl; intros l' E; [by simplify_eq|].
  raise_free E. constructor; [by eapply Hf|by apply IH].
Qed.

Lemma traverse_Forall2 {A B} (f : A -> outcome B) l l' :
  traverse f l = Ok l' -> Forall2 (fun a b => f a = Ok b) l l'.
Proof.
  revert l'. induction l as [|a l IH]; simpl; intros l' E; [by simplify_eq|].
  destruct (f a) as [b|] eqn:Ea; [|done]. destruct (traverse f l) as [bs|] eqn:El; [|done].
  simplify_eq/=. constructor; [done|by apply IH].
Qed.

Lemma traverse_total {A B} (f : A -> outcome B) l :
  (forall x, x ∈ l -> is_ok (f x)) -> is_ok (traverse f l).
Proof.
  induction l as [|x l IH]; intros Hf; simpl; [by eexists|].
  destruct (Hf x) as [y ->]; [by left|]. destruct IH as [ys ->]; [intros; apply Hf; by right|].
  by eexists.
Qed.
