(* ===== verification/Json.v ===== *)
(** * JSON values and Python dictionaries of JSON values

    The values the program keeps in [metadata], [data] and [result] fields:
    [dict[str, Any]] and [JsonValue].  Objects are insertion-ordered
    dictionaries; equality is Python's [==]: order-insensitive on objects,
    numeric across [bool], [int] and [float]. *)

From Stdlib Require Import QArith.
From stdpp Require Import base strings list.
From S2P Require Import Prelude.

Inductive json :=
  | JNull
  | JBool (b : bool)
  | JInt (z : Z)
  | JFloat (q : Q)
  | JStr (s : string)
  | JArr (l : list json)
  | JObj (d : list (string * json)).

Abbreviation jdict := (list (string * json)) (only parsing).

(** The number a JSON scalar is equal to in Python. *)
Definition json_num (j : json) : option Q :=
  match j with
  | JBool b => Some (if b then 1 else 0)%Q
  | JInt z => Some (inject_Z z)
  | JFloat q => Some q
  | _ => None
  end.

(** Python's [==]. *)
Fixpoint json_eqb (x y : json) {struct x} : bool :=
  match x, y with
  | JNull, JNull => true
  | JStr a, JStr b => bool_decide (a = b)
  | JArr l, JArr m =>
      (fix go l m := match l, m with
                     | [], [] => true
                     | a :: l', b :: m' => json_eqb a b && go l' m'
                     | _, _ => false
                     end) l m
  | JObj d, JObj e =>
      (length d =? length e)%nat &&
      (fix go d := match d with
                   | [] => true
                   | (k, a) :: d' =>
                       match dget k e with
                       | Some b => json_eqb a b
                       | None => false
                       end && go d'
                   end) d
  | _, _ =>
      match json_num x, json_num y with
      | Some p, Some q => Qeq_bool p q
      | _, _ => false
      end
  end.

Definition jdict_eqb (d e : jdict) : bool := json_eqb (JObj d) (JObj e).

Definition json_opt_eqb (x y : option json) : bool :=
  match x, y with
  | None, None => true
  | Some a, Some b => json_eqb a b
  | _, _ => false
  end.

(** Distinct keys at every level: what every Python [dict] satisfies. *)
Fixpoint json_wf (x : json) : Prop :=
  match x with
  | JArr l => (fix go l := match l with [] => True | a :: l' => json_wf a /\ go l' end) l
  | JObj d =>
      NoDup (dkeys d) /\
      (fix go d := match d with [] => True | (_, a) :: d' => json_wf a /\ go d' end) d
  | _ => True
  end.

(** [isinstance(value, int) and not isinstance(value, bool)]. *)
Definition json_int (j : json) : option Z :=
  match j with JInt z => Some z | _ => None end.

(** [isinstance(value, str)]. *)
Definition json_str (j : json) : option string :=
  match j with JStr s => Some s | _ => None end.

(** Induction that reaches the elements of arrays and objects. *)
Section JsonInduction.
Variable P : json -> Prop.
Hypothesis Hnull : P JNull.
Hypothesis Hbool : forall b, P (JBool b).
Hypothesis Hint : forall z, P (JInt z).
Hypothesis Hfloat : forall q, P (JFloat q).
Hypothesis Hstr : forall s, P (JStr s).
Hypothesis Harr : forall l, Forall P l -> P (JArr l).
Hypothesis Hobj : forall d, Forall P (map snd d) -> P (JObj d).

Fixpoint json_rect_deep (j : json) : P j :=
  match j with
  | JNull => Hnull
  | JBool b => Hbool b
  | JInt z => Hint z
  | JFloat q => Hfloat q
  | JStr s => Hstr s
  | JArr l =>
      Harr l ((fix go l := match l return Forall P l with
                           | [] => Forall_nil_2 P
                           | a :: l' => Forall_cons_2 P a l' (json_rect_deep a) (go l')
                           end) l)
  | JObj d =>
      Hobj d ((fix go d := match d return Forall P (map snd d) with
                           | [] => Forall_nil_2 P
                           | (k, a) :: d' =>
                               Forall_cons_2 P a (map snd d') (json_rect_deep a) (go d')
                           end) d)
  end.
End JsonInduction.

Lemma json_wf_obj_cons k a d : json_wf (JObj ((k, a) :: d)) -> json_wf a /\ json_wf (JObj d).
Proof. simpl. rewrite NoDup_cons. tauto. Qed.

(** Python's [==] is reflexive on values with distinct keys. *)
Lemma json_eqb_refl j : json_wf j -> json_eqb j j = true.
Proof.
  revert j. apply (json_rect_deep (fun j => json_wf j -> json_eqb j j = true)); simpl; try done.
  - intros b _. by destruct b.
  - intros z _. by apply Qeq_bool_iff.
  - intros q _. by apply Qeq_bool_iff.
  - intros s _. by apply bool_decide_eq_true.
  - intros l Hl Hwf. induction Hl as [|a l Ha Hl IH]; [done|].
    destruct Hwf as [Hwa Hwl]. by rewrite Ha, IH.
  - intros d Hd [Hnd Hwf]. rewrite Nat.eqb_refl. simpl.
    assert (forall k a, (k, a) ∈ d -> dget k d = Some a) as Hget by (intros; by apply elem_dget).
    clear Hnd. revert Hget. generalize d at 2 3 as e. intros e Hget.
    induction d as [|[k a] d IH]; [done|].
    simpl in Hd. apply Forall_cons in Hd as [Ha Hd]. destruct Hwf as [Hwa Hwd].
    rewrite (Hget k a) by left. rewrite Ha by done. simpl.
    apply IH; [done|done|]. intros; apply Hget; by right.
Qed.

Lemma jdict_eqb_refl d : json_wf (JObj d) -> jdict_eqb d d = true.
Proof. apply json_eqb_refl. Qed.
