(* ===== verification/Models.v ===== *)
(** * Provider-neutral data models ([src/base_agent/models/])

    Statuses, messages, token usage, artifacts, events, runs, conversations
    and human-input requests, with the checks pydantic runs when a value is
    constructed: [<X>_fields] are the [Field(...)] constraints of class [X],
    [<X>_validate] is its [model_validator], and [<X>_new] runs both.  The
    class configuration is [frozen], so values are immutable; [model_copy]
    does not re-run the checks. *)

From stdpp Require Import base strings list.
From S2P Require Import Prelude Json.

(** [cls(...)]: the constructor checks, [ValidationError] when one fails.
    The text of a pydantic [ValidationError] is the message of the check
    that failed. *)
Definition validation_error (msg : string) : exn := Exn ValidationError msg.

Definition checked {A} (fields : bool) (validate : A -> outcome unit) (a : A) : outcome A :=
  raise_when negb fields as validation_error "field constraint violated" in
  let! _ := validate a in
  Ok a.

Lemma checked_Ok {A} b (v : A -> outcome unit) a a' :
  checked b v a = Ok a' <-> b = true /\ v a = Ok tt /\ a' = a.
Proof.
  unfold checked. destruct b; simpl; [|by split; [|intros [? _]]].
  destruct (v a) as [[]|]; naive_solver.
Qed.

(** ** Run and result statuses *)

Inductive RunStatus :=
  | CREATED | RUNNING | COMPLETED | FAILED | CANCELLED | INTERRUPTED
  | LIMIT_REACHED | WAITING.

#[export] Instance RunStatus_eq_dec : EqDecision RunStatus.
Proof. solve_decision. Defined.

Definition RunStatus_value (s : RunStatus) : string :=
  match s with
  | CREATED => "created" | RUNNING => "running" | COMPLETED => "completed"
  | FAILED => "failed" | CANCELLED => "cancelled" | INTERRUPTED => "interrupted"
  | LIMIT_REACHED => "limit_reached" | WAITING => "waiting"
  end.

Inductive AgentResultStatus :=
  | R_COMPLETED | R_FAILED | R_CANCELLED | R_INTERRUPTED | R_LIMIT_REACHED | R_WAITING.

#[export] Instance AgentResultStatus_eq_dec : EqDecision AgentResultStatus.
Proof. solve_decision. Defined.

Definition AgentResultStatus_value (s : AgentResultStatus) : string :=
  match s with
  | R_COMPLETED => "completed" | R_FAILED => "failed" | R_CANCELLED => "cancelled"
  | R_INTERRUPTED => "interrupted" | R_LIMIT_REACHED => "limit_reached"
  | R_WAITING => "waiting"
  end.

(** ** Artifacts and attachments *)

Record Attachment := mk_Attachment {
  att_id : uuid;
  att_name : string;
  att_media_type : string;
  att_size_bytes : Z;
  att_checksum_sha256 : string;
  att_created_at : time;
  att_metadata : jdict;
}.

Definition Attachment_fields (a : Attachment) : bool :=
  len_between 1 255 (att_name a) && len_between 1 255 (att_media_type a)
  && (0 <=? att_size_bytes a) && is_sha256_hex (att_checksum_sha256 a).

Record Artifact := mk_Artifact {
  art_id : uuid;
  art_run_id : uuid;
  art_name : string;
  art_media_type : string;
  art_size_bytes : Z;
  art_checksum_sha256 : string;
  art_created_at : time;
  art_metadata : jdict;
}.

Definition Artifact_fields (a : Artifact) : bool :=
  len_between 1 255 (art_name a) && len_between 1 255 (art_media_type a)
  && (0 <=? art_size_bytes a) && is_sha256_hex (art_checksum_sha256 a).

(** ** Token usage *)

Record TokenUsage := mk_TokenUsage {
  input_tokens : Z;
  output_tokens : Z;
  total_tokens : Z;
}.

#[export] Instance TokenUsage_eq_dec : EqDecision TokenUsage.
Proof. solve_decision. Defined.

(** [populate_and_validate_total] on the supplied counts (absent ones are
    0), followed by the [ge=0] checks. *)
Definition TokenUsage_new (input output total : Z) : outcome TokenUsage :=
  let expected := input + output in
  raise_when negb ((total =? 0) || (total =? expected))
    as validation_error "total_tokens must equal input_tokens + output_tokens" in
  raise_when negb ((0 <=? input) && (0 <=? output) && (0 <=? expected))
    as validation_error "field constraint violated" in
  Ok (mk_TokenUsage input output expected).

(** [TokenUsage()]. *)
Definition TokenUsage_zero : TokenUsage := mk_TokenUsage 0 0 0.

(** [self + other]. *)
Definition TokenUsage_add (a b : TokenUsage) : outcome TokenUsage :=
  TokenUsage_new (input_tokens a + input_tokens b) (output_tokens a + output_tokens b) 0.

(** What the constructor guarantees of every value. *)
Definition TokenUsage_ok (u : TokenUsage) : Prop :=
  0 <= input_tokens u /\ 0 <= output_tokens u /\
  total_tokens u = input_tokens u + output_tokens u.

Lemma TokenUsage_new_ok i o t u : TokenUsage_new i o t = Ok u -> TokenUsage_ok u.
Proof. unfold TokenUsage_new, TokenUsage_ok. intros H. raise_free H. reflect. simpl. lia. Qed.

Lemma TokenUsage_add_ok a b :
  TokenUsage_ok a -> TokenUsage_ok b ->
  TokenUsage_add a b =
    Ok (mk_TokenUsage (input_tokens a + input_tokens b) (output_tokens a + output_tokens b)
          (total_tokens a + total_tokens b)).
Proof.
  unfold TokenUsage_ok, TokenUsage_add, TokenUsage_new. intros (?&?&Ha) (?&?&Hb).
  rewrite !(proj2 (Z.leb_le _ _)) by lia. rewrite Ha, Hb. simpl. do 2 f_equal. lia.
Qed.

(** ** Messages and tool calls *)

Inductive MessageRole := SYSTEM | USER | ASSISTANT | TOOL.

#[export] Instance MessageRole_eq_dec : EqDecision MessageRole.
Proof. solve_decision. Defined.

Definition MessageRole_value (r : MessageRole) : string :=
  match r with
  | SYSTEM => "system" | USER => "user" | ASSISTANT => "assistant" | TOOL => "tool"
  end.

Record ToolCall := mk_ToolCall {
  call_id : string;
  call_name : string;
  call_arguments : jdict;
}.

(** [^[A-Za-z0-9_.-]+$] within 128 characters. *)
Definition tool_name_ok (s : string) : bool :=
  len_between 1 128 s && all_chars (fun c => is_alnum c || has_char c "_.-") s.

Definition ToolCall_fields (c : ToolCall) : bool :=
  (1 <=? slen (call_id c)) && tool_name_ok (call_name c).

Record Message := mk_Message {
  msg_role : MessageRole;
  msg_content : option string;
  msg_tool_calls : list ToolCall;
  msg_tool_call_id : option string;
}.

Definition no_calls (l : list ToolCall) : bool :=
  match l with [] => true | _ => false end.

(** [Message.validate_role_fields]. *)
Definition Message_validate (m : Message) : outcome unit :=
  if bool_decide (msg_role m = ASSISTANT) then
    raise_when bool_decide (msg_content m = None) && no_calls (msg_tool_calls m)
      as validation_error "assistant messages require content or tool_calls" in
    raise_when negb (bool_decide (msg_tool_call_id m = None))
      as validation_error "assistant messages cannot set tool_call_id" in
    Ok tt
  else
    raise_when negb (no_calls (msg_tool_calls m))
      as validation_error "only assistant messages may contain tool_calls" in
    raise_when bool_decide (msg_content m = None)
      as validation_error (fstr [MessageRole_value (msg_role m); " messages require content"]) in
    if bool_decide (msg_role m = TOOL) then
      raise_when falsy (msg_tool_call_id m)
        as validation_error "tool messages require tool_call_id" in
      Ok tt
    else
      raise_when negb (bool_decide (msg_tool_call_id m = None))
        as validation_error "only tool messages may set tool_call_id" in
      Ok tt.

Definition Message_new (m : Message) : outcome Message :=
  checked (forallb ToolCall_fields (msg_tool_calls m)) Message_validate m.

(** [Message.system], [Message.user], [Message.assistant], [Message.tool]. *)
Definition Message_system (content : string) : outcome Message :=
  Message_new (mk_Message SYSTEM (Some content) [] None).
Definition Message_user (content : string) : outcome Message :=
  Message_new (mk_Message USER (Some content) [] None).
Definition Message_assistant (content : option string) (tool_calls : list ToolCall)
  : outcome Message :=
  Message_new (mk_Message ASSISTANT content tool_calls None).
Definition Message_tool (content : string) (tool_call_id : string) : outcome Message :=
  Message_new (mk_Message TOOL (Some content) [] (Some tool_call_id)).

Lemma Message_user_Ok s : Message_user s = Ok (mk_Message USER (Some s) [] None).
Proof. reflexivity. Qed.

Lemma Message_assistant_text s :
  Message_assistant (Some s) [] = Ok (mk_Message ASSISTANT (Some s) [] None).
Proof. reflexivity. Qed.

(** ** Human input *)

Record PendingInput := mk_PendingInput {
  pend_tool_call_id : string;
  pend_tool_name : string;
  pend_prompt : string;
  pend_metadata : jdict;
}.

Definition PendingInput_fields (p : PendingInput) : bool :=
  (1 <=? slen (pend_tool_call_id p)) && (1 <=? slen (pend_tool_name p))
  && (1 <=? slen (pend_prompt p)).

Inductive ToolConfirmationDecision := APPROVE | REJECT.

#[export] Instance ToolConfirmationDecision_eq_dec : EqDecision ToolConfirmationDecision.
Proof. solve_decision. Defined.

Record ToolConfirmation := mk_ToolConfirmation {
  conf_request_id : uuid;
  conf_decision : ToolConfirmationDecision;
  conf_subject_id : string;
  conf_reason_code : string;
  conf_decided_at : time;
}.

Definition ToolConfirmation_fields (c : ToolConfirmation) : bool :=
  len_between 1 256 (conf_subject_id c) && len_between 1 256 (conf_reason_code c)
  && matches_key "_.:-" (conf_reason_code c).

(** ** Tool results *)

Inductive ToolResultStatus :=
  | T_SUCCESS | T_INVALID_ARGUMENTS | T_NOT_FOUND | T_DENIED | T_TIMEOUT | T_ERROR
  | T_WAITING.

#[export] Instance ToolResultStatus_eq_dec : EqDecision ToolResultStatus.
Proof. solve_decision. Defined.

Record ToolResult := mk_ToolResult {
  res_tool_name : string;
  res_status : ToolResultStatus;
  res_data : json;
  res_error_code : option string;
  res_message : option string;
}.

Definition ToolResult_succeeded (r : ToolResult) : bool :=
  bool_decide (res_status r = T_SUCCESS).

(** ** Runs *)

Record SkillReference := mk_SkillReference {
  skill_name : string;
  skill_version : string;
}.

Record Run := mk_Run {
  run_id : uuid;
  run_profile_id : string;
  run_conversation_id : option uuid;
  run_turn_sequence : option Z;
  run_status : RunStatus;
  run_step_count : Z;
  run_tool_call_count : Z;
  run_usage : TokenUsage;
  run_skills : list SkillReference;
  run_output : option string;
  run_error : option string;
  run_cancel_requested : bool;
  run_created_at : time;
  run_updated_at : time;
  run_metadata : jdict;
  run_attachments : list Attachment;
  run_artifacts : list Artifact;
}.

(** [Run.validate_conversation_link]. *)
Definition Run_validate (r : Run) : outcome unit :=
  raise_when negb (Bool.eqb (bool_decide (run_conversation_id r = None))
                            (bool_decide (run_turn_sequence r = None)))
    as validation_error "conversation_id and turn_sequence must be provided together" in
  Ok tt.

(** ** Conversations *)

Record Conversation := mk_Conversation {
  conv_id : uuid;
  conv_profile_id : string;
  conv_version : Z;
  conv_active_run_id : option uuid;
  conv_created_at : time;
  conv_updated_at : time;
  conv_metadata : jdict;
}.

Record ConversationTurn := mk_ConversationTurn {
  turn_conversation_id : uuid;
  turn_sequence : Z;
  turn_run_id : uuid;
  turn_status : RunStatus;
  turn_user_message : string;
  turn_assistant_message : option string;
  turn_created_at : time;
  turn_updated_at : time;
}.

Definition ConversationTurn_fields (t : ConversationTurn) : bool :=
  (1 <=? turn_sequence t) && (1 <=? slen (turn_user_message t)).

(** ** Events *)

Inductive EventType :=
  | EV_FLOW_CREATED
  | EV_FLOW_STARTED
  | EV_FLOW_RESUMED
  | EV_FLOW_WAITING
  | EV_FLOW_COMPLETED
  | EV_FLOW_FAILED
  | EV_FLOW_CANCELLED
  | EV_FLOW_INTERRUPTED
  | EV_FLOW_LIMIT_REACHED
  | EV_AGENT_INVOCATION_STARTED
  | EV_AGENT_INVOCATION_RESUMED
  | EV_AGENT_INVOCATION_WAITING
  | EV_AGENT_INVOCATION_COMPLETED
  | EV_AGENT_INVOCATION_FAILED
  | EV_AGENT_INVOCATION_CANCELLED
  | EV_AGENT_INVOCATION_INTERRUPTED
  | EV_AGENT_INVOCATION_LIMIT_REACHED
  | EV_AGENT_INVOCATION_CANCELLATION_PROPAGATION_FAILED
  | EV_RUN_CREATED
  | EV_RUN_STARTED
  | EV_RUN_RESUMED
  | EV_SKILL_SELECTED
  | EV_SKILL_LOADED
  | EV_MODEL_REQUESTED
  | EV_MODEL_RESPONDED
  | EV_TOOL_REQUESTED
  | EV_TOOL_STARTED
  | EV_TOOL_COMPLETED
  | EV_TOOL_FAILED
  | EV_TOOL_WAITING
  | EV_TOOL_CONFIRMATION_REQUESTED
  | EV_TOOL_CONFIRMATION_DECIDED
  | EV_INPUT_RECEIVED
  | EV_PLAN_CREATED
  | EV_PLAN_REVIEWED
  | EV_PLAN_UPDATED
  | EV_STEP_STARTED
  | EV_STEP_RESUMED
  | EV_STEP_WAITING
  | EV_STEP_COMPLETED
  | EV_STEP_FAILED
  | EV_STEP_CANCELLED
  | EV_STEP_SKIPPED
  | EV_REACT_ITERATION_STARTED
  | EV_REACT_ACTION_BATCH_SELECTED
  | EV_REACT_OBSERVATION_BATCH_RECORDED
  | EV_REACT_ITERATION_COMPLETED
  | EV_RESOURCE_ACQUIRED
  | EV_RESOURCE_RELEASED
  | EV_RESOURCE_FAILED
  | EV_ATTACHMENT_ADDED
  | EV_ARTIFACT_CREATED
  | EV_MEMORY_RETRIEVED
  | EV_MEMORY_FAILED
  | EV_SUPERVISOR_INTERVENED
  | EV_RUN_COMPLETED
  | EV_RUN_FAILED
  | EV_RUN_CANCELLED
  | EV_RUN_INTERRUPTED
  | EV_RUN_LIMIT_REACHED
  | EV_RUN_WAITING.

#[export] Instance EventType_eq_dec : EqDecision EventType.
Proof. solve_decision. Defined.

Definition EventType_value (t : EventType) : string :=
  match t with
  | EV_FLOW_CREATED => "flow.created"
  | EV_FLOW_STARTED => "flow.started"
  | EV_FLOW_RESUMED => "flow.resumed"
  | EV_FLOW_WAITING => "flow.waiting"
  | EV_FLOW_COMPLETED => "flow.completed"
  | EV_FLOW_FAILED => "flow.failed"
  | EV_FLOW_CANCELLED => "flow.cancelled"
  | EV_FLOW_INTERRUPTED => "flow.interrupted"
  | EV_FLOW_LIMIT_REACHED => "flow.limit_reached"
  | EV_AGENT_INVOCATION_STARTED => "agent_invocation.started"
  | EV_AGENT_INVOCATION_RESUMED => "agent_invocation.resumed"
  | EV_AGENT_INVOCATION_WAITING => "agent_invocation.waiting"
  | EV_AGENT_INVOCATION_COMPLETED => "agent_invocation.completed"
  | EV_AGENT_INVOCATION_FAILED => "agent_invocation.failed"
  | EV_AGENT_INVOCATION_CANCELLED => "agent_invocation.cancelled"
  | EV_AGENT_INVOCATION_INTERRUPTED => "agent_invocation.interrupted"
  | EV_AGENT_INVOCATION_LIMIT_REACHED => "agent_invocation.limit_reached"
  | EV_AGENT_INVOCATION_CANCELLATION_PROPAGATION_FAILED => "agent_invocation.cancellation_propagation_failed"
  | EV_RUN_CREATED => "run.created"
  | EV_RUN_STARTED => "run.started"
  | EV_RUN_RESUMED => "run.resumed"
  | EV_SKILL_SELECTED => "skill.selected"
  | EV_SKILL_LOADED => "skill.loaded"
  | EV_MODEL_REQUESTED => "model.requested"
  | EV_MODEL_RESPONDED => "model.responded"
  | EV_TOOL_REQUESTED => "tool.requested"
  | EV_TOOL_STARTED => "tool.started"
  | EV_TOOL_COMPLETED => "tool.completed"
  | EV_TOOL_FAILED => "tool.failed"
  | EV_TOOL_WAITING => "tool.waiting"
  | EV_TOOL_CONFIRMATION_REQUESTED => "tool_confirmation.requested"
  | EV_TOOL_CONFIRMATION_DECIDED => "tool_confirmation.decided"
  | EV_INPUT_RECEIVED => "input.received"
  | EV_PLAN_CREATED => "plan.created"
  | EV_PLAN_REVIEWED => "plan.reviewed"
  | EV_PLAN_UPDATED => "plan.updated"
  | EV_STEP_STARTED => "step.started"
  | EV_STEP_RESUMED => "step.resumed"
  | EV_STEP_WAITING => "step.waiting"
  | EV_STEP_COMPLETED => "step.completed"
  | EV_STEP_FAILED => "step.failed"
  | EV_STEP_CANCELLED => "step.cancelled"
  | EV_STEP_SKIPPED => "step.skipped"
  | EV_REACT_ITERATION_STARTED => "react.iteration.started"
  | EV_REACT_ACTION_BATCH_SELECTED => "react.action_batch.selected"
  | EV_REACT_OBSERVATION_BATCH_RECORDED => "react.observation_batch.recorded"
  | EV_REACT_ITERATION_COMPLETED => "react.iteration.completed"
  | EV_RESOURCE_ACQUIRED => "resource.acquired"
  | EV_RESOURCE_RELEASED => "resource.released"
  | EV_RESOURCE_FAILED => "resource.failed"
  | EV_ATTACHMENT_ADDED => "attachment.added"
  | EV_ARTIFACT_CREATED => "artifact.created"
  | EV_MEMORY_RETRIEVED => "memory.retrieved"
  | EV_MEMORY_FAILED => "memory.failed"
  | EV_SUPERVISOR_INTERVENED => "supervisor.intervened"
  | EV_RUN_COMPLETED => "run.completed"
  | EV_RUN_FAILED => "run.failed"
  | EV_RUN_CANCELLED => "run.cancelled"
  | EV_RUN_INTERRUPTED => "run.interrupted"
  | EV_RUN_LIMIT_REACHED => "run.limit_reached"
  | EV_RUN_WAITING => "run.waiting"
  end.

(** One ordered fact in the history of a Run. *)
Record RuntimeEvent := mk_RuntimeEvent {
  ev_id : uuid;
  ev_run_id : uuid;
  ev_sequence : Z;
  ev_type : EventType;
  ev_timestamp : time;
  ev_data : jdict;
}.

Definition RuntimeEvent_fields (e : RuntimeEvent) : bool := 1 <=? ev_sequence e.

(** ** Model provider contract *)

Inductive ToolChoice := TC_AUTO | TC_NONE | TC_REQUIRED.

#[export] Instance ToolChoice_eq_dec : EqDecision ToolChoice.
Proof. solve_decision. Defined.

Record ToolDefinition := mk_ToolDefinition {
  td_name : string;
  td_description : string;
  td_input_schema : jdict;
}.

(** [ToolDefinition.validate_input_schema]. *)
Definition ToolDefinition_validate (d : ToolDefinition) : outcome unit :=
  raise_when negb (match dget "type" (td_input_schema d) with
                   | Some v => json_eqb v (JStr "object")
                   | None => false
                   end)
    as validation_error "tool input_schema must describe a JSON object" in
  Ok tt.

Record ModelResponse := mk_ModelResponse {
  mr_content : option string;
  mr_tool_calls : list ToolCall;
  mr_finish_reason : option string;
  mr_usage : TokenUsage;
  mr_provider_metadata : jdict;
}.

(** [ModelResponse.validate_payload]. *)
Definition ModelResponse_validate (r : ModelResponse) : outcome unit :=
  raise_when bool_decide (mr_content r = None) && no_calls (mr_tool_calls r)
    as validation_error "model responses require content or tool_calls" in
  Ok tt.

(** [ModelResponse.to_assistant_message]. *)
Definition to_assistant_message (r : ModelResponse) : outcome Message :=
  Message_assistant (mr_content r) (mr_tool_calls r).

(** A response accepted by the constructor always converts to a message. *)
Lemma to_assistant_message_total r :
  ModelResponse_validate r = Ok tt -> forallb ToolCall_fields (mr_tool_calls r) = true ->
  to_assistant_message r = Ok (mk_Message ASSISTANT (mr_content r) (mr_tool_calls r) None).
Proof.
  unfold ModelResponse_validate, to_assistant_message, Message_assistant, Message_new, checked.
  intros H Hf. simpl. rewrite Hf. simpl. unfold Message_validate. simpl. by raise_free H.
Qed.
