(* ===== verification/Sha256.v ===== *)
(** * Standard-library hashing and canonical JSON

    What the program uses of [hashlib] and [json]: [sha256(b).hexdigest()]
    (FIPS 180-4) and [json.dumps(v, ensure_ascii=False, separators=(",", ":"),
    sort_keys=True)].  A byte string is the string of its bytes.  The text of
    a float ([repr]) is a parameter, [float_repr]. *)

From Stdlib Require Import QArith.
From stdpp Require Import base strings list.
From S2P Require Import Prelude Json.

(** ** SHA-256 *)

Section Sha256.
Open Scope N_scope.

Definition w32 (n : N) : N := N.land n 4294967295.
Definition add32 (a b : N) : N := w32 (a + b).
Definition rotr (k x : N) : N := N.lor (N.shiftr x k) (w32 (N.shiftl x (32 - k))).
Definition not32 (x : N) : N := N.lxor x 4294967295.

Definition sha_ch (x y z : N) : N := N.lxor (N.land x y) (N.land (not32 x) z).
Definition sha_maj (x y z : N) : N :=
  N.lxor (N.lxor (N.land x y) (N.land x z)) (N.land y z).
Definition big_sigma0 (x : N) : N := N.lxor (N.lxor (rotr 2 x) (rotr 13 x)) (rotr 22 x).
Definition big_sigma1 (x : N) : N := N.lxor (N.lxor (rotr 6 x) (rotr 11 x)) (rotr 25 x).
Definition small_sigma0 (x : N) : N := N.lxor (N.lxor (rotr 7 x) (rotr 18 x)) (N.shiftr x 3).
Definition small_sigma1 (x : N) : N := N.lxor (N.lxor (rotr 17 x) (rotr 19 x)) (N.shiftr x 10).

Definition sha_k : list N :=
[1116352408; 1899447441; 3049323471; 3921009573; 961987163; 1508970993;
 2453635748; 2870763221; 3624381080; 310598401; 607225278; 1426881987;
 1925078388; 2162078206; 2614888103; 3248222580; 3835390401; 4022224774;
 264347078; 604807628; 770255983; 1249150122; 1555081692; 1996064986;
 2554220882; 2821834349; 2952996808; 3210313671; 3336571891; 3584528711;
 113926993; 338241895; 666307205; 773529912; 1294757372; 1396182291;
 1695183700; 1986661051; 2177026350; 2456956037; 2730485921; 2820302411;
 3259730800; 3345764771; 3516065817; 3600352804; 4094571909; 275423344;
 430227734; 506948616; 659060556; 883997877; 958139571; 1322822218;
 1537002063; 1747873779; 1955562222; 2024104815; 2227730452; 2361852424;
 2428436474; 2756734187; 3204031479; 3329325298].

Definition sha_init : list N :=
[1779033703; 3144134277; 1013904242; 2773480762; 1359893119; 2600822924; 528734635; 1541459225].

(** Message schedule, most recent word first. *)
Fixpoint sha_schedule (n : nat) (w : list N) : list N :=
  match n with
  | O => w
  | S n' =>
      let t := add32 (add32 (small_sigma1 (nth 1 w 0)) (nth 6 w 0))
                     (add32 (small_sigma0 (nth 14 w 0)) (nth 15 w 0)) in
      sha_schedule n' (t :: w)
  end.

Definition sha_round (st : list N) (kw : N * N) : list N :=
  match st with
  | [a; b; c; d; e; f; g; h] =>
      let t1 := add32 (add32 h (big_sigma1 e))
                      (add32 (sha_ch e f g) (add32 (fst kw) (snd kw))) in
      let t2 := add32 (big_sigma0 a) (sha_maj a b c) in
      [add32 t1 t2; a; b; c; add32 d t1; e; f; g]
  | _ => st
  end.

Definition sha_block (h : list N) (block : list N) : list N :=
  let w := rev (sha_schedule 48 (rev block)) in
  zip_with add32 h (fold_left sha_round (zip sha_k w) h).

Fixpoint words (bytes : list N) : list N :=
  match bytes with
  | a :: b :: c :: d :: rest => (a * 16777216 + b * 65536 + c * 256 + d) :: words rest
  | _ => []
  end.

Fixpoint blocks (n : nat) (ws : list N) : list (list N) :=
  match n with
  | O => []
  | S n' => take 16 ws :: blocks n' (drop 16 ws)
  end.

Fixpoint be_bytes (n : nat) (x : N) : list N :=
  match n with
  | O => []
  | S n' => (x / 256 ^ N.of_nat n') mod 256 :: be_bytes n' x
  end.

Definition sha_pad (bytes : list N) : list N :=
  let len := length bytes in
  let z := ((119 - len mod 64) mod 64)%nat in
  bytes ++ 128 :: repeat 0 z ++ be_bytes 8 (8 * N.of_nat len).

Fixpoint string_bytes (s : string) : list N :=
  match s with
  | EmptyString => []
  | String a s' => Ascii.N_of_ascii a :: string_bytes s'
  end.

(** [hashlib.sha256(payload).hexdigest()]. *)
Definition sha256_hex (payload : string) : string :=
  let ws := words (sha_pad (string_bytes payload)) in
  String.concat "" (map (hex_digits 8) (fold_left sha_block (blocks (length ws / 16)%nat ws) sha_init)).
End Sha256.

Example sha256_empty :
  sha256_hex "" = "e3b0c44298fc1c149afbf4c8996fb92427ae41e4649b934ca495991b7852b855".
Proof. vm_compute. reflexivity. Qed.

Example sha256_two_blocks :
  sha256_hex "abcdbcdecdefdefgefghfghighijhijkijkljklmklmnlmnomnopnopq"
  = "248d6a61d20638b8e5c026930c3e6039a33ce45964ff2167f6ecedd419db06c1".
Proof. vm_compute. reflexivity. Qed.

(** ** Text encoding and canonical JSON *)

(** [s.encode()]: UTF-8 of a string of code points below 256. *)
Fixpoint utf8 (s : string) : string :=
  match s with
  | EmptyString => EmptyString
  | String a s' =>
      let n := Ascii.N_of_ascii a in
      if (n <? 128)%N then String a (utf8 s')
      else String (Ascii.ascii_of_N (192 + n / 64))
             (String (Ascii.ascii_of_N (128 + n mod 64)) (utf8 s'))
  end.

(** [repr] of a float, the one rendering the development does not define. *)
Class FloatRepr := float_repr : Q -> string.

Definition dquote : Ascii.ascii := Ascii.ascii_of_N 34.
Definition backslash : Ascii.ascii := Ascii.ascii_of_N 92.

Fixpoint json_escape (s : string) : string :=
  match s with
  | EmptyString => EmptyString
  | String a s' =>
      let n := Ascii.N_of_ascii a in
      let esc (c : N) := String backslash (String (Ascii.ascii_of_N c) (json_escape s')) in
      if (n =? 34)%N then esc 34%N
      else if (n =? 92)%N then esc 92%N
      else if (n =? 10)%N then esc 110%N
      else if (n =? 13)%N then esc 114%N
      else if (n =? 9)%N then esc 116%N
      else if (n =? 12)%N then esc 102%N
      else if (n =? 8)%N then esc 98%N
      else if (n <? 32)%N
           then String backslash ("u00" +:+ hex_digits 2 n +:+ json_escape s')
           else String a (json_escape s')
  end.

Definition json_quote (s : string) : string :=
  String dquote (json_escape s) +:+ String dquote EmptyString.

Definition key_leb (a b : string * string) : bool := String.leb (fst a) (fst b).

Section JsonDumps.
Context `{FloatRepr}.

(** [json.dumps(v, ensure_ascii=False, separators=(",", ":"), sort_keys=True)]. *)
Fixpoint json_dumps (j : json) : string :=
  match j with
  | JNull => "null"
  | JBool b => if b then "true" else "false"
  | JInt z => zstr z
  | JFloat q => float_repr q
  | JStr s => json_quote s
  | JArr l => "[" +:+ String.concat "," (map json_dumps l) +:+ "]"
  | JObj d =>
      let items := (fix go d := match d with
                                | [] => []
                                | (k, v) :: d' => (k, json_dumps v) :: go d'
                                end) d in
      "{" +:+ String.concat ","
        (map (fun kv => json_quote (fst kv) +:+ ":" +:+ snd kv) (sorted_by key_leb items))
      +:+ "}"
  end.

(** [hashlib.sha256(json.dumps(payload, ...).encode()).hexdigest()]. *)
Definition canonical_digest (payload : json) : string := sha256_hex (utf8 (json_dumps payload)).
End JsonDumps.

Example json_dumps_sorted :
  json_dumps (H := fun _ => "") (JObj [("b", JArr [JInt 1; JBool true]); ("a", JNull)])
  = fstr ["{"; json_quote "a"; ":null,"; json_quote "b"; ":[1,true]}"].
Proof. vm_compute. reflexivity. Qed.

(** ** A digest always satisfies the [^[0-9a-f]{64}$] field constraint *)

Lemma hex_digit_lower d : (d < 16)%N -> is_hex_lower (hex_digit d) = true.
Proof.
  intros Hd. rewrite <-(N2Nat.id d).
  assert (forallb (fun n => is_hex_lower (hex_digit (N.of_nat n))) (seq 0 16) = true) as Hall
    by (vm_compute; reflexivity).
  rewrite forallb_forall in Hall. apply Hall, in_seq. lia.
Qed.

Lemma hex_digits_ok w n :
  (n < 16 ^ N.of_nat w)%N ->
  all_chars is_hex_lower (hex_digits w n) = true /\ String.length (hex_digits w n) = w.
Proof.
  revert n. induction w as [|w IH]; intros n Hn; simpl; [done|].
  assert (16 ^ N.of_nat w <> 0)%N as Hz by (apply N.pow_nonzero; lia).
  destruct (IH (n mod 16 ^ N.of_nat w)%N) as [-> ->]; [by apply N.mod_lt|].
  rewrite hex_digit_lower; [done|].
  apply N.Div0.div_lt_upper_bound. rewrite Nat2N.inj_succ, N.pow_succ_r' in Hn. lia.
Qed.

Lemma all_chars_app p a b : all_chars p (a +:+ b) = all_chars p a && all_chars p b.
Proof. induction a as [|c a IH]; simpl; [done|]. by rewrite IH, andb_assoc. Qed.

Lemma length_string_app a b : String.length (a +:+ b) = (String.length a + String.length b)%nat.
Proof. induction a as [|c a IH]; simpl; [done|]. by rewrite IH. Qed.

Lemma concat_hex_ok (ws : list N) :
  Forall (fun x => (x < 2 ^ 32)%N) ws ->
  all_chars is_hex_lower (String.concat "" (map (hex_digits 8) ws)) = true /\
  String.length (String.concat "" (map (hex_digits 8) ws)) = (8 * length ws)%nat.
Proof.
  induction 1 as [|x ws Hx Hws [IHa IHl]]; [done|].
  assert (x < 16 ^ N.of_nat 8)%N as Hx' 
    by (replace (16 ^ N.of_nat 8)%N with (2 ^ 32)%N by (vm_compute; reflexivity); exact Hx).
  destruct (hex_digits_ok 8 x Hx') as [Ha Hl]. destruct ws as [|y ws].
  - change (String.concat "" (map (hex_digits 8) [x])) with (hex_digits 8 x).
    rewrite Ha, Hl. done.
  - cbn [map String.concat]. cbn [map String.concat] in IHa, IHl.
    rewrite !all_chars_app, Ha, IHa. split; [done|].
    rewrite !length_string_app, Hl, IHl. simpl. lia.
Qed.

Lemma add32_bound a b : (add32 a b < 2 ^ 32)%N.
Proof.
  unfold add32, w32. change 4294967295%N with (N.ones 32). rewrite N.land_ones.
  apply N.mod_lt. done.
Qed.

Lemma sha_round_length st kw : length st = 8%nat -> length (sha_round st kw) = 8%nat.
Proof. intros H. do 9 (destruct st as [|? st]; try done). Qed.

Lemma sha_block_ok h block :
  length h = 8%nat ->
  length (sha_block h block) = 8%nat /\ Forall (fun x => (x < 2 ^ 32)%N) (sha_block h block).
Proof.
  intros Hh. unfold sha_block.
  set (ws := zip sha_k _).
  assert (length (fold_left sha_round ws h) = 8%nat) as Hr.
  { revert h Hh. induction ws as [|kw ws IH]; simpl; intros h Hh; [done|].
    by apply IH, sha_round_length. }
  split; [rewrite length_zip_with; lia|].
  apply Forall_forall. intros x Hx. apply elem_of_lookup_zip_with_1 in Hx as (? & ? & ? & -> & _).
  apply add32_bound.
Qed.

Lemma sha256_hex_ok payload : is_sha256_hex (sha256_hex payload) = true.
Proof.
  unfold sha256_hex. set (bs := blocks _ _).
  assert (length (fold_left sha_block bs sha_init) = 8%nat /\
          Forall (fun x => (x < 2 ^ 32)%N) (fold_left sha_block bs sha_init)) as [Hl Hb].
  { assert (length sha_init = 8%nat /\ Forall (fun x => (x < 2 ^ 32)%N) sha_init) as Hi
      by (split; [done|unfold sha_init; repeat constructor]).
    revert Hi. generalize sha_init as h. induction bs as [|b bs IH]; simpl; intros h [Hl Hb]; [done|].
    by apply IH, sha_block_ok. }
  destruct (concat_hex_ok _ Hb) as [Ha Hn].
  unfold is_sha256_hex, slen. by rewrite Hn, Hl, Ha.
Qed.
