(* ===== verification/Texts.v ===== *)
(** * Operations on texts

    Python's string methods and the matching of simple patterns, shared by the
    components that read texts of external systems. *)

From stdpp Require Import base strings list pretty.
From S2P Require Import Prelude Sha256.

(** [s.removeprefix(p)] when [s.startswith(p)]. *)
Fixpoint after_prefix (p s : string) : option string :=
  match p, s with
  | EmptyString, _ => Some s
  | String a p', String b s' => if bool_decide (a = b) then after_prefix p' s' else None
  | String _ _, EmptyString => None
  end.

(** [s.startswith(p)]. *)
Definition starts (p s : string) : bool :=
  match after_prefix p s with Some _ => true | None => false end.

Definition rstrip (s : string) : string := String.rev (lstrip (String.rev s)).

(** The longest prefix of characters in [p], and the rest. *)
Fixpoint span (p : Ascii.ascii -> bool) (s : string) : string * string :=
  match s with
  | EmptyString => (EmptyString, EmptyString)
  | String a s' =>
      if p a then let '(x, y) := span p s' in (String a x, y) else (EmptyString, s)
  end.

(** The same for a repetition [+]. *)
Definition span1 (p : Ascii.ascii -> bool) (s : string) : option (string * string) :=
  let '(x, y) := span p s in if is_empty x then None else Some (x, y).

Definition is_digit_char (a : Ascii.ascii) : bool :=
  let n := Ascii.N_of_ascii a in ((48 <=? n) && (n <=? 57))%N.

(** [int(digits)]. *)
Fixpoint digits_value (acc : Z) (s : string) : Z :=
  match s with
  | EmptyString => acc
  | String a s' => digits_value (acc * 10 + (Z.of_N (Ascii.N_of_ascii a) - 48)) s'
  end.

(** Texts of one or more characters in [p]. *)
Definition token (p : Ascii.ascii -> bool) (s : string) : bool := negb (is_empty s) && all_chars p s.

Definition stops (p : Ascii.ascii -> bool) (s : string) : bool :=
  match s with EmptyString => true | String a _ => negb (p a) end.

Lemma span_app p x y : all_chars p x = true -> stops p y = true -> span p (x +:+ y) = (x, y).
Proof.
  induction x as [|a x IH]; simpl; intros Hx Hy.
  - destruct y as [|b y]; [done|]. simpl in *. by destruct (p b).
  - apply andb_true_iff in Hx as [-> Hx]. by rewrite (IH Hx Hy).
Qed.

Lemma span1_app p x y : token p x = true -> stops p y = true -> span1 p (x +:+ y) = Some (x, y).
Proof.
  unfold token, span1. intros [He Hx]%andb_true_iff Hy. rewrite span_app by done.
  by destruct (is_empty x).
Qed.

Lemma rstrip_app a b : is_empty (rstrip b) = false -> rstrip (a +:+ b) = a +:+ rstrip b.
Proof.
  unfold rstrip. intros Hb. rewrite string_rev_app.
  assert (forall u v, is_empty (lstrip u) = false -> lstrip (u +:+ v) = lstrip u +:+ v) as Hl.
  { induction u as [|c u IH]; intros v Hu; simpl in *; [done|]. destruct (py_isspace c); [by apply IH|done]. }
  assert (is_empty (lstrip (String.rev b)) = false) as Hb'.
  { destruct (lstrip (String.rev b)); [done|done]. }
  rewrite Hl by done. rewrite string_rev_app. f_equal.
  clear. induction a as [|c a IH]; [done|]. rewrite string_rev_cons, string_rev_app, IH. done.
Qed.

Lemma string_rev_involutive a : String.rev (String.rev a) = a.
Proof. induction a as [|c a IH]; [done|]. by rewrite string_rev_cons, string_rev_app, IH. Qed.

Lemma all_chars_mono (p q : Ascii.ascii -> bool) s :
  (forall a, p a = true -> q a = true) -> all_chars p s = true -> all_chars q s = true.
Proof.
  intros Hpq. induction s as [|a s IH]; simpl; [done|]. intros [Ha Hs]%andb_true_iff.
  by rewrite Hpq, IH.
Qed.

Lemma pretty_digits x :
  (0 < x)%N -> forall s, exists d, pretty_N_go x s = d +:+ s /\ token is_digit_char d = true /\
    forall acc, digits_value acc d = acc * 10 ^ Z.of_nat (String.length d) + Z.of_N x.
Proof.
  induction x as [x IH] using (well_founded_induction N.lt_wf_0). intros Hx s.
  rewrite pretty_N_go_step by done.
  assert (forall k, (k < 10)%N -> is_digit_char (pretty_N_char k) = true /\
            Z.of_N (Ascii.N_of_ascii (pretty_N_char k)) - 48 = Z.of_N k) as Hchar.
  { intros k Hk. assert (k ∈ [0;1;2;3;4;5;6;7;8;9]%N) as Hin by (rewrite !elem_of_cons; lia).
    clear -Hin. rewrite !elem_of_cons in Hin.
    destruct Hin as [->|[->|[->|[->|[->|[->|[->|[->|[->|[->|Hin]]]]]]]]]]; try (by vm_compute).
    by apply elem_of_nil in Hin. }
  destruct (Hchar (x `mod` 10)%N) as [Hd Hv]; [apply N.mod_lt; lia|].
  pose proof (N.div_mod x 10 ltac:(lia)) as Hdm.
  destruct (decide (0 < x `div` 10)%N) as [Hq|Hq].
  - destruct (IH (x `div` 10)%N ltac:(apply N.div_lt; lia) Hq (String (pretty_N_char (x `mod` 10)) s))
      as (d & -> & Ht & Hval).
    exists (d +:+ String (pretty_N_char (x `mod` 10)) ""). split; [by rewrite string_app_assoc|].
    assert (forall d acc c, digits_value acc (d +:+ String c "")
              = digits_value acc d * 10 + (Z.of_N (Ascii.N_of_ascii c) - 48)) as Happ.
    { clear. induction d as [|a d IH]; intros acc c; [done|]. simpl. by rewrite <-IH. }
    split.
    + unfold token in *. apply andb_true_iff in Ht as [He Ht]. rewrite all_chars_app, Ht. simpl. rewrite Hd.
      by destruct d.
    + intros acc. rewrite Happ, Hval, Hv, length_string_app. simpl String.length.
      rewrite Nat2Z.inj_add, Z.pow_add_r by lia. change (10 ^ Z.of_nat 1) with 10. lia.
  - assert ((x `div` 10)%N = 0%N) as Hz by (by apply N.le_0_r, N.nlt_ge). rewrite Hz in Hdm |- *. rewrite pretty_N_go_0.
    exists (String (pretty_N_char (x `mod` 10)) ""). split; [done|]. split.
    + unfold token. simpl. by rewrite Hd.
    + intros acc. simpl. rewrite Hv. lia.
Qed.

Lemma zstr_digits n :
  0 <= n -> token is_digit_char (zstr n) = true /\ digits_value 0 (zstr n) = n.
Proof.
  intros Hn. destruct n as [|p|p]; [by vm_compute| |lia].
  change (zstr (Z.pos p)) with (pretty_N_go (N.pos p) "").
  destruct (pretty_digits (N.pos p) ltac:(lia) "") as (d & -> & Ht & Hv). rewrite string_app_nil.
  split; [done|]. by rewrite Hv.
Qed.

(** ** UTF-8 *)

Definition is_ascii (a : Ascii.ascii) : bool := (Ascii.N_of_ascii a <? 128)%N.

Lemma utf8_app a b : utf8 (a +:+ b) = utf8 a +:+ utf8 b.
Proof.
  induction a as [|c a IH]; [done|]. simpl. destruct (_ <? _)%N; simpl; by rewrite IH.
Qed.

Lemma utf8_ascii s : all_chars is_ascii s = true -> utf8 s = s.
Proof.
  induction s as [|a s IH]; [done|]. simpl. unfold is_ascii at 1. intros [Ha Hs]%andb_true_iff.
  by rewrite Ha, IH.
Qed.
