(* ===== verification/Plan.v ===== *)
(** * Execution plans ([src/base_agent/models/plan.py])

    An [ExecutionPlan] is an immutable dependency graph of [PlanStep]s that
    strategies evolve by replacement.  The construction checks (including
    the depth-first cycle search), the readiness computation and every
    transition are modelled; the theorems show that the cycle search decides
    acyclicity, that transitions keep plans valid, never touch settled
    history and respect dependency order, and that a plan with pending work
    and nothing active or broken always has a ready step. *)

From stdpp Require Import base gmap strings list relations.
From S2P Require Import Prelude Json Models.

Inductive PlanStatus :=
  | P_CREATED | P_RUNNING | P_WAITING | P_COMPLETED | P_FAILED | P_CANCELLED.

Inductive StepStatus :=
  | S_PENDING | S_RUNNING | S_WAITING | S_COMPLETED | S_FAILED | S_CANCELLED | S_SKIPPED.

#[export] Instance PlanStatus_eq_dec : EqDecision PlanStatus.
Proof. solve_decision. Defined.
#[export] Instance StepStatus_eq_dec : EqDecision StepStatus.
Proof. solve_decision. Defined.

Definition StepStatus_value (s : StepStatus) : string :=
  match s with
  | S_PENDING => "pending" | S_RUNNING => "running" | S_WAITING => "waiting"
  | S_COMPLETED => "completed" | S_FAILED => "failed" | S_CANCELLED => "cancelled"
  | S_SKIPPED => "skipped"
  end.

Record PlanStep := mk_PlanStep {
  step_id : string;
  step_description : string;
  step_executor : option string;
  step_dependencies : list string;
  step_status : StepStatus;
  step_success : option bool;
  step_result : option json;
  step_attachments : list string;
  step_error : option string;
  step_metadata : jdict;
}.

Definition PlanStep_fields (s : PlanStep) : bool :=
  matches_key "_.-" (step_id s) && (1 <=? slen (step_description s)).

(** [PlanStep.validate_dependencies_and_failure]. *)
Definition PlanStep_validate (s : PlanStep) : outcome unit :=
  raise_when negb (bool_decide (NoDup (step_dependencies s)))
    as validation_error "step dependencies must be unique" in
  raise_when bool_decide (step_id s ∈ step_dependencies s)
    as validation_error "a step cannot depend on itself" in
  raise_when bool_decide (step_status s ∈ [S_FAILED; S_CANCELLED]) && falsy (step_error s)
    as validation_error "a failed or cancelled step must include an error" in
  Ok tt.

Record ExecutionPlan := mk_ExecutionPlan {
  plan_id : string;
  plan_title : string;
  plan_steps : list PlanStep;
  plan_status : PlanStatus;
  plan_revision : Z;
  plan_metadata : jdict;
}.

Definition ExecutionPlan_fields (p : ExecutionPlan) : bool :=
  matches_key "_.-" (plan_id p) && (1 <=? slen (plan_title p))
  && (1 <=? Z.of_nat (length (plan_steps p))) && (1 <=? plan_revision p).

(** ** The cycle search *)

Definition cycle_error : exn := Exn ExValueError "plan dependencies must not contain a cycle".

Abbreviation dep_graph := (list (string * list string)) (only parsing).

(** [{step.id: step.dependencies for step in self.steps}]. *)
Definition dependency_dict (steps : list PlanStep) : dep_graph :=
  dmerge [] (map (fun s => (step_id s, step_dependencies s)) steps).

(** The pair [(visiting, visited)] the nested function [visit] mutates. *)
Abbreviation dfs_state := (gset string * gset string)%type (only parsing).

(** [for dependency in dependencies[step_id]: visit(dependency)]. *)
Fixpoint visit_list (v : string -> dfs_state -> outcome dfs_state) (ds : list string)
  (st : dfs_state) : outcome dfs_state :=
  match ds with
  | [] => Ok st
  | d :: ds' => let! st' := v d st in visit_list v ds' st'
  end.

(** [visit(step_id)].  The fuel bounds the depth of the recursion; running
    out of it would be Python's recursion limit. *)
Fixpoint visit (fuel : nat) (deps : dep_graph) (sid : string) (st : dfs_state)
  : outcome dfs_state :=
  match fuel with
  | O => Raise (Exn ExRuntimeError "maximum recursion depth exceeded")
  | S fuel' =>
      let '(visiting, visited) := st in
      raise_when bool_decide (sid ∈ visiting) as cycle_error in
      if bool_decide (sid ∈ visited) then Ok (visiting, visited)
      else
        match dget sid deps with
        | None => Raise (Exn ExKeyError sid)
        | Some ds =>
            let! st' := visit_list (visit fuel' deps) ds ({[sid]} ∪ visiting, visited) in
            Ok (st'.1 ∖ {[sid]}, {[sid]} ∪ st'.2)
        end
  end.

(** [_assert_acyclic]. *)
Definition assert_acyclic (steps : list PlanStep) : outcome unit :=
  let deps := dependency_dict steps in
  let! _ := visit_list (visit (S (length deps)) deps) (dkeys deps) (∅, ∅) in
  Ok tt.

(** [sorted(missing)] for [missing = set(step.dependencies) - known]. *)
Definition missing_dependencies (known : gset string) (s : PlanStep) : list string :=
  sorted_by String.leb (elements (list_to_set (step_dependencies s) ∖ known : gset string)).

Fixpoint check_known (known : gset string) (steps : list PlanStep) : outcome unit :=
  match steps with
  | [] => Ok tt
  | s :: steps' =>
      let missing := missing_dependencies known s in
      raise_when negb (bool_decide (missing = []))
        as validation_error (fstr ["step '"; step_id s; "' has unknown dependencies: ";
                                   String.concat ", " missing]) in
      check_known known steps'
  end.

(** [ExecutionPlan.validate_graph]. *)
Definition validate_graph (p : ExecutionPlan) : outcome unit :=
  let step_ids := map step_id (plan_steps p) in
  raise_when negb (bool_decide (NoDup step_ids))
    as validation_error "plan step ids must be unique" in
  let! _ := check_known (list_to_set step_ids) (plan_steps p) in
  assert_acyclic (plan_steps p).

(** ** Readiness *)

Definition settled (s : StepStatus) : bool :=
  bool_decide (s ∈ [S_COMPLETED; S_SKIPPED]).

(** [{step.id: step.status for step in self.steps}]. *)
Definition status_dict (steps : list PlanStep) : list (string * StepStatus) :=
  dmerge [] (map (fun s => (step_id s, step_status s)) steps).

(** [all(statuses[dependency] in settled for dependency in ...)]. *)
Fixpoint all_settled (statuses : list (string * StepStatus)) (ds : list string) : outcome bool :=
  match ds with
  | [] => Ok true
  | d :: ds' =>
      match dget d statuses with
      | None => Raise (Exn ExKeyError d)
      | Some st => if settled st then all_settled statuses ds' else Ok false
      end
  end.

Fixpoint ready_among (statuses : list (string * StepStatus)) (steps : list PlanStep)
  : outcome (list PlanStep) :=
  match steps with
  | [] => Ok []
  | s :: steps' =>
      let! r := (if bool_decide (step_status s = S_PENDING)
                 then all_settled statuses (step_dependencies s) else Ok false) in
      let! rest := ready_among statuses steps' in
      Ok (if r then s :: rest else rest)
  end.

(** [ExecutionPlan.ready_steps]. *)
Definition ready_steps (p : ExecutionPlan) : outcome (list PlanStep) :=
  ready_among (status_dict (plan_steps p)) (plan_steps p).

(** ** Transitions *)

Definition step_copy (s : PlanStep) (st : StepStatus) (err : option string) : PlanStep :=
  mk_PlanStep (step_id s) (step_description s) (step_executor s) (step_dependencies s) st
    (step_success s) (step_result s) (step_attachments s) err (step_metadata s).

(** [_get_step]: the first step with the identifier. *)
Definition get_step (p : ExecutionPlan) (sid : string) : outcome PlanStep :=
  match List.find (fun s => bool_decide (step_id s = sid)) (plan_steps p) with
  | Some s => Ok s
  | None => Raise (Exn ExKeyError (fstr ["unknown plan step '"; sid; "'"]))
  end.

(** [_require_status]. *)
Definition require_status (p : ExecutionPlan) (sid : string) (expected : StepStatus)
  : outcome PlanStep :=
  let! step := get_step p sid in
  raise_when negb (bool_decide (step_status step = expected))
    as Exn InvalidPlanTransitionError
         (fstr ["step '"; sid; "' must be "; StepStatus_value expected; ", got ";
                StepStatus_value (step_status step)]) in
  Ok step.

(** [_replace_step]. *)
Definition replace_step (p : ExecutionPlan) (replacement : PlanStep)
  (status : option PlanStatus) : ExecutionPlan :=
  mk_ExecutionPlan (plan_id p) (plan_title p)
    (map (fun s => if bool_decide (step_id s = step_id replacement) then replacement else s)
       (plan_steps p))
    (default (plan_status p) status) (plan_revision p + 1) (plan_metadata p).

Definition with_status (p : ExecutionPlan) (st : PlanStatus) : ExecutionPlan :=
  mk_ExecutionPlan (plan_id p) (plan_title p) (plan_steps p) st (plan_revision p)
    (plan_metadata p).

(** [start_step].  The membership test finds the step object itself; ids
    are unique, so the identifier decides it. *)
Definition start_step (p : ExecutionPlan) (sid : string) : outcome ExecutionPlan :=
  let! step := get_step p sid in
  let! ready := ready_steps p in
  raise_when negb (existsb (fun s => bool_decide (step_id s = step_id step)) ready)
    as Exn InvalidPlanTransitionError (fstr ["step '"; sid; "' is not ready to start"]) in
  Ok (replace_step p (step_copy step S_RUNNING (step_error step)) (Some P_RUNNING)).

Definition done_step (s : PlanStep) (result : option json) (success : option bool)
  (attachments : list string) (metadata : option jdict) : PlanStep :=
  mk_PlanStep (step_id s) (step_description s) (step_executor s) (step_dependencies s)
    S_COMPLETED success result attachments None
    (dmerge (step_metadata s) (default [] metadata)).

(** [complete_step]. *)
Definition complete_step (p : ExecutionPlan) (sid : string) (result : option json)
  (success : option bool) (attachments : list string) (metadata : option jdict)
  : outcome ExecutionPlan :=
  let! step := require_status p sid S_RUNNING in
  let updated := replace_step p (done_step step result success attachments metadata) None in
  if forallb (fun s => settled (step_status s)) (plan_steps updated)
  then Ok (with_status updated P_COMPLETED)
  else Ok updated.

Definition blank_error : exn := Exn ExValueError "error must not be empty".

(** [fail_step]. *)
Definition fail_step (p : ExecutionPlan) (sid error : string) : outcome ExecutionPlan :=
  raise_when blank error as blank_error in
  let! step := require_status p sid S_RUNNING in
  Ok (replace_step p (step_copy step S_FAILED (Some error)) (Some P_FAILED)).

(** [wait_step]. *)
Definition wait_step (p : ExecutionPlan) (sid : string) : outcome ExecutionPlan :=
  let! step := require_status p sid S_RUNNING in
  Ok (replace_step p (step_copy step S_WAITING (step_error step)) (Some P_WAITING)).

(** [resume_step]. *)
Definition resume_step (p : ExecutionPlan) (sid : string) : outcome ExecutionPlan :=
  let! step := require_status p sid S_WAITING in
  Ok (replace_step p (step_copy step S_RUNNING (step_error step)) (Some P_RUNNING)).

Definition active_step (s : PlanStep) : bool :=
  bool_decide (step_status s ∈ [S_RUNNING; S_WAITING]).

(** The body [cancel] and [fail] share: active steps and the plan move to
    the given statuses, the revision advances, the error is recorded. *)
Definition stop_plan (p : ExecutionPlan) (st : StepStatus) (pst : PlanStatus) (error : string)
  : ExecutionPlan :=
  mk_ExecutionPlan (plan_id p) (plan_title p)
    (map (fun s => if active_step s then step_copy s st (Some error) else s) (plan_steps p))
    pst (plan_revision p + 1)
    (dset "terminal_error" (JStr error) (plan_metadata p)).

(** [cancel]. *)
Definition plan_cancel (p : ExecutionPlan) (error : string) : outcome ExecutionPlan :=
  raise_when blank error as blank_error in
  Ok (stop_plan p S_CANCELLED P_CANCELLED error).

(** [fail]. *)
Definition plan_fail (p : ExecutionPlan) (error : string) : outcome ExecutionPlan :=
  raise_when blank error as blank_error in
  Ok (stop_plan p S_FAILED P_FAILED error).

(** ** The cycle search decides acyclicity *)

Section Acyclicity.
Variable G : dep_graph.

Definition edge (x y : string) : Prop := exists ds, dget x G = Some ds /\ y ∈ ds.

(** Every dependency is itself a node. *)
Definition graph_closed : Prop := forall x y, edge x y -> y ∈ dkeys G.

Let well_founded_at (x : string) : Prop := Acc (fun y x => edge x y) x.

Lemma well_founded_no_cycle x : well_founded_at x -> ~ tc edge x x.
Proof.
  induction 1 as [x _ IH]. intros Hc.
  assert (exists y, edge x y /\ tc edge y y) as (y & Hxy & Hy).
  { inversion Hc as [? ? Hxx | ? y ? Hxy Hyx]; subst; [by exists x|].
    exists y. split; [done|]. eapply tc_r; eauto. }
  by apply (IH y).
Qed.

(** Soundness: whatever has been visited has no infinite chain of
    dependencies. *)
Lemma visit_list_sound (v : string -> dfs_state -> outcome dfs_state) :
  (forall d st st', v d st = Ok st' -> (forall x, x ∈ st.2 -> well_founded_at x) ->
     st.2 ⊆ st'.2 /\ d ∈ st'.2 /\ (forall x, x ∈ st'.2 -> well_founded_at x)) ->
  forall ds st st', visit_list v ds st = Ok st' ->
    (forall x, x ∈ st.2 -> well_founded_at x) ->
    st.2 ⊆ st'.2 /\ (forall d, d ∈ ds -> d ∈ st'.2) /\
    (forall x, x ∈ st'.2 -> well_founded_at x).
Proof.
  intros Hv. induction ds as [|d ds IH]; simpl; intros st st' H Hwf.
  - simplify_eq. split_and!; [done|by intros ? ?%elem_of_nil|done].
  - destruct (v d st) as [st1|] eqn:E; [|done].
    destruct (Hv _ _ _ E Hwf) as (Hsub & Hd & Hwf1).
    destruct (IH _ _ H Hwf1) as (Hsub' & Hds & Hwf').
    split_and!; [by etrans| |done].
    intros d' [->|Hin]%elem_of_cons; [by apply Hsub'|auto].
Qed.

Lemma visit_sound fuel : forall sid st st',
  visit fuel G sid st = Ok st' -> (forall x, x ∈ st.2 -> well_founded_at x) ->
  st.2 ⊆ st'.2 /\ sid ∈ st'.2 /\ (forall x, x ∈ st'.2 -> well_founded_at x).
Proof.
  induction fuel as [|fuel IH]; intros sid [vg vd] st' H Hwf; simpl in H; [done|].
  raise_free H; reflect; simpl in *; [done|].
  destruct (visit_list_sound _ IH _ _ _ Heqo0 Hwf) as (Hsub & Hds & Hwf'). simpl in *.
  split_and!; [by etrans; [exact Hsub|apply union_subseteq_r]|by apply elem_of_union_l, elem_of_singleton|].
  intros x [->%elem_of_singleton|Hx]%elem_of_union; [|by apply Hwf'].
  constructor. intros y (ds & Hget & Hy). apply Hwf', Hds. congruence.
Qed.

(** Totality: on a closed graph the search either returns, leaving
    [visiting] as it found it, or reports a cycle that exists; the number
    of nodes not being visited bounds the recursion depth. *)
Section Totality.
Hypothesis closed : graph_closed.
Let nodes : gset string := list_to_set (dkeys G).

Definition search_outcome (vg : gset string) (r : outcome dfs_state) : Prop :=
  (exists vd', r = Ok (vg, vd')) \/ (r = Raise cycle_error /\ exists x, tc edge x x).

Lemma visit_list_total (v : string -> dfs_state -> outcome dfs_state) vg :
  forall ds, (forall d vd, d ∈ ds -> search_outcome vg (v d (vg, vd))) ->
  forall vd, search_outcome vg (visit_list v ds (vg, vd)).
Proof.
  induction ds as [|d ds IH]; simpl; intros Hv vd; [left; eauto|].
  destruct (Hv d vd ltac:(by left)) as [[vd' ->]|[-> Hc]]; [|by right].
  apply IH. intros; apply Hv; by right.
Qed.

Lemma visit_total fuel : forall sid vg vd,
  sid ∈ dkeys G -> vg ⊆ nodes -> (size nodes < fuel + size vg)%nat ->
  (forall v, v ∈ vg -> tc edge v sid) ->
  search_outcome vg (visit fuel G sid (vg, vd)).
Proof using closed.
  induction fuel as [|fuel IH]; intros sid vg vd Hsid Hvg Hf Hpath; simpl.
  { pose proof (subseteq_size _ _ Hvg). lia. }
  destruct (bool_decide (sid ∈ vg)) eqn:Hin; reflect.
  { right. split; [done|]. exists sid. by apply Hpath. }
  destruct (bool_decide (sid ∈ vd)); [left; eauto|].
  destruct (dget sid G) as [ds|] eqn:Hget; [|by apply dget_None in Hget].
  assert (search_outcome ({[sid]} ∪ vg)
            (visit_list (visit fuel G) ds ({[sid]} ∪ vg, vd))) as Ho.
  { apply visit_list_total. intros d vd' Hd. apply IH.
    - apply (closed sid). exists ds. done.
    - apply union_subseteq. split; [|done].
      apply singleton_subseteq_l. unfold nodes. by apply elem_of_list_to_set.
    - rewrite size_union by (clear -Hin; set_solver). rewrite size_singleton. lia.
    - intros v [->%elem_of_singleton|Hv]%elem_of_union.
      + apply tc_once. by exists ds.
      + eapply tc_r; [by apply Hpath|]. by exists ds. }
  destruct Ho as [[vd' ->]|[-> Hc]]; [|by right]. left. exists ({[sid]} ∪ vd'). simpl.
  do 2 f_equal. clear -Hin. set_solver.
Qed.
End Totality.

Definition search : outcome dfs_state :=
  visit_list (visit (S (length G)) G) (dkeys G) (∅, ∅).

Lemma search_total : graph_closed -> search_outcome ∅ search.
Proof.
  intros Hcl. apply visit_list_total. intros d vd Hd. apply visit_total; [done|done|apply empty_subseteq| |].
  - rewrite size_empty.
    pose proof (size_list_to_set_le (dkeys G)) as Hle. rewrite length_dkeys in Hle. lia.
  - by intros v ?%not_elem_of_empty.
Qed.

Lemma search_no_cycle st x : search = Ok st -> ~ tc edge x x.
Proof.
  intros H Hc.
  destruct (visit_list_sound _ (visit_sound _) _ _ _ H) as (_ & Hds & Hwf);
    [by intros y ?%not_elem_of_empty|].
  apply (well_founded_no_cycle x); [|done]. apply Hwf, Hds.
  assert (exists y, edge x y) as (y & ds & Hget & _) by (inversion Hc; eauto).
  apply dget_elem in Hget. apply list_elem_of_fmap. by exists (x, ds).
Qed.
End Acyclicity.

(** ** Well-formed dependency graphs *)

(** Step [x] names [y] among its dependencies. *)
Definition depends (steps : list PlanStep) (x y : string) : Prop :=
  exists s, s ∈ steps /\ step_id s = x /\ y ∈ step_dependencies s.

Record well_formed_graph (steps : list PlanStep) : Prop := {
  wfg_unique : NoDup (map step_id steps);
  wfg_known : forall x y, depends steps x y -> y ∈ map step_id steps;
  wfg_acyclic : forall x, ~ tc (depends steps) x x;
}.

Section GraphOfSteps.
Variable steps : list PlanStep.
Hypothesis ids_unique : NoDup (map step_id steps).

Lemma dependency_dict_eq :
  dependency_dict steps = map (fun s => (step_id s, step_dependencies s)) steps.
Proof using ids_unique. apply dmerge_nil. by rewrite map_map. Qed.

Lemma dkeys_dependency_dict : dkeys (dependency_dict steps) = map step_id steps.
Proof using ids_unique. rewrite dependency_dict_eq. unfold dkeys. by rewrite map_map. Qed.

Lemma edge_depends x y : edge (dependency_dict steps) x y <-> depends steps x y.
Proof using ids_unique.
  unfold edge, depends. split.
  - intros (ds & Hget & Hy). apply dget_elem in Hget. rewrite dependency_dict_eq in Hget.
    apply list_elem_of_fmap in Hget as (s & Heq & Hs). simplify_eq. eauto.
  - intros (s & Hs & <- & Hy). exists (step_dependencies s). split; [|done].
    apply elem_dget; [by rewrite dkeys_dependency_dict|].
    rewrite dependency_dict_eq. apply list_elem_of_fmap. eauto.
Qed.

Lemma tc_edge_depends x y : tc (edge (dependency_dict steps)) x y <-> tc (depends steps) x y.
Proof using ids_unique.
  split; induction 1 as [x y H|x y z H _ IH].
  all: try (apply tc_once; by apply edge_depends).
  all: eapply tc_l; [by apply edge_depends|done].
Qed.

Lemma assert_acyclic_decides :
  (forall x y, depends steps x y -> y ∈ map step_id steps) ->
  (assert_acyclic steps = Ok tt /\ forall x, ~ tc (depends steps) x x) \/
  (assert_acyclic steps = Raise cycle_error /\ exists x, tc (depends steps) x x).
Proof using ids_unique.
  intros Hknown.
  assert (graph_closed (dependency_dict steps)) as Hcl.
  { intros x y Hxy. rewrite dkeys_dependency_dict. eapply Hknown. by apply edge_depends. }
  unfold assert_acyclic. fold (search (dependency_dict steps)).
  destruct (search_total _ Hcl) as [[vd H]|[H [x Hx]]]; rewrite H.
  - left. split; [done|]. intros x. rewrite <-tc_edge_depends. by eapply search_no_cycle.
  - right. split; [done|]. exists x. by apply tc_edge_depends.
Qed.
End GraphOfSteps.

Lemma missing_dependencies_nil known s :
  missing_dependencies known s = [] <-> forall d, d ∈ step_dependencies s -> d ∈ known.
Proof.
  unfold missing_dependencies.
  set (m := list_to_set (step_dependencies s) ∖ known : gset string).
  pose proof (sorted_by_perm String.leb (elements m)) as Hp. split.
  - intros Hnil d Hd. destruct (decide (d ∈ known)) as [|Hn]; [done|].
    assert (d ∈ elements m) as Hin.
    { apply elem_of_elements, elem_of_difference. split; [by apply elem_of_list_to_set|done]. }
    rewrite Hnil in Hp. apply Permutation_nil in Hp. rewrite Hp in Hin. by apply not_elem_of_nil in Hin.
  - intros Hall. assert (m = ∅) as ->.
    { apply set_eq. intros d. split; [|by intros ?%not_elem_of_empty].
      intros [Hd%elem_of_list_to_set Hn]%elem_of_difference. by apply Hall in Hd. }
    by rewrite elements_empty.
Qed.

Lemma check_known_spec known steps :
  (check_known known steps = Ok tt <->
     forall s d, s ∈ steps -> d ∈ step_dependencies s -> d ∈ known) /\
  (check_known known steps = Ok tt \/ exists m, check_known known steps = Raise (Exn ValidationError m)).
Proof.
  induction steps as [|s steps [IH IHo]]; simpl.
  { split; [split; [|done]|by left]. intros _ s d ?%not_elem_of_nil. done. }
  destruct (bool_decide (missing_dependencies known s = [])) eqn:E; simpl; reflect.
  - split; [|done]. rewrite IH. pose proof (proj1 (missing_dependencies_nil known s) E) as Hs.
    split; intros H t d Ht; [|by apply H; right].
    apply elem_of_cons in Ht as [->|Ht]; [by apply Hs|by apply H].
  - split; [|by right; eauto]. split; [done|]. intros H. destruct E.
    apply missing_dependencies_nil. intros d. apply H. by left.
Qed.

Lemma validate_graph_spec p :
  (validate_graph p = Ok tt <-> well_formed_graph (plan_steps p)) /\
  (validate_graph p = Ok tt \/
   exists e, validate_graph p = Raise e /\ isinstance e ExValueError = true).
Proof.
  unfold validate_graph.
  destruct (bool_decide (NoDup (map step_id (plan_steps p)))) eqn:Hu; simpl; reflect.
  2: { split; [split; [done|by intros []]|right; eauto]. }
  set (known := list_to_set (map step_id (plan_steps p)) : gset string).
  destruct (check_known_spec known (plan_steps p)) as [Hk [Hok|[m Hm]]].
  - rewrite Hok. pose proof (proj1 Hk Hok) as Hk'.
    assert (forall x y, depends (plan_steps p) x y -> y ∈ map step_id (plan_steps p)) as Hkn.
    { intros x y (s & Hs & _ & Hy). specialize (Hk' s y Hs Hy).
      unfold known in Hk'. by apply elem_of_list_to_set in Hk'. }
    destruct (assert_acyclic_decides _ Hu Hkn) as [[-> Ha]|[-> [x Hx]]].
    + split; [split; [by constructor|done]|by left].
    + split; [split; [done|intros [_ _ Ha]; by destruct (Ha x)]|right; eauto].
  - rewrite Hm. split; [|right; eauto]. split; [done|]. intros [_ Hkn _]. exfalso.
    assert (check_known known (plan_steps p) = Ok tt) as Hok; [|congruence].
    apply Hk. intros s d Hs Hd. apply elem_of_list_to_set, (Hkn (step_id s)).
    by exists s.
Qed.

(** C39: plan construction accepts exactly the well-formed dependency graphs
    (unique step ids, known dependencies, no cycle), and rejects every other
    with a [ValueError]: the depth-first search neither diverges, nor fails
    on a missing key, nor misses a cycle. *)
Theorem validate_graph_correct p :
  (validate_graph p = Ok tt <-> well_formed_graph (plan_steps p)) /\
  (validate_graph p = Ok tt \/
   exists e, validate_graph p = Raise e /\ isinstance e ExValueError = true).
Proof. apply validate_graph_spec. Qed.

(** ** Transitions preserve validity, settled history and dependency order *)

Record plan_valid (p : ExecutionPlan) : Prop := {
  pv_fields : ExecutionPlan_fields p = true;
  pv_graph : validate_graph p = Ok tt;
  pv_steps : Forall (fun s => PlanStep_fields s = true /\ PlanStep_validate s = Ok tt)
               (plan_steps p);
}.

Lemma pv_unique p : plan_valid p -> NoDup (map step_id (plan_steps p)).
Proof. intros [_ H _]. by apply validate_graph_spec, wfg_unique in H. Qed.

(** A transition rewrites some steps, each into one with the same id and
    dependencies. *)
Definition step_skel (s : PlanStep) : string * list string := (step_id s, step_dependencies s).

Lemma depends_skel l l' : map step_skel l = map step_skel l' ->
  forall x y, depends l x y -> depends l' x y.
Proof.
  intros Heq x y (s & Hs & <- & Hy).
  assert (step_skel s ∈ map step_skel l') as Hin
    by (rewrite <-Heq; apply list_elem_of_fmap; eauto).
  apply list_elem_of_fmap in Hin as (s' & Hskel & Hs'). injection Hskel as Hid Hdeps.
  exists s'. rewrite <-Hid, <-Hdeps. done.
Qed.

Lemma tc_depends_skel l l' x y :
  map step_skel l = map step_skel l' -> tc (depends l) x y -> tc (depends l') x y.
Proof.
  intros Heq. induction 1 as [x y H|x y z H _ IH].
  - apply tc_once. by apply (depends_skel l).
  - eapply tc_l; [by apply (depends_skel l)|done].
Qed.

Lemma map_id_skel l l' : map step_skel l = map step_skel l' -> map step_id l = map step_id l'.
Proof.
  intros H. apply (f_equal (map fst)) in H. rewrite !map_map in H. exact H.
Qed.

Lemma well_formed_graph_skel l l' :
  map step_skel l = map step_skel l' -> well_formed_graph l -> well_formed_graph l'.
Proof.
  intros Heq [Hu Hk Ha]. pose proof (map_id_skel _ _ Heq) as Hids. constructor.
  - by rewrite <-Hids.
  - intros x y Hd. rewrite <-Hids. apply (Hk x), (depends_skel l'); done.
  - intros x Hc. by apply (Ha x), (tc_depends_skel l').
Qed.

(** The one-step relation of the plan lifecycle. *)
Inductive plan_step : ExecutionPlan -> ExecutionPlan -> Prop :=
  | plan_start p p' sid : start_step p sid = Ok p' -> plan_step p p'
  | plan_complete p p' sid r su at' md :
      complete_step p sid r su at' md = Ok p' -> plan_step p p'
  | plan_fail_step p p' sid e : fail_step p sid e = Ok p' -> plan_step p p'
  | plan_wait p p' sid : wait_step p sid = Ok p' -> plan_step p p'
  | plan_resume p p' sid : resume_step p sid = Ok p' -> plan_step p p'
  | plan_cancelled p p' e : plan_cancel p e = Ok p' -> plan_step p p'
  | plan_failed p p' e : plan_fail p e = Ok p' -> plan_step p p'.

(** What a transition does to one step: nothing, or one edge of the step
    state machine.  [ready] says that the dependencies of a step that
    starts are settled. *)
Inductive step_change (ready : PlanStep -> Prop) (s : PlanStep) : PlanStep -> Prop :=
  | sc_same : step_change ready s s
  | sc_start : step_status s = S_PENDING -> ready s ->
      step_change ready s (step_copy s S_RUNNING (step_error s))
  | sc_done r su at' md : step_status s = S_RUNNING ->
      step_change ready s (done_step s r su at' md)
  | sc_wait : step_status s = S_RUNNING ->
      step_change ready s (step_copy s S_WAITING (step_error s))
  | sc_resume : step_status s = S_WAITING ->
      step_change ready s (step_copy s S_RUNNING (step_error s))
  | sc_stop st e : active_step s = true -> st ∈ [S_FAILED; S_CANCELLED] -> is_empty e = false ->
      step_change ready s (step_copy s st (Some e)).

Definition deps_settled (steps : list PlanStep) (s : PlanStep) : Prop :=
  forall d, d ∈ step_dependencies s ->
    exists t, t ∈ steps /\ step_id t = d /\ settled (step_status t) = true.

Lemma all_settled_true dict ds :
  all_settled dict ds = Ok true ->
  forall d, d ∈ ds -> exists st, dget d dict = Some st /\ settled st = true.
Proof.
  induction ds as [|d ds IH]; simpl; intros H d' Hd'; [by apply not_elem_of_nil in Hd'|].
  raise_free H. apply elem_of_cons in Hd' as [->|Hd']; eauto.
Qed.

Lemma status_dict_get steps d st :
  NoDup (map step_id steps) -> dget d (status_dict steps) = Some st ->
  exists t, t ∈ steps /\ step_id t = d /\ step_status t = st.
Proof.
  intros Hu Hget. unfold status_dict in Hget. rewrite dmerge_nil in Hget by (by rewrite map_map).
  apply dget_elem in Hget. apply list_elem_of_fmap in Hget as (t & Heq & Ht).
  simplify_eq. eauto.
Qed.

Lemma ready_among_elem dict steps ready s :
  ready_among dict steps = Ok ready -> s ∈ ready ->
  s ∈ steps /\ step_status s = S_PENDING /\ all_settled dict (step_dependencies s) = Ok true.
Proof.
  revert ready. induction steps as [|t steps IH]; simpl; intros ready H Hs.
  - simplify_eq. by apply not_elem_of_nil in Hs.
  - assert (forall l, ready_among dict steps = Ok l -> s ∈ l ->
              s ∈ t :: steps /\ step_status s = S_PENDING /\
              all_settled dict (step_dependencies s) = Ok true) as Hrec.
    { intros l Hl Hin. destruct (IH _ Hl Hin) as (? & ? & ?). split_and!; [by right|done|done]. }
    destruct (bool_decide (step_status t = S_PENDING)) eqn:E; reflect;
      raise_free H; eauto.
    apply elem_of_cons in Hs as [->|Hs]; [split_and!; [left|done|done]|eauto].
Qed.

(** What [ready_steps] returns: pending steps with settled dependencies. *)
Lemma ready_steps_elem p ready s :
  NoDup (map step_id (plan_steps p)) -> ready_steps p = Ok ready -> s ∈ ready ->
  s ∈ plan_steps p /\ step_status s = S_PENDING /\ deps_settled (plan_steps p) s.
Proof.
  intros Hu H Hs. destruct (ready_among_elem _ _ _ _ H Hs) as (Hin & Hp & Ha).
  split_and!; [done|done|]. intros d Hd.
  destruct (all_settled_true _ _ Ha d Hd) as (st & Hget & Hst).
  destruct (status_dict_get _ _ _ Hu Hget) as (t & Ht & Hid & <-). eauto.
Qed.

Lemma get_step_Ok p sid s : get_step p sid = Ok s -> s ∈ plan_steps p /\ step_id s = sid.
Proof.
  unfold get_step. intros H. raise_free H.
  apply find_Some_spec in Heqo as [? ?]. by reflect.
Qed.

Lemma require_status_Ok p sid st s :
  require_status p sid st = Ok s -> s ∈ plan_steps p /\ step_id s = sid /\ step_status s = st.
Proof.
  unfold require_status. intros H. raise_free H. reflect.
  by apply get_step_Ok in Heqo as [? ?].
Qed.

Lemma Forall2_map_r {A B} (f : A -> B) (R : A -> B -> Prop) l :
  Forall (fun x => R x (f x)) l -> Forall2 R l (map f l).
Proof. induction 1; simpl; constructor; auto. Qed.

Lemma replace_step_change ready p s s' :
  NoDup (map step_id (plan_steps p)) -> s ∈ plan_steps p -> step_id s' = step_id s ->
  step_change ready s s' ->
  Forall2 (step_change ready) (plan_steps p)
    (map (fun t => if bool_decide (step_id t = step_id s') then s' else t) (plan_steps p)).
Proof.
  intros Hu Hs Hid Hc. apply Forall2_map_r, Forall_forall. intros t Ht.
  case_bool_decide as Heq; [|constructor].
  replace t with s; [done|]. symmetry. eapply NoDup_map_inj; eauto. congruence.
Qed.

Lemma stop_plan_change ready p st pst e :
  st ∈ [S_FAILED; S_CANCELLED] -> blank e = false ->
  Forall2 (step_change ready) (plan_steps p) (plan_steps (stop_plan p st pst e)).
Proof.
  intros Hst He. apply Forall2_map_r, Forall_forall. intros t Ht.
  destruct (active_step t) eqn:E; [|constructor]. apply sc_stop; [done|done|].
  by destruct e.
Qed.

(** Every transition, seen as a change of each step. *)
Lemma plan_step_changes p p' :
  NoDup (map step_id (plan_steps p)) -> plan_step p p' ->
  Forall2 (step_change (deps_settled (plan_steps p))) (plan_steps p) (plan_steps p') /\
  plan_revision p' = plan_revision p + 1 /\ plan_id p' = plan_id p /\
  plan_title p' = plan_title p.
Proof.
  intros Hu H. destruct H as [p p' sid H|p p' sid r su at' md H|p p' sid e H|p p' sid H
                              |p p' sid H|p p' e H|p p' e H].
  - unfold start_step in H. raise_free H. apply negb_false_iff in Heqb.
    split; [|done]. apply get_step_Ok in Heqo as [Hs Hid].
    apply List.existsb_exists in Heqb as (t & Ht & Heq). apply list_elem_of_In in Ht. reflect.
    destruct (ready_steps_elem _ _ _ Hu Heqo0 Ht) as (Htin & Hp & Hd).
    assert (t = a) as -> by (eapply NoDup_map_inj; eauto).
    apply (replace_step_change _ p a (step_copy a S_RUNNING (step_error a))); [done..|].
    by apply sc_start.
  - unfold complete_step in H. destruct (require_status p sid S_RUNNING) as [s|] eqn:E; [|done].
    apply require_status_Ok in E as (Hs & Hid & Hst).
    set (upd := replace_step p (done_step s r su at' md) None) in H.
    assert (Forall2 (step_change (deps_settled (plan_steps p))) (plan_steps p)
              (plan_steps upd)) as Hc.
    { apply (replace_step_change _ p s (done_step s r su at' md)); [done..|].
      by apply sc_done. }
    raise_free H; done.
  - unfold fail_step in H. raise_free H. split; [|done].
    apply require_status_Ok in Heqo as (Hs & Hid & Hst).
    apply (replace_step_change _ p a (step_copy a S_FAILED (Some e))); [done..|].
    apply sc_stop; [|left|by destruct e].
    unfold active_step. rewrite Hst. done.
  - unfold wait_step in H. raise_free H. split; [|done].
    apply require_status_Ok in Heqo as (Hs & Hid & Hst).
    apply (replace_step_change _ p a (step_copy a S_WAITING (step_error a))); [done..|].
    by apply sc_wait.
  - unfold resume_step in H. raise_free H. split; [|done].
    apply require_status_Ok in Heqo as (Hs & Hid & Hst).
    apply (replace_step_change _ p a (step_copy a S_RUNNING (step_error a))); [done..|].
    by apply sc_resume.
  - unfold plan_cancel in H. raise_free H. split; [|done].
    apply stop_plan_change; [right; left|done].
  - unfold plan_fail in H. raise_free H. split; [|done].
    apply stop_plan_change; [left|done].
Qed.

Lemma step_change_skel ready s s' : step_change ready s s' -> step_skel s' = step_skel s.
Proof. by destruct 1. Qed.

Lemma step_changes_skel ready l l' :
  Forall2 (step_change ready) l l' -> map step_skel l = map step_skel l'.
Proof. induction 1 as [|? ? ? ? H]; simpl; [done|]. erewrite <-(step_change_skel _ _ _ H). by f_equal. Qed.

Lemma step_change_valid ready s s' :
  step_change ready s s' -> PlanStep_fields s = true -> PlanStep_validate s = Ok tt ->
  PlanStep_fields s' = true /\ PlanStep_validate s' = Ok tt.
Proof.
  intros H Hf Hv. split; [by destruct H|].
  unfold PlanStep_validate in *. raise_free Hv.
  destruct H as [| | | | |st e Ha Hst He]; simpl; rewrite ?Heqb, ?Heqb0; simpl; try done.
  { by rewrite Heqb1. }
  by rewrite He, andb_false_r.
Qed.

Lemma step_changes_valid ready l l' :
  Forall2 (step_change ready) l l' ->
  Forall (fun s => PlanStep_fields s = true /\ PlanStep_validate s = Ok tt) l ->
  Forall (fun s => PlanStep_fields s = true /\ PlanStep_validate s = Ok tt) l'.
Proof.
  induction 1 as [|s s' l l' Hss _ IH]; [done|]. intros [[Hf Hv] Hl]%Forall_cons.
  constructor; [by eapply step_change_valid|auto].
Qed.

(** Statuses a transition never leaves. *)
Definition historical (s : StepStatus) : bool :=
  bool_decide (s ∈ [S_COMPLETED; S_FAILED; S_CANCELLED; S_SKIPPED]).

Lemma step_change_history ready s s' :
  step_change ready s s' -> historical (step_status s) = true -> s' = s.
Proof.
  destruct 1 as [|H|? ? ? ? H|H|H|? ? H]; try done; try (rewrite H; done).
  unfold active_step, historical in *. by destruct (step_status s).
Qed.

Lemma plan_step_valid p p' : plan_valid p -> plan_step p p' -> plan_valid p'.
Proof.
  intros Hv H. pose proof (pv_unique _ Hv) as Hu. destruct Hv as [Hf Hg Hs].
  destruct (plan_step_changes _ _ Hu H) as (Hc & Hr & Hi & Ht). constructor.
  - unfold ExecutionPlan_fields in *. rewrite Hr, Hi, Ht, <-(Forall2_length _ _ _ Hc).
    reflect. repeat (apply andb_true_iff; split); try done; apply Z.leb_le; lia.
  - apply validate_graph_spec. apply validate_graph_spec in Hg.
    eapply well_formed_graph_skel; [by eapply step_changes_skel|done].
  - by eapply step_changes_valid.
Qed.

(** Along any sequence of lifecycle operations a valid plan stays valid
    (all construction checks keep holding although [model_copy] does not
    re-run them), its id, title, step ids and dependencies are fixed, its
    revision counts the operations, and a completed, failed, cancelled or
    skipped step is never modified again. *)
Theorem plan_lifecycle_invariant n p p' :
  plan_valid p -> nsteps plan_step n p p' ->
  plan_valid p' /\ plan_revision p' = plan_revision p + Z.of_nat n /\
  plan_id p' = plan_id p /\ plan_title p' = plan_title p /\
  map step_skel (plan_steps p') = map step_skel (plan_steps p) /\
  forall i s, plan_steps p !! i = Some s -> historical (step_status s) = true ->
    plan_steps p' !! i = Some s.
Proof.
  intros Hv H. induction H as [p|n p p1 p' H _ IH].
  - split_and!; try done. lia.
  - pose proof (plan_step_valid _ _ Hv H) as Hv1.
    destruct (plan_step_changes _ _ (pv_unique _ Hv) H) as (Hc & Hr & Hi & Ht).
    destruct (IH Hv1) as (Hv' & Hr' & Hi' & Ht' & Hsk & Hh).
    split_and!; [done|lia|congruence|congruence| |].
    + rewrite Hsk. symmetry. by eapply step_changes_skel.
    + intros i s Hs Hst. destruct (Forall2_lookup_l _ _ _ _ _ Hc Hs) as (s1 & Hs1 & Hsc).
      rewrite (step_change_history _ _ _ Hsc Hst) in Hs1. by apply Hh.
Qed.

(** ** Dependency order *)

Definition started (s : PlanStep) : bool :=
  bool_decide (step_status s ∈ [S_RUNNING; S_WAITING; S_COMPLETED; S_FAILED; S_CANCELLED]).

Definition ordered (steps : list PlanStep) : Prop :=
  forall s, s ∈ steps -> started s = true -> deps_settled steps s.

Lemma settled_historical st : settled st = true -> historical st = true.
Proof. by destruct st. Qed.

Lemma deps_settled_mono ready l l' s :
  Forall2 (step_change ready) l l' -> deps_settled l s -> deps_settled l' s.
Proof.
  intros Hc H d Hd. destruct (H d Hd) as (t & Ht & Hid & Hst).
  apply list_elem_of_lookup in Ht as [i Hi].
  destruct (Forall2_lookup_l _ _ _ _ _ Hc Hi) as (t' & Hi' & Htc).
  apply step_change_history in Htc as ->; [|by apply settled_historical].
  exists t. split_and!; [|done|done]. apply list_elem_of_lookup. eauto.
Qed.

Lemma ordered_changes l l' :
  Forall2 (step_change (deps_settled l)) l l' -> ordered l -> ordered l'.
Proof.
  intros Hc Ho s' Hs' Hst. apply list_elem_of_lookup in Hs' as [i Hi].
  destruct (Forall2_lookup_r _ _ _ _ _ Hc Hi) as (s & His & Hsc).
  assert (s ∈ l) as Hs by (apply list_elem_of_lookup; eauto).
  assert (deps_settled l s) as Hd.
  { destruct Hsc as [|? Hr|? ? ? ? H|H|H|? ? H]; [auto|done|..]; apply Ho; try done.
    all: unfold started; try (by rewrite H).
    unfold active_step in H. reflect. by destruct (step_status s); set_solver. }
  apply (deps_settled_mono _ _ _ _ Hc) in Hd. intros d Hin. apply Hd.
  apply step_change_skel in Hsc. by injection Hsc as _ <-.
Qed.

Definition completed_settled (p : ExecutionPlan) : Prop :=
  plan_status p = P_COMPLETED -> Forall (fun s => settled (step_status s) = true) (plan_steps p).

Lemma completed_settled_step p p' : completed_settled p -> plan_step p p' -> completed_settled p'.
Proof.
  intros Hc H. destruct H as [p p' sid H|p p' sid r su at' md H|p p' sid e H|p p' sid H
                              |p p' sid H|p p' e H|p p' e H]; intros Hst.
  - unfold start_step in H. by raise_free H.
  - unfold complete_step in H.
    destruct (require_status p sid S_RUNNING) as [s|] eqn:E; [|done].
    apply require_status_Ok in E as (Hs & _ & Hrun).
    set (upd := replace_step p (done_step s r su at' md) None) in *.
    destruct (forallb (fun s => settled (step_status s)) (plan_steps upd)) eqn:Hall;
      injection H as <-; [by apply forallb_Forall_bool|].
    specialize (Hc Hst). rewrite Forall_forall in Hc. specialize (Hc _ Hs).
    by rewrite Hrun in Hc.
  - unfold fail_step in H. by raise_free H.
  - unfold wait_step in H. by raise_free H.
  - unfold resume_step in H. by raise_free H.
  - unfold plan_cancel in H. by raise_free H.
  - unfold plan_fail in H. by raise_free H.
Qed.

(** In every plan reached from a freshly created one, a step has left
    the pending state only when each of its dependencies is completed or
    skipped, and the plan is completed only when every step is. *)
Theorem plan_dependency_order p0 p :
  plan_valid p0 -> plan_status p0 = P_CREATED ->
  Forall (fun s => step_status s = S_PENDING) (plan_steps p0) ->
  rtc plan_step p0 p ->
  ordered (plan_steps p) /\ completed_settled p.
Proof.
  intros Hv Hst Hpend Hr.
  assert (ordered (plan_steps p0)) as Ho.
  { intros s Hs Hstart. rewrite Forall_forall in Hpend. unfold started in Hstart.
    by rewrite (Hpend _ Hs) in Hstart. }
  assert (completed_settled p0) as Hc by (intros Hcc; congruence).
  clear Hst Hpend. induction Hr as [p|p p1 p' H _ IH]; [done|]. apply IH.
  - by eapply plan_step_valid.
  - destruct (plan_step_changes _ _ (pv_unique _ Hv) H) as (Hch & _).
    by eapply ordered_changes.
  - by eapply completed_settled_step.
Qed.

(** ** Progress *)

Lemma all_settled_total dict ds :
  (forall d, d ∈ ds -> d ∈ dkeys dict) ->
  exists b, all_settled dict ds = Ok b /\
    ((forall d st, d ∈ ds -> dget d dict = Some st -> settled st = true) -> b = true).
Proof.
  induction ds as [|d ds IH]; simpl; intros Hk; [eauto|].
  destruct (dget d dict) as [st|] eqn:E.
  2: { apply dget_None in E. destruct E. apply Hk. by left. }
  destruct IH as (b & -> & Hb); [intros; apply Hk; by right|].
  destruct (settled st) eqn:Est.
  - exists b. split; [done|]. intros H. apply Hb. intros; eapply H; [by right|done].
  - exists false. split; [done|]. intros H. rewrite (H d st) in Est; [done|by left|done].
Qed.

Lemma ready_among_total dict steps :
  (forall s d, s ∈ steps -> d ∈ step_dependencies s -> d ∈ dkeys dict) ->
  exists l, ready_among dict steps = Ok l /\
    forall s, s ∈ steps -> step_status s = S_PENDING ->
      (forall d st, d ∈ step_dependencies s -> dget d dict = Some st -> settled st = true) ->
      s ∈ l.
Proof.
  induction steps as [|t steps IH]; simpl; intros Hk.
  { exists []. split; [done|]. by intros s ?%not_elem_of_nil. }
  destruct IH as (l & -> & Hl); [intros s d Hs; apply Hk; by right|].
  destruct (all_settled_total dict (step_dependencies t)) as (b & -> & Hb).
  { intros d. apply Hk. by left. }
  case_bool_decide as Hp.
  - exists (if b then t :: l else l). split; [done|].
    intros s [->|Hs]%elem_of_cons Hsp Hd; [rewrite Hb by done; left|].
    destruct b; [right|]; by apply Hl.
  - exists l. split; [done|]. intros s [->|Hs]%elem_of_cons Hsp Hd; [done|by apply Hl].
Qed.

Lemma dependencies_well_founded p :
  validate_graph p = Ok tt -> forall x, x ∈ map step_id (plan_steps p) ->
  Acc (fun y x => depends (plan_steps p) x y) x.
Proof.
  intros Hg x Hx. pose proof (proj1 (proj1 (validate_graph_spec p)) Hg) as [Hu Hk _].
  unfold validate_graph in Hg. raise_free Hg. clear Heqo Heqb.
  unfold assert_acyclic in Hg. fold (search (dependency_dict (plan_steps p))) in Hg.
  destruct (search _) as [st|] eqn:E; [|done].
  destruct (visit_list_sound _ _ (visit_sound _ _) _ _ _ E) as (_ & Hds & Hwf);
    [by intros y ?%not_elem_of_empty|].
  rewrite dkeys_dependency_dict in Hds by done.
  pose proof (Hwf x (Hds x Hx)) as Hacc. clear -Hacc Hu.
  induction Hacc as [x _ IH]. constructor. intros y Hy. apply IH. by apply edge_depends.
Qed.

Lemma status_dict_member p s :
  NoDup (map step_id (plan_steps p)) -> s ∈ plan_steps p ->
  forall st, dget (step_id s) (status_dict (plan_steps p)) = Some st -> st = step_status s.
Proof.
  intros Hu Hs st Hget. destruct (status_dict_get _ _ _ Hu Hget) as (t & Ht & Hid & <-).
  by rewrite (NoDup_map_inj step_id _ t s Hu Ht Hs Hid).
Qed.

(** A valid plan never deadlocks: when some step is pending and every
    other is pending, completed or skipped, [ready_steps] returns at least
    one step, and [start_step] accepts every step it returns. *)
Theorem plan_progress p :
  plan_valid p ->
  (forall s, s ∈ plan_steps p -> step_status s = S_PENDING \/ settled (step_status s) = true) ->
  (exists s, s ∈ plan_steps p /\ step_status s = S_PENDING) ->
  exists ready, ready_steps p = Ok ready /\ ready <> [] /\
    forall s, s ∈ ready -> is_ok (start_step p (step_id s)).
Proof.
  intros Hv Hidle (s0 & Hs0 & Hp0). pose proof (pv_unique _ Hv) as Hu.
  destruct Hv as [_ Hg _].
  pose proof (proj1 (proj1 (validate_graph_spec p)) Hg) as [_ Hk _].
  assert (dkeys (status_dict (plan_steps p)) = map step_id (plan_steps p)) as Hdk.
  { unfold status_dict. rewrite dmerge_nil by (by rewrite map_map).
    unfold dkeys. by rewrite map_map. }
  destruct (ready_among_total (status_dict (plan_steps p)) (plan_steps p)) as (l & Hl & Hin).
  { intros s d Hs Hd. rewrite Hdk. apply (Hk (step_id s)). by exists s. }
  exists l. split; [done|]. split.
  - assert (step_id s0 ∈ map step_id (plan_steps p)) as Hid0
      by (apply list_elem_of_fmap; eauto).
    pose proof (dependencies_well_founded p Hg _ Hid0) as Hacc.
    remember (step_id s0) as x eqn:Hx. revert s0 Hs0 Hp0 Hx.
    clear Hid0. induction Hacc as [x _ IH]. intros s Hs Hp ->.
    destruct (decide (Forall (fun t => step_id t ∈ step_dependencies s ->
                settled (step_status t) = true) (plan_steps p))) as [Hall|Hex].
    + intros ->. apply (not_elem_of_nil s). apply Hin; [done|done|].
      intros d st Hd Hget. destruct (status_dict_get _ _ _ Hu Hget) as (t & Ht & Hid & <-).
      rewrite Forall_forall in Hall. apply Hall; [done|congruence].
    + apply not_Forall_Exists in Hex; [|apply _].
      apply Exists_exists in Hex as (t & Ht & Hnt).
      destruct (decide (step_id t ∈ step_dependencies s)) as [Hd|]; [|exfalso; apply Hnt; done].
      eapply (IH (step_id t)); [by exists s|exact Ht| |done].
      destruct (Hidle t Ht) as [?|Hset]; [done|]. exfalso. by apply Hnt.
  - intros s Hs. destruct (ready_steps_elem p l s Hu Hl Hs) as (Hsin & _).
    unfold start_step, get_step.
    destruct (List.find _ (plan_steps p)) as [t|] eqn:E.
    + apply find_Some_spec in E as [Ht E]. reflect. fold (ready_steps p) in Hl. rewrite Hl.
      replace (existsb _ l) with true; [by eexists|]. symmetry.
      apply List.existsb_exists. exists s. split; [by apply list_elem_of_In|].
      by apply bool_decide_eq_true.
    + eapply List.find_none in E; [|by apply list_elem_of_In]. by rewrite bool_decide_true in E.
Qed.

(** ** Witnesses *)

Definition example_step (sid : string) (deps : list string) : PlanStep :=
  mk_PlanStep sid "work" None deps S_PENDING None None [] None [].

(** A diamond: [a] before [b] and [c], both before [d]. *)
Definition example_plan : ExecutionPlan :=
  mk_ExecutionPlan "plan-1" "demo"
    [example_step "d" ["b"; "c"]; example_step "a" []; example_step "b" ["a"];
     example_step "c" ["a"]] P_CREATED 1 [].

Example cyclic_plan_rejected :
  validate_graph (mk_ExecutionPlan "p" "t"
    [example_step "a" ["b"]; example_step "b" ["c"]; example_step "c" ["a"]] P_CREATED 1 [])
  = Raise cycle_error.
Proof. vm_compute. reflexivity. Qed.

Lemma example_plan_valid : plan_valid example_plan.
Proof. split; [reflexivity|vm_compute; reflexivity|repeat constructor]. Qed.

Definition example_started : ExecutionPlan :=
  match start_step example_plan "a" with Ok p => p | Raise _ => example_plan end.
Definition example_completed : ExecutionPlan :=
  match complete_step example_started "a" (Some (JStr "done")) None [] None with
  | Ok p => p | Raise _ => example_plan end.

Lemma example_run : nsteps plan_step 2 example_plan example_completed.
Proof.
  eapply nsteps_l; [eapply (plan_start _ example_started "a"); vm_compute; reflexivity|].
  eapply nsteps_l; [|constructor].
  eapply (plan_complete _ _ "a" (Some (JStr "done")) None [] None). vm_compute. reflexivity.
Qed.

Lemma example_completed_valid : plan_valid example_completed.
Proof. split; [vm_compute; reflexivity|vm_compute; reflexivity|repeat constructor]. Qed.

Lemma plan_lifecycle_invariant_witness :
  plan_valid example_completed /\ plan_revision example_completed = 3.
Proof.
  destruct (plan_lifecycle_invariant 2 example_plan example_completed
              example_plan_valid example_run) as (Hv & Hr & _).
  split; [exact Hv|]. rewrite Hr. reflexivity.
Defined.

Lemma plan_dependency_order_witness : ordered (plan_steps example_completed).
Proof.
  refine (proj1 (plan_dependency_order example_plan example_completed example_plan_valid
                   eq_refl _ _)).
  - repeat constructor.
  - eapply rtc_nsteps_2. exact example_run.
Defined.

Lemma plan_progress_witness :
  exists ready, ready_steps example_completed = Ok ready /\ ready <> [].
Proof.
  destruct (plan_progress example_completed) as (r & H & Hne & _).
  - exact example_completed_valid.
  - intros s Hs. vm_compute in Hs.
    repeat (apply elem_of_cons in Hs as [->|Hs]; [vm_compute; auto|]).
    by apply not_elem_of_nil in Hs.
  - exists (example_step "d" ["b"; "c"]). split; [vm_compute; left|reflexivity].
  - exists r. split; [exact H|exact Hne].
Defined.
