(* ===== verification/Serial.v ===== *)
(** * Serialization of the data models

    The renderings the runtime writes to events, metadata, checkpoints and
    messages: datetimes, name-based UUIDs, JSON text, and [model_dump] of the
    models in JSON mode.  Pydantic's dump of a model is the object of its
    fields in declaration order, enumerations by value, UUIDs and datetimes
    as strings. *)

From Stdlib Require Import QArith.
From stdpp Require Import base gmap strings list.
From S2P Require Import Prelude Json Models Sha256 Plan.

(** ** Datetimes

    A datetime is UTC; its count of microseconds is from 1970-01-01. *)

(** Year, month and day of a day number counted from 1970-01-01, by
    400-year eras that begin on 1 March. *)
Definition civil_of_days (days : Z) : Z * Z * Z :=
  let z := days + 719468 in
  let era := z / 146097 in
  let doe := z mod 146097 in
  let yoe := (doe - doe / 1460 + doe / 36524 - doe / 146096) / 365 in
  let doy := doe - (365 * yoe + yoe / 4 - yoe / 100) in
  let mp := (5 * doy + 2) / 153 in
  let d := doy - (153 * mp + 2) / 5 + 1 in
  let m := if mp <? 10 then mp + 3 else mp - 9 in
  (yoe + era * 400 + (if m <=? 2 then 1 else 0), m, d).

(** [width] decimal digits. *)
Definition padded (width : Z) (n : Z) : string :=
  let s := zstr n in zeros (Z.to_nat (width - slen s)) +:+ s.

(** Date and time of day without an offset: microseconds only when they are
    not zero. *)
Definition datetime_text (t : time) : string :=
  let us := t mod 86400000000 in
  let '(y, m, d) := civil_of_days (t / 86400000000) in
  let secs := us / 1000000 in
  let micro := us mod 1000000 in
  fstr [padded 4 y; "-"; padded 2 m; "-"; padded 2 d; "T";
        padded 2 (secs / 3600); ":"; padded 2 (secs / 60 mod 60); ":"; padded 2 (secs mod 60);
        if micro =? 0 then "" else "." +:+ padded 6 micro].

(** [t.isoformat()] and pydantic's rendering in JSON mode. *)
Definition isoformat (t : time) : string := datetime_text t +:+ "+00:00".
Definition datetime_json (t : time) : json := JStr (datetime_text t +:+ "Z").

Example isoformat_texts :
  map isoformat [0; 951827696123456; 1709210096000001; 1735689599000000]
  = ["1970-01-01T00:00:00+00:00"; "2000-02-29T12:34:56.123456+00:00";
     "2024-02-29T12:34:56.000001+00:00"; "2024-12-31T23:59:59+00:00"].
Proof. vm_compute. reflexivity. Qed.

(** ** [uuid.uuid5] *)

Section Sha1.
Open Scope N_scope.

Definition rotl (k x : N) : N := N.lor (w32 (N.shiftl x k)) (N.shiftr x (32 - k)).

(** The message schedule of SHA-1, most recent word first. *)
Fixpoint sha1_schedule (n : nat) (w : list N) : list N :=
  match n with
  | O => w
  | S n' =>
      sha1_schedule n'
        (rotl 1 (N.lxor (N.lxor (nth 2 w 0) (nth 7 w 0)) (N.lxor (nth 13 w 0) (nth 15 w 0))) :: w)
  end.

(** The function and constant of round [t]. *)
Definition sha1_f (t : nat) (b c d : N) : N :=
  if (t <? 20)%nat then sha_ch b c d
  else if (40 <=? t)%nat && (t <? 60)%nat then sha_maj b c d
  else N.lxor (N.lxor b c) d.

Definition sha1_k (t : nat) : N :=
  if (t <? 20)%nat then 1518500249 else if (t <? 40)%nat then 1859775393
  else if (t <? 60)%nat then 2400959708 else 3395469782.

Definition sha1_round (st : list N) (tw : nat * N) : list N :=
  match st with
  | [a; b; c; d; e] =>
      [add32 (add32 (rotl 5 a) (sha1_f (fst tw) b c d))
             (add32 e (add32 (sha1_k (fst tw)) (snd tw)));
       a; rotl 30 b; c; d]
  | _ => st
  end.

Definition sha1_block (h block : list N) : list N :=
  let w := rev (sha1_schedule 64 (rev block)) in
  zip_with add32 h (fold_left sha1_round (zip (seq 0 80) w) h).

(** The five words of the digest of a byte sequence. *)
Definition sha1_words (bytes : list N) : list N :=
  let ws := words (sha_pad bytes) in
  fold_left sha1_block (blocks (length ws / 16) ws)
    [1732584193; 4023233417; 2562383102; 271733878; 3285377520].

(** The first sixteen bytes of the digest of the namespace's bytes and the
    name, with the version and variant bits set. *)
Definition uuid5 (namespace : uuid) (name : string) : uuid :=
  let ws := sha1_words (be_bytes 16 namespace ++ string_bytes (utf8 name)) in
  let n := fold_left (fun acc w => acc * 4294967296 + w) (take 4 ws) 0 in
  let clear (mask x : N) := N.ldiff x mask in
  N.lor (N.shiftl 2 62) (clear (N.shiftl 3 62)
    (N.lor (N.shiftl 5 76) (clear (N.shiftl 15 76) n))).
End Sha1.

(** The documentation's example: [uuid5(NAMESPACE_DNS, "python.org")]. *)
Example uuid5_python_org :
  uuid_str (uuid5 143098242404177361603877621312831893704 "python.org")
  = "886313e1-3b8a-5372-9b90-0c9aee199e5d".
Proof. vm_compute. reflexivity. Qed.

Definition NAMESPACE_URL : uuid := 143098242483405524118141958906375844040.

Example NAMESPACE_URL_text : uuid_str NAMESPACE_URL = "6ba7b811-9dad-11d1-80b4-00c04fd430c8".
Proof. vm_compute. reflexivity. Qed.

(** ** JSON text *)

(** Pydantic's rendering of a float in JSON text. *)
Class JsonFloat := json_float : Q -> string.

(** [model_dump_json()]: compact, in field order, non-ASCII as it is. *)
Fixpoint json_compact `{JsonFloat} (j : json) : string :=
  match j with
  | JNull => "null"
  | JBool b => if b then "true" else "false"
  | JInt z => zstr z
  | JFloat q => json_float q
  | JStr s => json_quote s
  | JArr l => "[" +:+ String.concat "," (map json_compact l) +:+ "]"
  | JObj d =>
      "{" +:+ String.concat ","
        ((fix go d := match d with
                      | [] => []
                      | (k, v) :: d' => (json_quote k +:+ ":" +:+ json_compact v) :: go d'
                      end) d) +:+ "}"
  end.

(** A string of [json.dumps] with [ensure_ascii]: everything but printable
    ASCII is escaped. *)
Fixpoint ascii_escape (s : string) : string :=
  match s with
  | EmptyString => EmptyString
  | String a s' =>
      if (126 <? Ascii.N_of_ascii a)%N
      then String backslash ("u00" +:+ hex_digits 2 (Ascii.N_of_ascii a)) +:+ ascii_escape s'
      else json_escape (String a EmptyString) +:+ ascii_escape s'
  end.

Definition ascii_quote (s : string) : string :=
  String dquote (ascii_escape s) +:+ String dquote EmptyString.

(** [json.dumps(v, sort_keys=True)]: default separators and [ensure_ascii]. *)
Fixpoint json_dumps_sorted `{FloatRepr} (j : json) : string :=
  match j with
  | JNull => "null"
  | JBool b => if b then "true" else "false"
  | JInt z => zstr z
  | JFloat q => float_repr q
  | JStr s => ascii_quote s
  | JArr l => "[" +:+ String.concat ", " (map json_dumps_sorted l) +:+ "]"
  | JObj d =>
      let items := (fix go d := match d with
                                | [] => []
                                | (k, v) :: d' => (k, json_dumps_sorted v) :: go d'
                                end) d in
      "{" +:+ String.concat ", "
        (map (fun kv => ascii_quote (fst kv) +:+ ": " +:+ snd kv) (sorted_by key_leb items))
      +:+ "}"
  end.

Example json_texts :
  let j := JObj [("b", JArr [JInt 1; JBool true]); ("a", JStr "x")] in
  json_compact (H := fun _ => "") j
  = fstr ["{"; json_quote "b"; ":[1,true],"; json_quote "a"; ":"; json_quote "x"; "}"] /\
  json_dumps_sorted (H := fun _ => "") j
  = fstr ["{"; json_quote "a"; ": "; json_quote "x"; ", "; json_quote "b"; ": [1, true]}"].
Proof. vm_compute. done. Qed.

(** ** [model_dump(mode="json")] *)

Definition jopt {A} (f : A -> json) (o : option A) : json :=
  match o with Some a => f a | None => JNull end.
Definition jlist {A} (f : A -> json) (l : list A) : json := JArr (map f l).
Definition juuid (u : uuid) : json := JStr (uuid_str u).

Definition TokenUsage_dump (u : TokenUsage) : json :=
  JObj [("input_tokens", JInt (input_tokens u)); ("output_tokens", JInt (output_tokens u));
        ("total_tokens", JInt (total_tokens u))].

Definition ToolCall_dump (c : ToolCall) : json :=
  JObj [("id", JStr (call_id c)); ("name", JStr (call_name c));
        ("arguments", JObj (call_arguments c))].

Definition Message_dump (m : Message) : json :=
  JObj [("role", JStr (MessageRole_value (msg_role m))); ("content", jopt JStr (msg_content m));
        ("tool_calls", jlist ToolCall_dump (msg_tool_calls m));
        ("tool_call_id", jopt JStr (msg_tool_call_id m))].

Definition ToolDefinition_dump (d : ToolDefinition) : json :=
  JObj [("name", JStr (td_name d)); ("description", JStr (td_description d));
        ("input_schema", JObj (td_input_schema d))].

Definition ModelResponse_dump (r : ModelResponse) : json :=
  JObj [("content", jopt JStr (mr_content r));
        ("tool_calls", jlist ToolCall_dump (mr_tool_calls r));
        ("finish_reason", jopt JStr (mr_finish_reason r));
        ("usage", TokenUsage_dump (mr_usage r));
        ("provider_metadata", JObj (mr_provider_metadata r))].

Definition ToolResultStatus_value (s : ToolResultStatus) : string :=
  match s with
  | T_SUCCESS => "success" | T_INVALID_ARGUMENTS => "invalid_arguments"
  | T_NOT_FOUND => "not_found" | T_DENIED => "denied" | T_TIMEOUT => "timeout"
  | T_ERROR => "error" | T_WAITING => "waiting"
  end.

Definition ToolResult_dump (r : ToolResult) : json :=
  JObj [("tool_name", JStr (res_tool_name r));
        ("status", JStr (ToolResultStatus_value (res_status r)));
        ("data", res_data r); ("error_code", jopt JStr (res_error_code r));
        ("message", jopt JStr (res_message r))].

Definition PendingInput_dump (p : PendingInput) : json :=
  JObj [("tool_call_id", JStr (pend_tool_call_id p)); ("tool_name", JStr (pend_tool_name p));
        ("prompt", JStr (pend_prompt p)); ("metadata", JObj (pend_metadata p))].

Definition ToolConfirmationDecision_value (d : ToolConfirmationDecision) : string :=
  match d with APPROVE => "approve" | REJECT => "reject" end.

Definition ToolConfirmation_dump (c : ToolConfirmation) : json :=
  JObj [("request_id", juuid (conf_request_id c));
        ("decision", JStr (ToolConfirmationDecision_value (conf_decision c)));
        ("subject_id", JStr (conf_subject_id c)); ("reason_code", JStr (conf_reason_code c));
        ("decided_at", datetime_json (conf_decided_at c))].

Definition Attachment_dump (a : Attachment) : json :=
  JObj [("id", juuid (att_id a)); ("name", JStr (att_name a));
        ("media_type", JStr (att_media_type a)); ("size_bytes", JInt (att_size_bytes a));
        ("checksum_sha256", JStr (att_checksum_sha256 a));
        ("created_at", datetime_json (att_created_at a)); ("metadata", JObj (att_metadata a))].

Definition Artifact_dump (a : Artifact) : json :=
  JObj [("id", juuid (art_id a)); ("run_id", juuid (art_run_id a)); ("name", JStr (art_name a));
        ("media_type", JStr (art_media_type a)); ("size_bytes", JInt (art_size_bytes a));
        ("checksum_sha256", JStr (art_checksum_sha256 a));
        ("created_at", datetime_json (art_created_at a)); ("metadata", JObj (art_metadata a))].

Definition PlanStatus_value (s : PlanStatus) : string :=
  match s with
  | P_CREATED => "created" | P_RUNNING => "running" | P_WAITING => "waiting"
  | P_COMPLETED => "completed" | P_FAILED => "failed" | P_CANCELLED => "cancelled"
  end.

Definition PlanStep_dump (s : PlanStep) : json :=
  JObj [("id", JStr (step_id s)); ("description", JStr (step_description s));
        ("executor", jopt JStr (step_executor s)); ("dependencies", jlist JStr (step_dependencies s));
        ("status", JStr (StepStatus_value (step_status s)));
        ("success", jopt JBool (step_success s)); ("result", default JNull (step_result s));
        ("attachments", jlist JStr (step_attachments s)); ("error", jopt JStr (step_error s));
        ("metadata", JObj (step_metadata s))].

Definition ExecutionPlan_dump (p : ExecutionPlan) : json :=
  JObj [("id", JStr (plan_id p)); ("title", JStr (plan_title p));
        ("steps", jlist PlanStep_dump (plan_steps p));
        ("status", JStr (PlanStatus_value (plan_status p)));
        ("revision", JInt (plan_revision p)); ("metadata", JObj (plan_metadata p))].

(** [result.model_dump_json()] and [call.model_dump_json()]. *)
Definition ToolResult_json `{JsonFloat} (r : ToolResult) : string := json_compact (ToolResult_dump r).
Definition ToolCall_json `{JsonFloat} (c : ToolCall) : string := json_compact (ToolCall_dump c).
