(* ===== verification/StateMachine.v ===== *)
(** * The Run state machine ([src/base_agent/runtime/state_machine.py])

    [ExecutionState] is [RunStatus]; [_ALLOWED_TRANSITIONS] is a table from
    a state to the set of its successors, and [RuntimeStateMachine] a mutable
    cell guarded by it. *)

From stdpp Require Import base gmap strings list relations.
From S2P Require Import Prelude Models.

(** [_ALLOWED_TRANSITIONS]. *)
Definition allowed_transitions (s : RunStatus) : list RunStatus :=
  match s with
  | CREATED => [RUNNING; CANCELLED; FAILED; INTERRUPTED]
  | RUNNING => [COMPLETED; FAILED; CANCELLED; INTERRUPTED; LIMIT_REACHED; WAITING]
  | COMPLETED | FAILED | CANCELLED | INTERRUPTED | LIMIT_REACHED => []
  | WAITING => [RUNNING; CANCELLED; FAILED; INTERRUPTED]
  end.

(** [RuntimeStateMachine]: the value of [_state]. *)
Record RuntimeStateMachine := mk_RuntimeStateMachine { sm_state : RunStatus }.

(** [is_terminal]. *)
Definition is_terminal (m : RuntimeStateMachine) : bool :=
  match allowed_transitions (sm_state m) with [] => true | _ => false end.

(** [transition_to]. *)
Definition transition_to (m : RuntimeStateMachine) (target : RunStatus)
  : outcome RuntimeStateMachine :=
  raise_when negb (bool_decide (target ∈ allowed_transitions (sm_state m)))
    as Exn InvalidStateTransitionError
         (fstr ["invalid runtime transition: "; RunStatus_value (sm_state m); " -> ";
                RunStatus_value target]) in
  Ok (mk_RuntimeStateMachine target).

Definition sm_step (m m' : RuntimeStateMachine) : Prop :=
  exists target, transition_to m target = Ok m'.

Definition terminal_status (s : RunStatus) : bool :=
  bool_decide (s ∈ [COMPLETED; FAILED; CANCELLED; INTERRUPTED; LIMIT_REACHED]).

Lemma is_terminal_status m : is_terminal m = terminal_status (sm_state m).
Proof. by destruct m as [[]]. Qed.

Lemma transition_to_Ok m t m' :
  transition_to m t = Ok m' <-> t ∈ allowed_transitions (sm_state m) /\ m' = mk_RuntimeStateMachine t.
Proof.
  unfold transition_to. case_bool_decide; simpl; [|by split; [|intros [? _]]].
  split; [intros; by simplify_eq|by intros [_ ->]].
Qed.

(** The machine refuses exactly the moves outside the table and then
    keeps its state; a terminal state admits no further move, so once
    reached it is the final state of every continuation; a waiting or
    completed state is only ever entered from running; and from every
    non-terminal state a terminal one can be reached. *)
Theorem state_machine_contract m :
  (forall t, (exists m', transition_to m t = Ok m') \/
             (exists msg, transition_to m t = Raise (Exn InvalidStateTransitionError msg))) /\
  (is_terminal m = true -> forall m', rtc sm_step m m' -> m' = m) /\
  (forall m', sm_step m m' -> sm_state m' ∈ [WAITING; COMPLETED; LIMIT_REACHED] ->
     sm_state m = RUNNING) /\
  (exists m', rtc sm_step m m' /\ is_terminal m' = true).
Proof.
  split_and!.
  - intros t. unfold transition_to. case_bool_decide; simpl; eauto.
  - intros Ht m' Hr. destruct Hr as [|m m1 m' [t Hs]]; [done|].
    apply transition_to_Ok in Hs as [Hin _]. unfold is_terminal in Ht.
    destruct (allowed_transitions (sm_state m)); [by apply not_elem_of_nil in Hin|done].
  - intros m' [t Hs] Hin. apply transition_to_Ok in Hs as [Hal ->]. simpl in Hin.
    destruct m as [[]]; simpl in Hal; try done;
      repeat (apply elem_of_cons in Hal as [->|Hal]; [set_solver|]);
      by apply not_elem_of_nil in Hal.
  - destruct (is_terminal m) eqn:E; [exists m; split; [constructor|done]|].
    exists (mk_RuntimeStateMachine FAILED). split; [|done].
    apply rtc_once. exists FAILED. apply transition_to_Ok. split; [|done].
    destruct m as [[]]; simpl in *; try done; set_solver.
Qed.
