(* ===== verification/ConversationStore.v ===== *)
(** * The in-memory Conversation store ([src/base_agent/stores/in_memory.py])

    Ordered multi-Run conversations with an atomic single-active-turn
    boundary.  Every method body runs under [self._lock], so a method is one
    atomic step; stored values are deep copies, so the store shares no
    mutable state with its callers. *)

From stdpp Require Import base gmap strings list.
From S2P Require Import Prelude Json Models.

(** [InMemoryConversationStore]: [_conversations] and [_turns].  [_turns] is
    a [defaultdict(list)]: an absent key reads as the empty list. *)
Record ConversationStore := mk_ConversationStore {
  cs_conversations : gmap uuid Conversation;
  cs_turns : gmap uuid (list ConversationTurn);
}.

Definition conversation_store_empty : ConversationStore := mk_ConversationStore ∅ ∅.

Definition turns_of (st : ConversationStore) (cid : uuid) : list ConversationTurn :=
  default [] (cs_turns st !! cid).

(** [_get_locked]. *)
Definition get_locked (st : ConversationStore) (cid : uuid) : outcome Conversation :=
  match cs_conversations st !! cid with
  | Some c => Ok c
  | None => Raise (Exn ConversationNotFoundError
                     (fstr ["conversation '"; uuid_str cid; "' was not found"]))
  end.

Fixpoint turn_messages (turns : list ConversationTurn) : outcome (list Message) :=
  match turns with
  | [] => Ok []
  | t :: turns' =>
      if negb (bool_decide (turn_status t = COMPLETED)) then turn_messages turns'
      else
        let! u := Message_user (turn_user_message t) in
        let! a := Message_assistant (Some (default "" (turn_assistant_message t))) [] in
        let! rest := turn_messages turns' in
        Ok (u :: a :: rest)
  end.

(** [_messages_locked]. *)
Definition messages_locked (st : ConversationStore) (cid : uuid) : outcome (list Message) :=
  turn_messages (turns_of st cid).

(** [create_conversation]. *)
Definition create_conversation (c : Conversation) (st : ConversationStore)
  : outcome ConversationStore :=
  raise_when bool_decide (is_Some (cs_conversations st !! conv_id c))
    as Exn ConversationAlreadyExistsError
         (fstr ["conversation '"; uuid_str (conv_id c); "' already exists"]) in
  Ok (mk_ConversationStore (<[conv_id c := c]> (cs_conversations st)) (cs_turns st)).

(** [get_conversation]. *)
Definition get_conversation (cid : uuid) (st : ConversationStore) : outcome Conversation :=
  get_locked st cid.

(** [begin_turn]. *)
Definition begin_turn (amb : ambient) (cid rid : uuid) (profile_id user_message : string)
  (st : ConversationStore)
  : outcome (ConversationStore * (ConversationTurn * list Message)) :=
  raise_when blank user_message as Exn ExValueError "user_message must not be empty" in
  let! conversation := get_locked st cid in
  raise_when negb (bool_decide (conv_profile_id conversation = profile_id))
    as Exn ConversationProfileMismatchError
         (fstr ["conversation '"; uuid_str cid; "' belongs to profile '";
                conv_profile_id conversation; "', not '"; profile_id; "'"]) in
  match conv_active_run_id conversation with
  | Some active =>
      Raise (Exn ConversationBusyError
               (fstr ["conversation '"; uuid_str cid; "' already has active run '";
                      uuid_str active; "'"]))
  | None =>
      let! history := messages_locked st cid in
      let turn := mk_ConversationTurn cid (conv_version conversation + 1) rid RUNNING
                    user_message None (amb_now amb 0) (amb_now amb 1) in
      let! turn := checked (ConversationTurn_fields turn) (fun _ => Ok tt) turn in
      let conversation' :=
        mk_Conversation (conv_id conversation) (conv_profile_id conversation)
          (turn_sequence turn) (Some rid) (conv_created_at conversation) (amb_now amb 2)
          (conv_metadata conversation) in
      Ok (mk_ConversationStore (<[cid := conversation']> (cs_conversations st))
            (<[cid := turns_of st cid ++ [turn]]> (cs_turns st)),
          (turn, history))
  end.

(** [next((index for index, turn in enumerate(turns) if turn.run_id == run_id), None)]. *)
Fixpoint turn_index (rid : uuid) (turns : list ConversationTurn) : option nat :=
  match turns with
  | [] => None
  | t :: turns' =>
      if bool_decide (turn_run_id t = rid) then Some O else S <$> turn_index rid turns'
  end.

(** [finish_turn]. *)
Definition finish_turn (amb : ambient) (cid rid : uuid) (status : RunStatus)
  (assistant_message : option string) (st : ConversationStore)
  : outcome (ConversationStore * ConversationTurn) :=
  raise_when bool_decide (status ∈ [CREATED; RUNNING])
    as Exn ExValueError "Conversation Turn cannot finish in an active Run state" in
  let! conversation := get_locked st cid in
  let turns := turns_of st cid in
  match turn_index rid turns ≫= (fun i => (fun t => (i, t)) <$> turns !! i) with
  | None =>
      Raise (Exn ConversationTurnNotFoundError
               (fstr ["conversation '"; uuid_str cid; "' has no turn for run '";
                      uuid_str rid; "'"]))
  | Some (index, turn) =>
      raise_when negb (bool_decide (conv_active_run_id conversation = Some rid))
        as Exn ConversationBusyError
             (fstr ["run '"; uuid_str rid; "' is not the active run for conversation '";
                    uuid_str cid; "'"]) in
      let normalized_message :=
        if bool_decide (status = COMPLETED) && bool_decide (assistant_message = None)
        then Some "" else assistant_message in
      let updated :=
        mk_ConversationTurn (turn_conversation_id turn) (turn_sequence turn)
          (turn_run_id turn) status (turn_user_message turn) normalized_message
          (turn_created_at turn) (amb_now amb 0) in
      let turns' := <[cid := <[index := updated]> turns]> (cs_turns st) in
      let conversations' :=
        if negb (bool_decide (status = WAITING)) then
          <[cid := mk_Conversation (conv_id conversation) (conv_profile_id conversation)
                     (conv_version conversation) None (conv_created_at conversation)
                     (amb_now amb 1) (conv_metadata conversation)]> (cs_conversations st)
        else cs_conversations st in
      Ok (mk_ConversationStore conversations' turns', updated)
  end.

(** [list_turns]. *)
Definition list_turns (cid : uuid) (st : ConversationStore) : outcome (list ConversationTurn) :=
  let! _ := get_locked st cid in
  Ok (turns_of st cid).

(** [messages]. *)
Definition conversation_messages (cid : uuid) (st : ConversationStore) : outcome (list Message) :=
  let! _ := get_locked st cid in
  messages_locked st cid.

(** ** Traces of calls

    A call that raises leaves the store unchanged (no mutation precedes a
    [raise]). *)
Inductive conv_call :=
  | CallCreate (c : Conversation)
  | CallBegin (amb : ambient) (cid rid : uuid) (profile_id user_message : string)
  | CallFinish (amb : ambient) (cid rid : uuid) (status : RunStatus) (msg : option string).

Definition conv_exec (call : conv_call) (st : ConversationStore) : outcome ConversationStore :=
  match call with
  | CallCreate c => create_conversation c st
  | CallBegin amb cid rid p m => let! r := begin_turn amb cid rid p m st in Ok r.1
  | CallFinish amb cid rid s m => let! r := finish_turn amb cid rid s m st in Ok r.1
  end.

Definition conv_after (call : conv_call) (st : ConversationStore) : ConversationStore :=
  match conv_exec call st with Ok st' => st' | Raise _ => st end.

Fixpoint conv_trace (calls : list conv_call) (st : ConversationStore) : ConversationStore :=
  match calls with
  | [] => st
  | c :: calls' => conv_trace calls' (conv_after c st)
  end.

(** ** Invariant *)

Definition open_status (s : RunStatus) : bool := bool_decide (s ∈ [RUNNING; WAITING]).

(** The turns of one conversation against its aggregate: numbered 1..n, one
    per Run, [version] counting them; all closed but possibly the last,
    which is open exactly when its Run is the active one. *)
Record conversation_ok (cid : uuid) (c : Conversation) (turns : list ConversationTurn) : Prop := {
  co_id : conv_id c = cid;
  co_version : conv_version c = Z.of_nat (length turns);
  co_sequence : forall i t, turns !! i = Some t ->
    turn_sequence t = Z.of_nat i + 1 /\ turn_conversation_id t = cid;
  co_runs : NoDup (map turn_run_id turns);
  co_closed : forall i t, turns !! i = Some t -> open_status (turn_status t) = true ->
    S i = length turns /\ conv_active_run_id c = Some (turn_run_id t);
  co_active : forall r, conv_active_run_id c = Some r ->
    exists t, last turns = Some t /\ turn_run_id t = r /\ open_status (turn_status t) = true;
  co_never_created : Forall (fun t => turn_status t <> CREATED) turns;
}.

Definition store_ok (st : ConversationStore) : Prop :=
  (forall cid c, cs_conversations st !! cid = Some c -> conversation_ok cid c (turns_of st cid)) /\
  (forall cid, cs_conversations st !! cid = None -> turns_of st cid = []).

(** What the callers guarantee: a created conversation is fresh
    ([version = 0], no active Run) and every turn gets a Run id its
    conversation has not used (Run ids are generated UUIDs). *)
Definition call_fresh (call : conv_call) (st : ConversationStore) : Prop :=
  match call with
  | CallCreate c => conv_version c = 0 /\ conv_active_run_id c = None
  | CallBegin _ cid rid _ _ => rid ∉ map turn_run_id (turns_of st cid)
  | CallFinish _ _ _ _ _ => True
  end.

Fixpoint calls_fresh (calls : list conv_call) (st : ConversationStore) : Prop :=
  match calls with
  | [] => True
  | c :: calls' => call_fresh c st /\ calls_fresh calls' (conv_after c st)
  end.

Lemma turn_index_Some rid turns i :
  turn_index rid turns = Some i -> exists t, turns !! i = Some t /\ turn_run_id t = rid.
Proof.
  revert i. induction turns as [|t turns IH]; simpl; intros i H; [done|].
  case_bool_decide; simplify_eq/=; [eauto|].
  destruct (turn_index rid turns) as [j|]; simplify_eq/=. by apply IH.
Qed.

Lemma turn_index_None rid turns : turn_index rid turns = None <-> rid ∉ map turn_run_id turns.
Proof.
  induction turns as [|t turns IH]; simpl; [split; [by intros _ ?%not_elem_of_nil|done]|].
  rewrite not_elem_of_cons. case_bool_decide as E; [naive_solver|].
  destruct (turn_index rid turns); simpl; naive_solver.
Qed.

Lemma turns_of_insert st cid ts convs cid' :
  turns_of (mk_ConversationStore convs (<[cid := ts]> (cs_turns st))) cid' =
  if decide (cid = cid') then ts else turns_of st cid'.
Proof. unfold turns_of. simpl. rewrite lookup_insert. by case_decide. Qed.

(** What a successful [begin_turn] did. *)
Lemma begin_turn_Ok amb cid rid p m st st' turn history :
  begin_turn amb cid rid p m st = Ok (st', (turn, history)) ->
  exists c, cs_conversations st !! cid = Some c /\ conv_profile_id c = p /\
    conv_active_run_id c = None /\ blank m = false /\
    turn = mk_ConversationTurn cid (conv_version c + 1) rid RUNNING m None
             (amb_now amb 0) (amb_now amb 1) /\
    messages_locked st cid = Ok history /\
    st' = mk_ConversationStore
      (<[cid := mk_Conversation (conv_id c) (conv_profile_id c) (conv_version c + 1) (Some rid)
                  (conv_created_at c) (amb_now amb 2) (conv_metadata c)]> (cs_conversations st))
      (<[cid := turns_of st cid ++ [turn]]> (cs_turns st)).
Proof.
  unfold begin_turn, get_locked, checked. intros H.
  destruct (blank m) eqn:Hm; [done|].
  destruct (cs_conversations st !! cid) as [c|] eqn:Hc; [|done]. simpl in H.
  destruct (bool_decide (conv_profile_id c = p)) eqn:Hp; [|done]. simpl in H. reflect.
  destruct (conv_active_run_id c) eqn:Ha; [done|].
  destruct (messages_locked st cid) as [h|] eqn:Hh; [|done].
  destruct (ConversationTurn_fields _); [|done]. simpl in H.
  injection H as <- <- <-. exists c. split_and!; done.
Qed.

(** What a successful [finish_turn] did. *)
Lemma finish_turn_Ok amb cid rid s m st st' upd :
  finish_turn amb cid rid s m st = Ok (st', upd) ->
  exists c i t, cs_conversations st !! cid = Some c /\ turns_of st cid !! i = Some t /\
    turn_run_id t = rid /\ conv_active_run_id c = Some rid /\ s ∉ [CREATED; RUNNING] /\
    upd = mk_ConversationTurn (turn_conversation_id t) (turn_sequence t) rid s
            (turn_user_message t)
            (if bool_decide (s = COMPLETED) && bool_decide (m = None) then Some "" else m)
            (turn_created_at t) (amb_now amb 0) /\
    cs_turns st' = <[cid := <[i := upd]> (turns_of st cid)]> (cs_turns st) /\
    cs_conversations st' =
      if bool_decide (s = WAITING) then cs_conversations st
      else <[cid := mk_Conversation (conv_id c) (conv_profile_id c) (conv_version c) None
                      (conv_created_at c) (amb_now amb 1) (conv_metadata c)]>
             (cs_conversations st).
Proof.
  unfold finish_turn, get_locked. intros H.
  destruct (bool_decide (s ∈ [CREATED; RUNNING])) eqn:Hs; [done|].
  destruct (cs_conversations st !! cid) as [c|] eqn:Hc; [|done]. simpl in H.
  destruct (turn_index rid (turns_of st cid)) as [i|] eqn:Hi; [|done]. simpl in H.
  destruct (turn_index_Some _ _ _ Hi) as (t & Ht & Hr). rewrite Ht in H. simpl in H.
  destruct (bool_decide (conv_active_run_id c = Some rid)) eqn:Ha; [|done]. simpl in H.
  reflect. injection H as <- <-. exists c, i, t. subst rid. split_and!; try done.
  simpl. by destruct (bool_decide (s = WAITING)).
Qed.

Lemma conversation_ok_begin cid c turns rid p v m t0 t1 t2 t3 :
  conversation_ok cid c turns -> conv_active_run_id c = None -> rid ∉ map turn_run_id turns ->
  conversation_ok cid
    (mk_Conversation (conv_id c) p (conv_version c + 1) (Some rid) t0 t1 v)
    (turns ++ [mk_ConversationTurn cid (conv_version c + 1) rid RUNNING m None t2 t3]).
Proof.
  intros [Hid Hv Hs Hr Hc Ha Hn] Hnone Hfresh. constructor; simpl.
  - done.
  - rewrite length_app, Hv. simpl. lia.
  - intros i t [Hi|[Hi Ht]]%lookup_app_Some; [by apply Hs|].
    apply list_lookup_singleton_Some in Ht as [? <-]. simpl. split; [lia|done].
  - rewrite map_app. apply NoDup_app. split_and!; [done| |apply NoDup_singleton].
    intros x Hx Hx'. apply list_elem_of_singleton in Hx' as ->. done.
  - intros i t [Hi|[Hi Ht]]%lookup_app_Some Ho.
    + destruct (Hc _ _ Hi Ho). congruence.
    + apply list_lookup_singleton_Some in Ht as [? <-]. simpl. rewrite length_app. simpl.
      split; [lia|done].
  - intros r [= <-]. eexists. rewrite last_snoc. done.
  - apply Forall_app. split; [done|]. by repeat constructor.
Qed.

Lemma last_is_unique_run cid c turns i t rid :
  conversation_ok cid c turns -> turns !! i = Some t -> turn_run_id t = rid ->
  conv_active_run_id c = Some rid -> S i = length turns.
Proof.
  intros [_ _ _ Hr _ Ha _] Hi Hrid Hact.
  destruct (Ha _ Hact) as (t' & Hlast & Hr' & _). rewrite last_lookup in Hlast.
  assert (map turn_run_id turns !! i = Some rid) as H1
    by (rewrite list_lookup_fmap, Hi; simpl; congruence).
  assert (map turn_run_id turns !! pred (length turns) = Some rid) as H2
    by (rewrite list_lookup_fmap, Hlast; simpl; congruence).
  pose proof (NoDup_lookup _ _ _ _ Hr H1 H2) as ->.
  apply lookup_lt_Some in Hi. lia.
Qed.

Lemma conversation_ok_finish cid c turns i t upd rid s p v t0 t1 :
  conversation_ok cid c turns -> turns !! i = Some t -> turn_run_id t = rid ->
  conv_active_run_id c = Some rid -> s ∉ [CREATED; RUNNING] ->
  turn_run_id upd = rid -> turn_status upd = s -> turn_sequence upd = turn_sequence t ->
  turn_conversation_id upd = turn_conversation_id t ->
  conversation_ok cid
    (if bool_decide (s = WAITING) then c
     else mk_Conversation (conv_id c) p (conv_version c) None t0 t1 v)
    (<[i := upd]> turns).
Proof.
  intros Hok Hi Hrid Hact Hs Hru Hst Hseq Hconv.
  pose proof (last_is_unique_run _ _ _ _ _ _ Hok Hi Hrid Hact) as Hlast.
  assert (i < length turns)%nat as Hlt by lia.
  assert (open_status s = true -> s = WAITING) as Hwait.
  { unfold open_status. intros ?. reflect. set_solver. }
  destruct Hok as [Hid Hv Hsq Hr Hc Ha Hn].
  assert (map turn_run_id (<[i := upd]> turns) = map turn_run_id turns) as Hruns.
  { rewrite list_fmap_insert, list_insert_id; [done|]. rewrite list_lookup_fmap, Hi. simpl.
    congruence. }
  assert (forall j x, <[i := upd]> turns !! j = Some x -> j = i /\ x = upd \/ j <> i /\ turns !! j = Some x)
    as Hlook.
  { intros j x. rewrite list_lookup_insert. case_decide; naive_solver. }
  constructor.
  - by case_bool_decide.
  - rewrite length_insert. by case_bool_decide.
  - intros j x [[-> ->]|[_ Hj]]%Hlook; [|by apply Hsq].
    destruct (Hsq _ _ Hi). split; congruence.
  - by rewrite Hruns.
  - rewrite length_insert. intros j x [[-> ->]|[Hne Hj]]%Hlook Ho.
    + rewrite Hst in Ho. split; [done|].
      rewrite bool_decide_true by auto. congruence.
    + destruct (Hc _ _ Hj Ho). lia.
  - intros r. case_bool_decide as Hw; simpl; [|done]. intros Hr'.
    exists upd. rewrite last_lookup, length_insert, <-Hlast. simpl.
    rewrite list_lookup_insert_eq by done. split_and!; [done|congruence|].
    by rewrite Hst, Hw.
  - apply Forall_insert; [done|]. rewrite Hst. set_solver.
Qed.

Lemma conv_exec_ok call st st' :
  store_ok st -> call_fresh call st -> conv_exec call st = Ok st' -> store_ok st'.
Proof.
  intros [Hok Hempty] Hf H. destruct call as [c|amb cid rid p m|amb cid rid s m]; simpl in *.
  - unfold create_conversation in H. case_bool_decide as Hn; simpl in H; [done|].
    injection H as <-. apply eq_None_not_Some in Hn. destruct Hf as [Hv Ha].
    split; simpl; intros cid; rewrite lookup_insert; case_decide as E; [subst cid| |done|apply Hempty].
    + intros c' [= <-]. change (turns_of (mk_ConversationStore _ (cs_turns st)) (conv_id c))
        with (turns_of st (conv_id c)). rewrite (Hempty _ Hn).
      constructor; simpl; try done; try congruence. constructor.
    + apply Hok.
  - destruct (begin_turn amb cid rid p m st) as [[st1 [t h]]|] eqn:E; [|done].
    injection H as <-. destruct (begin_turn_Ok _ _ _ _ _ _ _ _ _ E)
      as (c & Hc & _ & Hn & _ & -> & _ & ->).
    split; simpl; intros cid'; rewrite turns_of_insert, lookup_insert;
      case_decide as Ec; try done; [subst cid'|apply Hok|apply Hempty].
    intros c' [= <-]. apply (conversation_ok_begin cid c); auto.
  - destruct (finish_turn amb cid rid s m st) as [[st1 t]|] eqn:E; [|done].
    injection H as <-. destruct (finish_turn_Ok _ _ _ _ _ _ _ _ E)
      as (c & i & t0 & Hc & Hi & Hr & Ha & Hs & -> & Ht' & Hc').
    destruct st1 as [cs1 ts1]. simpl in Ht', Hc'. subst cs1 ts1.
    set (upd := mk_ConversationTurn _ _ _ _ _ _ _ _).
    split; simpl; intros cid'; rewrite turns_of_insert;
      destruct (decide (cid = cid')) as [<-|Ec].
    + intros c' Hc'.
      replace c' with (if bool_decide (s = WAITING) then c else
        mk_Conversation (conv_id c) (conv_profile_id c) (conv_version c) None
          (conv_created_at c) (amb_now amb 1) (conv_metadata c)).
      2: { case_bool_decide; [congruence|]. rewrite lookup_insert_eq in Hc'. congruence. }
      apply (conversation_ok_finish cid c _ _ t0 upd rid); auto.
    + intros c' Hc'. apply Hok. case_bool_decide; [done|]. by rewrite lookup_insert_ne in Hc'.
    + case_bool_decide; [congruence|]. by rewrite lookup_insert_eq.
    + intros Hn. apply Hempty. case_bool_decide; [done|]. by rewrite lookup_insert_ne in Hn.
Qed.

Lemma conv_after_ok call st : store_ok st -> call_fresh call st -> store_ok (conv_after call st).
Proof.
  unfold conv_after. intros Hok Hf. destruct (conv_exec call st) eqn:E; [|done].
  by eapply conv_exec_ok.
Qed.

Lemma conv_trace_ok calls : forall st,
  store_ok st -> calls_fresh calls st -> store_ok (conv_trace calls st).
Proof.
  induction calls as [|c calls IH]; simpl; intros st Hok; [done|]. intros [Hf Hfs].
  apply IH; [by apply conv_after_ok|done].
Qed.

(** From the empty store, whatever sequence of calls is made (calls that
    raise included), every conversation's turns are numbered 1..n by
    [version], belong to distinct Runs, and are all closed except at most
    the last, which is open exactly while its Run is the active one. *)
Theorem conversation_store_invariant calls :
  calls_fresh calls conversation_store_empty ->
  store_ok (conv_trace calls conversation_store_empty).
Proof.
  apply conv_trace_ok. split; simpl; intros cid; [by rewrite lookup_empty|].
  intros _. unfold turns_of. simpl. by rewrite lookup_empty.
Qed.

(** ** One active turn *)

(** [call] is a successful [finish_turn] of [rid] with a status other than
    [WAITING]. *)
Definition closes (cid rid : uuid) (call : conv_call) (st : ConversationStore) : Prop :=
  exists amb s m, call = CallFinish amb cid rid s m /\ s <> WAITING /\ is_ok (conv_exec call st).

Definition active_run (st : ConversationStore) (cid : uuid) : option uuid :=
  cs_conversations st !! cid ≫= conv_active_run_id.

Lemma active_run_step call st cid rid :
  active_run st cid = Some rid ->
  active_run (conv_after call st) cid = Some rid \/ closes cid rid call st.
Proof.
  unfold active_run. intros Ha. destruct (cs_conversations st !! cid) as [c|] eqn:Hc; [|done].
  simpl in Ha. unfold conv_after. destruct (conv_exec call st) as [st'|] eqn:E.
  2: { left. by rewrite Hc. }
  destruct call as [c0|amb cid0 rid0 p m|amb cid0 rid0 s m]; simpl in E.
  - unfold create_conversation in E. case_bool_decide as Hn; simpl in E; [done|].
    injection E as <-. left. simpl. rewrite lookup_insert_ne; [by rewrite Hc|].
    intros Heq. apply Hn. rewrite Heq, Hc. eauto.
  - destruct (begin_turn amb cid0 rid0 p m st) as [[st1 [t h]]|] eqn:Eb; [|done].
    injection E as <-. destruct (begin_turn_Ok _ _ _ _ _ _ _ _ _ Eb)
      as (c1 & Hc1 & _ & Hn & _ & _ & _ & ->). left. simpl.
    rewrite lookup_insert_ne; [by rewrite Hc|]. congruence.
  - destruct (finish_turn amb cid0 rid0 s m st) as [[st1 t]|] eqn:Ef; [|done].
    injection E as <-. destruct (finish_turn_Ok _ _ _ _ _ _ _ _ Ef)
      as (c1 & i & t0 & Hc1 & _ & _ & Ha1 & _ & _ & _ & Hconv). simpl. rewrite Hconv.
    destruct (decide (cid0 = cid)) as [->|Hne].
    + case_bool_decide as Hw; [left; by rewrite Hc|right].
      assert (c1 = c) as -> by congruence. assert (rid0 = rid) as -> by congruence.
      exists amb, s, m. split_and!; [done|done|]. simpl. rewrite Ef. by eexists.
    + left. case_bool_decide; [by rewrite Hc|]. rewrite lookup_insert_ne by done. by rewrite Hc.
Qed.

(** A conversation has one active turn at a time.  Once [begin_turn] has
    returned for a Run, then after any further calls in which no
    [finish_turn] closed that Run, every [begin_turn] on the conversation
    raises: nothing but the active Run finishing in a non-waiting state
    makes room for another turn. *)
Theorem turn_mutual_exclusion st st1 amb cid rid p m turn history calls :
  begin_turn amb cid rid p m st = Ok (st1, (turn, history)) ->
  (forall before call after, calls = before ++ call :: after ->
     ~ closes cid rid call (conv_trace before st1)) ->
  forall amb' rid' p' m', exists e,
    begin_turn amb' cid rid' p' m' (conv_trace calls st1) = Raise e.
Proof.
  intros Hb Hno amb' rid' p' m'.
  assert (active_run st1 cid = Some rid) as Ha.
  { destruct (begin_turn_Ok _ _ _ _ _ _ _ _ _ Hb) as (c & _ & _ & _ & _ & _ & _ & ->).
    unfold active_run. simpl. by rewrite lookup_insert_eq. }
  clear Hb. revert st1 Ha Hno. induction calls as [|call calls IH]; intros st1 Ha Hno; simpl.
  - destruct (begin_turn amb' cid rid' p' m' st1) as [[st2 [t h]]|e] eqn:E; [|eauto].
    destruct (begin_turn_Ok _ _ _ _ _ _ _ _ _ E) as (c & Hc & _ & Hn & _).
    unfold active_run in Ha. rewrite Hc in Ha. simpl in Ha. congruence.
  - apply IH.
    + destruct (active_run_step call _ _ _ Ha) as [|Hcl]; [done|].
      by destruct (Hno [] call calls eq_refl).
    + intros before call' after ->. apply (Hno (call :: before) call' after eq_refl).
Qed.

(** ** The transcript *)

(** The user and assistant texts of the completed turns, in order. *)
Definition transcript (turns : list ConversationTurn) : list Message :=
  t ← turns;
  if bool_decide (turn_status t = COMPLETED)
  then [mk_Message USER (Some (turn_user_message t)) [] None;
        mk_Message ASSISTANT (Some (default "" (turn_assistant_message t))) [] None]
  else [].

Lemma turn_messages_transcript turns : turn_messages turns = Ok (transcript turns).
Proof.
  unfold transcript. induction turns as [|t turns IH]; [done|]. cbn [turn_messages].
  rewrite IH. simpl. by case_bool_decide.
Qed.

(** A turn that begins and completes: [begin_turn] hands out the
    transcript of the completed turns and nothing else, [finish_turn] then
    accepts the Run, the conversation is free again with the version
    advanced by one, and the next transcript is the previous one extended
    with this turn's question and answer. *)
Theorem completed_turn_extends_transcript st st1 amb amb' cid rid p m turn history answer :
  store_ok st -> rid ∉ map turn_run_id (turns_of st cid) ->
  begin_turn amb cid rid p m st = Ok (st1, (turn, history)) ->
  history = transcript (turns_of st cid) /\
  exists st2 turn', finish_turn amb' cid rid COMPLETED answer st1 = Ok (st2, turn') /\
    active_run st2 cid = None /\
    conversation_messages cid st2 =
      Ok (history ++ [mk_Message USER (Some m) [] None;
                      mk_Message ASSISTANT (Some (default "" answer)) [] None]) /\
    (conv_version <$> (cs_conversations st2 !! cid)) =
      ((fun c => conv_version c + 1) <$> (cs_conversations st !! cid)).
Proof.
  intros [Hok _] Hfresh Hb.
  destruct (begin_turn_Ok _ _ _ _ _ _ _ _ _ Hb) as (c & Hc & Hp & Hn & _ & -> & Hh & ->).
  unfold messages_locked in Hh. rewrite turn_messages_transcript in Hh. injection Hh as <-.
  split; [done|]. set (turn := mk_ConversationTurn _ _ _ _ _ _ _ _).
  set (st1 := mk_ConversationStore _ _).
  assert (turns_of st1 cid = turns_of st cid ++ [turn]) as Hts.
  { unfold st1. rewrite turns_of_insert. by rewrite decide_True. }
  assert (turn_index rid (turns_of st cid ++ [turn]) = Some (length (turns_of st cid))) as Hidx.
  { clear -Hfresh. induction (turns_of st cid) as [|t ts IH]; simpl in *.
    - by rewrite bool_decide_true.
    - rewrite not_elem_of_cons in Hfresh. destruct Hfresh as [Hne Hin].
      rewrite bool_decide_false by congruence. by rewrite IH. }
  unfold finish_turn, get_locked. rewrite Hts, Hidx. simpl. rewrite lookup_insert_eq.
  rewrite list_lookup_middle by done. simpl. rewrite bool_decide_true by done. simpl.
  eexists _, _. split; [done|]. unfold active_run, conversation_messages, get_locked,
    messages_locked. simpl. rewrite !lookup_insert_eq, turn_messages_transcript.
  unfold turns_of at 1. simpl. rewrite lookup_insert_eq. simpl.
  split_and!; [done| |by rewrite Hc].
  rewrite insert_app_r_alt by done. rewrite Nat.sub_diag. simpl.
  unfold transcript. rewrite bind_app. simpl. by destruct answer.
Qed.

(** ** Witnesses *)

Definition example_ambient : ambient :=
  Ambient 1000 (fun n => 2000 + Z.of_nat n) (fun n => 77 + N.of_nat n)%N.

Definition example_conversation : Conversation :=
  mk_Conversation 1%N "assistant" 0 None 0 0 [].

Definition example_calls : list conv_call :=
  [CallCreate example_conversation;
   CallBegin example_ambient 1%N 10%N "assistant" "hello";
   CallFinish example_ambient 1%N 10%N COMPLETED (Some "hi");
   CallBegin example_ambient 1%N 11%N "assistant" "more"].

Lemma conversation_store_invariant_witness :
  store_ok (conv_trace example_calls conversation_store_empty).
Proof.
  apply (conversation_store_invariant example_calls).
  repeat split; simpl; intros ?; set_solver.
Defined.

Definition example_store : ConversationStore :=
  conv_trace [CallCreate example_conversation] conversation_store_empty.

Definition example_begun : ConversationStore :=
  conv_after (CallBegin example_ambient 1%N 10%N "assistant" "hello") example_store.

Lemma turn_mutual_exclusion_witness :
  exists e, begin_turn example_ambient 1%N 11%N "assistant" "again"
    (conv_trace [CallFinish example_ambient 1%N 10%N WAITING None] example_begun) = Raise e.
Proof.
  refine (turn_mutual_exclusion example_store example_begun example_ambient 1%N 10%N
            "assistant" "hello" _ _ [CallFinish example_ambient 1%N 10%N WAITING None]
            _ _ example_ambient 11%N "assistant" "again").
  - vm_compute. reflexivity.
  - intros before call after Heq (amb & s & m & Hcall & Hs & _).
    destruct before as [|b before]; [|by destruct before]. simplify_eq/=.
Defined.

Lemma completed_turn_extends_transcript_witness :
  exists st2 turn', finish_turn example_ambient 1%N 10%N COMPLETED None example_begun
    = Ok (st2, turn') /\ active_run st2 1%N = None.
Proof.
  destruct (completed_turn_extends_transcript example_store example_begun example_ambient
              example_ambient 1%N 10%N "assistant" "hello"
              (mk_ConversationTurn 1%N 1 10%N RUNNING "hello" None 2000 2001) [] None)
    as (_ & st2 & turn' & H & Ha & _).
  - apply (conv_trace_ok [CallCreate example_conversation]).
    + split; intros cid; simpl; [by rewrite lookup_empty|done].
    + simpl. auto.
  - vm_compute. by intros ?%not_elem_of_nil.
  - vm_compute. reflexivity.
  - exists st2, turn'. split; [exact H|exact Ha].
Defined.
