(* ===== verification/RunStore.v ===== *)
(** * The in-memory Run and checkpoint stores ([src/base_agent/stores/in_memory.py])

    [InMemoryRunStore] keeps the durable snapshot of each Run and the
    cancellation signal; [InMemoryCheckpointStore] keeps at most one
    checkpoint per suspended Run and hands it out at most once.  Methods run
    under the store's lock, so a concurrent execution is a sequence of
    method calls. *)

From stdpp Require Import base gmap strings list.
From S2P Require Import Prelude Json Models.

(** ** Runs *)

Definition run_not_found (rid : uuid) : exn :=
  Exn RunNotFoundError (fstr ["run '"; uuid_str rid; "' was not found"]).

(** [run.model_copy(update={"cancel_requested": ..., "updated_at": ...})]. *)
Definition run_with_cancel (r : Run) (cancel : bool) (updated_at : time) : Run :=
  mk_Run (run_id r) (run_profile_id r) (run_conversation_id r) (run_turn_sequence r)
    (run_status r) (run_step_count r) (run_tool_call_count r) (run_usage r) (run_skills r)
    (run_output r) (run_error r) cancel (run_created_at r) updated_at (run_metadata r)
    (run_attachments r) (run_artifacts r).

(** [InMemoryRunStore.create]. *)
Definition run_create (r : Run) (runs : gmap uuid Run) : outcome (gmap uuid Run) :=
  raise_when bool_decide (is_Some (runs !! run_id r))
    as Exn RunAlreadyExistsError (fstr ["run '"; uuid_str (run_id r); "' already exists"]) in
  Ok (<[run_id r := r]> runs).

(** [InMemoryRunStore.get]. *)
Definition run_get (rid : uuid) (runs : gmap uuid Run) : outcome Run :=
  match runs !! rid with
  | Some r => Ok r
  | None => Raise (run_not_found rid)
  end.

(** [InMemoryRunStore.save]: the cancellation flag of the stored Run is
    merged into the snapshot. *)
Definition run_save (r : Run) (runs : gmap uuid Run) : outcome (gmap uuid Run) :=
  match runs !! run_id r with
  | None => Raise (run_not_found (run_id r))
  | Some current =>
      let updated :=
        if run_cancel_requested current && negb (run_cancel_requested r)
        then run_with_cancel r true (run_updated_at r) else r in
      Ok (<[run_id r := updated]> runs)
  end.

(** [InMemoryRunStore.request_cancel]. *)
Definition run_request_cancel (amb : ambient) (rid : uuid) (runs : gmap uuid Run)
  : outcome (gmap uuid Run * Run) :=
  match runs !! rid with
  | None => Raise (run_not_found rid)
  | Some r =>
      raise_when negb (bool_decide (run_status r ∈ [CREATED; RUNNING; WAITING]))
        as Exn RunNotCancellableError
             (fstr ["run '"; uuid_str rid; "' in state '"; RunStatus_value (run_status r);
                    "' cannot be cancelled"]) in
      let updated := run_with_cancel r true (amb_now amb 0) in
      Ok (<[rid := updated]> runs, updated)
  end.

(** [InMemoryRunStore.is_cancel_requested]. *)
Definition is_cancel_requested (rid : uuid) (runs : gmap uuid Run) : outcome bool :=
  let! r := run_get rid runs in
  Ok (run_cancel_requested r).

Inductive run_call :=
  | RunCreate (r : Run)
  | RunSave (r : Run)
  | RunCancel (amb : ambient) (rid : uuid).

(** The store after one call; a call that raises changes nothing. *)
Definition run_after (call : run_call) (runs : gmap uuid Run) : gmap uuid Run :=
  match match call with
        | RunCreate r => run_create r runs
        | RunSave r => run_save r runs
        | RunCancel amb rid => let! p := run_request_cancel amb rid runs in Ok p.1
        end with
  | Ok runs' => runs'
  | Raise _ => runs
  end.

Definition run_trace (calls : list run_call) (runs : gmap uuid Run) : gmap uuid Run :=
  fold_left (fun runs c => run_after c runs) calls runs.

Lemma run_after_cancel_monotone call rid runs :
  is_cancel_requested rid runs = Ok true -> is_cancel_requested rid (run_after call runs) = Ok true.
Proof.
  unfold is_cancel_requested, run_get.
  destruct (runs !! rid) as [r0|] eqn:Hr0; [|done]. intros [= Hc].
  destruct call as [r|r|amb rid']; unfold run_after; simpl.
  - unfold run_create. case_bool_decide as Hs; simpl; [by rewrite Hr0, Hc|].
    rewrite lookup_insert_ne; [by rewrite Hr0, Hc|]. intros Heq. apply Hs. rewrite Heq, Hr0. eauto.
  - unfold run_save. destruct (runs !! run_id r) as [cur|] eqn:Hcur; [|by rewrite Hr0, Hc].
    destruct (decide (run_id r = rid)) as [Heq|Hne].
    + rewrite Heq, lookup_insert_eq. assert (cur = r0) as -> by congruence.
      rewrite Hc. simpl. destruct (run_cancel_requested r) eqn:E; simpl; by rewrite ?E.
    + rewrite lookup_insert_ne by done. by rewrite Hr0, Hc.
  - unfold run_request_cancel. destruct (runs !! rid') as [cur|] eqn:Hcur; [|by rewrite Hr0, Hc].
    case_bool_decide; simpl; [|by rewrite Hr0, Hc].
    destruct (decide (rid' = rid)) as [->|Hne]; [by rewrite lookup_insert_eq|].
    rewrite lookup_insert_ne by done. by rewrite Hr0, Hc.
Qed.

(** An accepted cancellation is never lost.  Once [request_cancel] has
    returned, [is_cancel_requested] answers [True] after any further calls,
    in particular after a [save] of a snapshot built from a read that
    predates the request; and the [save] otherwise stores the snapshot it
    was given. *)
Theorem cancel_request_never_lost runs amb rid runs1 r calls :
  run_request_cancel amb rid runs = Ok (runs1, r) ->
  is_cancel_requested rid (run_trace calls runs1) = Ok true /\
  forall snapshot cur, run_trace calls runs1 !! run_id snapshot = Some cur ->
    exists stored, run_save snapshot (run_trace calls runs1) =
        Ok (<[run_id snapshot := stored]> (run_trace calls runs1)) /\
      run_with_cancel stored false 0 = run_with_cancel snapshot false 0 /\
      run_cancel_requested stored = run_cancel_requested cur || run_cancel_requested snapshot.
Proof.
  intros H. split.
  - assert (is_cancel_requested rid runs1 = Ok true) as Hc.
    { unfold run_request_cancel in H. destruct (runs !! rid); [|done].
      destruct (negb _); [done|]. injection H as <- <-.
      unfold is_cancel_requested, run_get. by rewrite lookup_insert_eq. }
    clear H. unfold run_trace. revert runs1 Hc. induction calls as [|c calls IH]; simpl; [done|].
    intros runs1 Hc. by apply IH, run_after_cancel_monotone.
  - intros snapshot cur Hcur. unfold run_save. rewrite Hcur.
    eexists. split; [done|].
    destruct (run_cancel_requested cur), (run_cancel_requested snapshot) eqn:E; simpl;
      rewrite ?E; done.
Qed.

Definition example_run_aggregate : Run :=
  mk_Run 5%N "assistant" None None RUNNING 0 0 TokenUsage_zero [] None None false 0 0 [] [] [].

Lemma cancel_request_never_lost_witness :
  let amb := Ambient 9 (fun _ => 9) (fun _ => 9%N) in
  exists runs1 r,
    run_request_cancel amb 5%N {[ 5%N := example_run_aggregate ]} = Ok (runs1, r) /\
    is_cancel_requested 5%N (run_trace [RunSave example_run_aggregate] runs1) = Ok true.
Proof.
  intros amb. eexists _, _. split; [vm_compute; reflexivity|].
  refine (proj1 (cancel_request_never_lost {[ 5%N := example_run_aggregate ]} amb 5%N _ _
                   [RunSave example_run_aggregate] _)).
  vm_compute. reflexivity.
Defined.

(** ** Checkpoints

    [C] is the type of checkpoints, [checkpoint_run_id] its [run_id]. *)

Section Checkpoints.
Context {C : Type} (checkpoint_run_id : C -> uuid).

(** [save]. *)
Definition checkpoint_save (c : C) (cps : gmap uuid C) : gmap uuid C :=
  <[checkpoint_run_id c := c]> cps.

(** [load]. *)
Definition checkpoint_load (rid : uuid) (cps : gmap uuid C) : outcome C :=
  match cps !! rid with
  | Some c => Ok c
  | None => Raise (Exn CheckpointNotFoundError
                     (fstr ["checkpoint for run '"; uuid_str rid; "' was not found"]))
  end.

(** [claim]: the checkpoint leaves the store. *)
Definition checkpoint_claim (rid : uuid) (cps : gmap uuid C) : outcome (gmap uuid C * C) :=
  match cps !! rid with
  | Some c => Ok (delete rid cps, c)
  | None => Raise (Exn CheckpointNotFoundError
                     (fstr ["checkpoint for run '"; uuid_str rid;
                            "' was not found or was already claimed"]))
  end.

(** [delete]. *)
Definition checkpoint_delete (rid : uuid) (cps : gmap uuid C) : gmap uuid C := delete rid cps.

Inductive checkpoint_call :=
  | CpSave (c : C)
  | CpLoad (rid : uuid)
  | CpClaim (rid : uuid)
  | CpDelete (rid : uuid).

Definition checkpoint_after (call : checkpoint_call) (cps : gmap uuid C) : gmap uuid C :=
  match call with
  | CpSave c => checkpoint_save c cps
  | CpLoad _ => cps
  | CpClaim rid => match checkpoint_claim rid cps with Ok (cps', _) => cps' | Raise _ => cps end
  | CpDelete rid => checkpoint_delete rid cps
  end.

Definition checkpoint_trace (calls : list checkpoint_call) (cps : gmap uuid C) : gmap uuid C :=
  fold_left (fun cps c => checkpoint_after c cps) calls cps.

Definition saves (rid : uuid) (call : checkpoint_call) : bool :=
  match call with CpSave c => bool_decide (checkpoint_run_id c = rid) | _ => false end.

Lemma checkpoint_absent_step call rid cps :
  cps !! rid = None -> saves rid call = false -> checkpoint_after call cps !! rid = None.
Proof.
  intros Hn Hs. destruct call as [c|r|r|r]; simpl in *; [| done | |].
  - unfold checkpoint_save. reflect. by rewrite lookup_insert_ne.
  - unfold checkpoint_claim. destruct (cps !! r); [|done].
    rewrite lookup_delete. by case_decide.
  - unfold checkpoint_delete. rewrite lookup_delete. by case_decide.
Qed.

(** A checkpoint is claimed at most once per save.  [claim] returns the
    checkpoint last saved for the Run and, whatever calls follow, no
    second [claim] of that Run succeeds before another [save] of it. *)
Theorem checkpoint_claimed_once rid cps cps1 c calls :
  checkpoint_claim rid cps = Ok (cps1, c) ->
  Forall (fun call => saves rid call = false) calls ->
  checkpoint_load rid cps = Ok c /\
  exists e, checkpoint_claim rid (checkpoint_trace calls cps1) = Raise e.
Proof.
  intros H Hs. unfold checkpoint_claim in H. destruct (cps !! rid) as [c'|] eqn:E; [|done].
  injection H as <- <-. split; [unfold checkpoint_load; by rewrite E|].
  assert (checkpoint_trace calls (delete rid cps) !! rid = None) as Hn.
  { assert (delete rid cps !! rid = None) as Hd by apply lookup_delete_eq. revert Hd.
    generalize (delete rid cps) as m. unfold checkpoint_trace.
    induction Hs as [|call calls Hc _ IH]; intros m Hm; simpl; [done|].
    apply IH. by apply checkpoint_absent_step. }
  unfold checkpoint_claim. rewrite Hn. eauto.
Qed.
End Checkpoints.

Lemma checkpoint_claimed_once_witness :
  exists e, checkpoint_claim 3%N
    (checkpoint_trace (fun c : N => c) [CpLoad 3%N; CpSave 4%N] ∅) = Raise e.
Proof.
  refine (proj2 (checkpoint_claimed_once (fun c : N => c) 3%N {[ 3%N := 3%N ]} ∅ 3%N
                   [CpLoad 3%N; CpSave 4%N] _ _)).
  - vm_compute. reflexivity.
  - repeat constructor.
Defined.
