(* ===== verification/EventStore.v ===== *)
(** * The in-memory event store ([src/base_agent/stores/in_memory.py])

    [InMemoryEventStore] appends numbered events per Run under a lock and
    serves cursor-based live subscriptions.  [subscribe] is an asynchronous
    generator; its frame between two resumptions is a [Subscription], and
    [poll] runs it until it yields, returns, or waits on the condition
    variable. *)

From stdpp Require Import base gmap strings list.
From S2P Require Import Prelude Json Models.

Abbreviation event_log := (gmap uuid (list RuntimeEvent)) (only parsing).

(** [self._events[run_id]] of a [defaultdict(list)]. *)
Definition events_of (st : event_log) (rid : uuid) : list RuntimeEvent := default [] (st !! rid).

(** [emit]. *)
Definition emit (amb : ambient) (rid : uuid) (ty : EventType) (data : option jdict)
  (st : event_log) : outcome (event_log * RuntimeEvent) :=
  let events := events_of st rid in
  let! event := checked (1 <=? Z.of_nat (length events) + 1) (fun _ => Ok tt)
    (mk_RuntimeEvent (amb_uuid amb 0) rid (Z.of_nat (length events) + 1) ty (amb_now amb 0)
       (default [] data)) in
  Ok (<[rid := events ++ [event]]> st, event).

(** [list]. *)
Definition event_list (rid : uuid) (st : event_log) : list RuntimeEvent := events_of st rid.

(** ** Subscriptions *)

Definition terminal_types : list EventType :=
  [EV_RUN_COMPLETED; EV_RUN_FAILED; EV_RUN_CANCELLED; EV_RUN_INTERRUPTED;
   EV_RUN_LIMIT_REACHED; EV_RUN_WAITING].

(** [terminal_types - {EventType.RUN_WAITING}]. *)
Definition permanent_terminal_types : list EventType :=
  [EV_RUN_COMPLETED; EV_RUN_FAILED; EV_RUN_CANCELLED; EV_RUN_INTERRUPTED;
   EV_RUN_LIMIT_REACHED].

Definition is_terminal_event (e : RuntimeEvent) : bool := bool_decide (ev_type e ∈ terminal_types).
Definition is_permanent_event (e : RuntimeEvent) : bool :=
  bool_decide (ev_type e ∈ permanent_terminal_types).

(** Where the generator is suspended: at the top of [while True] with its
    [next_sequence], at [yield event] with the rest of the batch, or
    finished. *)
Inductive Subscription :=
  | AtLoop (next_sequence : Z)
  | AtYield (event : RuntimeEvent) (rest : list RuntimeEvent)
  | Returned.

Inductive poll_result :=
  | Yielded (e : RuntimeEvent)
  | Stopped
  | Waiting.

(** The body of [while True] from the lock to the first [yield]. *)
Definition poll_loop (rid : uuid) (next_sequence : Z) (st : event_log)
  : Subscription * poll_result :=
  let events := events_of st rid in
  if Z.of_nat (length events) <? next_sequence then
    if existsb is_permanent_event events then (Returned, Stopped)
    else (AtLoop next_sequence, Waiting)
  else
    match drop (Z.to_nat (next_sequence - 1)) events with
    | [] => (Returned, Stopped)
    | e :: rest => (AtYield e rest, Yielded e)
    end.

(** One [__anext__] of the generator. *)
Definition poll (rid : uuid) (sub : Subscription) (st : event_log) : Subscription * poll_result :=
  match sub with
  | Returned => (Returned, Stopped)
  | AtLoop n => poll_loop rid n st
  | AtYield e rest =>
      if is_terminal_event e then (Returned, Stopped)
      else match rest with
           | e' :: rest' => (AtYield e' rest', Yielded e')
           | [] => poll_loop rid (ev_sequence e + 1) st
           end
  end.

(** [subscribe(run_id, after_sequence=...)]. *)
Definition subscribe (after_sequence : Z) : outcome Subscription :=
  raise_when (after_sequence <? 0) as Exn ExValueError "after_sequence must be non-negative" in
  Ok (AtLoop (after_sequence + 1)).

(** ** Interleavings of producers and one consumer *)

Inductive event_action :=
  | DoEmit (amb : ambient) (rid : uuid) (ty : EventType) (data : option jdict)
  | DoPoll.

Record event_world := mk_event_world {
  ew_log : event_log;
  ew_sub : Subscription;
  ew_yielded : list RuntimeEvent;
}.

Definition event_act (rid : uuid) (a : event_action) (w : event_world) : event_world :=
  match a with
  | DoEmit amb r ty data =>
      match emit amb r ty data (ew_log w) with
      | Ok (log', _) => mk_event_world log' (ew_sub w) (ew_yielded w)
      | Raise _ => w
      end
  | DoPoll =>
      let '(sub', r) := poll rid (ew_sub w) (ew_log w) in
      mk_event_world (ew_log w) sub'
        (match r with Yielded e => ew_yielded w ++ [e] | _ => ew_yielded w end)
  end.

Definition event_run (rid : uuid) (acts : list event_action) (w : event_world) : event_world :=
  fold_left (fun w a => event_act rid a w) acts w.

(** ** The log is append-only and numbered without gaps *)

Definition log_numbered (rid : uuid) (events : list RuntimeEvent) : Prop :=
  forall i e, events !! i = Some e -> ev_sequence e = Z.of_nat i + 1 /\ ev_run_id e = rid.

Definition log_ok (st : event_log) : Prop := forall rid, log_numbered rid (events_of st rid).

Lemma emit_spec amb rid ty data st :
  let e := mk_RuntimeEvent (amb_uuid amb 0) rid (Z.of_nat (length (events_of st rid)) + 1) ty
             (amb_now amb 0) (default [] data) in
  emit amb rid ty data st = Ok (<[rid := events_of st rid ++ [e]]> st, e).
Proof.
  unfold emit, checked. simpl.
  by rewrite (proj2 (Z.leb_le 1 _)) by lia.
Qed.

Lemma events_of_insert rid l st rid' :
  events_of (<[rid := l]> st) rid' = if decide (rid = rid') then l else events_of st rid'.
Proof. unfold events_of. rewrite lookup_insert. by case_decide. Qed.

Lemma log_numbered_snoc rid l e :
  log_numbered rid l -> ev_sequence e = Z.of_nat (length l) + 1 -> ev_run_id e = rid ->
  log_numbered rid (l ++ [e]).
Proof.
  intros Hl Hs Hr i x [Hi|[Hi Hx]]%lookup_app_Some; [by apply Hl|].
  apply list_lookup_singleton_Some in Hx as [? <-]. split; [lia|done].
Qed.

Lemma emit_log_ok amb rid ty data st st' e :
  log_ok st -> emit amb rid ty data st = Ok (st', e) ->
  log_ok st' /\ forall r, events_of st r `prefix_of` events_of st' r.
Proof.
  intros Hok. rewrite emit_spec. intros [= <- <-]. split.
  - intros r. rewrite events_of_insert. case_decide; [subst|apply Hok].
    by apply log_numbered_snoc.
  - intros r. rewrite events_of_insert. case_decide; [subst; by eexists|done].
Qed.

(** ** What a subscriber sees *)

Section Delivery.
Variables (rid : uuid) (after : nat).

(** The invariant of a subscription from cursor [after]: what has been
    yielded is the log from the cursor on; nothing follows a terminal
    event; the suspended frame holds the log from there on. *)
Definition delivered (log yielded : list RuntimeEvent) : Prop :=
  yielded `prefix_of` drop after log.

Definition frame_ok (log : list RuntimeEvent) (sub : Subscription)
  (yielded : list RuntimeEvent) : Prop :=
  match sub with
  | AtLoop n => n = Z.of_nat (after + length yielded) + 1 /\
                Forall (fun e => is_terminal_event e = false) yielded
  | AtYield e rest =>
      exists ys, yielded = ys ++ [e] /\ Forall (fun e => is_terminal_event e = false) ys /\
        yielded ++ rest `prefix_of` drop after log
  | Returned => exists ys zs, yielded = ys ++ zs /\ (length zs <= 1)%nat /\
                  Forall (fun e => is_terminal_event e = false) ys
  end.

Definition world_ok (w : event_world) : Prop :=
  log_ok (ew_log w) /\ delivered (events_of (ew_log w) rid) (ew_yielded w) /\
  frame_ok (events_of (ew_log w) rid) (ew_sub w) (ew_yielded w).

Lemma prefix_drop_mono (l l' ys : list RuntimeEvent) :
  l `prefix_of` l' -> ys `prefix_of` drop after l -> ys `prefix_of` drop after l'.
Proof.
  intros [k ->] [r Hr].
  destruct (decide (after <= length l)%nat).
  - rewrite drop_app_le by done. rewrite Hr, <-app_assoc. by eexists.
  - rewrite drop_ge in Hr by lia. destruct ys; [by eexists|done].
Qed.

Lemma prefix_snoc_lookup (l ys : list RuntimeEvent) e rest :
  ys `prefix_of` l -> drop (length ys) l = e :: rest -> ys ++ e :: rest = l.
Proof.
  intros [r ->]. by rewrite drop_app_length => ->.
Qed.

Lemma poll_loop_ok w :
  world_ok w -> Forall (fun e => is_terminal_event e = false) (ew_yielded w) ->
  let '(sub', r) := poll_loop rid (Z.of_nat (after + length (ew_yielded w)) + 1) (ew_log w) in
  world_ok (mk_event_world (ew_log w) sub'
    (match r with Yielded e => ew_yielded w ++ [e] | _ => ew_yielded w end)).
Proof.
  intros (Hlog & Hd & Hf) Hnt. unfold poll_loop.
  destruct (Z.of_nat (length _) <? _) eqn:Hlt; reflect.
  - destruct (existsb _ _); split_and!; try done.
    exists (ew_yielded w), []. rewrite app_nil_r. simpl. split_and!; [done|lia|done].
  - replace (Z.to_nat _) with (after + length (ew_yielded w))%nat by lia.
    rewrite <-drop_drop.
    destruct (drop (length (ew_yielded w)) _) as [|e rest] eqn:Hdr.
    + split_and!; try done. exists (ew_yielded w), []. rewrite app_nil_r. simpl.
      split_and!; [done|lia|done].
    + pose proof (prefix_snoc_lookup _ _ _ _ Hd Hdr) as Hl.
      split_and!; simpl; [done| |].
      * unfold delivered. rewrite <-Hl. exists rest. by rewrite <-app_assoc.
      * exists (ew_yielded w). split_and!; [done|done|]. rewrite <-app_assoc. simpl.
        by rewrite Hl.
Qed.

Lemma poll_ok w : world_ok w -> world_ok (event_act rid DoPoll w).
Proof.
  intros Hw. pose proof Hw as (Hlog & Hd & Hf). simpl.
  destruct (ew_sub w) as [n|e rest|] eqn:Es; simpl in *.
  - destruct Hf as [-> Hnt]. pose proof (poll_loop_ok w Hw Hnt) as Hp.
    by destruct (poll_loop rid _ (ew_log w)).
  - destruct Hf as (ys & Hy & Hnt & Hp).
    destruct (is_terminal_event e) eqn:Ht.
    { split_and!; try done. exists ys, [e]. split_and!; [done|simpl; lia|done]. }
    assert (Forall (fun e => is_terminal_event e = false) (ew_yielded w)) as Hall.
    { rewrite Hy. apply Forall_app. split; [done|]. by constructor. }
    destruct rest as [|e' rest'].
    + replace (ev_sequence e + 1) with (Z.of_nat (after + length (ew_yielded w)) + 1).
      { pose proof (poll_loop_ok w Hw Hall) as Hp'. by destruct (poll_loop rid _ (ew_log w)). }
      assert (events_of (ew_log w) rid !! (after + length ys)%nat = Some e) as Hlk.
      { rewrite <-lookup_drop. destruct Hd as [r ->]. rewrite Hy, <-app_assoc.
        simpl. by apply list_lookup_middle. }
      destruct (Hlog rid _ _ Hlk) as [-> _]. rewrite Hy, length_app. simpl. lia.
    + split_and!; simpl; [done| |].
      * unfold delivered. destruct Hp as [r ->]. exists (rest' ++ r). by rewrite <-!app_assoc.
      * exists (ew_yielded w). split_and!; [done|done|]. by rewrite <-app_assoc.
  - split_and!; done.
Qed.

Lemma emit_ok w amb r ty data : world_ok w -> world_ok (event_act rid (DoEmit amb r ty data) w).
Proof.
  intros (Hlog & Hd & Hf). simpl.
  destruct (emit amb r ty data (ew_log w)) as [[log' e]|] eqn:E; [|done].
  destruct (emit_log_ok _ _ _ _ _ _ _ Hlog E) as [Hlog' Hpre].
  split_and!; simpl; [done|by eapply prefix_drop_mono, Hd; apply Hpre|].
  destruct (ew_sub w) as [n|e' rest|]; simpl in *; [done| |done].
  destruct Hf as (ys & Hy & Hnt & Hp). exists ys. split_and!; [done|done|].
  by eapply prefix_drop_mono, Hp; apply Hpre.
Qed.

Lemma event_run_ok acts : forall w, world_ok w -> world_ok (event_run rid acts w).
Proof.
  unfold event_run. induction acts as [|a acts IH]; simpl; intros w Hw; [done|].
  apply IH. destruct a; [by apply emit_ok|by apply poll_ok].
Qed.
(** A poll that neither yields nor returns finds nothing left. *)
Lemma waiting_drained w :
  world_ok w -> snd (poll rid (ew_sub w) (ew_log w)) = Waiting ->
  (length (events_of (ew_log w) rid) <= after + length (ew_yielded w))%nat /\
  Forall (fun e => is_permanent_event e = false) (events_of (ew_log w) rid).
Proof.
  intros (Hlog & Hd & Hf) Hwait.
  assert (snd (poll_loop rid (Z.of_nat (after + length (ew_yielded w)) + 1) (ew_log w)) = Waiting)
    as Hp.
  { destruct (ew_sub w) as [n|e rest|] eqn:Es; simpl in *.
    - by destruct Hf as [-> _].
    - destruct Hf as (ys & Hy & _ & _). destruct (is_terminal_event e); [done|].
      destruct rest as [|e' rest']; [|done].
      replace (Z.of_nat (after + length (ew_yielded w)) + 1) with (ev_sequence e + 1); [done|].
      assert (events_of (ew_log w) rid !! (after + length ys)%nat = Some e) as Hlk.
      { rewrite <-lookup_drop. destruct Hd as [r ->]. rewrite Hy, <-app_assoc.
        simpl. by apply list_lookup_middle. }
      destruct (Hlog rid _ _ Hlk) as [-> _]. rewrite Hy, length_app. simpl. lia.
    - done. }
  unfold poll_loop in Hp. destruct (Z.of_nat (length _) <? _) eqn:Hlt; reflect.
  + destruct (existsb _ _) eqn:Hex; [done|]. split; [lia|].
    by apply existsb_false_Forall.
  + by destruct (drop _ _).
Qed.
End Delivery.

Lemma log_ok_empty : log_ok ∅.
Proof. intros r i e. unfold events_of. rewrite lookup_empty. simpl. by rewrite lookup_nil. Qed.

(** Live event delivery.  However emissions (to any Run) and polls
    interleave from the empty store, a Run's log stays numbered 1, 2, ...
    without gaps, and a subscriber with cursor [after] has received exactly
    the consecutive events numbered [after + 1] onwards, each once and in
    order, nothing after a terminal or waiting event; when a poll neither
    yields nor returns, there is no event past what it has received and no
    permanently terminal event in the log. *)
Theorem subscription_delivers_log_in_order rid (after : nat) acts sub :
  subscribe (Z.of_nat after) = Ok sub ->
  let w := event_run rid acts (mk_event_world ∅ sub []) in
  log_numbered rid (events_of (ew_log w) rid) /\
  ew_yielded w = take (length (ew_yielded w)) (drop after (events_of (ew_log w) rid)) /\
  (forall e i, ew_yielded w !! i = Some e -> is_terminal_event e = true ->
     S i = length (ew_yielded w)) /\
  (snd (poll rid (ew_sub w) (ew_log w)) = Waiting ->
     (length (events_of (ew_log w) rid) <= after + length (ew_yielded w))%nat /\
     Forall (fun e => is_permanent_event e = false) (events_of (ew_log w) rid)).
Proof.
  intros Hsub w. unfold subscribe in Hsub. destruct (Z.of_nat after <? 0) eqn:E; [done|].
  injection Hsub as <-.
  assert (world_ok rid after w) as Hw.
  { apply event_run_ok. split_and!; simpl; [apply log_ok_empty|by apply prefix_nil|].
    split; [lia|constructor]. }
  pose proof Hw as (Hlog & Hd & Hf). split_and!.
  - apply Hlog.
  - destruct Hd as [r ->]. by rewrite take_app_length.
  - intros e i Hi Ht.
    assert (exists ys zs, ew_yielded w = ys ++ zs /\ (length zs <= 1)%nat /\
              Forall (fun e => is_terminal_event e = false) ys) as (ys & zs & Hy & Hz & Hnt).
    { destruct (ew_sub w); simpl in Hf.
      - exists (ew_yielded w), []. rewrite app_nil_r. simpl. split_and!; [done|lia|apply Hf].
      - destruct Hf as (ys & Hy & Hnt & _). exists ys, [event]. split_and!; [done|simpl; lia|done].
      - done. }
    rewrite Hy in *. apply lookup_app_Some in Hi as [Hi|[Hi Hlk]].
    + rewrite Forall_lookup in Hnt. rewrite (Hnt _ _ Hi) in Ht. done.
    + rewrite length_app. apply lookup_lt_Some in Hlk.
      destruct zs as [|z [|]]; simpl in *; lia.
  - by apply waiting_drained.
Qed.

Lemma subscription_delivers_log_in_order_witness :
  let amb := Ambient 1 (fun _ => 1) (fun _ => 1%N) in
  let acts := [DoEmit amb 7%N EV_RUN_CREATED None; DoPoll; DoPoll;
               DoEmit amb 7%N EV_RUN_STARTED None; DoEmit amb 7%N EV_RUN_COMPLETED None;
               DoPoll; DoPoll; DoPoll] in
  map ev_type (ew_yielded (event_run 7%N acts (mk_event_world ∅ (AtLoop 1) []))) =
    [EV_RUN_CREATED; EV_RUN_STARTED; EV_RUN_COMPLETED] /\
  log_numbered 7%N (events_of (ew_log (event_run 7%N acts (mk_event_world ∅ (AtLoop 1) []))) 7%N).
Proof.
  intros amb acts. split; [vm_compute; reflexivity|].
  exact (proj1 (subscription_delivers_log_in_order 7%N 0 acts (AtLoop 1) eq_refl)).
Defined.
