(* ===== verification/FlowModels.v ===== *)
(** * Flow definitions and handoff contracts
    ([src/base_agent/flows/models.py], [src/base_agent/profiles.py])

    Agent profiles and definitions with their content fingerprints, Flow
    definitions and budgets, and the values exchanged between a Flow strategy
    and its [AgentInvoker], each with the checks its constructor runs. *)

From Stdlib Require Import QArith.
From stdpp Require Import base gmap strings list.
From S2P Require Import Prelude Json Models Sha256.

(** ** Agent profiles and definitions *)

Record AgentProfile := mk_AgentProfile {
  prof_id : string;
  prof_instructions : string;
  prof_model : option string;
  prof_tools : list string;
  prof_skills : list string;
  prof_permissions : gset string;
  prof_max_steps : Z;
  prof_max_tool_calls : Z;
  prof_duplicate_tool_call_threshold : Z;
  prof_max_consecutive_tool_failures : Z;
  prof_max_tool_result_bytes : Z;
}.

(** [^[A-Za-z0-9_.-]+$] within 128 characters, and the bounds. *)
Definition AgentProfile_fields (p : AgentProfile) : bool :=
  tool_name_ok (prof_id p) && (1 <=? slen (prof_instructions p)) && (1 <=? prof_max_steps p)
  && (1 <=? prof_max_tool_calls p) && (2 <=? prof_duplicate_tool_call_threshold p)
  && (1 <=? prof_max_consecutive_tool_failures p) && (512 <=? prof_max_tool_result_bytes p).

(** [AgentDefinition(AgentProfile)]: the inherited fields and [version];
    [to_profile] is the projection [ad_profile]. *)
Record AgentDefinition := mk_AgentDefinition {
  ad_profile : AgentProfile;
  ad_version : string;
}.

Definition version_ok (s : string) : bool := len_between 1 64 s && matches_key "._+-" s.
Definition key_ok (s : string) : bool := len_between 1 128 s && matches_key "_.-" s.

Definition AgentDefinition_fields (d : AgentDefinition) : bool :=
  AgentProfile_fields (ad_profile d) && version_ok (ad_version d).

Definition to_profile (d : AgentDefinition) : AgentProfile := ad_profile d.

Definition json_opt {A} (f : A -> json) (o : option A) : json :=
  match o with Some a => f a | None => JNull end.

(** ** Flow budgets and definitions *)

Record FlowBudget := mk_FlowBudget {
  max_invocations : Z;
  max_input_tokens : option Z;
  max_output_tokens : option Z;
  max_total_tokens : option Z;
  max_model_calls : option Z;
  max_tool_calls : option Z;
  timeout_seconds : option seconds;
}.

Definition ge_1 (o : option Z) : bool := match o with Some z => 1 <=? z | None => true end.

Definition FlowBudget_fields (b : FlowBudget) : bool :=
  (1 <=? max_invocations b) && ge_1 (max_input_tokens b) && ge_1 (max_output_tokens b)
  && ge_1 (max_total_tokens b) && ge_1 (max_model_calls b) && ge_1 (max_tool_calls b)
  && match timeout_seconds b with Some s => Qltb 0 s | None => true end.

(** [FlowBudget()]. *)
Definition FlowBudget_default : FlowBudget := mk_FlowBudget 20 None None None None None None.

Definition opt_seconds_eqb (a b : option seconds) : bool :=
  match a, b with
  | None, None => true
  | Some x, Some y => Qeq_bool x y
  | _, _ => false
  end.

(** [==] of two budgets. *)
Definition FlowBudget_eqb (a b : FlowBudget) : bool :=
  (max_invocations a =? max_invocations b)
  && bool_decide (max_input_tokens a = max_input_tokens b)
  && bool_decide (max_output_tokens a = max_output_tokens b)
  && bool_decide (max_total_tokens a = max_total_tokens b)
  && bool_decide (max_model_calls a = max_model_calls b)
  && bool_decide (max_tool_calls a = max_tool_calls b)
  && opt_seconds_eqb (timeout_seconds a) (timeout_seconds b).

Lemma FlowBudget_eqb_refl b : FlowBudget_eqb b b = true.
Proof.
  unfold FlowBudget_eqb. rewrite Z.eqb_refl, !bool_decide_eq_true_2 by done. simpl.
  destruct (timeout_seconds b); [by apply Qeq_bool_iff|done].
Qed.

(** [budget.model_dump(mode="json")]. *)
Definition FlowBudget_dump (b : FlowBudget) : json :=
  JObj [("schema_version", JStr "1");
        ("max_invocations", JInt (max_invocations b));
        ("max_input_tokens", json_opt JInt (max_input_tokens b));
        ("max_output_tokens", json_opt JInt (max_output_tokens b));
        ("max_total_tokens", json_opt JInt (max_total_tokens b));
        ("max_model_calls", json_opt JInt (max_model_calls b));
        ("max_tool_calls", json_opt JInt (max_tool_calls b));
        ("timeout_seconds", json_opt JFloat (timeout_seconds b))].

Record FlowAgent := mk_FlowAgent {
  fa_key : string;
  fa_definition : AgentDefinition;
}.

Record FlowDefinition := mk_FlowDefinition {
  fd_id : string;
  fd_version : string;
  fd_agents : list FlowAgent;
  fd_strategy : string;
  fd_budget : FlowBudget;
  fd_metadata : jdict;
}.

Definition FlowDefinition_fields (d : FlowDefinition) : bool :=
  key_ok (fd_id d) && version_ok (fd_version d) && (1 <=? Z.of_nat (length (fd_agents d)))
  && key_ok (fd_strategy d) && forallb (fun a => key_ok (fa_key a)) (fd_agents d).

(** [FlowDefinition.validate_agent_keys]. *)
Definition FlowDefinition_validate (d : FlowDefinition) : outcome unit :=
  raise_when negb (bool_decide (NoDup (map fa_key (fd_agents d))))
    as validation_error "Flow agent keys must be unique" in
  Ok tt.

Definition FlowDefinition_new (d : FlowDefinition) : outcome FlowDefinition :=
  checked (FlowDefinition_fields d) FlowDefinition_validate d.

(** [FlowDefinition.agent]. *)
Definition fd_agent (d : FlowDefinition) (key : string) : outcome AgentDefinition :=
  match List.find (fun a => bool_decide (fa_key a = key)) (fd_agents d) with
  | Some a => Ok (fa_definition a)
  | None => Raise (Exn ExKeyError
                     (fstr ["Flow '"; fd_id d; "' has no Agent named '"; key; "'"]))
  end.

(** ** Fingerprints *)

Section Fingerprints.
Context `{FloatRepr}.

(** [AgentDefinition.fingerprint]. *)
Definition AgentDefinition_fingerprint (d : AgentDefinition) : string :=
  let p := ad_profile d in
  canonical_digest (JObj
    [("duplicate_tool_call_threshold", JInt (prof_duplicate_tool_call_threshold p));
     ("id", JStr (prof_id p));
     ("instructions", JStr (prof_instructions p));
     ("max_consecutive_tool_failures", JInt (prof_max_consecutive_tool_failures p));
     ("max_steps", JInt (prof_max_steps p));
     ("max_tool_calls", JInt (prof_max_tool_calls p));
     ("max_tool_result_bytes", JInt (prof_max_tool_result_bytes p));
     ("model", json_opt JStr (prof_model p));
     ("permissions", JArr (map JStr (sorted_by String.leb (elements (prof_permissions p)))));
     ("skills", JArr (map JStr (prof_skills p)));
     ("tools", JArr (map JStr (prof_tools p)));
     ("version", JStr (ad_version d))]).

(** [FlowDefinition.fingerprint]. *)
Definition FlowDefinition_fingerprint (d : FlowDefinition) : string :=
  canonical_digest (JObj
    [("agents", JArr (map (fun a => JObj
        [("definition_fingerprint", JStr (AgentDefinition_fingerprint (fa_definition a)));
         ("key", JStr (fa_key a))]) (fd_agents d)));
     ("id", JStr (fd_id d));
     ("budget", FlowBudget_dump (fd_budget d));
     ("metadata", JObj (fd_metadata d));
     ("strategy", JStr (fd_strategy d));
     ("version", JStr (fd_version d))]).

Lemma FlowDefinition_fingerprint_ok d : is_sha256_hex (FlowDefinition_fingerprint d) = true.
Proof. apply sha256_hex_ok. Qed.

Lemma AgentDefinition_fingerprint_ok d : is_sha256_hex (AgentDefinition_fingerprint d) = true.
Proof. apply sha256_hex_ok. Qed.
End Fingerprints.

(** ** Requests, handoffs and results *)

(** [_require_unique_ids]. *)
Definition require_unique_ids {A} (get_id : A -> uuid) (items : list A) (label : string)
  : outcome unit :=
  raise_when negb (bool_decide (NoDup (map get_id items)))
    as validation_error (label +:+ " must be unique") in
  Ok tt.

Record AgentHandoff := mk_AgentHandoff {
  ho_source_agent_key : string;
  ho_summary : string;
  ho_data : jdict;
  ho_artifacts : list Artifact;
}.

Definition AgentHandoff_fields (h : AgentHandoff) : bool :=
  key_ok (ho_source_agent_key h) && (1 <=? slen (ho_summary h)).

Definition AgentHandoff_validate (h : AgentHandoff) : outcome unit :=
  require_unique_ids art_id (ho_artifacts h) "handoff Artifacts".

Definition AgentHandoff_new (h : AgentHandoff) : outcome AgentHandoff :=
  checked (AgentHandoff_fields h) AgentHandoff_validate h.

Record AgentInvocationInput := mk_AgentInvocationInput {
  ii_prompt : string;
  ii_handoff : option AgentHandoff;
  ii_attachments : list Attachment;
}.

Definition AgentInvocationInput_validate (i : AgentInvocationInput) : outcome unit :=
  require_unique_ids att_id (ii_attachments i) "invocation Attachments".

Definition AgentInvocationInput_new (i : AgentInvocationInput) : outcome AgentInvocationInput :=
  checked (1 <=? slen (ii_prompt i)) AgentInvocationInput_validate i.

Record FlowInput := mk_FlowInput {
  fi_prompt : string;
  fi_attachments : list Attachment;
}.

Definition FlowInput_validate (i : FlowInput) : outcome unit :=
  require_unique_ids att_id (fi_attachments i) "Flow input Attachments".

Definition FlowInput_new (i : FlowInput) : outcome FlowInput :=
  checked (1 <=? slen (fi_prompt i)) FlowInput_validate i.

Record AgentInvocationRequest := mk_AgentInvocationRequest {
  req_flow_run_id : uuid;
  req_invocation_id : uuid;
  req_sequence : Z;
  req_agent_key : string;
  req_definition_id : string;
  req_definition_version : string;
  req_definition_fingerprint : string;
  req_input : AgentInvocationInput;
}.

Definition AgentInvocationRequest_fields (r : AgentInvocationRequest) : bool :=
  (1 <=? req_sequence r) && key_ok (req_agent_key r) && key_ok (req_definition_id r)
  && version_ok (req_definition_version r) && is_sha256_hex (req_definition_fingerprint r).

Definition AgentInvocationRequest_new (r : AgentInvocationRequest)
  : outcome AgentInvocationRequest :=
  checked (AgentInvocationRequest_fields r) (fun _ => Ok tt) r.

Record AgentInvocationResume := mk_AgentInvocationResume {
  rsm_flow_run_id : uuid;
  rsm_invocation_id : uuid;
  rsm_agent_key : string;
  rsm_user_input : option string;
  rsm_confirmation : option ToolConfirmation;
}.

Definition is_none {A} (o : option A) : bool := match o with None => true | Some _ => false end.

(** [AgentInvocationResume.validate_resume_payload]. *)
Definition AgentInvocationResume_validate (r : AgentInvocationResume) : outcome unit :=
  raise_when Bool.eqb (is_none (rsm_user_input r)) (is_none (rsm_confirmation r))
    as validation_error
      "AgentInvocationResume requires exactly one of user_input or confirmation" in
  Ok tt.

Definition AgentInvocationResume_new (r : AgentInvocationResume) : outcome AgentInvocationResume :=
  checked (key_ok (rsm_agent_key r) &&
           match rsm_user_input r with Some s => 1 <=? slen s | None => true end)
    AgentInvocationResume_validate r.

Record AgentInvocationCancel := mk_AgentInvocationCancel {
  cnl_flow_run_id : uuid;
  cnl_invocation_id : uuid;
  cnl_agent_key : string;
  cnl_reason : string;
}.

Definition AgentInvocationCancel_new (r : AgentInvocationCancel) : outcome AgentInvocationCancel :=
  checked (key_ok (cnl_agent_key r) && len_between 1 1000 (cnl_reason r)) (fun _ => Ok tt) r.

Record AgentInvocationResult := mk_AgentInvocationResult {
  ir_flow_run_id : uuid;
  ir_invocation_id : uuid;
  ir_agent_key : string;
  ir_status : AgentResultStatus;
  ir_output : option string;
  ir_usage : TokenUsage;
  ir_artifacts : list Artifact;
  ir_pending_input : option PendingInput;
  ir_error : option string;
  ir_metadata : jdict;
}.

Definition failed_result_statuses : list AgentResultStatus :=
  [R_FAILED; R_CANCELLED; R_INTERRUPTED; R_LIMIT_REACHED].

(** [AgentInvocationResult.validate_status_payload]. *)
Definition AgentInvocationResult_validate (r : AgentInvocationResult) : outcome unit :=
  let! _ := require_unique_ids art_id (ir_artifacts r) "invocation result Artifacts" in
  raise_when bool_decide (ir_status r = R_WAITING) && is_none (ir_pending_input r)
    as validation_error "a waiting Agent invocation requires pending_input" in
  raise_when negb (bool_decide (ir_status r = R_WAITING)) && negb (is_none (ir_pending_input r))
    as validation_error "only a waiting Agent invocation may include pending_input" in
  raise_when bool_decide (ir_status r ∈ failed_result_statuses) && falsy (ir_error r)
    as validation_error (fstr ["an Agent invocation with status '";
                               AgentResultStatus_value (ir_status r); "' requires an error"]) in
  raise_when bool_decide (ir_status r = R_COMPLETED) && negb (is_none (ir_error r))
    as validation_error "a completed Agent invocation cannot include an error" in
  Ok tt.

Definition AgentInvocationResult_new (r : AgentInvocationResult) : outcome AgentInvocationResult :=
  checked (key_ok (ir_agent_key r)) AgentInvocationResult_validate r.

Record FlowResult := mk_FlowResult {
  fres_run_id : uuid;
  fres_status : RunStatus;
  fres_output : option string;
  fres_usage : TokenUsage;
  fres_artifacts : list Artifact;
  fres_invocation_count : Z;
  fres_model_call_count : Z;
  fres_tool_call_count : Z;
  fres_waiting_invocation_id : option uuid;
  fres_pending_input : option PendingInput;
  fres_error : option string;
}.

Definition failed_run_statuses : list RunStatus := [FAILED; CANCELLED; INTERRUPTED; LIMIT_REACHED].

(** [FlowResult.validate_status_payload]. *)
Definition FlowResult_validate (r : FlowResult) : outcome unit :=
  let waiting := bool_decide (fres_status r = WAITING) in
  raise_when waiting && (is_none (fres_waiting_invocation_id r) || is_none (fres_pending_input r))
    as validation_error "a waiting Flow result requires an invocation id and pending input" in
  raise_when negb waiting && (negb (is_none (fres_waiting_invocation_id r))
                              || negb (is_none (fres_pending_input r)))
    as validation_error "only a waiting Flow result may include pending input" in
  raise_when bool_decide (fres_status r ∈ failed_run_statuses) && falsy (fres_error r)
    as validation_error (fstr ["a Flow result with status '"; RunStatus_value (fres_status r);
                               "' requires an error"]) in
  raise_when bool_decide (fres_status r = COMPLETED) && negb (is_none (fres_error r))
    as validation_error "a completed Flow result cannot include an error" in
  Ok tt.

Definition FlowResult_new (r : FlowResult) : outcome FlowResult :=
  checked ((0 <=? fres_invocation_count r) && (0 <=? fres_model_call_count r)
           && (0 <=? fres_tool_call_count r)) FlowResult_validate r.

(** ** What the constructors guarantee *)

(** The values an [AgentInvocationResult(...)] call can return, its usage
    being one a [TokenUsage(...)] call can return. *)
Definition result_ok (r : AgentInvocationResult) : Prop :=
  AgentInvocationResult_new r = Ok r /\ TokenUsage_ok (ir_usage r).

Lemma result_ok_waiting r :
  result_ok r -> ir_status r = R_WAITING -> exists p, ir_pending_input r = Some p.
Proof.
  intros [[_ [Hv _]]%checked_Ok _] Hs. unfold AgentInvocationResult_validate in Hv.
  destruct (require_unique_ids _ _ _); [|done]. rewrite Hs in Hv. simpl in Hv.
  destruct (ir_pending_input r); [by eexists|done].
Qed.

Lemma result_ok_not_waiting r :
  result_ok r -> ir_status r <> R_WAITING -> ir_pending_input r = None.
Proof.
  intros [[_ [Hv _]]%checked_Ok _] Hs. unfold AgentInvocationResult_validate in Hv.
  destruct (require_unique_ids _ _ _); [|done].
  rewrite bool_decide_eq_false_2 in Hv by done. simpl in Hv.
  by destruct (ir_pending_input r).
Qed.

Lemma result_ok_failed r :
  result_ok r -> ir_status r ∈ failed_result_statuses ->
  exists e, ir_error r = Some e /\ is_empty e = false.
Proof.
  intros [[_ [Hv _]]%checked_Ok _] Hs. unfold AgentInvocationResult_validate in Hv.
  destruct (require_unique_ids _ _ _); [|done].
  rewrite (bool_decide_eq_true_2 (_ ∈ _)) in Hv by done.
  repeat case_match; try done; unfold falsy in *; destruct (ir_error r) as [e|]; try done.
  all: exists e; split; [done|]; by destruct (is_empty e).
Qed.
