(* ===== verification/FlowLifecycle.v ===== *)
(** * The Flow aggregate ([src/base_agent/flows/lifecycle.py])

    [FlowRunState] is an immutable snapshot of one top-level Flow Run with
    its ordered [AgentInvocation]s.  Every transition returns a new snapshot
    through [model_copy], which does not run the validator [validate_state]
    again: that the transitions cannot leave the valid states is the content
    of [flow_lifecycle_invariant]. *)

From Stdlib Require Import QArith.
From stdpp Require Import base gmap strings list.
From S2P Require Import Prelude Json Models Sha256 FlowModels.

(** ** Status tables *)

(** [_RESULT_TO_RUN_STATUS] and its inverse [_RUN_TO_RESULT_STATUS], which
    is only indexed with members of [_ERROR_STATUSES]. *)
Definition result_to_run_status (s : AgentResultStatus) : RunStatus :=
  match s with
  | R_COMPLETED => COMPLETED | R_FAILED => FAILED | R_CANCELLED => CANCELLED
  | R_INTERRUPTED => INTERRUPTED | R_LIMIT_REACHED => LIMIT_REACHED | R_WAITING => WAITING
  end.

Definition run_to_result_status (s : RunStatus) : option AgentResultStatus :=
  match s with
  | COMPLETED => Some R_COMPLETED | FAILED => Some R_FAILED | CANCELLED => Some R_CANCELLED
  | INTERRUPTED => Some R_INTERRUPTED | LIMIT_REACHED => Some R_LIMIT_REACHED
  | WAITING => Some R_WAITING
  | CREATED | RUNNING => None
  end.

(** [_TERMINAL_STATUSES] and [_ERROR_STATUSES]. *)
Definition terminal_statuses : list RunStatus :=
  [COMPLETED; FAILED; CANCELLED; INTERRUPTED; LIMIT_REACHED].
Definition error_statuses : list RunStatus := [FAILED; CANCELLED; INTERRUPTED; LIMIT_REACHED].

Definition is_terminal_flow (s : RunStatus) : bool := bool_decide (s ∈ terminal_statuses).
Definition is_error_status (s : RunStatus) : bool := bool_decide (s ∈ error_statuses).

Definition invalid_flow_transition (parts : list string) : exn :=
  Exn InvalidFlowTransitionError (fstr parts).

(** ** AgentInvocation *)

Record AgentInvocation := mk_AgentInvocation {
  inv_id : uuid;
  inv_flow_run_id : uuid;
  inv_sequence : Z;
  inv_agent_key : string;
  inv_definition_id : string;
  inv_definition_version : string;
  inv_definition_fingerprint : string;
  inv_input : AgentInvocationInput;
  inv_status : RunStatus;
  inv_result : option AgentInvocationResult;
  inv_created_at : time;
  inv_updated_at : time;
}.

Definition AgentInvocation_fields (i : AgentInvocation) : bool :=
  (1 <=? inv_sequence i) && is_sha256_hex (inv_definition_fingerprint i).

(** [_validate_result_identity]. *)
Definition validate_result_identity (i : AgentInvocation) (r : AgentInvocationResult)
  : outcome unit :=
  raise_when negb (bool_decide (ir_flow_run_id r = inv_flow_run_id i))
    as value_error ["AgentInvocation result flow_run_id does not match"] in
  raise_when negb (bool_decide (ir_invocation_id r = inv_id i))
    as value_error ["AgentInvocation result invocation_id does not match"] in
  raise_when negb (bool_decide (ir_agent_key r = inv_agent_key i))
    as value_error ["AgentInvocation result agent_key does not match"] in
  Ok tt.

(** [AgentInvocation.validate_result]. *)
Definition AgentInvocation_validate (i : AgentInvocation) : outcome unit :=
  if bool_decide (inv_status i = CREATED) then
    raise_when negb (is_none (inv_result i))
      as validation_error "a created AgentInvocation cannot include a result" in
    Ok tt
  else if bool_decide (inv_status i = RUNNING) then
    match inv_result i with
    | None => Ok tt
    | Some r =>
        raise_when negb (bool_decide (ir_status r = R_WAITING))
          as validation_error "a resumed AgentInvocation may only retain its waiting result" in
        validate_result_identity i r
    end
  else
    match inv_result i with
    | None => Raise (validation_error "a settled AgentInvocation requires a result")
    | Some r =>
        let! _ := validate_result_identity i r in
        raise_when negb (bool_decide (inv_status i = result_to_run_status (ir_status r)))
          as validation_error "AgentInvocation status does not match its result" in
        Ok tt
    end.

Definition AgentInvocation_new (i : AgentInvocation) : outcome AgentInvocation :=
  checked (AgentInvocation_fields i) AgentInvocation_validate i.

(** [AgentInvocation.usage]. *)
Definition inv_usage (i : AgentInvocation) : TokenUsage :=
  match inv_result i with Some r => ir_usage r | None => TokenUsage_zero end.

(** [model_copy(update={"status", "result", "updated_at"})]. *)
Definition inv_with (i : AgentInvocation) (status : RunStatus)
  (result : option AgentInvocationResult) (updated_at : time) : AgentInvocation :=
  mk_AgentInvocation (inv_id i) (inv_flow_run_id i) (inv_sequence i) (inv_agent_key i)
    (inv_definition_id i) (inv_definition_version i) (inv_definition_fingerprint i)
    (inv_input i) status result (inv_created_at i) updated_at.

(** [AgentInvocation.settle]. *)
Definition inv_settle (now : time) (i : AgentInvocation) (result : AgentInvocationResult)
  : outcome AgentInvocation :=
  raise_when negb (bool_decide (inv_status i ∈ [RUNNING; WAITING]))
    as invalid_flow_transition
         ["cannot settle AgentInvocation in state '"; RunStatus_value (inv_status i); "'"] in
  let! _ := validate_result_identity i result in
  Ok (inv_with i (result_to_run_status (ir_status result)) (Some result) now).

(** [AgentInvocation.resume]. *)
Definition inv_resume (now : time) (i : AgentInvocation) : outcome AgentInvocation :=
  raise_when negb (bool_decide (inv_status i = WAITING))
    as invalid_flow_transition
         ["cannot resume AgentInvocation in state '"; RunStatus_value (inv_status i); "'"] in
  Ok (inv_with i RUNNING (inv_result i) now).

(** [AgentInvocation.terminate]. *)
Definition inv_terminate (now : time) (i : AgentInvocation) (status : RunStatus) (error : string)
  : outcome AgentInvocation :=
  match is_error_status status, run_to_result_status status with
  | true, Some result_status =>
      raise_when blank error
        as value_error ["AgentInvocation termination requires an error"] in
      raise_when negb (bool_decide (inv_status i ∈ [CREATED; RUNNING; WAITING]))
        as invalid_flow_transition
             ["cannot terminate AgentInvocation in state '"; RunStatus_value (inv_status i); "'"] in
      let! result := AgentInvocationResult_new
        (mk_AgentInvocationResult (inv_flow_run_id i) (inv_id i) (inv_agent_key i) result_status
           None (inv_usage i)
           (match inv_result i with Some r => ir_artifacts r | None => [] end)
           None (Some error) []) in
      Ok (inv_with i status (Some result) now)
  | _, _ => Raise (value_error ["AgentInvocation termination requires an error status"])
  end.

(** ** FlowRunState *)

Record FlowRunState := mk_FlowRunState {
  fr_run_id : uuid;
  fr_definition_id : string;
  fr_definition_version : string;
  fr_definition_fingerprint : string;
  fr_budget : FlowBudget;
  fr_deadline_at : option time;
  fr_revision : Z;
  fr_status : RunStatus;
  fr_invocations : list AgentInvocation;
  fr_active_invocation_id : option uuid;
  fr_output : option string;
  fr_error : option string;
  fr_created_at : time;
  fr_updated_at : time;
}.

Definition FlowRunState_fields (s : FlowRunState) : bool :=
  is_sha256_hex (fr_definition_fingerprint s) && (1 <=? fr_revision s).

(** [_active_or_none], also the property [active_invocation]. *)
Definition active_invocation (s : FlowRunState) : option AgentInvocation :=
  match fr_active_invocation_id s with
  | None => None
  | Some a => List.find (fun i => bool_decide (inv_id i = a)) (fr_invocations s)
  end.

Definition status_is (s : RunStatus) (o : option AgentInvocation) : bool :=
  match o with Some i => bool_decide (inv_status i = s) | None => false end.

(** [FlowRunState.validate_state]. *)
Definition FlowRunState_validate (s : FlowRunState) : outcome unit :=
  raise_when negb (bool_decide (NoDup (map inv_id (fr_invocations s))))
    as validation_error "Flow AgentInvocation ids must be unique" in
  raise_when negb (bool_decide (map inv_sequence (fr_invocations s) =
                                seqZ 1 (Z.of_nat (length (fr_invocations s)))))
    as validation_error "Flow AgentInvocation sequences must be contiguous" in
  raise_when max_invocations (fr_budget s) <? Z.of_nat (length (fr_invocations s))
    as validation_error "Flow invocation count exceeds max_invocations" in
  raise_when negb (Bool.eqb (is_none (timeout_seconds (fr_budget s))) (is_none (fr_deadline_at s)))
    as validation_error "Flow deadline must match its timeout budget" in
  raise_when existsb (fun i => negb (bool_decide (inv_flow_run_id i = fr_run_id s)))
               (fr_invocations s)
    as validation_error "AgentInvocation belongs to another Flow Run" in
  let active := active_invocation s in
  raise_when negb (is_none (fr_active_invocation_id s)) && is_none active
    as validation_error "active_invocation_id does not identify an invocation" in
  raise_when bool_decide (fr_status s = CREATED)
             && negb (bool_decide (length (fr_invocations s) = 0%nat))
    as validation_error "a created Flow Run cannot contain invocations" in
  raise_when bool_decide (fr_status s = WAITING) && negb (status_is WAITING active)
    as validation_error "a waiting Flow Run requires one waiting invocation" in
  raise_when bool_decide (fr_status s = RUNNING) && negb (is_none active)
             && negb (status_is RUNNING active)
    as validation_error "an active running Flow requires a running invocation" in
  raise_when is_terminal_flow (fr_status s) && negb (is_none active)
    as validation_error "a terminal Flow Run cannot retain an active invocation" in
  if bool_decide (fr_status s = COMPLETED) then
    raise_when is_none (fr_output s)
      as validation_error "a completed Flow Run requires output" in
    raise_when negb (is_none (fr_error s))
      as validation_error "a completed Flow Run cannot include an error" in
    Ok tt
  else
    raise_when is_error_status (fr_status s) && falsy (fr_error s)
      as validation_error (fstr ["a Flow Run with status '"; RunStatus_value (fr_status s);
                                 "' requires an error"]) in
    Ok tt.

Definition FlowRunState_new (s : FlowRunState) : outcome FlowRunState :=
  checked (FlowRunState_fields s) FlowRunState_validate s.

(** [_evolve]: the fields a transition may change, [revision] and
    [updated_at]. *)
Definition evolve (now : time) (s : FlowRunState) (status : RunStatus)
  (invocations : list AgentInvocation) (active : option uuid)
  (output error : option string) : FlowRunState :=
  mk_FlowRunState (fr_run_id s) (fr_definition_id s) (fr_definition_version s)
    (fr_definition_fingerprint s) (fr_budget s) (fr_deadline_at s) (fr_revision s + 1)
    status invocations active output error (fr_created_at s) now.

(** [tuple(new if invocation.id == new.id else invocation ...)]. *)
Definition replace_invocation (id : uuid) (new : AgentInvocation) (l : list AgentInvocation)
  : list AgentInvocation :=
  map (fun i => if bool_decide (inv_id i = id) then new else i) l.

(** [_result_count]. *)
Definition result_count (key : string) (i : AgentInvocation) : Z :=
  match inv_result i with
  | None => 0
  | Some r => match dget key (ir_metadata r) with
              | Some v => default 0 (json_int v)
              | None => 0
              end
  end.

Definition model_call_count (s : FlowRunState) : Z :=
  foldr Z.add 0 (map (result_count "model_calls") (fr_invocations s)).
Definition tool_call_count (s : FlowRunState) : Z :=
  foldr Z.add 0 (map (result_count "tool_calls") (fr_invocations s)).

(** [usage]: [total += invocation.usage] from [TokenUsage()]. *)
Definition add_usage (total : outcome TokenUsage) (i : AgentInvocation) : outcome TokenUsage :=
  let! t := total in TokenUsage_add t (inv_usage i).

Definition flow_usage (s : FlowRunState) : outcome TokenUsage :=
  fold_left add_usage (fr_invocations s) (Ok TokenUsage_zero).

Section Transitions.
Context `{FloatRepr}.

(** [FlowRunState.create]; [utc_now()] is read once when [now] is absent,
    [uuid4()] once when [run_id] is absent. *)
Definition flow_create (amb : ambient) (d : FlowDefinition) (run_id : option uuid)
  (now : option time) : outcome FlowRunState :=
  let created_at := default (amb_now amb 0) now in
  FlowRunState_new
    (mk_FlowRunState (default (amb_uuid amb 0) run_id) (fd_id d) (fd_version d)
       (FlowDefinition_fingerprint d) (fd_budget d)
       (match timeout_seconds (fd_budget d) with
        | Some s => Some (created_at + timedelta s)
        | None => None
        end)
       1 CREATED [] None None None created_at created_at).

(** [start]. *)
Definition flow_start (now : time) (s : FlowRunState) : outcome FlowRunState :=
  raise_when negb (bool_decide (fr_status s = CREATED))
    as invalid_flow_transition
         ["cannot start Flow Run in state '"; RunStatus_value (fr_status s); "'"] in
  Ok (evolve now s RUNNING (fr_invocations s) (fr_active_invocation_id s)
        (fr_output s) (fr_error s)).

(** [_require_definition]. *)
Definition require_definition (s : FlowRunState) (d : FlowDefinition) : outcome unit :=
  raise_when negb (bool_decide (fd_id d = fr_definition_id s)
                   && bool_decide (fd_version d = fr_definition_version s)
                   && bool_decide (FlowDefinition_fingerprint d = fr_definition_fingerprint s))
    as value_error ["FlowDefinition does not match this Flow Run"] in
  Ok tt.

(** [begin_invocation]; the invocation's [created_at] and [updated_at]
    and the aggregate's [updated_at] are three reads of [utc_now()]. *)
Definition flow_begin (amb : ambient) (d : FlowDefinition) (r : AgentInvocationRequest)
  (s : FlowRunState) : outcome FlowRunState :=
  raise_when negb (bool_decide (fr_status s = RUNNING))
    as invalid_flow_transition
         ["cannot invoke an Agent while Flow Run is '"; RunStatus_value (fr_status s); "'"] in
  raise_when negb (is_none (fr_active_invocation_id s))
    as invalid_flow_transition ["Flow Run already has an active AgentInvocation"] in
  let! _ := require_definition s d in
  raise_when negb (bool_decide (req_flow_run_id r = fr_run_id s))
    as value_error ["AgentInvocation request belongs to another Flow Run"] in
  let expected := Z.of_nat (length (fr_invocations s)) + 1 in
  raise_when negb (req_sequence r =? expected)
    as value_error ["AgentInvocation sequence must be "; zstr expected; ", got ";
                    zstr (req_sequence r)] in
  raise_when max_invocations (fr_budget s) <? expected
    as invalid_flow_transition ["Flow Run invocation limit reached (";
                                zstr (max_invocations (fr_budget s)); ")"] in
  let! ad := fd_agent d (req_agent_key r) in
  raise_when negb (bool_decide (req_definition_id r = prof_id (ad_profile ad))
                   && bool_decide (req_definition_version r = ad_version ad)
                   && bool_decide (req_definition_fingerprint r = AgentDefinition_fingerprint ad))
    as value_error ["AgentInvocation request definition does not match FlowDefinition"] in
  let! invocation := AgentInvocation_new
    (mk_AgentInvocation (req_invocation_id r) (fr_run_id s) (req_sequence r) (req_agent_key r)
       (req_definition_id r) (req_definition_version r) (req_definition_fingerprint r)
       (req_input r) RUNNING None (amb_now amb 0) (amb_now amb 1)) in
  Ok (evolve (amb_now amb 2) s (fr_status s) (fr_invocations s ++ [invocation])
        (Some (inv_id invocation)) (fr_output s) (fr_error s)).

(** [settle_invocation]. *)
Definition flow_settle (amb : ambient) (r : AgentInvocationResult) (s : FlowRunState)
  : outcome FlowRunState :=
  raise_when negb (bool_decide (fr_status s ∈ [RUNNING; WAITING]))
    as invalid_flow_transition
         ["cannot settle an invocation while Flow Run is '"; RunStatus_value (fr_status s); "'"] in
  match active_invocation s with
  | None => Raise (invalid_flow_transition ["Flow Run has no active AgentInvocation"])
  | Some active =>
      let! settled := inv_settle (amb_now amb 0) active r in
      let waiting := bool_decide (inv_status settled = WAITING) in
      Ok (evolve (amb_now amb 1) s (if waiting then WAITING else RUNNING)
            (replace_invocation (inv_id settled) settled (fr_invocations s))
            (if waiting then Some (inv_id settled) else None) (fr_output s) (fr_error s))
  end.

(** [resume_invocation]. *)
Definition flow_resume (amb : ambient) (invocation_id : uuid) (s : FlowRunState)
  : outcome FlowRunState :=
  raise_when negb (bool_decide (fr_status s = WAITING))
    as invalid_flow_transition
         ["cannot resume an invocation while Flow Run is '"; RunStatus_value (fr_status s); "'"] in
  match active_invocation s with
  | None => Raise (invalid_flow_transition ["Flow Run has no active AgentInvocation"])
  | Some active =>
      raise_when negb (bool_decide (inv_id active = invocation_id))
        as value_error ["invocation_id does not match the waiting invocation"] in
      let! resumed := inv_resume (amb_now amb 0) active in
      Ok (evolve (amb_now amb 1) s RUNNING
            (replace_invocation (inv_id resumed) resumed (fr_invocations s))
            (fr_active_invocation_id s) (fr_output s) (fr_error s))
  end.

(** [complete]. *)
Definition flow_complete (now : time) (output : string) (s : FlowRunState)
  : outcome FlowRunState :=
  raise_when negb (bool_decide (fr_status s = RUNNING))
    as invalid_flow_transition
         ["cannot complete Flow Run in state '"; RunStatus_value (fr_status s); "'"] in
  raise_when negb (is_none (fr_active_invocation_id s))
    as invalid_flow_transition ["cannot complete Flow Run with an active AgentInvocation"] in
  raise_when bool_decide (length (fr_invocations s) = 0%nat)
    as invalid_flow_transition ["cannot complete Flow Run without an AgentInvocation"] in
  raise_when existsb (fun i => negb (bool_decide (inv_status i = COMPLETED))) (fr_invocations s)
    as invalid_flow_transition
         ["cannot complete Flow Run with an unsuccessful AgentInvocation"] in
  Ok (evolve now s COMPLETED (fr_invocations s) (fr_active_invocation_id s) (Some output) None).

(** [_terminate]: [fail], [cancel], [interrupt] and [reach_limit] call it
    with their status. *)
Definition flow_terminate (amb : ambient) (status : RunStatus) (error : string)
  (s : FlowRunState) : outcome FlowRunState :=
  raise_when is_terminal_flow (fr_status s)
    as invalid_flow_transition
         ["cannot terminate Flow Run in state '"; RunStatus_value (fr_status s); "'"] in
  raise_when blank error as value_error ["Flow Run termination requires an error"] in
  let! '(invocations, now) :=
    match active_invocation s with
    | Some active =>
        let! terminated := inv_terminate (amb_now amb 0) active status error in
        Ok (replace_invocation (inv_id active) terminated (fr_invocations s), amb_now amb 1)
    | None => Ok (fr_invocations s, amb_now amb 0)
    end in
  Ok (evolve now s status invocations None (fr_output s) (Some error)).

Definition flow_fail (amb : ambient) := flow_terminate amb FAILED.
Definition flow_cancel (amb : ambient) := flow_terminate amb CANCELLED.
Definition flow_interrupt (amb : ambient) := flow_terminate amb INTERRUPTED.
Definition flow_reach_limit (amb : ambient) := flow_terminate amb LIMIT_REACHED.

(** The transitions of the aggregate, as one type of operations. *)
Inductive flow_op :=
  | OpStart (now : time)
  | OpBegin (amb : ambient) (d : FlowDefinition) (r : AgentInvocationRequest)
  | OpSettle (amb : ambient) (r : AgentInvocationResult)
  | OpResume (amb : ambient) (invocation_id : uuid)
  | OpComplete (now : time) (output : string)
  | OpFail (amb : ambient) (error : string)
  | OpCancel (amb : ambient) (error : string)
  | OpInterrupt (amb : ambient) (error : string)
  | OpReachLimit (amb : ambient) (error : string).

Definition flow_apply (op : flow_op) : FlowRunState -> outcome FlowRunState :=
  match op with
  | OpStart now => flow_start now
  | OpBegin amb d r => flow_begin amb d r
  | OpSettle amb r => flow_settle amb r
  | OpResume amb id => flow_resume amb id
  | OpComplete now output => flow_complete now output
  | OpFail amb e => flow_fail amb e
  | OpCancel amb e => flow_cancel amb e
  | OpInterrupt amb e => flow_interrupt amb e
  | OpReachLimit amb e => flow_reach_limit amb e
  end.
End Transitions.

(** ** The invariant of the aggregate *)

Definition settled (i : AgentInvocation) : Prop := is_terminal_flow (inv_status i) = true.

(** What the constructors of requests guarantee. *)
Definition request_ok (r : AgentInvocationRequest) : Prop := AgentInvocationRequest_new r = Ok r.

(** An invocation record its own validator accepts, around a result that
    its constructor accepts. *)
Record inv_ok (i : AgentInvocation) : Prop := {
  io_fields : AgentInvocation_fields i = true;
  io_valid : AgentInvocation_validate i = Ok tt;
  io_key : key_ok (inv_agent_key i) = true;
  io_result : forall r, inv_result i = Some r -> result_ok r;
}.

(** The active invocation, when there is one, is the last, carries the
    status of the Flow Run, and every earlier one is settled. *)
Definition active_last (s : FlowRunState) : Prop :=
  match fr_active_invocation_id s with
  | None => Forall settled (fr_invocations s) /\ fr_status s <> WAITING
  | Some a => exists l i, fr_invocations s = l ++ [i] /\ inv_id i = a /\ Forall settled l /\
                inv_status i = fr_status s /\ (fr_status s = RUNNING \/ fr_status s = WAITING)
  end.

Record flow_inv (s : FlowRunState) : Prop := {
  fv_fields : FlowRunState_fields s = true;
  fv_ids : NoDup (map inv_id (fr_invocations s));
  fv_sequences : map inv_sequence (fr_invocations s) = seqZ 1 (Z.of_nat (length (fr_invocations s)));
  fv_bound : Z.of_nat (length (fr_invocations s)) <= max_invocations (fr_budget s);
  fv_deadline : is_none (timeout_seconds (fr_budget s)) = is_none (fr_deadline_at s);
  fv_owner : Forall (fun i => inv_flow_run_id i = fr_run_id s) (fr_invocations s);
  fv_invs : Forall inv_ok (fr_invocations s);
  fv_active : active_last s;
  fv_created : fr_status s = CREATED -> fr_invocations s = [];
  fv_completed : fr_status s = COMPLETED ->
    is_none (fr_output s) = false /\ fr_error s = None /\ fr_invocations s <> [] /\
    Forall (fun i => inv_status i = COMPLETED) (fr_invocations s);
  fv_error : is_error_status (fr_status s) = true -> falsy (fr_error s) = false;
}.

Lemma terminal_cases s :
  is_terminal_flow s = true <-> s = COMPLETED \/ is_error_status s = true.
Proof. destruct s; vm_compute; naive_solver. Qed.

Lemma active_invocation_last s l i :
  fr_invocations s = l ++ [i] -> NoDup (map inv_id (fr_invocations s)) ->
  fr_active_invocation_id s = Some (inv_id i) -> active_invocation s = Some i.
Proof.
  unfold active_invocation. intros Hl Hnd ->. rewrite Hl in *. clear Hl.
  induction l as [|j l IH]; simpl; [by rewrite bool_decide_eq_true_2|].
  simpl in Hnd. apply NoDup_cons in Hnd as [Hj Hnd].
  rewrite bool_decide_eq_false_2; [auto|]. intros Heq. apply Hj. rewrite Heq, map_app.
  apply elem_of_app. right. by left.
Qed.

(** The invariant in terms of the active invocation. *)
Lemma active_spec s :
  flow_inv s ->
  (fr_active_invocation_id s = None /\ active_invocation s = None /\
     Forall settled (fr_invocations s) /\ fr_status s <> WAITING)
  \/ (exists l i, fr_invocations s = l ++ [i] /\ fr_active_invocation_id s = Some (inv_id i) /\
        active_invocation s = Some i /\ Forall settled l /\ inv_status i = fr_status s /\
        (fr_status s = RUNNING \/ fr_status s = WAITING)).
Proof.
  intros Hs. pose proof (fv_active _ Hs) as Ha. unfold active_last in Ha.
  destruct (fr_active_invocation_id s) as [a|] eqn:Ea.
  - right. destruct Ha as (l & i & Hl & <- & Hset & Hst & Hr). exists l, i.
    split_and!; try done. eapply active_invocation_last; eauto using fv_ids.
  - left. destruct Ha. split_and!; try done. unfold active_invocation. by rewrite Ea.
Qed.

(** The validator accepts every state of the invariant. *)
Lemma flow_inv_validate s : flow_inv s -> FlowRunState_new s = Ok s.
Proof.
  intros Hs. apply checked_Ok. split_and!; [apply Hs| |done]. unfold FlowRunState_validate.
  rewrite (bool_decide_eq_true_2 (NoDup _)) by apply Hs.
  rewrite (bool_decide_eq_true_2 (_ = seqZ _ _)) by apply Hs.
  rewrite (proj2 (Z.ltb_ge _ _)) by apply Hs.
  rewrite (fv_deadline _ Hs), eqb_reflx. simpl.
  rewrite (proj2 (existsb_false_Forall _ _)).
  2: { eapply Forall_impl; [apply (fv_owner _ Hs)|]. intros i Hi. simpl.
       by rewrite bool_decide_eq_true_2. }
  pose proof (fv_created _ Hs) as Hc. pose proof (fv_completed _ Hs) as Hd.
  pose proof (fv_error _ Hs) as He.
  destruct (active_spec s Hs) as [(-> & -> & _ & Hw)|(l & i & Hl & -> & -> & _ & Hst & Hr)].
  - rewrite (bool_decide_eq_false_2 (_ = WAITING)) by done. rewrite !andb_false_r. simpl.
    destruct (fr_status s); try done; simpl in *; try by rewrite He by done.
    + by rewrite Hc.
    + destruct Hd as (-> & -> & _); done.
  - simpl. rewrite Hst. destruct Hr as [->| ->]; simpl; done.
Qed.

Lemma flow_create_inv `{FloatRepr} amb d rid now s :
  FlowBudget_fields (fd_budget d) = true -> flow_create amb d rid now = Ok s -> flow_inv s.
Proof.
  intros Hb [Hf [_ ->]]%checked_Ok. constructor; simpl; try done.
  - constructor.
  - unfold FlowBudget_fields in Hb. reflect. lia.
  - by destruct (timeout_seconds (fd_budget d)).
Qed.

(** [create] never fails on a definition its constructor accepted. *)
Lemma flow_create_total `{FloatRepr} amb d rid now :
  FlowBudget_fields (fd_budget d) = true -> exists s, flow_create amb d rid now = Ok s.
Proof.
  intros Hb. unfold flow_create. eexists. apply checked_Ok. split_and!; [| |done].
  - unfold FlowRunState_fields. simpl. by rewrite FlowDefinition_fingerprint_ok.
  - unfold FlowRunState_validate. simpl.
    rewrite (proj2 (Z.ltb_ge _ _)) by (unfold FlowBudget_fields in Hb; reflect; lia).
    by destruct (timeout_seconds (fd_budget d)).
Qed.

(** The cumulative usage of a valid Flow is always defined. *)
Definition usage_sum (f : TokenUsage -> Z) (l : list AgentInvocation) : Z :=
  foldr Z.add 0 (map (fun i => f (inv_usage i)) l).

(** ** The transitions preserve it *)

Lemma validate_result_identity_Ok i r :
  validate_result_identity i r = Ok tt <->
  ir_flow_run_id r = inv_flow_run_id i /\ ir_invocation_id r = inv_id i /\
  ir_agent_key r = inv_agent_key i.
Proof.
  unfold validate_result_identity.
  repeat case_bool_decide; simpl; split; try done; naive_solver.
Qed.

Lemma result_to_run_status_live s :
  is_terminal_flow (result_to_run_status s) = negb (bool_decide (s = R_WAITING)).
Proof. by destruct s. Qed.

Lemma inv_settle_Ok now i r i' :
  inv_settle now i r = Ok i' -> inv_ok i -> result_ok r ->
  i' = inv_with i (result_to_run_status (ir_status r)) (Some r) now /\ inv_ok i'.
Proof.
  unfold inv_settle. intros H Hi Hr. destruct (negb _); [done|].
  destruct (validate_result_identity i r) as [[]|] eqn:E; [|done].
  injection H as <-. split; [done|].
  destruct Hi as [Hf _ Hk _]. constructor; simpl; [done| |done|by intros ? [= <-]].
  unfold AgentInvocation_validate. simpl.
  rewrite (proj2 (validate_result_identity_Ok (inv_with i _ _ now) r)).
  2: { exact (proj1 (validate_result_identity_Ok _ _) E). }
  rewrite (bool_decide_eq_true_2 (_ = result_to_run_status _)) by done.
  by destruct (ir_status r).
Qed.

Lemma inv_resume_Ok now i i' :
  inv_resume now i = Ok i' -> inv_ok i ->
  inv_status i = WAITING /\ i' = inv_with i RUNNING (inv_result i) now /\ inv_ok i'.
Proof.
  unfold inv_resume. case_bool_decide as Hw'; [|done]. intros [= <-] Hi. simpl.
  split; [done|]. split; [done|].
  destruct Hi as [Hf Hv Hk Hr]. constructor; simpl; try done.
  unfold AgentInvocation_validate in *. rewrite Hw' in Hv. simpl in *.
  destruct (inv_result i) as [r|]; [|done].
  destruct (validate_result_identity i r) as [[]|] eqn:E; [|done].
  case_bool_decide as Hw; [|done]. rewrite bool_decide_eq_true_2 by (by destruct (ir_status r)).
  simpl. apply validate_result_identity_Ok. exact (proj1 (validate_result_identity_Ok _ _) E).
Qed.

Lemma inv_usage_ok i :
  (forall r, inv_result i = Some r -> result_ok r) -> TokenUsage_ok (inv_usage i).
Proof.
  unfold inv_usage. destruct (inv_result i) as [r|]; intros Hr; [by apply (Hr r)|].
  unfold TokenUsage_ok. simpl. lia.
Qed.

(** Termination always succeeds on a live, valid invocation. *)
Lemma inv_terminate_spec now i st e :
  inv_ok i -> is_error_status st = true -> blank e = false ->
  inv_status i = RUNNING \/ inv_status i = WAITING ->
  exists r, inv_terminate now i st e = Ok (inv_with i st (Some r) now) /\
            ir_error r = Some e /\ ir_usage r = inv_usage i /\ inv_ok (inv_with i st (Some r) now).
Proof.
  intros [Hf Hv Hk Hr] Hst He Hs. unfold inv_terminate. rewrite Hst, He.
  assert (is_empty e = false) as Hee.
  { destruct e; [done|done]. }
  destruct (run_to_result_status st) as [rs|] eqn:Ers; [|by destruct st].
  rewrite (bool_decide_eq_true_2 (_ ∈ _)) by (destruct Hs as [->| ->]; by repeat constructor). simpl.
  set (res := mk_AgentInvocationResult _ _ _ rs _ _ _ _ _ _).
  assert (result_ok res) as Hres.
  { split; [|by apply inv_usage_ok].
    apply checked_Ok. split_and!; [done| |done]. unfold AgentInvocationResult_validate, res. simpl.
    assert (require_unique_ids art_id
      (match inv_result i with Some r => ir_artifacts r | None => [] end)
      "invocation result Artifacts" = Ok tt) as ->.
    { destruct (inv_result i) as [r|]; [|done].
      specialize (Hr r eq_refl). destruct Hr as [(_ & Hr & _)%checked_Ok _].
      unfold AgentInvocationResult_validate in Hr.
      by destruct (require_unique_ids _ _ _) as [[]|]. }
    rewrite Hee. by destruct st; try done; injection Ers as <-. }
  rewrite (proj1 Hres). exists res. split_and!; try done.
  constructor; simpl; try done; [|by intros ? [= <-]].
  unfold AgentInvocation_validate. simpl.
  rewrite (proj2 (validate_result_identity_Ok (inv_with i st (Some res) now) res)) by done.
  by destruct st; try done; injection Ers as <-.
Qed.

Lemma replace_last id new l i :
  inv_id i = id -> Forall (fun j => inv_id j <> id) l ->
  replace_invocation id new (l ++ [i]) = l ++ [new].
Proof.
  intros Hi Hl. unfold replace_invocation. rewrite map_app. simpl.
  rewrite bool_decide_eq_true_2 by done. f_equal.
  induction Hl as [|j l Hj Hl IH]; simpl; [done|].
  by rewrite bool_decide_eq_false_2, IH.
Qed.

Lemma NoDup_snoc_ne l i :
  NoDup (map inv_id (l ++ [i])) -> Forall (fun j => inv_id j <> inv_id i) l.
Proof.
  rewrite map_app. intros (_ & Hd & _)%NoDup_app. apply Forall_forall. intros j Hj Heq.
  apply (Hd (inv_id j)); [by apply list_elem_of_fmap_2|]. rewrite Heq. by left.
Qed.

(** A transition that changes only the last invocation, within its
    identity. *)
Lemma flow_inv_last now s l i i' status active output error :
  flow_inv s -> fr_invocations s = l ++ [i] ->
  inv_id i' = inv_id i -> inv_sequence i' = inv_sequence i ->
  inv_flow_run_id i' = inv_flow_run_id i -> inv_ok i' ->
  let s' := evolve now s status (l ++ [i']) active output error in
  active_last s' -> status <> CREATED -> status <> COMPLETED ->
  (is_error_status status = true -> falsy error = false) ->
  flow_inv s'.
Proof.
  intros Hs Hl Hid Hseq Hown Hi' s' Hact Hnc Hnd He.
  pose proof (fv_ids _ Hs) as H1. pose proof (fv_sequences _ Hs) as H2.
  pose proof (fv_bound _ Hs) as H3. pose proof (fv_owner _ Hs) as H4.
  pose proof (fv_invs _ Hs) as H5. pose proof (fv_fields _ Hs) as H6.
  rewrite Hl in *. rewrite !map_app in *. simpl in *.
  rewrite !length_app in *. simpl in *.
  apply Forall_app in H4 as [H4 H4']. apply Forall_app in H5 as [H5 _].
  constructor; simpl; try done.
  - unfold FlowRunState_fields in *. simpl. reflect. rewrite H. simpl. apply Z.leb_le. lia.
  - rewrite map_app. simpl. by rewrite Hid.
  - by rewrite map_app, length_app; simpl; rewrite Hseq.
  - by rewrite length_app.
  - apply Hs.
  - apply Forall_app. split; [done|]. apply Forall_singleton. simpl. rewrite Hown. by inversion H4'.
  - apply Forall_app. split; [done|]. by apply Forall_singleton.
Qed.

(** What a caller owes a transition: a request with a new invocation id, a
    result its constructor accepted. *)
Definition op_ok (op : flow_op) (s : FlowRunState) : Prop :=
  match op with
  | OpBegin _ _ r => request_ok r /\ req_invocation_id r ∉ map inv_id (fr_invocations s)
  | OpSettle _ r => result_ok r
  | _ => True
  end.

(** The fields no transition changes. *)
Definition same_identity (s s' : FlowRunState) : Prop :=
  fr_run_id s' = fr_run_id s /\ fr_definition_id s' = fr_definition_id s /\
  fr_definition_version s' = fr_definition_version s /\
  fr_definition_fingerprint s' = fr_definition_fingerprint s /\
  fr_budget s' = fr_budget s /\ fr_deadline_at s' = fr_deadline_at s /\
  fr_created_at s' = fr_created_at s.

(** Settled invocations are history: they stay where and as they are. *)
Definition history_kept (s s' : FlowRunState) : Prop :=
  forall k i, fr_invocations s !! k = Some i -> settled i -> fr_invocations s' !! k = Some i.

Definition step_facts (s s' : FlowRunState) : Prop :=
  fr_revision s' = fr_revision s + 1 /\ same_identity s s' /\ history_kept s s' /\
  is_terminal_flow (fr_status s) = false.

Lemma same_identity_evolve now s st l a o e : same_identity s (evolve now s st l a o e).
Proof. by repeat split. Qed.

Lemma history_kept_last now s l i i' st a o e :
  fr_invocations s = l ++ [i] -> ~ settled i ->
  history_kept s (evolve now s st (l ++ [i']) a o e).
Proof.
  intros Hl Hi k j Hk Hj. rewrite Hl in Hk. simpl.
  apply lookup_app_Some in Hk as [Hk|[_ Hk]]; [by apply lookup_app_l_Some|].
  apply list_lookup_singleton_Some in Hk as [_ <-]. done.
Qed.

Lemma history_kept_app now s l st a o e :
  history_kept s (evolve now s st (fr_invocations s ++ l) a o e).
Proof. intros k j Hk _. by apply lookup_app_l_Some. Qed.

Lemma history_kept_same now s st a o e :
  history_kept s (evolve now s st (fr_invocations s) a o e).
Proof. by intros k j Hk _. Qed.

Lemma live_not_terminal s : s = RUNNING \/ s = WAITING -> is_terminal_flow s = false.
Proof. by intros [->| ->]. Qed.

Lemma ids_before_last s l i :
  flow_inv s -> fr_invocations s = l ++ [i] -> Forall (fun j => inv_id j <> inv_id i) l.
Proof. intros Hs Hl. apply NoDup_snoc_ne. rewrite <-Hl. apply Hs. Qed.

Lemma last_inv_ok s l i : flow_inv s -> fr_invocations s = l ++ [i] -> inv_ok i.
Proof.
  intros Hs Hl. pose proof (fv_invs _ Hs) as Hall. rewrite Hl in Hall.
  apply Forall_app in Hall as [_ Hall]. by inversion Hall.
Qed.

(** A transition that changes no invocation and leaves none active. *)
Lemma flow_inv_same now s status output error :
  flow_inv s -> Forall settled (fr_invocations s) ->
  status <> WAITING -> status <> CREATED ->
  (status = COMPLETED -> is_none output = false /\ error = None /\ fr_invocations s <> [] /\
     Forall (fun i => inv_status i = COMPLETED) (fr_invocations s)) ->
  (is_error_status status = true -> falsy error = false) ->
  flow_inv (evolve now s status (fr_invocations s) None output error).
Proof.
  intros Hs Hset Hw Hc Hd He. constructor; simpl; try done; try by apply Hs.
  pose proof (fv_fields _ Hs) as H6. unfold FlowRunState_fields in *. simpl. reflect.
  rewrite H. simpl. apply Z.leb_le. lia.
Qed.

Section Preservation.
Context `{FloatRepr}.

Lemma flow_start_inv now s s' :
  flow_inv s -> flow_start now s = Ok s' -> flow_inv s' /\ step_facts s s'.
Proof.
  unfold flow_start. intros Hs. case_bool_decide as Hc; [|done]. intros [= <-].
  destruct (active_spec s Hs) as [(-> & _ & Hset & _)|(l & i & _ & _ & _ & _ & _ & Hr)];
    [|rewrite Hc in Hr; by destruct Hr].
  split.
  - by apply flow_inv_same.
  - split_and!; [done|done|apply history_kept_same|by rewrite Hc].
Qed.

Lemma flow_complete_inv now output s s' :
  flow_inv s -> flow_complete now output s = Ok s' -> flow_inv s' /\ step_facts s s'.
Proof.
  unfold flow_complete. intros Hs. case_bool_decide as Hr; [|done]. simpl.
  destruct (fr_active_invocation_id s) eqn:Ea; [done|]. simpl.
  case_bool_decide as Hl; [done|]. destruct (existsb _ _) eqn:Hex; [done|]. intros [= <-].
  apply existsb_false_Forall in Hex.
  assert (Forall (fun i => inv_status i = COMPLETED) (fr_invocations s)) as Hall.
  { eapply Forall_impl; [exact Hex|]. intros i Hi. simpl in Hi. by case_bool_decide. }
  split.
  - apply flow_inv_same; try done.
    + eapply Forall_impl; [exact Hall|]. intros i Hi. unfold settled. by rewrite Hi.
    + intros _. split_and!; try done. by destruct (fr_invocations s).
  - split_and!; [done|done|apply history_kept_same|by rewrite Hr].
Qed.

Lemma flow_begin_inv amb d r s s' :
  flow_inv s -> request_ok r -> req_invocation_id r ∉ map inv_id (fr_invocations s) ->
  flow_begin amb d r s = Ok s' -> flow_inv s' /\ step_facts s s'.
Proof.
  unfold flow_begin. intros Hs Hreq Hfresh. case_bool_decide as Hr; [|done]. simpl.
  destruct (fr_active_invocation_id s) eqn:Ea; [done|]. simpl.
  destruct (require_definition s d); [|done].
  case_bool_decide as Hown; [|done]. simpl.
  destruct (req_sequence r =? _) eqn:Hseq; [|done]. simpl.
  destruct (max_invocations _ <? _) eqn:Hmax; [done|].
  destruct (fd_agent d (req_agent_key r)) as [ad|]; [|done].
  destruct (negb _); [done|].
  destruct (AgentInvocation_new _) as [i|] eqn:Ei; [|done]. intros [= <-].
  apply checked_Ok in Ei as (Hif & Hiv & ->). reflect.
  destruct (active_spec s Hs) as [(_ & _ & Hset & _)|(l & i & _ & Hn & _)]; [|congruence].
  assert (key_ok (req_agent_key r) = true) as Hkey.
  { apply checked_Ok in Hreq as (Hf & _). unfold AgentInvocationRequest_fields in Hf.
    by reflect. }
  split.
  - constructor; simpl; try done.
    + pose proof (fv_fields _ Hs) as H6. unfold FlowRunState_fields in *. simpl. reflect.
      rewrite H0. simpl. apply Z.leb_le. lia.
    + rewrite map_app. simpl. apply NoDup_app. split_and!; [apply Hs| |apply NoDup_singleton].
      intros x Hx ->%list_elem_of_singleton. done.
    + rewrite map_app, length_app, (fv_sequences _ Hs). simpl.
      replace (Z.of_nat (length (fr_invocations s) + 1))
        with (Z.of_nat (length (fr_invocations s)) + 1) by lia.
      rewrite seqZ_app by lia. simpl. f_equal. by rewrite Hseq, Z.add_comm.
    + rewrite length_app. simpl. lia.
    + apply Hs.
    + apply Forall_app. split; [apply Hs|]. by apply Forall_singleton.
    + apply Forall_app. split; [apply Hs|]. apply Forall_singleton. by constructor.
    + unfold active_last. simpl. eexists _, _. split_and!; [done|done|done| |by left].
      simpl. by rewrite Hr.
    + by rewrite Hr.
    + by rewrite Hr.
    + by rewrite Hr.
  - split_and!; [done|done|apply history_kept_app|by rewrite Hr].
Qed.

Lemma flow_settle_spec amb r s s' :
  flow_inv s -> result_ok r -> flow_settle amb r s = Ok s' ->
  exists l i i', fr_invocations s = l ++ [i] /\ active_invocation s = Some i /\
    i' = inv_with i (result_to_run_status (ir_status r)) (Some r) (amb_now amb 0) /\
    inv_ok i' /\ validate_result_identity i r = Ok tt /\
    s' = evolve (amb_now amb 1) s (if bool_decide (ir_status r = R_WAITING) then WAITING else RUNNING)
           (l ++ [i']) (if bool_decide (ir_status r = R_WAITING) then Some (inv_id i) else None)
           (fr_output s) (fr_error s) /\
    Forall settled l /\ inv_status i = fr_status s /\ (fr_status s = RUNNING \/ fr_status s = WAITING).
Proof.
  unfold flow_settle. intros Hs Hr. destruct (negb _); [done|].
  destruct (active_spec s Hs) as [(_ & -> & _)|(l & i & Hl & Hid & -> & Hset & Hst & Hrun)]; [done|].
  destruct (inv_settle _ i r) as [i'|] eqn:Ei; [|done]. intros [= <-].
  pose proof (last_inv_ok _ _ _ Hs Hl) as Hiok.
  pose proof Ei as Ei'. unfold inv_settle in Ei'. destruct (negb _); [done|].
  destruct (validate_result_identity i r) as [[]|] eqn:Ev; [|done]. clear Ei'.
  destruct (inv_settle_Ok _ _ _ _ Ei Hiok Hr) as [-> Hiok'].
  exists l, i, (inv_with i (result_to_run_status (ir_status r)) (Some r) (amb_now amb 0)).
  split_and!; try done. simpl.
  rewrite Hl, replace_last by first [done | exact (ids_before_last _ _ _ Hs Hl)].
  by destruct (ir_status r).
Qed.

Lemma flow_settle_inv amb r s s' :
  flow_inv s -> result_ok r -> flow_settle amb r s = Ok s' -> flow_inv s' /\ step_facts s s'.
Proof.
  intros Hs Hr Happ.
  destruct (flow_settle_spec _ _ _ _ Hs Hr Happ)
    as (l & i & i' & Hl & Hact & Hi' & Hok & _ & -> & Hset & Hst & Hrun).
  assert (~ settled i) as Hns.
  { unfold settled. rewrite Hst, live_not_terminal by done. done. }
  split.
  - subst i'. apply (flow_inv_last _ s l i); try done.
    + unfold active_last. simpl. case_bool_decide as Hw; simpl.
      * eexists l, _. split_and!; [done|done|done| |by right]. simpl. by rewrite Hw.
      * split; [|done]. apply Forall_app. split; [done|]. apply Forall_singleton.
        unfold settled. simpl. by destruct (ir_status r).
    + by case_bool_decide.
    + by case_bool_decide.
    + by case_bool_decide.
  - split_and!; [done|done|by eapply history_kept_last|by apply live_not_terminal].
Qed.

Lemma flow_resume_inv amb id s s' :
  flow_inv s -> flow_resume amb id s = Ok s' -> flow_inv s' /\ step_facts s s'.
Proof.
  unfold flow_resume. intros Hs. case_bool_decide as Hw; [|done]. simpl.
  destruct (active_spec s Hs) as [(_ & -> & _)|(l & i & Hl & Hid & -> & Hset & Hst & Hrun)]; [done|].
  case_bool_decide as Hi; [|done]. simpl.
  destruct (inv_resume _ i) as [i'|] eqn:Ei; [|done]. intros [= <-].
  pose proof (last_inv_ok _ _ _ Hs Hl) as Hiok.
  destruct (inv_resume_Ok _ _ _ Ei Hiok) as (Hiw & -> & Hiok').
  rewrite Hl, replace_last by first [done | exact (ids_before_last _ _ _ Hs Hl)].
  split.
  - apply (flow_inv_last _ s l i); try done.
    unfold active_last. simpl. rewrite Hid. eexists l, _.
    split_and!; [done|done|done|done|by left].
  - split_and!; [done|done| |by rewrite Hw].
    apply (history_kept_last _ _ _ i); [done|]. unfold settled. by rewrite Hiw.
Qed.

Lemma flow_terminate_spec amb st e s :
  flow_inv s -> is_error_status st = true -> is_terminal_flow (fr_status s) = false ->
  blank e = false ->
  exists s', flow_terminate amb st e s = Ok s' /\ flow_inv s' /\ step_facts s s' /\
    fr_status s' = st /\ fr_error s' = Some e /\ fr_output s' = fr_output s /\
    Forall settled (fr_invocations s').
Proof.
  unfold flow_terminate. intros Hs Hst Hnt He. rewrite Hnt, He.
  assert (is_empty e = false) as Hee by (by destruct e).
  destruct (active_spec s Hs) as [(Hn & -> & Hset & _)|(l & i & Hl & Hid & -> & Hset & Hi & Hrun)].
  - eexists. split; [done|].
    split; [|split; [split_and!; [done|done|apply history_kept_same|done]|done]].
    apply flow_inv_same; try done; by destruct st.
  - pose proof (last_inv_ok _ _ _ Hs Hl) as Hiok.
    destruct (inv_terminate_spec (amb_now amb 0) i st e Hiok Hst He) as (r & -> & _ & _ & Hok').
    { by rewrite Hi. }
    rewrite Hl, replace_last by first [done | exact (ids_before_last _ _ _ Hs Hl)].
    assert (Forall settled (l ++ [inv_with i st (Some r) (amb_now amb 0)])) as Hset'.
    { apply Forall_app. split; [done|]. apply Forall_singleton. unfold settled. simpl.
      apply terminal_cases. by right. }
    eexists. split; [done|]. split; [|split; [split_and!; [done|done| |done]|done]].
    + apply (flow_inv_last _ s l i); try done; by destruct st.
    + apply (history_kept_last _ _ _ i); [done|]. unfold settled.
      rewrite Hi, live_not_terminal by done. done.
Qed.

Lemma flow_terminate_inv amb st e s s' :
  flow_inv s -> is_error_status st = true -> flow_terminate amb st e s = Ok s' ->
  flow_inv s' /\ step_facts s s'.
Proof.
  intros Hs Hst Happ. pose proof Happ as Happ'. unfold flow_terminate in Happ'.
  destruct (is_terminal_flow (fr_status s)) eqn:Ht; [done|].
  destruct (blank e) eqn:He; [done|]. clear Happ'.
  destruct (flow_terminate_spec amb st e s Hs Hst Ht He) as (s2 & Heq & Hinv & Hf & _).
  rewrite Happ in Heq. by injection Heq as <-.
Qed.

Lemma flow_apply_inv op s s' :
  flow_inv s -> op_ok op s -> flow_apply op s = Ok s' -> flow_inv s' /\ step_facts s s'.
Proof.
  destruct op; simpl; intros Hs Hop Happ.
  - by eapply flow_start_inv.
  - destruct Hop. by eapply flow_begin_inv.
  - by eapply flow_settle_inv.
  - by eapply flow_resume_inv.
  - by eapply flow_complete_inv.
  - by eapply (flow_terminate_inv amb FAILED).
  - by eapply (flow_terminate_inv amb CANCELLED).
  - by eapply (flow_terminate_inv amb INTERRUPTED).
  - by eapply (flow_terminate_inv amb LIMIT_REACHED).
Qed.
End Preservation.

Lemma flow_usage_total l u :
  Forall inv_ok l -> TokenUsage_ok u ->
  exists v, fold_left add_usage l (Ok u) = Ok v /\ TokenUsage_ok v /\
    input_tokens v = input_tokens u + usage_sum input_tokens l /\
    output_tokens v = output_tokens u + usage_sum output_tokens l /\
    total_tokens v = total_tokens u + usage_sum total_tokens l.
Proof.
  intros Hl. revert u. induction Hl as [|i l Hi Hl IH]; intros u Hu.
  - exists u. unfold usage_sum. simpl. split_and!; done || lia.
  - simpl. pose proof (inv_usage_ok i (io_result i Hi)) as Hio.
    rewrite TokenUsage_add_ok by done.
    match goal with |- context [Ok (mk_TokenUsage ?a ?b ?c)] => set (t := mk_TokenUsage a b c) end.
    destruct (IH t) as (v & Hv & Hok & H1 & H2 & H3).
    { unfold t, TokenUsage_ok in *. simpl. lia. }
    exists v. split; [exact Hv|]. unfold t, usage_sum in *. simpl in *. split_and!; done || lia.
Qed.

Lemma flow_usage_spec s :
  flow_inv s ->
  exists u, flow_usage s = Ok u /\ TokenUsage_ok u /\
    input_tokens u = usage_sum input_tokens (fr_invocations s) /\
    output_tokens u = usage_sum output_tokens (fr_invocations s) /\
    total_tokens u = usage_sum total_tokens (fr_invocations s).
Proof.
  intros Hs. destruct (flow_usage_total (fr_invocations s) TokenUsage_zero) as (u & Hu & H);
    [apply Hs|unfold TokenUsage_ok; simpl; lia|]. by exists u.
Qed.

(** ** Histories of transitions *)

Section Histories.
Context `{FloatRepr}.

(** A raised transition leaves the caller with the state it had. *)
Definition flow_after (op : flow_op) (s : FlowRunState) : FlowRunState :=
  match flow_apply op s with Ok s' => s' | Raise _ => s end.

Definition flow_trace (ops : list flow_op) (s : FlowRunState) : FlowRunState :=
  fold_left (fun s op => flow_after op s) ops s.

Fixpoint ops_ok (ops : list flow_op) (s : FlowRunState) : Prop :=
  match ops with
  | [] => True
  | op :: ops' => op_ok op s /\ ops_ok ops' (flow_after op s)
  end.

Lemma flow_after_inv op s :
  flow_inv s -> op_ok op s ->
  flow_inv (flow_after op s) /\ same_identity s (flow_after op s) /\
  history_kept s (flow_after op s) /\ fr_revision s <= fr_revision (flow_after op s).
Proof.
  intros Hs Hop. unfold flow_after. destruct (flow_apply op s) as [s'|] eqn:E.
  - destruct (flow_apply_inv op s s' Hs Hop E) as [Hs' (Hr & Hid & Hh & _)].
    split_and!; try done; lia.
  - split_and!; try done. by intros k i Hk _.
Qed.

Lemma same_identity_trans s1 s2 s3 :
  same_identity s1 s2 -> same_identity s2 s3 -> same_identity s1 s3.
Proof. unfold same_identity. intuition congruence. Qed.

Lemma flow_trace_inv ops : forall s,
  flow_inv s -> ops_ok ops s ->
  flow_inv (flow_trace ops s) /\ same_identity s (flow_trace ops s) /\
  history_kept s (flow_trace ops s) /\ fr_revision s <= fr_revision (flow_trace ops s).
Proof.
  induction ops as [|op ops IH]; intros s Hs Hok.
  - split_and!; try done. by intros k i Hk _.
  - destruct Hok as [Hop Hok]. destruct (flow_after_inv op s Hs Hop) as (H1 & H2 & H3 & H4).
    destruct (IH _ H1 Hok) as (G1 & G2 & G3 & G4). simpl.
    split_and!; [done|by eapply same_identity_trans| |unfold flow_trace in *; lia].
    intros k i Hk Hi. apply G3; [by apply H3|done].
Qed.
End Histories.

(** ** Properties *)

(** C26: the Flow aggregate stays valid.  From [create] of any definition with
    a valid budget, whatever transitions are then attempted in whatever order
    (raised ones change nothing), as long as ([ops_ok]) each invocation is
    begun by a well-formed request under an id the Flow has not used before -
    [begin_invocation] itself does not look at that, see
    [reused_invocation_id] - and settled with a well-formed result: the state is one the class's own validator accepts
    although [model_copy] never runs it, invocation ids are distinct and
    sequences contiguous within [max_invocations], at most the last
    invocation is unsettled, settled invocations are never rewritten, and the
    Flow's definition, budget and deadline never change. *)
Theorem flow_lifecycle_invariant `{FloatRepr} amb d rid now ops :
  FlowBudget_fields (fd_budget d) = true ->
  exists s0, flow_create amb d rid now = Ok s0 /\
    (ops_ok ops s0 ->
     let s := flow_trace ops s0 in
     FlowRunState_new s = Ok s /\ flow_inv s /\ same_identity s0 s).
Proof.
  intros Hb. destruct (flow_create_total amb d rid now Hb) as [s0 Hs0].
  exists s0. split; [done|]. intros Hok s.
  destruct (flow_trace_inv ops s0 (flow_create_inv _ _ _ _ _ Hb Hs0) Hok) as (Hi & Hid & _).
  split_and!; [by apply flow_inv_validate|done|done].
Qed.

(** One transition.  A transition that returns increments the revision
    by exactly one, keeps the identity and every settled invocation in
    place, and started from a Flow that was not terminal: terminal Flows
    accept no transition at all. *)
Theorem flow_step_contract `{FloatRepr} op s s' :
  flow_inv s -> op_ok op s -> flow_apply op s = Ok s' ->
  fr_revision s' = fr_revision s + 1 /\ same_identity s s' /\ history_kept s s' /\
  is_terminal_flow (fr_status s) = false /\ flow_inv s'.
Proof.
  intros Hs Hop Happ. destruct (flow_apply_inv op s s' Hs Hop Happ) as [Hi (?&?&?&?)]. done.
Qed.

(** A Flow can always be stopped.  [fail], [cancel], [interrupt] and
    [reach_limit] succeed on every valid Flow Run that is not terminal, for
    every error text that is not blank; they record the error, settle the
    active invocation and leave none unsettled, and on a terminal Flow they
    raise. *)
Theorem flow_always_terminable amb st e s :
  flow_inv s -> is_error_status st = true -> blank e = false ->
  if is_terminal_flow (fr_status s) then
    exists msg, flow_terminate amb st e s = Raise (Exn InvalidFlowTransitionError msg)
  else
    exists s', flow_terminate amb st e s = Ok s' /\ flow_inv s' /\ fr_status s' = st /\
      fr_error s' = Some e /\ fr_output s' = fr_output s /\ active_invocation s' = None /\
      Forall settled (fr_invocations s').
Proof.
  intros Hs Hst He. destruct (is_terminal_flow (fr_status s)) eqn:Ht.
  - unfold flow_terminate. rewrite Ht. by eexists.
  - destruct (flow_terminate_spec amb st e s Hs Hst Ht He)
      as (s' & Heq & Hi & _ & Hstatus & Herr & Hout & Hset).
    exists s'. split_and!; try done.
    destruct (active_spec s' Hi) as [(_ & Ha & _)|(l & i & _ & _ & _ & _ & _ & Hr)]; [done|].
    rewrite Hstatus in Hr. by destruct st, Hr.
Qed.

(** When a Flow may complete.  [complete] succeeds exactly on a running
    Flow with at least one invocation, none active and every one of them
    completed; it then records the output and clears the error. *)
Theorem flow_complete_iff now output s :
  (is_ok (flow_complete now output s) <->
   fr_status s = RUNNING /\ fr_active_invocation_id s = None /\ fr_invocations s <> [] /\
   Forall (fun i => inv_status i = COMPLETED) (fr_invocations s)) /\
  (forall s', flow_complete now output s = Ok s' ->
     fr_status s' = COMPLETED /\ fr_output s' = Some output /\ fr_error s' = None /\
     fr_invocations s' = fr_invocations s).
Proof.
  unfold flow_complete. split.
  - split.
    + intros [s' Heq]. case_bool_decide as Hr; [|done]. simpl in Heq.
      destruct (fr_active_invocation_id s) eqn:Ea; [done|]. simpl in Heq.
      case_bool_decide as Hl; [done|]. destruct (existsb _ _) eqn:Hex; [done|].
      apply existsb_false_Forall in Hex. split_and!; try done.
      * by destruct (fr_invocations s).
      * eapply Forall_impl; [exact Hex|]. intros i Hi. simpl in Hi. by case_bool_decide.
    + intros (-> & -> & Hl & Hall). simpl. rewrite bool_decide_eq_false_2
        by (by destruct (fr_invocations s)).
      rewrite (proj2 (existsb_false_Forall _ _)); [by eexists|].
      eapply Forall_impl; [exact Hall|]. intros i Hi. simpl. by rewrite bool_decide_eq_true_2.
  - intros s' Heq. raise_free Heq. done.
Qed.

(** ** A concrete Flow of two Agents *)

Definition example_float : FloatRepr := fun _ => "0.0".

Definition example_agent (id : string) : AgentDefinition :=
  mk_AgentDefinition (mk_AgentProfile id "Do the work." None [] [] ∅ 10 50 3 3 262144) "1.0.0".

Definition example_definition : FlowDefinition :=
  mk_FlowDefinition "report" "1.0.0"
    [mk_FlowAgent "writer" (example_agent "writer"); mk_FlowAgent "editor" (example_agent "editor")]
    "sequential" (mk_FlowBudget 5 None None (Some 1000) None None (Some (60 # 1))) [].

Definition example_flow_ambient : ambient := Ambient 0 (fun n => Z.of_nat n) (fun n => N.of_nat n).

Definition example_request (key : string) (id : uuid) (sequence : Z) : AgentInvocationRequest :=
  mk_AgentInvocationRequest 7%N id sequence key key "1.0.0"
    (AgentDefinition_fingerprint (H := example_float) (example_agent key))
    (mk_AgentInvocationInput "Write it." None []).

Definition example_pending : PendingInput := mk_PendingInput "c1" "ask" "Which one?" [].

Definition example_result (key : string) (id : uuid) (st : AgentResultStatus)
  : AgentInvocationResult :=
  mk_AgentInvocationResult 7%N id key st (Some "text") (mk_TokenUsage 10 5 15) []
    (match st with R_WAITING => Some example_pending | _ => None end)
    (match st with R_COMPLETED | R_WAITING => None | _ => Some "it broke" end)
    [("model_calls", JInt 2)].

Definition example_created : FlowRunState :=
  match flow_create (H := example_float) example_flow_ambient example_definition (Some 7%N) None with
  | Ok s => s
  | Raise _ => mk_FlowRunState 0%N "" "" "" FlowBudget_default None 0 CREATED [] None None None 0 0
  end.

Definition example_ops : list flow_op :=
  [OpStart 1;
   OpBegin example_flow_ambient example_definition (example_request "writer" 1%N 1);
   OpSettle example_flow_ambient (example_result "writer" 1%N R_WAITING);
   OpResume example_flow_ambient 1%N;
   OpSettle example_flow_ambient (example_result "writer" 1%N R_COMPLETED);
   OpComplete 9 "done"].

Lemma example_ops_ok : ops_ok (H := example_float) example_ops example_created.
Proof.
  repeat split; try (vm_compute; reflexivity); try (vm_compute; discriminate).
  change (1%N ∉ ([] : list N)). apply not_elem_of_nil.
Qed.

(** An invocation may be begun under the id of an earlier one, and the
    snapshot is then one the validator refuses. *)
Example reused_invocation_id :
  let s := flow_trace (H := example_float)
    [OpStart 1;
     OpBegin example_flow_ambient example_definition (example_request "writer" 1%N 1);
     OpSettle example_flow_ambient (example_result "writer" 1%N R_COMPLETED);
     OpBegin example_flow_ambient example_definition (example_request "editor" 1%N 2)] example_created in
  map inv_id (fr_invocations s) = [1%N; 1%N] /\ FlowRunState_new s <> Ok s.
Proof. split; vm_compute; [reflexivity|discriminate]. Qed.

Lemma flow_lifecycle_invariant_witness :
  fr_status (flow_trace (H := example_float) example_ops example_created) = COMPLETED /\
  FlowRunState_new (flow_trace (H := example_float) example_ops example_created)
    = Ok (flow_trace (H := example_float) example_ops example_created).
Proof.
  split; [vm_compute; reflexivity|].
  destruct (flow_lifecycle_invariant (H := example_float) example_flow_ambient example_definition
              (Some 7%N) None example_ops eq_refl) as (s0 & Hs0 & Hinv).
  assert (s0 = example_created) as -> by (unfold example_created; by rewrite Hs0).
  exact (proj1 (Hinv example_ops_ok)).
Defined.

Lemma example_created_Ok :
  flow_create (H := example_float) example_flow_ambient example_definition (Some 7%N) None
    = Ok example_created.
Proof. vm_compute. reflexivity. Qed.

Lemma example_created_inv : flow_inv example_created.
Proof. 
  exact (flow_create_inv (H := example_float) example_flow_ambient example_definition
           (Some 7%N) None example_created eq_refl example_created_Ok). Qed.

Lemma flow_step_contract_witness :
  exists s', flow_apply (H := example_float) (OpStart 1) example_created = Ok s' /\
    fr_revision s' = 2 /\ fr_status s' = RUNNING.
Proof.
  destruct (flow_apply (H := example_float) (OpStart 1) example_created) as [s'|] eqn:E.
  - exists s'. split; [done|].
    destruct (flow_step_contract (H := example_float) (OpStart 1) example_created s'
                example_created_inv I E) as (Hr & _).
    split; [rewrite Hr; vm_compute; reflexivity|].
    assert (match flow_apply (H := example_float) (OpStart 1) example_created with
            | Ok x => fr_status x = RUNNING | Raise _ => True end) as Hx
      by (vm_compute; reflexivity).
    rewrite E in Hx. exact Hx.
  - assert (match flow_apply (H := example_float) (OpStart 1) example_created with
            | Ok _ => True | Raise _ => False end) as Hx by (vm_compute; exact I).
    rewrite E in Hx. destruct Hx.
Defined.

Lemma flow_always_terminable_witness :
  exists s', flow_terminate example_flow_ambient CANCELLED "stop" example_created
               = Ok s' /\ fr_status s' = CANCELLED.
Proof.
  pose proof (flow_always_terminable example_flow_ambient CANCELLED "stop"
                example_created example_created_inv eq_refl eq_refl) as Hw.
  assert (is_terminal_flow (fr_status example_created) = false) as E by (vm_compute; reflexivity).
  rewrite E in Hw. destruct Hw as (s' & Hs' & _ & Hst & _).
  exists s'. split; [exact Hs'|exact Hst].
Defined.
