(* ===== verification/FlowRepository.v ===== *)
(** * Flow persistence ([src/base_agent/flows/repository.py],
    [src/base_agent/flows/lease.py])

    A repository stores a Flow snapshot and its ordered events atomically,
    under compare-and-swap on the snapshot's revision, and hands out fenced,
    time-bounded execution leases.  [FlowRepository] is the protocol the
    Flow service is written against, [FlowRepositoryLaws] what it promises;
    [InMemoryFlowRepository] is the implementation of the package. *)

From Stdlib Require Import QArith.
From stdpp Require Import base gmap strings list.
From S2P Require Import Prelude Json Models Sha256 FlowModels FlowLifecycle.

(** ** Event drafts and materialised events *)

Record FlowEventDraft := mk_FlowEventDraft {
  fed_type : EventType;
  fed_data : jdict;
}.

(** [_materialize_events]: identity and timestamp of the [k]-th event are
    fresh, its sequence is [start_sequence + k]. *)
Fixpoint materialize_from (amb : ambient) (k : nat) (rid : uuid) (start : Z)
  (drafts : list FlowEventDraft) : outcome (list RuntimeEvent) :=
  match drafts with
  | [] => Ok []
  | d :: drafts' =>
      let! e := checked (1 <=? start) (fun _ => Ok tt)
        (mk_RuntimeEvent (amb_uuid amb k) rid start (fed_type d) (amb_now amb k) (fed_data d)) in
      let! es := materialize_from amb (S k) rid (start + 1) drafts' in
      Ok (e :: es)
  end.

Definition materialize_events (amb : ambient) (rid : uuid) (drafts : list FlowEventDraft)
  (start : Z) : outcome (list RuntimeEvent) :=
  materialize_from amb 0 rid start drafts.

(** ** Leases *)

Record FlowExecutionLease := mk_FlowExecutionLease {
  lease_run_id : uuid;
  lease_token : uuid;
  lease_owner_id : string;
  lease_attempt : Z;
  lease_acquired_at : time;
  lease_heartbeat_at : time;
  lease_expires_at : time;
}.

Definition FlowExecutionLease_fields (l : FlowExecutionLease) : bool :=
  len_between 1 256 (lease_owner_id l) && (1 <=? lease_attempt l).

(** [is_expired(now=now)]. *)
Definition is_expired (now : time) (l : FlowExecutionLease) : bool := lease_expires_at l <=? now.

(** [_validate_lease_arguments]. *)
Definition validate_lease_arguments (owner_id : string) (ttl : seconds) : outcome unit :=
  raise_when blank owner_id as value_error ["Flow lease owner_id must not be blank"] in
  raise_when 256 <? slen owner_id
    as value_error ["Flow lease owner_id must not exceed 256 characters"] in
  raise_when Qle_bool ttl 0
    as value_error ["Flow lease ttl_seconds must be greater than zero"] in
  Ok tt.

(** ** The compare-and-swap check shared by the adapters *)

(** [validate_flow_replacement]. *)
Definition validate_flow_replacement (current replacement : FlowRunState) (expected : Z)
  : outcome unit :=
  raise_when negb (fr_revision current =? expected)
    as Exn FlowRevisionConflictError
         (fstr ["Flow Run '"; uuid_str (fr_run_id current); "' revision conflict: expected ";
                zstr expected; ", found "; zstr (fr_revision current)]) in
  raise_when negb (bool_decide (fr_run_id replacement = fr_run_id current))
    as value_error ["committed Flow Run changed its run_id"] in
  raise_when negb (fr_revision replacement =? expected + 1)
    as value_error ["committed Flow Run revision must be exactly one greater ";
                    "than expected_revision"] in
  raise_when negb (bool_decide (fr_definition_id replacement = fr_definition_id current))
             || negb (bool_decide (fr_definition_version replacement = fr_definition_version current))
             || negb (bool_decide (fr_definition_fingerprint replacement
                                   = fr_definition_fingerprint current))
             || negb (FlowBudget_eqb (fr_budget replacement) (fr_budget current))
             || negb (bool_decide (fr_deadline_at replacement = fr_deadline_at current))
             || negb (fr_created_at replacement =? fr_created_at current)
    as value_error ["committed Flow Run changed immutable identity"] in
  Ok tt.

(** ** The protocol *)

Class FlowRepository (W : Type) := {
  frepo_create : ambient -> FlowRunState -> list FlowEventDraft -> W ->
                 outcome (W * list RuntimeEvent);
  frepo_get : uuid -> W -> outcome FlowRunState;
  frepo_commit : ambient -> FlowRunState -> Z -> list FlowEventDraft -> option uuid -> W ->
                 outcome (W * list RuntimeEvent);
  frepo_append : ambient -> uuid -> Z -> list FlowEventDraft -> option uuid -> W ->
                 outcome (W * list RuntimeEvent);
  frepo_events : uuid -> W -> outcome (list RuntimeEvent);
}.

(** [es] are the events of [drafts], numbered from [start]. *)
Definition events_for (rid : uuid) (start : Z) (drafts : list FlowEventDraft)
  (es : list RuntimeEvent) : Prop :=
  map (fun e => (ev_run_id e, ev_sequence e)) es =
    map (fun k => (rid, k)) (seqZ start (Z.of_nat (length drafts))) /\
  map (fun e => mk_FlowEventDraft (ev_type e) (ev_data e)) es = drafts.

(** What a repository promises.  [view w rid] is the stored snapshot of a
    Run with its event log; a failed call changes nothing (its result holds
    no new state). *)
Class FlowRepositoryLaws (W : Type) `{FlowRepository W} := {
  view : W -> uuid -> option (FlowRunState * list RuntimeEvent);
  repo_wf : W -> Prop;
  may_write : W -> uuid -> option uuid -> time -> bool;
  law_get : forall w rid, repo_wf w ->
    frepo_get rid w = match view w rid with
                      | Some (s, _) => Ok s
                      | None => Raise (Exn FlowRunNotFoundError
                          (fstr ["Flow Run '"; uuid_str rid; "' was not found"]))
                      end;
  law_events : forall w rid es, repo_wf w ->
    frepo_events rid w = Ok es <-> exists s, view w rid = Some (s, es);
  law_create : forall amb s drafts w w' es, repo_wf w ->
    frepo_create amb s drafts w = Ok (w', es) ->
    repo_wf w' /\ fr_revision s = 1 /\ drafts <> [] /\ view w (fr_run_id s) = None /\
    view w' (fr_run_id s) = Some (s, es) /\ events_for (fr_run_id s) 1 drafts es /\
    (forall rid, rid <> fr_run_id s -> view w' rid = view w rid) /\
    (forall rid token t, may_write w' rid token t = may_write w rid token t);
  law_create_fresh : forall amb s drafts w, repo_wf w ->
    fr_revision s = 1 -> drafts <> [] -> view w (fr_run_id s) = None ->
    is_ok (frepo_create amb s drafts w);
  law_commit : forall amb s expected drafts token w w' es, repo_wf w ->
    frepo_commit amb s expected drafts token w = Ok (w', es) ->
    repo_wf w' /\ drafts <> [] /\
    exists current log, view w (fr_run_id s) = Some (current, log) /\
      validate_flow_replacement current s expected = Ok tt /\
      view w' (fr_run_id s) = Some (s, log ++ es) /\
      events_for (fr_run_id s) (Z.of_nat (length log) + 1) drafts es /\
      (forall rid, rid <> fr_run_id s -> view w' rid = view w rid) /\
      (forall rid token t, may_write w' rid token t = may_write w rid token t);
  law_commit_total : forall amb s expected drafts token w current log, repo_wf w ->
    view w (fr_run_id s) = Some (current, log) -> drafts <> [] ->
    validate_flow_replacement current s expected = Ok tt ->
    may_write w (fr_run_id s) token (amb_clock amb) = true ->
    is_ok (frepo_commit amb s expected drafts token w);
  law_append_total : forall amb rid drafts token w current log, repo_wf w ->
    view w rid = Some (current, log) -> drafts <> [] ->
    may_write w rid token (amb_clock amb) = true ->
    is_ok (frepo_append amb rid (fr_revision current) drafts token w);
  law_append : forall amb rid expected drafts token w w' es, repo_wf w ->
    frepo_append amb rid expected drafts token w = Ok (w', es) ->
    repo_wf w' /\ drafts <> [] /\
    exists current log, view w rid = Some (current, log) /\ fr_revision current = expected /\
      view w' rid = Some (current, log ++ es) /\
      events_for rid (Z.of_nat (length log) + 1) drafts es /\
      (forall rid', rid' <> rid -> view w' rid' = view w rid') /\
      (forall rid token t, may_write w' rid token t = may_write w rid token t);
}.

(** ** The in-memory repository *)

(** [_states], [_events] and [_leases]; a lease is paired with its
    [active] flag. *)
Record InMemoryFlowRepository := mk_InMemoryFlowRepository {
  fm_states : gmap uuid FlowRunState;
  fm_events : gmap uuid (list RuntimeEvent);
  fm_leases : gmap uuid (FlowExecutionLease * bool);
}.

Definition flow_repository_empty : InMemoryFlowRepository := mk_InMemoryFlowRepository ∅ ∅ ∅.

Definition flow_run_not_found (rid : uuid) : exn :=
  Exn FlowRunNotFoundError (fstr ["Flow Run '"; uuid_str rid; "' was not found"]).

(** [self._events[run_id]]. *)
Definition fm_log (rid : uuid) (w : InMemoryFlowRepository) : outcome (list RuntimeEvent) :=
  match fm_events w !! rid with
  | Some l => Ok l
  | None => Raise (Exn ExKeyError (uuid_str rid))
  end.

(** [self._states[run_id]], translated to [FlowRunNotFoundError]. *)
Definition fm_get (rid : uuid) (w : InMemoryFlowRepository) : outcome FlowRunState :=
  match fm_states w !! rid with
  | Some s => Ok s
  | None => Raise (flow_run_not_found rid)
  end.

Definition no_drafts (drafts : list FlowEventDraft) : bool :=
  match drafts with [] => true | _ => false end.

(** [create]. *)
Definition fm_create (amb : ambient) (s : FlowRunState) (drafts : list FlowEventDraft)
  (w : InMemoryFlowRepository) : outcome (InMemoryFlowRepository * list RuntimeEvent) :=
  raise_when negb (fr_revision s =? 1)
    as value_error ["a new Flow Run must start at revision 1"] in
  raise_when no_drafts drafts
    as value_error ["creating a Flow Run requires at least one event"] in
  raise_when bool_decide (is_Some (fm_states w !! fr_run_id s))
    as Exn FlowRunAlreadyExistsError
         (fstr ["Flow Run '"; uuid_str (fr_run_id s); "' already exists"]) in
  let! es := materialize_events amb (fr_run_id s) drafts 1 in
  Ok (mk_InMemoryFlowRepository (<[fr_run_id s := s]> (fm_states w))
        (<[fr_run_id s := es]> (fm_events w)) (fm_leases w), es).

(** [_validate_execution_token]. *)
Definition validate_execution_token (rid : uuid) (token : option uuid) (now : time)
  (w : InMemoryFlowRepository) : outcome unit :=
  match fm_leases w !! rid with
  | None =>
      raise_when negb (is_none token)
        as Exn FlowLeaseLostError (fstr ["Flow Run '"; uuid_str rid; "' has no execution lease"]) in
      Ok tt
  | Some (lease, active) =>
      raise_when is_none token || negb active
                 || negb (bool_decide (Some (lease_token lease) = token)) || is_expired now lease
        as Exn FlowLeaseLostError
             (fstr ["Flow execution lease for '"; uuid_str rid; "' is not valid"]) in
      Ok tt
  end.

(** [commit]. *)
Definition fm_commit (amb : ambient) (s : FlowRunState) (expected : Z)
  (drafts : list FlowEventDraft) (token : option uuid) (w : InMemoryFlowRepository)
  : outcome (InMemoryFlowRepository * list RuntimeEvent) :=
  raise_when no_drafts drafts
    as value_error ["committing a Flow Run requires at least one event"] in
  let! current := fm_get (fr_run_id s) w in
  let! _ := validate_execution_token (fr_run_id s) token (amb_clock amb) w in
  let! _ := validate_flow_replacement current s expected in
  let! log := fm_log (fr_run_id s) w in
  let! es := materialize_events amb (fr_run_id s) drafts (Z.of_nat (length log) + 1) in
  Ok (mk_InMemoryFlowRepository (<[fr_run_id s := s]> (fm_states w))
        (<[fr_run_id s := log ++ es]> (fm_events w)) (fm_leases w), es).

(** [events]. *)
Definition fm_list_events (rid : uuid) (w : InMemoryFlowRepository) : outcome (list RuntimeEvent) :=
  let! _ := fm_get rid w in
  fm_log rid w.

(** [append_events]. *)
Definition fm_append (amb : ambient) (rid : uuid) (expected : Z) (drafts : list FlowEventDraft)
  (token : option uuid) (w : InMemoryFlowRepository)
  : outcome (InMemoryFlowRepository * list RuntimeEvent) :=
  raise_when no_drafts drafts
    as value_error ["appending Flow events requires at least one event"] in
  let! current := fm_get rid w in
  let! _ := validate_execution_token rid token (amb_clock amb) w in
  raise_when negb (fr_revision current =? expected)
    as Exn FlowRevisionConflictError
         (fstr ["Flow Run '"; uuid_str rid; "' revision conflict: expected ";
                zstr expected; ", found "; zstr (fr_revision current)]) in
  let! log := fm_log rid w in
  let! es := materialize_events amb rid drafts (Z.of_nat (length log) + 1) in
  Ok (mk_InMemoryFlowRepository (fm_states w) (<[rid := log ++ es]> (fm_events w))
        (fm_leases w), es).

Definition fm_set_lease (rid : uuid) (lease : FlowExecutionLease) (active : bool)
  (w : InMemoryFlowRepository) : InMemoryFlowRepository :=
  mk_InMemoryFlowRepository (fm_states w) (fm_events w) (<[rid := (lease, active)]> (fm_leases w)).

(** [acquire_execution]. *)
Definition fm_acquire (amb : ambient) (rid : uuid) (owner_id : string) (ttl : seconds)
  (now : option time) (w : InMemoryFlowRepository)
  : outcome (InMemoryFlowRepository * FlowExecutionLease) :=
  let! _ := validate_lease_arguments owner_id ttl in
  let acquired_at := default (amb_clock amb) now in
  let! s := fm_get rid w in
  raise_when is_terminal_flow (fr_status s)
    as Exn FlowLeaseUnavailableError
         (fstr ["terminal Flow Run '"; uuid_str rid; "' cannot be claimed"]) in
  let prior := fm_leases w !! rid in
  raise_when match prior with
             | Some (l, active) => active && negb (is_expired acquired_at l)
             | None => false
             end
    as Exn FlowLeaseUnavailableError
         (fstr ["Flow Run '"; uuid_str rid; "' is leased by '";
                match prior with Some (l, _) => lease_owner_id l | None => "" end; "'"]) in
  let! lease := checked
    (FlowExecutionLease_fields
       (mk_FlowExecutionLease rid (amb_uuid amb 0) owner_id
          (match prior with Some (l, _) => lease_attempt l + 1 | None => 1 end)
          acquired_at acquired_at (acquired_at + timedelta ttl)))
    (fun _ => Ok tt)
    (mk_FlowExecutionLease rid (amb_uuid amb 0) owner_id
       (match prior with Some (l, _) => lease_attempt l + 1 | None => 1 end)
       acquired_at acquired_at (acquired_at + timedelta ttl)) in
  Ok (fm_set_lease rid lease true w, lease).

(** [_require_lease]. *)
Definition fm_require_lease (rid : uuid) (w : InMemoryFlowRepository)
  : outcome (FlowExecutionLease * bool) :=
  match fm_leases w !! rid with
  | Some p => Ok p
  | None => Raise (Exn FlowLeaseLostError
                     (fstr ["Flow Run '"; uuid_str rid; "' has no execution lease"]))
  end.

Definition lease_lost (rid : uuid) : exn :=
  Exn FlowLeaseLostError (fstr ["Flow execution lease for '"; uuid_str rid; "' was lost"]).

(** [renew_execution]. *)
Definition fm_renew (amb : ambient) (lease : FlowExecutionLease) (ttl : seconds)
  (now : option time) (w : InMemoryFlowRepository)
  : outcome (InMemoryFlowRepository * FlowExecutionLease) :=
  let! _ := validate_lease_arguments (lease_owner_id lease) ttl in
  let heartbeat_at := default (amb_clock amb) now in
  let! '(current, active) := fm_require_lease (lease_run_id lease) w in
  raise_when negb active || negb (bool_decide (lease_token current = lease_token lease))
             || is_expired heartbeat_at current
    as lease_lost (lease_run_id lease) in
  let renewed := mk_FlowExecutionLease (lease_run_id current) (lease_token current)
    (lease_owner_id current) (lease_attempt current) (lease_acquired_at current)
    heartbeat_at (heartbeat_at + timedelta ttl) in
  Ok (fm_set_lease (lease_run_id lease) renewed true w, renewed).

(** [release_execution]. *)
Definition fm_release (lease : FlowExecutionLease) (w : InMemoryFlowRepository)
  : outcome InMemoryFlowRepository :=
  let! '(current, active) := fm_require_lease (lease_run_id lease) w in
  raise_when negb (bool_decide (lease_token current = lease_token lease))
    as lease_lost (lease_run_id lease) in
  Ok (if active then fm_set_lease (lease_run_id lease) current false w else w).

#[export] Instance InMemory_FlowRepository : FlowRepository InMemoryFlowRepository := {
  frepo_create := fm_create;
  frepo_get := fm_get;
  frepo_commit := fm_commit;
  frepo_append := fm_append;
  frepo_events := fm_list_events;
}.

(** ** The implementation keeps the promises *)

Lemma materialize_from_spec amb drafts : forall k rid start,
  1 <= start ->
  exists es, materialize_from amb k rid start drafts = Ok es /\ events_for rid start drafts es.
Proof.
  induction drafts as [|d drafts IH]; intros k rid start Hs.
  - exists []. done.
  - destruct (IH (S k) rid (start + 1)) as (es & Hes & H1 & H2); [lia|]. simpl.
    unfold checked. rewrite (proj2 (Z.leb_le _ _)) by done. simpl. rewrite Hes.
    eexists. split; [done|]. split.
    + cbn [map]. rewrite H1. cbn [length].
      rewrite Nat2Z.inj_succ, (seqZ_cons start) by lia. cbn [map]. rewrite Z.pred_succ.
      by replace (Z.succ start) with (start + 1) by lia.
    + simpl. rewrite H2. by destruct d.
Qed.

Lemma materialize_events_spec amb rid drafts start :
  1 <= start ->
  exists es, materialize_events amb rid drafts start = Ok es /\ events_for rid start drafts es.
Proof. apply materialize_from_spec. Qed.

Lemma events_for_length rid start drafts es : events_for rid start drafts es -> length es = length drafts.
Proof. intros [_ <-]. by rewrite length_map. Qed.

Definition fm_view (w : InMemoryFlowRepository) (rid : uuid)
  : option (FlowRunState * list RuntimeEvent) :=
  match fm_states w !! rid, fm_events w !! rid with
  | Some s, Some l => Some (s, l)
  | _, _ => None
  end.

(** Snapshots and logs are stored together, each under its own id. *)
Definition fm_wf (w : InMemoryFlowRepository) : Prop :=
  forall rid, is_Some (fm_states w !! rid) <-> is_Some (fm_events w !! rid).

Lemma fm_wf_view w rid s :
  fm_wf w -> fm_states w !! rid = Some s ->
  exists l, fm_events w !! rid = Some l /\ fm_view w rid = Some (s, l).
Proof.
  intros Hw Hs. destruct (proj1 (Hw rid)) as [l Hl]; [by eexists|].
  exists l. split; [done|]. unfold fm_view. by rewrite Hs, Hl.
Qed.

Lemma fm_view_insert w rid s l leases rid' :
  fm_view (mk_InMemoryFlowRepository (<[rid := s]> (fm_states w)) (<[rid := l]> (fm_events w)) leases)
    rid' = if decide (rid = rid') then Some (s, l) else fm_view w rid'.
Proof. unfold fm_view. simpl. rewrite !lookup_insert. by case_decide. Qed.

Lemma fm_wf_insert w rid s l leases :
  fm_wf w ->
  fm_wf (mk_InMemoryFlowRepository (<[rid := s]> (fm_states w)) (<[rid := l]> (fm_events w)) leases).
Proof.
  intros Hw rid'. simpl. rewrite !lookup_insert. case_decide; [by split; intros _; eexists|].
  apply Hw.
Qed.

Lemma fm_create_spec amb s drafts w w' es :
  fm_wf w -> fm_create amb s drafts w = Ok (w', es) ->
  fm_wf w' /\ fr_revision s = 1 /\ drafts <> [] /\ fm_view w (fr_run_id s) = None /\
  fm_view w' (fr_run_id s) = Some (s, es) /\ events_for (fr_run_id s) 1 drafts es /\
  (forall rid, rid <> fr_run_id s -> fm_view w' rid = fm_view w rid) /\
  fm_leases w' = fm_leases w.
Proof.
  unfold fm_create. intros Hw Hc. destruct (fr_revision s =? 1) eqn:Hr; [|done]. simpl in Hc.
  destruct (no_drafts drafts) eqn:Hd; [done|]. case_bool_decide as Hex; [done|].
  destruct (materialize_events_spec amb (fr_run_id s) drafts 1) as (es' & Hes & Hf); [lia|].
  rewrite Hes in Hc. injection Hc as <- <-. reflect. split_and!; try done.
  - by apply fm_wf_insert.
  - by destruct drafts.
  - unfold fm_view. destruct (fm_states w !! fr_run_id s); [|done]. destruct Hex. by eexists.
  - by rewrite fm_view_insert, decide_True.
  - intros rid Hne. by rewrite fm_view_insert, decide_False.
Qed.

Lemma fm_commit_spec amb s expected drafts token w w' es :
  fm_wf w -> fm_commit amb s expected drafts token w = Ok (w', es) ->
  fm_wf w' /\ drafts <> [] /\
  validate_execution_token (fr_run_id s) token (amb_clock amb) w = Ok tt /\
  fm_leases w' = fm_leases w /\
  exists current log, fm_view w (fr_run_id s) = Some (current, log) /\
    validate_flow_replacement current s expected = Ok tt /\
    fm_view w' (fr_run_id s) = Some (s, log ++ es) /\
    events_for (fr_run_id s) (Z.of_nat (length log) + 1) drafts es /\
    (forall rid, rid <> fr_run_id s -> fm_view w' rid = fm_view w rid).
Proof.
  unfold fm_commit. intros Hw Hc. destruct (no_drafts drafts) eqn:Hd; [done|].
  unfold fm_get in Hc. destruct (fm_states w !! fr_run_id s) as [cur|] eqn:Hs; [|done].
  destruct (validate_execution_token _ _ _ _) as [[]|] eqn:Ht; [|done].
  destruct (validate_flow_replacement cur s expected) as [[]|] eqn:Hv; [|done].
  destruct (fm_wf_view _ _ _ Hw Hs) as (log & Hlog & Hview).
  unfold fm_log in Hc. rewrite Hlog in Hc.
  destruct (materialize_events_spec amb (fr_run_id s) drafts (Z.of_nat (length log) + 1))
    as (es' & Hes & Hf); [lia|].
  rewrite Hes in Hc. injection Hc as <- <-. split_and!; try done.
  - by apply fm_wf_insert.
  - by destruct drafts.
  - exists cur, log. split_and!; try done; [by rewrite fm_view_insert, decide_True|].
    intros rid Hne. by rewrite fm_view_insert, decide_False.
Qed.

Lemma fm_append_spec amb rid expected drafts token w w' es :
  fm_wf w -> fm_append amb rid expected drafts token w = Ok (w', es) ->
  fm_wf w' /\ drafts <> [] /\ validate_execution_token rid token (amb_clock amb) w = Ok tt /\
  fm_leases w' = fm_leases w /\
  exists current log, fm_view w rid = Some (current, log) /\ fr_revision current = expected /\
    fm_view w' rid = Some (current, log ++ es) /\
    events_for rid (Z.of_nat (length log) + 1) drafts es /\
    (forall rid', rid' <> rid -> fm_view w' rid' = fm_view w rid').
Proof.
  unfold fm_append. intros Hw Hc. destruct (no_drafts drafts) eqn:Hd; [done|].
  unfold fm_get in Hc. destruct (fm_states w !! rid) as [cur|] eqn:Hs; [|done].
  destruct (validate_execution_token _ _ _ _) as [[]|] eqn:Ht; [|done].
  destruct (fr_revision cur =? expected) eqn:Hv; [|done]. simpl in Hc.
  destruct (fm_wf_view _ _ _ Hw Hs) as (log & Hlog & Hview).
  unfold fm_log in Hc. rewrite Hlog in Hc.
  destruct (materialize_events_spec amb rid drafts (Z.of_nat (length log) + 1))
    as (es' & Hes & Hf); [lia|].
  rewrite Hes in Hc. injection Hc as <- <-. reflect.
  assert (forall rid', fm_view (mk_InMemoryFlowRepository (fm_states w)
            (<[rid := log ++ es']> (fm_events w)) (fm_leases w)) rid' =
          if decide (rid = rid') then Some (cur, log ++ es') else fm_view w rid') as Hvw.
  { intros rid'. unfold fm_view. simpl. rewrite lookup_insert. case_decide; [subst; by rewrite Hs|done]. }
  split_and!; try done.
  - intros rid'. simpl. rewrite lookup_insert. case_decide; [subst|apply Hw].
    split; intros _; by eexists.
  - by destruct drafts.
  - exists cur, log. split_and!; try done; [by rewrite Hvw, decide_True|].
    intros rid' Hne. by rewrite Hvw, decide_False.
Qed.

Definition fm_may_write (w : InMemoryFlowRepository) (rid : uuid) (token : option uuid) (t : time)
  : bool :=
  match validate_execution_token rid token t w with Ok _ => true | Raise _ => false end.

Lemma fm_may_write_leases w w' :
  fm_leases w' = fm_leases w ->
  forall rid token t, fm_may_write w' rid token t = fm_may_write w rid token t.
Proof. intros Hl rid token t. unfold fm_may_write, validate_execution_token. by rewrite Hl. Qed.

Lemma fm_view_Some w rid s l :
  fm_view w rid = Some (s, l) -> fm_states w !! rid = Some s /\ fm_events w !! rid = Some l.
Proof.
  unfold fm_view. destruct (fm_states w !! rid), (fm_events w !! rid); naive_solver.
Qed.

#[export, refine] Instance InMemory_FlowRepositoryLaws : FlowRepositoryLaws InMemoryFlowRepository := {
  view := fm_view;
  repo_wf := fm_wf;
  may_write := fm_may_write;
}.
Proof.
  - intros w rid Hw. simpl. unfold fm_get, fm_view. destruct (fm_states w !! rid) as [s|] eqn:Hs; [|done].
    destruct (fm_wf_view _ _ _ Hw Hs) as (l & -> & _). done.
  - intros w rid es Hw. simpl. unfold fm_list_events, fm_get, fm_log, fm_view.
    destruct (fm_states w !! rid) as [s|] eqn:Hs.
    + destruct (fm_wf_view _ _ _ Hw Hs) as (l & -> & _). naive_solver.
    + naive_solver.
  - intros amb s drafts w w' es Hw Hc.
    destruct (fm_create_spec _ _ _ _ _ _ Hw Hc) as (?&?&?&?&?&?&?&?).
    split_and!; try done. by apply fm_may_write_leases.
  - intros amb s drafts w Hw Hr Hd Hv. simpl. unfold fm_create. rewrite Hr. simpl.
    destruct (no_drafts drafts) eqn:Hn; [by destruct drafts|].
    case_bool_decide as Hex.
    + destruct Hex as [x Hx]. destruct (fm_wf_view _ _ _ Hw Hx) as (l & _ & Hview). congruence.
    + destruct (materialize_events_spec amb (fr_run_id s) drafts 1) as (es & -> & _); [lia|].
      by eexists.
  - intros amb s expected drafts token w w' es Hw Hc.
    destruct (fm_commit_spec _ _ _ _ _ _ _ _ Hw Hc) as (?&?&_&Hl&cur&log&?&?&?&?&?).
    split_and!; try done. exists cur, log. split_and!; try done. by apply fm_may_write_leases.
  - intros amb s expected drafts token w current log Hw Hv Hd Hr Hm. simpl. unfold fm_commit.
    destruct (no_drafts drafts) eqn:Hn; [by destruct drafts|].
    destruct (fm_view_Some _ _ _ _ Hv) as [Hs Hl]. unfold fm_get, fm_log, fm_may_write in *.
    rewrite Hs, Hl. destruct (validate_execution_token _ _ _ _); [|done]. rewrite Hr.
    destruct (materialize_events_spec amb (fr_run_id s) drafts (Z.of_nat (length log) + 1))
      as (es & -> & _); [lia|]. by eexists.
  - intros amb rid drafts token w current log Hw Hv Hd Hm. simpl. unfold fm_append.
    destruct (no_drafts drafts) eqn:Hn; [by destruct drafts|].
    destruct (fm_view_Some _ _ _ _ Hv) as [Hs Hl]. unfold fm_get, fm_log, fm_may_write in *.
    rewrite Hs, Hl. destruct (validate_execution_token _ _ _ _); [|done].
    rewrite Z.eqb_refl. simpl.
    destruct (materialize_events_spec amb rid drafts (Z.of_nat (length log) + 1))
      as (es & -> & _); [lia|]. by eexists.
  - intros amb rid expected drafts token w w' es Hw Hc.
    destruct (fm_append_spec _ _ _ _ _ _ _ _ Hw Hc) as (?&?&_&Hl&cur&log&?&?&?&?&?).
    split_and!; try done. exists cur, log. split_and!; try done. by apply fm_may_write_leases.
Defined.

(** ** Histories of calls *)

Inductive repo_call :=
  | CallCreate (amb : ambient) (s : FlowRunState) (drafts : list FlowEventDraft)
  | CallCommit (amb : ambient) (s : FlowRunState) (expected : Z)
      (drafts : list FlowEventDraft) (token : option uuid)
  | CallAppend (amb : ambient) (rid : uuid) (expected : Z)
      (drafts : list FlowEventDraft) (token : option uuid)
  | CallAcquire (amb : ambient) (rid : uuid) (owner_id : string) (ttl : seconds) (now : option time)
  | CallRenew (amb : ambient) (lease : FlowExecutionLease) (ttl : seconds) (now : option time)
  | CallRelease (lease : FlowExecutionLease).

(** The state after a call; a raising call changes nothing. *)
Definition fm_after (c : repo_call) (w : InMemoryFlowRepository) : InMemoryFlowRepository :=
  match c with
  | CallCreate amb s drafts => on_Ok (fm_create amb s drafts w) fst w
  | CallCommit amb s expected drafts token => on_Ok (fm_commit amb s expected drafts token w) fst w
  | CallAppend amb rid expected drafts token => on_Ok (fm_append amb rid expected drafts token w) fst w
  | CallAcquire amb rid owner ttl now => on_Ok (fm_acquire amb rid owner ttl now w) fst w
  | CallRenew amb lease ttl now => on_Ok (fm_renew amb lease ttl now w) fst w
  | CallRelease lease => on_Ok (fm_release lease w) id w
  end.

Definition fm_trace (cs : list repo_call) (w : InMemoryFlowRepository) : InMemoryFlowRepository :=
  fold_left (fun w c => fm_after c w) cs w.

(** The stored history of every Run: events are numbered from 1. *)
Definition fm_ok (w : InMemoryFlowRepository) : Prop :=
  fm_wf w /\
  forall rid s log, fm_view w rid = Some (s, log) ->
    fr_run_id s = rid /\
    map (fun e => (ev_run_id e, ev_sequence e)) log =
      map (fun k => (rid, k)) (seqZ 1 (Z.of_nat (length log))).

(** How one Run's stored pair may evolve: same identity, revisions only
    grow, the log only extends. *)
Definition pair_le (p q : FlowRunState * list RuntimeEvent) : Prop :=
  fr_run_id (fst q) = fr_run_id (fst p) /\
  fr_definition_fingerprint (fst q) = fr_definition_fingerprint (fst p) /\
  fr_created_at (fst q) = fr_created_at (fst p) /\
  fr_revision (fst p) <= fr_revision (fst q) /\
  (fr_revision (fst p) = fr_revision (fst q) -> fst p = fst q) /\
  snd p `prefix_of` snd q.

#[export] Instance pair_le_preorder : PreOrder pair_le.
Proof.
  split.
  - intros p. unfold pair_le. split_and!; done || lia.
  - intros p q r (a1&a2&a3&a4&a5&a6) (b1&b2&b3&b4&b5&b6). unfold pair_le.
    split_and!; try congruence; [lia| |by etrans].
    intros Heq. rewrite a5, b5; [done|lia|lia].
Qed.

Definition fm_le (w w' : InMemoryFlowRepository) : Prop :=
  forall rid p, fm_view w rid = Some p -> exists q, fm_view w' rid = Some q /\ pair_le p q.

#[export] Instance fm_le_preorder : PreOrder fm_le.
Proof.
  split.
  - intros w rid p Hp. by exists p.
  - intros w1 w2 w3 H1 H2 rid p Hp. destruct (H1 _ _ Hp) as (q & Hq & Hpq).
    destruct (H2 _ _ Hq) as (r & Hr & Hqr). exists r. split; [done|]. by etrans.
Qed.

Lemma validate_flow_replacement_Ok cur s expected :
  validate_flow_replacement cur s expected = Ok tt ->
  fr_revision cur = expected /\ fr_run_id s = fr_run_id cur /\
  fr_revision s = fr_revision cur + 1 /\
  fr_definition_fingerprint s = fr_definition_fingerprint cur /\
  fr_created_at s = fr_created_at cur.
Proof.
  unfold validate_flow_replacement. intros Hv.
  destruct (fr_revision cur =? expected) eqn:H1; [|done].
  destruct (bool_decide (fr_run_id s = _)) eqn:H2; [|done].
  destruct (fr_revision s =? _) eqn:H3; [|done]. simpl in Hv.
  destruct (bool_decide (fr_definition_fingerprint s = _)) eqn:H4;
    [|by rewrite !orb_true_r in Hv].
  destruct (fr_created_at s =? _) eqn:H5; [|by rewrite !orb_true_r in Hv].
  reflect. split_and!; congruence || lia || done.
Qed.

Lemma pair_le_extend s log es : pair_le (s, log) (s, log ++ es).
Proof. unfold pair_le. simpl. split_and!; done || lia || by eexists. Qed.

Lemma fm_view_leases states events leases leases' rid :
  fm_view (mk_InMemoryFlowRepository states events leases') rid =
  fm_view (mk_InMemoryFlowRepository states events leases) rid.
Proof. done. Qed.

(** Acquire, renew and release touch leases only. *)
Lemma fm_lease_call_view c w :
  match c with CallAcquire _ _ _ _ _ | CallRenew _ _ _ _ | CallRelease _ => True | _ => False end ->
  fm_states (fm_after c w) = fm_states w /\ fm_events (fm_after c w) = fm_events w.
Proof.
  destruct c; intros Hc; try done; simpl.
  - destruct (fm_acquire amb rid owner_id ttl now w) as [[w' l]|] eqn:E; [|done].
    unfold fm_acquire in E. raise_free E. done.
  - destruct (fm_renew amb lease ttl now w) as [[w' l]|] eqn:E; [|done].
    unfold fm_renew in E. raise_free E. done.
  - destruct (fm_release lease w) as [w'|] eqn:E; [|done].
    unfold fm_release in E. raise_free E; done.
Qed.

Lemma map_seqZ_app (rid : uuid) n m :
  0 <= n -> 0 <= m ->
  map (fun k => (rid, k)) (seqZ 1 n) ++ map (fun k => (rid, k)) (seqZ (n + 1) m) =
  map (fun k => (rid, k)) (seqZ 1 (n + m)).
Proof. intros. rewrite <-map_app, seqZ_app by lia. by rewrite Z.add_comm. Qed.

Lemma fm_after_ok c w : fm_ok w -> fm_ok (fm_after c w) /\ fm_le w (fm_after c w).
Proof.
  intros [Hw Hok]. destruct c.
  - simpl. destruct (fm_create amb s drafts w) as [[w' es]|] eqn:E; simpl; [|done].
    destruct (fm_create_spec _ _ _ _ _ _ Hw E) as (Hw' & _ & _ & Hn & Hv & Hf & Ho & _).
    split; [split; [done|]|].
    + intros rid s' log Hvw. destruct (decide (rid = fr_run_id s)) as [->|Hne].
      * rewrite Hv in Hvw. injection Hvw as <- <-. split; [done|].
        rewrite (events_for_length _ _ _ _ Hf). by destruct Hf.
      * rewrite Ho in Hvw by done. by apply Hok.
    + intros rid p Hp. exists p. split; [|done].
      rewrite Ho; [done|]. intros ->. congruence.
  - simpl. destruct (fm_commit amb s expected drafts token w) as [[w' es]|] eqn:E; simpl; [|done].
    destruct (fm_commit_spec _ _ _ _ _ _ _ _ Hw E)
      as (Hw' & _ & _ & _ & cur & log & Hv & Hr & Hv' & Hf & Ho).
    destruct (Hok _ _ _ Hv) as [Hid Hlog].
    apply validate_flow_replacement_Ok in Hr as (Hexp & Hrid & Hrev & Hfp & Hca).
    split; [split; [done|]|].
    + intros rid s' log' Hvw. destruct (decide (rid = fr_run_id s)) as [->|Hne].
      * rewrite Hv' in Hvw. injection Hvw as <- <-. split; [done|].
        rewrite map_app, Hlog, length_app, Nat2Z.inj_add, (proj1 Hf).
        rewrite <-(events_for_length _ _ _ _ Hf). apply map_seqZ_app; lia.
      * rewrite Ho in Hvw by done. by apply Hok.
    + intros rid p Hp. destruct (decide (rid = fr_run_id s)) as [->|Hne].
      * rewrite Hv in Hp. injection Hp as <-. eexists. split; [exact Hv'|].
        unfold pair_le. simpl. split_and!; try done; [lia|lia|by eexists].
      * exists p. rewrite Ho by done. done.
  - simpl. destruct (fm_append amb rid expected drafts token w) as [[w' es]|] eqn:E; simpl; [|done].
    destruct (fm_append_spec _ _ _ _ _ _ _ _ Hw E)
      as (Hw' & _ & _ & _ & cur & log & Hv & Hr & Hv' & Hf & Ho).
    destruct (Hok _ _ _ Hv) as [Hid Hlog]. split; [split; [done|]|].
    + intros rid' s' log' Hvw. destruct (decide (rid' = rid)) as [->|Hne].
      * rewrite Hv' in Hvw. injection Hvw as <- <-. split; [done|].
        rewrite map_app, Hlog, length_app, Nat2Z.inj_add, (proj1 Hf).
        rewrite <-(events_for_length _ _ _ _ Hf). apply map_seqZ_app; lia.
      * rewrite Ho in Hvw by done. by apply Hok.
    + intros rid' p Hp. destruct (decide (rid' = rid)) as [->|Hne].
      * rewrite Hv in Hp. injection Hp as <-. eexists. split; [exact Hv'|]. apply pair_le_extend.
      * exists p. rewrite Ho by done. done.
  - destruct (fm_lease_call_view (CallAcquire amb rid owner_id ttl now) w I) as [Hs He].
    unfold fm_ok, fm_wf, fm_le, fm_view in *. rewrite Hs, He. split; [done|]. by intros r p Hp; exists p.
  - destruct (fm_lease_call_view (CallRenew amb lease ttl now) w I) as [Hs He].
    unfold fm_ok, fm_wf, fm_le, fm_view in *. rewrite Hs, He. split; [done|]. by intros r p Hp; exists p.
  - destruct (fm_lease_call_view (CallRelease lease) w I) as [Hs He].
    unfold fm_ok, fm_wf, fm_le, fm_view in *. rewrite Hs, He. split; [done|]. by intros r p Hp; exists p.
Qed.

Lemma fm_trace_ok cs : forall w, fm_ok w -> fm_ok (fm_trace cs w) /\ fm_le w (fm_trace cs w).
Proof.
  induction cs as [|c cs IH]; intros w Hw; [done|].
  destruct (fm_after_ok c w Hw) as [H1 H2]. destruct (IH _ H1) as [H3 H4].
  split; [done|]. by etrans.
Qed.

Lemma fm_ok_empty : fm_ok flow_repository_empty.
Proof.
  split.
  - intros rid. simpl. rewrite !lookup_empty. by split; intros [? ?].
  - intros rid s log. unfold fm_view. simpl. by rewrite !lookup_empty.
Qed.

(** ** How calls move the lease table *)

Section LeaseSteps.
Variables (rid : uuid).

(** What a call may do to the lease entry of [rid]. *)
Inductive lease_step (c : repo_call) (w w' : InMemoryFlowRepository) : Prop :=
  | LeaseKept : fm_leases w' !! rid = fm_leases w !! rid -> lease_step c w w'
  | LeaseAcquired amb owner ttl now lease :
      c = CallAcquire amb rid owner ttl now ->
      fm_leases w' !! rid = Some (lease, true) -> lease_token lease = amb_uuid amb 0 ->
      lease_expires_at lease = default (amb_clock amb) now + timedelta ttl ->
      match fm_leases w !! rid with
      | Some (l, true) => lease_expires_at l <= default (amb_clock amb) now
      | _ => True
      end -> lease_step c w w'
  | LeaseRenewed amb l ttl now cur :
      c = CallRenew amb l ttl now -> lease_run_id l = rid ->
      fm_leases w !! rid = Some (cur, true) -> lease_token cur = lease_token l ->
      fm_leases w' !! rid = Some (mk_FlowExecutionLease (lease_run_id cur) (lease_token cur)
        (lease_owner_id cur) (lease_attempt cur) (lease_acquired_at cur)
        (default (amb_clock amb) now) (default (amb_clock amb) now + timedelta ttl), true) ->
      lease_step c w w'
  | LeaseReleased l cur :
      c = CallRelease l -> lease_run_id l = rid ->
      fm_leases w !! rid = Some (cur, true) -> lease_token cur = lease_token l ->
      fm_leases w' !! rid = Some (cur, false) -> lease_step c w w'.

Lemma fm_acquire_Ok amb r owner ttl now w w' l :
  fm_acquire amb r owner ttl now w = Ok (w', l) ->
  (exists s, fm_states w !! r = Some s /\ is_terminal_flow (fr_status s) = false) /\
  w' = fm_set_lease r l true w /\ lease_token l = amb_uuid amb 0 /\ lease_run_id l = r /\
  lease_expires_at l = default (amb_clock amb) now + timedelta ttl /\
  match fm_leases w !! r with
  | Some (l, true) => lease_expires_at l <= default (amb_clock amb) now
  | _ => True
  end.
Proof.
  unfold fm_acquire, fm_get. intros E.
  destruct (validate_lease_arguments owner ttl) as [[]|]; [|done].
  destruct (fm_states w !! r) as [s|]; [|done].
  destruct (is_terminal_flow (fr_status s)) eqn:Ht; [done|].
  destruct (match fm_leases w !! r with Some _ => _ | None => _ end) eqn:Hp; [done|].
  destruct (checked _ _ _) as [x|] eqn:Hc; [|done]. injection E as <- <-.
  apply checked_Ok in Hc as (_ & _ & ->). split_and!; try done; [by eexists|].
  destruct (fm_leases w !! r) as [[l []]|]; try done. unfold is_expired in Hp. simpl in Hp.
  by reflect.
Qed.

Lemma fm_after_lease c w : lease_step c w (fm_after c w).
Proof.
  destruct c; simpl.
  - apply LeaseKept. destruct (fm_create amb s drafts w) as [[w' es]|] eqn:E; [|done].
    unfold fm_create in E. raise_free E. done.
  - apply LeaseKept. destruct (fm_commit amb s expected drafts token w) as [[w' es]|] eqn:E; [|done].
    unfold fm_commit in E. destruct (no_drafts _); [done|].
    destruct (fm_get _ _); [|done]. destruct (validate_execution_token _ _ _ _); [|done].
    destruct (validate_flow_replacement _ _ _); [|done]. destruct (fm_log _ _); [|done].
    destruct (materialize_events _ _ _ _); [|done]. by injection E as <- <-.
  - apply LeaseKept. destruct (fm_append amb rid0 expected drafts token w) as [[w' es]|] eqn:E; [|done].
    unfold fm_append in E. destruct (no_drafts _); [done|].
    destruct (fm_get _ _); [|done]. destruct (validate_execution_token _ _ _ _); [|done].
    destruct (negb _); [done|]. destruct (fm_log _ _); [|done].
    destruct (materialize_events _ _ _ _); [|done]. by injection E as <- <-.
  - destruct (fm_acquire amb rid0 owner_id ttl now w) as [[w' l]|] eqn:E; [|by apply LeaseKept].
    apply fm_acquire_Ok in E as (_ & -> & Ht & _ & He & Hp). simpl.
    destruct (decide (rid0 = rid)) as [->|Hne].
    + eapply LeaseAcquired; [done| |done|done|done]. simpl. by rewrite lookup_insert_eq.
    + apply LeaseKept. simpl. by rewrite lookup_insert_ne.
  - destruct (fm_renew amb lease ttl now w) as [[w' l]|] eqn:E; [|by apply LeaseKept].
    unfold fm_renew, fm_require_lease in E.
    destruct (validate_lease_arguments _ _); [|done].
    destruct (fm_leases w !! lease_run_id lease) as [[cur active]|] eqn:Hl; [|done].
    destruct (negb active || _ || _) eqn:Hc; [done|]. injection E as <- <-. simpl. reflect.
    subst active. destruct (decide (lease_run_id lease = rid)) as [Heq|Hne].
    + eapply LeaseRenewed; [done|done| |done|]; [by rewrite <-Heq|].
      simpl. by rewrite Heq, lookup_insert_eq.
    + apply LeaseKept. simpl. by rewrite lookup_insert_ne.
  - destruct (fm_release lease w) as [w'|] eqn:E; [|by apply LeaseKept].
    unfold fm_release, fm_require_lease in E.
    destruct (fm_leases w !! lease_run_id lease) as [[cur active]|] eqn:Hl; [|done].
    case_bool_decide as Ht; [|done]. injection E as <-. unfold id.
    destruct active; [|by apply LeaseKept].
    destruct (decide (lease_run_id lease = rid)) as [Heq|Hne].
    + eapply LeaseReleased; [done|done|by rewrite <-Heq|done|].
      simpl. by rewrite Heq, lookup_insert_eq.
    + apply LeaseKept. simpl. by rewrite lookup_insert_ne.
Qed.

(** Calls whose [uuid4()] does not issue token [t] again. *)
Definition not_reissued (t : uuid) (c : repo_call) : Prop :=
  match c with CallAcquire amb _ _ _ _ => amb_uuid amb 0 <> t | _ => True end.

(** The lease of [rid] is (or was) held with a token other than [t]. *)
Definition superseded (t : uuid) (w : InMemoryFlowRepository) : Prop :=
  exists l active, fm_leases w !! rid = Some (l, active) /\ lease_token l <> t.

Lemma superseded_after t c w :
  not_reissued t c -> superseded t w -> superseded t (fm_after c w).
Proof.
  intros Hc (l & active & Hl & Ht).
  destruct (fm_after_lease c w) as [Hk|amb o ttl now l' -> Hl' Htk _ _|amb l' ttl now cur _ _ Hcur _ Hl'
                                   |l' cur _ _ Hcur _ Hl'].
  - exists l, active. by rewrite Hk.
  - exists l', true. split; [done|]. simpl in Hc. congruence.
  - eexists _, true. split; [exact Hl'|]. simpl. congruence.
  - exists cur, false. split; [done|]. congruence.
Qed.

Lemma superseded_trace t cs : forall w,
  Forall (not_reissued t) cs -> superseded t w -> superseded t (fm_trace cs w).
Proof.
  induction cs as [|c cs IH]; intros w Hcs Hw; [done|].
  apply Forall_cons in Hcs as [Hc Hcs]. apply IH; [done|]. by apply superseded_after.
Qed.

(** The lease [token] of [rid] is active at least until [deadline]. *)
Definition held (token : uuid) (deadline : time) (w : InMemoryFlowRepository) : Prop :=
  exists l, fm_leases w !! rid = Some (l, true) /\ lease_token l = token /\
    deadline <= lease_expires_at l.

(** Calls that do not give the lease up: no release of it, no renewal that
    shortens it, and competing claims made before its deadline. *)
Definition respects (token : uuid) (deadline : time) (c : repo_call) : Prop :=
  match c with
  | CallRelease l => ~ (lease_run_id l = rid /\ lease_token l = token)
  | CallRenew amb l ttl now =>
      lease_run_id l = rid -> lease_token l = token ->
      deadline <= default (amb_clock amb) now + timedelta ttl
  | CallAcquire amb r _ _ now => r = rid -> default (amb_clock amb) now < deadline
  | _ => True
  end.

Lemma held_trace token deadline cs : forall w,
  Forall (respects token deadline) cs -> held token deadline w ->
  held token deadline (fm_trace cs w).
Proof.
  induction cs as [|c cs IH]; intros w Hcs (l & Hl & Ht & Hd); [by exists l|].
  apply Forall_cons in Hcs as [Hc Hcs]. apply IH; [done|].
  destruct (fm_after_lease c w) as [Hk|amb o ttl now l' -> Hl' Htk _ Hp
                                   |amb l' ttl now cur -> Hr Hcur Htk Hl'
                                   |l' cur -> Hr Hcur Htk Hl'].
  - exists l. by rewrite Hk.
  - rewrite Hl in Hp. simpl in Hc. specialize (Hc eq_refl). lia.
  - rewrite Hl in Hcur. injection Hcur as <-. simpl in Hc.
    eexists. split; [exact Hl'|]. simpl. split; [done|]. apply Hc; congruence.
  - rewrite Hl in Hcur. injection Hcur as <-. exfalso. apply Hc. split; congruence.
Qed.
End LeaseSteps.

(** ** Properties *)

(** Flow histories only grow.  After any sequence of repository calls
    from the empty repository, every stored snapshot is filed under its own
    run id and its log is numbered 1, 2, ... without gaps; and after any
    further calls it is still there, with the same definition and creation
    time, a revision no smaller (the same snapshot when the revision is the
    same) and a log that extends the earlier one. *)
Theorem flow_repository_history cs cs' rid s log :
  fm_view (fm_trace cs flow_repository_empty) rid = Some (s, log) ->
  fr_run_id s = rid /\
  map ev_sequence log = seqZ 1 (Z.of_nat (length log)) /\
  exists s' log', fm_view (fm_trace cs' (fm_trace cs flow_repository_empty)) rid = Some (s', log') /\
    fr_definition_fingerprint s' = fr_definition_fingerprint s /\
    fr_created_at s' = fr_created_at s /\ fr_revision s <= fr_revision s' /\
    (fr_revision s = fr_revision s' -> s = s') /\ log `prefix_of` log'.
Proof.
  intros Hv. destruct (fm_trace_ok cs _ fm_ok_empty) as [Hok _].
  destruct (proj2 Hok _ _ _ Hv) as [Hid Hlog]. split; [done|]. split.
  - apply (f_equal (map snd)) in Hlog. rewrite !map_map in Hlog. simpl in Hlog.
    etrans; [exact Hlog|apply map_id].
  - destruct (fm_trace_ok cs' _ Hok) as [_ Hle].
    destruct (Hle _ _ Hv) as ([s' log'] & Hv' & _ & Hf & Hc & Hr & Hs & Hp).
    by exists s', log'.
Qed.

(** No lost update.  Once a commit expecting a revision has succeeded,
    whatever calls follow, no other commit or append expecting that same
    revision of the Run ever succeeds. *)
Theorem commit_compare_and_swap w amb s expected drafts token w1 es cs :
  fm_ok w -> fm_commit amb s expected drafts token w = Ok (w1, es) ->
  forall amb' s' drafts' token', fr_run_id s' = fr_run_id s ->
    ~ is_ok (fm_commit amb' s' expected drafts' token' (fm_trace cs w1)) /\
    ~ is_ok (fm_append amb' (fr_run_id s) expected drafts' token' (fm_trace cs w1)).
Proof.
  intros Hok Hc amb' s' drafts' token' Hrid.
  pose proof (fm_after_ok (CallCommit amb s expected drafts token) w Hok) as [Hok1 _].
  simpl in Hok1. rewrite Hc in Hok1. simpl in Hok1.
  destruct (fm_commit_spec _ _ _ _ _ _ _ _ (proj1 Hok) Hc)
    as (_ & _ & _ & _ & cur & log & Hv & Hr & Hv1 & _ & _).
  apply validate_flow_replacement_Ok in Hr as (Hexp & _ & Hrev & _).
  destruct (fm_trace_ok cs w1 Hok1) as [[Hwf2 _] Hle].
  destruct (Hle _ _ Hv1) as ([s2 log2] & Hv2 & _ & _ & _ & Hge & _). simpl in Hge.
  split.
  - intros [[w3 es3] Hc3].
    destruct (fm_commit_spec _ _ _ _ _ _ _ _ Hwf2 Hc3)
      as (_ & _ & _ & _ & cur3 & log3 & Hv3 & Hr3 & _).
    apply validate_flow_replacement_Ok in Hr3 as (Hexp3 & _).
    rewrite Hrid, Hv2 in Hv3. injection Hv3 as <- <-. lia.
  - intros [[w3 es3] Hc3].
    destruct (fm_append_spec _ _ _ _ _ _ _ _ Hwf2 Hc3)
      as (_ & _ & _ & _ & cur3 & log3 & Hv3 & Hr3 & _).
    rewrite Hv2 in Hv3. injection Hv3 as <- <-. lia.
Qed.

(** C38: fencing.  Once an execution lease with another token has been
    acquired on a Flow Run, whatever calls follow (their [uuid4()] tokens
    being new), a worker that presents the old token, or none, can neither
    commit nor append events nor renew: each raises [FlowLeaseLostError]. *)
Theorem lease_fencing w amb rid owner ttl now w1 lease cs t :
  fm_ok w -> fm_acquire amb rid owner ttl now w = Ok (w1, lease) ->
  lease_token lease <> t -> Forall (not_reissued t) cs ->
  let w2 := fm_trace cs w1 in
  (forall amb' s expected drafts token, fr_run_id s = rid -> drafts <> [] ->
     token = None \/ token = Some t ->
     (exists m, fm_commit amb' s expected drafts token w2 = Raise (Exn FlowLeaseLostError m)) /\
     (exists m, fm_append amb' rid expected drafts token w2 = Raise (Exn FlowLeaseLostError m))) /\
  (forall amb' l ttl' now', lease_run_id l = rid -> lease_token l = t ->
     ~ is_ok (fm_renew amb' l ttl' now' w2)).
Proof.
  intros Hok Hacq Ht Hcs w2.
  pose proof (fm_after_ok (CallAcquire amb rid owner ttl now) w Hok) as [Hok1 _].
  simpl in Hok1. rewrite Hacq in Hok1. simpl in Hok1.
  apply fm_acquire_Ok in Hacq as ((s0 & Hs0 & _) & -> & _).
  assert (superseded rid t w2) as (l & active & Hl & Htk).
  { apply superseded_trace; [done|]. exists lease, true. simpl. by rewrite lookup_insert_eq. }
  assert (exists s2, fm_states w2 !! rid = Some s2) as [s2 Hs2].
  { destruct (fm_wf_view _ _ _ (proj1 Hok1) Hs0) as (log & _ & Hv).
    destruct (fm_trace_ok cs _ Hok1) as [_ Hle]. destruct (Hle _ _ Hv) as (q & Hq & _).
    unfold fm_view in Hq. fold w2 in Hq. destruct (fm_states w2 !! rid) as [x|]; [by exists x|done]. }
  split.
  - intros amb' s expected drafts token <- Hd Htok.
    assert (forall now, exists m, validate_execution_token (fr_run_id s) token now w2
              = Raise (Exn FlowLeaseLostError m)) as Hbad.
    { intros n. unfold validate_execution_token. rewrite Hl.
      destruct Htok as [->| ->]; simpl; [by eexists|].
      rewrite bool_decide_eq_false_2 by congruence. rewrite orb_true_r. by eexists. }
    assert (no_drafts drafts = false) as Hnd by (by destruct drafts).
    unfold fm_commit, fm_append, fm_get. rewrite Hnd, Hs2.
    destruct (Hbad (amb_clock amb')) as [m ->]. split; by eexists.
  - intros amb' l' ttl' now' <- <- [[w3 l3] Hr]. unfold fm_renew, fm_require_lease in Hr.
    destruct (validate_lease_arguments _ _); [|done]. rewrite Hl in Hr.
    rewrite bool_decide_eq_false_2 in Hr by done. simpl in Hr. by rewrite orb_true_r in Hr.
Qed.

(** C37: leases exclude.  While an acquired lease was not released and not
    renewed to less than its first expiry, and the claims of others were made
    before that expiry: every other attempt to acquire the Run before it
    raises; the holder's token stays valid for commits until it; and no
    commit, append, renewal or release with another token, or a commit or
    append with none, succeeds. *)
Theorem lease_mutual_exclusion w amb rid owner ttl now w1 lease cs :
  fm_acquire amb rid owner ttl now w = Ok (w1, lease) ->
  Forall (respects rid (lease_token lease) (lease_expires_at lease)) cs ->
  let w2 := fm_trace cs w1 in
  (forall amb' owner' ttl' now', default (amb_clock amb') now' < lease_expires_at lease ->
     ~ is_ok (fm_acquire amb' rid owner' ttl' now' w2)) /\
  (forall t, t < lease_expires_at lease ->
     validate_execution_token rid (Some (lease_token lease)) t w2 = Ok tt) /\
  (forall amb' s expected drafts token', fr_run_id s = rid -> token' <> Some (lease_token lease) ->
     ~ is_ok (fm_commit amb' s expected drafts token' w2) /\
     ~ is_ok (fm_append amb' rid expected drafts token' w2)) /\
  (forall amb' lease' ttl' now', lease_run_id lease' = rid -> lease_token lease' <> lease_token lease ->
     ~ is_ok (fm_renew amb' lease' ttl' now' w2) /\ ~ is_ok (fm_release lease' w2)).
Proof.
  intros Hacq Hcs w2. apply fm_acquire_Ok in Hacq as (_ & -> & _).
  assert (held rid (lease_token lease) (lease_expires_at lease) w2) as (l & Hl & Ht & Hd).
  { apply held_trace; [done|]. exists lease. simpl. by rewrite lookup_insert_eq. }
  split_and!.
  - intros amb' owner' ttl' now' Hlt [[w3 l3] Hacq]. apply fm_acquire_Ok in Hacq as (_ & _ & _ & _ & _ & Hp).
    rewrite Hl in Hp. lia.
  - intros t Hlt. unfold validate_execution_token, is_expired. rewrite Hl, Ht. simpl.
    rewrite bool_decide_eq_true_2 by done. simpl. by rewrite (proj2 (Z.leb_gt _ _)) by lia.
  - intros amb' s expected drafts token' <- Hne.
    assert (forall t, ~ is_ok (validate_execution_token (fr_run_id s) token' t w2)) as Hbad.
    { intros t [[] Hv]. unfold validate_execution_token in Hv. rewrite Hl, Ht in Hv.
      rewrite bool_decide_eq_false_2 in Hv by congruence. by rewrite orb_true_r in Hv. }
    split; intros [[w3 es] Hc]; apply (Hbad (amb_clock amb')); unfold fm_commit, fm_append in Hc;
      (destruct (no_drafts drafts); [done|]); (destruct (fm_get _ _); [|done]);
      (destruct (validate_execution_token _ _ _ _); [by eexists|done]).
  - intros amb' lease' ttl' now' <- Hne. unfold fm_renew, fm_release, fm_require_lease. rewrite Hl.
    rewrite (bool_decide_eq_false_2 (lease_token l = lease_token lease')) by congruence.
    simpl. rewrite ?orb_true_r. simpl.
    split; [destruct (validate_lease_arguments _ _)|]; by intros [? ?].
Qed.

(** ** A concrete history *)

Definition example_draft : FlowEventDraft := mk_FlowEventDraft EV_FLOW_CREATED [].

Definition example_started : FlowRunState :=
  on_Ok (flow_start 1 example_created) id example_created.

Definition example_history : list repo_call :=
  [CallCreate example_flow_ambient example_created [example_draft];
   CallCommit example_flow_ambient example_started 1 [example_draft; example_draft] None].

Definition example_repo : InMemoryFlowRepository := fm_trace example_history flow_repository_empty.

Lemma example_repo_ok : fm_ok example_repo.
Proof. exact (proj1 (fm_trace_ok example_history _ fm_ok_empty)). Qed.

Definition example_log : list RuntimeEvent := default [] (fm_events example_repo !! 7%N).

Lemma flow_repository_history_witness :
  length example_log = 3%nat /\ map ev_sequence example_log = [1; 2; 3].
Proof.
  assert (fm_view example_repo 7%N = Some (example_started, example_log)) as Hv
    by (vm_compute; reflexivity).
  split; [vm_compute; reflexivity|].
  destruct (flow_repository_history example_history [] 7%N example_started example_log Hv)
    as (_ & Hseq & _).
  rewrite Hseq. vm_compute. reflexivity.
Defined.

Definition example_repo_created : InMemoryFlowRepository :=
  fm_trace (take 1 example_history) flow_repository_empty.

Definition commit_of (s : FlowRunState) (expected : Z) (w : InMemoryFlowRepository) :=
  on_Ok (fm_commit example_flow_ambient s expected [example_draft] None w) id (w, []).

Lemma commit_compare_and_swap_witness :
  ~ is_ok (fm_commit example_flow_ambient example_started 1 [example_draft] None
             (fst (commit_of example_started 1 example_repo_created))).
Proof.
  assert (fm_ok example_repo_created) as Hok
    by exact (proj1 (fm_trace_ok (take 1 example_history) _ fm_ok_empty)).
  assert (fm_commit example_flow_ambient example_started 1 [example_draft] None example_repo_created
          = Ok (commit_of example_started 1 example_repo_created)) as Hc by (vm_compute; reflexivity).
  destruct (commit_of example_started 1 example_repo_created) as [w1 es] eqn:E.
  exact (proj1 (commit_compare_and_swap example_repo_created example_flow_ambient example_started 1
                  [example_draft] None w1 es [] Hok Hc example_flow_ambient example_started
                  [example_draft] None eq_refl)).
Defined.

Definition acquire_of (amb : ambient) (now : time) (w : InMemoryFlowRepository) :=
  fm_acquire amb 7%N "worker" (30 # 1) (Some now) w.

Definition example_token_ambient (t : uuid) : ambient := Ambient 0 (fun _ => 0) (fun _ => t).

Lemma lease_fencing_witness :
  exists w1 lease m, acquire_of (example_token_ambient 5%N) 0 example_repo = Ok (w1, lease) /\
    fm_commit example_flow_ambient example_started 2 [example_draft] (Some 4%N) w1
      = Raise (Exn FlowLeaseLostError m).
Proof.
  assert (match acquire_of (example_token_ambient 5%N) 0 example_repo with
          | Ok (w1, lease) => lease_token lease = 5%N | Raise _ => False end) as Hx
    by (vm_compute; reflexivity).
  destruct (acquire_of (example_token_ambient 5%N) 0 example_repo) as [[w1 lease]|] eqn:E;
    [|destruct Hx].
  assert (lease_token lease <> 4%N) as Hne by (rewrite Hx; discriminate).
  assert (fr_run_id example_started = 7%N) as Hid by (vm_compute; reflexivity).
  destruct (lease_fencing example_repo (example_token_ambient 5%N) 7%N "worker" (30 # 1) (Some 0)
              w1 lease [] 4%N example_repo_ok E Hne (Forall_nil_2 _)) as [Hfence _].
  destruct (Hfence example_flow_ambient example_started 2 [example_draft] (Some 4%N) Hid
              ltac:(discriminate) (or_intror eq_refl)) as [[m Hm] _].
  exists w1, lease, m. split; [reflexivity|exact Hm].
Defined.

Lemma lease_mutual_exclusion_witness :
  exists w1 lease, acquire_of (example_token_ambient 5%N) 0 example_repo = Ok (w1, lease) /\
    ~ is_ok (fm_acquire (example_token_ambient 6%N) 7%N "other" (1 # 1) (Some 29999999) w1) /\
    ~ is_ok (fm_commit example_flow_ambient example_started 2 [example_draft] (Some 4%N) w1).
Proof.
  assert (match acquire_of (example_token_ambient 5%N) 0 example_repo with
          | Ok (w1, lease) => lease_expires_at lease = 30000000 /\ lease_token lease = 5%N
          | Raise _ => False end) as Hx by (vm_compute; split; reflexivity).
  destruct (acquire_of (example_token_ambient 5%N) 0 example_repo) as [[w1 lease]|] eqn:E;
    [|destruct Hx]. destruct Hx as [Hexp Htok].
  exists w1, lease. split; [reflexivity|].
  assert (fr_run_id example_started = 7%N) as Hid by (vm_compute; reflexivity).
  destruct (lease_mutual_exclusion example_repo (example_token_ambient 5%N) 7%N "worker" (30 # 1)
              (Some 0) w1 lease [] E (Forall_nil_2 _)) as (Hexcl & _ & Hcommit & _).
  split.
  - apply Hexcl. rewrite Hexp. reflexivity.
  - assert (Some 4%N <> Some (lease_token lease)) as Hne by (rewrite Htok; discriminate).
    exact (proj1 (Hcommit example_flow_ambient example_started 2 [example_draft] (Some 4%N) Hid Hne)).
Defined.
