(* ===== verification/FlowService.v ===== *)
(** * The Flow lifecycle service ([src/base_agent/flows/service.py])

    [FlowLifecycle] reads a snapshot, applies one transition of the
    aggregate and commits the result with the events that describe it, in one
    repository call.  The section is parametric in the repository; with the
    in-memory repository a service call contains no suspension point, so it
    is one atomic step. *)

From Stdlib Require Import QArith.
From stdpp Require Import base gmap strings list.
From S2P Require Import Prelude Json Models Sha256 Plan Serial FlowModels FlowLifecycle FlowRepository.

(** ** Event vocabulary *)

(** [_INVOCATION_RESULT_EVENTS]. *)
Definition invocation_result_event (s : AgentResultStatus) : EventType :=
  match s with
  | R_COMPLETED => EV_AGENT_INVOCATION_COMPLETED
  | R_FAILED => EV_AGENT_INVOCATION_FAILED
  | R_CANCELLED => EV_AGENT_INVOCATION_CANCELLED
  | R_INTERRUPTED => EV_AGENT_INVOCATION_INTERRUPTED
  | R_LIMIT_REACHED => EV_AGENT_INVOCATION_LIMIT_REACHED
  | R_WAITING => EV_AGENT_INVOCATION_WAITING
  end.

Definition status_key_error (s : RunStatus) : exn := Exn ExKeyError (RunStatus_value s).

(** [_FLOW_TERMINAL_EVENTS[status]]. *)
Definition flow_terminal_event (s : RunStatus) : outcome EventType :=
  match s with
  | FAILED => Ok EV_FLOW_FAILED
  | CANCELLED => Ok EV_FLOW_CANCELLED
  | INTERRUPTED => Ok EV_FLOW_INTERRUPTED
  | LIMIT_REACHED => Ok EV_FLOW_LIMIT_REACHED
  | _ => Raise (status_key_error s)
  end.

(** [_INVOCATION_TERMINAL_EVENTS[status]]. *)
Definition invocation_terminal_event (s : RunStatus) : outcome EventType :=
  match s with
  | FAILED => Ok EV_AGENT_INVOCATION_FAILED
  | CANCELLED => Ok EV_AGENT_INVOCATION_CANCELLED
  | INTERRUPTED => Ok EV_AGENT_INVOCATION_INTERRUPTED
  | LIMIT_REACHED => Ok EV_AGENT_INVOCATION_LIMIT_REACHED
  | _ => Raise (status_key_error s)
  end.

(** [_invocation_data]. *)
Definition invocation_data (i : AgentInvocation) : jdict :=
  [("invocation_id", JStr (uuid_str (inv_id i)));
   ("invocation_sequence", JInt (inv_sequence i));
   ("agent_key", JStr (inv_agent_key i));
   ("definition_id", JStr (inv_definition_id i));
   ("definition_version", JStr (inv_definition_version i));
   ("definition_fingerprint", JStr (inv_definition_fingerprint i))].

(** ** The service *)

Section Service.
Context `{FloatRepr} {W : Type} `{FlowRepository W}.

(** [self._execution_lease]. *)
Variable execution_lease : option FlowExecutionLease.

(** [_execution_token_for]. *)
Definition execution_token_for (rid : uuid) : outcome (option uuid) :=
  match execution_lease with
  | None => Ok None
  | Some l =>
      raise_when negb (bool_decide (lease_run_id l = rid))
        as value_error ["execution lease belongs to Flow Run '"; uuid_str (lease_run_id l);
                        "', not '"; uuid_str rid; "'"] in
      Ok (Some (lease_token l))
  end.

(** [repository.commit(state, expected_revision=current.revision, ...)],
    returning [state]. *)
Definition svc_commit (amb : ambient) (current state : FlowRunState)
  (drafts : list FlowEventDraft) (rid : uuid) (w : W) : outcome (W * FlowRunState) :=
  let! token := execution_token_for rid in
  let! '(w', _) := frepo_commit amb state (fr_revision current) drafts token w in
  Ok (w', state).

(** [create]. *)
Definition svc_create (amb : ambient) (d : FlowDefinition) (run_id : option uuid)
  (now : option time) (w : W) : outcome (W * FlowRunState) :=
  let! s := flow_create amb d run_id now in
  let! '(w', _) := frepo_create (later amb) s
    [mk_FlowEventDraft EV_FLOW_CREATED
       [("definition_id", JStr (fr_definition_id s));
        ("definition_version", JStr (fr_definition_version s));
        ("definition_fingerprint", JStr (fr_definition_fingerprint s));
        ("budget", FlowBudget_dump (fr_budget s));
        ("deadline_at", json_opt (fun t => JStr (isoformat t)) (fr_deadline_at s));
        ("revision", JInt (fr_revision s))]] w in
  Ok (w', s).

(** [get]. *)
Definition svc_get (rid : uuid) (w : W) : outcome FlowRunState := frepo_get rid w.

(** [record_cancellation_propagation_failure]. *)
Definition svc_record_cancellation_failure (amb : ambient) (rid : uuid) (i : AgentInvocation)
  (error_type : string) (w : W) : outcome W :=
  let! current := frepo_get rid w in
  let! token := execution_token_for rid in
  let! '(w', _) := frepo_append amb rid (fr_revision current)
    [mk_FlowEventDraft EV_AGENT_INVOCATION_CANCELLATION_PROPAGATION_FAILED
       (dmerge (invocation_data i)
          [("flow_status", JStr (RunStatus_value (fr_status current)));
           ("error_type", JStr error_type);
           ("revision", JInt (fr_revision current))])] token w in
  Ok w'.

(** [start]. *)
Definition svc_start (amb : ambient) (rid : uuid) (w : W) : outcome (W * FlowRunState) :=
  let! current := frepo_get rid w in
  let! s := flow_start (amb_now amb 0) current in
  svc_commit (later amb) current s
    [mk_FlowEventDraft EV_FLOW_STARTED [("revision", JInt (fr_revision s))]] (fr_run_id s) w.

(** [begin_invocation]. *)
Definition svc_begin (amb : ambient) (rid : uuid) (r : AgentInvocationRequest)
  (d : FlowDefinition) (w : W) : outcome (W * FlowRunState) :=
  let! current := frepo_get rid w in
  let! s := flow_begin amb d r current in
  match active_invocation s with
  | None => Raise assertion_error
  | Some i =>
      svc_commit (later amb) current s
        [mk_FlowEventDraft EV_AGENT_INVOCATION_STARTED
           (dmerge (invocation_data i) [("revision", JInt (fr_revision s))])] (fr_run_id s) w
  end.

(** [settle_invocation]. *)
Definition svc_settle (amb : ambient) (rid : uuid) (r : AgentInvocationResult) (w : W)
  : outcome (W * FlowRunState) :=
  let! current := frepo_get rid w in
  let! s := flow_settle amb r current in
  match last (fr_invocations s) with
  | None => Raise (Exn ExLookupError "tuple index out of range")
  | Some i =>
      svc_commit (later amb) current s
        (mk_FlowEventDraft (invocation_result_event (ir_status r))
           (dmerge (invocation_data i)
              [("revision", JInt (fr_revision s));
               ("input_tokens", JInt (input_tokens (ir_usage r)));
               ("output_tokens", JInt (output_tokens (ir_usage r)));
               ("artifact_count", JInt (Z.of_nat (length (ir_artifacts r))))])
         :: if bool_decide (ir_status r = R_WAITING) then
              [mk_FlowEventDraft EV_FLOW_WAITING
                 [("invocation_id", JStr (uuid_str (inv_id i)));
                  ("revision", JInt (fr_revision s))]]
            else [])
        rid w
  end.

(** [resume_invocation]. *)
Definition svc_resume (amb : ambient) (rid invocation_id : uuid) (w : W)
  : outcome (W * FlowRunState) :=
  let! current := frepo_get rid w in
  let! s := flow_resume amb invocation_id current in
  match active_invocation s with
  | None => Raise assertion_error
  | Some i =>
      svc_commit (later amb) current s
        [mk_FlowEventDraft EV_AGENT_INVOCATION_RESUMED
           (dmerge (invocation_data i) [("revision", JInt (fr_revision s))]);
         mk_FlowEventDraft EV_FLOW_RESUMED
           [("invocation_id", JStr (uuid_str (inv_id i)));
            ("revision", JInt (fr_revision s))]]
        rid w
  end.

(** [complete]. *)
Definition svc_complete (amb : ambient) (rid : uuid) (output : string) (w : W)
  : outcome (W * FlowRunState) :=
  let! current := frepo_get rid w in
  let! s := flow_complete (amb_now amb 0) output current in
  let! usage := flow_usage s in
  svc_commit (later amb) current s
    [mk_FlowEventDraft EV_FLOW_COMPLETED
       [("revision", JInt (fr_revision s));
        ("invocation_count", JInt (Z.of_nat (length (fr_invocations s))));
        ("input_tokens", JInt (input_tokens usage));
        ("output_tokens", JInt (output_tokens usage));
        ("model_calls", JInt (model_call_count s));
        ("tool_calls", JInt (tool_call_count s))]] (fr_run_id s) w.

(** [_terminate]. *)
Definition svc_terminate (amb : ambient) (rid : uuid) (status : RunStatus) (error : string)
  (event_metadata : jdict) (w : W) : outcome (W * FlowRunState) :=
  let! current := frepo_get rid w in
  let! s := match status with
            | FAILED => flow_fail amb error current
            | CANCELLED => flow_cancel amb error current
            | INTERRUPTED => flow_interrupt amb error current
            | _ => flow_reach_limit amb error current
            end in
  let! first :=
    match active_invocation current with
    | None => Ok []
    | Some active =>
        match List.find (fun i => bool_decide (inv_id i = inv_id active)) (fr_invocations s) with
        | None => Raise (Exn ExRuntimeError "coroutine raised StopIteration")
        | Some terminated =>
            let! ty := invocation_terminal_event status in
            Ok [mk_FlowEventDraft ty
                  (dmerge (invocation_data terminated) [("revision", JInt (fr_revision s))])]
        end
    end in
  let! ty := flow_terminal_event status in
  svc_commit (later amb) current s
    (first ++ [mk_FlowEventDraft ty
       (dmerge [("revision", JInt (fr_revision s));
                ("invocation_count", JInt (Z.of_nat (length (fr_invocations s))))]
          event_metadata)])
    rid w.

(** [fail], [cancel], [interrupt], [reach_limit]. *)
Definition svc_fail (amb : ambient) (rid : uuid) (error : string) :=
  svc_terminate amb rid FAILED error [].
Definition svc_cancel (amb : ambient) (rid : uuid) (error : string) :=
  svc_terminate amb rid CANCELLED error [].
Definition svc_interrupt (amb : ambient) (rid : uuid) (error : string) :=
  svc_terminate amb rid INTERRUPTED error [].
Definition svc_reach_limit (amb : ambient) (rid : uuid) (error : string) (metadata : jdict) :=
  svc_terminate amb rid LIMIT_REACHED error metadata.
End Service.

(** ** The service implements the aggregate *)

Inductive svc_call :=
  | SvcStart (amb : ambient)
  | SvcBegin (amb : ambient) (r : AgentInvocationRequest) (d : FlowDefinition)
  | SvcSettle (amb : ambient) (r : AgentInvocationResult)
  | SvcResume (amb : ambient) (invocation_id : uuid)
  | SvcComplete (amb : ambient) (output : string)
  | SvcFail (amb : ambient) (error : string)
  | SvcCancel (amb : ambient) (error : string)
  | SvcInterrupt (amb : ambient) (error : string)
  | SvcReachLimit (amb : ambient) (error : string) (metadata : jdict).

(** The transition of the aggregate a call stands for. *)
Definition svc_op (c : svc_call) : flow_op :=
  match c with
  | SvcStart amb => OpStart (amb_now amb 0)
  | SvcBegin amb r d => OpBegin amb d r
  | SvcSettle amb r => OpSettle amb r
  | SvcResume amb id => OpResume amb id
  | SvcComplete amb output => OpComplete (amb_now amb 0) output
  | SvcFail amb e => OpFail amb e
  | SvcCancel amb e => OpCancel amb e
  | SvcInterrupt amb e => OpInterrupt amb e
  | SvcReachLimit amb e _ => OpReachLimit amb e
  end.

Definition svc_amb (c : svc_call) : ambient :=
  match c with
  | SvcStart amb | SvcBegin amb _ _ | SvcSettle amb _ | SvcResume amb _ | SvcComplete amb _
  | SvcFail amb _ | SvcCancel amb _ | SvcInterrupt amb _ | SvcReachLimit amb _ _ => amb
  end.

(** The event types a call appends to the log of a Flow in state [s]. *)
Definition terminal_events (flow_event inv_event : EventType) (s : FlowRunState) : list EventType :=
  (if is_none (active_invocation s) then [] else [inv_event]) ++ [flow_event].

Definition svc_events (c : svc_call) (s : FlowRunState) : list EventType :=
  match c with
  | SvcStart _ => [EV_FLOW_STARTED]
  | SvcBegin _ _ _ => [EV_AGENT_INVOCATION_STARTED]
  | SvcSettle _ r =>
      invocation_result_event (ir_status r)
      :: (if bool_decide (ir_status r = R_WAITING) then [EV_FLOW_WAITING] else [])
  | SvcResume _ _ => [EV_AGENT_INVOCATION_RESUMED; EV_FLOW_RESUMED]
  | SvcComplete _ _ => [EV_FLOW_COMPLETED]
  | SvcFail _ _ => terminal_events EV_FLOW_FAILED EV_AGENT_INVOCATION_FAILED s
  | SvcCancel _ _ => terminal_events EV_FLOW_CANCELLED EV_AGENT_INVOCATION_CANCELLED s
  | SvcInterrupt _ _ => terminal_events EV_FLOW_INTERRUPTED EV_AGENT_INVOCATION_INTERRUPTED s
  | SvcReachLimit _ _ _ => terminal_events EV_FLOW_LIMIT_REACHED EV_AGENT_INVOCATION_LIMIT_REACHED s
  end.

(** A transition is a replacement the repository accepts. *)
Lemma step_replacement_ok s s' :
  step_facts s s' -> validate_flow_replacement s s' (fr_revision s) = Ok tt.
Proof.
  intros (Hr & (H1 & H2 & H3 & H4 & H5 & H6 & H7) & _). unfold validate_flow_replacement.
  rewrite Z.eqb_refl, H1, H2, H3, H4, H5, H6, H7, Hr, !Z.eqb_refl, !bool_decide_eq_true_2 by done.
  by rewrite FlowBudget_eqb_refl.
Qed.

Section Refinement.
Context `{FloatRepr} {W : Type} `{FlowRepositoryLaws W}.

Definition svc_exec (lease : option FlowExecutionLease) (rid : uuid) (c : svc_call) (w : W)
  : outcome (W * FlowRunState) :=
  match c with
  | SvcStart amb => svc_start lease amb rid w
  | SvcBegin amb r d => svc_begin lease amb rid r d w
  | SvcSettle amb r => svc_settle lease amb rid r w
  | SvcResume amb id => svc_resume lease amb rid id w
  | SvcComplete amb output => svc_complete lease amb rid output w
  | SvcFail amb e => svc_fail lease amb rid e w
  | SvcCancel amb e => svc_cancel lease amb rid e w
  | SvcInterrupt amb e => svc_interrupt lease amb rid e w
  | SvcReachLimit amb e md => svc_reach_limit lease amb rid e md w
  end.

Lemma get_view w rid s log : repo_wf w -> view w rid = Some (s, log) -> frepo_get rid w = Ok s.
Proof. intros Hw Hv. rewrite law_get by done. by rewrite Hv. Qed.

Lemma get_Ok w rid s : repo_wf w -> frepo_get rid w = Ok s -> exists log, view w rid = Some (s, log).
Proof.
  intros Hw. rewrite law_get by done. destruct (view w rid) as [[s' log]|]; [|done].
  intros [= ->]. by exists log.
Qed.

(** What one commit of the service does to the repository. *)
Definition committed (w w' : W) (rid : uuid) (s' : FlowRunState) (log : list RuntimeEvent)
  (types : list EventType) : Prop :=
  repo_wf w' /\
  (exists es, view w' rid = Some (s', log ++ es) /\ map ev_type es = types /\
     map (fun e => (ev_run_id e, ev_sequence e)) es =
       map (fun k => (rid, k)) (seqZ (Z.of_nat (length log) + 1) (Z.of_nat (length types)))) /\
  (forall rid', rid' <> rid -> view w' rid' = view w rid') /\
  (forall rid' token t, may_write w' rid' token t = may_write w rid' token t).

Lemma events_for_types rid start drafts es :
  events_for rid start drafts es -> map ev_type es = map fed_type drafts.
Proof. intros [_ <-]. by rewrite map_map. Qed.

Lemma svc_commit_Ok lease amb cur s drafts rid w w' s' log :
  repo_wf w -> view w rid = Some (cur, log) -> fr_run_id s = rid ->
  svc_commit lease amb cur s drafts rid w = Ok (w', s') ->
  s' = s /\ committed w w' rid s log (map fed_type drafts).
Proof.
  unfold svc_commit. intros Hw Hv Hrid Hc.
  destruct (execution_token_for lease rid) as [token|]; [|done].
  destruct (frepo_commit _ _ _ _ _ _) as [[w1 es]|] eqn:E; [|done]. injection Hc as <- <-.
  destruct (law_commit _ _ _ _ _ _ _ _ Hw E) as (Hw' & _ & cur' & log' & Hv' & _ & Hn & Hf & Ho & Hm).
  rewrite Hrid in *. rewrite Hv in Hv'. injection Hv' as <- <-. split; [done|].
  split_and!; try done. exists es. split_and!; [done|by eapply events_for_types|].
  rewrite (proj1 Hf). by rewrite length_map.
Qed.

Lemma find_terminated l i i' :
  inv_id i' = inv_id i -> Forall (fun j => inv_id j <> inv_id i) l ->
  List.find (fun j => bool_decide (inv_id j = inv_id i)) (l ++ [i']) = Some i'.
Proof.
  intros Hid Hl. induction Hl as [|j l Hj Hl IH]; simpl; [by rewrite Hid, bool_decide_eq_true_2|].
  by rewrite bool_decide_eq_false_2.
Qed.

(** The terminated invocation is found again in the next state. *)
Lemma terminated_found amb st e s s' i :
  flow_inv s -> flow_terminate amb st e s = Ok s' -> active_invocation s = Some i ->
  exists j, List.find (fun j => bool_decide (inv_id j = inv_id i)) (fr_invocations s') = Some j.
Proof.
  intros Hs Ht Ha. unfold flow_terminate in Ht.
  destruct (is_terminal_flow _); [done|]. destruct (blank e); [done|].
  destruct (active_spec s Hs) as [(_ & Hn & _)|(l & i0 & Hl & Hid & Ha' & _)]; [congruence|].
  rewrite Ha in Ha'. injection Ha' as <-. rewrite Ha in Ht.
  destruct (inv_terminate _ i st e) as [i'|] eqn:E; [|done]. injection Ht as <-. simpl.
  assert (inv_id i' = inv_id i) as Hi'.
  { unfold inv_terminate in E. raise_free E. done. }
  rewrite Hl, replace_last by first [done | exact (ids_before_last _ _ _ Hs Hl)].
  exists i'. apply find_terminated; [done|exact (ids_before_last _ _ _ Hs Hl)].
Qed.

Lemma svc_terminate_Ok lease amb rid st e md w w' s s' log fe ie :
  repo_wf w -> view w rid = Some (s, log) -> fr_run_id s = rid -> flow_inv s ->
  is_error_status st = true ->
  flow_terminal_event st = Ok fe -> invocation_terminal_event st = Ok ie ->
  svc_terminate lease amb rid st e md w = Ok (w', s') ->
  flow_terminate amb st e s = Ok s' /\ committed w w' rid s' log (terminal_events fe ie s).
Proof.
  unfold svc_terminate. intros Hw Hv Hrid Hs Hst Hfe Hie. rewrite (get_view _ _ _ _ Hw Hv).
  assert (match st with
          | FAILED => flow_fail amb e s | CANCELLED => flow_cancel amb e s
          | INTERRUPTED => flow_interrupt amb e s | _ => flow_reach_limit amb e s
          end = flow_terminate amb st e s) as -> by (by destruct st).
  destruct (flow_terminate amb st e s) as [s1|] eqn:Ht; [|done]. rewrite Hfe, Hie.
  destruct (flow_terminate_inv _ _ _ _ _ Hs Hst Ht) as [Hs1 (_ & (Hid & _) & _)].
  unfold terminal_events. destruct (active_invocation s) as [i|] eqn:Ha.
  - destruct (terminated_found _ _ _ _ _ _ Hs Ht Ha) as [j ->]. simpl. intros Hc.
    apply svc_commit_Ok with (log := log) in Hc as [-> Hc]; [|done|done|congruence]. done.
  - simpl. intros Hc. apply svc_commit_Ok with (log := log) in Hc as [-> Hc]; [|done|done|congruence].
    done.
Qed.

Lemma svc_exec_Ok lease rid c w w' s s' log :
  repo_wf w -> view w rid = Some (s, log) -> fr_run_id s = rid -> flow_inv s ->
  op_ok (svc_op c) s -> svc_exec lease rid c w = Ok (w', s') ->
  flow_apply (svc_op c) s = Ok s' /\ committed w w' rid s' log (svc_events c s).
Proof.
  intros Hw Hv Hrid Hs Hop Hx.
  destruct c; simpl in *;
    try (eapply svc_terminate_Ok; [..|exact Hx]; done).
  - unfold svc_start in Hx. rewrite (get_view _ _ _ _ Hw Hv) in Hx.
    destruct (flow_start _ s) as [s1|] eqn:E; [|done].
    destruct (flow_apply_inv (OpStart (amb_now amb 0)) s s1 Hs I E) as [_ (_ & (Hid & _) & _)].
    rewrite Hid, Hrid in Hx.
    apply svc_commit_Ok with (log := log) in Hx as [-> Hc]; [done|done|done|congruence].
  - unfold svc_begin in Hx. rewrite (get_view _ _ _ _ Hw Hv) in Hx.
    destruct (flow_begin amb d r s) as [s1|] eqn:E; [|done].
    destruct (flow_apply_inv (OpBegin amb d r) s s1 Hs Hop E) as [_ (_ & (Hid & _) & _)].
    destruct (active_invocation s1); [|done]. rewrite Hid, Hrid in Hx.
    apply svc_commit_Ok with (log := log) in Hx as [-> Hc]; [done|done|done|congruence].
  - unfold svc_settle in Hx. rewrite (get_view _ _ _ _ Hw Hv) in Hx.
    destruct (flow_settle amb r s) as [s1|] eqn:E; [|done].
    destruct (flow_apply_inv (OpSettle amb r) s s1 Hs Hop E) as [_ (_ & (Hid & _) & _)].
    destruct (last _); [|done].
    apply svc_commit_Ok with (log := log) in Hx as [-> Hc]; [|done|done|congruence].
    split; [done|]. simpl in Hc. by destruct (bool_decide (ir_status r = R_WAITING)).
  - unfold svc_resume in Hx. rewrite (get_view _ _ _ _ Hw Hv) in Hx.
    destruct (flow_resume amb invocation_id s) as [s1|] eqn:E; [|done].
    destruct (flow_apply_inv (OpResume amb invocation_id) s s1 Hs I E) as [_ (_ & (Hid & _) & _)].
    destruct (active_invocation s1); [|done].
    apply svc_commit_Ok with (log := log) in Hx as [-> Hc]; [done|done|done|congruence].
  - unfold svc_complete in Hx. rewrite (get_view _ _ _ _ Hw Hv) in Hx.
    destruct (flow_complete _ output s) as [s1|] eqn:E; [|done].
    destruct (flow_apply_inv (OpComplete (amb_now amb 0) output) s s1 Hs I E)
      as [_ (_ & (Hid & _) & _)].
    destruct (flow_usage s1); [|done]. rewrite Hid, Hrid in Hx.
    apply svc_commit_Ok with (log := log) in Hx as [-> Hc]; [done|done|done|congruence].
Qed.

(** A lease (or none) under which a commit at this time is accepted. *)
Definition lease_valid (lease : option FlowExecutionLease) (rid : uuid) (t : time) (w : W) : Prop :=
  exists token, execution_token_for lease rid = Ok token /\ may_write w rid token t = true.

Lemma svc_commit_total lease amb cur s drafts rid w log :
  repo_wf w -> view w rid = Some (cur, log) -> fr_run_id s = rid -> drafts <> [] ->
  step_facts cur s -> lease_valid lease rid (amb_clock amb) w ->
  exists w', svc_commit lease amb cur s drafts rid w = Ok (w', s).
Proof.
  intros Hw Hv Hrid Hd Hf (token & Htok & Hm). unfold svc_commit. rewrite Htok.
  destruct (law_commit_total amb s (fr_revision cur) drafts token w cur log) as [[w1 es] ->];
    rewrite ?Hrid; try done; [by apply step_replacement_ok|by eexists].
Qed.

(** When the aggregate allows the transition and the lease is valid, the
    service call succeeds. *)
Lemma svc_exec_total lease rid c w s s' log :
  repo_wf w -> view w rid = Some (s, log) -> fr_run_id s = rid -> flow_inv s ->
  op_ok (svc_op c) s -> flow_apply (svc_op c) s = Ok s' ->
  lease_valid lease rid (amb_clock (svc_amb c)) w ->
  exists w', svc_exec lease rid c w = Ok (w', s').
Proof.
  intros Hw Hv Hrid Hs Hop Happ Hl.
  destruct (flow_apply_inv (svc_op c) s s' Hs Hop Happ) as [Hs' Hf].
  pose proof Hf as (_ & (Hid & _) & _).
  pose proof (get_view _ _ _ _ Hw Hv) as Hg.
  assert (forall drafts, drafts <> [] ->
    exists w', svc_commit lease (later (svc_amb c)) s s' drafts rid w = Ok (w', s')) as Hcommit.
  { intros drafts Hd. apply (svc_commit_total _ _ _ _ _ _ _ log); try done. congruence. }
  assert (forall st md, is_error_status st = true ->
    (exists fe, flow_terminal_event st = Ok fe) -> (exists ie, invocation_terminal_event st = Ok ie) ->
    forall e, svc_op c = match st with FAILED => OpFail (svc_amb c) e | CANCELLED => OpCancel (svc_amb c) e
                         | INTERRUPTED => OpInterrupt (svc_amb c) e | _ => OpReachLimit (svc_amb c) e end ->
    exists w', svc_terminate lease (svc_amb c) rid st e md w = Ok (w', s')) as Hterm.
  { intros st md Hst [fe Hfe] [ie Hie] e Hce. rewrite Hce in Happ.
    assert (flow_terminate (svc_amb c) st e s = Ok s') as Ht by (by destruct st).
    unfold svc_terminate. rewrite Hg.
    assert (match st with
            | FAILED => flow_fail (svc_amb c) e s | CANCELLED => flow_cancel (svc_amb c) e s
            | INTERRUPTED => flow_interrupt (svc_amb c) e s | _ => flow_reach_limit (svc_amb c) e s
            end = Ok s') as -> by (by destruct st).
    destruct (active_invocation s) as [i|] eqn:Ha.
    - destruct (terminated_found _ _ _ _ _ _ Hs Ht Ha) as [j ->]. rewrite Hfe, Hie.
      by apply Hcommit.
    - rewrite Hfe. by apply Hcommit. }
  destruct c; simpl in *.
  - unfold svc_start. rewrite Hg, Happ, Hid, Hrid. by apply Hcommit.
  - unfold svc_begin. rewrite Hg, Happ.
    assert (exists i, active_invocation s' = Some i) as [i ->].
    { destruct (active_spec s' Hs') as [(Hn & _)|(l & i & _ & _ & Ha & _)]; [|by exists i].
      unfold flow_begin in Happ. raise_free Happ. }
    rewrite Hid, Hrid. by apply Hcommit.
  - unfold svc_settle. rewrite Hg, Happ.
    destruct (flow_settle_spec _ _ _ _ Hs Hop Happ) as (l & i & i' & _ & _ & _ & _ & _ & Heq & _).
    assert (last (fr_invocations s') = Some i') as -> by (by rewrite Heq; simpl; rewrite last_snoc).
    by apply Hcommit.
  - unfold svc_resume. rewrite Hg, Happ.
    assert (exists i, active_invocation s' = Some i) as [i ->].
    { destruct (active_spec s' Hs') as [(Hn & _)|(l & i & _ & _ & Ha & _)]; [|by exists i].
      destruct (active_spec s Hs) as [(_ & Ha & _)|(l & i & _ & Hi & Ha & _)].
      - unfold flow_resume in Happ. rewrite Ha in Happ. by destruct (negb _).
      - unfold flow_resume in Happ. rewrite Ha in Happ.
        destruct (negb _); [done|]. destruct (negb _); [done|].
        destruct (inv_resume _ _); [|done]. injection Happ as <-. simpl in Hn. congruence. }
    by apply Hcommit.
  - unfold svc_complete. rewrite Hg, Happ.
    destruct (flow_usage_spec s' Hs') as (u & -> & _). rewrite Hid, Hrid. by apply Hcommit.
  - by apply (Hterm FAILED []); [|eexists|eexists|].
  - by apply (Hterm CANCELLED []); [|eexists|eexists|].
  - by apply (Hterm INTERRUPTED []); [|eexists|eexists|].
  - by apply (Hterm LIMIT_REACHED metadata); [|eexists|eexists|].
Qed.
End Refinement.

(** ** The event log as the source of truth *)

(** The status an event log implies, event by event: a settled invocation
    gives control back to the Flow (the service also settles a waiting
    invocation that was never resumed, without a [FLOW_RESUMED] event). *)
Definition replay_status (st : RunStatus) (t : EventType) : RunStatus :=
  match t with
  | EV_FLOW_CREATED => CREATED
  | EV_FLOW_STARTED | EV_FLOW_RESUMED
  | EV_AGENT_INVOCATION_COMPLETED | EV_AGENT_INVOCATION_FAILED | EV_AGENT_INVOCATION_CANCELLED
  | EV_AGENT_INVOCATION_INTERRUPTED | EV_AGENT_INVOCATION_LIMIT_REACHED => RUNNING
  | EV_FLOW_WAITING => WAITING
  | EV_FLOW_COMPLETED => COMPLETED
  | EV_FLOW_FAILED => FAILED
  | EV_FLOW_CANCELLED => CANCELLED
  | EV_FLOW_INTERRUPTED => INTERRUPTED
  | EV_FLOW_LIMIT_REACHED => LIMIT_REACHED
  | _ => st
  end.

(** The number of invocations begun, by its events. *)
Definition replay_count (n : nat) (t : EventType) : nat :=
  match t with EV_AGENT_INVOCATION_STARTED => S n | _ => n end.

Definition log_replays (s : FlowRunState) (log : list RuntimeEvent) : Prop :=
  fold_left replay_status (map ev_type log) CREATED = fr_status s /\
  fold_left replay_count (map ev_type log) 0%nat = length (fr_invocations s).

(** One call changes the status and the number of invocations as its events
    say. *)
Lemma svc_events_replay c s s' `{FloatRepr} :
  flow_inv s -> op_ok (svc_op c) s -> flow_apply (svc_op c) s = Ok s' ->
  fold_left replay_status (svc_events c s) (fr_status s) = fr_status s' /\
  fold_left replay_count (svc_events c s) (length (fr_invocations s)) = length (fr_invocations s').
Proof.
  intros Hs Hop Happ.
  assert (forall amb st e, is_error_status st = true -> flow_terminate amb st e s = Ok s' ->
    fr_status s' = st /\ length (fr_invocations s') = length (fr_invocations s)) as Hterm.
  { intros amb st e Hst Ht. unfold flow_terminate in Ht.
    destruct (is_terminal_flow _); [done|]. destruct (blank e); [done|].
    destruct (active_invocation s) as [i|]; [destruct (inv_terminate _ _ _ _); [|done]|];
      injection Ht as <-; simpl; unfold replace_invocation; by rewrite ?length_map. }
  destruct c; simpl in *.
  - unfold flow_start in Happ. destruct (negb _); [done|]. by injection Happ as <-.
  - unfold flow_begin in Happ.
    case_bool_decide as Hr; [|done]. simpl in Happ.
    destruct (negb (is_none _)); [done|]. destruct (require_definition s d); [|done].
    destruct (negb _); [done|]. destruct (negb _); [done|]. destruct (_ <? _); [done|].
    destruct (fd_agent d _); [|done]. destruct (negb _); [done|].
    destruct (AgentInvocation_new _); [|done]. injection Happ as <-. simpl.
    rewrite length_app. simpl. split; [done|lia].
  - destruct (flow_settle_spec _ _ _ _ Hs Hop Happ)
      as (l & i & i' & Hl & _ & _ & _ & _ & -> & _ & _ & Hr).
    simpl. rewrite Hl, !length_app. simpl. by destruct (ir_status r).
  - unfold flow_resume in Happ. destruct (negb _); [done|].
    destruct (active_invocation s); [|done]. destruct (negb _); [done|].
    destruct (inv_resume _ _); [|done]. injection Happ as <-. simpl.
    unfold replace_invocation. by rewrite length_map.
  - unfold flow_complete in Happ. repeat (destruct (negb _); [done|]).
    destruct (bool_decide _); [done|]. destruct (existsb _ _); [done|]. by injection Happ as <-.
  - destruct (Hterm amb FAILED error eq_refl Happ) as [-> ->].
    unfold terminal_events. by destruct (active_invocation s).
  - destruct (Hterm amb CANCELLED error eq_refl Happ) as [-> ->].
    unfold terminal_events. by destruct (active_invocation s).
  - destruct (Hterm amb INTERRUPTED error eq_refl Happ) as [-> ->].
    unfold terminal_events. by destruct (active_invocation s).
  - destruct (Hterm amb LIMIT_REACHED error eq_refl Happ) as [-> ->].
    unfold terminal_events. by destruct (active_invocation s).
Qed.

(** ** Histories of service calls *)

Section ServiceHistories.
Context `{FloatRepr} {W : Type} `{FlowRepositoryLaws W}.

(** Calls by any number of services, each with its own lease, on any
    Runs. *)
Inductive svc_action :=
  | ActCreate (amb : ambient) (d : FlowDefinition) (run_id : option uuid) (now : option time)
  | ActCall (lease : option FlowExecutionLease) (rid : uuid) (c : svc_call)
  | ActRecord (lease : option FlowExecutionLease) (amb : ambient) (rid : uuid)
      (i : AgentInvocation) (error_type : string).

Definition svc_after (a : svc_action) (w : W) : W :=
  match a with
  | ActCreate amb d rid now => on_Ok (svc_create amb d rid now w) fst w
  | ActCall lease rid c => on_Ok (svc_exec lease rid c w) fst w
  | ActRecord lease amb rid i t => on_Ok (svc_record_cancellation_failure lease amb rid i t w) id w
  end.

Definition svc_trace (acts : list svc_action) (w : W) : W :=
  fold_left (fun w a => svc_after a w) acts w.

Definition svc_action_ok (a : svc_action) (w : W) : Prop :=
  match a with
  | ActCreate _ d _ _ => FlowBudget_fields (fd_budget d) = true
  | ActCall _ rid c => forall s log, view w rid = Some (s, log) -> op_ok (svc_op c) s
  | ActRecord _ _ _ _ _ => True
  end.

Fixpoint svc_actions_ok (acts : list svc_action) (w : W) : Prop :=
  match acts with
  | [] => True
  | a :: acts' => svc_action_ok a w /\ svc_actions_ok acts' (svc_after a w)
  end.

(** Every stored Run: filed under its id, valid, and told by its log. *)
Definition runs_ok (w : W) : Prop :=
  repo_wf w /\
  forall rid s log, view w rid = Some (s, log) ->
    fr_run_id s = rid /\ flow_inv s /\ log_replays s log.

Lemma runs_ok_committed w w' rid s s' log types :
  runs_ok w -> view w rid = Some (s, log) -> committed w w' rid s' log types ->
  fr_run_id s' = rid -> flow_inv s' ->
  fold_left replay_status types (fr_status s) = fr_status s' ->
  fold_left replay_count types (length (fr_invocations s)) = length (fr_invocations s') ->
  runs_ok w'.
Proof.
  intros [Hw Hok] Hv (Hw' & (es & Hv' & Hes & _) & Ho & _) Hrid Hs' Hst Hcn.
  split; [done|]. intros rid' s1 log1 Hv1.
  destruct (decide (rid' = rid)) as [->|Hne]; [|rewrite Ho in Hv1 by done; by apply Hok].
  rewrite Hv' in Hv1. injection Hv1 as <- <-. split; [done|]. split; [done|].
  destruct (Hok _ _ _ Hv) as (_ & _ & Hr1 & Hr2). unfold log_replays.
  rewrite map_app, !fold_left_app, Hr1, Hr2, Hes. done.
Qed.

Lemma svc_after_ok a w : runs_ok w -> svc_action_ok a w -> runs_ok (svc_after a w).
Proof.
  intros [Hw Hok] Ha. destruct a as [amb d run_id now|lease rid c|lease amb rid i t];
    cbn [svc_after svc_action_ok on_Ok] in *.
  - unfold svc_create. destruct (flow_create amb d run_id now) as [s|] eqn:Es; [|done].
    destruct (frepo_create _ s _ w) as [[w' es]|] eqn:E; [|done]. simpl.
    destruct (law_create _ _ _ _ _ _ Hw E) as (Hw' & _ & _ & _ & Hv' & Hf & Ho & _).
    split; [done|]. intros rid s1 log1 Hv1.
    destruct (decide (rid = fr_run_id s)) as [->|Hne]; [|rewrite Ho in Hv1 by done; by apply Hok].
    rewrite Hv' in Hv1. injection Hv1 as <- <-. split; [done|].
    split; [by eapply flow_create_inv|]. unfold log_replays.
    rewrite (events_for_types _ _ _ _ Hf). simpl.
    apply checked_Ok in Es as (_ & _ & ->). done.
  - destruct (svc_exec lease rid c w) as [[w' s']|] eqn:E; [|done]. simpl.
    assert (exists s log, view w rid = Some (s, log)) as (s & log & Hv).
    { destruct (view w rid) as [[s log]|] eqn:Hv; [by exists s, log|].
      pose proof (law_get w rid Hw) as Hg. rewrite Hv in Hg.
      destruct c; simpl in E; unfold svc_start, svc_begin, svc_settle, svc_resume, svc_complete,
        svc_fail, svc_cancel, svc_interrupt, svc_reach_limit, svc_terminate in E;
        by rewrite Hg in E. }
    destruct (Hok _ _ _ Hv) as (Hrid & Hs & _). specialize (Ha _ _ Hv).
    destruct (svc_exec_Ok _ _ _ _ _ _ _ _ Hw Hv Hrid Hs Ha E) as [Happ Hc].
    destruct (flow_apply_inv _ _ _ Hs Ha Happ) as [Hs' (_ & (Hid & _) & _)].
    destruct (svc_events_replay c s s' Hs Ha Happ) as [Hr1 Hr2].
    eapply runs_ok_committed; try done. congruence.
  - unfold svc_record_cancellation_failure.
    destruct (frepo_get rid w) as [cur|] eqn:Hg; [|done].
    destruct (execution_token_for lease rid) as [token|]; [|done].
    destruct (frepo_append _ _ _ _ _ _) as [[w' es]|] eqn:E; [|done]. simpl.
    destruct (law_append _ _ _ _ _ _ _ _ Hw E)
      as (Hw' & _ & cur' & log & Hv & _ & Hv' & Hf & Ho & Hm).
    destruct (Hok _ _ _ Hv) as (Hrid & Hs & _).
    eapply (runs_ok_committed w w' rid cur' cur' log
              [EV_AGENT_INVOCATION_CANCELLATION_PROPAGATION_FAILED]); try done.
    split_and!; try done. exists es. split_and!; [done|by rewrite (events_for_types _ _ _ _ Hf)|].
    exact (proj1 Hf).
Qed.

Lemma svc_trace_ok acts : forall w, runs_ok w -> svc_actions_ok acts w -> runs_ok (svc_trace acts w).
Proof.
  induction acts as [|a acts IH]; intros w Hw Ha; [done|]. destruct Ha as [Ha Has].
  apply IH; [|done]. by apply svc_after_ok.
Qed.
End ServiceHistories.

(** ** Properties *)

(** C30: the service refines the aggregate.  Against any repository that
    keeps its laws, a service call on a valid stored Flow Run that returns
    has performed exactly the aggregate's transition: the stored snapshot is
    the transition's result, the log grew by exactly the events of the call,
    numbered consecutively, and nothing else in the repository changed. *)
Theorem service_refines_aggregate `{FloatRepr} `{FlowRepositoryLaws W} lease rid c w w' s s' log :
  repo_wf w -> view w rid = Some (s, log) -> fr_run_id s = rid -> flow_inv s ->
  op_ok (svc_op c) s -> svc_exec lease rid c w = Ok (w', s') ->
  flow_apply (svc_op c) s = Ok s' /\
  (exists es, view w' rid = Some (s', log ++ es) /\ map ev_type es = svc_events c s /\
     map ev_sequence es = seqZ (Z.of_nat (length log) + 1) (Z.of_nat (length es))) /\
  (forall rid', rid' <> rid -> view w' rid' = view w rid').
Proof.
  intros Hw Hv Hrid Hs Hop Hx.
  destruct (svc_exec_Ok _ _ _ _ _ _ _ _ Hw Hv Hrid Hs Hop Hx)
    as [Happ (_ & (es & Hv' & Hes & Hseq) & Ho & _)].
  split; [done|]. split; [|done]. exists es. split_and!; try done.
  apply (f_equal (map snd)) in Hseq. rewrite !map_map in Hseq. simpl in Hseq.
  rewrite <-Hes, length_map in Hseq. etrans; [exact Hseq|apply map_id].
Qed.

(** A service call that the aggregate allows succeeds: with a valid
    execution lease (or none needed), whenever the transition returns so
    does the call, with the same next state; in particular its commit can
    never fail the repository's revision or identity checks. *)
Theorem service_call_total `{FloatRepr} `{FlowRepositoryLaws W} lease rid c w s s' log :
  repo_wf w -> view w rid = Some (s, log) -> fr_run_id s = rid -> flow_inv s ->
  op_ok (svc_op c) s -> flow_apply (svc_op c) s = Ok s' ->
  lease_valid lease rid (amb_clock (svc_amb c)) w ->
  exists w', svc_exec lease rid c w = Ok (w', s') /\ exists es, view w' rid = Some (s', log ++ es).
Proof.
  intros Hw Hv Hrid Hs Hop Happ Hl.
  destruct (svc_exec_total _ _ _ _ _ _ _ Hw Hv Hrid Hs Hop Happ Hl) as [w' Hx].
  exists w'. split; [done|].
  destruct (svc_exec_Ok _ _ _ _ _ _ _ _ Hw Hv Hrid Hs Hop Hx) as [_ (_ & (es & Hv' & _) & _)].
  by exists es.
Qed.

(** C29: the event log determines the Flow.  Whatever services do, with any
    leases, in any order, from a repository without Runs (with new
    invocation ids and well-formed results): every stored Run is valid, and
    replaying its event log yields its status and its number of
    invocations. *)
Theorem event_log_determines_flow `{FloatRepr} `{FlowRepositoryLaws W} w acts rid s log :
  repo_wf w -> (forall r, view w r = None) -> svc_actions_ok acts w ->
  view (svc_trace acts w) rid = Some (s, log) ->
  flow_inv s /\
  fold_left replay_status (map ev_type log) CREATED = fr_status s /\
  fold_left replay_count (map ev_type log) 0%nat = length (fr_invocations s).
Proof.
  intros Hw He Ha Hv.
  assert (runs_ok w) as Hr by (split; [done|intros r x l Hx; by rewrite He in Hx]).
  destruct (svc_trace_ok acts w Hr Ha) as [_ Hok].
  destruct (Hok _ _ _ Hv) as (_ & Hs & Hlog & Hcount). done.
Qed.

(** ** A concrete history in the in-memory repository *)

Section Example.
#[local] Existing Instance example_float.

Definition example_actions : list svc_action :=
  [ActCreate example_flow_ambient example_definition (Some 7%N) None;
   ActCall None 7%N (SvcStart example_flow_ambient);
   ActCall None 7%N (SvcBegin example_flow_ambient (example_request "writer" 1%N 1)
                       example_definition);
   ActCall None 7%N (SvcSettle example_flow_ambient (example_result "writer" 1%N R_WAITING));
   ActCall None 7%N (SvcCancel example_flow_ambient "no longer needed")].

Definition example_end : InMemoryFlowRepository := svc_trace example_actions flow_repository_empty.

Definition example_end_state : FlowRunState := on_Ok (fm_get 7%N example_end) id example_created.
Definition example_end_log : list RuntimeEvent := on_Ok (fm_log 7%N example_end) id [].

Lemma example_actions_ok : svc_actions_ok example_actions flow_repository_empty.
Proof.
  split; [reflexivity|]. split; [intros ? ? _; exact I|].
  split; [|split; [|split; [intros ? ? _; exact I|exact I]]].
  - intros s log Hv. split; [vm_compute; reflexivity|].
    assert (match view (svc_trace (take 2 example_actions) flow_repository_empty) 7%N with
            | Some (s, _) => fr_invocations s = [] | None => True end) as Hx
      by (vm_compute; reflexivity).
    change (svc_trace (take 2 example_actions) flow_repository_empty) with
      (svc_after (ActCall None 7%N (SvcStart example_flow_ambient))
         (svc_after (ActCreate example_flow_ambient example_definition (Some 7%N) None)
            flow_repository_empty)) in Hx.
    rewrite Hv in Hx. rewrite Hx. apply not_elem_of_nil.
  - intros s log _. repeat split; try (vm_compute; reflexivity); vm_compute; discriminate.
Qed.

Lemma example_empty_wf : repo_wf (W := InMemoryFlowRepository) flow_repository_empty.
Proof. exact (proj1 fm_ok_empty). Qed.

Lemma event_log_determines_flow_witness :
  fold_left replay_status (map ev_type example_end_log) CREATED = CANCELLED /\
  length example_end_log = 7%nat.
Proof.
  assert (view (svc_trace example_actions flow_repository_empty) 7%N
          = Some (example_end_state, example_end_log)) as Hv by (vm_compute; reflexivity).
  assert (fr_status example_end_state = CANCELLED) as Hc by (vm_compute; reflexivity).
  split; [|vm_compute; reflexivity].
  destruct (event_log_determines_flow (W := InMemoryFlowRepository) flow_repository_empty example_actions 7%N example_end_state
              example_end_log example_empty_wf (fun r => eq_refl) example_actions_ok Hv)
    as (_ & Hst & _).
  exact (eq_trans Hst Hc).
Defined.

Definition example_one : InMemoryFlowRepository :=
  svc_trace (take 1 example_actions) flow_repository_empty.
Definition example_one_log : list RuntimeEvent := on_Ok (fm_log 7%N example_one) id [].

Lemma example_one_ok : runs_ok example_one.
Proof.
  apply svc_trace_ok; [|split; [reflexivity|exact I]].
  split; [exact example_empty_wf|]. intros rid s log Hv. discriminate Hv.
Qed.

Definition example_started_pair : InMemoryFlowRepository * FlowRunState :=
  on_Ok (svc_exec None 7%N (SvcStart example_flow_ambient) example_one) id
    (example_one, example_created).

Lemma service_refines_aggregate_witness :
  exists es, view (fst example_started_pair) 7%N =
    Some (snd example_started_pair, example_one_log ++ es) /\ map ev_type es = [EV_FLOW_STARTED].
Proof.
  assert (view example_one 7%N = Some (example_created, example_one_log)) as Hv
    by (vm_compute; reflexivity).
  assert (svc_exec None 7%N (SvcStart example_flow_ambient) example_one
          = Ok (fst example_started_pair, snd example_started_pair)) as Hx
    by (vm_compute; reflexivity).
  assert (fr_run_id example_created = 7%N) as Hid by (vm_compute; reflexivity).
  destruct (service_refines_aggregate (W := InMemoryFlowRepository) None 7%N (SvcStart example_flow_ambient) example_one
              (fst example_started_pair) example_created (snd example_started_pair)
              example_one_log (proj1 example_one_ok) Hv Hid example_created_inv I Hx)
    as (_ & (es & Hes & Ht & _) & _).
  exists es. split; [exact Hes|exact Ht].
Defined.

Lemma service_call_total_witness :
  exists w', svc_exec None 7%N (SvcCancel example_flow_ambient "stop") example_one
    = Ok (w', on_Ok (flow_cancel example_flow_ambient "stop" example_created) id example_created).
Proof.
  assert (view example_one 7%N = Some (example_created, example_one_log)) as Hv
    by (vm_compute; reflexivity).
  assert (fr_run_id example_created = 7%N) as Hid by (vm_compute; reflexivity).
  assert (flow_apply (svc_op (SvcCancel example_flow_ambient "stop")) example_created
          = Ok (on_Ok (flow_cancel example_flow_ambient "stop" example_created) id example_created))
    as Happ by (vm_compute; reflexivity).
  assert (lease_valid None 7%N 0 example_one) as Hl
    by (exists None; split; vm_compute; reflexivity).
  destruct (service_call_total (W := InMemoryFlowRepository) None 7%N (SvcCancel example_flow_ambient "stop") example_one
              example_created _ example_one_log (proj1 example_one_ok) Hv Hid example_created_inv
              I Happ Hl) as (w' & Hx & _).
  exists w'. exact Hx.
Defined.
End Example.
