(* ===== verification/FlowBudgets.v ===== *)
(** * Flow budgets ([src/base_agent/flows/budget.py])

    Aggregate consumption of a Flow Run, measured from its persisted
    invocation results, and the decisions taken before and after each Agent
    transport. *)

From Stdlib Require Import QArith Lqa.
From stdpp Require Import base gmap strings list.
From S2P Require Import Prelude Json Models Sha256 FlowModels FlowLifecycle.

Inductive FlowBudgetKind :=
  | BK_INVOCATIONS | BK_INPUT_TOKENS | BK_OUTPUT_TOKENS | BK_TOTAL_TOKENS
  | BK_MODEL_CALLS | BK_TOOL_CALLS | BK_TIMEOUT_SECONDS.

#[export] Instance FlowBudgetKind_eq_dec : EqDecision FlowBudgetKind.
Proof. solve_decision. Defined.

Definition FlowBudgetKind_value (k : FlowBudgetKind) : string :=
  match k with
  | BK_INVOCATIONS => "invocations" | BK_INPUT_TOKENS => "input_tokens"
  | BK_OUTPUT_TOKENS => "output_tokens" | BK_TOTAL_TOKENS => "total_tokens"
  | BK_MODEL_CALLS => "model_calls" | BK_TOOL_CALLS => "tool_calls"
  | BK_TIMEOUT_SECONDS => "timeout_seconds"
  end.

Record FlowConsumption := mk_FlowConsumption {
  con_invocations : Z;
  con_input_tokens : Z;
  con_output_tokens : Z;
  con_total_tokens : Z;
  con_model_calls : Z;
  con_tool_calls : Z;
  con_elapsed_seconds : seconds;
}.

Definition FlowConsumption_fields (c : FlowConsumption) : bool :=
  (0 <=? con_invocations c) && (0 <=? con_input_tokens c) && (0 <=? con_output_tokens c)
  && (0 <=? con_total_tokens c) && (0 <=? con_model_calls c) && (0 <=? con_tool_calls c)
  && Qle_bool 0 (con_elapsed_seconds c).

Record FlowBudgetExceeded := mk_FlowBudgetExceeded {
  bx_kind : FlowBudgetKind;
  bx_limit : seconds;
  bx_actual : seconds;
}.

(** [FlowBudgetExceeded.message]. *)
Definition bx_message (b : FlowBudgetExceeded) : string :=
  fstr ["Flow budget '"; FlowBudgetKind_value (bx_kind b); "' reached: limit=";
        format_g (bx_limit b); ", actual="; format_g (bx_actual b)].

(** [violation.model_dump(mode="json")]. *)
Definition bx_dump (b : FlowBudgetExceeded) : json :=
  JObj [("kind", JStr (FlowBudgetKind_value (bx_kind b)));
        ("limit", JFloat (bx_limit b)); ("actual", JFloat (bx_actual b))].

(** [max(0.0, q)]. *)
Definition qmax0 (q : seconds) : seconds := if Qltb 0 q then q else 0%Q.

(** [FlowBudgetPolicy.consumption]. *)
Definition consumption (s : FlowRunState) (now : time) : outcome FlowConsumption :=
  let! usage := flow_usage s in
  checked
    (FlowConsumption_fields
       (mk_FlowConsumption (Z.of_nat (length (fr_invocations s))) (input_tokens usage)
          (output_tokens usage) (total_tokens usage) (model_call_count s) (tool_call_count s)
          (qmax0 (total_seconds (now - fr_created_at s)))))
    (fun _ => Ok tt)
    (mk_FlowConsumption (Z.of_nat (length (fr_invocations s))) (input_tokens usage)
       (output_tokens usage) (total_tokens usage) (model_call_count s) (tool_call_count s)
       (qmax0 (total_seconds (now - fr_created_at s)))).

(** [_timeout_violation]. *)
Definition timeout_violation (s : FlowRunState) (c : FlowConsumption) : outcome FlowBudgetExceeded :=
  match timeout_seconds (fr_budget s) with
  | None => Raise (Exn ExAssertionError "")
  | Some limit => Ok (mk_FlowBudgetExceeded BK_TIMEOUT_SECONDS limit (con_elapsed_seconds c))
  end.

(** The table [configured] of [_cumulative_violation]. *)
Definition configured (s : FlowRunState) (c : FlowConsumption)
  : list (FlowBudgetKind * option Z * Z) :=
  let b := fr_budget s in
  [(BK_INPUT_TOKENS, max_input_tokens b, con_input_tokens c);
   (BK_OUTPUT_TOKENS, max_output_tokens b, con_output_tokens c);
   (BK_TOTAL_TOKENS, max_total_tokens b, con_total_tokens c);
   (BK_MODEL_CALLS, max_model_calls b, con_model_calls c);
   (BK_TOOL_CALLS, max_tool_calls b, con_tool_calls c)].

(** [actual >= limit if inclusive else actual > limit]. *)
Definition reached (inclusive : bool) (limit actual : Z) : bool :=
  if inclusive then limit <=? actual else limit <? actual.

Fixpoint first_violation (inclusive : bool) (l : list (FlowBudgetKind * option Z * Z))
  : option FlowBudgetExceeded :=
  match l with
  | [] => None
  | (kind, None, _) :: l' => first_violation inclusive l'
  | (kind, Some limit, actual) :: l' =>
      if reached inclusive limit actual
      then Some (mk_FlowBudgetExceeded kind (inject_Z limit) (inject_Z actual))
      else first_violation inclusive l'
  end.

(** [_cumulative_violation]. *)
Definition cumulative_violation (inclusive : bool) (s : FlowRunState) (c : FlowConsumption)
  : option FlowBudgetExceeded :=
  first_violation inclusive (configured s c).

(** [state.deadline_at is not None and now >= state.deadline_at]. *)
Definition past_deadline (s : FlowRunState) (now : time) : bool :=
  match fr_deadline_at s with Some d => d <=? now | None => false end.

(** [before_transport]. *)
Definition before_transport (s : FlowRunState) (now : time) (new_invocation : bool)
  : outcome (option FlowBudgetExceeded) :=
  let! c := consumption s now in
  if past_deadline s now then let! v := timeout_violation s c in Ok (Some v)
  else if new_invocation && (max_invocations (fr_budget s) <=? con_invocations c) then
    Ok (Some (mk_FlowBudgetExceeded BK_INVOCATIONS (inject_Z (max_invocations (fr_budget s)))
                (inject_Z (con_invocations c))))
  else Ok (cumulative_violation true s c).

(** [after_transport]. *)
Definition after_transport (s : FlowRunState) (now : time) : outcome (option FlowBudgetExceeded) :=
  let! c := consumption s now in
  if past_deadline s now then let! v := timeout_violation s c in Ok (Some v)
  else Ok (cumulative_violation false s c).

(** [remaining_seconds]. *)
Definition remaining_seconds (s : FlowRunState) (now : time) : option seconds :=
  match fr_deadline_at s with
  | None => None
  | Some d => Some (qmax0 (total_seconds (d - now)))
  end.

(** ** What the decisions mean *)

(** The counts an [AgentRuntimeInvoker] reports are not negative. *)
Definition counts_ok (s : FlowRunState) : Prop := 0 <= model_call_count s /\ 0 <= tool_call_count s.

(** Total consumption of one budgeted kind, from the invocations. *)
Definition consumed (s : FlowRunState) (k : FlowBudgetKind) : Z :=
  match k with
  | BK_INVOCATIONS => Z.of_nat (length (fr_invocations s))
  | BK_INPUT_TOKENS => usage_sum input_tokens (fr_invocations s)
  | BK_OUTPUT_TOKENS => usage_sum output_tokens (fr_invocations s)
  | BK_TOTAL_TOKENS => usage_sum total_tokens (fr_invocations s)
  | BK_MODEL_CALLS => model_call_count s
  | BK_TOOL_CALLS => tool_call_count s
  | BK_TIMEOUT_SECONDS => 0
  end.

(** The configured limit of one kind. *)
Definition limit_of (b : FlowBudget) (k : FlowBudgetKind) : option Z :=
  match k with
  | BK_INVOCATIONS => Some (max_invocations b)
  | BK_INPUT_TOKENS => max_input_tokens b
  | BK_OUTPUT_TOKENS => max_output_tokens b
  | BK_TOTAL_TOKENS => max_total_tokens b
  | BK_MODEL_CALLS => max_model_calls b
  | BK_TOOL_CALLS => max_tool_calls b
  | BK_TIMEOUT_SECONDS => None
  end.

Definition cumulative_kinds : list FlowBudgetKind :=
  [BK_INPUT_TOKENS; BK_OUTPUT_TOKENS; BK_TOTAL_TOKENS; BK_MODEL_CALLS; BK_TOOL_CALLS].

(** Consumption of kind [k] has reached its limit. *)
Definition at_limit (inclusive : bool) (s : FlowRunState) (k : FlowBudgetKind) : bool :=
  match limit_of (fr_budget s) k with
  | Some l => reached inclusive l (consumed s k)
  | None => false
  end.

Lemma qmax0_nonneg q : Qle_bool 0 (qmax0 q) = true.
Proof.
  unfold qmax0, Qltb. destruct (Qle_bool q 0) eqn:E; simpl; [done|].
  apply Qle_bool_iff. destruct (Qlt_le_dec 0 q) as [Hlt|Hle]; [lra|].
  apply Qle_bool_iff in Hle. congruence.
Qed.

Lemma consumption_spec s now :
  flow_inv s -> counts_ok s ->
  exists c, consumption s now = Ok c /\
    (forall k, k <> BK_TIMEOUT_SECONDS -> k ∈ BK_INVOCATIONS :: cumulative_kinds ->
       consumed s k = match k with
                      | BK_INVOCATIONS => con_invocations c
                      | BK_INPUT_TOKENS => con_input_tokens c
                      | BK_OUTPUT_TOKENS => con_output_tokens c
                      | BK_TOTAL_TOKENS => con_total_tokens c
                      | BK_MODEL_CALLS => con_model_calls c
                      | BK_TOOL_CALLS => con_tool_calls c
                      | BK_TIMEOUT_SECONDS => 0
                      end) /\
    con_elapsed_seconds c = qmax0 (total_seconds (now - fr_created_at s)).
Proof.
  intros Hs [Hm Ht]. unfold consumption.
  destruct (flow_usage_spec s Hs) as (u & -> & (H1 & H2 & H3) & Hi & Ho & Htot).
  unfold checked. match goal with |- context [FlowConsumption_fields ?x] => set (c := x) end.
  assert (FlowConsumption_fields c = true) as ->.
  { unfold FlowConsumption_fields, c. cbn -[qmax0 Qle_bool].
    rewrite qmax0_nonneg, !(proj2 (Z.leb_le _ _)) by lia. done. }
  exists c. split; [done|]. split; [|done].
  intros k _ _. unfold c. destruct k; simpl; done || congruence.
Qed.

Lemma configured_spec s c :
  (forall k, k <> BK_TIMEOUT_SECONDS -> k ∈ BK_INVOCATIONS :: cumulative_kinds ->
       consumed s k = match k with
                      | BK_INVOCATIONS => con_invocations c
                      | BK_INPUT_TOKENS => con_input_tokens c
                      | BK_OUTPUT_TOKENS => con_output_tokens c
                      | BK_TOTAL_TOKENS => con_total_tokens c
                      | BK_MODEL_CALLS => con_model_calls c
                      | BK_TOOL_CALLS => con_tool_calls c
                      | BK_TIMEOUT_SECONDS => 0
                      end) ->
  configured s c = map (fun k => (k, limit_of (fr_budget s) k, consumed s k)) cumulative_kinds.
Proof.
  intros Hc. unfold configured. simpl.
  rewrite <-(Hc BK_INPUT_TOKENS), <-(Hc BK_OUTPUT_TOKENS), <-(Hc BK_TOTAL_TOKENS),
    <-(Hc BK_MODEL_CALLS), <-(Hc BK_TOOL_CALLS); try done; unfold cumulative_kinds; set_solver.
Qed.

(** The violation found is that of the first kind at its limit. *)
Lemma first_violation_spec inclusive s ks :
  first_violation inclusive (map (fun k => (k, limit_of (fr_budget s) k, consumed s k)) ks) =
  match List.find (at_limit inclusive s) ks with
  | Some k => match limit_of (fr_budget s) k with
              | Some l => Some (mk_FlowBudgetExceeded k (inject_Z l) (inject_Z (consumed s k)))
              | None => None
              end
  | None => None
  end.
Proof.
  induction ks as [|k ks IH]; simpl; [done|]. unfold at_limit at 1.
  destruct (limit_of (fr_budget s) k) as [l|] eqn:El; [|done].
  destruct (reached inclusive l (consumed s k)); [by rewrite El|done].
Qed.

(** ** Properties *)

(** Before a transport, a valid Flow Run with non-negative counts is
    always decided: past its deadline it is stopped for its timeout; else,
    when a new invocation would start with the invocation budget used up,
    for its invocations; else for the first of the token and call budgets
    that is used up (consumption at the limit counts), with the configured
    limit and the exact total over its invocations; and it may go on exactly
    when none of these holds. *)
Theorem before_transport_decision s now new_invocation :
  flow_inv s -> counts_ok s ->
  before_transport s now new_invocation =
    if past_deadline s now then
      Ok (Some (mk_FlowBudgetExceeded BK_TIMEOUT_SECONDS
                  (default 0%Q (timeout_seconds (fr_budget s)))
                  (qmax0 (total_seconds (now - fr_created_at s)))))
    else match List.find (at_limit true s)
                 (if new_invocation then BK_INVOCATIONS :: cumulative_kinds else cumulative_kinds) with
         | Some k => Ok (Some (mk_FlowBudgetExceeded k
                                 (inject_Z (default 0 (limit_of (fr_budget s) k)))
                                 (inject_Z (consumed s k))))
         | None => Ok None
         end.
Proof.
  intros Hs Hn. unfold before_transport.
  destruct (consumption_spec s now Hs Hn) as (c & -> & Hc & Hel).
  destruct (past_deadline s now) eqn:Hp.
  - unfold timeout_violation. pose proof (fv_deadline _ Hs) as Hd. unfold past_deadline in Hp.
    destruct (timeout_seconds (fr_budget s)), (fr_deadline_at s); try done. simpl. by rewrite Hel.
  - unfold cumulative_violation. rewrite (configured_spec _ _ Hc), first_violation_spec.
    rewrite <-(Hc BK_INVOCATIONS) by first [done|set_solver].
    destruct new_invocation; cbn [andb List.find].
    + change (at_limit true s BK_INVOCATIONS)
        with (max_invocations (fr_budget s) <=? consumed s BK_INVOCATIONS).
      destruct (_ <=? _); [done|].
      destruct (List.find (at_limit true s) cumulative_kinds) as [k|] eqn:Ef; [|done].
      apply List.find_some in Ef as [_ Ef]. unfold at_limit in Ef.
      by destruct (limit_of (fr_budget s) k).
    + destruct (List.find (at_limit true s) cumulative_kinds) as [k|] eqn:Ef; [|done].
      apply List.find_some in Ef as [_ Ef]. unfold at_limit in Ef.
      by destruct (limit_of (fr_budget s) k).
Qed.

(** After a transport, a valid Flow Run with non-negative counts is
    stopped exactly when its deadline has passed or some token or call
    budget is exceeded (consumption equal to the limit is still within it);
    so a Run that passed this check and has a budget exactly used up is
    stopped by the check before its next transport instead. *)
Theorem after_transport_decision s now :
  flow_inv s -> counts_ok s ->
  (exists v, after_transport s now = Ok v /\
     (v = None <-> past_deadline s now = false /\
        Forall (fun k => forall l, limit_of (fr_budget s) k = Some l -> consumed s k <= l)
          cumulative_kinds)) /\
  (after_transport s now = Ok None ->
   forall k l, k ∈ cumulative_kinds -> limit_of (fr_budget s) k = Some l -> consumed s k = l ->
   exists v, before_transport s now false = Ok (Some v)).
Proof.
  intros Hs Hn. unfold after_transport, before_transport.
  destruct (consumption_spec s now Hs Hn) as (c & -> & Hc & _).
  destruct (past_deadline s now) eqn:Hp.
  - unfold timeout_violation. pose proof (fv_deadline _ Hs) as Hd. unfold past_deadline in Hp.
    destruct (timeout_seconds (fr_budget s)) as [t|], (fr_deadline_at s); try done. split; [|done].
    eexists. split; [done|]. split; [done|by intros [? _]].
  - unfold cumulative_violation. rewrite (configured_spec _ _ Hc), !first_violation_spec. split.
    + eexists. split; [done|].
      assert (List.find (at_limit false s) cumulative_kinds = None <->
        Forall (fun k => forall l, limit_of (fr_budget s) k = Some l -> consumed s k <= l)
          cumulative_kinds) as Hfind.
      { rewrite Forall_forall. split.
        - intros Hf k Hk l Hl. apply list_elem_of_In in Hk.
          pose proof (List.find_none _ _ Hf _ Hk) as Hx. unfold at_limit, reached in Hx.
          rewrite Hl in Hx. by reflect.
        - intros Hall. destruct (List.find _ _) as [k|] eqn:Ef; [|done].
          apply List.find_some in Ef as [Hk Ef]. apply list_elem_of_In in Hk.
          unfold at_limit, reached in Ef.
          destruct (limit_of (fr_budget s) k) as [l|] eqn:El; [|done].
          specialize (Hall _ Hk _ El). reflect. lia. }
      rewrite <-Hfind.
      destruct (List.find (at_limit false s) cumulative_kinds) as [k|] eqn:Ef; [|done].
      apply List.find_some in Ef as [_ Ef]. unfold at_limit in Ef.
      destruct (limit_of (fr_budget s) k); [|done]. split; [done|by intros [_ ?]].
    + intros _ k l Hk Hl Heq.
      assert (at_limit true s k = true) as Hat.
      { unfold at_limit, reached. rewrite Hl. apply Z.leb_le. lia. }
      destruct (List.find (at_limit true s) cumulative_kinds) as [k'|] eqn:Ef.
      * simpl. apply List.find_some in Ef as [_ Ef]. unfold at_limit in Ef.
        destruct (limit_of (fr_budget s) k'); [by eexists|done].
      * apply list_elem_of_In in Hk. pose proof (List.find_none _ _ Ef _ Hk). congruence.
Qed.

(** ** A Run whose only invocation used exactly its budget of 15 tokens *)

Definition example_spent_definition : FlowDefinition :=
  mk_FlowDefinition "report" "1.0.0" (fd_agents example_definition) "sequential"
    (mk_FlowBudget 3 None None (Some 15) None None None) [].

Definition example_spent_created : FlowRunState :=
  on_Ok (flow_create (H := example_float) example_flow_ambient example_spent_definition
           (Some 7%N) (Some 0)) id example_created.

Definition example_spent_ops : list flow_op :=
  [OpStart 0; OpBegin example_flow_ambient example_spent_definition (example_request "writer" 1%N 1);
   OpSettle example_flow_ambient (example_result "writer" 1%N R_COMPLETED)].

Definition example_spent : FlowRunState :=
  flow_trace (H := example_float) example_spent_ops example_spent_created.

Lemma example_spent_inv : flow_inv example_spent.
Proof.
  assert (flow_create (H := example_float) example_flow_ambient example_spent_definition
            (Some 7%N) (Some 0) = Ok example_spent_created) as Hc by (vm_compute; reflexivity).
  assert (flow_inv example_spent_created) as Hi
    by exact (flow_create_inv (H := example_float) example_flow_ambient example_spent_definition
                (Some 7%N) (Some 0) example_spent_created eq_refl Hc).
  assert (ops_ok (H := example_float) example_spent_ops example_spent_created) as Hops.
  { split; [exact I|]. split; [split; [vm_compute; reflexivity|]|].
    - assert (fr_invocations (flow_after (H := example_float) (OpStart 0) example_spent_created) = [])
        as -> by (vm_compute; reflexivity).
      apply not_elem_of_nil.
    - split; [|exact I]. split; [vm_compute; reflexivity|]. repeat split; vm_compute; discriminate. }
  exact (proj1 (flow_trace_inv (H := example_float) example_spent_ops example_spent_created
                  Hi Hops)).
Qed.

Lemma example_spent_counts : counts_ok example_spent.
Proof. split; vm_compute; discriminate. Qed.

Lemma before_transport_decision_witness :
  before_transport example_spent 5 true =
    Ok (Some (mk_FlowBudgetExceeded BK_TOTAL_TOKENS (15 # 1) (15 # 1))).
Proof.
  rewrite (before_transport_decision example_spent 5 true example_spent_inv example_spent_counts).
  vm_compute. reflexivity.
Defined.

Lemma after_transport_decision_witness :
  after_transport example_spent 5 = Ok None /\
  exists v, before_transport example_spent 5 false = Ok (Some v).
Proof.
  assert (after_transport example_spent 5 = Ok None) as Ha by (vm_compute; reflexivity).
  split; [exact Ha|].
  destruct (after_transport_decision example_spent 5 example_spent_inv example_spent_counts)
    as [_ Hnext].
  apply (Hnext Ha BK_TOTAL_TOKENS 15).
  - clear. unfold cumulative_kinds. set_solver.
  - vm_compute. reflexivity.
  - vm_compute. reflexivity.
Defined.
