(* ===== verification/FlowWork.v ===== *)
(** * Durable work items ([src/base_agent/flows/work.py])

    Idempotently enqueued commands, claimed by workers under time-bounded
    delivery tokens, settled as completed, blocked or retried, and reviewed
    by operators while blocked.  Every method of [InMemoryFlowWorkSource]
    runs under one lock, so a call is one step on [WorkSource]. *)

From Stdlib Require Import QArith.
From stdpp Require Import base gmap strings list.
From S2P Require Import Prelude Json Models FlowModels FlowLifecycle.

(** ** Data *)

Inductive FlowWorkKind := WK_EXECUTE | WK_RESUME | WK_CANCEL | WK_RECOVER.

#[export] Instance FlowWorkKind_eq_dec : EqDecision FlowWorkKind.
Proof. solve_decision. Defined.

Inductive FlowWorkStatus :=
  | WS_PENDING | WS_CLAIMED | WS_COMPLETED | WS_BLOCKED | WS_DISCARDED.

#[export] Instance FlowWorkStatus_eq_dec : EqDecision FlowWorkStatus.
Proof. solve_decision. Defined.

Inductive FlowWorkReviewDecision := APPROVE_RETRY | REJECT_WORK.

#[export] Instance FlowWorkReviewDecision_eq_dec : EqDecision FlowWorkReviewDecision.
Proof. solve_decision. Defined.

(** [FlowWorkBlockedError(reason_code)]. *)
Definition FlowWorkBlocked (reason_code : string) : exn :=
  if blank reason_code || (256 <? slen reason_code)
  then value_error ["Flow work blocked reason_code must be 1 to 256 characters"]
  else Exn FlowWorkBlockedError reason_code.

Record FlowWorkCommand := mk_FlowWorkCommand {
  wc_id : uuid;
  wc_run_id : uuid;
  wc_kind : FlowWorkKind;
  wc_idempotency_key : string;
  wc_data : jdict;
  wc_created_at : time;
}.

Definition FlowWorkCommand_fields (c : FlowWorkCommand) : bool :=
  len_between 1 256 (wc_idempotency_key c).

(** [FlowWorkCommand.has_same_intent]. *)
Definition command_same_intent (a b : FlowWorkCommand) : bool :=
  bool_decide (wc_run_id a = wc_run_id b) && bool_decide (wc_kind a = wc_kind b)
  && jdict_eqb (wc_data a) (wc_data b).

Record FlowWorkItem := mk_FlowWorkItem {
  wi_command : FlowWorkCommand;
  wi_status : FlowWorkStatus;
  wi_attempt : Z;
  wi_available_at : time;
  wi_owner_id : option string;
  wi_delivery_token : option uuid;
  wi_last_delivery_token : option uuid;
  wi_claimed_at : option time;
  wi_lease_expires_at : option time;
  wi_last_error_type : option string;
  wi_blocked_reason : option string;
  wi_updated_at : time;
}.

Definition opt_len_ok (o : option string) : bool :=
  match o with Some s => len_between 1 256 s | None => true end.

Definition FlowWorkItem_fields (i : FlowWorkItem) : bool :=
  (0 <=? wi_attempt i) && opt_len_ok (wi_owner_id i) && opt_len_ok (wi_last_error_type i)
  && opt_len_ok (wi_blocked_reason i).

(** [FlowWorkItem.validate_delivery]. *)
Definition FlowWorkItem_validate (i : FlowWorkItem) : outcome unit :=
  let none_of_delivery := [is_none (wi_owner_id i); is_none (wi_delivery_token i);
                           is_none (wi_claimed_at i); is_none (wi_lease_expires_at i)] in
  let! _ :=
    (if bool_decide (wi_status i = WS_CLAIMED) then
       raise_when existsb id none_of_delivery
         as validation_error "a claimed Flow work item requires delivery fields" in
       raise_when wi_attempt i <? 1
         as validation_error "a claimed Flow work item requires an attempt" in
       Ok tt
     else
       raise_when existsb negb none_of_delivery
         as validation_error "only a claimed Flow work item may retain delivery fields" in
       Ok tt) in
  if bool_decide (wi_status i = WS_BLOCKED) then
    raise_when is_none (wi_blocked_reason i)
      as validation_error "a blocked Flow work item requires blocked_reason" in
    Ok tt
  else
    raise_when negb (is_none (wi_blocked_reason i))
      as validation_error "only a blocked Flow work item may retain blocked_reason" in
    Ok tt.

Definition FlowWorkItem_new (i : FlowWorkItem) : outcome FlowWorkItem :=
  checked (FlowWorkItem_fields i) FlowWorkItem_validate i.

(** [FlowWorkItem.id]. *)
Definition wi_id (i : FlowWorkItem) : uuid := wc_id (wi_command i).

Record FlowWorkReview := mk_FlowWorkReview {
  wr_id : uuid;
  wr_work_id : uuid;
  wr_decision : FlowWorkReviewDecision;
  wr_reviewer_id : string;
  wr_reason_code : string;
  wr_idempotency_key : string;
  wr_delay_seconds : seconds;
  wr_created_at : time;
}.

Definition FlowWorkReview_fields (r : FlowWorkReview) : bool :=
  len_between 1 256 (wr_reviewer_id r) && len_between 1 256 (wr_reason_code r)
  && len_between 1 256 (wr_idempotency_key r) && Qle_bool 0 (wr_delay_seconds r).

(** [FlowWorkReview.validate_decision]. *)
Definition FlowWorkReview_validate (r : FlowWorkReview) : outcome unit :=
  raise_when bool_decide (wr_decision r = REJECT_WORK) && negb (Qeq_bool (wr_delay_seconds r) 0)
    as validation_error "a rejected Flow work item cannot have a retry delay" in
  Ok tt.

(** [FlowWorkReview.has_same_intent]. *)
Definition review_same_intent (a b : FlowWorkReview) : bool :=
  bool_decide (wr_work_id a = wr_work_id b) && bool_decide (wr_decision a = wr_decision b)
  && bool_decide (wr_reviewer_id a = wr_reviewer_id b)
  && bool_decide (wr_reason_code a = wr_reason_code b)
  && Qeq_bool (wr_delay_seconds a) (wr_delay_seconds b).

(** ** Argument checks *)

Definition validate_delivery_arguments (owner_id : string) (ttl : seconds) : outcome unit :=
  raise_when blank owner_id as value_error ["Flow work owner_id must not be blank"] in
  raise_when 256 <? slen owner_id
    as value_error ["Flow work owner_id must not exceed 256 characters"] in
  raise_when Qle_bool ttl 0
    as value_error ["Flow work ttl_seconds must be greater than zero"] in
  Ok tt.

Definition validate_reason_code (reason_code : string) : outcome unit :=
  raise_when blank reason_code || (256 <? slen reason_code)
    as value_error ["Flow work blocked reason_code must be 1 to 256 characters"] in
  Ok tt.

Definition validate_list_limit (limit : Z) : outcome unit :=
  raise_when negb ((1 <=? limit) && (limit <=? 1000))
    as value_error ["Flow work list limit must be between 1 and 1000"] in
  Ok tt.

(** [_validate_review_intent]. *)
Definition validate_review_intent (existing requested : FlowWorkReview) : outcome unit :=
  raise_when negb (review_same_intent existing requested)
    as Exn FlowWorkReviewConflictError
         (fstr ["Flow work review idempotency key '"; wr_idempotency_key requested;
                "' has different intent"]) in
  Ok tt.

(** [_apply_review]. *)
Definition apply_review (i : FlowWorkItem) (r : FlowWorkReview) (now : time) : FlowWorkItem :=
  match wr_decision r with
  | APPROVE_RETRY =>
      mk_FlowWorkItem (wi_command i) WS_PENDING (wi_attempt i)
        (now + timedelta (wr_delay_seconds r)) (wi_owner_id i) (wi_delivery_token i)
        (wi_last_delivery_token i) (wi_claimed_at i) (wi_lease_expires_at i) None None now
  | REJECT_WORK =>
      mk_FlowWorkItem (wi_command i) WS_DISCARDED (wi_attempt i) (wi_available_at i)
        (wi_owner_id i) (wi_delivery_token i) (wi_last_delivery_token i) (wi_claimed_at i)
        (wi_lease_expires_at i) (wi_last_error_type i) None now
  end.

(** ** The in-memory work source *)

Record WorkSource := mk_WorkSource {
  ws_items : gmap uuid FlowWorkItem;
  ws_idempotency : gmap string uuid;
  ws_reviews : gmap uuid (list FlowWorkReview);
  ws_review_idempotency : gmap string FlowWorkReview;
}.

Definition work_source_empty : WorkSource := mk_WorkSource ∅ ∅ ∅ ∅.

Definition work_not_found (id : uuid) : exn :=
  Exn FlowWorkNotFoundError (fstr ["Flow work item '"; uuid_str id; "' was not found"]).

Definition delivery_lost (id : uuid) : exn :=
  Exn FlowWorkDeliveryLostError (fstr ["Flow work delivery for '"; uuid_str id; "' was lost"]).

Definition ws_put (id : uuid) (i : FlowWorkItem) (w : WorkSource) : WorkSource :=
  mk_WorkSource (<[id := i]> (ws_items w)) (ws_idempotency w) (ws_reviews w)
    (ws_review_idempotency w).

(** [_copy_item], also [get]. *)
Definition work_get (id : uuid) (w : WorkSource) : outcome FlowWorkItem :=
  match ws_items w !! id with
  | Some i => Ok i
  | None => Raise (work_not_found id)
  end.

(** [enqueue]. *)
Definition work_enqueue (amb : ambient) (c : FlowWorkCommand) (w : WorkSource)
  : outcome (WorkSource * FlowWorkItem) :=
  match ws_idempotency w !! wc_idempotency_key c with
  | Some existing_id =>
      match ws_items w !! existing_id with
      | None => Raise (Exn ExKeyError (uuid_str existing_id))
      | Some existing =>
          raise_when negb (command_same_intent (wi_command existing) c)
            as Exn FlowWorkIdempotencyConflictError
                 (fstr ["Flow work idempotency key '"; wc_idempotency_key c;
                        "' has different intent"]) in
          Ok (w, existing)
      end
  | None =>
      let now := amb_clock amb in
      let! item := FlowWorkItem_new
        (mk_FlowWorkItem c WS_PENDING 0 now None None None None None None None now) in
      Ok (mk_WorkSource (<[wi_id item := item]> (ws_items w))
            (<[wc_idempotency_key c := wi_id item]> (ws_idempotency w))
            (ws_reviews w) (ws_review_idempotency w), item)
  end.

Definition blocked_leb (a b : FlowWorkItem) : bool :=
  key2_leb (wi_updated_at a, wi_id a) (wi_updated_at b, wi_id b).

Definition ws_values (w : WorkSource) : list FlowWorkItem := map snd (map_to_list (ws_items w)).

(** [list_blocked]. *)
Definition list_blocked (limit : Z) (w : WorkSource) : outcome (list FlowWorkItem) :=
  let! _ := validate_list_limit limit in
  Ok (take (Z.to_nat limit)
        (sorted_by blocked_leb
           (List.filter (fun i => bool_decide (wi_status i = WS_BLOCKED)) (ws_values w)))).

(** [review]. *)
Definition work_review (amb : ambient) (r : FlowWorkReview) (w : WorkSource)
  : outcome (WorkSource * (FlowWorkReview * FlowWorkItem)) :=
  match ws_review_idempotency w !! wr_idempotency_key r with
  | Some existing =>
      let! _ := validate_review_intent existing r in
      let! item := work_get (wr_work_id existing) w in
      Ok (w, (existing, item))
  | None =>
      let! current := work_get (wr_work_id r) w in
      raise_when negb (bool_decide (wi_status current = WS_BLOCKED))
        as Exn FlowWorkReviewStateError
             (fstr ["Flow work item '"; uuid_str (wr_work_id r); "' is not blocked"]) in
      let reviewed_at := amb_clock amb in
      let replacement := apply_review current r reviewed_at in
      let persisted := mk_FlowWorkReview (wr_id r) (wr_work_id r) (wr_decision r)
        (wr_reviewer_id r) (wr_reason_code r) (wr_idempotency_key r) (wr_delay_seconds r)
        reviewed_at in
      Ok (mk_WorkSource (<[wi_id current := replacement]> (ws_items w)) (ws_idempotency w)
            (<[wi_id current := default [] (ws_reviews w !! wi_id current) ++ [persisted]]>
               (ws_reviews w))
            (<[wr_idempotency_key r := persisted]> (ws_review_idempotency w)),
          (persisted, replacement))
  end.

(** [list_reviews]. *)
Definition list_reviews (id : uuid) (w : WorkSource) : outcome (list FlowWorkReview) :=
  let! _ := work_get id w in
  Ok (default [] (ws_reviews w !! id)).

(** The comprehension [candidates] of [claim]. *)
Definition claimable (now : time) (i : FlowWorkItem) : bool :=
  bool_decide (wi_status i = WS_PENDING) && (wi_available_at i <=? now)
  || bool_decide (wi_status i = WS_CLAIMED)
     && match wi_lease_expires_at i with Some t => t <=? now | None => false end.

Definition claim_leb (a b : FlowWorkItem) : bool :=
  key3_leb (wi_available_at a, (wc_created_at (wi_command a), wi_id a))
           (wi_available_at b, (wc_created_at (wi_command b), wi_id b)).

Definition claimed_item (i : FlowWorkItem) (owner_id : string) (token : uuid) (ttl : seconds)
  (now : time) : FlowWorkItem :=
  mk_FlowWorkItem (wi_command i) WS_CLAIMED (wi_attempt i + 1) (wi_available_at i)
    (Some owner_id) (Some token) (wi_last_delivery_token i) (Some now)
    (Some (now + timedelta ttl)) (wi_last_error_type i) (wi_blocked_reason i) now.

(** [claim]. *)
Definition work_claim (amb : ambient) (owner_id : string) (ttl : seconds) (now : option time)
  (w : WorkSource) : outcome (WorkSource * option FlowWorkItem) :=
  let! _ := validate_delivery_arguments owner_id ttl in
  let claimed_at := default (amb_clock amb) now in
  match List.filter (claimable claimed_at) (ws_values w) with
  | [] => Ok (w, None)
  | c :: cs =>
      let current := min_by claim_leb c cs in
      let claimed := claimed_item current owner_id (amb_uuid amb 0) ttl claimed_at in
      Ok (ws_put (wi_id current) claimed w, Some claimed)
  end.

Definition delivery_invalid (i : FlowWorkItem) (token : uuid) (now : time) : bool :=
  negb (bool_decide (wi_status i = WS_CLAIMED))
  || negb (bool_decide (wi_delivery_token i = Some token))
  || match wi_lease_expires_at i with None => true | Some t => t <=? now end.

(** [_require_delivery]. *)
Definition require_delivery (id : uuid) (token : uuid) (now : time)
  (idempotent_status : FlowWorkStatus) (w : WorkSource) : outcome FlowWorkItem :=
  let! current := work_get id w in
  if bool_decide (wi_status current = idempotent_status)
     && bool_decide (wi_last_delivery_token current = Some token)
  then Ok current
  else raise_when delivery_invalid current token now as delivery_lost id in
       Ok current.

(** [_require_active_delivery]. *)
Definition require_active_delivery (id : uuid) (token : uuid) (now : time) (w : WorkSource)
  : outcome FlowWorkItem :=
  let! current := work_get id w in
  raise_when delivery_invalid current token now as delivery_lost id in
  Ok current.

(** [renew]. *)
Definition work_renew (amb : ambient) (id token : uuid) (ttl : seconds) (now : option time)
  (w : WorkSource) : outcome (WorkSource * FlowWorkItem) :=
  raise_when Qle_bool ttl 0
    as value_error ["Flow work ttl_seconds must be greater than zero"] in
  let renewed_at := default (amb_clock amb) now in
  let! i := require_active_delivery id token renewed_at w in
  let renewed :=
    mk_FlowWorkItem (wi_command i) (wi_status i) (wi_attempt i) (wi_available_at i)
      (wi_owner_id i) (wi_delivery_token i) (wi_last_delivery_token i) (wi_claimed_at i)
      (Some (renewed_at + timedelta ttl)) (wi_last_error_type i) (wi_blocked_reason i)
      renewed_at in
  Ok (ws_put id renewed w, renewed).

(** [model_copy] of a settlement: the delivery fields are cleared and the
    token kept as [last_delivery_token]. *)
Definition settled_item (i : FlowWorkItem) (status : FlowWorkStatus) (available_at : time)
  (last_error_type blocked_reason : option string) (now : time) : FlowWorkItem :=
  mk_FlowWorkItem (wi_command i) status (wi_attempt i) available_at None None
    (wi_delivery_token i) None None last_error_type blocked_reason now.

(** [complete]. *)
Definition work_complete (amb : ambient) (id token : uuid) (now : option time) (w : WorkSource)
  : outcome (WorkSource * FlowWorkItem) :=
  let completed_at := default (amb_clock amb) now in
  let! i := require_delivery id token completed_at WS_COMPLETED w in
  if bool_decide (wi_status i = WS_COMPLETED) then Ok (w, i)
  else
    let completed := settled_item i WS_COMPLETED (wi_available_at i) (wi_last_error_type i)
                       (wi_blocked_reason i) completed_at in
    Ok (ws_put id completed w, completed).

(** [block]. *)
Definition work_block (amb : ambient) (id token : uuid) (reason_code : string)
  (now : option time) (w : WorkSource) : outcome (WorkSource * FlowWorkItem) :=
  let! _ := validate_reason_code reason_code in
  let blocked_at := default (amb_clock amb) now in
  let! i := require_delivery id token blocked_at WS_BLOCKED w in
  if bool_decide (wi_status i = WS_BLOCKED) then Ok (w, i)
  else
    let blocked := settled_item i WS_BLOCKED (wi_available_at i) (wi_last_error_type i)
                     (Some reason_code) blocked_at in
    Ok (ws_put id blocked w, blocked).

(** [retry]. *)
Definition work_retry (amb : ambient) (id token : uuid) (delay : seconds)
  (error_type : option string) (now : option time) (w : WorkSource)
  : outcome (WorkSource * FlowWorkItem) :=
  raise_when Qltb delay 0
    as value_error ["Flow work retry delay_seconds must not be negative"] in
  raise_when match error_type with Some e => blank e || (256 <? slen e) | None => false end
    as value_error ["Flow work retry error_type must be 1 to 256 characters"] in
  let retried_at := default (amb_clock amb) now in
  let! i := require_delivery id token retried_at WS_PENDING w in
  if bool_decide (wi_status i = WS_PENDING) then Ok (w, i)
  else
    let pending := settled_item i WS_PENDING (retried_at + timedelta delay) error_type
                     (wi_blocked_reason i) retried_at in
    Ok (ws_put id pending w, pending).

(** ** Histories of calls *)

Inductive work_call :=
  | WEnqueue (amb : ambient) (c : FlowWorkCommand)
  | WReview (amb : ambient) (r : FlowWorkReview)
  | WClaim (amb : ambient) (owner_id : string) (ttl : seconds) (now : option time)
  | WRenew (amb : ambient) (id token : uuid) (ttl : seconds) (now : option time)
  | WComplete (amb : ambient) (id token : uuid) (now : option time)
  | WBlock (amb : ambient) (id token : uuid) (reason_code : string) (now : option time)
  | WRetry (amb : ambient) (id token : uuid) (delay : seconds) (error_type : option string)
      (now : option time).

Definition work_after (c : work_call) (w : WorkSource) : WorkSource :=
  match c with
  | WEnqueue amb c => on_Ok (work_enqueue amb c w) fst w
  | WReview amb r => on_Ok (work_review amb r w) fst w
  | WClaim amb o ttl now => on_Ok (work_claim amb o ttl now w) fst w
  | WRenew amb id t ttl now => on_Ok (work_renew amb id t ttl now w) fst w
  | WComplete amb id t now => on_Ok (work_complete amb id t now w) fst w
  | WBlock amb id t r now => on_Ok (work_block amb id t r now w) fst w
  | WRetry amb id t d e now => on_Ok (work_retry amb id t d e now w) fst w
  end.

Definition work_trace (cs : list work_call) (w : WorkSource) : WorkSource :=
  fold_left (fun w c => work_after c w) cs w.

(** ** How one call moves one item *)

(** The life cycle of an item: [item_step c id before after]. *)
Inductive item_step (c : work_call) (id : uuid) : option FlowWorkItem -> option FlowWorkItem -> Prop :=
  | ItemKept o : item_step c id o o
  | ItemEnqueued amb cmd o :
      c = WEnqueue amb cmd -> wc_id cmd = id ->
      item_step c id o (Some (mk_FlowWorkItem cmd WS_PENDING 0 (amb_clock amb) None None None None
                                None None None (amb_clock amb)))
  | ItemClaimed amb owner ttl now i :
      c = WClaim amb owner ttl now -> len_between 1 256 owner = true ->
      claimable (default (amb_clock amb) now) i = true ->
      item_step c id (Some i)
        (Some (claimed_item i owner (amb_uuid amb 0) ttl (default (amb_clock amb) now)))
  | ItemRenewed amb token ttl now i :
      c = WRenew amb id token ttl now -> wi_status i = WS_CLAIMED ->
      wi_delivery_token i = Some token ->
      item_step c id (Some i)
        (Some (mk_FlowWorkItem (wi_command i) (wi_status i) (wi_attempt i) (wi_available_at i)
                 (wi_owner_id i) (wi_delivery_token i) (wi_last_delivery_token i) (wi_claimed_at i)
                 (Some (default (amb_clock amb) now + timedelta ttl)) (wi_last_error_type i)
                 (wi_blocked_reason i) (default (amb_clock amb) now)))
  | ItemSettled token status available error reason now i :
      wi_status i = WS_CLAIMED -> wi_delivery_token i = Some token ->
      match c with
      | WComplete _ id' token' _ | WBlock _ id' token' _ _ | WRetry _ id' token' _ _ _ =>
          id' = id /\ token' = token
      | _ => False
      end ->
      match status with
      | WS_BLOCKED => exists r, reason = Some r /\ len_between 1 256 r = true
      | WS_COMPLETED | WS_PENDING => reason = wi_blocked_reason i
      | _ => False
      end -> opt_len_ok error = true \/ error = wi_last_error_type i ->
      item_step c id (Some i) (Some (settled_item i status available error reason now))
  | ItemReviewed amb r i :
      c = WReview amb r -> wr_work_id r = id -> wi_status i = WS_BLOCKED ->
      item_step c id (Some i) (Some (apply_review i r (amb_clock amb))).

(** Items are filed under their own id and accepted by their validator;
    idempotency keys lead to items. *)
Definition work_ok (w : WorkSource) : Prop :=
  (forall id i, ws_items w !! id = Some i -> wi_id i = id /\ FlowWorkItem_new i = Ok i) /\
  (forall k id, ws_idempotency w !! k = Some id -> is_Some (ws_items w !! id)) /\
  (forall k r, ws_review_idempotency w !! k = Some r -> is_Some (ws_items w !! wr_work_id r)).

Lemma item_put_kept c w id i id' :
  item_step c id (ws_items w !! id) (Some i) ->
  item_step c id' (ws_items w !! id') (<[id := i]> (ws_items w) !! id') \/ id' = id.
Proof.
  intros Hs. destruct (decide (id' = id)) as [->|Hne]; [by right|left].
  rewrite lookup_insert_ne by done. constructor.
Qed.

(** A call that stores [i] under [id] steps every item. *)
Lemma item_put_step c w id i :
  item_step c id (ws_items w !! id) (Some i) ->
  forall id', item_step c id' (ws_items w !! id') (<[id := i]> (ws_items w) !! id').
Proof.
  intros Hs id'. destruct (item_put_kept c w id i id' Hs) as [?| ->]; [done|].
  by rewrite lookup_insert_eq.
Qed.

Lemma work_get_Ok id w i : work_get id w = Ok i -> ws_items w !! id = Some i.
Proof. unfold work_get. destruct (ws_items w !! id); naive_solver. Qed.

Lemma blank_len s : blank s = false -> slen s <= 256 -> len_between 1 256 s = true.
Proof.
  intros Hb Hl. unfold len_between. rewrite (proj2 (Z.leb_le _ 256)) by done.
  destruct s; [done|]. unfold slen. simpl. by rewrite (proj2 (Z.leb_le 1 _)) by lia.
Qed.

Lemma validate_delivery_arguments_Ok o ttl :
  validate_delivery_arguments o ttl = Ok tt -> len_between 1 256 o = true /\ Qle_bool ttl 0 = false.
Proof.
  unfold validate_delivery_arguments. destruct (blank o) eqn:Hb; [done|].
  destruct (256 <? slen o) eqn:Hl; [done|]. destruct (Qle_bool ttl 0); [done|]. intros _. reflect.
  split; [by apply blank_len|done].
Qed.

Lemma ws_values_elem w i :
  work_ok w -> In i (ws_values w) -> ws_items w !! wi_id i = Some i.
Proof.
  intros [Hw _] Hin. unfold ws_values in Hin. apply in_map_iff in Hin as ([k j] & <- & Hin).
  apply list_elem_of_In, elem_of_map_to_list in Hin. by destruct (Hw _ _ Hin) as [<- _].
Qed.

Lemma ws_values_in w id i : ws_items w !! id = Some i -> In i (ws_values w).
Proof.
  intros Hi. apply in_map_iff. exists (id, i). split; [done|].
  by apply list_elem_of_In, elem_of_map_to_list.
Qed.

Lemma claim_leb_total x y : claim_leb x y = true \/ claim_leb y x = true.
Proof. apply key3_leb_total. Qed.

Lemma claim_leb_trans x y z : claim_leb x y = true -> claim_leb y z = true -> claim_leb x z = true.
Proof. apply key3_leb_trans. Qed.

Lemma claim_spec amb owner ttl now w w' o :
  work_ok w -> work_claim amb owner ttl now w = Ok (w', o) ->
  let t := default (amb_clock amb) now in
  len_between 1 256 owner = true /\ Qle_bool ttl 0 = false /\
  ((o = None /\ w' = w /\ forall id i, ws_items w !! id = Some i -> claimable t i = false) \/
   (exists i, ws_items w !! wi_id i = Some i /\ claimable t i = true /\
      (forall id j, ws_items w !! id = Some j -> claimable t j = true -> claim_leb i j = true) /\
      o = Some (claimed_item i owner (amb_uuid amb 0) ttl t) /\
      w' = ws_put (wi_id i) (claimed_item i owner (amb_uuid amb 0) ttl t) w)).
Proof.
  intros Hw Hc t. unfold work_claim in Hc.
  destruct (validate_delivery_arguments owner ttl) as [[]|] eqn:Hv; [|done].
  destruct (validate_delivery_arguments_Ok _ _ Hv) as [Ho Hq]. split; [done|]. split; [done|].
  fold t in Hc.
  destruct (List.filter (claimable t) (ws_values w)) as [|c cs] eqn:Hf; injection Hc as <- <-.
  - left. split; [done|]. split; [done|]. intros id i Hi.
    destruct (claimable t i) eqn:Hcl; [|done]. exfalso.
    assert (In i (List.filter (claimable t) (ws_values w))) as Hin
      by (apply filter_In; split; [by eapply ws_values_in|done]).
    by rewrite Hf in Hin.
  - right. set (i := min_by claim_leb c cs).
    destruct (min_by_spec claim_leb claim_leb_total claim_leb_trans cs c) as [Hin Hmin].
    fold i in Hin, Hmin. exists i.
    assert (In i (List.filter (claimable t) (ws_values w))) as Hin'
      by (rewrite Hf; by apply list_elem_of_In).
    apply filter_In in Hin' as [Hval Hcl]. split_and!; try done; [by apply ws_values_elem|].
    intros id j Hj Hcj. rewrite Forall_forall in Hmin. apply (Hmin j).
    apply list_elem_of_In. rewrite <-Hf. apply filter_In. split; [by eapply ws_values_in|done].
Qed.

Lemma delivery_valid i token now :
  delivery_invalid i token now = false ->
  wi_status i = WS_CLAIMED /\ wi_delivery_token i = Some token /\
  exists t, wi_lease_expires_at i = Some t /\ now < t.
Proof.
  unfold delivery_invalid. intros Hd.
  apply orb_false_iff in Hd as [[H1 H2]%orb_false_iff H3]. reflect.
  split; [done|]. split; [done|]. destruct (wi_lease_expires_at i) as [t|]; [|done].
  reflect. by exists t.
Qed.

(** What [_require_delivery] lets through. *)
Lemma require_delivery_Ok id token now st w i :
  require_delivery id token now st w = Ok i ->
  ws_items w !! id = Some i /\
  ((wi_status i = st /\ wi_last_delivery_token i = Some token) \/
   (wi_status i = WS_CLAIMED /\ wi_delivery_token i = Some token /\
    exists t, wi_lease_expires_at i = Some t /\ now < t)).
Proof.
  unfold require_delivery. intros Hr. destruct (work_get id w) as [j|] eqn:Hg; [|done].
  apply work_get_Ok in Hg.
  destruct (bool_decide (wi_status j = st) && _) eqn:Hb.
  - injection Hr as ->. reflect. split; [done|]. by left.
  - destruct (delivery_invalid j token now) eqn:Hd; [done|]. injection Hr as ->.
    apply delivery_valid in Hd. split; [done|]. by right.
Qed.

Lemma work_after_step c w :
  work_ok w -> forall id, item_step c id (ws_items w !! id) (ws_items (work_after c w) !! id).
Proof.
  intros Hw. pose proof Hw as [Hitems _]. destruct c; simpl.
  - destruct (work_enqueue amb c w) as [[w' i]|] eqn:E; [|intros; apply ItemKept].
    unfold work_enqueue in E. destruct (ws_idempotency w !! _) as [eid|].
    + destruct (ws_items w !! eid); [|done]. destruct (negb _); [done|].
      injection E as <- <-. intros; apply ItemKept.
    + destruct (FlowWorkItem_new _) as [item|] eqn:Hn; [|done]. injection E as <- <-.
      apply checked_Ok in Hn as (_ & _ & ->). simpl. apply item_put_step.
      by eapply ItemEnqueued.
  - destruct (work_review amb r w) as [[w' p]|] eqn:E; [|intros; apply ItemKept].
    unfold work_review in E. destruct (ws_review_idempotency w !! _) as [ex|].
    + destruct (validate_review_intent _ _); [|done]. destruct (work_get _ _); [|done].
      injection E as <- <-. intros; apply ItemKept.
    + destruct (work_get _ _) as [i|] eqn:Hg; [|done]. apply work_get_Ok in Hg.
      case_bool_decide as Hb; [|done]. injection E as <- <-. simpl.
      destruct (Hitems _ _ Hg) as [Hid _]. rewrite Hid.
      apply item_put_step. rewrite Hg. by eapply ItemReviewed.
  - destruct (work_claim amb owner_id ttl now w) as [[w' o]|] eqn:E; [|intros; apply ItemKept].
    destruct (claim_spec _ _ _ _ _ _ _ Hw E) as (Ho & _ & [(_ & -> & _)|(i & Hi & Hcl & _ & _ & ->)]);
      [intros; apply ItemKept|].
    simpl. apply item_put_step. rewrite Hi. by eapply ItemClaimed.
  - destruct (work_renew amb id token ttl now w) as [[w' o]|] eqn:E; [|intros; apply ItemKept].
    unfold work_renew, require_active_delivery in E. destruct (Qle_bool ttl 0); [done|].
    destruct (work_get id w) as [i|] eqn:Hg; [|done]. apply work_get_Ok in Hg.
    destruct (delivery_invalid _ _ _) eqn:Hd; [done|]. injection E as <- <-.
    apply delivery_valid in Hd as (Hst & Htk & _). simpl. apply item_put_step. rewrite Hg.
    by eapply ItemRenewed.
  - destruct (work_complete amb id token now w) as [[w' o]|] eqn:E; [|intros; apply ItemKept].
    unfold work_complete in E. destruct (require_delivery _ _ _ _ _) as [i|] eqn:Hr; [|done].
    apply require_delivery_Ok in Hr as [Hg Hr]. case_bool_decide as Hs; injection E as <- <-.
    + intros; apply ItemKept.
    + destruct Hr as [[? _]|(Hst & Htk & _)]; [done|]. simpl. apply item_put_step. rewrite Hg.
      apply ItemSettled with (token := token); try done. by right.
  - destruct (work_block amb id token reason_code now w) as [[w' o]|] eqn:E; [|intros; apply ItemKept].
    unfold work_block, validate_reason_code in E.
    destruct (blank reason_code) eqn:Hb; [done|]. destruct (256 <? slen reason_code) eqn:Hl; [done|].
    simpl in E. destruct (require_delivery _ _ _ _ _) as [i|] eqn:Hr; [|done].
    apply require_delivery_Ok in Hr as [Hg Hr]. case_bool_decide as Hs; injection E as <- <-.
    + intros; apply ItemKept.
    + destruct Hr as [[? _]|(Hst & Htk & _)]; [done|]. simpl. apply item_put_step. rewrite Hg.
      apply ItemSettled with (token := token); try done; [|by right].
      exists reason_code. split; [done|]. apply blank_len; [done|]. by reflect.
  - destruct (work_retry amb id token delay error_type now w) as [[w' o]|] eqn:E;
      [|intros; apply ItemKept].
    unfold work_retry in E. destruct (Qltb delay 0); [done|].
    destruct (match error_type with Some _ => _ | None => _ end) eqn:He; [done|].
    destruct (require_delivery _ _ _ _ _) as [i|] eqn:Hr; [|done].
    apply require_delivery_Ok in Hr as [Hg Hr]. case_bool_decide as Hs; injection E as <- <-.
    + intros; apply ItemKept.
    + destruct Hr as [[? _]|(Hst & Htk & _)]; [done|]. simpl. apply item_put_step. rewrite Hg.
      apply ItemSettled with (token := token); try done. left. unfold opt_len_ok.
      destruct error_type as [e|]; [|done]. apply orb_false_iff in He as [Hb Hl]. reflect.
      by apply blank_len.
Qed.

(** ** The invariant *)

(** [FlowWorkItem_new i = Ok i], case by case. *)
Record item_valid (i : FlowWorkItem) : Prop := {
  iv_fields : FlowWorkItem_fields i = true;
  iv_claimed : wi_status i = WS_CLAIMED ->
    is_Some (wi_owner_id i) /\ is_Some (wi_delivery_token i) /\ is_Some (wi_claimed_at i) /\
    is_Some (wi_lease_expires_at i) /\ 1 <= wi_attempt i;
  iv_unclaimed : wi_status i <> WS_CLAIMED ->
    wi_owner_id i = None /\ wi_delivery_token i = None /\ wi_claimed_at i = None /\
    wi_lease_expires_at i = None;
  iv_blocked : wi_status i = WS_BLOCKED <-> is_Some (wi_blocked_reason i);
}.

Lemma item_valid_spec i : FlowWorkItem_new i = Ok i <-> item_valid i.
Proof.
  split.
  - intros (Hf & Hv & _)%checked_Ok. unfold FlowWorkItem_validate in Hv. simpl in Hv.
    destruct i as [cmd st att av ow tk ltk ca le lt br up]; simpl in *.
    destruct (att <? 1) eqn:Ha; destruct st, ow, tk, ca, le, br; simpl in Hv; try discriminate Hv;
      (constructor; simpl;
       [exact Hf
       |intros Hs; first [discriminate Hs|reflect;
        split_and!; first [by eexists|lia]]
       |intros Hs; try congruence; done
       |split; [intros Hs; first [discriminate Hs|by eexists]
               |intros [? Hs]; first [discriminate Hs|done]]]).
  - intros [Hf Hc Hu Hb]. apply checked_Ok. split_and!; [done| |done].
    unfold FlowWorkItem_validate. destruct i as [cmd st att av ow tk ltk ca le lt br up]; simpl in *.
    assert (st = WS_CLAIMED -> (att <? 1) = false) as Ha.
    { intros Hs. apply Z.ltb_ge. apply Hc, Hs. }
    destruct st; simpl in *;
      try (destruct Hu as (-> & -> & -> & ->); [done|]; simpl);
      try (destruct (Hc eq_refl) as ([? ->] & [? ->] & [? ->] & [? ->] & _); rewrite Ha by done; simpl);
      destruct br; simpl; try done; exfalso;
      first [discriminate (proj2 Hb (ex_intro _ _ eq_refl)) | by destruct (proj1 Hb eq_refl)].
Qed.

Lemma item_step_valid c id o o' :
  item_step c id o o' ->
  (forall i, o = Some i -> wi_id i = id /\ item_valid i) ->
  forall i, o' = Some i -> wi_id i = id /\ item_valid i.
Proof.
  intros Hs Ho i Hi. destruct Hs as [o|amb cmd o Hc Hid|amb owner ttl now j Hc Hlen Hcl
    |amb token ttl now j Hc Hst Htk|token st av e reason now j Hst Htk Hc Hr He|amb r j Hc Hid Hst].
  - by apply Ho.
  - injection Hi as <-. split; [done|]. constructor; simpl; try done;
      by split; [|intros [? ?]].
  - injection Hi as <-. destruct (Ho j eq_refl) as [Hj [Hf Hv1 Hv2 Hv3]]. split; [done|].
    unfold FlowWorkItem_fields in Hf. reflect. unfold claimable in Hcl.
    assert (wi_blocked_reason j = None) as Hbr.
    { destruct (wi_blocked_reason j) eqn:Eb; [|done]. exfalso.
      assert (wi_status j = WS_BLOCKED) as Hb by (apply Hv3; by eexists). by rewrite Hb in Hcl. }
    constructor; simpl.
    + unfold FlowWorkItem_fields, opt_len_ok at 1. simpl. rewrite Hlen, Hbr.
      rewrite (proj2 (Z.leb_le 0 (wi_attempt j + 1))) by lia. simpl. by rewrite H1.
    + intros _. split_and!; try (by eexists). lia.
    + done.
    + rewrite Hbr. split; [done|]. by intros [? ?].
  - injection Hi as <-. destruct (Ho j eq_refl) as [Hj [Hf Hv1 Hv2 Hv3]]. split; [done|].
    constructor; simpl; try done.
    intros Hs. destruct (Hv1 Hs) as (?&?&?&?&?). split_and!; done || by eexists.
  - injection Hi as <-. destruct (Ho j eq_refl) as [Hj [Hf Hv1 Hv2 Hv3]]. split; [done|].
    assert (wi_blocked_reason j = None) as Hbr.
    { destruct (wi_blocked_reason j) eqn:Eb; [|done]. exfalso.
      assert (wi_status j = WS_BLOCKED) as Hb by (apply Hv3; by eexists). congruence. }
    unfold FlowWorkItem_fields in Hf. reflect.
    assert (opt_len_ok e = true) as Hle by (by destruct He as [He| ->]).
    constructor; simpl; try done.
    + unfold FlowWorkItem_fields. simpl. rewrite Hle, (proj2 (Z.leb_le 0 (wi_attempt j))) by lia.
      simpl. destruct st; try done; try (by subst reason; rewrite Hbr). by destruct Hr as (r & -> & ?).
    + by destruct st.
    + destruct st; try done; try (subst reason; rewrite Hbr; split; [done|by intros [? ?]]).
      destruct Hr as (r & -> & ?). split; [by eexists|done].
  - injection Hi as <-. destruct (Ho j eq_refl) as [Hj [Hf Hv1 Hv2 Hv3]]. unfold apply_review.
    destruct Hv2 as (H1 & H2 & H3 & H4); [congruence|]. unfold FlowWorkItem_fields in Hf. reflect.
    destruct (wr_decision r); (split; [done|]); constructor; simpl; try done;
      try (by split; [|intros [? ?]]).
    + unfold FlowWorkItem_fields. simpl. rewrite H1. by rewrite (proj2 (Z.leb_le 0 _)) by lia.
    + unfold FlowWorkItem_fields. simpl. rewrite H1, H5.
      by rewrite (proj2 (Z.leb_le 0 _)) by lia.
Qed.

Lemma item_step_present c id o o' : item_step c id o o' -> is_Some o -> is_Some o'.
Proof. intros Hs [i ->]. inversion Hs; subst; by eexists. Qed.

(** The idempotency tables only ever gain entries that lead to items. *)
Lemma work_after_tables c w :
  work_ok w ->
  (forall k id, ws_idempotency (work_after c w) !! k = Some id ->
     ws_idempotency w !! k = Some id \/ is_Some (ws_items (work_after c w) !! id)) /\
  (forall k r, ws_review_idempotency (work_after c w) !! k = Some r ->
     ws_review_idempotency w !! k = Some r \/ is_Some (ws_items (work_after c w) !! wr_work_id r)).
Proof.
  intros Hw. destruct c; simpl.
  - destruct (work_enqueue amb c w) as [[w' i]|] eqn:E; [|split; auto].
    unfold work_enqueue in E. destruct (ws_idempotency w !! _) as [eid|].
    + destruct (ws_items w !! eid); [|done]. destruct (negb _); [done|].
      injection E as <- <-. split; auto.
    + destruct (FlowWorkItem_new _) as [item|]; [|done]. injection E as <- <-. simpl.
      split; [|auto]. intros k id Hk. apply lookup_insert_Some in Hk as [[_ <-]|[_ Hk]]; [|auto].
      right. rewrite lookup_insert_eq. by eexists.
  - destruct (work_review amb r w) as [[w' p]|] eqn:E; [|split; auto].
    unfold work_review in E. destruct (ws_review_idempotency w !! _) as [ex|].
    + destruct (validate_review_intent _ _); [|done]. destruct (work_get _ _); [|done].
      injection E as <- <-. split; auto.
    + destruct (work_get _ _) as [i|] eqn:Hg; [|done]. apply work_get_Ok in Hg.
      destruct (negb _); [done|]. injection E as <- <-. simpl. split; [auto|].
      intros k r' Hk. apply lookup_insert_Some in Hk as [[_ <-]|[_ Hk]]; [|auto].
      right. simpl. destruct (proj1 Hw _ _ Hg) as [-> _]. rewrite lookup_insert_eq. by eexists.
  - destruct (work_claim amb owner_id ttl now w) as [[w' o]|] eqn:E; [|split; auto].
    destruct (claim_spec _ _ _ _ _ _ _ Hw E) as (_ & _ & [(_ & -> & _)|(i & _ & _ & _ & _ & ->)]);
      simpl; split; auto.
  - destruct (work_renew amb id token ttl now w) as [[w' o]|] eqn:E; [|split; auto].
    unfold work_renew in E. destruct (Qle_bool ttl 0); [done|].
    destruct (require_active_delivery _ _ _ _); [|done]. injection E as <- <-. split; auto.
  - destruct (work_complete amb id token now w) as [[w' o]|] eqn:E; [|split; auto].
    unfold work_complete in E. destruct (require_delivery _ _ _ _ _) as [i|]; [|done].
    destruct (bool_decide _); injection E as <- <-; split; auto.
  - destruct (work_block amb id token reason_code now w) as [[w' o]|] eqn:E; [|split; auto].
    unfold work_block in E. destruct (validate_reason_code _); [|done].
    destruct (require_delivery _ _ _ _ _) as [i|]; [|done].
    destruct (bool_decide _); injection E as <- <-; split; auto.
  - destruct (work_retry amb id token delay error_type now w) as [[w' o]|] eqn:E; [|split; auto].
    unfold work_retry in E. destruct (Qltb delay 0); [done|]. destruct (match error_type with Some _ => _ | None => _ end); [done|].
    destruct (require_delivery _ _ _ _ _) as [i|]; [|done].
    destruct (bool_decide _); injection E as <- <-; split; auto.
Qed.

Lemma work_after_ok c w : work_ok w -> work_ok (work_after c w).
Proof.
  intros Hw. pose proof (work_after_step c w Hw) as Hstep.
  destruct (work_after_tables c w Hw) as [Ht1 Ht2]. pose proof Hw as (Hi & Hk & Hr).
  split; [|split].
  - intros id i Hid. rewrite item_valid_spec.
    eapply item_step_valid; [apply (Hstep id)| |exact Hid].
    intros j Hj. rewrite <-item_valid_spec. by apply Hi.
  - intros k id Hkid. destruct (Ht1 _ _ Hkid) as [Hold|?]; [|done].
    eapply item_step_present; [apply Hstep|]. by eapply Hk.
  - intros k r Hkr. destruct (Ht2 _ _ Hkr) as [Hold|?]; [|done].
    eapply item_step_present; [apply Hstep|]. by eapply Hr.
Qed.

Lemma work_trace_ok cs : forall w, work_ok w -> work_ok (work_trace cs w).
Proof.
  induction cs as [|c cs IH]; intros w Hw; [done|]. apply IH. by apply work_after_ok.
Qed.

Lemma work_ok_empty : work_ok work_source_empty.
Proof. split_and!; intros k x; simpl; by rewrite lookup_empty. Qed.

(** ** Properties *)

(** The statuses a call can take an item to. *)
Definition work_next (s : FlowWorkStatus) : list FlowWorkStatus :=
  match s with
  | WS_PENDING => [WS_CLAIMED]
  | WS_CLAIMED => [WS_CLAIMED; WS_PENDING; WS_COMPLETED; WS_BLOCKED]
  | WS_BLOCKED => [WS_PENDING; WS_DISCARDED]
  | WS_COMPLETED | WS_DISCARDED => []
  end.

(** [c] does not enqueue a second command under the id [id]. *)
Definition keeps_id (id : uuid) (c : work_call) : Prop :=
  match c with WEnqueue _ cmd => wc_id cmd <> id | _ => True end.

#[export] Instance keeps_id_dec id c : Decision (keeps_id id c).
Proof. destruct c; simpl; apply _. Defined.

Lemma item_step_life c id i o' :
  item_step c id (Some i) o' -> keeps_id id c ->
  exists i', o' = Some i' /\ wi_command i' = wi_command i /\ wi_attempt i <= wi_attempt i' /\
    (i' = i \/ wi_status i' ∈ work_next (wi_status i)).
Proof.
  intros Hs Hk. inversion Hs; subst.
  - exists i. split_and!; first [done|lia|by left].
  - done.
  - eexists. split; [done|]. simpl. split_and!; [done|lia|right].
    unfold claimable in *. destruct (wi_status i); simpl in *; try done; set_solver.
  - eexists. split; [done|]. simpl. split_and!; [done|lia|right].
    match goal with H : wi_status i = WS_CLAIMED |- _ => rewrite H end. simpl. set_solver.
  - eexists. split; [done|]. simpl. split_and!; [done|lia|right].
    match goal with H : wi_status i = WS_CLAIMED |- _ => rewrite H end. simpl.
    destruct status; try done; set_solver.
  - eexists. split; [done|]. unfold apply_review.
    match goal with H : wi_status i = WS_BLOCKED |- _ => rewrite H end.
    destruct (wr_decision r); simpl; (split_and!; [done|lia|right; set_solver]).
Qed.

(** The item a first enqueue of [cmd] stores. *)
Definition fresh_item (amb : ambient) (cmd : FlowWorkCommand) : FlowWorkItem :=
  mk_FlowWorkItem cmd WS_PENDING 0 (amb_clock amb) None None None None None None None (amb_clock amb).

(** What one call does to a stored item, every call included: a step of its
    life cycle, or, for an enqueue of a command with the same id under a new
    idempotency key, a fresh item in its place. *)
Definition item_moved (w : WorkSource) (c : work_call) (id : uuid) (i i' : FlowWorkItem) : Prop :=
  (wi_command i' = wi_command i /\ wi_attempt i <= wi_attempt i' /\
   (i' = i \/ wi_status i' ∈ work_next (wi_status i))) \/
  (exists amb cmd, c = WEnqueue amb cmd /\ wc_id cmd = id /\
     ws_idempotency w !! wc_idempotency_key cmd = None /\ i' = fresh_item amb cmd).

Lemma fresh_item_new amb cmd : FlowWorkItem_new (fresh_item amb cmd) = Ok (fresh_item amb cmd).
Proof. reflexivity. Qed.

Lemma enqueue_new amb cmd w :
  ws_idempotency w !! wc_idempotency_key cmd = None ->
  work_after (WEnqueue amb cmd) w =
    mk_WorkSource (<[wc_id cmd := fresh_item amb cmd]> (ws_items w))
      (<[wc_idempotency_key cmd := wc_id cmd]> (ws_idempotency w))
      (ws_reviews w) (ws_review_idempotency w).
Proof. intros Hk. simpl. unfold work_enqueue. rewrite Hk. reflexivity. Qed.

Lemma enqueue_known amb cmd w eid :
  ws_idempotency w !! wc_idempotency_key cmd = Some eid -> work_after (WEnqueue amb cmd) w = w.
Proof.
  intros Hk. simpl. unfold work_enqueue. rewrite Hk. destruct (ws_items w !! eid); [|done].
  by destruct (negb _).
Qed.

Lemma item_step_moved c w id i :
  work_ok w -> ws_items w !! id = Some i ->
  exists i', ws_items (work_after c w) !! id = Some i' /\ FlowWorkItem_new i' = Ok i' /\
    item_moved w c id i i'.
Proof.
  intros Hw Hi. pose proof (work_after_step c w Hw id) as Hs. rewrite Hi in Hs.
  destruct (item_step_present _ _ _ _ Hs) as [i' Hi']; [by eexists|]. exists i'.
  split; [done|]. split; [apply (proj1 (work_after_ok c w Hw) _ _ Hi')|].
  destruct (decide (keeps_id id c)) as [Hk|Hk].
  - destruct (item_step_life c id i _ Hs Hk) as (j & Hj & Hl). rewrite Hi' in Hj.
    injection Hj as <-. by left.
  - destruct c; simpl in Hk; try by destruct Hk. apply dec_stable in Hk.
    destruct (ws_idempotency w !! wc_idempotency_key c) as [eid|] eqn:Ek.
    + rewrite (enqueue_known _ _ _ _ Ek), Hi in Hi'. injection Hi' as <-. left.
      split; [done|]. split; [lia|by left].
    + right. exists amb, c. rewrite (enqueue_new _ _ _ Ek) in Hi'. simpl in Hi'.
      rewrite Hk, lookup_insert_eq in Hi'. by injection Hi' as <-.
Qed.

(** The tables agree with each other: every stored item is reached by its
    own idempotency key; the review recorded under a key is one of its
    item's reviews, and the other way round. *)
Definition work_tables (w : WorkSource) : Prop :=
  (forall id i, ws_items w !! id = Some i ->
     ws_idempotency w !! wc_idempotency_key (wi_command i) = Some id) /\
  (forall k r, ws_review_idempotency w !! k = Some r ->
     wr_idempotency_key r = k /\ r ∈ default [] (ws_reviews w !! wr_work_id r)) /\
  (forall id r, r ∈ default [] (ws_reviews w !! id) ->
     wr_work_id r = id /\ ws_review_idempotency w !! wr_idempotency_key r = Some r).

(** Calls other than [enqueue] and [review] leave the tables alone. *)
Lemma work_after_delivery c w :
  match c with WEnqueue _ _ | WReview _ _ => False | _ => True end ->
  ws_idempotency (work_after c w) = ws_idempotency w /\
  ws_reviews (work_after c w) = ws_reviews w /\
  ws_review_idempotency (work_after c w) = ws_review_idempotency w.
Proof.
  intros Hc. destruct c; simpl; try done;
    unfold work_claim, work_renew, work_complete, work_block, work_retry.
  - destruct (validate_delivery_arguments _ _); [|done]. by destruct (List.filter _ _).
  - destruct (Qle_bool ttl 0); [done|]. by destruct (require_active_delivery _ _ _ _).
  - destruct (require_delivery _ _ _ _ _) as [i|]; [|done]. by destruct (bool_decide _).
  - destruct (validate_reason_code _); [|done].
    destruct (require_delivery _ _ _ _ _) as [i|]; [|done]. by destruct (bool_decide _).
  - destruct (Qltb delay 0); [done|].
    destruct (match error_type with Some _ => _ | None => _ end); [done|].
    destruct (require_delivery _ _ _ _ _) as [i|]; [|done]. by destruct (bool_decide _).
Qed.

Lemma review_known amb r w ex :
  ws_review_idempotency w !! wr_idempotency_key r = Some ex -> work_after (WReview amb r) w = w.
Proof.
  intros Hk. simpl. unfold work_review. rewrite Hk.
  destruct (validate_review_intent ex r); [|done]. by destruct (work_get _ w).
Qed.

(** The review as [review] records it. *)
Definition persisted_review (amb : ambient) (r : FlowWorkReview) : FlowWorkReview :=
  mk_FlowWorkReview (wr_id r) (wr_work_id r) (wr_decision r) (wr_reviewer_id r) (wr_reason_code r)
    (wr_idempotency_key r) (wr_delay_seconds r) (amb_clock amb).

Lemma review_new amb r w :
  work_ok w -> ws_review_idempotency w !! wr_idempotency_key r = None ->
  work_after (WReview amb r) w = w \/
  exists i, ws_items w !! wr_work_id r = Some i /\
    work_after (WReview amb r) w =
      mk_WorkSource (<[wr_work_id r := apply_review i r (amb_clock amb)]> (ws_items w))
        (ws_idempotency w)
        (<[wr_work_id r := default [] (ws_reviews w !! wr_work_id r) ++ [persisted_review amb r]]>
           (ws_reviews w))
        (<[wr_idempotency_key r := persisted_review amb r]> (ws_review_idempotency w)).
Proof.
  intros Hw Hk. simpl. unfold work_review. rewrite Hk.
  destruct (work_get _ w) as [i|] eqn:Hg; [|by left]. apply work_get_Ok in Hg.
  destruct (negb _); [by left|]. right. exists i. split; [done|]. simpl.
  by destruct (proj1 Hw _ _ Hg) as [-> _].
Qed.

Lemma apply_review_command i r now : wi_command (apply_review i r now) = wi_command i.
Proof. unfold apply_review. by destruct (wr_decision r). Qed.

Lemma work_tables_enqueue amb cmd w : work_tables w -> work_tables (work_after (WEnqueue amb cmd) w).
Proof.
  intros (Hi & Hk & Hr). destruct (ws_idempotency w !! wc_idempotency_key cmd) as [eid|] eqn:E.
  { by rewrite (enqueue_known _ _ _ _ E). }
  rewrite (enqueue_new _ _ _ E). split_and!; simpl; [|done|done].
  intros id i Hid. apply lookup_insert_Some in Hid as [[<- <-]|[_ Hid]].
  - simpl. by rewrite lookup_insert_eq.
  - apply Hi in Hid. rewrite lookup_insert_ne; [done|congruence].
Qed.

Lemma work_tables_review amb r w :
  work_ok w -> work_tables w -> work_tables (work_after (WReview amb r) w).
Proof.
  intros Hw Ht. destruct (ws_review_idempotency w !! wr_idempotency_key r) as [ex|] eqn:E.
  { by rewrite (review_known _ _ _ _ E). }
  destruct (review_new amb r w Hw E) as [->|(j & Hj & ->)]; [done|].
  destruct Ht as (Hi & Hk & Hr). split_and!; simpl.
  - intros id i Hid. apply lookup_insert_Some in Hid as [[<- <-]|[_ Hid]]; [|by apply Hi].
    rewrite apply_review_command. by apply Hi.
  - intros k q Hq. apply lookup_insert_Some in Hq as [[<- <-]|[_ Hq]].
    + simpl. rewrite lookup_insert_eq. split; [done|]. simpl. apply elem_of_app. right. by left.
    + destruct (Hk _ _ Hq) as [Hkey Hin]. split; [done|].
      destruct (decide (wr_work_id q = wr_work_id r)) as [Heq|Hne].
      * rewrite Heq in Hin |- *. rewrite lookup_insert_eq. simpl. apply elem_of_app. by left.
      * by rewrite lookup_insert_ne.
  - assert (forall id q, q ∈ default [] (ws_reviews w !! id) ->
              wr_work_id q = id /\
              <[wr_idempotency_key r := persisted_review amb r]> (ws_review_idempotency w)
                !! wr_idempotency_key q = Some q) as Hold.
    { intros id q Hq. destruct (Hr _ _ Hq) as [Hid Hkey]. split; [done|].
      rewrite lookup_insert_ne; [done|congruence]. }
    intros id q. destruct (decide (wr_work_id r = id)) as [<-|Hne].
    + rewrite lookup_insert_eq. simpl. rewrite elem_of_app. intros [Hq|Hq]; [by apply Hold|].
      apply list_elem_of_singleton in Hq as ->. simpl. split; [done|]. by rewrite lookup_insert_eq.
    + rewrite lookup_insert_ne by done. apply Hold.
Qed.

Lemma work_tables_after c w : work_ok w -> work_tables w -> work_tables (work_after c w).
Proof.
  intros Hw Ht. destruct (match c with WEnqueue _ _ | WReview _ _ => false | _ => true end) eqn:Hc.
  - destruct (work_after_delivery c w) as (H1 & H2 & H3); [by destruct c|].
    pose proof (work_after_step c w Hw) as Hs. destruct Ht as (Hi & Hk & Hr).
    unfold work_tables. rewrite H1, H2, H3. split_and!; [|done|done].
    intros id i Hid. specialize (Hs id). rewrite Hid in Hs.
    destruct (ws_items w !! id) as [j|] eqn:Hj.
    + destruct (item_step_life c id j _ Hs) as (i' & [= <-] & -> & _); [by destruct c|]. by apply Hi.
    + inversion Hs; subst; done.
  - destruct c; try done; [by apply work_tables_enqueue|by apply work_tables_review].
Qed.

Lemma work_tables_trace cs : forall w, work_ok w -> work_tables w -> work_tables (work_trace cs w).
Proof.
  induction cs as [|c cs IH]; intros w Hw Ht; [done|].
  apply IH; [by apply work_after_ok|by apply work_tables_after].
Qed.

Lemma work_tables_empty : work_tables work_source_empty.
Proof.
  split_and!; intros k x; simpl; rewrite ?lookup_empty; try done. simpl. by intros ?%elem_of_nil.
Qed.

(** C40: the work source stays consistent.  After any calls from the empty
    source: every item is filed under its own id, is one its class's
    validator accepts (claimed items carry complete delivery fields and an
    attempt, all others none; exactly blocked items carry a reason) and is
    the one its idempotency key leads to; every idempotency key leads to a
    stored item; the review recorded under an idempotency key is among the
    reviews of a stored item, and every review of an item is the one recorded
    under its key.  Whatever the next call is, it leaves an accepted item
    under the id, and moves it only along the life cycle PENDING -> CLAIMED ->
    CLAIMED / PENDING / COMPLETED / BLOCKED, BLOCKED -> PENDING / DISCARDED,
    with its command unchanged and its attempt count not decreased; the one
    exception is an enqueue of a command with the same id under a new
    idempotency key, which puts a fresh pending item in its place. *)
Theorem work_source_invariant cs c id i :
  let w := work_trace cs work_source_empty in
  ws_items w !! id = Some i ->
  wi_id i = id /\ FlowWorkItem_new i = Ok i /\ work_tables w /\
  (forall k id', ws_idempotency w !! k = Some id' -> is_Some (ws_items w !! id')) /\
  (forall k r, ws_review_idempotency w !! k = Some r -> is_Some (ws_items w !! wr_work_id r)) /\
  exists i', ws_items (work_after c w) !! id = Some i' /\ FlowWorkItem_new i' = Ok i' /\
    item_moved w c id i i'.
Proof.
  intros w Hi. pose proof (work_trace_ok cs _ work_ok_empty) as Hw. fold w in Hw.
  destruct (proj1 Hw _ _ Hi) as [Hid Hv]. split_and!; try done.
  - apply work_tables_trace; [exact work_ok_empty|exact work_tables_empty].
  - exact (proj1 (proj2 Hw)).
  - exact (proj2 (proj2 Hw)).
  - by apply item_step_moved.
Qed.

(** Claiming.  On a consistent source with valid arguments, [claim]
    returns an item exactly when one is ready (pending and available, or
    claimed under an expired lease); the item returned is the least of the
    ready ones by availability, creation time and id, now leased to the
    caller under the new token with one more attempt, and no other item
    changes. *)
Theorem claim_selects_oldest_ready amb owner ttl now w w' o :
  work_ok w -> work_claim amb owner ttl now w = Ok (w', o) ->
  let t := default (amb_clock amb) now in
  match o with
  | None => w' = w /\ forall id i, ws_items w !! id = Some i -> claimable t i = false
  | Some i' =>
      exists i, ws_items w !! wi_id i' = Some i /\ claimable t i = true /\
        (forall id j, ws_items w !! id = Some j -> claimable t j = true -> claim_leb i j = true) /\
        wi_status i' = WS_CLAIMED /\ wi_owner_id i' = Some owner /\
        wi_delivery_token i' = Some (amb_uuid amb 0) /\ wi_attempt i' = wi_attempt i + 1 /\
        wi_lease_expires_at i' = Some (t + timedelta ttl) /\
        ws_items w' = <[wi_id i' := i']> (ws_items w)
  end.
Proof.
  intros Hw Hc t. destruct (claim_spec _ _ _ _ _ _ _ Hw Hc)
    as (_ & _ & [(-> & -> & Hn)|(i & Hi & Hcl & Hmin & -> & ->)]); [done|].
  exists i. done.
Qed.

(** The delivery [t] of item [id] is over: another one was or is under way. *)
Definition delivery_over (id t : uuid) (w : WorkSource) : Prop :=
  exists i, ws_items w !! id = Some i /\ wi_delivery_token i <> Some t /\
    (wi_status i = WS_CLAIMED \/ wi_last_delivery_token i <> Some t).

Definition work_not_reissued (t : uuid) (c : work_call) : Prop :=
  match c with WClaim amb _ _ _ => amb_uuid amb 0 <> t | _ => True end.

Lemma delivery_over_after id t c w :
  work_ok w -> work_not_reissued t c -> delivery_over id t w -> delivery_over id t (work_after c w).
Proof.
  intros Hw Hc (i & Hi & Hd & Hl). pose proof (work_after_step c w Hw id) as Hs. rewrite Hi in Hs.
  unfold delivery_over. inversion Hs as [o H1 H2|amb cmd o H1 H2 H3 H4|amb ow ttl now j H1 H2 H3 H4 H5
    |amb tk ttl now j H1 H2 H3 H4 H5|tk st av e r now j H1 H2 H3 H4 H5 H6 H7|amb r j H1 H2 H3 H4 H5]; subst.
  - by exists i.
  - eexists. split; [done|]. by split; [|right].
  - eexists. split; [done|]. simpl in *. split; [congruence|by left].
  - eexists. split; [done|]. simpl. split; [done|by left].
  - eexists. split; [done|]. simpl. split; [done|by right].
  - eexists. split; [done|]. unfold apply_review.
    destruct (wr_decision r); simpl; (split; [done|right]); destruct Hl as [Hl|Hl]; congruence.
Qed.

Lemma delivery_over_trace id t cs : forall w,
  work_ok w -> Forall (work_not_reissued t) cs -> delivery_over id t w ->
  delivery_over id t (work_trace cs w).
Proof.
  induction cs as [|c cs IH]; intros w Hw Hcs Hd; [done|].
  apply Forall_cons in Hcs as [Hc Hcs]. apply IH; [by apply work_after_ok|done|].
  by apply delivery_over_after.
Qed.

(** Delivery fencing.  Once an item has been claimed again under another
    token, whatever calls follow (new claims issuing new tokens), the holder
    of the old token can no longer renew, complete, block or retry it: every
    such call raises. *)
Theorem stale_delivery_fenced amb owner ttl now w w1 i cs t :
  work_ok w -> work_claim amb owner ttl now w = Ok (w1, Some i) ->
  amb_uuid amb 0 <> t -> Forall (work_not_reissued t) cs ->
  let w2 := work_trace cs w1 in
  forall amb' now',
    (forall ttl', ~ is_ok (work_renew amb' (wi_id i) t ttl' now' w2)) /\
    ~ is_ok (work_complete amb' (wi_id i) t now' w2) /\
    (forall r, ~ is_ok (work_block amb' (wi_id i) t r now' w2)) /\
    (forall d e, ~ is_ok (work_retry amb' (wi_id i) t d e now' w2)).
Proof.
  intros Hw Hc Ht Hcs w2 amb' now'.
  pose proof (work_after_ok (WClaim amb owner ttl now) w Hw) as Hw1. simpl in Hw1.
  rewrite Hc in Hw1. simpl in Hw1.
  assert (delivery_over (wi_id i) t w2) as (j & Hj & Hd & Hl).
  { apply delivery_over_trace; [done|done|].
    destruct (claim_spec _ _ _ _ _ _ _ Hw Hc)
      as (_ & _ & [(Hn & _)|(k & _ & _ & _ & Hk & ->)]); [done|].
    injection Hk as ->. eexists. split; [apply lookup_insert_eq|]. simpl.
    split; [congruence|by left]. }
  assert (forall n st, st <> WS_CLAIMED -> ~ is_ok (require_delivery (wi_id i) t n st w2)) as Hreq.
  { intros n st Hst [k Hk]. apply require_delivery_Ok in Hk as [Hk Hcase].
    rewrite Hj in Hk. injection Hk as <-.
    destruct Hcase as [[Hs Hlast]|(Hs & Htk & _)]; [|done].
    destruct Hl as [Hl|Hl]; congruence. }
  split_and!.
  - intros ttl' [x Hx]. unfold work_renew, require_active_delivery, work_get in Hx.
    destruct (Qle_bool ttl' 0); [done|]. rewrite Hj in Hx.
    destruct (delivery_invalid j t _) eqn:Hinv; [done|].
    apply delivery_valid in Hinv as (_ & Htk & _). done.
  - intros [x Hx]. unfold work_complete in Hx.
    destruct (require_delivery _ _ _ _ _) as [k|] eqn:E; [|done]. eapply Hreq; [|by exists k]; done.
  - intros r [x Hx]. unfold work_block in Hx. destruct (validate_reason_code r); [|done].
    destruct (require_delivery _ _ _ _ _) as [k|] eqn:E; [|done]. eapply Hreq; [|by exists k]; done.
  - intros d e [x Hx]. unfold work_retry in Hx. destruct (Qltb d 0); [done|].
    destruct (match e with Some _ => _ | None => _ end); [done|].
    destruct (require_delivery _ _ _ _ _) as [k|] eqn:E; [|done]. eapply Hreq; [|by exists k]; done.
Qed.

(** An idempotency key, once bound, stays bound to the same item. *)
Lemma idempotency_kept c w k id :
  ws_idempotency w !! k = Some id -> ws_idempotency (work_after c w) !! k = Some id.
Proof.
  intros Hk. destruct c; simpl.
  - destruct (work_enqueue amb c w) as [[w' i]|] eqn:E; [|done]. unfold work_enqueue in E.
    destruct (ws_idempotency w !! wc_idempotency_key c) as [eid|] eqn:Ek.
    + destruct (ws_items w !! eid); [|done]. destruct (negb _); [done|]. by injection E as <- <-.
    + destruct (FlowWorkItem_new _) as [item|]; [|done]. injection E as <- <-. simpl.
      rewrite lookup_insert_ne; [done|congruence].
  - destruct (work_review amb r w) as [[w' p]|] eqn:E; [|done]. unfold work_review in E.
    destruct (ws_review_idempotency w !! _) as [ex|].
    + destruct (validate_review_intent _ _); [|done]. destruct (work_get _ _); [|done].
      by injection E as <- <-.
    + destruct (work_get _ _) as [i|]; [|done]. destruct (negb _); [done|]. by injection E as <- <-.
  - destruct (work_claim amb owner_id ttl now w) as [[w' o]|] eqn:E; [|done]. unfold work_claim in E.
    destruct (validate_delivery_arguments _ _); [|done].
    destruct (List.filter _ _); by injection E as <- <-.
  - destruct (work_renew amb id0 token ttl now w) as [[w' o]|] eqn:E; [|done]. unfold work_renew in E.
    destruct (Qle_bool ttl 0); [done|]. destruct (require_active_delivery _ _ _ _); [|done].
    by injection E as <- <-.
  - destruct (work_complete amb id0 token now w) as [[w' o]|] eqn:E; [|done]. unfold work_complete in E.
    destruct (require_delivery _ _ _ _ _) as [i|]; [|done].
    destruct (bool_decide _); by injection E as <- <-.
  - destruct (work_block amb id0 token reason_code now w) as [[w' o]|] eqn:E; [|done].
    unfold work_block in E. destruct (validate_reason_code _); [|done].
    destruct (require_delivery _ _ _ _ _) as [i|]; [|done].
    destruct (bool_decide _); by injection E as <- <-.
  - destruct (work_retry amb id0 token delay error_type now w) as [[w' o]|] eqn:E; [|done].
    unfold work_retry in E. destruct (Qltb delay 0); [done|].
    destruct (match error_type with Some _ => _ | None => _ end); [done|].
    destruct (require_delivery _ _ _ _ _) as [i|]; [|done].
    destruct (bool_decide _); by injection E as <- <-.
Qed.

Lemma idempotency_kept_trace cs k id : forall w,
  ws_idempotency w !! k = Some id -> ws_idempotency (work_trace cs w) !! k = Some id.
Proof.
  induction cs as [|c cs IH]; intros w Hk; [done|]. by apply IH, idempotency_kept.
Qed.

Lemma command_kept_trace cs id : forall w i,
  work_ok w -> Forall (keeps_id id) cs -> ws_items w !! id = Some i ->
  exists i', ws_items (work_trace cs w) !! id = Some i' /\ wi_command i' = wi_command i.
Proof.
  induction cs as [|c cs IH]; intros w i Hw Hcs Hi; [by exists i|].
  apply Forall_cons in Hcs as [Hc Hcs].
  pose proof (work_after_step c w Hw id) as Hs. rewrite Hi in Hs.
  destruct (item_step_life c id i _ Hs Hc) as (i1 & Hi1 & Hcmd & _).
  destruct (IH _ _ (work_after_ok c w Hw) Hcs Hi1) as (i2 & Hi2 & Hcmd2).
  exists i2. split; [done|]. congruence.
Qed.

Lemma enqueue_stored amb c w w1 i :
  work_ok w -> work_enqueue amb c w = Ok (w1, i) ->
  ws_items w1 !! wi_id i = Some i /\ ws_idempotency w1 !! wc_idempotency_key c = Some (wi_id i).
Proof.
  intros (Hi & Hk & _) E. unfold work_enqueue in E.
  destruct (ws_idempotency w !! wc_idempotency_key c) as [eid|] eqn:Ek.
  - destruct (ws_items w !! eid) as [ex|] eqn:Eex; [|done]. destruct (negb _); [done|].
    injection E as <- <-. destruct (Hi _ _ Eex) as [-> _]. done.
  - destruct (FlowWorkItem_new _) as [item|] eqn:Hn; [|done]. injection E as <- <-. simpl.
    by rewrite !lookup_insert_eq.
Qed.

(** Enqueueing is idempotent.  After an enqueue returned an item,
    whatever calls follow (none reusing its command id), enqueueing any
    command with the same idempotency key changes nothing: it returns the
    item of the first command as it now stands when run, kind and data are
    the same, and raises a conflict when they are not. *)
Theorem enqueue_idempotent amb c w w1 i cs :
  work_ok w -> work_enqueue amb c w = Ok (w1, i) -> Forall (keeps_id (wi_id i)) cs ->
  let w2 := work_trace cs w1 in
  exists i2, work_get (wi_id i) w2 = Ok i2 /\ wi_command i2 = wi_command i /\
    forall amb' c', wc_idempotency_key c' = wc_idempotency_key c ->
      if command_same_intent (wi_command i) c' then work_enqueue amb' c' w2 = Ok (w2, i2)
      else exists m, work_enqueue amb' c' w2 = Raise (Exn FlowWorkIdempotencyConflictError m).
Proof.
  intros Hw E Hcs w2. destruct (enqueue_stored _ _ _ _ _ Hw E) as [Hi Hk].
  pose proof (work_after_ok (WEnqueue amb c) w Hw) as Hw1. simpl in Hw1. rewrite E in Hw1.
  simpl in Hw1.
  destruct (command_kept_trace cs _ _ _ Hw1 Hcs Hi) as (i2 & Hi2 & Hcmd).
  exists i2. fold w2 in Hi2. unfold work_get. rewrite Hi2. split; [done|]. split; [done|].
  intros amb' c' Hkey. unfold work_enqueue.
  pose proof (idempotency_kept_trace cs _ _ _ Hk) as Hk2. fold w2 in Hk2.
  rewrite Hkey, Hk2, Hi2, Hcmd.
  destruct (command_same_intent (wi_command i) c'); [done|]. by eexists.
Qed.

Lemma final_kept_trace cs id : forall w i,
  work_ok w -> Forall (keeps_id id) cs -> ws_items w !! id = Some i ->
  work_next (wi_status i) = [] -> ws_items (work_trace cs w) !! id = Some i.
Proof.
  induction cs as [|c cs IH]; intros w i Hw Hcs Hi Hf; [done|].
  apply Forall_cons in Hcs as [Hc Hcs]. apply IH; [by apply work_after_ok|done| |done].
  pose proof (work_after_step c w Hw id) as Hs. rewrite Hi in Hs.
  destruct (item_step_life c id i _ Hs Hc) as (i1 & Hi1 & _ & _ & [->|Hn]); [done|].
  rewrite Hf in Hn. set_solver.
Qed.

(** Completion is final and idempotent.  After [complete] returned,
    whatever calls follow (none reusing the command id), the item is
    unchanged, is never claimed or reviewed, and completing it again under
    the same token returns it unchanged. *)
Theorem completion_final amb id token now w w1 i cs :
  work_ok w -> work_complete amb id token now w = Ok (w1, i) -> Forall (keeps_id id) cs ->
  let w2 := work_trace cs w1 in
  wi_status i = WS_COMPLETED /\ work_get id w2 = Ok i /\
  (forall amb' now', work_complete amb' id token now' w2 = Ok (w2, i)) /\
  (forall amb' o ttl now' w3 j, work_claim amb' o ttl now' w2 = Ok (w3, Some j) -> wi_id j <> id) /\
  (forall amb' r w3 p j, wr_work_id r = id ->
     ws_review_idempotency w2 !! wr_idempotency_key r = None ->
     work_review amb' r w2 <> Ok (w3, (p, j))).
Proof.
  intros Hw E Hcs w2.
  pose proof (work_after_ok (WComplete amb id token now) w Hw) as Hw1. simpl in Hw1.
  rewrite E in Hw1. simpl in Hw1.
  assert (wi_status i = WS_COMPLETED /\ wi_last_delivery_token i = Some token /\
          ws_items w1 !! id = Some i) as (Hst & Hlast & Hi).
  { unfold work_complete in E. destruct (require_delivery _ _ _ _ _) as [j|] eqn:Hr; [|done].
    apply require_delivery_Ok in Hr as [Hg Hr].
    case_bool_decide as Hs; injection E as <- <-; simpl.
    - destruct Hr as [[? ?]|(Hc & _)]; [done|congruence].
    - destruct Hr as [[? _]|(_ & Htk & _)]; [done|]. by rewrite lookup_insert_eq. }
  pose proof (final_kept_trace cs id w1 i Hw1 Hcs Hi ltac:(by rewrite Hst)) as Hi2.
  fold w2 in Hi2. split; [done|]. split; [by unfold work_get; rewrite Hi2|].
  split_and!.
  - intros amb' now'. unfold work_complete, require_delivery, work_get. rewrite Hi2, Hst, Hlast.
    rewrite !bool_decide_eq_true_2 by done. simpl. by rewrite Hst.
  - intros amb' o ttl now' w3 j Hc Hj.
    destruct (claim_spec _ _ _ _ _ _ _ (work_trace_ok cs _ Hw1) Hc)
      as (_ & _ & [(Hn & _)|(k & Hk & Hcl & _ & Hjk & _)]); [done|].
    injection Hjk as ->. change (wi_id k = id) in Hj. rewrite Hj in Hk. fold w2 in Hk.
    rewrite Hi2 in Hk. injection Hk as <-. unfold claimable in Hcl. by rewrite Hst in Hcl.
  - intros amb' r w3 p j Hr Hkey Hrev. unfold work_review, work_get in Hrev.
    rewrite Hkey, Hr, Hi2, Hst in Hrev. done.
Qed.

(** ** A concrete source *)

Definition example_command (id : uuid) (key : string) : FlowWorkCommand :=
  mk_FlowWorkCommand id 7%N WK_EXECUTE key [] 0.

Definition work_ambient (t : time) (u : uuid) : ambient := Ambient t (fun _ => t) (fun _ => u).

Definition example_work_calls : list work_call :=
  [WEnqueue (work_ambient 0 0%N) (example_command 1%N "k1");
   WEnqueue (work_ambient 1 0%N) (example_command 2%N "k2");
   WClaim (work_ambient 2 100%N) "worker" (5 # 1) None].

Definition example_source : WorkSource := work_trace example_work_calls work_source_empty.

Lemma example_source_ok : work_ok example_source.
Proof. apply work_trace_ok, work_ok_empty. Qed.

Definition example_item : FlowWorkItem :=
  claimed_item (mk_FlowWorkItem (example_command 1%N "k1") WS_PENDING 0 0 None None None None None
                  None None 0) "worker" 100%N (5 # 1) 2.

(** The claimed item under the call that completes it, and under one that
    enqueues another command with its id. *)
Lemma work_source_invariant_witness :
  FlowWorkItem_new example_item = Ok example_item /\
  wi_status example_item = WS_CLAIMED /\ wi_id example_item = 1%N /\
  ws_idempotency example_source !! "k1" = Some 1%N /\
  exists i', ws_items (work_after (WEnqueue (work_ambient 3 0%N) (example_command 1%N "k3"))
                        example_source) !! 1%N = Some i' /\
    item_moved example_source (WEnqueue (work_ambient 3 0%N) (example_command 1%N "k3")) 1%N
      example_item i'.
Proof.
  destruct (work_source_invariant example_work_calls
              (WEnqueue (work_ambient 3 0%N) (example_command 1%N "k3")) 1%N example_item eq_refl)
    as (Hid & Hv & Ht & _ & _ & i' & Hi' & _ & Hm).
  split; [exact Hv|]. split; [reflexivity|]. split; [exact Hid|].
  split; [exact (proj1 Ht 1%N example_item eq_refl)|]. exists i'. split; [exact Hi'|exact Hm].
Defined.

Definition claim_result (now : time) (u : uuid) (w : WorkSource) : WorkSource * option FlowWorkItem :=
  on_Ok (work_claim (work_ambient now u) "other" (5 # 1) None w) id (w, None).

Lemma claim_selects_oldest_ready_witness :
  exists i', snd (claim_result 3 101%N example_source) = Some i' /\ wi_id i' = 2%N /\
    wi_delivery_token i' = Some 101%N.
Proof.
  assert (work_claim (work_ambient 3 101%N) "other" (5 # 1) None example_source
          = Ok (claim_result 3 101%N example_source)) as Hc by (vm_compute; reflexivity).
  destruct (claim_result 3 101%N example_source) as [w' [i'|]] eqn:E; [|vm_compute in E; discriminate E].
  exists i'. split; [reflexivity|].
  destruct (claim_selects_oldest_ready _ _ _ _ _ _ _ example_source_ok Hc)
    as (i & _ & _ & _ & _ & _ & Ht & _).
  split; [|exact Ht].
  assert (snd (claim_result 3 101%N example_source) = Some i') as Hi by (rewrite E; reflexivity).
  apply (f_equal (fun o => match o with Some x => wi_id x | None => 0%N end)) in Hi.
  simpl in Hi. rewrite <-Hi. vm_compute. reflexivity.
Defined.

Lemma stale_delivery_fenced_witness :
  ~ is_ok (work_complete (work_ambient 6000000 0%N) 1%N 100%N None
             (fst (claim_result 6000000 102%N example_source))).
Proof.
  assert (work_claim (work_ambient 6000000 102%N) "other" (5 # 1) None example_source
          = Ok (claim_result 6000000 102%N example_source)) as Hc by (vm_compute; reflexivity).
  assert (match snd (claim_result 6000000 102%N example_source) with
          | Some i => wi_id i = 1%N | None => False end) as Hid by (vm_compute; reflexivity).
  destruct (claim_result 6000000 102%N example_source) as [w' [i'|]]; [|destruct Hid].
  simpl in Hid. rewrite <-Hid.
  destruct (stale_delivery_fenced _ _ _ _ _ _ _ [] 100%N example_source_ok Hc
              ltac:(discriminate) (Forall_nil_2 _) (work_ambient 6000000 0%N) None)
    as (_ & Hcomplete & _).
  exact Hcomplete.
Defined.

Definition enqueue_result (w : WorkSource) : WorkSource * FlowWorkItem :=
  on_Ok (work_enqueue (work_ambient 9 0%N) (example_command 3%N "k3") w) id (w, example_item).

Lemma enqueue_idempotent_witness :
  exists m, work_enqueue (work_ambient 10 0%N)
    (mk_FlowWorkCommand 4%N 7%N WK_CANCEL "k3" [] 0) (fst (enqueue_result example_source))
    = Raise (Exn FlowWorkIdempotencyConflictError m).
Proof.
  assert (work_enqueue (work_ambient 9 0%N) (example_command 3%N "k3") example_source
          = Ok (fst (enqueue_result example_source), snd (enqueue_result example_source))) as E
    by (vm_compute; reflexivity).
  destruct (enqueue_idempotent _ _ _ _ _ [] example_source_ok E (Forall_nil_2 _))
    as (i2 & _ & _ & Hall).
  exact (Hall (work_ambient 10 0%N) (mk_FlowWorkCommand 4%N 7%N WK_CANCEL "k3" [] 0) eq_refl).
Defined.

Definition complete_result (w : WorkSource) : WorkSource * FlowWorkItem :=
  on_Ok (work_complete (work_ambient 3 0%N) 1%N 100%N None w) id (w, example_item).

Lemma completion_final_witness :
  work_complete (work_ambient 9 0%N) 1%N 100%N None (fst (complete_result example_source))
    = Ok (complete_result example_source).
Proof.
  assert (work_complete (work_ambient 3 0%N) 1%N 100%N None example_source
          = Ok (fst (complete_result example_source), snd (complete_result example_source))) as E
    by (vm_compute; reflexivity).
  destruct (completion_final _ _ _ _ _ _ _ [] example_source_ok E (Forall_nil_2 _))
    as (_ & _ & Hagain & _).
  exact (Hagain (work_ambient 9 0%N) None).
Defined.

(** A command that reuses the id of an existing item under a new idempotency
    key replaces that item: here one that a worker holds, whose delivery is
    then lost. *)
Example enqueue_reused_id_overwrites :
  let amb := work_ambient 3 0%N in
  let w := work_after (WEnqueue amb (example_command 1%N "k9")) example_source in
  option_map wi_status (ws_items example_source !! 1%N) = Some WS_CLAIMED /\
  option_map wi_status (ws_items w !! 1%N) = Some WS_PENDING /\
  ~ is_ok (work_complete amb 1%N 100%N None w).
Proof.
  intros amb w. split; [vm_compute; reflexivity|]. split; [vm_compute; reflexivity|].
  intros [x Hx]. vm_compute in Hx. discriminate Hx.
Qed.
