(* ===== verification/SideEffects.v ===== *)
(** * Side-effect evidence and governed Tool transports
    ([src/base_agent/flows/side_effects.py],
    [src/base_agent/flows/tool_effects.py])

    The ledger persists what is known about each external side effect, under
    compare-and-swap on its revision; the recorder brackets a Tool transport
    with it so that an unprotected effect is never started twice. *)

From Stdlib Require Import QArith.
From stdpp Require Import base gmap strings list.
From S2P Require Import Prelude Json Models Sha256 Texts FlowModels FlowLifecycle.

(** ** Evidence *)

Inductive FlowSideEffectPhase := PH_PREPARED | PH_STARTED | PH_CONFIRMED | PH_ABORTED.

#[export] Instance FlowSideEffectPhase_eq_dec : EqDecision FlowSideEffectPhase.
Proof. solve_decision. Defined.

Definition phase_value (p : FlowSideEffectPhase) : string :=
  match p with
  | PH_PREPARED => "prepared" | PH_STARTED => "started"
  | PH_CONFIRMED => "confirmed" | PH_ABORTED => "aborted"
  end.

Inductive FlowSideEffectRetryMode := RM_UNSAFE | RM_IDEMPOTENT.

#[export] Instance FlowSideEffectRetryMode_eq_dec : EqDecision FlowSideEffectRetryMode.
Proof. solve_decision. Defined.

Record FlowSideEffect := mk_FlowSideEffect {
  se_id : uuid;
  se_flow_run_id : uuid;
  se_invocation_id : uuid;
  se_operation_key : string;
  se_operation_name : string;
  se_retry_mode : FlowSideEffectRetryMode;
  se_idempotency_key_digest : option string;
  se_phase : FlowSideEffectPhase;
  se_revision : Z;
  se_created_at : time;
  se_updated_at : time;
}.

(** [^[A-Za-z0-9][A-Za-z0-9_.:/-]*$] and the other constraints. *)
Definition FlowSideEffect_fields (e : FlowSideEffect) : bool :=
  len_between 1 256 (se_operation_key e) && matches_key "_.:/-" (se_operation_key e)
  && len_between 1 128 (se_operation_name e) && matches_key "_.:/-" (se_operation_name e)
  && match se_idempotency_key_digest e with Some d => is_sha256_hex d | None => true end
  && (1 <=? se_revision e).

(** [FlowSideEffect.validate_retry_evidence]. *)
Definition FlowSideEffect_validate (e : FlowSideEffect) : outcome unit :=
  raise_when bool_decide (se_retry_mode e = RM_IDEMPOTENT) && is_none (se_idempotency_key_digest e)
    as validation_error "idempotent side effects require an idempotency key digest" in
  raise_when bool_decide (se_retry_mode e = RM_UNSAFE) && negb (is_none (se_idempotency_key_digest e))
    as validation_error "unsafe side effects cannot claim an idempotency key digest" in
  Ok tt.

Definition FlowSideEffect_new (e : FlowSideEffect) : outcome FlowSideEffect :=
  checked (FlowSideEffect_fields e) FlowSideEffect_validate e.

(** [FlowSideEffect.retry_safe]. *)
Definition retry_safe (e : FlowSideEffect) : bool :=
  bool_decide (se_phase e ∈ [PH_PREPARED; PH_ABORTED])
  || bool_decide (se_retry_mode e = RM_IDEMPOTENT).

(** [FlowSideEffect.has_same_intent]. *)
Definition effect_same_intent (a b : FlowSideEffect) : bool :=
  bool_decide (se_flow_run_id a = se_flow_run_id b)
  && bool_decide (se_invocation_id a = se_invocation_id b)
  && bool_decide (se_operation_key a = se_operation_key b)
  && bool_decide (se_operation_name a = se_operation_name b)
  && bool_decide (se_retry_mode a = se_retry_mode b)
  && bool_decide (se_idempotency_key_digest a = se_idempotency_key_digest b).

(** ** The in-memory ledger *)

(** [_effects] and [_operations]. *)
Record Ledger := mk_Ledger {
  lg_effects : gmap uuid FlowSideEffect;
  lg_operations : gmap (uuid * uuid * string) uuid;
}.

Definition ledger_empty : Ledger := mk_Ledger ∅ ∅.

Definition operation_of (e : FlowSideEffect) : uuid * uuid * string :=
  (se_flow_run_id e, se_invocation_id e, se_operation_key e).

(** [prepare]. *)
Definition ledger_prepare (e : FlowSideEffect) (l : Ledger) : outcome (Ledger * FlowSideEffect) :=
  raise_when negb (bool_decide (se_phase e = PH_PREPARED)) || negb (se_revision e =? 1)
    as value_error ["new side-effect evidence must be prepared at revision 1"] in
  match lg_operations l !! operation_of e with
  | Some existing_id =>
      match lg_effects l !! existing_id with
      | None => Raise (Exn ExKeyError (uuid_str existing_id))
      | Some existing =>
          raise_when negb (effect_same_intent existing e)
            as Exn FlowSideEffectConflictError
                 (fstr ["side-effect operation '"; se_operation_key e; "' has different intent"]) in
          Ok (l, existing)
      end
  | None =>
      Ok (mk_Ledger (<[se_id e := e]> (lg_effects l)) (<[operation_of e := se_id e]> (lg_operations l)),
          e)
  end.

Definition effect_not_found (id : uuid) : exn :=
  Exn FlowSideEffectNotFoundError (fstr ["side-effect evidence '"; uuid_str id; "' was not found"]).

(** [get]. *)
Definition ledger_get (id : uuid) (l : Ledger) : outcome FlowSideEffect :=
  match lg_effects l !! id with
  | Some e => Ok e
  | None => Raise (effect_not_found id)
  end.

Definition effect_leb (a b : FlowSideEffect) : bool :=
  key2_leb (se_created_at a, se_id a) (se_created_at b, se_id b).

(** [list_for_invocation]. *)
Definition list_for_invocation (invocation_id : uuid) (l : Ledger) : list FlowSideEffect :=
  sorted_by effect_leb
    (List.filter (fun e => bool_decide (se_invocation_id e = invocation_id))
       (map snd (map_to_list (lg_effects l)))).

(** The table [valid] of [_validate_transition]. *)
Definition valid_phases (p : FlowSideEffectPhase) : list FlowSideEffectPhase :=
  match p with
  | PH_PREPARED => [PH_STARTED; PH_ABORTED]
  | PH_STARTED => [PH_CONFIRMED]
  | PH_CONFIRMED => []
  | PH_ABORTED => [PH_STARTED]
  end.

(** [_validate_transition]. *)
Definition validate_phase_transition (current target : FlowSideEffectPhase) : outcome unit :=
  raise_when negb (bool_decide (target ∈ valid_phases current))
    as Exn InvalidFlowSideEffectTransitionError
         (fstr ["cannot move side-effect evidence from '"; phase_value current; "' to '";
                phase_value target; "'"]) in
  Ok tt.

Definition effect_moved (e : FlowSideEffect) (target : FlowSideEffectPhase) (now : time)
  : FlowSideEffect :=
  mk_FlowSideEffect (se_id e) (se_flow_run_id e) (se_invocation_id e) (se_operation_key e)
    (se_operation_name e) (se_retry_mode e) (se_idempotency_key_digest e) target
    (se_revision e + 1) (se_created_at e) now.

(** [_transition]: [mark_started], [confirm] and [abort] call it with their
    target. *)
Definition ledger_transition (amb : ambient) (id : uuid) (expected : Z)
  (target : FlowSideEffectPhase) (l : Ledger) : outcome (Ledger * FlowSideEffect) :=
  let! current := ledger_get id l in
  raise_when negb (se_revision current =? expected)
    as Exn FlowSideEffectRevisionConflictError
         (fstr ["side-effect evidence '"; uuid_str id; "' expected revision "; zstr expected;
                ", found "; zstr (se_revision current)]) in
  let! _ := validate_phase_transition (se_phase current) target in
  let replacement := effect_moved current target (amb_now amb 0) in
  Ok (mk_Ledger (<[id := replacement]> (lg_effects l)) (lg_operations l), replacement).

Definition mark_started (amb : ambient) (id : uuid) (expected : Z) :=
  ledger_transition amb id expected PH_STARTED.
Definition ledger_confirm (amb : ambient) (id : uuid) (expected : Z) :=
  ledger_transition amb id expected PH_CONFIRMED.
Definition ledger_abort (amb : ambient) (id : uuid) (expected : Z) :=
  ledger_transition amb id expected PH_ABORTED.

(** ** Histories of ledger calls *)

Inductive ledger_call :=
  | LPrepare (e : FlowSideEffect)
  | LMove (amb : ambient) (id : uuid) (expected : Z) (target : FlowSideEffectPhase).

Definition ledger_after (c : ledger_call) (l : Ledger) : Ledger :=
  match c with
  | LPrepare e => on_Ok (ledger_prepare e l) fst l
  | LMove amb id expected target => on_Ok (ledger_transition amb id expected target l) fst l
  end.

Definition ledger_trace (cs : list ledger_call) (l : Ledger) : Ledger :=
  fold_left (fun l c => ledger_after c l) cs l.

(** ** The recorder of governed Tool transports *)

(** [ToolSideEffectMode]. *)
Inductive ToolSideEffectMode := SM_UNSPECIFIED | SM_READ_ONLY | SM_UNSAFE | SM_IDEMPOTENT.

#[export] Instance ToolSideEffectMode_eq_dec : EqDecision ToolSideEffectMode.
Proof. solve_decision. Defined.

(** The receipt [ToolSideEffectReceipt(token=_FlowEffectReceipt(...))]; a
    receipt of another recorder has another kind of token. *)
Inductive receipt_token :=
  | FlowEffectReceipt (effect_id : uuid) (expected_revision : Z) (confirmation_required : bool)
  | ForeignToken.

Record ToolSideEffectReceipt := mk_ToolSideEffectReceipt {
  rc_token : receipt_token;
  rc_idempotency_key : option string;
}.

(** [_digest]. *)
Definition digest (value : string) : string := sha256_hex (utf8 value).

(** [_operation_key]. *)
Definition operation_key (tool_call_id : string) : string := "tool:" +:+ digest tool_call_id.

(** [_idempotency_key]. *)
Definition idempotency_key (flow_run_id invocation_id : uuid) (tool_call_id : string) : string :=
  fstr ["base-agent-v1:"; uuid_str flow_run_id; ":"; uuid_str invocation_id; ":"; digest tool_call_id].

(** The recorder awaits one ledger method after another.  Its code is what it
    does with each answer; [ROut] when a bound on its loop runs out. *)
Inductive ledger_op :=
  | OpPrepare (e : FlowSideEffect)
  | OpMarkStarted (amb : ambient) (id : uuid) (expected : Z)
  | OpConfirm (amb : ambient) (id : uuid) (expected : Z)
  | OpGet (id : uuid).

Inductive recorder_code (A : Type) :=
  | RRet (o : outcome A)
  | ROut
  | RCall (op : ledger_op) (k : outcome FlowSideEffect -> recorder_code A).
Arguments RRet {A}.
Arguments ROut {A}.
Arguments RCall {A}.

(** One method of the ledger, under its lock. *)
Definition perform (op : ledger_op) (l : Ledger) : Ledger * outcome FlowSideEffect :=
  let changed (o : outcome (Ledger * FlowSideEffect)) :=
    match o with Ok (l', e) => (l', Ok e) | Raise exc => (l, Raise exc) end in
  match op with
  | OpPrepare e => changed (ledger_prepare e l)
  | OpMarkStarted amb id expected => changed (mark_started amb id expected l)
  | OpConfirm amb id expected => changed (ledger_confirm amb id expected l)
  | OpGet id => (l, ledger_get id l)
  end.

(** [_start_or_replay]: the [while] loop with its fuel. *)
Fixpoint start_or_replay (fuel : nat) (amb : ambient) (e : FlowSideEffect)
  : recorder_code FlowSideEffect :=
  if bool_decide (se_phase e ∈ [PH_PREPARED; PH_ABORTED]) then
    match fuel with
    | O => ROut
    | S fuel' =>
        RCall (OpMarkStarted amb (se_id e) (se_revision e)) (fun r =>
          match r with
          | Ok started => RRet (Ok started)
          | Raise exc =>
              if isinstance exc FlowSideEffectRevisionConflictError then
                RCall (OpGet (se_id e)) (fun r =>
                  match r with
                  | Ok e' => start_or_replay fuel' amb e'
                  | Raise exc' => RRet (Raise exc')
                  end)
              else RRet (Raise exc)
          end)
    end
  else if bool_decide (se_retry_mode e = RM_IDEMPOTENT) then RRet (Ok e)
  else RRet (Raise (Exn ToolSideEffectReplayUnsafeError
                      "unprotected side effect may already have executed")).

Fixpoint recorder_map {A B} (f : A -> B) (c : recorder_code A) : recorder_code B :=
  match c with
  | RRet (Ok a) => RRet (Ok (f a))
  | RRet (Raise exc) => RRet (Raise exc)
  | ROut => ROut
  | RCall op k => RCall op (fun r => recorder_map f (k r))
  end.

(** The effect [start] prepares. *)
Definition prepared_effect (amb : ambient) (call_id tool_name : string) (mode : ToolSideEffectMode)
  (f i : uuid) : FlowSideEffect :=
  let key := if bool_decide (mode = SM_IDEMPOTENT) then Some (idempotency_key f i call_id) else None in
  mk_FlowSideEffect (amb_uuid amb 0) f i (operation_key call_id) tool_name
    (if bool_decide (mode = SM_IDEMPOTENT) then RM_IDEMPOTENT else RM_UNSAFE) (option_map digest key)
    PH_PREPARED 1 (amb_now amb 0) (amb_now amb 1).

Definition receipt_of (key : option string) (started : FlowSideEffect) : ToolSideEffectReceipt :=
  mk_ToolSideEffectReceipt
    (FlowEffectReceipt (se_id started) (se_revision started)
       (negb (bool_decide (se_phase started = PH_CONFIRMED)))) key.

(** [start]. *)
Definition recorder_start (fuel : nat) (amb : ambient) (call_id tool_name : string)
  (mode : ToolSideEffectMode) (flow_run_id invocation_id : option uuid)
  : recorder_code ToolSideEffectReceipt :=
  match flow_run_id, invocation_id with
  | Some frid, Some iid =>
      if negb (bool_decide (mode ∈ [SM_UNSAFE; SM_IDEMPOTENT])) then
        RRet (Raise (Exn ToolSideEffectRecorderError
                       "only side-effecting Tools require Flow evidence"))
      else
        let key := if bool_decide (mode = SM_IDEMPOTENT)
                   then Some (idempotency_key frid iid call_id) else None in
        match FlowSideEffect_new (prepared_effect amb call_id tool_name mode frid iid) with
        | Raise exc => RRet (Raise exc)
        | Ok e =>
            RCall (OpPrepare e) (fun r =>
              match r with
              | Raise exc => RRet (Raise exc)
              | Ok effect => recorder_map (receipt_of key) (start_or_replay fuel (later amb) effect)
              end)
        end
  | _, _ => RRet (Raise (Exn ToolSideEffectContextError
                           "Flow Tool evidence requires Flow Run and Invocation IDs"))
  end.

(** [confirm]. *)
Definition recorder_confirm (amb : ambient) (receipt : ToolSideEffectReceipt) : recorder_code unit :=
  match rc_token receipt with
  | ForeignToken => RRet (Raise (Exn ToolSideEffectRecorderError
                                   "side-effect receipt belongs to another recorder"))
  | FlowEffectReceipt id expected required =>
      if negb required then RRet (Ok tt)
      else RCall (OpConfirm amb id expected) (fun r =>
             match r with
             | Ok _ => RRet (Ok tt)
             | Raise exc =>
                 if isinstance exc FlowSideEffectRevisionConflictError then
                   RCall (OpGet id) (fun r =>
                     match r with
                     | Raise exc' => RRet (Raise exc')
                     | Ok current =>
                         if bool_decide (se_phase current = PH_CONFIRMED) then RRet (Ok tt)
                         else RRet (Raise (Exn ToolSideEffectRecorderError
                                             "side-effect confirmation lost revision ownership"))
                     end)
                 else RRet (Raise exc)
             end)
  end.

(** One recorder among other tasks: [others n] are the ledger calls they make
    before its [n]-th call.  With the in-memory ledger no other task runs
    there; a database ledger gives no such guarantee. *)
Abbreviation interference := (nat -> list ledger_call) (only parsing).

Fixpoint run_recorder {A} (n : nat) (others : interference) (c : recorder_code A) (l : Ledger)
  : option (Ledger * outcome A) :=
  match c with
  | RRet o => Some (l, o)
  | ROut => None
  | RCall op k =>
      let '(l', r) := perform op (ledger_trace (others n) l) in
      run_recorder (S n) others (k r) l'
  end.

(** Many recorders: whose turn it is to make its next call, or a call of
    another task. *)
Inductive recorder_turn :=
  | TurnOf (j : nat)
  | TurnOther (c : ledger_call).

Record recorders (A : Type) := mk_recorders {
  rs_ledger : Ledger;
  rs_code : gmap nat (recorder_code A);
}.
Arguments mk_recorders {A}.
Arguments rs_ledger {A}.
Arguments rs_code {A}.

Definition recorder_turn_step {A} (s : recorders A) (t : recorder_turn) : recorders A :=
  match t with
  | TurnOther c => mk_recorders (ledger_after c (rs_ledger s)) (rs_code s)
  | TurnOf j =>
      match rs_code s !! j with
      | Some (RCall op k) =>
          let '(l', r) := perform op (rs_ledger s) in
          mk_recorders l' (<[j := k r]> (rs_code s))
      | _ => s
      end
  end.

Definition run_recorders {A} (ts : list recorder_turn) (s : recorders A) : recorders A :=
  fold_left recorder_turn_step ts s.

(** ** How evidence evolves *)

(** Knowledge only grows: how often [mark_started] may still succeed. *)
Definition phase_rank (p : FlowSideEffectPhase) : nat :=
  match p with PH_PREPARED => 2 | PH_ABORTED => 1 | PH_STARTED | PH_CONFIRMED => 0 end.

(** Same effect, later evidence: the intent is fixed, every transition
    increments the revision, and a phase that is past starting stays so. *)
Record effect_le (a b : FlowSideEffect) : Prop := {
  el_id : se_id b = se_id a;
  el_operation : operation_of b = operation_of a;
  el_intent : effect_same_intent a b = true;
  el_revision : se_revision a <= se_revision b;
  el_same : se_revision a = se_revision b -> b = a;
  el_rank : (phase_rank (se_phase b) <= phase_rank (se_phase a))%nat;
  el_rank_lt : se_revision a < se_revision b -> (phase_rank (se_phase a) <> 0)%nat ->
               (phase_rank (se_phase b) < phase_rank (se_phase a))%nat;
  el_confirmed : se_phase a = PH_CONFIRMED -> b = a;
}.

Lemma effect_same_intent_eq a b :
  effect_same_intent a b = true <->
  operation_of a = operation_of b /\ se_operation_name a = se_operation_name b /\
  se_retry_mode a = se_retry_mode b /\ se_idempotency_key_digest a = se_idempotency_key_digest b.
Proof.
  unfold effect_same_intent, operation_of. rewrite !andb_true_iff, !bool_decide_eq_true.
  destruct a, b; simpl. naive_solver.
Qed.

#[export] Instance effect_le_preorder : PreOrder effect_le.
Proof.
  split.
  - intros e. constructor; try done; try lia. by apply effect_same_intent_eq.
  - intros a b c [a1 a2 a3 a4 a5 a6 a7 a8] [b1 b2 b3 b4 b5 b6 b7 b8].
    apply effect_same_intent_eq in a3 as (?&?&?&?).
    apply effect_same_intent_eq in b3 as (?&?&?&?). constructor.
    + congruence.
    + congruence.
    + apply effect_same_intent_eq. split_and!; congruence.
    + lia.
    + intros Heq. rewrite b5, a5; [done|lia|lia].
    + lia.
    + intros Hlt Hr. destruct (decide (se_revision a = se_revision b)) as [Heq|Hne].
      * rewrite (a5 Heq) in *. by apply b7.
      * assert (phase_rank (se_phase b) < phase_rank (se_phase a))%nat by (apply a7; [lia|done]). lia.
    + intros Hc. pose proof (a8 Hc) as ->. by apply b8.
Qed.

Lemma effect_moved_le e target now :
  target ∈ valid_phases (se_phase e) -> effect_le e (effect_moved e target now).
Proof.
  intros Ht. constructor; simpl; try done; try lia.
  - by apply effect_same_intent_eq.
  - destruct (se_phase e), target; simpl in *; try lia; set_solver.
  - intros _ Hr. destruct (se_phase e), target; simpl in *; try lia; set_solver.
  - intros Hc. rewrite Hc in Ht. simpl in Ht. set_solver.
Qed.

(** Effects are filed under their own id; operations lead to effects. *)
Definition ledger_ok (l : Ledger) : Prop :=
  (forall id e, lg_effects l !! id = Some e -> se_id e = id) /\
  (forall op id, lg_operations l !! op = Some id -> is_Some (lg_effects l !! id)).

Lemma ledger_ok_empty : ledger_ok ledger_empty.
Proof. split; intros k x; simpl; by rewrite lookup_empty. Qed.

(** The call does not file another effect under [id]. *)
Definition keeps_effect (id : uuid) (c : ledger_call) : Prop :=
  match c with LPrepare e => se_id e <> id | LMove _ _ _ _ => True end.

Lemma ledger_transition_spec amb id expected target l l' e :
  ledger_transition amb id expected target l = Ok (l', e) ->
  exists cur, lg_effects l !! id = Some cur /\ se_revision cur = expected /\
    target ∈ valid_phases (se_phase cur) /\ e = effect_moved cur target (amb_now amb 0) /\
    l' = mk_Ledger (<[id := e]> (lg_effects l)) (lg_operations l).
Proof.
  unfold ledger_transition, ledger_get, validate_phase_transition. intros Ht.
  destruct (lg_effects l !! id) as [cur|]; [|done].
  destruct (se_revision cur =? expected) eqn:Hr; [|done]. simpl in Ht.
  case_bool_decide as Hv; [|done]. injection Ht as <- <-. reflect. by exists cur.
Qed.

Lemma ledger_prepare_spec e l l' e' :
  ledger_ok l -> ledger_prepare e l = Ok (l', e') ->
  se_phase e = PH_PREPARED /\ se_revision e = 1 /\ effect_same_intent e' e = true /\
  lg_operations l' !! operation_of e = Some (se_id e') /\ lg_effects l' !! se_id e' = Some e' /\
  ((l' = l /\ lg_operations l !! operation_of e = Some (se_id e')) \/
   (e' = e /\ lg_operations l !! operation_of e = None /\
    l' = mk_Ledger (<[se_id e := e]> (lg_effects l))
           (<[operation_of e := se_id e]> (lg_operations l)))).
Proof.
  intros [Hid Hop] Hp. unfold ledger_prepare in Hp.
  destruct (negb _ || negb _) eqn:Hb; [done|]. reflect.
  destruct (lg_operations l !! operation_of e) as [x|] eqn:Ho.
  - destruct (lg_effects l !! x) as [ex|] eqn:Hx; [|done].
    destruct (effect_same_intent ex e) eqn:Hi; [|done]. injection Hp as <- <-.
    pose proof (Hid _ _ Hx) as Hxid. subst x. split_and!; try done. by left.
  - injection Hp as <- <-. simpl. rewrite !lookup_insert_eq. split_and!; try done; [|by right].
    by apply effect_same_intent_eq.
Qed.

Lemma ledger_after_ok c l : ledger_ok l -> ledger_ok (ledger_after c l).
Proof.
  intros Hl. pose proof Hl as [Hid Hop]. destruct c; simpl.
  - destruct (ledger_prepare e l) as [[l' e']|] eqn:E; [|done]. simpl.
    destruct (ledger_prepare_spec _ _ _ _ Hl E) as (_ & _ & _ & _ & _ & [[-> _]|(-> & _ & ->)]); [done|].
    split; simpl.
    + intros id x [[<- <-]|[_ Hx]]%lookup_insert_Some; [done|by apply Hid].
    + intros op id [[_ <-]|[_ Hx]]%lookup_insert_Some.
      * rewrite lookup_insert_eq. by eexists.
      * rewrite lookup_insert. case_decide; [by eexists|]. by eapply Hop.
  - destruct (ledger_transition amb id expected target l) as [[l' e']|] eqn:E; [|done]. simpl.
    destruct (ledger_transition_spec _ _ _ _ _ _ _ E) as (cur & Hc & _ & _ & -> & ->).
    split; simpl.
    + intros i x [[<- <-]|[_ Hx]]%lookup_insert_Some; [simpl|]; by apply Hid.
    + intros op i Hx. rewrite lookup_insert. case_decide; [by eexists|]. by eapply Hop.
Qed.

Lemma ledger_trace_ok cs : forall l, ledger_ok l -> ledger_ok (ledger_trace cs l).
Proof. induction cs as [|c cs IH]; intros l Hl; [done|]. by apply IH, ledger_after_ok. Qed.

(** One call: operations stay bound, the effect [id] only gains evidence. *)
Lemma ledger_after_le c l id e :
  ledger_ok l -> keeps_effect id c -> lg_effects l !! id = Some e ->
  exists e', lg_effects (ledger_after c l) !! id = Some e' /\ effect_le e e'.
Proof.
  intros Hl Hk He. destruct c; simpl in *.
  - destruct (ledger_prepare e0 l) as [[l' e']|] eqn:E; [|by exists e]. simpl.
    destruct (ledger_prepare_spec _ _ _ _ Hl E) as (_ & _ & _ & _ & _ & [[-> _]|(-> & _ & ->)]);
      [by exists e|].
    simpl. rewrite lookup_insert_ne by done. by exists e.
  - destruct (ledger_transition amb id0 expected target l) as [[l' e']|] eqn:E; [|by exists e]. simpl.
    destruct (ledger_transition_spec _ _ _ _ _ _ _ E) as (cur & Hc & _ & Ht & -> & ->). simpl.
    rewrite lookup_insert. case_decide as Hd; [|by exists e]. subst id0. rewrite He in Hc.
    injection Hc as <-. eexists. split; [done|]. by apply effect_moved_le.
Qed.

Lemma ledger_after_operations c l op id :
  ledger_ok l -> lg_operations l !! op = Some id -> lg_operations (ledger_after c l) !! op = Some id.
Proof.
  intros Hl Ho. destruct c; simpl.
  - destruct (ledger_prepare e l) as [[l' e']|] eqn:E; [|done]. simpl.
    destruct (ledger_prepare_spec _ _ _ _ Hl E) as (_ & _ & _ & _ & _ & [[-> _]|(-> & Hn & ->)]); [done|].
    simpl. rewrite lookup_insert_ne; [done|congruence].
  - destruct (ledger_transition amb id0 expected target l) as [[l' e']|] eqn:E; [|done]. simpl.
    by destruct (ledger_transition_spec _ _ _ _ _ _ _ E) as (cur & _ & _ & _ & _ & ->).
Qed.

Lemma ledger_trace_le cs id : forall l e,
  ledger_ok l -> Forall (keeps_effect id) cs -> lg_effects l !! id = Some e ->
  exists e', lg_effects (ledger_trace cs l) !! id = Some e' /\ effect_le e e'.
Proof.
  induction cs as [|c cs IH]; intros l e Hl Hcs He; [by exists e|].
  apply Forall_cons in Hcs as [Hc Hcs].
  destruct (ledger_after_le c l id e Hl Hc He) as (e1 & He1 & Hle1).
  destruct (IH _ _ (ledger_after_ok c l Hl) Hcs He1) as (e2 & He2 & Hle2).
  exists e2. split; [done|]. by etrans.
Qed.

Lemma ledger_trace_operations cs op id : forall l,
  ledger_ok l -> lg_operations l !! op = Some id -> lg_operations (ledger_trace cs l) !! op = Some id.
Proof.
  induction cs as [|c cs IH]; intros l Hl Ho; [done|].
  apply IH; [by apply ledger_after_ok|by apply ledger_after_operations].
Qed.

(** ** The recorder *)

(** Other tasks never file another effect under [id]. *)
Definition others_keep (id : uuid) (others : interference) : Prop :=
  forall k, Forall (keeps_effect id) (others k).

Lemma run_recorder_map {A B} (f : A -> B) others (c : recorder_code A) : forall n l,
  run_recorder n others (recorder_map f c) l =
  match run_recorder n others c l with
  | Some (l', Ok a) => Some (l', Ok (f a))
  | Some (l', Raise exc) => Some (l', Raise exc)
  | None => None
  end.
Proof.
  induction c as [[a|exc]| |op k IH]; intros n l; try done. cbn.
  destruct (perform op _) as [l' r]. apply IH.
Qed.

Lemma startable e :
  bool_decide (se_phase e ∈ [PH_PREPARED; PH_ABORTED]) = negb (phase_rank (se_phase e) =? 0)%nat.
Proof. by destruct (se_phase e). Qed.

Lemma mark_started_cases amb e l cur :
  lg_effects l !! se_id e = Some cur -> effect_le e cur -> phase_rank (se_phase e) <> 0%nat ->
  (cur = e /\ mark_started amb (se_id e) (se_revision e) l =
     Ok (mk_Ledger (<[se_id e := effect_moved e PH_STARTED (amb_now amb 0)]> (lg_effects l))
           (lg_operations l), effect_moved e PH_STARTED (amb_now amb 0))) \/
  (se_revision e < se_revision cur /\
   exists m, mark_started amb (se_id e) (se_revision e) l =
     Raise (Exn FlowSideEffectRevisionConflictError m)).
Proof.
  intros Hc Hle Hr. unfold mark_started, ledger_transition, ledger_get. rewrite Hc.
  destruct (se_revision cur =? se_revision e) eqn:Heq; reflect.
  - left. pose proof (el_same _ _ Hle ltac:(lia)) as ->. split; [done|]. simpl.
    unfold validate_phase_transition.
    rewrite bool_decide_eq_true_2 by (destruct (se_phase e); simpl in *; try lia; set_solver).
    done.
  - right. split; [|by eexists]. pose proof (el_revision _ _ Hle). lia.
Qed.

(** Past starting, the loop ends at once. *)
Lemma start_or_replay_over fuel amb e :
  phase_rank (se_phase e) = 0%nat ->
  start_or_replay fuel amb e =
    if bool_decide (se_retry_mode e = RM_IDEMPOTENT) then RRet (Ok e)
    else RRet (Raise (Exn ToolSideEffectReplayUnsafeError
                        "unprotected side effect may already have executed")).
Proof. intros H0. destruct fuel; cbn [start_or_replay]; by rewrite startable, H0. Qed.

(** The loop, from any evidence [e] no later than the stored one. *)
Lemma start_or_replay_spec others amb : forall fuel n e l cur,
  ledger_ok l -> others_keep (se_id e) others ->
  lg_effects l !! se_id e = Some cur -> effect_le e cur ->
  (phase_rank (se_phase e) <= fuel)%nat ->
  exists l' r, run_recorder n others (start_or_replay fuel amb e) l = Some (l', r) /\ ledger_ok l'.
Proof.
  induction fuel as [|fuel IH]; intros n e l cur Hl Ho Hc Hle Hr;
    (destruct (decide (phase_rank (se_phase e) = 0%nat)) as [H0|H0];
       [rewrite start_or_replay_over by done; destruct (bool_decide _); cbn; by eexists _, _|]);
    [lia|].
  cbn [start_or_replay]. rewrite startable, (proj2 (Nat.eqb_neq _ _) H0).
  cbn [negb run_recorder perform].
  set (l1 := ledger_trace (others n) l).
  destruct (ledger_trace_le _ _ _ _ Hl (Ho n) Hc) as (cur1 & Hc1 & Hle1). fold l1 in Hc1.
  pose proof (ledger_trace_ok (others n) l Hl) as Hl1. fold l1 in Hl1.
  assert (effect_le e cur1) as Hle1' by (by etrans).
  destruct (mark_started_cases amb e l1 cur1 Hc1 Hle1' H0) as [[-> Hms]|[Hlt [m Hms]]]; rewrite Hms.
  - cbn. eexists _, _. split; [done|].
    pose proof (ledger_after_ok (LMove amb (se_id e) (se_revision e) PH_STARTED) l1 Hl1) as Hx.
    simpl in Hx. unfold mark_started in Hms. by rewrite Hms in Hx.
  - change (isinstance (Exn FlowSideEffectRevisionConflictError m) FlowSideEffectRevisionConflictError)
      with true. cbn. set (l2 := ledger_trace (others (S n)) l1).
    destruct (ledger_trace_le _ _ _ _ Hl1 (Ho (S n)) Hc1) as (cur2 & Hc2 & Hle2). fold l2 in Hc2.
    pose proof (ledger_trace_ok (others (S n)) l1 Hl1) as Hl2. fold l2 in Hl2.
    unfold ledger_get. rewrite Hc2.
    assert (se_id cur2 = se_id e) as Hid by (by rewrite (proj1 Hl2 _ _ Hc2)).
    apply (IH _ _ _ cur2); rewrite ?Hid; try done.
    pose proof (el_rank_lt _ _ Hle1' Hlt H0). pose proof (el_rank _ _ Hle2). lia.
Qed.

Lemma ledger_prepare_ok e l l1 e1 :
  ledger_ok l -> ledger_prepare e l = Ok (l1, e1) -> ledger_ok l1.
Proof.
  intros Hl Hp. pose proof (ledger_after_ok (LPrepare e) l Hl) as Hx. simpl in Hx.
  by rewrite Hp in Hx.
Qed.

Definition call_operation (f i : uuid) (call : string) : uuid * uuid * string :=
  (f, i, operation_key call).

(** The id of the effect a [start] of this operation works on: the one bound
    to it, or the new one. *)
Definition effect_id_of (amb : ambient) (f i : uuid) (call : string) (l : Ledger) : uuid :=
  default (amb_uuid amb 0) (lg_operations l !! call_operation f i call).

Lemma prepare_effect_id amb call tool mode f i l l1 e :
  ledger_ok l -> ledger_prepare (prepared_effect amb call tool mode f i) l = Ok (l1, e) ->
  se_id e = effect_id_of amb f i call l /\ lg_effects l1 !! se_id e = Some e /\
  lg_operations l1 !! call_operation f i call = Some (se_id e) /\
  effect_same_intent e (prepared_effect amb call tool mode f i) = true.
Proof.
  intros Hl Hp.
  destruct (ledger_prepare_spec _ _ _ _ Hl Hp) as (_ & _ & Hi & Ho & He & Hcase).
  change (operation_of (prepared_effect amb call tool mode f i)) with (call_operation f i call) in *.
  unfold effect_id_of. destruct Hcase as [[_ ->]|(-> & -> & _)]; done.
Qed.

Lemma others_keep_none id : others_keep id (fun _ => []).
Proof. intros k. by constructor. Qed.

Lemma operation_key_ok call :
  len_between 1 256 (operation_key call) = true /\ matches_key "_.:/-" (operation_key call) = true.
Proof.
  unfold operation_key, digest. pose proof (sha256_hex_ok (utf8 call)) as Hh.
  unfold is_sha256_hex, slen in Hh. apply andb_true_iff in Hh as [Hlen Hhex].
  apply Z.eqb_eq in Hlen. split.
  - unfold len_between, slen. rewrite length_string_app. simpl String.length.
    rewrite !(proj2 (Z.leb_le _ _)) by lia. done.
  - assert (all_chars (fun c => is_alnum c || has_char c "_.:/-") (sha256_hex (utf8 call)) = true) as Hx.
    { eapply all_chars_mono; [|exact Hhex]. intros c Hc. apply orb_true_iff. left.
      unfold is_hex_lower in Hc. unfold is_alnum.
      apply orb_true_iff in Hc as [[H1 H2]%andb_true_iff|[H1 H2]%andb_true_iff];
        apply N.leb_le in H1, H2.
      - rewrite !(proj2 (N.leb_le _ _)) by done. done.
      - rewrite (proj2 (N.leb_le 97 _)), (proj2 (N.leb_le (Ascii.N_of_ascii c) 122)) by lia.
        apply orb_true_r. }
    unfold matches_key. simpl. exact Hx.
Qed.

(** Tool names the evidence accepts. *)
Definition effect_tool_name_ok (tool : string) : bool :=
  len_between 1 128 tool && matches_key "_.:/-" tool.

Lemma prepared_effect_new amb call tool mode f i :
  effect_tool_name_ok tool = true ->
  FlowSideEffect_new (prepared_effect amb call tool mode f i)
    = Ok (prepared_effect amb call tool mode f i).
Proof.
  intros [H1 H2]%andb_true_iff. apply checked_Ok. destruct (operation_key_ok call) as [H3 H4].
  split_and!; [| |done].
  - unfold FlowSideEffect_fields, prepared_effect. cbn [se_operation_key se_operation_name
      se_idempotency_key_digest se_revision]. rewrite H1, H2, H3, H4.
    destruct (bool_decide _); [|done]. cbn [option_map]. unfold digest. by rewrite sha256_hex_ok.
  - unfold FlowSideEffect_validate, prepared_effect. cbn. by destruct (bool_decide (mode = _)).
Qed.

(** ** Properties *)

(** Evidence is monotone.  Whatever ledger calls happen (none filing
    another effect under this id), a stored effect keeps its intent; its
    revision never decreases and identifies its contents; its phase only
    moves along PREPARED -> ABORTED -> STARTED -> CONFIRMED, so an effect
    that may have been sent never looks unsent again; and the operation it
    was prepared for stays bound to it. *)
Theorem side_effect_evidence_monotone cs0 cs op id e :
  let l := ledger_trace cs0 ledger_empty in
  lg_effects l !! id = Some e -> lg_operations l !! op = Some id ->
  Forall (keeps_effect id) cs ->
  exists e', lg_effects (ledger_trace cs l) !! id = Some e' /\
    lg_operations (ledger_trace cs l) !! op = Some id /\
    effect_same_intent e e' = true /\ se_revision e <= se_revision e' /\
    (se_revision e = se_revision e' -> e' = e) /\
    (phase_rank (se_phase e') <= phase_rank (se_phase e))%nat /\
    (se_phase e = PH_CONFIRMED -> se_phase e' = PH_CONFIRMED).
Proof.
  intros l He Ho Hcs. assert (ledger_ok l) as Hl by apply ledger_trace_ok, ledger_ok_empty.
  destruct (ledger_trace_le _ _ _ _ Hl Hcs He) as (e' & He' & Hle). exists e'.
  split_and!; try apply Hle; [done|by apply ledger_trace_operations|].
  intros Hc. by rewrite (el_confirmed _ _ Hle Hc).
Qed.

(** The recorder always answers.  Whatever other tasks do to the ledger
    around its calls (without filing another effect under the same id), two
    iterations of its retry loop are enough: [start] returns a receipt or
    raises, and leaves the ledger consistent. *)
Theorem recorder_start_terminates others amb call tool mode f i l :
  ledger_ok l -> others_keep (effect_id_of amb f i call (ledger_trace (others 0%nat) l)) others ->
  exists l' o,
    run_recorder 0 others (recorder_start 2 amb call tool mode (Some f) (Some i)) l = Some (l', o) /\
    ledger_ok l'.
Proof.
  intros Hl Ho. unfold recorder_start. cbv zeta.
  destruct (negb _); [by eexists _, _|].
  destruct (FlowSideEffect_new _) as [e0|exc] eqn:Hn; [|by eexists _, _].
  apply checked_Ok in Hn as (_ & _ & ->). cbn [run_recorder perform].
  pose proof (ledger_trace_ok (others 0%nat) l Hl) as Hl0.
  destruct (ledger_prepare _ (ledger_trace (others 0%nat) l)) as [[l1 e]|exc] eqn:Hp;
    [|by eexists _, _].
  destruct (prepare_effect_id _ _ _ _ _ _ _ _ _ Hl0 Hp) as (Hid & He & _ & _).
  rewrite run_recorder_map.
  destruct (start_or_replay_spec others (later amb) 2 1 e l1 e) as (l' & r & -> & Hok).
  - by eapply ledger_prepare_ok.
  - by rewrite Hid.
  - done.
  - done.
  - destruct (se_phase e); simpl; lia.
  - destruct r; by eexists _, _.
Qed.

(** ** Overlapping starts *)

(** What a recorder does once the evidence [id] of an unprotected effect is
    prepared: it returns a receipt only as the answer to its own
    [mark_started]. *)
Fixpoint owns_start (id : uuid) (c : recorder_code ToolSideEffectReceipt) : Prop :=
  match c with
  | RRet (Ok _) => False
  | RRet (Raise _) | ROut => True
  | RCall (OpMarkStarted _ id' _) k =>
      id' = id /\ (forall e, exists o, k (Ok e) = RRet o) /\ forall exc, owns_start id (k (Raise exc))
  | RCall (OpGet id') k =>
      id' = id /\ (forall exc, owns_start id (k (Raise exc))) /\
      forall e, se_id e = id -> se_retry_mode e = RM_UNSAFE -> owns_start id (k (Ok e))
  | RCall _ _ => False
  end.

Fixpoint no_prepare {A} (c : recorder_code A) : Prop :=
  match c with
  | RRet _ | ROut => True
  | RCall op k => match op with OpPrepare _ => False | _ => True end /\ forall r, no_prepare (k r)
  end.

Lemma start_or_replay_owns id key fuel amb : forall e,
  se_id e = id -> se_retry_mode e = RM_UNSAFE ->
  owns_start id (recorder_map (receipt_of key) (start_or_replay fuel amb e)).
Proof.
  induction fuel as [|fuel IH]; intros e Hid Hm; cbn [start_or_replay];
    (destruct (bool_decide (se_phase e ∈ _)); [|by rewrite Hm]); [done|].
  cbn [recorder_map owns_start].
  split; [done|]. split; [intros e'; by eexists|].
  intros exc. destruct (isinstance exc FlowSideEffectRevisionConflictError); cbn; [|done].
  split; [done|]. split; [done|].
  intros e' He' Hm'. by apply IH.
Qed.

Lemma start_or_replay_no_prepare key fuel amb : forall e,
  no_prepare (recorder_map (receipt_of key) (start_or_replay fuel amb e)).
Proof.
  induction fuel as [|fuel IH]; intros e; cbn [start_or_replay];
    (destruct (bool_decide (se_phase e ∈ _)); [|by destruct (bool_decide _)]); [done|].
  cbn [recorder_map no_prepare].
  split; [done|]. intros [e'|exc]; [done|].
  destruct (isinstance exc FlowSideEffectRevisionConflictError); cbn; [|done].
  split; [done|]. intros [e'|exc']; cbn; [apply IH|done].
Qed.

(** Tasks that start the same Tool call of an invocation, each with clock,
    identifiers and mode of its own. *)
Record starter := mk_starter {
  sr_fuel : nat;
  sr_amb : ambient;
  sr_tool : string;
  sr_mode : ToolSideEffectMode;
}.

Section Race.
Variables (f i : uuid) (call : string) (starters : gmap nat starter) (l0 : Ledger).
Local Abbreviation op := (call_operation f i call) (only parsing).

Definition starter_code (s : starter) : recorder_code ToolSideEffectReceipt :=
  recorder_start (sr_fuel s) (sr_amb s) call (sr_tool s) (sr_mode s) (Some f) (Some i).

(** The ids the evidence of the operation can have. *)
Definition effect_ids (id : uuid) : Prop :=
  lg_operations l0 !! op = Some id \/
  exists j s, starters !! j = Some s /\ id = amb_uuid (sr_amb s) 0.

(** Other tasks do anything to this and other evidence, but prepare other
    operations, under other ids. *)
Definition keeps_operation (t : recorder_turn) : Prop :=
  match t with
  | TurnOther (LPrepare e) => operation_of e <> op /\ ~ effect_ids (se_id e)
  | _ => True
  end.

Lemma starter_code_cases s :
  (exists exc, starter_code s = RRet (Raise exc)) \/
  exists k key, starter_code s =
      RCall (OpPrepare (prepared_effect (sr_amb s) call (sr_tool s) (sr_mode s) f i)) k /\
    (forall exc, k (Raise exc) = RRet (Raise exc)) /\
    forall e, k (Ok e) = recorder_map (receipt_of key) (start_or_replay (sr_fuel s) (later (sr_amb s)) e).
Proof.
  unfold starter_code, recorder_start. destruct (negb _); [left; by eexists|].
  destruct (FlowSideEffect_new _) as [e|exc] eqn:Hn; [|left; by eexists].
  apply checked_Ok in Hn as (_ & _ & ->). right. by eexists _, _.
Qed.

Lemma starter_no_receipt s rc : RRet (Ok rc) <> starter_code s.
Proof.
  destruct (starter_code_cases s) as [[exc ->]|(k & key & -> & _)]; discriminate.
Qed.

Definition refused (c : recorder_code ToolSideEffectReceipt) : Prop := exists exc, c = RRet (Raise exc).

(** Before the operation is bound nobody got past [prepare]; once it is bound
    to unprotected evidence, a receipt is out only when the evidence is past
    starting, and only one; once bound to idempotent evidence, starts in
    unsafe mode are refused. *)
Definition race_bound (e : FlowSideEffect) (id : uuid) (codes : gmap nat (recorder_code ToolSideEffectReceipt))
  : Prop :=
  match se_retry_mode e with
  | RM_UNSAFE =>
      (forall j c s, codes !! j = Some c -> starters !! j = Some s ->
         c = starter_code s \/ owns_start id c \/
         (exists rc, c = RRet (Ok rc)) /\ phase_rank (se_phase e) = 0%nat) /\
      (forall j j' rc rc', codes !! j = Some (RRet (Ok rc)) -> codes !! j' = Some (RRet (Ok rc')) -> j = j')
  | RM_IDEMPOTENT =>
      forall j c s, codes !! j = Some c -> starters !! j = Some s ->
        c = starter_code s \/ no_prepare c /\ (sr_mode s = SM_UNSAFE -> refused c)
  end.

Record race_ok (s : recorders ToolSideEffectReceipt) : Prop := {
  ro_ledger : ledger_ok (rs_ledger s);
  ro_codes : forall j, is_Some (rs_code s !! j) -> is_Some (starters !! j);
  ro_bound : match lg_operations (rs_ledger s) !! op with
             | None => forall j c sr, rs_code s !! j = Some c -> starters !! j = Some sr ->
                         c = starter_code sr \/ refused c
             | Some id => effect_ids id /\ exists e, lg_effects (rs_ledger s) !! id = Some e /\
                            race_bound e id (rs_code s)
             end;
}.

Lemma race_start : ledger_ok l0 -> race_ok (mk_recorders l0 (starter_code <$> starters)).
Proof.
  intros Hl. assert (forall j c s, (starter_code <$> starters) !! j = Some c -> starters !! j = Some s ->
    c = starter_code s) as Hc.
  { intros j c s Hj Hs. rewrite lookup_fmap, Hs in Hj. by injection Hj. }
  split; cbn; [done| |].
  - intros j [c Hj]. rewrite lookup_fmap in Hj. apply fmap_Some in Hj as (s & Hs & _). by exists s.
  - destruct (lg_operations l0 !! op) as [id|] eqn:Ho.
    + split; [by left|]. destruct (proj2 Hl _ _ Ho) as [e He]. exists e. split; [done|].
      unfold race_bound. destruct (se_retry_mode e).
      * split; [intros j c s Hj Hs; left; by eapply Hc|]. intros j j' rc rc' Hj _.
        rewrite lookup_fmap in Hj. apply fmap_Some in Hj as (s & _ & Hs).
        by destruct (starter_no_receipt s rc).
      * intros j c s Hj Hs. left. by eapply Hc.
    + intros j c s Hj Hs. left. by eapply Hc.
Qed.

(** Evidence that grew keeps the invariant of the codes. *)
Lemma race_bound_le e e' id codes : effect_le e e' -> race_bound e id codes -> race_bound e' id codes.
Proof.
  intros Hle. pose proof (el_intent _ _ Hle) as Hi. apply effect_same_intent_eq in Hi as (_ & _ & Hm & _).
  unfold race_bound. rewrite <-Hm. destruct (se_retry_mode e); [|done]. intros [H1 H2]. split; [|done].
  intros j c s Hj Hs. destruct (H1 j c s Hj Hs) as [?|[?|[? Hr]]]; [by left|by right; left|].
  right. right. split; [done|]. pose proof (el_rank _ _ Hle). lia.
Qed.

(** A call of another task. *)
Lemma race_other s c :
  keeps_operation (TurnOther c) -> race_ok s ->
  race_ok (mk_recorders (ledger_after c (rs_ledger s)) (rs_code s)).
Proof.
  intros Hk [Hl Hc Hb]. split; cbn; [by apply ledger_after_ok|done|].
  destruct (lg_operations (rs_ledger s) !! op) as [id|] eqn:Ho.
  - rewrite (ledger_after_operations _ _ _ _ Hl Ho). destruct Hb as (Hid & e & He & Hr).
    split; [done|].
    assert (keeps_effect id c) as Hke.
    { destruct c; cbn in *; [|done]. intros Heq. apply Hk. by rewrite Heq. }
    destruct (ledger_after_le _ _ _ _ Hl Hke He) as (e' & He' & Hle). exists e'. split; [done|].
    by eapply race_bound_le.
  - assert (lg_operations (ledger_after c (rs_ledger s)) !! op = None) as ->; [|done].
    destruct c; cbn.
    + destruct (ledger_prepare e (rs_ledger s)) as [[l' e']|] eqn:E; [|done]. cbn.
      destruct (ledger_prepare_spec _ _ _ _ Hl E) as (_ & _ & _ & _ & _ & [[-> _]|(_ & _ & ->)]); [done|].
      cbn. rewrite lookup_insert_ne; [done|]. apply Hk.
    + destruct (ledger_transition _ _ _ _ _) as [[l' e']|] eqn:E; [|done]. cbn.
      by destruct (ledger_transition_spec _ _ _ _ _ _ _ E) as (cur & _ & _ & _ & _ & ->).
Qed.

(** The codes after one of them moved. *)
Lemma race_bound_step e id codes j c :
  race_bound e id codes ->
  (forall s, starters !! j = Some s ->
     match se_retry_mode e with
     | RM_UNSAFE => owns_start id c
     | RM_IDEMPOTENT => no_prepare c /\ (sr_mode s = SM_UNSAFE -> refused c)
     end) -> is_Some (starters !! j) ->
  race_bound e id (<[j := c]> codes).
Proof.
  unfold race_bound. intros Hb Hc [sj Hsj]. specialize (Hc sj Hsj).
  destruct (se_retry_mode e).
  - destruct Hb as [H1 H2]. split.
    + intros j' c' s Hj' Hs. apply lookup_insert_Some in Hj' as [[<- <-]|[_ Hj']]; [by right; left|].
      by eapply H1.
    + intros j1 j2 rc1 rc2 E1 E2.
      apply lookup_insert_Some in E1 as [[<- ->]|[_ E1]]; [done|].
      apply lookup_insert_Some in E2 as [[<- ->]|[_ E2]]; [done|]. by eapply H2.
  - intros j' c' s Hj' Hs. apply lookup_insert_Some in Hj' as [[<- <-]|[_ Hj']]; [|by eapply Hb].
    right. rewrite Hsj in Hs. by injection Hs as <-.
Qed.

(** A starter's [prepare]. *)
Lemma race_prepare s j sr k key :
  race_ok s -> starters !! j = Some sr ->
  (forall exc, k (Raise exc) = RRet (Raise exc)) ->
  (forall e, k (Ok e) = recorder_map (receipt_of key) (start_or_replay (sr_fuel sr) (later (sr_amb sr)) e)) ->
  let '(l', r) := perform (OpPrepare (prepared_effect (sr_amb sr) call (sr_tool sr) (sr_mode sr) f i))
                    (rs_ledger s) in
  race_ok (mk_recorders l' (<[j := k r]> (rs_code s))).
Proof.
  intros [Hl Hc Hb] Hj Hk1 Hk2. cbn [perform]. set (p := prepared_effect _ _ _ _ _ _).
  assert (forall x j', is_Some (<[j := x]> (rs_code s) !! j') -> is_Some (starters !! j')) as Hc'.
  { intros x j' [y Hy]. apply lookup_insert_Some in Hy as [[<- _]|[_ Hy]]; [by eexists|].
    apply Hc. by eexists. }
  destruct (ledger_prepare p (rs_ledger s)) as [[l' e]|exc] eqn:Hp.
  - pose proof (ledger_after_ok (LPrepare p) (rs_ledger s) Hl) as Hl'. cbn in Hl'. rewrite Hp in Hl'.
    cbn in Hl'. destruct (prepare_effect_id _ _ _ _ _ _ _ _ _ Hl Hp) as (Hid & He & Hop & Hi).
    apply effect_same_intent_eq in Hi as (_ & _ & Hmode & _). cbn in Hmode.
    assert (match se_retry_mode e with
            | RM_UNSAFE => owns_start (se_id e) (k (Ok e))
            | RM_IDEMPOTENT => no_prepare (k (Ok e)) /\ (sr_mode sr = SM_UNSAFE -> refused (k (Ok e)))
            end) as Hnew.
    { rewrite Hk2. destruct (se_retry_mode e) eqn:Hm; [by apply start_or_replay_owns|].
      split; [apply start_or_replay_no_prepare|]. intros Hs. by rewrite Hs in Hmode. }
    split; cbn; [done|apply Hc'|]. rewrite Hop.
    destruct (ledger_prepare_spec _ _ _ _ Hl Hp) as (_ & _ & _ & _ & _ & [[-> Hex]|(-> & Hn & Hl'')]).
    + change (operation_of p) with op in Hex. rewrite Hex in Hb.
      destruct Hb as (Hids & e' & He' & Hr). assert (e' = e) as -> by congruence. split; [done|].
      exists e. split; [done|]. apply race_bound_step; [done| |by eexists].
      intros sj Hsj. rewrite Hj in Hsj. by injection Hsj as <-.
    + change (operation_of p) with op in Hn. rewrite Hn in Hb. split.
      { right. exists j, sr. by split. }
      exists p. split; [done|]. apply race_bound_step; [| |by eexists].
      * unfold race_bound. destruct (se_retry_mode p).
        -- split.
           ++ intros j' c' s' Hj' Hs'. destruct (Hb j' c' s' Hj' Hs') as [->|[exc ->]]; [by left|].
              right. by left.
           ++ intros j1 j2 rc1 rc2 E1 _. destruct (Hc j1) as [s1 Hs1]; [by eexists|].
              destruct (Hb j1 _ s1 E1 Hs1) as [E|[exc E]]; [|done].
              by destruct (starter_no_receipt s1 rc1).
        -- intros j' c' s' Hj' Hs'. destruct (Hb j' c' s' Hj' Hs') as [->|[exc ->]]; [by left|].
           right. split; [done|]. by eexists.
      * intros sj Hsj. rewrite Hj in Hsj. by injection Hsj as <-.
  - rewrite Hk1. split; cbn; [done|apply Hc'|].
    destruct (lg_operations (rs_ledger s) !! op) as [id|].
    + destruct Hb as (Hids & e & He & Hr). split; [done|]. exists e. split; [done|].
      apply race_bound_step; [done| |by eexists]. intros sj _.
      destruct (se_retry_mode e); [done|]. split; [done|]. by eexists.
    + intros j' c' s' Hj' Hs'. apply lookup_insert_Some in Hj' as [[<- <-]|[_ Hj']]; [|by eapply Hb].
      right. by eexists.
Qed.

Lemma startable_rank p : PH_STARTED ∈ valid_phases p -> phase_rank p <> 0%nat.
Proof. destruct p; simpl; intros Hp; [done|set_solver|set_solver|done]. Qed.

(** A turn of a recorder that is past [prepare]: the ledger gains evidence. *)
Lemma race_move s j o k e id :
  race_ok s -> lg_operations (rs_ledger s) !! op = Some id -> lg_effects (rs_ledger s) !! id = Some e ->
  is_Some (starters !! j) -> (forall e, o <> OpPrepare e) ->
  let '(l', r) := perform o (rs_ledger s) in
  (forall e', effect_le e e' -> lg_effects l' !! id = Some e' ->
     race_bound e' id (<[j := k r]> (rs_code s))) ->
  race_ok (mk_recorders l' (<[j := k r]> (rs_code s))).
Proof.
  intros [Hl Hc Hb] Ho He Hj Hn.
  assert (exists c, fst (perform o (rs_ledger s)) = ledger_after c (rs_ledger s) /\ keeps_effect id c \/
                    fst (perform o (rs_ledger s)) = rs_ledger s) as [c Hfst].
  { destruct o as [e0|amb id' v|amb id' v|id'].
    - by destruct (Hn e0).
    - exists (LMove amb id' v PH_STARTED). left. split; [|done]. cbn. unfold mark_started.
      by destruct (ledger_transition _ _ _ _ _) as [[? ?]|].
    - exists (LMove amb id' v PH_CONFIRMED). left. split; [|done]. cbn. unfold ledger_confirm.
      by destruct (ledger_transition _ _ _ _ _) as [[? ?]|].
    - exists (LPrepare e). by right. }
  destruct (perform o (rs_ledger s)) as [l' r]. cbn in Hfst. intros Hnew.
  assert (ledger_ok l' /\ lg_operations l' !! op = Some id /\
          exists e', lg_effects l' !! id = Some e' /\ effect_le e e') as (Hl' & Ho' & e' & He' & Hle).
  { destruct Hfst as [[-> Hk]| ->].
    - split; [by apply ledger_after_ok|]. split; [by apply ledger_after_operations|].
      by apply ledger_after_le.
    - split_and!; [done|done|]. by exists e. }
  rewrite Ho in Hb. split; cbn; [done| |].
  - intros j' [y Hy]. apply lookup_insert_Some in Hy as [[<- _]|[_ Hy]]; [done|]. apply Hc. by eexists.
  - rewrite Ho'. split; [apply Hb|]. exists e'. split; [done|]. by apply Hnew.
Qed.

Lemma race_turn s t : keeps_operation t -> race_ok s -> race_ok (recorder_turn_step s t).
Proof.
  intros Ht W. destruct t as [j|c]; [|by apply race_other]. cbn.
  destruct (rs_code s !! j) as [c|] eqn:Hj; [|done]. destruct c as [o| |o k]; [done|done|].
  destruct (ro_codes _ W j) as [sr Hsr]; [by eexists|].
  assert (RCall o k = starter_code sr ->
    race_ok (let '(l', r) := perform o (rs_ledger s) in mk_recorders l' (<[j := k r]> (rs_code s)))) as Hstart.
  { intros E. destruct (starter_code_cases sr) as [[exc E']|(k' & key & E' & H1 & H2)];
      rewrite E' in E; [discriminate E|]. injection E as -> ->. pose proof (race_prepare s j sr k' key W Hsr H1 H2) as Hp.
    by destruct (perform _ (rs_ledger s)). }
  pose proof (ro_bound _ W) as Hb.
  destruct (lg_operations (rs_ledger s) !! op) as [id|] eqn:Ho.
  2: { destruct (Hb j _ sr Hj Hsr) as [E|[exc E]]; [by apply Hstart|done]. }
  destruct Hb as (Hids & e & He & Hr). pose proof Hr as Hr'. unfold race_bound in Hr'.
  destruct (se_retry_mode e) eqn:Hm.
  - destruct Hr' as [H1 H2]. destruct (H1 j _ sr Hj Hsr) as [E|[Hown|[[rc E] _]]]; [by apply Hstart| |done].
    assert (forall e0, o <> OpPrepare e0) as Hn by (intros e0 ->; done).
    pose proof (race_move s j o k e id W Ho He ltac:(by eexists) Hn) as Hmove.
    destruct o as [e0|amb id' v|amb id' v|id']; try done.
    + destruct Hown as (-> & Hok & Hraise). cbn [perform] in *.
      destruct (mark_started amb id v (rs_ledger s)) as [[l' st]|exc] eqn:Hms.
      * apply Hmove. intros e' Hle He'. destruct (Hok st) as [o Hoc]. rewrite Hoc.
        destruct (ledger_transition_spec _ _ _ _ _ _ _ Hms) as (cur & Hcur & _ & Hph & -> & ->).
        rewrite He in Hcur. injection Hcur as <-. cbn in He'. rewrite lookup_insert_eq in He'.
        injection He' as <-.
        assert (forall j' rc, rs_code s !! j' = Some (RRet (Ok rc)) -> False) as Hnone.
        { intros j' rc Hj'. destruct (ro_codes _ W j') as [s' Hs']; [by eexists|].
          destruct (H1 j' _ s' Hj' Hs') as [E|[Hw|[_ Hrank]]]; [|done|].
          - by destruct (starter_no_receipt s' rc).
          - exact (startable_rank _ Hph Hrank). }
        unfold race_bound. cbn. rewrite Hm. split.
        -- intros j' c s' Hj' Hs'. apply lookup_insert_Some in Hj' as [[<- <-]|[_ Hj']].
           ++ right. destruct o as [rc|exc]; [right|by left]. split; [by eexists|done].
           ++ destruct (H1 j' c s' Hj' Hs') as [?|[?|[? _]]]; [by left|by right; left|by right; right].
        -- intros j1 j2 rc1 rc2 E1 E2.
           apply lookup_insert_Some in E1 as [[<- _]|[_ E1]]; [|by destruct (Hnone _ _ E1)].
           apply lookup_insert_Some in E2 as [[<- _]|[_ E2]]; [done|by destruct (Hnone _ _ E2)].
      * apply Hmove. intros e' Hle He'. rewrite He in He'. injection He' as <-.
        apply race_bound_step; [done| |by eexists]. intros sj _. rewrite Hm. apply Hraise.
    + destruct Hown as (-> & Hraise & Hok). cbn [perform] in *. apply Hmove. intros e' Hle He'.
      rewrite He in He'. injection He' as <-. apply race_bound_step; [done| |by eexists].
      intros sj _. rewrite Hm. unfold ledger_get. rewrite He. apply Hok; [|done].
      by apply (proj1 (ro_ledger _ W)).
  - destruct (Hr' j _ sr Hj Hsr) as [E|[Hnp Hunsafe]]; [by apply Hstart|].
    destruct Hnp as [Hop Hnp].
    assert (forall e0, o <> OpPrepare e0) as Hn by (intros e0 ->; done).
    pose proof (race_move s j o k e id W Ho He ltac:(by eexists) Hn) as Hmove.
    destruct (perform o (rs_ledger s)) as [l' r]. apply Hmove. intros e' Hle _.
    apply race_bound_le with e; [done|]. apply race_bound_step; [done| |by eexists].
    intros sj Hsj. rewrite Hm. split; [apply Hnp|]. intros Hs. rewrite Hsr in Hsj. injection Hsj as <-.
    destruct (Hunsafe Hs) as [exc E]. discriminate E.
Qed.

Lemma race_turns ts : forall s, Forall keeps_operation ts -> race_ok s -> race_ok (run_recorders ts s).
Proof.
  induction ts as [|t ts IH]; intros s Hts W; [done|]. apply Forall_cons in Hts as [Ht Hts].
  apply IH; [done|]. by apply race_turn.
Qed.

(** C31: an unprotected effect is started at most once.  Let any number of
    tasks [start] the same Tool call of an invocation, in whatever modes,
    their ledger calls interleaved in any way with each other and with
    whatever other tasks do to the ledger (transitions of this very evidence
    included; only preparing this operation outside of the recorder, or
    evidence under an id that is in use for it, is left out), retries of
    earlier starts among them: when a start in unsafe mode has returned a
    receipt, no other start returns one. *)
Theorem unsafe_effect_started_once ts s a sa ra :
  ledger_ok l0 -> Forall keeps_operation ts ->
  run_recorders ts (mk_recorders l0 (starter_code <$> starters)) = s ->
  starters !! a = Some sa -> sr_mode sa = SM_UNSAFE ->
  rs_code s !! a = Some (RRet (Ok ra)) ->
  forall b rb, b <> a -> rs_code s !! b <> Some (RRet (Ok rb)).
Proof.
  intros Hl Hts Hs Hsa Hm Ha b rb Hne Hb. apply Hne.
  pose proof (race_turns ts _ Hts (race_start Hl)) as W. rewrite Hs in W.
  pose proof (fun sr => starter_no_receipt sr ra) as Hns.
  pose proof (ro_bound _ W) as Hbd.
  destruct (lg_operations (rs_ledger s) !! op) as [id|].
  - destruct Hbd as (_ & e & _ & Hr). unfold race_bound in Hr. destruct (se_retry_mode e).
    + by apply (proj2 Hr b a rb ra).
    + destruct (Hr a _ sa Ha Hsa) as [E|[_ Hu]]; [by destruct (Hns sa)|].
      by destruct (Hu Hm) as [exc E].
  - destruct (Hbd a _ sa Ha Hsa) as [E|[exc E]]; [by destruct (Hns sa)|done].
Qed.
End Race.

(** A governed transport, undisturbed.  For a new operation with an
    accepted Tool name, [start] returns a receipt whose effect is STARTED,
    [confirm] of that receipt succeeds and leaves it CONFIRMED, confirming
    again still succeeds, and a later [start] of the same call replays an
    idempotent effect with the same idempotency key and nothing left to
    confirm, and refuses an unsafe one. *)
Theorem governed_transport_roundtrip amb amb' amb'' call tool mode f i l :
  let none (_ : nat) : list ledger_call := [] in
  ledger_ok l -> lg_operations l !! call_operation f i call = None ->
  effect_tool_name_ok tool = true -> mode ∈ [SM_UNSAFE; SM_IDEMPOTENT] ->
  exists l1 rc l2, run_recorder 0 none (recorder_start 2 amb call tool mode (Some f) (Some i)) l = Some (l1, Ok rc) /\
    option_map se_phase (lg_effects l1 !! amb_uuid amb 0) = Some PH_STARTED /\
    run_recorder 0 none (recorder_confirm amb' rc) l1 = Some (l2, Ok tt) /\
    option_map se_phase (lg_effects l2 !! amb_uuid amb 0) = Some PH_CONFIRMED /\
    run_recorder 0 none (recorder_confirm amb' rc) l2 = Some (l2, Ok tt) /\
    match mode with
    | SM_IDEMPOTENT => exists rc', run_recorder 0 none (recorder_start 2 amb'' call tool mode (Some f) (Some i)) l2
                                     = Some (l2, Ok rc') /\
        rc_idempotency_key rc' = rc_idempotency_key rc /\ is_none (rc_idempotency_key rc) = false /\
        run_recorder 0 none (recorder_confirm amb' rc') l2 = Some (l2, Ok tt)
    | _ => exists m, run_recorder 0 none (recorder_start 2 amb'' call tool mode (Some f) (Some i)) l2
                       = Some (l2, Raise (Exn ToolSideEffectReplayUnsafeError m))
    end.
Proof.
  intros none Hl Hop Htool Hmode.
  assert (forall a, FlowSideEffect_new (prepared_effect a call tool mode f i)
                    = Ok (prepared_effect a call tool mode f i)) as Hnew
    by (intros; by apply prepared_effect_new).
  set (e0 := prepared_effect amb call tool mode f i).
  assert (FlowSideEffect_new e0 = Ok e0) as Hnew0 by apply Hnew.
  assert (ledger_prepare e0 l = Ok (mk_Ledger (<[amb_uuid amb 0 := e0]> (lg_effects l))
    (<[call_operation f i call := amb_uuid amb 0]> (lg_operations l)), e0)) as Hp.
  { unfold ledger_prepare.
    change (operation_of e0) with (call_operation f i call). by rewrite Hop. }
  set (e1 := effect_moved e0 PH_STARTED (amb_now (later amb) 0)).
  set (e2 := effect_moved e1 PH_CONFIRMED (amb_now amb' 0)).
  set (key := if bool_decide (mode = SM_IDEMPOTENT) then Some (idempotency_key f i call) else None).
  set (l1 := mk_Ledger (<[amb_uuid amb 0 := e1]> (<[amb_uuid amb 0 := e0]> (lg_effects l)))
               (<[call_operation f i call := amb_uuid amb 0]> (lg_operations l))).
  set (l2 := mk_Ledger (<[amb_uuid amb 0 := e2]> (lg_effects l1)) (lg_operations l1)).
  assert (lg_effects l1 !! amb_uuid amb 0 = Some e1) as He1 by apply lookup_insert_eq.
  assert (lg_effects l2 !! amb_uuid amb 0 = Some e2) as He2 by apply lookup_insert_eq.
  assert (bool_decide (mode ∈ [SM_UNSAFE; SM_IDEMPOTENT]) = true) as Hm by (by apply bool_decide_eq_true).
  exists l1, (mk_ToolSideEffectReceipt (FlowEffectReceipt (amb_uuid amb 0) 2 true) key), l2.
  split_and!.
  - unfold recorder_start. rewrite Hm. cbv zeta. cbn [negb].
    rewrite Hnew. cbn [run_recorder perform]. change (ledger_trace (none 0%nat) l) with l.
    fold e0. rewrite Hp, run_recorder_map. cbn [start_or_replay]. rewrite startable. simpl.
    unfold mark_started, ledger_transition, ledger_get. simpl. rewrite lookup_insert_eq. simpl. done.
  - by rewrite He1.
  - unfold recorder_confirm. cbn [rc_token negb run_recorder perform].
    unfold ledger_confirm, ledger_transition, ledger_get.
    change (ledger_trace (none 0%nat) l1) with l1. rewrite He1. done.
  - by rewrite He2.
  - unfold recorder_confirm. cbn [rc_token negb run_recorder perform].
    unfold ledger_confirm, ledger_transition, ledger_get.
    change (ledger_trace (none 0%nat) l2) with l2. rewrite He2. simpl.
    change (ledger_trace (none 1%nat) l2) with l2. unfold ledger_get. rewrite He2. done.
  - assert (ledger_prepare (prepared_effect amb'' call tool mode f i) l2 = Ok (l2, e2)) as Hp2.
    { unfold ledger_prepare.
      change (operation_of (prepared_effect amb'' call tool mode f i)) with (call_operation f i call).
      assert (lg_operations l2 !! call_operation f i call = Some (amb_uuid amb 0)) as ->
        by apply lookup_insert_eq.
      rewrite He2.
      assert (effect_same_intent e2 (prepared_effect amb'' call tool mode f i) = true) as ->
        by (by apply effect_same_intent_eq).
      done. }
    assert (run_recorder 0 none (recorder_start 2 amb'' call tool mode (Some f) (Some i)) l2 =
      run_recorder 1 none (recorder_map (receipt_of key)
        (if bool_decide (se_retry_mode e2 = RM_IDEMPOTENT) then RRet (Ok e2)
         else RRet (Raise (Exn ToolSideEffectReplayUnsafeError
                             "unprotected side effect may already have executed")))) l2) as Hstart.
    { unfold recorder_start. rewrite Hm. cbv zeta. cbn [negb]. rewrite Hnew.
      cbn [run_recorder perform]. change (ledger_trace (none 0%nat) l2) with l2.
      by rewrite Hp2, start_or_replay_over. }
    destruct mode; try discriminate Hm.
    + eexists. rewrite Hstart. reflexivity.
    + eexists. rewrite Hstart. split; [reflexivity|]. done.
Qed.

(** ** A concrete ledger *)

Definition effect_ambient (u : uuid) : ambient := Ambient 0 (fun _ => 0) (fun _ => u).

(** Another worker aborts the prepared effect before this one marks it. *)
Definition aborting_others : interference :=
  fun n => if (n =? 1)%nat then [LMove (effect_ambient 0%N) 1%N 1 PH_ABORTED] else [].

Definition example_start (u : uuid) :=
  recorder_start 2 (effect_ambient u) "call-1" "send_mail" SM_UNSAFE (Some 7%N) (Some 8%N).

Lemma side_effect_evidence_monotone_witness :
  exists e', lg_effects (ledger_trace [LMove (effect_ambient 0%N) 1%N 1 PH_STARTED]
      (ledger_trace [LPrepare (prepared_effect (effect_ambient 1%N) "c" "t" SM_UNSAFE 7%N 8%N)]
         ledger_empty)) !! 1%N = Some e' /\ se_retry_mode e' = RM_UNSAFE.
Proof.
  set (e0 := prepared_effect (effect_ambient 1%N) "c" "t" SM_UNSAFE 7%N 8%N).
  assert (lg_effects (ledger_trace [LPrepare e0] ledger_empty) !! 1%N = Some e0) as He
    by (vm_compute; reflexivity).
  assert (lg_operations (ledger_trace [LPrepare e0] ledger_empty) !! operation_of e0 = Some 1%N) as Ho
    by (vm_compute; reflexivity).
  assert (Forall (keeps_effect 1%N) [LMove (effect_ambient 0%N) 1%N 1 PH_STARTED]) as Hcs
    by repeat constructor.
  destruct (side_effect_evidence_monotone [LPrepare e0]
              [LMove (effect_ambient 0%N) 1%N 1 PH_STARTED] (operation_of e0) 1%N e0 He Ho Hcs) as (e' & He' & _ & Hi & _).
  exists e'. split; [exact He'|].
  apply effect_same_intent_eq in Hi as (_ & _ & Hm & _). symmetry. exact Hm.
Defined.

Lemma recorder_start_terminates_witness :
  exists l' o, run_recorder 0 aborting_others (example_start 1%N) ledger_empty = Some (l', o) /\
    ledger_ok l'.
Proof.
  assert (forall id, others_keep id aborting_others) as Hk.
  { intros id k. unfold aborting_others. destruct (k =? 1)%nat; repeat constructor. }
  exact (recorder_start_terminates aborting_others (effect_ambient 1%N) "call-1" "send_mail"
           SM_UNSAFE 7%N 8%N ledger_empty ledger_ok_empty (Hk _)).
Defined.

(** Two tasks start the call at once: both prepare it, one marks it, the
    other's [mark_started] finds another revision and it looks again. *)
Definition example_starters : gmap nat starter :=
  {[ 0%nat := mk_starter 2 (effect_ambient 1%N) "send_mail" SM_UNSAFE;
     1%nat := mk_starter 2 (effect_ambient 2%N) "send_mail" SM_UNSAFE ]}.

Definition example_start_race : list recorder_turn :=
  [TurnOf 0; TurnOf 1; TurnOther (LMove (effect_ambient 0%N) 1%N 1 PH_ABORTED);
   TurnOf 0; TurnOf 0; TurnOf 1; TurnOf 0; TurnOf 1; TurnOf 1; TurnOf 1].

Definition example_recorders : recorders ToolSideEffectReceipt :=
  run_recorders example_start_race
    (mk_recorders ledger_empty (starter_code 7%N 8%N "call-1" <$> example_starters)).

Definition returned {A} (c : option (recorder_code A)) : option (outcome A) :=
  match c with Some (RRet o) => Some o | _ => None end.

Example example_start_outcomes :
  option_map (fun o => on_Ok o (fun _ => None) (match o with
                                                | Raise e => Some (exn_cls e)
                                                | Ok _ => None
                                                end)) (returned (rs_code example_recorders !! 0%nat)) =
    Some None /\
  option_map (fun o => match o with Raise e => Some (exn_cls e) | Ok _ => None end)
    (returned (rs_code example_recorders !! 1%nat)) = Some (Some ToolSideEffectReplayUnsafeError).
Proof. vm_compute. split; reflexivity. Qed.

Lemma unsafe_effect_started_once_witness :
  exists ra, rs_code example_recorders !! 0%nat = Some (RRet (Ok ra)) /\
    forall rb, rs_code example_recorders !! 1%nat <> Some (RRet (Ok rb)).
Proof.
  assert (match rs_code example_recorders !! 0%nat with Some (RRet (Ok _)) => True | _ => False end) as Hx
    by (vm_compute; exact I).
  destruct (rs_code example_recorders !! 0%nat) as [[[ra|]| |]|] eqn:E; try destruct Hx.
  exists ra. split; [reflexivity|]. intros rb.
  assert (Forall (keeps_operation 7%N 8%N "call-1" example_starters ledger_empty) example_start_race) as Hts
    by repeat constructor.
  exact (unsafe_effect_started_once 7%N 8%N "call-1" example_starters ledger_empty
           example_start_race example_recorders 0%nat
           (mk_starter 2 (effect_ambient 1%N) "send_mail" SM_UNSAFE) ra ledger_ok_empty Hts
           eq_refl eq_refl eq_refl E 1%nat rb (Nat.neq_succ_0 0)).
Defined.

Lemma governed_transport_roundtrip_witness :
  exists l1 rc l2, run_recorder 0 (fun _ => [])
      (recorder_start 2 (effect_ambient 1%N) "c" "lookup" SM_IDEMPOTENT (Some 7%N) (Some 8%N))
      ledger_empty = Some (l1, Ok rc) /\
    run_recorder 0 (fun _ => []) (recorder_confirm (effect_ambient 0%N) rc) l1 = Some (l2, Ok tt).
Proof.
  assert (SM_IDEMPOTENT ∈ [SM_UNSAFE; SM_IDEMPOTENT]) as Hm by (right; left).
  destruct (governed_transport_roundtrip (effect_ambient 1%N) (effect_ambient 0%N)
              (effect_ambient 2%N) "c" "lookup" SM_IDEMPOTENT 7%N 8%N ledger_empty
              ledger_ok_empty (lookup_empty _) eq_refl Hm)
    as (l1 & rc & l2 & H1 & _ & H2 & _).
  exists l1, rc, l2. split; [exact H1|exact H2].
Defined.
