(* ===== verification/Recovery.v ===== *)
(** * Recovery of interrupted Flow work ([src/base_agent/flows/recovery.py])

    Definitions resolved by exact id and version, the conservative policy
    that decides what may be continued automatically, and the work handler
    that gates an application dispatcher behind both. *)

From Stdlib Require Import QArith.
From stdpp Require Import base gmap strings list.
From S2P Require Import Prelude Json Models Sha256 FlowModels FlowLifecycle FlowRepository FlowWork SideEffects.

(** ** Definition registry *)

Section Registry.
Context `{FloatRepr}.

Abbreviation registry := (gmap (string * string) FlowDefinition) (only parsing).

(** The loop of [InMemoryFlowDefinitionRegistry.__init__]. *)
Fixpoint registry_add (ds : list FlowDefinition) (r : registry) : outcome registry :=
  match ds with
  | [] => Ok r
  | d :: ds' =>
      raise_when match r !! (fd_id d, fd_version d) with
                 | Some existing =>
                     negb (bool_decide (FlowDefinition_fingerprint existing
                                        = FlowDefinition_fingerprint d))
                 | None => false
                 end
        as Exn FlowDefinitionConflictError
             (fstr ["Flow definition '"; fd_id d; "@"; fd_version d;
                    "' has conflicting fingerprints"]) in
      registry_add ds' (<[(fd_id d, fd_version d) := d]> r)
  end.

Definition registry_new (ds : list FlowDefinition) : outcome registry := registry_add ds ∅.

(** [resolve]. *)
Definition registry_resolve (r : registry) (id version : string) : outcome FlowDefinition :=
  match r !! (id, version) with
  | Some d => Ok d
  | None => Raise (Exn FlowDefinitionNotFoundError
                     (fstr ["Flow definition '"; id; "@"; version; "' was not found"]))
  end.

(** [_validate_resolved_definition]. *)
Definition validate_resolved_definition (d : FlowDefinition) (s : FlowRunState) : outcome unit :=
  raise_when negb (bool_decide (fd_id d = fr_definition_id s)
                   && bool_decide (fd_version d = fr_definition_version s)
                   && bool_decide (FlowDefinition_fingerprint d = fr_definition_fingerprint s))
    as Exn FlowDefinitionMismatchError
         (fstr ["resolved Flow definition does not match Run '"; uuid_str (fr_run_id s); "'"]) in
  Ok tt.
End Registry.

(** ** The policy *)

Inductive FlowRecoveryAction :=
  | RA_START | RA_ADVANCE | RA_RESUME | RA_FINALIZE | RA_CANCEL | RA_NOOP | RA_MANUAL_REVIEW.

#[export] Instance FlowRecoveryAction_eq_dec : EqDecision FlowRecoveryAction.
Proof. solve_decision. Defined.

Inductive FlowRecoveryReason :=
  | RR_CREATED_SAFE_TO_START | RR_IDLE_SAFE_TO_ADVANCE | RR_SETTLED_FAILURE_SAFE_TO_FINALIZE
  | RR_WAITING_INPUT_AVAILABLE | RR_WAITING_CONFIRMATION_AVAILABLE | RR_CANCELLATION_REQUESTED
  | RR_TERMINAL_ALREADY_SETTLED | RR_ACTIVE_INVOCATION_UNCERTAIN
  | RR_ACTIVE_SIDE_EFFECT_RETRY_UNSAFE | RR_WAITING_INPUT_REQUIRED | RR_RESUME_STATE_MISMATCH
  | RR_UNSUPPORTED_STATE | RR_DEFINITION_NOT_FOUND | RR_DEFINITION_FINGERPRINT_MISMATCH.

#[export] Instance FlowRecoveryReason_eq_dec : EqDecision FlowRecoveryReason.
Proof. solve_decision. Defined.

Definition reason_value (r : FlowRecoveryReason) : string :=
  match r with
  | RR_CREATED_SAFE_TO_START => "created_safe_to_start"
  | RR_IDLE_SAFE_TO_ADVANCE => "idle_safe_to_advance"
  | RR_SETTLED_FAILURE_SAFE_TO_FINALIZE => "settled_failure_safe_to_finalize"
  | RR_WAITING_INPUT_AVAILABLE => "waiting_input_available"
  | RR_WAITING_CONFIRMATION_AVAILABLE => "waiting_confirmation_available"
  | RR_CANCELLATION_REQUESTED => "cancellation_requested"
  | RR_TERMINAL_ALREADY_SETTLED => "terminal_already_settled"
  | RR_ACTIVE_INVOCATION_UNCERTAIN => "active_invocation_uncertain"
  | RR_ACTIVE_SIDE_EFFECT_RETRY_UNSAFE => "active_side_effect_retry_unsafe"
  | RR_WAITING_INPUT_REQUIRED => "waiting_input_required"
  | RR_RESUME_STATE_MISMATCH => "resume_state_mismatch"
  | RR_UNSUPPORTED_STATE => "unsupported_state"
  | RR_DEFINITION_NOT_FOUND => "definition_not_found"
  | RR_DEFINITION_FINGERPRINT_MISMATCH => "definition_fingerprint_mismatch"
  end.

Record FlowRecoveryDecision := mk_FlowRecoveryDecision {
  dec_action : FlowRecoveryAction;
  dec_reason : FlowRecoveryReason;
}.

Section Policy.
(** [ToolConfirmation.model_validate(payload)]: pydantic's parsing of a
    JSON object (UUID and datetime texts included), [None] when it raises
    [ValueError]. *)
Variable parse_confirmation : jdict -> option ToolConfirmation.

(** [_confirmation_from_command]. *)
Definition confirmation_from_command (c : FlowWorkCommand) : option ToolConfirmation :=
  match dget "confirmation" (wc_data c) with
  | Some (JObj payload) => parse_confirmation payload
  | _ => None
  end.

(** [isinstance(user_input, str) and bool(user_input.strip())]. *)
Definition has_user_input (c : FlowWorkCommand) : bool :=
  match dget "user_input" (wc_data c) with
  | Some (JStr s) => negb (blank s)
  | _ => false
  end.

(** [FlowRecoveryPolicy.decide]. *)
Definition decide_recovery (c : FlowWorkCommand) (s : FlowRunState)
  (side_effects : list FlowSideEffect) : outcome FlowRecoveryDecision :=
  raise_when negb (bool_decide (wc_run_id c = fr_run_id s))
    as value_error ["Flow work command targets another Flow Run"] in
  if is_terminal_flow (fr_status s) then
    Ok (mk_FlowRecoveryDecision RA_NOOP RR_TERMINAL_ALREADY_SETTLED)
  else if bool_decide (wc_kind c = WK_CANCEL) then
    Ok (mk_FlowRecoveryDecision RA_CANCEL RR_CANCELLATION_REQUESTED)
  else if bool_decide (wc_kind c = WK_RESUME) then
    let has_confirmation := negb (is_none (confirmation_from_command c)) in
    if bool_decide (fr_status s = WAITING) && xorb (has_user_input c) has_confirmation then
      Ok (mk_FlowRecoveryDecision RA_RESUME
            (if has_confirmation then RR_WAITING_CONFIRMATION_AVAILABLE
             else RR_WAITING_INPUT_AVAILABLE))
    else
      Ok (mk_FlowRecoveryDecision RA_MANUAL_REVIEW
            (if bool_decide (fr_status s = WAITING) then RR_WAITING_INPUT_REQUIRED
             else RR_RESUME_STATE_MISMATCH))
  else if negb (bool_decide (wc_kind c ∈ [WK_EXECUTE; WK_RECOVER])) then
    Ok (mk_FlowRecoveryDecision RA_MANUAL_REVIEW RR_UNSUPPORTED_STATE)
  else if bool_decide (fr_status s = CREATED) then
    Ok (mk_FlowRecoveryDecision RA_START RR_CREATED_SAFE_TO_START)
  else if bool_decide (fr_status s = WAITING) then
    Ok (mk_FlowRecoveryDecision RA_MANUAL_REVIEW RR_WAITING_INPUT_REQUIRED)
  else if bool_decide (fr_status s = RUNNING) then
    match active_invocation s with
    | Some _ =>
        Ok (mk_FlowRecoveryDecision RA_MANUAL_REVIEW
              (if existsb (fun e => negb (retry_safe e)) side_effects
               then RR_ACTIVE_SIDE_EFFECT_RETRY_UNSAFE else RR_ACTIVE_INVOCATION_UNCERTAIN))
    | None =>
        if match last (fr_invocations s) with
           | None => true
           | Some i => bool_decide (inv_status i = COMPLETED)
           end
        then Ok (mk_FlowRecoveryDecision RA_ADVANCE RR_IDLE_SAFE_TO_ADVANCE)
        else Ok (mk_FlowRecoveryDecision RA_FINALIZE RR_SETTLED_FAILURE_SAFE_TO_FINALIZE)
    end
  else Ok (mk_FlowRecoveryDecision RA_MANUAL_REVIEW RR_UNSUPPORTED_STATE).

(** ** The work handler *)

Context `{FloatRepr} {W : Type} `{FlowRepository W}.

(** [FlowRecoveryContext]; its [lifecycle] is the service over the
    handler's repository under this [execution_lease]. *)
Record FlowRecoveryContext := mk_FlowRecoveryContext {
  ctx_item : FlowWorkItem;
  ctx_definition : FlowDefinition;
  ctx_state : FlowRunState;
  ctx_decision : FlowRecoveryDecision;
  ctx_execution_lease : FlowExecutionLease;
  ctx_side_effects : list FlowSideEffect;
}.

(** The handler's collaborators: the resolver, the optional evidence
    reader and the application's dispatcher, all of which may raise. *)
Variable resolve : string -> string -> outcome FlowDefinition.
Variable evidence : option (uuid -> outcome (list FlowSideEffect)).
Variable dispatch : FlowRecoveryContext -> W -> W * outcome unit.

Definition blocked (r : FlowRecoveryReason) : exn := FlowWorkBlocked (reason_value r).

(** What [DefinitionResolvingFlowWorkHandler.__call__] does before it
    dispatches: [Ok None] when there is nothing to do. *)
Definition recovery_context (item : FlowWorkItem) (lease : FlowExecutionLease) (w : W)
  : outcome (option FlowRecoveryContext) :=
  let! s := frepo_get (wc_run_id (wi_command item)) w in
  let! d := match resolve (fr_definition_id s) (fr_definition_version s) with
            | Raise e =>
                if isinstance e FlowDefinitionNotFoundError
                then Raise (blocked RR_DEFINITION_NOT_FOUND) else Raise e
            | Ok d => Ok d
            end in
  let! _ := match validate_resolved_definition d s with
            | Raise e =>
                if isinstance e FlowDefinitionMismatchError
                then Raise (blocked RR_DEFINITION_FINGERPRINT_MISMATCH) else Raise e
            | Ok u => Ok u
            end in
  let! effects := match active_invocation s, evidence with
                  | Some i, Some read => read (inv_id i)
                  | _, _ => Ok []
                  end in
  let! decision := decide_recovery (wi_command item) s effects in
  if bool_decide (dec_action decision = RA_MANUAL_REVIEW)
  then Raise (blocked (dec_reason decision))
  else if bool_decide (dec_action decision = RA_NOOP) then Ok None
  else Ok (Some (mk_FlowRecoveryContext item d s decision lease effects)).

(** [__call__]. *)
Definition recovery_handler (item : FlowWorkItem) (lease : FlowExecutionLease) (w : W)
  : W * outcome unit :=
  match recovery_context item lease w with
  | Raise e => (w, Raise e)
  | Ok None => (w, Ok tt)
  | Ok (Some ctx) => dispatch ctx w
  end.
End Policy.

(** ** What a decision promises *)

(** The transition each automatic action relies on is possible. *)
Definition action_admissible (parse : jdict -> option ToolConfirmation) (c : FlowWorkCommand)
  (s : FlowRunState) (a : FlowRecoveryAction) : Prop :=
  match a with
  | RA_START => forall now, is_ok (flow_start now s)
  | RA_ADVANCE => fr_status s = RUNNING /\ fr_active_invocation_id s = None /\
      forall i, last (fr_invocations s) = Some i -> inv_status i = COMPLETED
  | RA_RESUME => exists i, active_invocation s = Some i /\
      (forall amb, is_ok (flow_resume amb (inv_id i) s)) /\
      xorb (has_user_input c) (negb (is_none (confirmation_from_command parse c))) = true
  | RA_FINALIZE => fr_status s = RUNNING /\ fr_active_invocation_id s = None /\
      exists i, last (fr_invocations s) = Some i /\ settled i /\ inv_status i <> COMPLETED
  | RA_CANCEL => forall amb reason, blank reason = false -> is_ok (flow_cancel amb reason s)
  | RA_NOOP => is_terminal_flow (fr_status s) = true
  | RA_MANUAL_REVIEW => True
  end.

Lemma nonterminal_cases st : is_terminal_flow st = false -> st = CREATED \/ st = RUNNING \/ st = WAITING.
Proof. destruct st; vm_compute; auto; done. Qed.

Lemma resume_total s l i amb :
  flow_inv s -> fr_status s = WAITING -> active_invocation s = Some i ->
  fr_invocations s = l ++ [i] -> inv_status i = WAITING -> is_ok (flow_resume amb (inv_id i) s).
Proof.
  intros Hs Hw Ha Hl Hi. unfold flow_resume. rewrite Hw, Ha. simpl.
  rewrite bool_decide_eq_true_2 by done. simpl. unfold inv_resume. rewrite Hi. simpl. by eexists.
Qed.

(** ** Properties *)

(** Recovery is conservative.  For a command on a valid Flow Run of its
    own, the policy always decides, and only ever for an action the Run's
    state admits: START only where [start] succeeds, RESUME only with one
    waiting invocation that [resume] accepts and exactly one of input and
    confirmation, CANCEL only where [cancel] succeeds, ADVANCE and FINALIZE
    only between invocations (after a completed, respectively a failed one),
    NOOP only when the Run is over.  While an invocation is running, every
    command but a cancellation goes to manual review: an Agent that may
    already be at work is never invoked again. *)
Theorem recovery_is_conservative parse c s effects :
  flow_inv s -> wc_run_id c = fr_run_id s ->
  exists d, decide_recovery parse c s effects = Ok d /\
    action_admissible parse c s (dec_action d) /\
    (dec_action d = RA_MANUAL_REVIEW \/ dec_reason d <> RR_UNSUPPORTED_STATE) /\
    (status_is RUNNING (active_invocation s) = true -> wc_kind c <> WK_CANCEL ->
       dec_action d = RA_MANUAL_REVIEW) /\
    (dec_reason d = RR_ACTIVE_SIDE_EFFECT_RETRY_UNSAFE ->
       Exists (fun e => retry_safe e = false) effects).
Proof.
  intros Hs Hrid. unfold decide_recovery. rewrite bool_decide_eq_true_2 by done. simpl.
  destruct (active_spec s Hs) as [(Hn & Ha & Hset & Hnw)|(l & i & Hl & Hid & Ha & Hset & Hst & Hr)].
  - destruct (is_terminal_flow (fr_status s)) eqn:Ht.
    { eexists. split; [done|]. rewrite Ha. simpl. split_and!; try done. by right. }
    destruct (decide (wc_kind c = WK_CANCEL)) as [Hk|Hk].
    { rewrite bool_decide_eq_true_2 by done. eexists. split; [done|]. rewrite Ha. simpl.
      split_and!; try done; [|by right]. intros amb reason Hb. unfold flow_cancel.
      destruct (flow_terminate_spec amb CANCELLED reason s Hs eq_refl Ht Hb) as (s' & -> & _).
      by eexists. }
    rewrite (bool_decide_eq_false_2 (wc_kind c = WK_CANCEL)) by done.
    destruct (decide (wc_kind c = WK_RESUME)) as [Hk2|Hk2].
    { rewrite bool_decide_eq_true_2 by done. rewrite (bool_decide_eq_false_2 (fr_status s = WAITING)) by done.
      simpl. eexists. split; [done|]. rewrite Ha. simpl. split_and!; try done. by left. }
    rewrite (bool_decide_eq_false_2 (wc_kind c = WK_RESUME)) by done.
    rewrite bool_decide_eq_true_2 by (destruct (wc_kind c); try done; set_solver). simpl.
    destruct (nonterminal_cases _ Ht) as [Hc|[Hc|Hc]]; [| |done]; rewrite Hc; simpl.
    + eexists. split; [done|]. rewrite Ha. simpl. split_and!; try done; [|by right].
      intros now. unfold flow_start. rewrite Hc. simpl. by eexists.
    + rewrite Ha. simpl. destruct (last (fr_invocations s)) as [i|] eqn:Hlast.
      * case_bool_decide as Hi; eexists; (split; [done|]); simpl; split_and!; try done; try by right.
        -- intros j Hj. congruence.
        -- exists i. split_and!; try done. rewrite Forall_forall in Hset. apply Hset.
           apply last_Some in Hlast as [l ->]. set_solver.
      * eexists. split; [done|]. simpl. split_and!; try done; [|by right].
        intros j Hj. congruence.
  - assert (is_terminal_flow (fr_status s) = false) as Ht by (by apply live_not_terminal).
    rewrite Ht.
    destruct (decide (wc_kind c = WK_CANCEL)) as [Hk|Hk].
    { rewrite bool_decide_eq_true_2 by done. eexists. split; [done|]. simpl.
      split_and!; try done; [|by right]. intros amb reason Hb. unfold flow_cancel.
      destruct (flow_terminate_spec amb CANCELLED reason s Hs eq_refl Ht Hb) as (s' & -> & _).
      by eexists. }
    rewrite (bool_decide_eq_false_2 (wc_kind c = WK_CANCEL)) by done.
    destruct (decide (wc_kind c = WK_RESUME)) as [Hk2|Hk2].
    { rewrite bool_decide_eq_true_2 by done. case_bool_decide as Hw; simpl.
      - destruct (xorb _ _) eqn:Hx; eexists; (split; [done|]); simpl; split_and!; try done.
        + exists i. split_and!; try done. intros amb.
          apply (resume_total s l); try done. congruence.
        + right. by destruct (negb _).
        + rewrite Ha. simpl. rewrite Hst, Hw. done.
        + by destruct (negb _).
        + by left.
      - eexists. split; [done|]. simpl. split_and!; try done. by left. }
    rewrite (bool_decide_eq_false_2 (wc_kind c = WK_RESUME)) by done.
    rewrite bool_decide_eq_true_2 by (destruct (wc_kind c); try done; set_solver). simpl.
    destruct Hr as [Hr|Hr]; rewrite Hr; simpl.
    + rewrite Ha. eexists. split; [done|]. simpl. split_and!; try done; [by left|].
      destruct (existsb _ _) eqn:Hex; [|done]. intros _. apply Exists_exists.
      apply existsb_exists in Hex as (e & Hin & He). exists e. reflect.
      split; [by apply list_elem_of_In|done].
    + eexists. split; [done|]. simpl. split_and!; try done. by left.
Qed.

(** The reason codes are ones a work item can be blocked with. *)
Lemma blocked_class r : exn_cls (blocked r) = FlowWorkBlockedError /\ exn_msg (blocked r) = reason_value r.
Proof. by destruct r. Qed.

(** The work handler.  It calls the application's dispatcher at most
    once, and only with the stored state, a definition whose id, version and
    fingerprint are the ones the Run was created with, and an automatic
    decision the policy took for that state; otherwise it changes nothing,
    returning only when there is nothing to do.  A stored Run whose
    definition the resolver does not know, or knows with other contents,
    blocks the work item with the corresponding reason. *)
Theorem recovery_handler_gates_dispatch `{FloatRepr} `{FlowRepository W}
    parse resolve evidence dispatch item lease (w : W) :
  ((exists ctx, recovery_handler parse resolve evidence dispatch item lease w = dispatch ctx w /\
     ctx_item ctx = item /\ ctx_execution_lease ctx = lease /\
     frepo_get (wc_run_id (wi_command item)) w = Ok (ctx_state ctx) /\
     fd_id (ctx_definition ctx) = fr_definition_id (ctx_state ctx) /\
     fd_version (ctx_definition ctx) = fr_definition_version (ctx_state ctx) /\
     FlowDefinition_fingerprint (ctx_definition ctx) = fr_definition_fingerprint (ctx_state ctx) /\
     decide_recovery parse (wi_command item) (ctx_state ctx) (ctx_side_effects ctx)
       = Ok (ctx_decision ctx) /\
     dec_action (ctx_decision ctx) <> RA_MANUAL_REVIEW /\ dec_action (ctx_decision ctx) <> RA_NOOP)
  \/ exists o, recovery_handler parse resolve evidence dispatch item lease w = (w, o) /\
     match o with
     | Ok _ => exists s effects d, frepo_get (wc_run_id (wi_command item)) w = Ok s /\
         decide_recovery parse (wi_command item) s effects = Ok d /\ dec_action d = RA_NOOP
     | Raise e => True
     end) /\
  (forall s m, frepo_get (wc_run_id (wi_command item)) w = Ok s ->
     resolve (fr_definition_id s) (fr_definition_version s)
       = Raise (Exn FlowDefinitionNotFoundError m) ->
     recovery_handler parse resolve evidence dispatch item lease w =
       (w, Raise (Exn FlowWorkBlockedError "definition_not_found"))) /\
  (forall s d, frepo_get (wc_run_id (wi_command item)) w = Ok s ->
     resolve (fr_definition_id s) (fr_definition_version s) = Ok d ->
     FlowDefinition_fingerprint d <> fr_definition_fingerprint s ->
     recovery_handler parse resolve evidence dispatch item lease w =
       (w, Raise (Exn FlowWorkBlockedError "definition_fingerprint_mismatch"))).
Proof.
  unfold recovery_handler, recovery_context. split; [|split].
  2: { intros s m -> ->. done. }
  2: { intros s d -> -> Hf. unfold validate_resolved_definition.
       rewrite (bool_decide_eq_false_2 (FlowDefinition_fingerprint d = _)) by done.
       by rewrite andb_false_r. }
  destruct (frepo_get _ w) as [s|]; [|right; by eexists].
  destruct (resolve _ _) as [d|e]; [|right; destruct (isinstance _ _); by eexists].
  unfold validate_resolved_definition.
  destruct (negb _) eqn:Hd; [right; by eexists|]. reflect.
  set (effs := match active_invocation s with Some _ => _ | None => _ end).
  destruct effs as [effects|]; [|right; by eexists].
  destruct (decide_recovery _ _ s effects) as [dec|] eqn:Hdec; [|right; by eexists].
  case_bool_decide as Hact; [right; by eexists|]. case_bool_decide as Hnoop.
  - right. eexists. split; [done|]. simpl. by exists s, effects, dec.
  - left. eexists. split; [done|]. simpl. split_and!; done.
Qed.

(** The loop of the registry, from definitions already [seen]. *)
Definition registry_holds `{FloatRepr} (seen : list FlowDefinition)
  (r : gmap (string * string) FlowDefinition) : Prop :=
  (forall k d, r !! k = Some d -> d ∈ seen /\ (fd_id d, fd_version d) = k) /\
  (forall d, d ∈ seen -> exists d', r !! (fd_id d, fd_version d) = Some d' /\
     FlowDefinition_fingerprint d' = FlowDefinition_fingerprint d).

Definition pinned `{FloatRepr} (ds : list FlowDefinition) : Prop :=
  forall d d', d ∈ ds -> d' ∈ ds -> fd_id d = fd_id d' -> fd_version d = fd_version d' ->
    FlowDefinition_fingerprint d = FlowDefinition_fingerprint d'.

Lemma registry_holds_insert `{FloatRepr} seen r d :
  registry_holds seen r ->
  (forall ex, r !! (fd_id d, fd_version d) = Some ex ->
     FlowDefinition_fingerprint ex = FlowDefinition_fingerprint d) ->
  registry_holds (seen ++ [d]) (<[(fd_id d, fd_version d) := d]> r).
Proof.
  intros [Hr1 Hr2] Hex. split.
  - intros k x [[<- <-]|[_ Hx]]%lookup_insert_Some.
    + split; [|done]. apply elem_of_app. right. by left.
    + destruct (Hr1 _ _ Hx). split; [|done]. apply elem_of_app. by left.
  - intros x [Hx| ->%list_elem_of_singleton]%elem_of_app.
    + destruct (Hr2 _ Hx) as (y & Hy & Hf). rewrite lookup_insert. case_decide as Hk.
      * exists d. split; [done|]. rewrite <-Hk in Hy. by rewrite <-(Hex _ Hy).
      * by exists y.
    + rewrite lookup_insert_eq. by exists d.
Qed.

Lemma registry_holds_pinned `{FloatRepr} seen r : registry_holds seen r -> pinned seen.
Proof.
  intros [_ Hr] d d' Hd Hd' Hi Hv.
  destruct (Hr _ Hd) as (x & Hx & <-). destruct (Hr _ Hd') as (y & Hy & <-).
  rewrite Hi, Hv, Hy in Hx. by injection Hx as ->.
Qed.

Lemma registry_add_spec `{FloatRepr} ds : forall seen r0,
  registry_holds seen r0 ->
  (is_ok (registry_add ds r0) <-> pinned (seen ++ ds)) /\
  (forall r, registry_add ds r0 = Ok r -> registry_holds (seen ++ ds) r).
Proof.
  induction ds as [|d ds IH]; intros seen r0 Hr; cbn [registry_add].
  - rewrite app_nil_r. split; [|by intros r [= <-]].
    split; [|by eexists]. intros _. by eapply registry_holds_pinned.
  - destruct (match r0 !! _ with Some _ => _ | None => _ end) eqn:Hc.
    + split; [|done]. split; [by intros [? ?]|]. intros Hall. exfalso.
      destruct (r0 !! (fd_id d, fd_version d)) as [ex|] eqn:Hex; [|done].
      apply negb_true_iff, bool_decide_eq_false in Hc.
      destruct (proj1 Hr _ _ Hex) as [Hin Hkey]. injection Hkey as Hi Hv. apply Hc.
      apply Hall; [|..|exact Hi|exact Hv]; apply elem_of_app; [by left|right; by left].
    + destruct (IH (seen ++ [d]) (<[(fd_id d, fd_version d) := d]> r0)) as [Hok Hres].
      * apply registry_holds_insert; [done|]. intros ex Hex. rewrite Hex in Hc.
        by apply negb_false_iff, bool_decide_eq_true in Hc.
      * rewrite <-app_assoc in Hok, Hres. exact (conj Hok Hres).
Qed.

(** The definition registry.  It is built exactly when no two of the
    given definitions share id and version with different fingerprints; a
    definition it resolves is one of those given, with exactly the id and
    version asked for, and every one given resolves to a definition with its
    fingerprint. *)
Theorem registry_resolves_pinned `{FloatRepr} ds :
  (is_ok (registry_new ds) <->
     forall d d', d ∈ ds -> d' ∈ ds -> fd_id d = fd_id d' -> fd_version d = fd_version d' ->
       FlowDefinition_fingerprint d = FlowDefinition_fingerprint d') /\
  (forall r, registry_new ds = Ok r ->
     (forall id v d, registry_resolve r id v = Ok d -> d ∈ ds /\ fd_id d = id /\ fd_version d = v) /\
     (forall d, d ∈ ds -> exists d', registry_resolve r (fd_id d) (fd_version d) = Ok d' /\
        FlowDefinition_fingerprint d' = FlowDefinition_fingerprint d)).
Proof.
  destruct (registry_add_spec ds [] ∅) as [Hok Hres].
  { split; [done|]. intros d Hd. by apply elem_of_nil in Hd. }
  split; [exact Hok|]. intros r Hr. destruct (Hres r Hr) as [Ha Hb]. split.
  - intros id v d Hd. unfold registry_resolve in Hd. destruct (r !! (id, v)) as [x|] eqn:Hx; [|done].
    injection Hd as ->. destruct (Ha _ _ Hx) as [Hin Hk]. by injection Hk as -> ->.
  - intros d Hd. destruct (Hb d Hd) as (d' & Hd' & Hf). exists d'. unfold registry_resolve.
    by rewrite Hd'.
Qed.

Lemma recovery_is_conservative_witness :
  exists d, decide_recovery (fun _ => None)
    (mk_FlowWorkCommand 1%N 7%N WK_RECOVER "k" [] 0) example_created [] = Ok d /\
    dec_action d = RA_START.
Proof.
  assert (wc_run_id (mk_FlowWorkCommand 1%N 7%N WK_RECOVER "k" [] 0) = fr_run_id example_created)
    as Hid by (vm_compute; reflexivity).
  destruct (recovery_is_conservative (fun _ => None) (mk_FlowWorkCommand 1%N 7%N WK_RECOVER "k" [] 0)
              example_created [] example_created_inv Hid) as (d & Hd & _).
  exists d. split; [exact Hd|].
  assert (match decide_recovery (fun _ => None) (mk_FlowWorkCommand 1%N 7%N WK_RECOVER "k" [] 0)
                  example_created [] with Ok d => dec_action d = RA_START | Raise _ => False end) as Hx
    by (vm_compute; reflexivity).
  rewrite Hd in Hx. exact Hx.
Defined.
