(* ===== verification/Program.v ===== *)
(** * Programs with effects

    The asynchronous parts of the source are programs over a state: a small
    state-and-exception monad, in which an await is any program (other tasks
    run there) and a loop that runs out of fuel has no result. *)

From stdpp Require Import base gmap strings list.
From S2P Require Import Prelude.

(** The state and the number of environment readings made so far. *)
Record sys (W : Type) := mk_sys { sys_w : W; sys_tick : nat }.
Arguments mk_sys {W}.
Arguments sys_w {W}.
Arguments sys_tick {W}.

(** A program returns or raises and leaves a state; [None] is a loop that
    ran out of fuel. *)
Definition prog (W A : Type) : Type := sys W -> option (sys W * outcome A).

(** An awaitable: what it does when awaited to its end, and what it has done
    when a deadline cancels it. *)
Record awaitable (W A : Type) := mk_awaitable {
  aw_run : prog W A;
  aw_cut : prog W unit;
}.
Arguments mk_awaitable {W A}.
Arguments aw_run {W A}.
Arguments aw_cut {W A}.

Section Programs.
Context {W : Type}.

Definition ret {A} (a : A) : prog W A := fun st => Some (st, Ok a).
Definition throw {A} (e : exn) : prog W A := fun st => Some (st, Raise e).
Definition of_outcome {A} (o : outcome A) : prog W A := fun st => Some (st, o).

Definition bind {A B} (p : prog W A) (k : A -> prog W B) : prog W B :=
  fun st => match p st with
            | Some (st', Ok a) => k a st'
            | Some (st', Raise e) => Some (st', Raise e)
            | None => None
            end.

(** [try: p except ...: h]: [h e] is [None] when no clause matches. *)
Definition try_except {A} (p : prog W A) (h : exn -> option (prog W A)) : prog W A :=
  fun st => match p st with
            | Some (st', Raise e) =>
                match h e with Some q => q st' | None => Some (st', Raise e) end
            | r => r
            end.

(** [async with asyncio.timeout(...): return await op]; [expires] says
    whether the deadline fires during the await at the given reading. *)
Definition with_timeout {A} (expires : nat -> bool) (op : awaitable W A) : prog W A :=
  fun st => if expires (sys_tick st)
            then bind (aw_cut op) (fun _ => throw (Exn ExTimeoutError ""))
                   (mk_sys (sys_w st) (S (sys_tick st)))
            else aw_run op (mk_sys (sys_w st) (S (sys_tick st))).
End Programs.

Declare Scope prog_scope.
Delimit Scope prog_scope with prog.
Notation "'let*' x ':=' p 'in' k" := (bind p (fun x => k))
  (at level 10, x name, p at level 200, k at level 200) : prog_scope.
Notation "'do*' p 'in' k" := (bind p (fun _ => k))
  (at level 10, p at level 200, k at level 200) : prog_scope.
Open Scope prog_scope.

(** ** Running a program forward *)

Lemma bind_Ok {W A B} (p : prog W A) (k : A -> prog W B) st st' a :
  p st = Some (st', Ok a) -> bind p k st = k a st'.
Proof. unfold bind. by intros ->. Qed.

Lemma bind_Raise {W A B} (p : prog W A) (k : A -> prog W B) st st' e :
  p st = Some (st', Raise e) -> bind p k st = Some (st', Raise e).
Proof. unfold bind. by intros ->. Qed.

Lemma try_Ok {W A} (p : prog W A) h st st' a :
  p st = Some (st', Ok a) -> try_except p h st = Some (st', Ok a).
Proof. unfold try_except. by intros ->. Qed.

(** ** Programs that end *)

Definition ends {W A} (p : prog W A) : Prop := forall st, exists st' o, p st = Some (st', o).

Lemma ends_ret {W A} (a : A) : ends (W := W) (ret a).
Proof. intros st. by eexists _, _. Qed.
Lemma ends_throw {W A} e : ends (W := W) (A := A) (throw e).
Proof. intros st. by eexists _, _. Qed.
Lemma ends_of_outcome {W A} (o : outcome A) : ends (W := W) (of_outcome o).
Proof. intros st. by eexists _, _. Qed.
Lemma ends_bind {W A B} (p : prog W A) (k : A -> prog W B) :
  ends p -> (forall a, ends (k a)) -> ends (bind p k).
Proof.
  intros Hp Hk st. unfold bind. destruct (Hp st) as (st' & [a|e] & ->); [apply Hk|by eexists _, _].
Qed.
Lemma ends_try {W A} (p : prog W A) h :
  ends p -> (forall e q, h e = Some q -> ends q) -> ends (try_except p h).
Proof.
  intros Hp Hh st. unfold try_except. destruct (Hp st) as (st' & [a|e] & ->); [by eexists _, _|].
  destruct (h e) as [q|] eqn:E; [by eapply Hh|by eexists _, _].
Qed.
Lemma ends_timeout {W A} expires (op : awaitable W A) :
  ends (aw_run op) -> ends (aw_cut op) -> ends (with_timeout expires op).
Proof.
  intros Hr Hc st. unfold with_timeout. destruct (expires _); [|apply Hr].
  apply ends_bind; [done|]. intros _. apply ends_throw.
Qed.

#[export] Hint Resolve ends_ret ends_throw ends_of_outcome ends_bind ends_try ends_timeout : base_agent.
