(* ===== verification/Tasks.v ===== *)
(** * Tasks of an event loop

    What [asyncio] makes of a coroutine: it runs without giving up control
    until it awaits, and an await either resumes it or throws
    [CancelledError] into it.  A task is the tree of all it may still do;
    the event loop, other tasks running at every await, drives it to its
    end.  [race] is the pattern of a supervised operation: the operation and
    a heartbeat run concurrently until one of them ends. *)

From stdpp Require Import base gmap strings list.
From S2P Require Import Prelude Program.

Inductive signal := Resumed | Cancelled.

Inductive task (W A : Type) :=
  | Ended (o : outcome A)
  | Do (f : sys W -> sys W * task W A)
  | Await (k : signal -> task W A).
Arguments Ended {W A}.
Arguments Do {W A}.
Arguments Await {W A}.

Definition cancelled_error : exn := Exn ExCancelledError "".

Section Tasks.
Context {W : Type}.

(** [try: t] followed by the code for each way it ends. *)
Fixpoint finish {A B} (t : task W A) (k : outcome A -> task W B) : task W B :=
  match t with
  | Ended o => k o
  | Do f => Do (fun st => let '(st', t') := f st in (st', finish t' k))
  | Await r => Await (fun s => finish (r s) k)
  end.

(** A call that does not give up control. *)
Definition now {A} (f : sys W -> sys W * outcome A) : task W A :=
  Do (fun st => let '(st', o) := f st in (st', Ended o)).

(** [asyncio.create_task]: the coroutine starts when the event loop gets to
    it; cancelled before, it never runs. *)
Definition create_task {A} (t : task W A) : task W A :=
  Await (fun s => match s with Resumed => t | Cancelled => Ended (Raise cancelled_error) end).

(** The event loop: at every await other tasks run, and the task is resumed
    or cancelled. *)
Section Loop.
Variable others : sys W -> sys W.
Variable signals : nat -> signal.

Fixpoint drive {A} (t : task W A) (st : sys W) : sys W * outcome A :=
  match t with
  | Ended o => (st, o)
  | Do f => let '(st', t') := f st in drive t' st'
  | Await k =>
      let st' := others st in
      drive (k (signals (sys_tick st'))) (mk_sys (sys_w st') (S (sys_tick st')))
  end.
End Loop.
End Tasks.

(** ** A supervised operation

    [asyncio.wait((operation, heartbeat), FIRST_COMPLETED)] with the code
    around it, for an operation and a heartbeat that calls [beat] from time
    to time for ever: [choose] says whether the event loop resumes the
    operation or lets the heartbeat beat, of which it can do [n] more. *)
Section Race.
Context {W A H : Type}.
Variable choose : nat -> bool.
Variable beat : H -> sys W -> sys W * outcome H.

Definition pick (l r : task W A) : task W A :=
  Do (fun st => (mk_sys (sys_w st) (S (sys_tick st)), if choose (sys_tick st) then l else r)).

(** [await asyncio.gather(operation, heartbeat, return_exceptions=True)] of
    tasks that have ended, in a [finally] clause that ends with [res]. *)
Definition gathered (res : outcome A) : task W A :=
  Await (fun s => Ended (match s with Resumed => res | Cancelled => Raise cancelled_error end)).

(** The same while the operation still runs. *)
Fixpoint drain (op : task W A) (res : outcome A) : task W A :=
  match op with
  | Ended _ => gathered res
  | Do f => Do (fun st => let '(st', op') := f st in (st', drain op' res))
  | Await k =>
      Await (fun s => match s with
                      | Resumed => drain (k Resumed) res
                      | Cancelled => drain (k Cancelled) (Raise cancelled_error)
                      end)
  end.

(** The [finally] clause: [operation.cancel(); heartbeat.cancel()], then
    [gather]. *)
Definition stop (op : task W A) (res : outcome A) : task W A :=
  match op with
  | Await k =>
      Await (fun s => drain (k Cancelled)
                        (match s with Resumed => res | Cancelled => Raise cancelled_error end))
  | _ => drain op res
  end.

(** The heartbeat has ended with [e]; the waiter raises it once it wakes. *)
Fixpoint failing (e : exn) (op : task W A) : task W A :=
  match op with
  | Do f => Do (fun st => let '(st', op') := f st in (st', failing e op'))
  | Ended o =>
      Await (fun s => stop (Ended o) (match s with
                                      | Resumed => Raise e
                                      | Cancelled => Raise cancelled_error
                                      end))
  | Await k =>
      Await (fun s => match s with
                      | Cancelled => stop (Await k) (Raise cancelled_error)
                      | Resumed => pick (failing e (k Resumed)) (stop (Await k) (Raise e))
                      end)
  end.

(** The operation has ended first: [heartbeat.cancel()], then
    [_await_cancelled(heartbeat)], which catches [CancelledError] whoever
    was cancelled, and the operation's outcome. *)
Definition settle_operation (o : outcome A) : task W A := Await (fun _ => gathered o).

(** The operation has ended with [o], and the waiter is not awake yet. *)
Fixpoint finished (n : nat) (h : H) (o : outcome A) : task W A :=
  Await (fun s =>
    match s with
    | Cancelled => gathered (Raise cancelled_error)
    | Resumed =>
        match n with
        | O => settle_operation o
        | S n' =>
            pick (settle_operation o)
              (Do (fun st => let '(st', r) := beat h st in
                 (st', match r with
                       | Ok h' => finished n' h' o
                       | Raise e => failing e (Ended o)
                       end)))
        end
    end).

Fixpoint race (n : nat) : H -> task W A -> task W A := fun h => fix go (op : task W A) : task W A :=
  match op with
  | Do f => Do (fun st => let '(st', op') := f st in (st', go op'))
  | Ended o => finished n h o
  | Await k =>
      Await (fun s =>
        match s with
        | Cancelled => stop (Await k) (Raise cancelled_error)
        | Resumed =>
            match n with
            | O => go (k Resumed)
            | S n' =>
                pick (go (k Resumed))
                  (Do (fun st => let '(st', r) := beat h st in
                     (st', match r with
                           | Ok h' => race n' h' (Await k)
                           | Raise e => failing e (Await k)
                           end)))
            end
        end)
  end.
End Race.

(** Induction on what a task may still do. *)
Fixpoint task_induction {W A} (P : task W A -> Prop) (HE : forall o, P (Ended o))
  (HD : forall f, (forall st, P (snd (f st))) -> P (Do f))
  (HA : forall k, (forall s, P (k s)) -> P (Await k)) (t : task W A) : P t :=
  match t with
  | Ended o => HE o
  | Do f => HD f (fun st => match f st as p return P (snd p) with
                            | (_, t') => task_induction P HE HD HA t'
                            end)
  | Await k => HA k (fun s => task_induction P HE HD HA (k s))
  end.

(** ** What a task guarantees

    [wp R t Q st]: run from [st], whatever signals it gets and however the
    other tasks change the world within [R] at its awaits, [t] ends with [Q]
    of its outcome and state. *)
Section Wp.
Context {W : Type}.
Variable R : W -> W -> Prop.

Fixpoint wp {A} (t : task W A) (Q : outcome A -> sys W -> Prop) (st : sys W) : Prop :=
  match t with
  | Ended o => Q o st
  | Do f => let '(st', t') := f st in wp t' Q st'
  | Await k => forall w n s, R (sys_w st) w -> wp (k s) Q (mk_sys w n)
  end.

Lemma wp_mono {A} (t : task W A) (Q Q' : outcome A -> sys W -> Prop) : forall st,
  wp t Q st -> (forall o st, Q o st -> Q' o st) -> wp t Q' st.
Proof.
  induction t as [o|f IH|k IH] using task_induction; intros st Ht HQ; simpl in *; [by apply HQ| |].
  - specialize (IH st). destruct (f st) as [st' t'] eqn:E. by apply IH.
  - intros w n s Hw. by apply IH; [apply Ht|].
Qed.

Lemma wp_finish {A B} (t : task W A) (k : outcome A -> task W B) Q : forall st,
  wp t (fun o st => wp (k o) Q st) st -> wp (finish t k) Q st.
Proof.
  induction t as [o|f IH|r IH] using task_induction; intros st Ht; simpl in *; [done| |].
  - specialize (IH st). destruct (f st) as [st' t']. by apply IH.
  - intros w n s Hw. apply IH. by apply Ht.
Qed.

Lemma wp_now {A} (f : sys W -> sys W * outcome A) Q st :
  Q (snd (f st)) (fst (f st)) -> wp (now f) Q st.
Proof. unfold now. simpl. by destruct (f st). Qed.

(** The event loop keeps the promise. *)
Lemma drive_wp {A} others signals (t : task W A) Q : forall st,
  (forall st, R (sys_w st) (sys_w (others st))) -> wp t Q st ->
  Q (snd (drive others signals t st)) (fst (drive others signals t st)).
Proof.
  induction t as [o|f IH|k IH] using task_induction; intros st HR Ht; simpl in *; [done| |].
  - specialize (IH st). destruct (f st) as [st' t']. by apply IH.
  - apply IH; [done|]. by apply Ht.
Qed.
End Wp.

(** A supervised operation ends as the operation does, or with a
    cancellation or the heartbeat's error, and only after the operation has
    ended: what holds of its end and is stable still holds. *)
Section WpRace.
Context {W A H : Type}.
Variable R : W -> W -> Prop.
Variable choose : nat -> bool.
Variable beat : H -> sys W -> sys W * outcome H.
Variable escapes : exn -> Prop.
Variable P : outcome A -> W -> Prop.

Context `{!PreOrder R}.
Hypothesis beat_within : forall h st, R (sys_w st) (sys_w (fst (beat h st))).
Hypothesis beat_escapes : forall h st e, snd (beat h st) = Raise e -> escapes e.
Hypothesis cancel_escapes : escapes cancelled_error.
Hypothesis stable : forall o w w', R w w' -> P o w -> P o w'.
Hypothesis escaped : forall o e w, P o w -> escapes e -> P (Raise e) w.

#[local] Arguments stop : simpl never.
#[local] Arguments gathered : simpl never.
#[local] Arguments settle_operation : simpl never.

#[local] Abbreviation ends_with := (fun o st => P o (sys_w st)).

Lemma wp_later (t : task W A) st w n :
  match t with Do _ => False | _ => True end -> R (sys_w st) w ->
  wp R t ends_with st -> wp R t ends_with (mk_sys w n).
Proof.
  destruct t as [o|f|k]; simpl; [|done|].
  - intros _ Hw. by apply stable.
  - intros _ Hw Ht w' n' s Hw'. apply Ht. by etrans.
Qed.

Lemma wp_gathered (o res : outcome A) st :
  P o (sys_w st) -> res = o \/ (exists e, res = Raise e /\ escapes e) -> wp R (gathered res) ends_with st.
Proof.
  intros Ho Hres w n s Hw. simpl. apply (stable _ _ _ Hw) in Ho.
  destruct s; [|by eapply escaped]. destruct Hres as [-> |(e & -> & He)]; [done|by eapply escaped].
Qed.

Lemma wp_drain (op : task W A) : forall e st,
  escapes e -> wp R op ends_with st -> wp R (drain op (Raise e)) ends_with st.
Proof.
  induction op as [o|f IH|k IH] using task_induction; intros e st He Hop.
  - simpl in Hop. eapply wp_gathered; [exact Hop|]. right. by exists e.
  - simpl in *. specialize (IH st). destruct (f st) as [st' op']. by apply IH.
  - intros w n s Hw. destruct s; [apply (IH Resumed)|apply (IH Cancelled)]; try done; by apply Hop.
Qed.

Lemma wp_stop e (op : task W A) st :
  escapes e -> wp R op ends_with st -> wp R (stop op (Raise e)) ends_with st.
Proof.
  intros He Hop. destruct op as [o|f|k]; [by apply wp_drain..|].
  intros w n s Hw. simpl. destruct s; apply wp_drain; try done; by apply Hop.
Qed.

Lemma wp_failing e (op : task W A) : forall st,
  escapes e -> wp R op ends_with st -> wp R (failing choose e op) ends_with st.
Proof.
  induction op as [o|f IH|k IH] using task_induction; intros st He Hop.
  - intros w n s Hw. simpl in Hop. apply (stable _ _ _ Hw) in Hop.
    destruct s; by apply wp_stop.
  - simpl in *. specialize (IH st). destruct (f st) as [st' op']. by apply IH.
  - intros w n s Hw. destruct s.
    + simpl. destruct (choose n).
      * apply (IH Resumed); [done|]. by apply Hop.
      * apply wp_stop; [done|]. by apply (wp_later _ st).
    + apply wp_stop; [done|]. by apply (wp_later _ st).
Qed.

#[local] Arguments failing : simpl never.

Lemma wp_settle_operation o st : P o (sys_w st) -> wp R (settle_operation o) ends_with st.
Proof. intros Ho w n s Hw. apply (wp_gathered o); [|by left]. by eapply stable. Qed.

Lemma wp_finished n : forall h o st,
  P o (sys_w st) -> wp R (finished choose beat n h o) ends_with st.
Proof.
  induction n as [|n IH]; intros h o st Ho w m s Hw; simpl; apply (stable _ _ _ Hw) in Ho;
    (destruct s; [|by apply (wp_gathered o); [|right; by eexists]]).
  - by apply wp_settle_operation.
  - simpl. destruct (choose m); [by apply wp_settle_operation|].
    set (st' := mk_sys w (S m)). pose proof (beat_within h st') as Hb. simpl in Hb.
    pose proof (beat_escapes h st') as He. simpl. destruct (beat h st') as [st2 r]. simpl in *.
    apply (stable _ _ _ Hb) in Ho. destruct r as [h'|e]; [by apply IH|].
    apply wp_failing; [by apply He|done].
Qed.

Lemma wp_race n : forall h op st,
  wp R op ends_with st -> wp R (race choose beat n h op) ends_with st.
Proof.
  induction n as [|n IHn]; intros h op;
    induction op as [o|f IH|k IH] using task_induction; intros st Hop;
    try (by apply wp_finished);
    try (simpl in *; specialize (IH st); destruct (f st) as [st' op']; by apply IH);
    (intros w m s Hw; destruct s; [|apply wp_stop; [done|by apply (wp_later _ st)]]).
  - apply (IH Resumed). by apply Hop.
  - simpl. destruct (choose m); [apply (IH Resumed); by apply Hop|].
    set (st' := mk_sys w (S m)). pose proof (beat_within h st') as Hb.
    pose proof (beat_escapes h st') as He. cbn -[race failing]. fold st'.
    destruct (beat h st') as [st2 r] eqn:Eb.
    cbn [fst snd sys_w st'] in Hb, He.
    assert (wp R (Await k) ends_with st2) as Hk.
    { destruct st2 as [w2 n2]. apply (wp_later (Await k) st); [done| |done]. by etrans. }
    destruct r as [h'|e]; [by apply IHn|]. apply wp_failing; [by apply He|done].
Qed.
End WpRace.

(** ** What a task does on its own part

    Every step of the task itself stays within [R], and it ends with an
    outcome in [V]. *)
Section Behaves.
Context {W : Type}.
Variable R : W -> W -> Prop.

Fixpoint behaves {A} (V : outcome A -> Prop) (t : task W A) : Prop :=
  match t with
  | Ended o => V o
  | Do f => forall st, R (sys_w st) (sys_w (fst (f st))) /\ behaves V (snd (f st))
  | Await k => forall s, behaves V (k s)
  end.

Context `{!PreOrder R}.

Lemma behaves_wp {A} V (t : task W A) : forall w st,
  behaves V t -> R w (sys_w st) -> wp R t (fun o st' => V o /\ R w (sys_w st')) st.
Proof.
  induction t as [o|f IH|k IH] using task_induction; intros w st Ht Hw; [done| |].
  - simpl in *. destruct (Ht st) as [Hf Hk]. specialize (IH st w).
    destruct (f st) as [st' t'] eqn:E. apply IH; [done|]. by etrans.
  - intros w' n s Hw'. apply IH; [apply Ht|]. by etrans.
Qed.

Lemma wp_create_task {A} (t : task W A) Q st :
  (forall w n, R (sys_w st) w -> wp R t Q (mk_sys w n) /\ Q (Raise cancelled_error) (mk_sys w n)) ->
  wp R (create_task t) Q st.
Proof. intros Ht w n s Hw. destruct (Ht w n Hw) as [H1 H2]. by destruct s. Qed.
End Behaves.
