(* ===== verification/Worker.v ===== *)
(** * Flow workers ([src/base_agent/flows/worker.py])

    [FlowExecutionRunner] runs a handler under a Flow's execution lease, and
    [FlowPollingWorker] claims durable work items one at a time, runs the
    handler for each under the lease and settles the delivery.  Both keep
    what they hold alive by a heartbeat that races with the work.

    The calls to the in-memory repository and work source take an uncontended
    lock, so they do not give up control; the worker awaits where it waits
    for the operation or the heartbeat, and where the handler awaits. *)

From Stdlib Require Import QArith.
From stdpp Require Import base gmap strings list.
From S2P Require Import Prelude Json Models FlowModels FlowLifecycle FlowRepository FlowWork Program Tasks.

(** What the process's tasks share: the repository, the work source, the
    worker's [_stop_requested] event, and the application's own state. *)
Record WorkerWorld (X : Type) := mk_WorkerWorld {
  ww_repository : InMemoryFlowRepository;
  ww_work : WorkSource;
  ww_stop : bool;
  ww_ext : X;
}.
Arguments mk_WorkerWorld {X}.
Arguments ww_repository {X}.
Arguments ww_work {X}.
Arguments ww_stop {X}.
Arguments ww_ext {X}.

Record FlowExecutionRunner := mk_FlowExecutionRunner {
  fer_owner_id : string;
  fer_ttl_seconds : seconds;
  fer_heartbeat_interval : seconds;
}.

(** [FlowExecutionRunner.__init__]. *)
Definition FlowExecutionRunner_new (r : FlowExecutionRunner) : outcome FlowExecutionRunner :=
  raise_when blank (fer_owner_id r)
    as value_error ["Flow worker owner_id must not be blank"] in
  raise_when 256 <? slen (fer_owner_id r)
    as value_error ["Flow worker owner_id must not exceed 256 characters"] in
  raise_when Qle_bool (fer_ttl_seconds r) 0
    as value_error ["Flow worker ttl_seconds must be greater than zero"] in
  raise_when Qle_bool (fer_heartbeat_interval r) 0
    as value_error ["Flow worker heartbeat_interval must be greater than zero"] in
  raise_when Qle_bool (fer_ttl_seconds r) (fer_heartbeat_interval r)
    as value_error ["Flow worker heartbeat_interval must be less than ttl_seconds"] in
  Ok r.

Record FlowPollingWorker := mk_FlowPollingWorker {
  fpw_runner : FlowExecutionRunner;
  fpw_owner_id : string;
  fpw_delivery_ttl_seconds : seconds;
  fpw_delivery_heartbeat_interval : seconds;
  fpw_retry_delay_seconds : seconds;
  fpw_poll_interval : seconds;
}.

(** [FlowPollingWorker.__init__]. *)
Definition FlowPollingWorker_new (p : FlowPollingWorker) : outcome FlowPollingWorker :=
  raise_when blank (fpw_owner_id p)
    as value_error ["Flow polling worker owner_id must not be blank"] in
  raise_when 256 <? slen (fpw_owner_id p)
    as value_error ["Flow polling worker owner_id must not exceed 256 characters"] in
  raise_when Qle_bool (fpw_delivery_ttl_seconds p) 0
    as value_error ["Flow polling worker delivery_ttl_seconds must be greater than zero"] in
  raise_when Qle_bool (fpw_delivery_heartbeat_interval p) 0
    as value_error ["Flow polling worker delivery_heartbeat_interval must be greater than zero"] in
  raise_when Qle_bool (fpw_delivery_ttl_seconds p) (fpw_delivery_heartbeat_interval p)
    as value_error ["Flow polling worker delivery_heartbeat_interval must be ";
                    "less than delivery_ttl_seconds"] in
  raise_when Qltb (fpw_retry_delay_seconds p) 0
    as value_error ["Flow polling worker retry_delay_seconds must not be negative"] in
  raise_when Qle_bool (fpw_poll_interval p) 0
    as value_error ["Flow polling worker poll_interval must be greater than zero"] in
  Ok p.

Section Worker.
Context {X : Type}.
Abbreviation WW := (WorkerWorld X).

(** [env k] is what the [k]-th reading of clock and [uuid4] gives; [choose]
    and [beats] are the event loop's: which of two ready tasks goes on, and
    how often a heartbeat gets to beat. *)
Variable env : nat -> ambient.
Variable choose : nat -> bool.
Variable beats : nat.

Definition on_repository {A} (f : ambient -> InMemoryFlowRepository -> outcome (InMemoryFlowRepository * A))
  (st : sys WW) : sys WW * outcome A :=
  let w := sys_w st in
  match f (env (sys_tick st)) (ww_repository w) with
  | Ok (r, a) => (mk_sys (mk_WorkerWorld r (ww_work w) (ww_stop w) (ww_ext w)) (S (sys_tick st)), Ok a)
  | Raise e => (mk_sys w (S (sys_tick st)), Raise e)
  end.

Definition on_work {A} (f : ambient -> WorkSource -> outcome (WorkSource * A))
  (st : sys WW) : sys WW * outcome A :=
  let w := sys_w st in
  match f (env (sys_tick st)) (ww_work w) with
  | Ok (q, a) => (mk_sys (mk_WorkerWorld (ww_repository w) q (ww_stop w) (ww_ext w)) (S (sys_tick st)), Ok a)
  | Raise e => (mk_sys w (S (sys_tick st)), Raise e)
  end.

(** ** [FlowExecutionRunner] *)

(** One round of [_heartbeat]. *)
Definition heartbeat (r : FlowExecutionRunner) (current : FlowExecutionLease) :=
  on_repository (fun amb => fm_renew amb current (fer_ttl_seconds r) None).

(** [_run_owned]. *)
Definition run_owned {A} (r : FlowExecutionRunner) (lease : FlowExecutionLease)
  (handler : FlowExecutionLease -> task WW A) : task WW A :=
  race choose (heartbeat r) beats lease (create_task (handler lease)).

Definition acquire_execution (r : FlowExecutionRunner) (rid : uuid) :=
  on_repository (fun amb => fm_acquire amb rid (fer_owner_id r) (fer_ttl_seconds r) None).

(** [release_execution] in the [finally] clause of a [try] that ends with [o]. *)
Definition release_execution {A} (lease : FlowExecutionLease) (o : outcome A) (st : sys WW)
  : sys WW * outcome A :=
  let '(st', released) :=
    on_repository (fun _ w => let! w' := fm_release lease w in Ok (w', tt)) st in
  (st', match released with
        | Ok _ => o
        | Raise e =>
            if isinstance e FlowLeaseLostError
            then match o with Ok _ => Raise e | Raise failure => Raise failure end
            else Raise e
        end).

(** [FlowExecutionRunner.execute]. *)
Definition execute_flow {A} (r : FlowExecutionRunner) (rid : uuid)
  (handler : FlowExecutionLease -> task WW A) : task WW A :=
  finish (now (acquire_execution r rid)) (fun acquired =>
    match acquired with
    | Raise e => Ended (Raise e)
    | Ok lease => finish (run_owned r lease handler) (fun o => now (release_execution lease o))
    end).

(** ** [FlowPollingWorker] *)

Variable handler : FlowWorkItem -> FlowExecutionLease -> task WW unit.

(** One round of [_delivery_heartbeat]. *)
Definition delivery_heartbeat (p : FlowPollingWorker) (token : uuid) (item : FlowWorkItem) :=
  on_work (fun amb => work_renew amb (wi_id item) token (fpw_delivery_ttl_seconds p) None).

(** [_run_with_delivery_heartbeat]. *)
Definition run_with_delivery_heartbeat (p : FlowPollingWorker) (item : FlowWorkItem) (token : uuid)
  : task WW unit :=
  race choose (delivery_heartbeat p token) beats item
    (create_task (execute_flow (fpw_runner p) (wc_run_id (wi_command item)) (handler item))).

(** [_retry_after_failure], and the failure raised again. *)
Definition retry_after_failure {A} (p : FlowPollingWorker) (item : FlowWorkItem) (token : uuid)
  (error_type : string) (preserve_cancellation : bool) (failure : exn) (st : sys WW)
  : sys WW * outcome A :=
  let '(st', retried) :=
    on_work (fun amb => work_retry amb (wi_id item) token (fpw_retry_delay_seconds p)
                          (Some error_type) None) st in
  (st', match retried with
        | Ok _ => Raise failure
        | Raise e =>
            if isinstance e FlowWorkDeliveryLostError then Raise failure
            else if is_exception e then (if preserve_cancellation then Raise failure else Raise e)
            else Raise e
        end).

(** A settlement, and [return True]. *)
Definition settle_with (f : ambient -> WorkSource -> outcome (WorkSource * FlowWorkItem))
  (st : sys WW) : sys WW * outcome bool :=
  let '(st', o) := on_work f st in (st', let! _ := o in Ok true).

(** The [try] statement of [run_once] once the work has ended with [o]. *)
Definition settle (p : FlowPollingWorker) (item : FlowWorkItem) (token : uuid) (o : outcome unit)
  : sys WW -> sys WW * outcome bool :=
  match o with
  | Ok _ => settle_with (fun amb => work_complete amb (wi_id item) token None)
  | Raise e =>
      if isinstance e FlowWorkBlockedError
      then settle_with (fun amb => work_block amb (wi_id item) token (exn_msg e) None)
      else if is_exception e
      then retry_after_failure p item token (exn_name (exn_cls e)) false e
      else retry_after_failure p item token "CancelledError" true e
  end.

Definition claim (p : FlowPollingWorker) :=
  on_work (fun amb => work_claim amb (fpw_owner_id p) (fpw_delivery_ttl_seconds p) None).

(** [run_once]. *)
Definition run_once (p : FlowPollingWorker) : task WW bool :=
  finish (now (claim p)) (fun claimed =>
    match claimed with
    | Raise e => Ended (Raise e)
    | Ok None => Ended (Ok false)
    | Ok (Some item) =>
        match wi_delivery_token item with
        | None => Ended (Raise (Exn ExAssertionError ""))
        | Some token =>
            finish (run_with_delivery_heartbeat p item token) (fun o => now (settle p item token o))
        end
    end).

(** [_wait_for_work_or_stop]: the event and the timeout both end the wait. *)
Definition wait_for_work_or_stop : task WW unit :=
  Do (fun st => (st,
    if ww_stop (sys_w st) then Ended (Ok tt)
    else Await (fun s => match s with
                         | Resumed => Ended (Ok tt)
                         | Cancelled => Ended (Raise cancelled_error)
                         end))).

(** [run_forever], for at most [fuel] rounds: [Ok false] is a worker that is
    still polling. *)
Fixpoint run_forever (fuel : nat) (p : FlowPollingWorker) : task WW bool :=
  match fuel with
  | O => Ended (Ok false)
  | S fuel' =>
      Do (fun st => (st,
        if ww_stop (sys_w st) then Ended (Ok true)
        else finish (run_once p) (fun o =>
          match o with
          | Raise e => if is_exception e then run_forever fuel' p else Ended (Raise e)
          | Ok true => run_forever fuel' p
          | Ok false =>
              finish wait_for_work_or_stop (fun waited =>
                match waited with
                | Ok _ => run_forever fuel' p
                | Raise e => Ended (Raise e)
                end)
          end)))
  end.
End Worker.

(** [stop]. *)
Definition worker_stop {X} (w : WorkerWorld X) : WorkerWorld X :=
  mk_WorkerWorld (ww_repository w) (ww_work w) true (ww_ext w).

(** ** What a run of [run_once] leaves behind *)

(** Lease [t] of [rid] is active. *)
Definition lease_active (rid t : uuid) (w : InMemoryFlowRepository) : Prop :=
  exists l, fm_leases w !! rid = Some (l, true) /\ lease_token l = t.

(** The item is no longer delivered under [token] at [now]. *)
Definition delivery_ended (id token : uuid) (now : time) (w : WorkSource) : Prop :=
  forall i, ws_items w !! id = Some i -> delivery_invalid i token now = true.

(** The settlement a worker records for the token. *)
Definition recorded (id token : uuid) (statuses : list FlowWorkStatus) (w : WorkSource) : Prop :=
  exists i, ws_items w !! id = Some i /\ wi_status i ∈ statuses /\
    wi_last_delivery_token i = Some token.

Lemma not_claimed_invalid i token now : wi_status i <> WS_CLAIMED -> delivery_invalid i token now = true.
Proof. intros Hs. unfold delivery_invalid. by rewrite bool_decide_false. Qed.

Lemma require_delivery_cases id token now status w :
  match require_delivery id token now status w with
  | Ok i => ws_items w !! id = Some i /\
      (wi_status i = status /\ wi_last_delivery_token i = Some token \/
       delivery_invalid i token now = false)
  | Raise e => delivery_ended id token now w /\ is_exception e = true /\
      exn_cls e <> FlowWorkBlockedError
  end.
Proof.
  unfold require_delivery, work_get, delivery_ended. destruct (ws_items w !! id) as [i|]; [|by split_and!].
  destruct (bool_decide _ && bool_decide _) eqn:E.
  { split; [done|]. left. by reflect. }
  destruct (delivery_invalid i token now) eqn:Hd; [|by split; [|right]].
  split_and!; [|done..]. by intros ? [= <-].
Qed.

(** What [complete], [block] and [retry] do to the delivery. *)
Section Settlement.
Variables (id token : uuid) (now : time) (status : FlowWorkStatus) (w : WorkSource).
Variable put : FlowWorkItem -> FlowWorkItem.

Definition settlement : outcome (WorkSource * FlowWorkItem) :=
  let! i := require_delivery id token now status w in
  if bool_decide (wi_status i = status) then Ok (w, i) else Ok (ws_put id (put i) w, put i).

Hypothesis unclaimed : status <> WS_CLAIMED.
Hypothesis put_status : forall i, wi_status (put i) = status.
Hypothesis put_token : forall i, wi_last_delivery_token (put i) = wi_delivery_token i.

Lemma settlement_spec :
  match settlement with
  | Ok (w', _) => recorded id token [status] w' /\ delivery_ended id token now w'
  | Raise e => delivery_ended id token now w /\ is_exception e = true /\
      exn_cls e <> FlowWorkBlockedError
  end.
Proof using unclaimed put_status put_token.
  unfold settlement. pose proof (require_delivery_cases id token now status w) as Hd.
  destruct (require_delivery id token now status w) as [i|e]; [|exact Hd]. simpl.
  destruct Hd as [Hi Hd]. case_bool_decide as Hst.
  - destruct Hd as [[_ Ht]|Hd].
    + split; [exists i; split_and!; [done|set_solver|done]|].
      intros j Hj. apply not_claimed_invalid. congruence.
    + apply delivery_valid in Hd as [Hc _]. congruence.
  - destruct Hd as [[? _]|Hd]; [done|]. apply delivery_valid in Hd as (_ & Ht & _).
    assert (ws_items (ws_put id (put i) w) !! id = Some (put i)) as Hput by apply lookup_insert_eq.
    split.
    + exists (put i). split_and!; [done| |by rewrite put_token].
      rewrite put_status. set_solver.
    + intros j Hj. rewrite Hput in Hj. injection Hj as <-.
      apply not_claimed_invalid. by rewrite put_status.
Qed.
End Settlement.

(** ** The work of one delivery *)

(** An exception whose class name and, for [FlowWorkBlockedError], whose
    reason code the work source accepts. *)
Definition reportable (e : exn) : Prop :=
  blank (exn_name (exn_cls e)) = false /\ slen (exn_name (exn_cls e)) <= 256 /\
  (exn_cls e = FlowWorkBlockedError -> is_ok (validate_reason_code (exn_msg e))).

Definition reported {A} (o : outcome A) : Prop := forall e, o = Raise e -> reportable e.

Lemma reportable_cancelled : reportable cancelled_error.
Proof. by split_and!. Qed.

Lemma reported_Ok {A} (a : A) : reported (Ok a).
Proof. by intros e. Qed.

Lemma reported_Raise {A B} e : reported (A := A) (Raise e) -> reported (A := B) (Raise e).
Proof. intros He ? [= <-]. by apply He. Qed.

#[local] Ltac report := intros ? [= <-]; by split_and!.

Lemma validate_lease_arguments_reported owner ttl : reported (validate_lease_arguments owner ttl).
Proof.
  unfold validate_lease_arguments.
  destruct (blank owner); [report|]. destruct (256 <? _); [report|]. destruct (Qle_bool _ _); [report|].
  apply reported_Ok.
Qed.

Lemma fm_acquire_reported amb rid owner ttl now w : reported (fm_acquire amb rid owner ttl now w).
Proof.
  unfold fm_acquire, fm_get. pose proof (validate_lease_arguments_reported owner ttl) as Hv.
  destruct (validate_lease_arguments owner ttl) as [[]|e0]; [|intros ? [= <-]; by apply Hv]. simpl.
  destruct (fm_states w !! rid); [|report]. simpl.
  destruct (is_terminal_flow _); [report|]. destruct (match fm_leases w !! rid with Some _ => _ | None => _ end); [report|].
  unfold checked. destruct (FlowExecutionLease_fields _); [apply reported_Ok|report].
Qed.

Lemma fm_renew_reported amb l ttl now w : reported (fm_renew amb l ttl now w).
Proof.
  unfold fm_renew, fm_require_lease.
  pose proof (validate_lease_arguments_reported (lease_owner_id l) ttl) as Hv.
  destruct (validate_lease_arguments _ ttl) as [[]|e0]; [|intros ? [= <-]; by apply Hv]. simpl.
  destruct (fm_leases w !! _) as [[cur active]|]; [|report]. simpl.
  destruct (negb active || _ || _); [report|apply reported_Ok].
Qed.

Lemma fm_release_reported l w : reported (fm_release l w).
Proof.
  unfold fm_release, fm_require_lease. destruct (fm_leases w !! _) as [[cur active]|]; [|report]. simpl.
  destruct (negb _); [report|apply reported_Ok].
Qed.

Lemma work_renew_reported amb id token ttl now w : reported (work_renew amb id token ttl now w).
Proof.
  unfold work_renew, require_active_delivery, work_get. destruct (Qle_bool ttl 0); [report|].
  destruct (ws_items w !! id); [|report]. simpl. destruct (delivery_invalid _ _ _); [report|apply reported_Ok].
Qed.

Section Delivery.
Context {X : Type}.
Abbreviation WW := (WorkerWorld X).
Variable env : nat -> ambient.
Variable choose : nat -> bool.
Variable beats : nat.

(** The lease tokens [uuid4] gives the worker. *)
Definition ours (t : uuid) : Prop := exists k, amb_uuid (env k) 0 = t.

(** Nobody activates a lease under one of them. *)
Definition unforged (w w' : WW) : Prop :=
  forall rid t, ours t -> lease_active rid t (ww_repository w') -> lease_active rid t (ww_repository w).

#[export] Instance unforged_preorder : PreOrder unforged.
Proof. split; [by intros w rid t|]. intros u v w H1 H2 rid t Ht Hw. by apply H1, H2. Qed.

(** No lease is active under one of them, or none but [t]'s on [rid]. *)
Definition unleased (w : WW) : Prop :=
  forall rid t, ours t -> ~ lease_active rid t (ww_repository w).

Definition leased_only (rid t : uuid) (w : WW) : Prop :=
  forall rid' t', ours t' -> lease_active rid' t' (ww_repository w) -> rid' = rid /\ t' = t.

Lemma unleased_stable w w' : unforged w w' -> unleased w -> unleased w'.
Proof. intros Hu Hw rid t Ht Ha. by eapply Hw, Hu. Qed.

Lemma leased_only_stable rid t w w' : unforged w w' -> leased_only rid t w -> leased_only rid t w'.
Proof. intros Hu Hw rid' t' Ht Ha. by apply Hw, Hu. Qed.

Lemma fm_acquire_leased amb rid owner ttl now w w' l q s x :
  fm_acquire amb rid owner ttl now w = Ok (w', l) ->
  unleased (mk_WorkerWorld w q s x) -> leased_only rid (lease_token l) (mk_WorkerWorld w' q s x).
Proof.
  intros (_ & -> & _)%fm_acquire_Ok Hw rid' t' Ht (l' & Hl & <-). simpl in Hl.
  destruct (decide (rid' = rid)) as [->|Hne].
  - rewrite lookup_insert_eq in Hl. by injection Hl as <-.
  - rewrite lookup_insert_ne in Hl by done. exfalso. apply (Hw rid' (lease_token l')); [done|]. by exists l'.
Qed.

Lemma fm_renew_unforged amb l ttl now w w' l' q s x :
  fm_renew amb l ttl now w = Ok (w', l') ->
  unforged (mk_WorkerWorld w q s x) (mk_WorkerWorld w' q s x).
Proof.
  unfold fm_renew, fm_require_lease. intros E.
  destruct (validate_lease_arguments _ _); [|done].
  destruct (fm_leases w !! lease_run_id l) as [[cur active]|] eqn:Hl; [|done].
  destruct (negb active || _ || _) eqn:Hc; [done|]. injection E as <- <-. reflect. subst active.
  intros rid t Ht (l' & Hl' & <-). simpl in *. destruct (decide (rid = lease_run_id l)) as [->|Hne].
  - rewrite lookup_insert_eq in Hl'. injection Hl' as <-. by exists cur.
  - rewrite lookup_insert_ne in Hl' by done. by exists l'.
Qed.

Lemma fm_release_unleased l w q s x :
  leased_only (lease_run_id l) (lease_token l) (mk_WorkerWorld w q s x) ->
  match fm_release l w with
  | Ok w' => unleased (mk_WorkerWorld w' q s x)
  | Raise _ => unleased (mk_WorkerWorld w q s x)
  end.
Proof.
  intros Hw. unfold fm_release, fm_require_lease.
  destruct (fm_leases w !! lease_run_id l) as [[cur active]|] eqn:Hl; simpl.
  - case_bool_decide as Htk; simpl.
    + intros rid t Ht (l' & Hl' & <-). destruct (decide (rid = lease_run_id l)) as [->|Hne].
      * destruct active; simpl in Hl'; [by rewrite lookup_insert_eq in Hl'|congruence].
      * assert (fm_leases w !! rid = Some (l', true)) as Hold.
        { destruct active; simpl in Hl'; [|done]. by rewrite lookup_insert_ne in Hl'. }
        apply Hne. by apply (Hw rid (lease_token l')); [|exists l'].
    + intros rid t Ht Ha. destruct (Hw rid t Ht Ha) as [-> ->]. destruct Ha as (l' & Hl' & ?).
      simpl in Hl'. congruence.
  - intros rid t Ht Ha. destruct (Hw rid t Ht Ha) as [-> ->]. destruct Ha as (l' & Hl' & ?).
    simpl in Hl'. congruence.
Qed.

(** Running under the lease leaves no lease of ours behind. *)
Lemma wp_execute_flow {A} r rid (handler : FlowExecutionLease -> task WW A) st :
  (forall l, behaves unforged reported (handler l)) -> unleased (sys_w st) ->
  wp unforged (execute_flow env choose beats r rid handler)
     (fun o st => unleased (sys_w st) /\ reported o) st.
Proof.
  intros Hh Hst. unfold execute_flow. apply wp_finish, wp_now. unfold acquire_execution, on_repository.
  pose proof (fm_acquire_reported (env (sys_tick st)) rid (fer_owner_id r) (fer_ttl_seconds r) None
                (ww_repository (sys_w st))) as Hrep.
  destruct (fm_acquire _ _ _ _ _ _) as [[w' l]|e] eqn:E; simpl; [|by split; [|eapply reported_Raise]].
  set (w1 := mk_WorkerWorld w' _ _ _).
  assert (leased_only rid (lease_token l) w1) as Hl.
  { eapply fm_acquire_leased; [exact E|]. by destruct (sys_w st). }
  apply fm_acquire_Ok in E as (_ & _ & _ & Hrid & _).
  apply wp_finish. apply (wp_mono _ _ (fun o st => leased_only rid (lease_token l) (sys_w st) /\ reported o)).
  - apply (wp_race unforged choose (heartbeat env r) reportable
             (fun o w => leased_only rid (lease_token l) w /\ reported o)).
    + intros h st'. unfold heartbeat, on_repository.
      destruct (fm_renew _ h _ _ _) as [[w2 l2]|] eqn:E2; simpl; [|done].
      destruct (sys_w st'). by eapply fm_renew_unforged.
    + intros h st' e He. unfold heartbeat, on_repository in He.
      pose proof (fm_renew_reported (env (sys_tick st')) h (fer_ttl_seconds r) None
                    (ww_repository (sys_w st'))) as Hr.
      destruct (fm_renew _ h _ _ _) as [[w2 l2]|] eqn:E2; simpl in He; [done|].
      apply Hr. congruence.
    + apply reportable_cancelled.
    + intros o w w2 Hw [H1 H2]. split; [by eapply leased_only_stable|done].
    + intros o e w [H1 _] He. split; [done|]. by intros ? [= <-].
    + apply wp_create_task. intros w n Hw. simpl. split.
      * eapply wp_mono; [by apply (behaves_wp unforged reported _ w1)|].
        intros o st2 [Ho H2]. split; [by eapply leased_only_stable|done].
      * split; [by eapply leased_only_stable|]. intros ? [= <-]. apply reportable_cancelled.
  - intros o [w2 n2] [Hl2 Ho]. apply wp_now. unfold release_execution, on_repository. simpl.
    destruct w2 as [w2 q2 s2 x2]. simpl. rewrite <-Hrid in Hl2.
    pose proof (fm_release_unleased l w2 q2 s2 x2 Hl2) as Hr. pose proof (fm_release_reported l w2) as He.
    destruct (fm_release l w2) as [w3|e]; simpl; [done|]. split; [done|].
    destruct (isinstance e FlowLeaseLostError); [destruct o|]; try done.
    all: by intros ? [= <-]; apply He.
Qed.
End Delivery.

Section Settling.
Context {X : Type}.
Abbreviation WW := (WorkerWorld X).
Variable env : nat -> ambient.

(** A settlement that the work source accepts, or that finds the delivery
    gone. *)
Lemma on_work_settlement id token status put f (st : sys WW) :
  status <> WS_CLAIMED -> (forall i, wi_status (put i) = status) ->
  (forall i, wi_last_delivery_token (put i) = wi_delivery_token i) ->
  (forall w, f (env (sys_tick st)) w
             = settlement id token (amb_clock (env (sys_tick st))) status w put) ->
  let '(st', r) := on_work env f st in
  sys_tick st' = S (sys_tick st) /\
  ww_repository (sys_w st') = ww_repository (sys_w st) /\
  delivery_ended id token (amb_clock (env (sys_tick st))) (ww_work (sys_w st')) /\
  match r with
  | Ok _ => recorded id token [status] (ww_work (sys_w st'))
  | Raise e => is_exception e = true /\ exn_cls e <> FlowWorkBlockedError
  end.
Proof.
  intros Hs Hp Ht Hf. unfold on_work. rewrite Hf.
  pose proof (settlement_spec id token (amb_clock (env (sys_tick st))) status (ww_work (sys_w st)) put Hs Hp Ht)
    as H.
  destruct (settlement _ _ _ _ _ _) as [[w' i]|e]; simpl; split_and!; try done; apply H.
Qed.

Definition delivery_closed (item : FlowWorkItem) (token : uuid) (st' : sys WW) (r : outcome bool) : Prop :=
  exists k, sys_tick st' = S k /\
    delivery_ended (wi_id item) token (amb_clock (env k)) (ww_work (sys_w st')) /\
    match r with
    | Ok b => b = true /\ recorded (wi_id item) token [WS_COMPLETED; WS_BLOCKED] (ww_work (sys_w st'))
    | Raise _ => True
    end.

Lemma settle_with_closes item token status put f (st : sys WW) :
  status ∈ [WS_COMPLETED; WS_BLOCKED] -> (forall i, wi_status (put i) = status) ->
  (forall i, wi_last_delivery_token (put i) = wi_delivery_token i) ->
  (forall w, f (env (sys_tick st)) w
             = settlement (wi_id item) token (amb_clock (env (sys_tick st))) status w put) ->
  ww_repository (sys_w (fst (settle_with env f st))) = ww_repository (sys_w st) /\
  delivery_closed item token (fst (settle_with env f st)) (snd (settle_with env f st)).
Proof.
  intros Hs Hp Ht Hf. assert (status <> WS_CLAIMED) as Hne by (intros ->; set_solver).
  pose proof (on_work_settlement _ _ _ _ _ st Hne Hp Ht Hf) as H. unfold settle_with.
  destruct (on_work env f st) as [st' o]. destruct H as (Htick & Hrepo & Hd & Hr). simpl.
  split; [done|]. exists (sys_tick st). split_and!; [done..|]. destruct o as [i|e]; [|done]. simpl.
  split; [done|]. destruct Hr as (j & Hj & Hst & Hl). exists j. split_and!; [done| |done]. set_solver.
Qed.

Lemma retry_closes p item token error_type preserve failure (st : sys WW) :
  Qltb (fpw_retry_delay_seconds p) 0 = false -> blank error_type = false -> slen error_type <= 256 ->
  let res := retry_after_failure (A := bool) env p item token error_type preserve failure st in
  ww_repository (sys_w (fst res)) = ww_repository (sys_w st) /\
  delivery_closed item token (fst res) (snd res).
Proof.
  intros Hq Hb Hl. unfold retry_after_failure.
  pose proof (on_work_settlement (wi_id item) token WS_PENDING
    (fun i => settled_item i WS_PENDING (amb_clock (env (sys_tick st)) + timedelta (fpw_retry_delay_seconds p))
                (Some error_type) (wi_blocked_reason i) (amb_clock (env (sys_tick st))))
    (fun amb => work_retry amb (wi_id item) token (fpw_retry_delay_seconds p) (Some error_type) None)
    st ltac:(done) ltac:(done) ltac:(done)) as H.
  destruct (on_work env _ st) as [st' o]. destruct H as (Htick & Hrepo & Hd & _).
  { intros w. unfold work_retry. rewrite Hq, Hb, (proj2 (Z.ltb_ge _ _) Hl). done. }
  simpl. split; [done|]. exists (sys_tick st). split_and!; [done..|].
  destruct o as [i|e]; [done|]. by repeat case_match.
Qed.

Lemma settle_closes p item token o (st : sys WW) :
  is_ok (FlowPollingWorker_new p) -> reported o ->
  let res := settle env p item token o st in
  ww_repository (sys_w (fst res)) = ww_repository (sys_w st) /\
  delivery_closed item token (fst res) (snd res).
Proof.
  intros [p' Hp] Ho. assert (Qltb (fpw_retry_delay_seconds p) 0 = false) as Hq.
  { unfold FlowPollingWorker_new in Hp. repeat (case_match; try discriminate Hp). done. }
  destruct o as [[]|e]; simpl.
  - by apply (settle_with_closes _ _ WS_COMPLETED (fun i => settled_item i WS_COMPLETED (wi_available_at i)
      (wi_last_error_type i) (wi_blocked_reason i) (amb_clock (env (sys_tick st))))); [set_solver|..].
  - destruct (Ho e eq_refl) as (Hb & Hl & Hr).
    destruct (isinstance e FlowWorkBlockedError) eqn:Ei.
    + assert (exn_cls e = FlowWorkBlockedError) as Hc.
      { destruct e as [[] m]; try discriminate Ei; try reflexivity. }
      destruct (Hr Hc) as [[] Hv].
      apply (settle_with_closes _ _ WS_BLOCKED (fun i => settled_item i WS_BLOCKED (wi_available_at i)
        (wi_last_error_type i) (Some (exn_msg e)) (amb_clock (env (sys_tick st))))); [set_solver|done|done|].
      intros w. unfold work_block. by rewrite Hv.
    + destruct (is_exception e); by apply retry_closes.
Qed.
End Settling.

Section RunOnce.
Context {X : Type}.
Abbreviation WW := (WorkerWorld X).
Variable env : nat -> ambient.
Variable choose : nat -> bool.
Variable beats : nat.
Variable handler : FlowWorkItem -> FlowExecutionLease -> task WW unit.
Hypothesis handler_behaves : forall item l, behaves (unforged env) reported (handler item l).

Lemma wp_run_with_delivery_heartbeat p item token (st : sys WW) :
  unleased env (sys_w st) ->
  wp (unforged env) (run_with_delivery_heartbeat env choose beats handler p item token)
     (fun o st => unleased env (sys_w st) /\ reported o) st.
Proof using handler_behaves.
  intros Hst. apply (wp_race (unforged env) choose (delivery_heartbeat env p token) reportable
                       (fun o w => unleased env w /\ reported o)).
  - intros h st'. unfold delivery_heartbeat, on_work.
    by destruct (work_renew _ _ _ _ _ _) as [[]|]; intros rid t.
  - intros h st' e He. unfold delivery_heartbeat, on_work in He.
    pose proof (work_renew_reported (env (sys_tick st')) (wi_id h) token (fpw_delivery_ttl_seconds p)
                  None (ww_work (sys_w st'))) as Hr.
    destruct (work_renew _ _ _ _ _ _) as [[]|]; simpl in He; [done|]. apply Hr. congruence.
  - apply reportable_cancelled.
  - intros o w w' Hw [H1 H2]. split; [by eapply unleased_stable|done].
  - intros o e w [H1 _] He. split; [done|]. by intros ? [= <-].
  - apply wp_create_task. intros w n Hw. simpl.
    assert (unleased env w) as Hu by by eapply unleased_stable.
    split; [by apply wp_execute_flow|]. split; [done|]. intros ? [= <-]. apply reportable_cancelled.
Qed.

Definition once_closed p (st st' : sys WW) (o : outcome bool) : Prop :=
  match work_claim (env (sys_tick st)) (fpw_owner_id p) (fpw_delivery_ttl_seconds p) None
          (ww_work (sys_w st)) with
  | Raise e => o = Raise e /\ sys_w st' = sys_w st
  | Ok (_, None) => o = Ok false /\ sys_w st' = sys_w st
  | Ok (_, Some item) =>
      exists token, wi_delivery_token item = Some token /\ delivery_closed env item token st' o
  end.

Lemma claim_token amb owner ttl now w w' i :
  work_claim amb owner ttl now w = Ok (w', Some i) -> wi_delivery_token i = Some (amb_uuid amb 0).
Proof.
  unfold work_claim. destruct (validate_delivery_arguments owner ttl); [|done]. simpl.
  destruct (List.filter _ _); [done|]. by intros [= <- <-].
Qed.

Lemma claim_nothing amb owner ttl now w w' :
  work_claim amb owner ttl now w = Ok (w', None) -> w' = w.
Proof.
  unfold work_claim. destruct (validate_delivery_arguments owner ttl); [|done]. simpl.
  destruct (List.filter _ _); [|done]. by intros [= ->].
Qed.

Lemma wp_run_once p (st : sys WW) :
  is_ok (FlowPollingWorker_new p) -> unleased env (sys_w st) ->
  wp (unforged env) (run_once env choose beats handler p)
     (fun o st' => unleased env (sys_w st') /\ once_closed p st st' o) st.
Proof using handler_behaves.
  intros Hp Hst. unfold run_once, once_closed. apply wp_finish, wp_now. unfold claim, on_work.
  destruct (work_claim _ _ _ _ _) as [[w' [item|]]|e] eqn:E; simpl; [| |done].
  - apply claim_token in E as Htk. rewrite Htk. apply wp_finish.
    eapply wp_mono; [by apply wp_run_with_delivery_heartbeat|].
    intros o st2 [H1 H2]. apply wp_now.
    destruct (settle_closes env p item (amb_uuid (env (sys_tick st)) 0) o st2 Hp H2) as [Hr Hc].
    split; [|by eexists]. intros rid t Ht. rewrite Hr. by apply H1.
  - apply claim_nothing in E as ->. split; [|split; [done|]]; by destruct (sys_w st).
Qed.

(** C4: A claimed work item is never left hanging: whatever the handler does
    and however it ends, whenever the worker is cancelled, whichever
    heartbeat fails and whatever the other tasks of the process do meanwhile,
    [run_once] ends; it reports [False] only when there was nothing to claim
    (and then changed nothing); otherwise the worker's delivery token no
    longer holds the item, which on [True] is recorded as completed or
    blocked under that token; and no execution lease the worker took is
    still active.  The handler must not raise an exception whose name or
    reason code the work source refuses, and nobody activates a lease under
    a token the worker drew. *)
Theorem run_once_settles p others signals (st : sys WW) :
  is_ok (FlowPollingWorker_new p) -> (forall st, unforged env (sys_w st) (sys_w (others st))) ->
  unleased env (sys_w st) ->
  let '(st', o) := drive others signals (run_once env choose beats handler p) st in
  unleased env (sys_w st') /\ once_closed p st st' o.
Proof using handler_behaves.
  intros Hp Ho Hst. pose proof (drive_wp _ others signals _ _ st Ho (wp_run_once p st Hp Hst)) as H.
  by destruct (drive _ _ _ _).
Qed.

(** Once asked to stop, the worker claims nothing more. *)
Lemma run_forever_stops fuel p others signals (st : sys WW) :
  ww_stop (sys_w st) = true ->
  drive others signals (run_forever env choose beats handler (S fuel) p) st = (st, Ok true).
Proof. intros Hs. simpl. by rewrite Hs. Qed.
End RunOnce.

(** ** Instances *)

Definition worker_env (k : nat) : ambient :=
  Ambient 5 (fun _ => 5) (fun i => (1000 + N.of_nat (10 * k + i))%N).

Definition example_worker : FlowPollingWorker :=
  mk_FlowPollingWorker (mk_FlowExecutionRunner "worker" (30 # 1) (10 # 1)) "worker" (60 # 1) (20 # 1)
    (1 # 1) (1 # 4).

Definition example_world : WorkerWorld unit := mk_WorkerWorld example_repo example_source false tt.

(** A handler that waits for something and returns, or asks for review. *)
Definition example_handler (review : bool) (item : FlowWorkItem) (lease : FlowExecutionLease)
  : task (WorkerWorld unit) unit :=
  Await (fun s =>
    match s with
    | Resumed => Ended (if review then Raise (FlowWorkBlocked "needs_review") else Ok tt)
    | Cancelled => Ended (Raise cancelled_error)
    end).

Definition example_run (review : bool) (signals : nat -> signal) :=
  drive id signals (run_once worker_env Nat.even 3 (example_handler review) example_worker)
    (mk_sys example_world 0).

Definition status_of (id : uuid) (st : sys (WorkerWorld unit)) : option FlowWorkStatus :=
  option_map wi_status (ws_items (ww_work (sys_w st)) !! id).

Lemma example_handler_behaves review item l :
  behaves (unforged worker_env) reported (example_handler review item l).
Proof.
  intros []; simpl; [destruct review|]; [|apply reported_Ok|]; intros ? [= <-].
  - split_and!; [done|done|]. by exists tt.
  - apply reportable_cancelled.
Qed.

Lemma example_unleased : unleased worker_env example_world.
Proof.
  intros rid t _ (l & Hl & _). revert Hl.
  assert (fm_leases (ww_repository example_world) = ∅) as -> by (vm_compute; reflexivity).
  by rewrite lookup_empty.
Qed.

Lemma run_once_settles_witness :
  let '(st', o) := example_run true (fun _ => Resumed) in
  o = Ok true /\ status_of 2%N st' = Some WS_BLOCKED /\ unleased worker_env (sys_w st') /\
  once_closed worker_env example_worker (mk_sys example_world 0) st' o.
Proof.
  pose proof (run_once_settles worker_env Nat.even 3 (example_handler true) (example_handler_behaves true)
    example_worker id (fun _ => Resumed) (mk_sys example_world 0)
    (ex_intro _ example_worker eq_refl) (fun st rid t _ H => H) example_unleased) as H.
  assert (snd (example_run true (fun _ => Resumed)) = Ok true /\
          status_of 2%N (fst (example_run true (fun _ => Resumed))) = Some WS_BLOCKED) as [Ho Hs]
    by (split; vm_compute; reflexivity).
  unfold example_run in *. destruct (drive id _ _ _) as [st' o]. by destruct H.
Defined.

(** A cancellation of the worker that arrives while it waits for the
    heartbeat it has cancelled is taken for the heartbeat's own and lost:
    [signals] cancels the second of the three awaits. *)
Example cancellation_swallowed :
  map (fun k => snd (drive (W := unit) id (fun n => if Nat.eqb n k then Cancelled else Resumed)
                       (race Nat.even (fun (_ : unit) st => (st, Ok tt)) 0 tt (Ended (Ok tt))) (mk_sys tt 0)))
    [0%nat; 1%nat; 2%nat]
  = [Raise cancelled_error; Ok tt; Raise cancelled_error].
Proof. reflexivity. Qed.
