(* ===== verification/Sequential.v ===== *)
(** * Sequential Flow execution ([src/base_agent/flows/sequential.py])

    [SequentialFlowStrategy] invokes each bound Agent once, in declaration
    order, with explicit handoffs.  It is an asynchronous program over the
    Flow service and an [AgentInvoker]: a small state monad threads the
    world, and every await on the invoker may change the world arbitrarily
    (other tasks run there). *)

From Stdlib Require Import QArith.
From stdpp Require Import base gmap strings list.
From S2P Require Import Prelude Json Models Sha256 FlowModels FlowLifecycle FlowRepository FlowService FlowBudgets Program.

(** ** The invoker *)

(** [AgentInvoker]; [invoker_cancel] is [None] when the object does not
    satisfy [CancellableAgentInvoker]. *)
Record AgentInvoker (W : Type) := mk_AgentInvoker {
  invoker_invoke : AgentInvocationRequest -> awaitable W AgentInvocationResult;
  invoker_resume : AgentInvocationResume -> awaitable W AgentInvocationResult;
  invoker_cancel : option (AgentInvocationCancel -> prog W unit);
}.
Arguments mk_AgentInvoker {W}.
Arguments invoker_invoke {W}.
Arguments invoker_resume {W}.
Arguments invoker_cancel {W}.

(** ** Results and handoffs *)

(** [_handoff]. *)
Definition handoff (result : option AgentInvocationResult) : outcome (option AgentHandoff) :=
  match result with
  | None => Ok None
  | Some r =>
      let! h := AgentHandoff_new
        (mk_AgentHandoff (ir_agent_key r)
           (if falsy (ir_output r) then "Agent completed without textual output."
            else default "" (ir_output r))
           (ir_metadata r) (ir_artifacts r)) in
      Ok (Some h)
  end.

(** [_flow_result]. *)
Definition flow_result (s : FlowRunState) : outcome FlowResult :=
  let! '(waiting_invocation_id, pending_input) :=
    if bool_decide (fr_status s = WAITING) then
      match active_invocation s with
      | None => Raise assertion_error
      | Some active =>
          match inv_result active with
          | None => Raise assertion_error
          | Some r => Ok (Some (inv_id active), ir_pending_input r)
          end
      end
    else Ok (None, None) in
  let! usage := flow_usage s in
  FlowResult_new
    (mk_FlowResult (fr_run_id s) (fr_status s) (fr_output s) usage
       (flat_map (fun i => match inv_result i with Some r => ir_artifacts r | None => [] end)
          (fr_invocations s))
       (Z.of_nat (length (fr_invocations s))) (model_call_count s) (tool_call_count s)
       waiting_invocation_id pending_input (fr_error s)).

(** ** The strategy *)

Section Strategy.
Context `{FloatRepr} {W : Type} `{FlowRepository W}.

(** What the environment yields at each reading, whether a deadline fires
    during the await that makes the given reading, the lease of the
    strategy's [FlowLifecycle], and its invoker. *)
Variable env : nat -> ambient.
Variable expires : nat -> bool.
Variable lease : option FlowExecutionLease.
Variable invoker : AgentInvoker W.

(** A call of the service, and [self._clock()]. *)
Definition svc {A} (f : ambient -> W -> outcome (W * A)) : prog W A :=
  fun st => match f (env (sys_tick st)) (sys_w st) with
            | Ok (w', a) => Some (mk_sys w' (S (sys_tick st)), Ok a)
            | Raise e => Some (mk_sys (sys_w st) (S (sys_tick st)), Raise e)
            end.

Definition svc_read {A} (f : W -> outcome A) : prog W A := fun st => Some (st, f (sys_w st)).

Definition clock : prog W time :=
  fun st => Some (mk_sys (sys_w st) (S (sys_tick st)), Ok (amb_clock (env (sys_tick st)))).

(** [uuid4()]. *)
Definition new_uuid : prog W uuid :=
  fun st => Some (mk_sys (sys_w st) (S (sys_tick st)), Ok (amb_uuid (env (sys_tick st)) 0)).

(** [_within_deadline]. *)
Definition within_deadline {A} (s : FlowRunState) (op : awaitable W A) : prog W A :=
  let* now := clock in
  match remaining_seconds s now with
  | None => aw_run op
  | Some _ => with_timeout expires op
  end.

(** [_require_supported]. *)
Definition require_supported (d : FlowDefinition) : outcome unit :=
  raise_when negb (bool_decide (fd_strategy d = "sequential"))
    as Exn UnsupportedFlowStrategyError
         (fstr ["SequentialFlowStrategy cannot execute strategy '"; fd_strategy d; "'"]) in
  Ok tt.

(** [_terminal_after_race]. *)
Definition terminal_after_race (rid : uuid) : prog W (option FlowResult) :=
  let* current := svc_read (svc_get rid) in
  if is_terminal_flow (fr_status current) then
    let* r := of_outcome (flow_result current) in ret (Some r)
  else ret None.

(** [_propagate_cancellation]. *)
Definition propagate_cancellation (i : AgentInvocation) (reason : string) : prog W unit :=
  let* request := of_outcome (AgentInvocationCancel_new
    (mk_AgentInvocationCancel (inv_flow_run_id i) (inv_id i) (inv_agent_key i) reason)) in
  let record_failure (error_type : string) : prog W unit :=
    svc (fun amb w => let! w' := svc_record_cancellation_failure lease amb (inv_flow_run_id i) i
                                   error_type w in Ok (w', tt)) in
  match invoker_cancel invoker with
  | None => record_failure "CancellationNotSupported"
  | Some cancel =>
      try_except (cancel request)
        (fun e => if is_exception e then Some (record_failure (exn_name (exn_cls e))) else None)
  end.

(** [_reach_budget_limit]. *)
Definition reach_budget_limit (rid : uuid) (violation : FlowBudgetExceeded) : prog W FlowResult :=
  let* current := svc_read (svc_get rid) in
  if is_terminal_flow (fr_status current) then of_outcome (flow_result current)
  else
    let* limited := svc (fun amb => svc_reach_limit lease amb rid (bx_message violation)
                                      [("budget", bx_dump violation)]) in
    do* match active_invocation current with
        | Some active =>
            if bool_decide (inv_status active = WAITING)
            then propagate_cancellation active (bx_message violation) else ret tt
        | None => ret tt
        end in
    of_outcome (flow_result limited).

(** [max(a, b)] of two floats. *)
Definition qmax (a b : seconds) : seconds := if Qltb a b then b else a.

(** [_timeout_limit]. *)
Definition timeout_limit (s : FlowRunState) : prog W FlowResult :=
  let* now := clock in
  let* c := of_outcome (consumption s now) in
  match timeout_seconds (fr_budget s) with
  | None => throw assertion_error
  | Some t => reach_budget_limit (fr_run_id s)
                (mk_FlowBudgetExceeded BK_TIMEOUT_SECONDS t (qmax t (con_elapsed_seconds c)))
  end.

(** [_transport_failure]. *)
Definition transport_failure (rid : uuid) (agent_key operation : string) (error : exn)
  : prog W FlowResult :=
  let* terminal := terminal_after_race rid in
  match terminal with
  | Some r => ret r
  | None =>
      let* failed := svc (fun amb => svc_fail lease amb rid
        (fstr ["Agent '"; agent_key; "' "; operation; " raised "; exn_name (exn_cls error); ": ";
               exn_str error])) in
      of_outcome (flow_result failed)
  end.

(** [_handle_outcome]. *)
Definition handle_outcome (s : FlowRunState) (r : AgentInvocationResult)
  : prog W (option FlowResult) :=
  match ir_status r with
  | R_COMPLETED => ret None
  | R_WAITING => let* res := of_outcome (flow_result s) in ret (Some res)
  | _ =>
      let error := if falsy (ir_error r)
                   then fstr ["Agent '"; ir_agent_key r; "' did not complete"]
                   else default "" (ir_error r) in
      let* terminal :=
        match ir_status r with
        | R_FAILED => svc (fun amb => svc_fail lease amb (fr_run_id s) error)
        | R_CANCELLED => svc (fun amb => svc_cancel lease amb (fr_run_id s) error)
        | R_INTERRUPTED => svc (fun amb => svc_interrupt lease amb (fr_run_id s) error)
        | _ => svc (fun amb => svc_reach_limit lease amb (fr_run_id s) error [])
        end in
      let* res := of_outcome (flow_result terminal) in
      ret (Some res)
  end.

(** One segment of the loop and of [_resume_waiting] after the request is
    built: await the transport, settle its result, check the budget and the
    outcome.  [inl] is a returned result, [inr] the settled state and the
    completed result to go on with. *)
Definition settle_transport (s : FlowRunState) (agent_key : string)
  (op : awaitable W AgentInvocationResult) (operation invalid interrupted : string)
  : prog W (FlowResult + FlowRunState * AgentInvocationResult) :=
  let finish (p : prog W FlowResult) : prog W (FlowResult + FlowRunState * AgentInvocationResult) :=
    let* r := p in ret (inl r) in
  let* transported :=
    try_except (let* r := within_deadline s op in ret (inr r))
      (fun e =>
         if isinstance e ExTimeoutError then
           Some (let* r := timeout_limit s in ret (inl r))
         else if isinstance e ExCancelledError then
           Some (do* svc (fun amb => svc_interrupt lease amb (fr_run_id s) interrupted) in throw e)
         else if is_exception e then
           Some (let* r := transport_failure (fr_run_id s) agent_key operation e in ret (inl r))
         else None) in
  match transported with
  | inl r => ret (inl r)
  | inr result =>
      let* settled :=
        try_except (let* s' := svc (fun amb => svc_settle lease amb (fr_run_id s) result) in
                    ret (inr s'))
          (fun e =>
             if isinstance e InvalidFlowTransitionError then
               Some (let* terminal := terminal_after_race (fr_run_id s) in
                     match terminal with Some r => ret (inl r) | None => throw e end)
             else if isinstance e ExValueError then
               Some (let* r := transport_failure (fr_run_id s) agent_key invalid e in ret (inl r))
             else None) in
      match settled with
      | inl r => ret (inl r)
      | inr s' =>
          let* now := clock in
          let* violation := of_outcome (after_transport s' now) in
          match violation with
          | Some v => finish (reach_budget_limit (fr_run_id s') v)
          | None =>
              let* terminal := handle_outcome s' result in
              match terminal with
              | Some r => ret (inl r)
              | None => ret (inr (s', result))
              end
          end
      end
  end.

(** The body of the loop of [_advance] up to the transport. *)
Definition begin_next (d : FlowDefinition) (s : FlowRunState) (input : FlowInput)
  (previous : option AgentInvocationResult) (binding : FlowAgent)
  : prog W (FlowRunState * AgentInvocationRequest) :=
  let* h := of_outcome (handoff previous) in
  let* invocation_input := of_outcome (AgentInvocationInput_new
    (mk_AgentInvocationInput (fi_prompt input) h (fi_attachments input))) in
  let* invocation_id := new_uuid in
  let* request := of_outcome (AgentInvocationRequest_new
    (mk_AgentInvocationRequest (fr_run_id s) invocation_id
       (Z.of_nat (length (fr_invocations s)) + 1) (fa_key binding)
       (prof_id (ad_profile (fa_definition binding))) (ad_version (fa_definition binding))
       (AgentDefinition_fingerprint (fa_definition binding)) invocation_input)) in
  let* s' := svc (fun amb => svc_begin lease amb (fr_run_id s) request d) in
  ret (s', request).

(** [_advance]: [fuel] bounds the iterations of the [while] loop. *)
Fixpoint advance (fuel : nat) (d : FlowDefinition) (s : FlowRunState) (input : FlowInput)
  (previous : option AgentInvocationResult) : prog W FlowResult :=
  match fd_agents d !! length (fr_invocations s) with
  | None =>
      match previous with
      | None => throw assertion_error
      | Some p =>
          let* completed := svc (fun amb => svc_complete lease amb (fr_run_id s)
                                              (default "" (ir_output p))) in
          of_outcome (flow_result completed)
      end
  | Some binding =>
      match fuel with
      | O => fun _ => None
      | S fuel' =>
          let* now := clock in
          let* violation := of_outcome (before_transport s now true) in
          match violation with
          | Some v => reach_budget_limit (fr_run_id s) v
          | None =>
              let* begun := begin_next d s input previous binding in
              let* next := settle_transport (fst begun) (fa_key binding)
                (invoker_invoke invoker (snd begun)) "invoke" "invoke returned an invalid result"
                "Sequential Flow execution cancelled" in
              match next with
              | inl r => ret r
              | inr (s', result) => advance fuel' d s' input (Some result)
              end
          end
      end
  end.

(** [run]. *)
Definition seq_run (fuel : nat) (d : FlowDefinition) (input : FlowInput) (run_id : option uuid)
  : prog W FlowResult :=
  do* of_outcome (require_supported d) in
  let* now := clock in
  let* created := svc (fun amb => svc_create amb d run_id (Some now)) in
  let* s := svc (fun amb => svc_start lease amb (fr_run_id created)) in
  advance fuel d s input None.

(** [_resume_waiting]: [resume] passes the user's input, [confirm] a
    confirmation. *)
Definition seq_resume_waiting (fuel : nat) (d : FlowDefinition) (rid : uuid)
  (user_input : option string) (confirmation : option ToolConfirmation) : prog W FlowResult :=
  do* of_outcome (require_supported d) in
  let* waiting := svc_read (svc_get rid) in
  do* of_outcome (require_definition waiting d) in
  let* now := clock in
  let* violation := of_outcome (before_transport waiting now false) in
  match violation with
  | Some v => reach_budget_limit (fr_run_id waiting) v
  | None =>
      match active_invocation waiting with
      | None => throw (value_error ["Flow Run has no waiting AgentInvocation"])
      | Some active =>
          let* input := of_outcome (FlowInput_new
            (mk_FlowInput (ii_prompt (inv_input active)) (ii_attachments (inv_input active)))) in
          do* svc (fun amb => svc_resume lease amb rid (inv_id active)) in
          let* request := of_outcome (AgentInvocationResume_new
            (mk_AgentInvocationResume rid (inv_id active) (inv_agent_key active)
               user_input confirmation)) in
          let* next := settle_transport waiting (inv_agent_key active)
            (invoker_resume invoker request) "resume" "resume returned an invalid result"
            "Sequential Flow resume cancelled" in
          match next with
          | inl r => ret r
          | inr (s', result) => advance fuel d s' input (Some result)
          end
      end
  end.

Definition seq_resume (fuel : nat) (d : FlowDefinition) (rid : uuid) (user_input : string) :=
  seq_resume_waiting fuel d rid (Some user_input) None.
Definition seq_confirm (fuel : nat) (d : FlowDefinition) (rid : uuid) (c : ToolConfirmation) :=
  seq_resume_waiting fuel d rid None (Some c).

(** [cancel]. *)
Definition seq_cancel (rid : uuid) (reason : string) : prog W FlowResult :=
  if blank reason then throw (value_error ["Flow cancellation reason must not be blank"])
  else if 1000 <? slen reason
       then throw (value_error ["Flow cancellation reason must not exceed 1000 characters"])
  else
    let* current := svc_read (svc_get rid) in
    if bool_decide (fr_status current = CANCELLED) then of_outcome (flow_result current)
    else if is_terminal_flow (fr_status current) then
      throw (invalid_flow_transition
               ["cannot cancel Flow Run in state '"; RunStatus_value (fr_status current); "'"])
    else
      let* cancelled := svc (fun amb => svc_cancel lease amb rid reason) in
      do* match active_invocation current with
          | Some active => propagate_cancellation active reason
          | None => ret tt
          end in
      of_outcome (flow_result cancelled).
End Strategy.
