(* ===== verification/StrategyLogic.v ===== *)
(** * A program logic for Flow strategies

    The sequential strategy of [Sequential] interleaves its service calls
    with awaits during which other tasks may change the repository.  This
    file holds a Hoare logic for such programs, in total correctness: a
    triple is proved once per operation of
    [src/base_agent/flows/sequential.py], and the property at the end
    composes them. *)

From Stdlib Require Import QArith.
From stdpp Require Import base gmap strings list.
From S2P Require Import Prelude Json Models Sha256 FlowModels FlowLifecycle FlowRepository FlowService FlowBudgets Program Sequential.

(** ** What a Flow result says of the stored Run *)

Lemma flow_result_Ok s r :
  flow_result s = Ok r -> fres_status r = fr_status s /\ fres_run_id r = fr_run_id s.
Proof.
  unfold flow_result. intros Hr.
  assert (forall u (p : option uuid * option PendingInput),
    FlowResult_new (mk_FlowResult (fr_run_id s) (fr_status s) (fr_output s) u
      (flat_map (fun i => match inv_result i with Some r => ir_artifacts r | None => [] end)
          (fr_invocations s))
       (Z.of_nat (length (fr_invocations s))) (model_call_count s) (tool_call_count s)
       (fst p) (snd p) (fr_error s)) = Ok r ->
    fres_status r = fr_status s /\ fres_run_id r = fr_run_id s) as Hn.
  { intros u p Hp. apply checked_Ok in Hp as (_ & _ & ->). done. }
  destruct (bool_decide _); [destruct (active_invocation s) as [i|]; [|done];
    destruct (inv_result i) as [x|]; [|done]|]; destruct (flow_usage s) as [u|]; try done;
    [exact (Hn u (Some (inv_id i), ir_pending_input x) Hr)|exact (Hn u (None, None) Hr)].
Qed.

(** The statuses in which a strategy hands a Run back. *)
Definition handed_back (s : RunStatus) : Prop := is_terminal_flow s = true \/ s = WAITING.

(** Only [begin_invocation] adds an invocation. *)
Lemma flow_apply_ids `{FloatRepr} op s s' :
  flow_inv s -> op_ok op s -> flow_apply op s = Ok s' ->
  map inv_id (fr_invocations s') =
    map inv_id (fr_invocations s)
      ++ match op with OpBegin _ _ r => [req_invocation_id r] | _ => [] end.
Proof.
  intros Hs Hop Happ.
  assert (forall i i', inv_id i' = inv_id i ->
    map inv_id (replace_invocation (inv_id i) i' (fr_invocations s))
      = map inv_id (fr_invocations s)) as Hrep.
  { intros i i' Hi. unfold replace_invocation. rewrite map_map. apply map_ext. intros j.
    case_bool_decide as Hj; congruence. }
  assert (forall amb st e, flow_terminate amb st e s = Ok s' ->
    map inv_id (fr_invocations s') = map inv_id (fr_invocations s) ++ []) as Hterm.
  { intros amb st e Ht. rewrite app_nil_r. unfold flow_terminate in Ht.
    destruct (is_terminal_flow _); [done|]. destruct (blank e); [done|].
    destruct (active_invocation s) as [i|]; [|by injection Ht as <-].
    destruct (inv_terminate _ i _ _) as [i'|] eqn:E; [|done]. injection Ht as <-. simpl.
    apply Hrep. unfold inv_terminate in E. raise_free E. done. }
  destruct op as [now|amb d r|amb r|amb id|now output|amb e|amb e|amb e|amb e];
    simpl in Happ; try by eapply Hterm.
  - unfold flow_start in Happ. destruct (negb _); [done|]. injection Happ as <-. simpl.
    by rewrite app_nil_r.
  - unfold flow_begin in Happ.
    destruct (negb _); [done|]. destruct (negb (is_none _)); [done|].
    destruct (require_definition s d); [|done]. destruct (negb _); [done|].
    destruct (negb _); [done|]. destruct (_ <? _); [done|].
    destruct (fd_agent d _); [|done]. destruct (negb _); [done|].
    destruct (AgentInvocation_new _) as [i|] eqn:E; [|done]. injection Happ as <-. simpl.
    apply checked_Ok in E as (_ & _ & ->). by rewrite map_app.
  - rewrite app_nil_r. unfold flow_settle in Happ. destruct (negb _); [done|].
    destruct (active_invocation s) as [i|]; [|done].
    destruct (inv_settle _ i r) as [i'|] eqn:E; [|done]. injection Happ as <-. simpl.
    assert (inv_id i' = inv_id i) as Hi.
    { unfold inv_settle in E. destruct (negb _); [done|].
      destruct (validate_result_identity i r); [|done]. by injection E as <-. }
    rewrite Hi. by apply Hrep.
  - rewrite app_nil_r. unfold flow_resume in Happ. destruct (negb _); [done|].
    destruct (active_invocation s) as [i|]; [|done]. destruct (negb _); [done|].
    destruct (inv_resume _ i) as [i'|] eqn:E; [|done]. injection Happ as <-. simpl.
    assert (inv_id i' = inv_id i) as Hi.
    { unfold inv_resume in E. destruct (negb _); [done|]. by injection E as <-. }
    rewrite Hi. by apply Hrep.
  - rewrite app_nil_r. unfold flow_complete in Happ. repeat (destruct (negb _); [done|]).
    destruct (bool_decide _); [done|]. destruct (existsb _ _); [done|]. by injection Happ as <-.
Qed.

(** ** A program logic for strategies

    [triple P p Q]: from a state of the invariant [Inv] in which [P] holds,
    [p] ends (it never runs out of fuel) and, however it ends, [Inv] holds, no
    terminated Run has changed and no Run has lost an invocation; and if [p]
    returns, [Q] holds of its value and the store. *)

Section Logic.
Context `{FloatRepr} {W : Type} `{FlowRepositoryLaws W}.
Variable env : nat -> ambient.

(** No stored invocation carries an id the environment has yet to draw. *)
Definition unused (n : nat) (w : W) : Prop :=
  forall rid s log k, view w rid = Some (s, log) -> (n <= k)%nat ->
    amb_uuid (env k) 0 ∉ map inv_id (fr_invocations s).

(** Runs stay, terminated Runs as they are. *)
Definition runs_kept (w w' : W) : Prop :=
  forall rid s log, view w rid = Some (s, log) ->
    exists s' log', view w' rid = Some (s', log') /\
      (is_terminal_flow (fr_status s) = true -> s' = s) /\
      (length (fr_invocations s) <= length (fr_invocations s'))%nat.

Definition Inv (st : sys W) : Prop := runs_ok (sys_w st) /\ unused (sys_tick st) (sys_w st).

Definition triple {A} (P : W -> Prop) (p : prog W A) (Q : A -> W -> Prop) : Prop :=
  forall st, Inv st -> P (sys_w st) ->
    exists st' o, p st = Some (st', o) /\ Inv st' /\ runs_kept (sys_w st) (sys_w st') /\
      forall a, o = Ok a -> Q a (sys_w st').

(** The Run [s] is stored. *)
Definition stored (s : FlowRunState) (w : W) : Prop :=
  exists log, view w (fr_run_id s) = Some (s, log).

(** A result that tells the state of the stored Run, which is at rest. *)
Definition tells_store (r : FlowResult) (w : W) : Prop :=
  exists s, stored s w /\ flow_result s = Ok r /\ handed_back (fr_status s).

Lemma runs_kept_refl w : runs_kept w w.
Proof. intros rid s log Hv. by exists s, log. Qed.

Lemma runs_kept_trans w1 w2 w3 : runs_kept w1 w2 -> runs_kept w2 w3 -> runs_kept w1 w3.
Proof.
  intros H12 H23 rid s log Hv. destruct (H12 _ _ _ Hv) as (s2 & log2 & Hv2 & Ht2 & Hl2).
  destruct (H23 _ _ _ Hv2) as (s3 & log3 & Hv3 & Ht3 & Hl3). exists s3, log3.
  split_and!; [done| |lia]. intros Ht. rewrite <-(Ht2 Ht). apply Ht3. by rewrite (Ht2 Ht).
Qed.

Lemma unused_mono n m w : (n <= m)%nat -> unused n w -> unused m w.
Proof. intros Hnm Hu rid s log k Hv Hk. eapply Hu; [done|lia]. Qed.

Lemma Inv_tick st m : (sys_tick st <= m)%nat -> Inv st -> Inv (mk_sys (sys_w st) m).
Proof. intros Hm [Hr Hu]. split; [done|]. by eapply unused_mono. Qed.

Lemma terminal_stored w w' s :
  runs_kept w w' -> is_terminal_flow (fr_status s) = true -> stored s w -> stored s w'.
Proof.
  intros Hk Ht [log Hv]. destruct (Hk _ _ _ Hv) as (s' & log' & Hv' & Hs & _).
  exists log'. by rewrite Hv', (Hs Ht).
Qed.

(** *** Structural rules *)

(** The common shape: one step that leaves the store alone. *)
Lemma triple_pure {A} (P : W -> Prop) (p : prog W A) (Q : A -> W -> Prop) :
  (forall st, exists m o, (sys_tick st <= m)%nat /\ p st = Some (mk_sys (sys_w st) m, o) /\
     forall a, Inv st -> P (sys_w st) -> o = Ok a -> Q a (sys_w st)) ->
  triple P p Q.
Proof.
  intros Hp st Hi HP. destruct (Hp st) as (m & o & Hm & E & Hq). eexists _, o.
  split_and!; [exact E|by apply Inv_tick|apply runs_kept_refl|]. intros a Ha. by apply Hq.
Qed.

Lemma flow_triple_post {A} P (p : prog W A) (Q Q' : A -> W -> Prop) :
  triple P p Q -> (forall a w, Q a w -> Q' a w) -> triple P p Q'.
Proof.
  intros Hp Hq st Hi HP. destruct (Hp _ Hi HP) as (st' & o & E & Hx1 & Hx2 & Hx3).
  exists st', o. split_and!; try done. intros a Ha. by apply Hq, Hx3.
Qed.

Lemma flow_triple_pre {A} (P P' : W -> Prop) (p : prog W A) Q :
  triple P p Q -> (forall w, P' w -> P w) -> triple P' p Q.
Proof. intros Hp Hpre st Hi HP. by apply (Hp _ Hi (Hpre _ HP)). Qed.

Lemma triple_true {A} (P : W -> Prop) (p : prog W A) Q :
  triple (fun _ => True) p Q -> triple P p Q.
Proof. intros Hp. by eapply flow_triple_pre. Qed.

(** A fact that does not depend on the store moves out of the
    precondition. *)
Lemma flow_triple_fact {A} (F : Prop) (P : W -> Prop) (p : prog W A) Q :
  (F -> triple P p Q) -> triple (fun w => F /\ P w) p Q.
Proof. intros Hp st Hi [HF HP]. by apply (Hp HF _ Hi HP). Qed.

Lemma flow_triple_ret {A} (P : W -> Prop) (a : A) (Q : A -> W -> Prop) :
  (forall w, P w -> Q a w) -> triple P (ret a) Q.
Proof.
  intros Hq. apply triple_pure. intros [w n]. exists n, (Ok a). split_and!; [done|done|].
  intros a' _ HP [= <-]. by apply Hq.
Qed.

Lemma flow_triple_throw {A} P e (Q : A -> W -> Prop) : triple P (throw e) Q.
Proof. apply triple_pure. intros [w n]. by exists n, (Raise e). Qed.

Lemma flow_triple_of_outcome {A} (P : W -> Prop) (o : outcome A) (Q : A -> W -> Prop) :
  (forall a w, o = Ok a -> P w -> Q a w) -> triple P (of_outcome o) Q.
Proof.
  intros Hq. apply triple_pure. intros [w n]. exists n, o. split_and!; [done|done|].
  intros a _ HP Ha. by apply Hq.
Qed.

Lemma flow_triple_bind {A B} P (p : prog W A) (k : A -> prog W B) Q R :
  triple P p Q -> (forall a, triple (Q a) (k a) R) -> triple P (bind p k) R.
Proof.
  intros Hp Hk st Hi HP. destruct (Hp _ Hi HP) as (st1 & o1 & E1 & Hi1 & Ht1 & Hq1).
  unfold bind. rewrite E1. destruct o1 as [a|e]; [|by eexists _, _].
  destruct (Hk a _ Hi1 (Hq1 _ eq_refl)) as (st2 & o2 & E2 & Hi2 & Ht2 & Hq2).
  exists st2, o2. split_and!; [done|done|by eapply runs_kept_trans|done].
Qed.

(** A handler starts anywhere in the invariant. *)
Lemma flow_triple_try {A} P (p : prog W A) h Q :
  triple P p Q -> (forall e q, h e = Some q -> triple (fun _ => True) q Q) ->
  triple P (try_except p h) Q.
Proof.
  intros Hp Hh st Hi HP. destruct (Hp _ Hi HP) as (st1 & o1 & E1 & Hi1 & Ht1 & Hq1).
  unfold try_except. rewrite E1. destruct o1 as [a|e]; [by eexists _, _|].
  destruct (h e) as [q|] eqn:Eh; [|by eexists _, _].
  destruct (Hh _ _ Eh _ Hi1 I) as (st2 & o2 & E2 & Hi2 & Ht2 & Hq2).
  exists st2, o2. split_and!; [done|done|by eapply runs_kept_trans|done].
Qed.

(** What later calls cannot undo. *)
Definition stable (P : W -> Prop) : Prop := forall w w', runs_kept w w' -> P w -> P w'.

Lemma triple_frame {A} (F P : W -> Prop) (p : prog W A) Q :
  stable F -> triple P p Q -> triple (fun w => F w /\ P w) p (fun a w => F w /\ Q a w).
Proof.
  intros Hst Hp st Hi [HF HP]. destruct (Hp _ Hi HP) as (st' & o & E & Hx1 & Hx2 & Hx3).
  exists st', o. split_and!; try done. intros a Ha. split; [by eapply Hst|by apply Hx3].
Qed.

(** At least [n] invocations of the Run have begun. *)
Definition at_least (n : nat) (rid : uuid) (w : W) : Prop :=
  exists s log, view w rid = Some (s, log) /\ (n <= length (fr_invocations s))%nat.

Lemma at_least_stable n rid : stable (at_least n rid).
Proof.
  intros w w' Hk (s & log & Hv & Hn). destruct (Hk _ _ _ Hv) as (s' & log' & Hv' & _ & Hl).
  exists s', log'. split; [done|lia].
Qed.

Lemma at_least_stored n s w :
  at_least n (fr_run_id s) w -> stored s w -> (n <= length (fr_invocations s))%nat.
Proof. intros (s' & log & Hv & Hn) [log' Hv']. congruence. Qed.

(** *** The environment and the service *)

Lemma triple_clock (P : W -> Prop) : triple P (clock env) (fun _ w => P w).
Proof.
  apply triple_pure. intros [w n]. eexists (S n), _. split_and!; [simpl; lia|done|by intros].
Qed.

Lemma flow_triple_get (P : W -> Prop) rid :
  triple P (svc_read (svc_get rid))
    (fun s w => (stored s w /\ fr_run_id s = rid) /\ flow_inv s /\ P w).
Proof.
  apply triple_pure. intros [w n]. eexists n, _. split_and!; [done|done|].
  intros s [[Hw Hok] _] HP Hs. apply get_Ok in Hs as [log Hv]; [|done].
  destruct (Hok _ _ _ Hv) as (<- & Hfi & _). split_and!; try done. by exists log.
Qed.

(** The status a call that returns leaves the Run in. *)
Definition status_after (c : svc_call) : RunStatus :=
  match c with
  | SvcStart _ | SvcBegin _ _ _ | SvcResume _ _ => RUNNING
  | SvcSettle _ r => if bool_decide (ir_status r = R_WAITING) then WAITING else RUNNING
  | SvcComplete _ _ => COMPLETED
  | SvcFail _ _ => FAILED
  | SvcCancel _ _ => CANCELLED
  | SvcInterrupt _ _ => INTERRUPTED
  | SvcReachLimit _ _ _ => LIMIT_REACHED
  end.

Definition begun_id (c : svc_call) : option uuid :=
  match c with SvcBegin _ r _ => Some (req_invocation_id r) | _ => None end.

Lemma status_after_ok c s s' :
  flow_inv s -> op_ok (svc_op c) s -> flow_apply (svc_op c) s = Ok s' ->
  fr_status s' = status_after c.
Proof.
  intros Hs Hop Happ. destruct (svc_events_replay c s s' Hs Hop Happ) as [<- _].
  destruct c; simpl in *; try done; unfold terminal_events;
    try by destruct (is_none (active_invocation s)).
  - unfold flow_begin in Happ. by case_bool_decide.
  - by destruct (ir_status r).
Qed.

Lemma call_effect lease rid c n w w' s' :
  runs_ok w -> unused n w ->
  (forall s log, view w rid = Some (s, log) -> op_ok (svc_op c) s) ->
  (forall id k, begun_id c = Some id -> (n <= k)%nat -> amb_uuid (env k) 0 <> id) ->
  svc_exec lease rid c w = Ok (w', s') ->
  runs_ok w' /\ unused n w' /\ runs_kept w w' /\ stored s' w' /\ fr_run_id s' = rid /\
  exists s, flow_inv s /\ op_ok (svc_op c) s /\ flow_apply (svc_op c) s = Ok s'.
Proof.
  intros Hr Hu Hop Hid Hx.
  assert (runs_ok w') as Hr'.
  { pose proof (svc_after_ok (ActCall lease rid c) w Hr Hop) as Ha. simpl in Ha.
    by rewrite Hx in Ha. }
  destruct Hr as [Hw Hok].
  assert (exists s log, view w rid = Some (s, log)) as (s & log & Hv).
  { destruct (view w rid) as [[s log]|] eqn:Hv; [by exists s, log|].
    pose proof (law_get w rid Hw) as Hg. rewrite Hv in Hg.
    destruct c; simpl in Hx; unfold svc_start, svc_begin, svc_settle, svc_resume, svc_complete,
      svc_fail, svc_cancel, svc_interrupt, svc_reach_limit, svc_terminate in Hx;
      by rewrite Hg in Hx. }
  destruct (Hok _ _ _ Hv) as (Hrid & Hs & _). specialize (Hop _ _ Hv).
  destruct (svc_exec_Ok _ _ _ _ _ _ _ _ Hw Hv Hrid Hs Hop Hx)
    as [Happ (Hw' & (es & Hv' & _) & Ho & _)].
  destruct (flow_apply_inv _ _ _ Hs Hop Happ) as [_ (_ & (Hsid & _) & _ & Hlive)].
  split; [done|]. split; [|split; [|split; [|split]]].
  - intros rid1 s1 log1 k Hv1 Hk. destruct (decide (rid1 = rid)) as [->|Hne].
    + rewrite Hv' in Hv1. injection Hv1 as <- <-.
      rewrite (flow_apply_ids _ _ _ Hs Hop Happ). rewrite elem_of_app. intros [Hin|Hin].
      * by eapply Hu in Hin.
      * destruct c; simpl in Hin; try by apply elem_of_nil in Hin.
        apply list_elem_of_singleton in Hin. by eapply Hid in Hin.
    + rewrite Ho in Hv1 by done. by eapply Hu.
  - intros rid1 s1 log1 Hv1. destruct (decide (rid1 = rid)) as [->|Hne].
    + rewrite Hv in Hv1. injection Hv1 as <- <-. eexists s', _. split_and!; [exact Hv'|congruence|].
      pose proof (f_equal length (flow_apply_ids _ _ _ Hs Hop Happ)) as Hl.
      rewrite length_app, !length_map in Hl. lia.
    + exists s1, log1. by rewrite Ho.
  - eexists. rewrite Hsid, Hrid. exact Hv'.
  - congruence.
  - by exists s.
Qed.

(** A service call that raises changes nothing. *)
Lemma triple_svc {A} (P : W -> Prop) (f : ambient -> W -> outcome (W * A)) (Q : A -> W -> Prop) :
  (forall n w w' a, runs_ok w -> unused (S n) w -> P w -> f (env n) w = Ok (w', a) ->
     runs_ok w' /\ unused (S n) w' /\ runs_kept w w' /\ Q a w') ->
  triple P (svc env f) Q.
Proof.
  intros Hf [w n] [Hr Hu] HP. unfold svc. simpl in *.
  assert (unused (S n) w) as Hu' by (eapply unused_mono; [|done]; lia).
  destruct (f (env n) w) as [[w' a]|e] eqn:E.
  - destruct (Hf _ _ _ _ Hr Hu' HP E) as (Hr1 & Hu1 & Hk1 & Hq). eexists _, _.
    split_and!; [done|by split|done|]. by intros a' [= <-].
  - eexists _, _. split_and!; [done|by split|apply runs_kept_refl|done].
Qed.

Lemma triple_call lease rid (c : ambient -> svc_call) st (P : W -> Prop) :
  (forall amb s, op_ok (svc_op (c amb)) s) -> (forall amb, begun_id (c amb) = None) ->
  (forall amb, status_after (c amb) = st) ->
  triple P (svc env (fun amb => svc_exec lease rid (c amb)))
    (fun s w => fr_status s = st /\ stored s w /\ fr_run_id s = rid).
Proof.
  intros Hop Hb Hst. apply triple_svc. intros n w w' s' Hr Hu _ Ex.
  assert (forall id k, begun_id (c (env n)) = Some id -> (S n <= k)%nat -> amb_uuid (env k) 0 <> id)
    as Hid by (intros id k Hid; rewrite Hb in Hid; discriminate Hid).
  destruct (call_effect lease rid (c (env n)) (S n) w w' s' Hr Hu (fun s _ _ => Hop _ s) Hid Ex)
    as (Hr' & Hu' & Ht & Hs & Hrid & cur & Hcur & Hop' & Happ).
  split_and!; try done. by rewrite (status_after_ok _ _ _ Hcur Hop' Happ).
Qed.

(** A result computed from a stored Run at rest. *)
Lemma triple_tell (P : W -> Prop) s :
  (forall w, P w -> stored s w /\ handed_back (fr_status s)) ->
  triple P (of_outcome (flow_result s)) tells_store.
Proof.
  intros Hp. apply flow_triple_of_outcome. intros r w Hr HP. destruct (Hp _ HP) as [Hs Hb].
  by exists s.
Qed.

(** A call that terminates the Run, followed by its result. *)
Lemma triple_terminate lease rid (c : ambient -> svc_call) st (P : W -> Prop) :
  (forall amb s, op_ok (svc_op (c amb)) s) -> (forall amb, begun_id (c amb) = None) ->
  (forall amb, status_after (c amb) = st) -> is_terminal_flow st = true ->
  triple P (bind (svc env (fun amb => svc_exec lease rid (c amb)))
              (fun s => of_outcome (flow_result s))) tells_store.
Proof.
  intros Hop Hb Hst Ht. eapply flow_triple_bind; [by apply (triple_call _ _ _ st)|]. intros s.
  apply triple_tell. intros w (Hs & Hst' & _). split; [done|]. left. by rewrite Hs.
Qed.

Lemma triple_create d rid now :
  FlowBudget_fields (fd_budget d) = true ->
  triple (fun _ => True) (svc env (fun amb => svc_create amb d rid now)) (fun _ _ => True).
Proof.
  intros Hd. apply triple_svc. intros n w w' s' Hr Hu _ Ex.
  pose proof (svc_after_ok (ActCreate (env n) d rid now) w Hr Hd) as Hr'.
  cbn [svc_after] in Hr'. rewrite Ex in Hr'. cbn [on_Ok fst id] in Hr'.
  unfold svc_create in Ex. destruct (flow_create _ _ _ _) as [s|] eqn:Es; [|done].
  destruct (frepo_create _ s _ _) as [[w1 es]|] eqn:E; [|done]. injection Ex as <- <-.
  destruct (law_create _ _ _ _ _ _ (proj1 Hr) E) as (_ & _ & _ & Hn & Hv & _ & Ho & _).
  assert (fr_invocations s = []) as Hnil by (apply checked_Ok in Es as (_ & _ & ->); done).
  split_and!; [done| | |done].
  - intros rid1 s1 log1 k Hv1 Hk. destruct (decide (rid1 = fr_run_id s)) as [->|Hne].
    + rewrite Hv in Hv1. injection Hv1 as <- <-. rewrite Hnil. apply not_elem_of_nil.
    + rewrite Ho in Hv1 by done. by eapply Hu.
  - intros rid1 s1 log1 Hv1. exists s1, log1. rewrite Ho; [done|]. intros ->. congruence.
Qed.

Lemma triple_record lease rid i t :
  triple (fun _ => True)
    (svc env (fun amb w => let! w' := svc_record_cancellation_failure lease amb rid i t w in
                           Ok (w', tt))) (fun _ _ => True).
Proof.
  apply triple_svc. intros n w w' [] Hr Hu _ Ex.
  destruct (svc_record_cancellation_failure _ _ _ _ _ _) as [w1|e] eqn:E; [|done].
  injection Ex as <-. rename E into Ex.
  pose proof (svc_after_ok (ActRecord lease (env n) rid i t) w Hr I) as Hr'.
  cbn [svc_after] in Hr'. rewrite Ex in Hr'. cbn [on_Ok fst id] in Hr'.
  unfold svc_record_cancellation_failure in Ex.
  destruct (frepo_get rid _) as [cur|] eqn:Hg; [|done].
  destruct (execution_token_for lease rid) as [token|]; [|done].
  destruct (frepo_append _ _ _ _ _ _) as [[w2 es]|] eqn:E; [|done]. injection Ex as <-.
  destruct (law_append _ _ _ _ _ _ _ _ (proj1 Hr) E) as (_ & _ & s & log & Hv & _ & Hv' & _ & Ho & _).
  split_and!; [done| | |done].
  - intros rid1 s1 log1 k Hv1 Hk. destruct (decide (rid1 = rid)) as [->|Hne].
    + rewrite Hv' in Hv1. injection Hv1 as <- <-. by eapply Hu.
    + rewrite Ho in Hv1 by done. by eapply Hu.
  - intros rid1 s1 log1 Hv1. destruct (decide (rid1 = rid)) as [->|Hne].
    + rewrite Hv in Hv1. injection Hv1 as <- <-. by eexists _, _.
    + exists s1, log1. by rewrite Ho.
Qed.

(** *** The strategy *)

Variable expires : nat -> bool.
Variable lease : option FlowExecutionLease.
Variable invoker : AgentInvoker W.

(** What the strategy relies on: whatever happens while it awaits the
    invoker ends, keeps the invariant, every terminated Run and every
    invocation, and the results are validated models. *)
Record invoker_steady : Prop := {
  steady_invoke : forall r, request_ok r ->
    triple (fun _ => True) (aw_run (invoker_invoke invoker r)) (fun a _ => result_ok a);
  steady_invoke_cut : forall r, request_ok r ->
    triple (fun _ => True) (aw_cut (invoker_invoke invoker r)) (fun _ _ => True);
  steady_resume : forall r, AgentInvocationResume_new r = Ok r ->
    triple (fun _ => True) (aw_run (invoker_resume invoker r)) (fun a _ => result_ok a);
  steady_resume_cut : forall r, AgentInvocationResume_new r = Ok r ->
    triple (fun _ => True) (aw_cut (invoker_resume invoker r)) (fun _ _ => True);
  steady_cancel : forall cancel r, invoker_cancel invoker = Some cancel ->
    AgentInvocationCancel_new r = Ok r -> triple (fun _ => True) (cancel r) (fun _ _ => True);
}.

Context (Hinv : invoker_steady).

Lemma triple_propagate i reason :
  triple (fun _ => True) (propagate_cancellation env lease invoker i reason) (fun _ _ => True).
Proof.
  unfold propagate_cancellation.
  eapply flow_triple_bind with (Q := fun a _ => AgentInvocationCancel_new a = Ok a /\ True).
  { apply flow_triple_of_outcome. intros a w Ha _. split; [|done].
    pose proof Ha as Hx. by apply checked_Ok in Hx as (_ & _ & ->). }
  intros request. apply (flow_triple_fact _ (fun _ => True)). intros Hreq.
  destruct (invoker_cancel invoker) as [cancel|] eqn:Ec; [|apply triple_record].
  apply flow_triple_try; [by eapply steady_cancel|].
  intros e q Hq. destruct (is_exception e); [|done]. injection Hq as <-. apply triple_record.
Qed.

Lemma triple_reach_budget (P : W -> Prop) rid v :
  triple P (reach_budget_limit env lease invoker rid v) tells_store.
Proof.
  apply triple_true. unfold reach_budget_limit.
  eapply flow_triple_bind; [apply (flow_triple_get (fun _ => True))|]. intros s.
  destruct (is_terminal_flow (fr_status s)) eqn:Et.
  { apply triple_tell. intros w [[Hs _] _]. split; [done|by left]. }
  eapply flow_triple_bind.
  { apply (triple_call lease rid (fun amb => SvcReachLimit amb (bx_message v) [("budget", bx_dump v)])
             LIMIT_REACHED); done. }
  intros limited.
  apply flow_triple_fact. intros Hs.
  assert (stable (stored limited)) as Hstab
    by (intros w w' Hk Hw; eapply terminal_stored; [done|by rewrite Hs|done]).
  eapply flow_triple_bind with (Q := fun _ w => stored limited w /\ True).
  { eapply flow_triple_pre; [apply (triple_frame (stored limited) (fun _ => True) _ (fun _ _ => True))|];
      [done| |by intros w [Hw _]].
    destruct (active_invocation s); [|by apply flow_triple_ret].
    case_bool_decide; [apply triple_propagate|by apply flow_triple_ret]. }
  intros _. apply triple_tell. intros w [Hw _]. split; [done|]. left. by rewrite Hs.
Qed.

Lemma triple_timeout (P : W -> Prop) s :
  triple P (timeout_limit env lease invoker s) tells_store.
Proof.
  apply triple_true. unfold timeout_limit. eapply flow_triple_bind; [apply triple_clock|]. intros now.
  eapply flow_triple_bind; [by apply (flow_triple_of_outcome _ _ (fun _ _ => True))|]. intros c.
  destruct (timeout_seconds (fr_budget s)); [apply triple_reach_budget|apply flow_triple_throw].
Qed.

(** [Q] of [option FlowResult]: a result that is returned tells the store. *)
Definition tells_if (o : option FlowResult) (w : W) : Prop :=
  match o with Some r => tells_store r w | None => True end.

Lemma triple_race (P : W -> Prop) rid : triple P (terminal_after_race rid) tells_if.
Proof.
  apply triple_true. unfold terminal_after_race.
  eapply flow_triple_bind; [apply (flow_triple_get (fun _ => True))|]. intros s.
  destruct (is_terminal_flow (fr_status s)) eqn:Et; [|by apply flow_triple_ret].
  eapply flow_triple_bind; [apply triple_tell|].
  - intros w [[Hs _] _]. split; [done|by left].
  - intros r. by apply flow_triple_ret.
Qed.

Lemma triple_failure (P : W -> Prop) rid key op e :
  triple P (transport_failure env lease rid key op e) tells_store.
Proof.
  apply triple_true. unfold transport_failure. eapply flow_triple_bind; [apply triple_race|].
  intros [r|]; [by apply flow_triple_ret|].
  by eapply (triple_terminate lease rid (fun amb => SvcFail amb _) FAILED).
Qed.

Definition settled_as (s : FlowRunState) (r : AgentInvocationResult) (w : W) : Prop :=
  fr_status s = (if bool_decide (ir_status r = R_WAITING) then WAITING else RUNNING) /\
  stored s w.

Lemma triple_outcome s r :
  triple (settled_as s r) (handle_outcome env lease s r) tells_if.
Proof.
  assert (forall (c : string -> ambient -> svc_call) e st,
    (forall amb s, op_ok (svc_op (c e amb)) s) -> (forall amb, begun_id (c e amb) = None) ->
    (forall amb, status_after (c e amb) = st) -> is_terminal_flow st = true ->
    triple (settled_as s r)
      (bind (svc env (fun amb => svc_exec lease (fr_run_id s) (c e amb)))
         (fun t => bind (of_outcome (flow_result t)) (fun res => ret (Some res)))) tells_if) as Hend.
  { intros c e st Hop Hb Hst Ht. eapply flow_triple_bind; [by apply (triple_call _ _ _ st)|].
    intros t. eapply flow_triple_bind; [apply triple_tell|].
    - intros w (Hs & Hst' & _). split; [done|]. left. by rewrite Hs.
    - intros res. by apply flow_triple_ret. }
  unfold handle_outcome. destruct (ir_status r) eqn:Er.
  - by apply flow_triple_ret.
  - by apply (Hend (fun e amb => SvcFail amb e) _ FAILED).
  - by apply (Hend (fun e amb => SvcCancel amb e) _ CANCELLED).
  - by apply (Hend (fun e amb => SvcInterrupt amb e) _ INTERRUPTED).
  - by apply (Hend (fun e amb => SvcReachLimit amb e []) _ LIMIT_REACHED).
  - eapply flow_triple_bind; [apply triple_tell|intros res; by apply flow_triple_ret].
    intros w [Hs Hw]. split; [done|]. right. by rewrite Hs, Er.
Qed.

Lemma triple_deadline s (op : awaitable W AgentInvocationResult) :
  triple (fun _ => True) (aw_run op) (fun a _ => result_ok a) ->
  triple (fun _ => True) (aw_cut op) (fun _ _ => True) ->
  triple (fun _ => True) (within_deadline env expires s op) (fun a _ => result_ok a).
Proof.
  intros Hrun Hcut. unfold within_deadline.
  eapply flow_triple_bind; [apply triple_clock|]. intros now.
  destruct (remaining_seconds s now); [|done].
  intros st Hi _. unfold with_timeout.
  pose proof (Inv_tick st (S (sys_tick st)) (Nat.le_succ_diag_r _) Hi) as Hi'.
  destruct (expires (sys_tick st)); [|by apply (Hrun _ Hi' I)].
  assert (triple (fun _ => True) (bind (aw_cut op) (fun _ => throw (Exn ExTimeoutError "")))
            (fun (a : AgentInvocationResult) _ => result_ok a)) as Hc.
  { eapply flow_triple_bind; [exact Hcut|]. intros u. apply flow_triple_throw. }
  by apply (Hc _ Hi' I).
Qed.

(** What a segment hands to the loop: a result that tells the store, or a
    state of the Run with at least [n] invocations. *)
Definition segment_post (n : nat) (rid : uuid) (x : FlowResult + FlowRunState * AgentInvocationResult)
  (w : W) : Prop :=
  match x with
  | inl r => tells_store r w
  | inr (s', _) => fr_run_id s' = rid /\ (n <= length (fr_invocations s'))%nat
  end.

Lemma triple_inl {A} (P : W -> Prop) (p : prog W FlowResult) (Q : FlowResult + A -> W -> Prop) :
  triple (fun _ => True) p tells_store -> (forall r w, tells_store r w -> Q (inl r) w) ->
  triple P (bind p (fun r => ret (inl r))) Q.
Proof.
  intros Hp Hq. eapply flow_triple_bind; [by apply triple_true|]. intros r. apply flow_triple_ret, Hq.
Qed.

Lemma triple_transported s key op operation interrupted :
  triple (fun _ => True) (aw_run op) (fun a _ => result_ok a) ->
  triple (fun _ => True) (aw_cut op) (fun _ _ => True) ->
  triple (fun _ => True)
    (try_except (bind (within_deadline env expires s op) (fun r => ret (inr r)))
      (fun e =>
         if isinstance e ExTimeoutError then
           Some (bind (timeout_limit env lease invoker s) (fun r => ret (inl r)))
         else if isinstance e ExCancelledError then
           Some (bind (svc env (fun amb => svc_interrupt lease amb (fr_run_id s) interrupted))
                   (fun _ => throw e))
         else if is_exception e then
           Some (bind (transport_failure env lease (fr_run_id s) key operation e)
                   (fun r => ret (inl r)))
         else None))
    (fun x w => match x with inl r => tells_store r w | inr r => result_ok r end).
Proof.
  intros Hrun Hcut. apply flow_triple_try.
  - eapply flow_triple_bind; [by apply triple_deadline|]. intros r. by apply flow_triple_ret.
  - intros e q Hq. destruct (isinstance e ExTimeoutError).
    { injection Hq as <-. apply triple_inl; [apply triple_timeout|done]. }
    destruct (isinstance e ExCancelledError).
    { injection Hq as <-.
      eapply flow_triple_bind; [by apply (triple_call lease (fr_run_id s)
        (fun amb => SvcInterrupt amb interrupted) INTERRUPTED)|]. intros u. apply flow_triple_throw. }
    destruct (is_exception e); [|done]. injection Hq as <-.
    apply triple_inl; [apply triple_failure|done].
Qed.

Lemma triple_settled s key result invalid :
  result_ok result ->
  triple (fun _ => True)
    (try_except (bind (svc env (fun amb => svc_settle lease amb (fr_run_id s) result))
                  (fun s' => ret (inr s')))
      (fun e =>
         if isinstance e InvalidFlowTransitionError then
           Some (bind (terminal_after_race (fr_run_id s))
                   (fun terminal => match terminal with Some r => ret (inl r) | None => throw e end))
         else if isinstance e ExValueError then
           Some (bind (transport_failure env lease (fr_run_id s) key invalid e)
                   (fun r => ret (inl r)))
         else None))
    (fun x w => match x with
                | inl r => tells_store r w
                | inr s' => fr_run_id s' = fr_run_id s /\ settled_as s' result w
                end).
Proof.
  intros Hres. apply flow_triple_try.
  - eapply flow_triple_bind; [by apply (triple_call lease (fr_run_id s)
      (fun amb => SvcSettle amb result)
      (if bool_decide (ir_status result = R_WAITING) then WAITING else RUNNING))|].
    intros s'. apply flow_triple_ret. intros w (Hs & Hw & Hid). by split.
  - intros e q Hq. destruct (isinstance e InvalidFlowTransitionError).
    { injection Hq as <-. eapply flow_triple_bind; [apply triple_race|].
      intros [r|]; [by apply flow_triple_ret|apply flow_triple_throw]. }
    destruct (isinstance e ExValueError); [|done]. injection Hq as <-.
    apply triple_inl; [apply triple_failure|done].
Qed.

Lemma triple_settle n s key op operation invalid interrupted :
  triple (fun _ => True) (aw_run op) (fun a _ => result_ok a) ->
  triple (fun _ => True) (aw_cut op) (fun _ _ => True) ->
  triple (at_least n (fr_run_id s))
    (settle_transport env expires lease invoker s key op operation invalid interrupted)
    (segment_post n (fr_run_id s)).
Proof.
  intros Hrun Hcut. unfold settle_transport.
  set (F := at_least n (fr_run_id s)).
  assert (stable F) as HF by apply at_least_stable.
  eapply flow_triple_bind.
  { eapply flow_triple_pre; [apply (triple_frame F (fun _ => True)); [done|by apply triple_transported]|].
    done. }
  intros [r|result]; [apply flow_triple_ret; by intros w [_ Hw]|].
  eapply flow_triple_pre with (P := fun w => result_ok result /\ F w); [|by intros w [??]].
  apply flow_triple_fact. intros Hres. eapply flow_triple_bind.
  { eapply flow_triple_pre; [apply (triple_frame F (fun _ => True)); [done|by apply triple_settled]|].
    done. }
  intros [r|s']; [apply flow_triple_ret; by intros w [_ Hw]|].
  eapply flow_triple_bind; [apply triple_clock|]. intros now.
  eapply flow_triple_pre with (P := fun w => (fr_run_id s' = fr_run_id s /\ (n <= length (fr_invocations s'))%nat)
                                        /\ settled_as s' result w).
  2: { intros w (HFw & Hid & Hst). split; [|done]. split; [done|]. destruct Hst as [_ Hst].
       unfold F in HFw. rewrite <-Hid in HFw. by eapply at_least_stored. }
  apply flow_triple_fact. intros Hn.
  eapply flow_triple_bind with (Q := fun _ w => settled_as s' result w);
    [by apply flow_triple_of_outcome|].
  intros [v|]; [apply triple_inl; [apply triple_reach_budget|done]|].
  eapply flow_triple_bind; [apply triple_outcome|]. intros [r|]; by apply flow_triple_ret.
Qed.

(** [uuid4] never repeats. *)
Definition uuids_distinct : Prop :=
  forall j k, (j < k)%nat -> amb_uuid (env j) 0 <> amb_uuid (env k) 0.

Lemma flow_begin_sequence amb d r s s' :
  flow_begin amb d r s = Ok s' -> req_sequence r = Z.of_nat (length (fr_invocations s')).
Proof.
  unfold flow_begin. intros Hb. destruct (negb _); [done|]. destruct (negb (is_none _)); [done|].
  destruct (require_definition s d); [|done]. destruct (negb _); [done|].
  destruct (Z.eqb_spec (req_sequence r) (Z.of_nat (length (fr_invocations s)) + 1)) as [->|]; [|done].
  simpl in Hb. destruct (_ <? _); [done|].
  destruct (fd_agent d _); [|done]. destruct (negb _); [done|].
  destruct (AgentInvocation_new _) as [i|]; [|done]. injection Hb as <-. simpl.
  rewrite length_app. simpl. lia.
Qed.

(** [id] was drawn before the service reads the environment again. *)
Lemma triple_begin_call (P : W -> Prop) rid d r n :
  request_ok r ->
  (forall w, P w -> forall s log, view w rid = Some (s, log) ->
     req_invocation_id r ∉ map inv_id (fr_invocations s)) ->
  forall st, Inv st -> P (sys_w st) -> sys_tick st = n ->
  (forall k, (n < k)%nat -> amb_uuid (env k) 0 <> req_invocation_id r) ->
  exists st' o, svc env (fun amb => svc_begin lease amb rid r d) st = Some (st', o) /\ Inv st' /\
    runs_kept (sys_w st) (sys_w st') /\
    forall s', o = Ok s' -> stored s' (sys_w st') /\ fr_run_id s' = rid /\
      req_sequence r = Z.of_nat (length (fr_invocations s')).
Proof.
  intros Hreq Hnew [w m] [Hr Hu] HP Hm Hlater. simpl in *. subst m. unfold svc. simpl.
  assert (unused (S n) w) as Hu' by (eapply unused_mono; [|done]; lia).
  destruct (svc_begin lease (env n) rid r d w) as [[w' s']|e] eqn:Ex.
  2: { eexists _, _. split_and!; [done|by split|apply runs_kept_refl|done]. }
  destruct (call_effect lease rid (SvcBegin (env n) r d) (S n) w w' s' Hr Hu')
    as (Hx1 & Hx2 & Hx3 & Hst & Hid & cur & _ & _ & Happ);
    [intros s log Hv; split; [done|by eapply Hnew]
    |intros id k Hb Hk; injection Hb as <-; by apply Hlater|done|].
  eexists _, _. split_and!; [done|by split|done|]. intros s1 [= <-].
  split_and!; [done|done|]. exact (flow_begin_sequence _ _ _ _ _ Happ).
Qed.

Lemma triple_begin d s input previous binding :
  uuids_distinct ->
  triple (fun _ => True) (begin_next env lease d s input previous binding)
    (fun x w => (request_ok (snd x) /\ fr_run_id (fst x) = fr_run_id s) /\
                at_least (S (length (fr_invocations s))) (fr_run_id s) w).
Proof.
  intros Hdis. unfold begin_next.
  eapply flow_triple_bind; [by apply (flow_triple_of_outcome _ _ (fun _ _ => True))|]. intros h.
  eapply flow_triple_bind; [by apply (flow_triple_of_outcome _ _ (fun _ _ => True))|]. intros i.
  intros [w n] [Hr Hu] _. simpl in Hr, Hu. unfold bind at 1, new_uuid. simpl.
  unfold bind at 1, of_outcome at 1.
  assert (Inv (mk_sys w (S n))) as Hi1.
  { split; [done|]. eapply unused_mono; [|done]. simpl. lia. }
  destruct (AgentInvocationRequest_new _) as [request|e] eqn:Ereq.
  2: { eexists _, _. split_and!; [done|done|apply runs_kept_refl|done]. }
  pose proof Ereq as Hq. apply checked_Ok in Hq as (_ & _ & Hq).
  destruct (triple_begin_call (fun w1 => w1 = w) (fr_run_id s) d request (S n))
    with (st := mk_sys w (S n)) as (st' & o & E & Hx1 & Hx2 & Hx3); try done.
  - subst request. exact Ereq.
  - intros w1 -> s1 log Hv. subst request. simpl. by eapply Hu.
  - intros k Hk. subst request. simpl. apply not_eq_sym, Hdis. lia.
  - unfold bind. rewrite E. destruct o as [s1|e]; [|by eexists _, _].
    destruct (Hx3 s1 eq_refl) as ([log Hv] & Hid & Hseq). eexists _, _.
    split_and!; [done|done|done|]. intros x [= <-]. simpl. split; [by subst request|].
    exists s1, log. rewrite <-Hid. split; [done|]. subst request. simpl in Hseq. lia.
Qed.

Lemma flow_triple_advance d input : uuids_distinct -> forall fuel s previous (P : W -> Prop),
  (length (fd_agents d) <= fuel + length (fr_invocations s))%nat ->
  triple P (advance env expires lease invoker fuel d s input previous) tells_store.
Proof.
  intros Hdis fuel. induction fuel as [|fuel IH]; intros s previous P Hfuel; apply triple_true;
    simpl; destruct (fd_agents d !! length (fr_invocations s)) as [binding|] eqn:Eb.
  1: { apply lookup_lt_Some in Eb. lia. }
  2: {
    eapply flow_triple_bind; [apply triple_clock|]. intros now.
    eapply flow_triple_bind; [by apply (flow_triple_of_outcome _ _ (fun _ _ => True))|].
    intros [v|]; [apply triple_reach_budget|].
    eapply flow_triple_bind; [by apply triple_begin|]. intros [s1 request]. simpl.
    apply flow_triple_fact. intros [Hreq Hid]. rewrite <-Hid.
    eapply flow_triple_bind; [apply triple_settle; [by apply steady_invoke|by apply steady_invoke_cut]|].
    intros [r|[s2 result]]; [by apply flow_triple_ret|].
    eapply flow_triple_pre with (P := fun _ =>
      (fr_run_id s2 = fr_run_id s1 /\ (S (length (fr_invocations s)) <= length (fr_invocations s2))%nat)
      /\ True); [|done].
    apply (flow_triple_fact _ (fun _ => True)). intros [_ Hlen]. apply IH. lia. }
  all: destruct previous as [p|]; [|apply flow_triple_throw];
    by apply (triple_terminate lease (fr_run_id s) (fun amb => SvcComplete amb (default "" (ir_output p)))
      COMPLETED).
Qed.

Lemma triple_run fuel d input rid :
  uuids_distinct -> FlowBudget_fields (fd_budget d) = true -> (length (fd_agents d) <= fuel)%nat ->
  triple (fun _ => True) (seq_run env expires lease invoker fuel d input rid) tells_store.
Proof.
  intros Hdis Hd Hfuel. unfold seq_run.
  eapply flow_triple_bind; [by apply (flow_triple_of_outcome _ _ (fun _ _ => True))|]. intros u.
  eapply flow_triple_bind; [apply triple_clock|]. intros now.
  eapply flow_triple_bind; [by apply triple_create|]. intros created.
  eapply flow_triple_bind; [by apply (triple_call lease (fr_run_id created) SvcStart RUNNING)|].
  intros s. apply flow_triple_advance; [done|lia].
Qed.

Lemma triple_resume_waiting fuel d rid text c :
  uuids_distinct -> (length (fd_agents d) <= fuel)%nat ->
  triple (fun _ => True) (seq_resume_waiting env expires lease invoker fuel d rid text c) tells_store.
Proof.
  intros Hdis Hfuel. unfold seq_resume_waiting.
  eapply flow_triple_bind; [by apply (flow_triple_of_outcome _ _ (fun _ _ => True))|]. intros u1.
  eapply flow_triple_bind; [apply (flow_triple_get (fun _ => True))|]. intros s.
  eapply flow_triple_bind with (Q := fun _ w => stored s w);
    [apply flow_triple_of_outcome; by intros a w _ [[Hw _] _]|]. intros u2.
  eapply flow_triple_bind; [apply triple_clock|]. intros now.
  eapply flow_triple_bind with (Q := fun _ w => stored s w); [by apply flow_triple_of_outcome|].
  intros [v|]; [apply triple_reach_budget|].
  destruct (active_invocation s) as [active|]; [|apply flow_triple_throw].
  eapply flow_triple_bind with (Q := fun _ w => at_least 0 (fr_run_id s) w /\ True).
  { apply flow_triple_of_outcome. intros a w _ [log Hv]. split; [|done]. exists s, log.
    split; [done|lia]. }
  intros input. eapply flow_triple_bind.
  { apply (triple_frame _ (fun _ => True)); [apply at_least_stable|].
    by apply (triple_call lease rid (fun amb => SvcResume amb (inv_id active)) RUNNING). }
  intros u3. eapply flow_triple_bind with
    (Q := fun a w => AgentInvocationResume_new a = Ok a /\ at_least 0 (fr_run_id s) w).
  { apply flow_triple_of_outcome. intros a w Ha [Hw _]. split; [|done].
    pose proof Ha as Hx. by apply checked_Ok in Hx as (_ & _ & ->). }
  intros request. apply flow_triple_fact. intros Hreq.
  eapply flow_triple_bind; [apply triple_settle; [by apply steady_resume|by apply steady_resume_cut]|].
  intros [r|[s' result]]; [by apply flow_triple_ret|]. apply flow_triple_advance; [done|lia].
Qed.

Lemma triple_cancel rid reason :
  triple (fun _ => True) (seq_cancel env lease invoker rid reason) tells_store.
Proof.
  unfold seq_cancel. destruct (blank reason); [apply flow_triple_throw|].
  destruct (1000 <? slen reason); [apply flow_triple_throw|].
  eapply flow_triple_bind; [apply (flow_triple_get (fun _ => True))|]. intros s.
  case_bool_decide as Hc.
  { apply triple_tell. intros w [[Hw _] _]. split; [done|]. left. by rewrite Hc. }
  destruct (is_terminal_flow (fr_status s)); [apply flow_triple_throw|].
  eapply flow_triple_bind.
  { by apply (triple_call lease rid (fun amb => SvcCancel amb reason) CANCELLED). }
  intros cancelled. apply flow_triple_fact. intros Hs.
  assert (stable (stored cancelled)) as Hstab
    by (intros w w' Hk Hw; eapply terminal_stored; [done|by rewrite Hs|done]).
  eapply flow_triple_bind with (Q := fun _ w => stored cancelled w /\ True).
  { eapply flow_triple_pre; [apply (triple_frame (stored cancelled) (fun _ => True) _ (fun _ _ => True))|];
      [done| |by intros w [Hw _]].
    destruct (active_invocation s); [apply triple_propagate|by apply flow_triple_ret]. }
  intros u. apply triple_tell. intros w [Hw _]. split; [done|]. left. by rewrite Hs.
Qed.
End Logic.

(** ** Properties *)

(** The four entry points of the strategy. *)
Inductive strategy_call :=
  | CallRun (d : FlowDefinition) (input : FlowInput) (run_id : option uuid)
  | CallResume (d : FlowDefinition) (rid : uuid) (user_input : string)
  | CallConfirm (d : FlowDefinition) (rid : uuid) (c : ToolConfirmation)
  | CallCancel (rid : uuid) (reason : string).

Definition strategy_exec `{FloatRepr} {W} `{FlowRepository W} env expires lease
  (invoker : AgentInvoker W) (fuel : nat) (c : strategy_call) : prog W FlowResult :=
  match c with
  | CallRun d input rid => seq_run env expires lease invoker fuel d input rid
  | CallResume d rid text => seq_resume env expires lease invoker fuel d rid text
  | CallConfirm d rid conf => seq_confirm env expires lease invoker fuel d rid conf
  | CallCancel rid reason => seq_cancel env lease invoker rid reason
  end.

(** A definition its constructor accepted, and fuel for its Agents. *)
Definition strategy_call_ok (fuel : nat) (c : strategy_call) : Prop :=
  match c with
  | CallRun d _ _ => FlowBudget_fields (fd_budget d) = true /\ (length (fd_agents d) <= fuel)%nat
  | CallResume d _ _ | CallConfirm d _ _ => (length (fd_agents d) <= fuel)%nat
  | CallCancel _ _ => True
  end.

(** C27: the sequential strategy terminates and tells the truth.  Whatever
    other tasks do to the repository while it awaits the invoker (as long as
    they keep stored Runs valid, terminated Runs final and begun invocations
    recorded), a call of [run], [resume], [confirm] or [cancel] ends with one
    loop iteration per Agent; all stored Runs stay valid with logs that
    replay to them; terminated Runs stay as they were; and a result it
    returns is the [FlowResult] of the stored Run, which is terminated or
    waits for input: never a Run still marked running. *)
Theorem strategy_tells_stored_flow `{FloatRepr} `{FlowRepositoryLaws W} env expires lease
  (invoker : AgentInvoker W) fuel c w n :
  invoker_steady env invoker -> uuids_distinct env -> strategy_call_ok fuel c ->
  runs_ok w -> unused env n w ->
  exists st' o, strategy_exec env expires lease invoker fuel c (mk_sys w n) = Some (st', o) /\
    runs_ok (sys_w st') /\ runs_kept w (sys_w st') /\
    forall r, o = Ok r ->
      exists s log, view (sys_w st') (fres_run_id r) = Some (s, log) /\
        flow_result s = Ok r /\ handed_back (fres_status r).
Proof.
  intros Hinv Hdis Hc Hr Hu.
  assert (triple env (fun _ => True) (strategy_exec env expires lease invoker fuel c) tells_store) as Ht.
  { destruct c as [d input rid|d rid text|d rid conf|rid reason]; simpl in Hc.
    - apply triple_run; tauto.
    - by apply triple_resume_waiting.
    - by apply triple_resume_waiting.
    - by apply triple_cancel. }
  destruct (Ht (mk_sys w n) (conj Hr Hu) I) as (st' & o & E & [Hr' _] & Hk & Hq).
  exists st', o. split_and!; [done|done|done|]. intros r Ho.
  destruct (Hq r Ho) as (s & [log Hv] & Hs & Hb). exists s, log.
  destruct (flow_result_Ok _ _ Hs) as [Hst Hid]. by rewrite Hid, Hst.
Qed.

(** *** A concrete strategy *)

Section Example.
#[local] Existing Instance example_float.

Definition example_env (k : nat) : ambient :=
  Ambient (Z.of_nat k) (fun _ => Z.of_nat k) (fun j => (100 + 50 * N.of_nat k + N.of_nat j)%N).

Lemma example_env_distinct : uuids_distinct example_env.
Proof. intros j k Hjk. cbn [amb_uuid example_env]. lia. Qed.

(** An Agent that answers each request at once. *)
Definition example_answer (r : AgentInvocationRequest) : AgentInvocationResult :=
  mk_AgentInvocationResult (req_flow_run_id r) (req_invocation_id r) (req_agent_key r) R_COMPLETED
    (Some "done") TokenUsage_zero [] None None [].

Definition example_invoker : AgentInvoker InMemoryFlowRepository :=
  mk_AgentInvoker (fun r => mk_awaitable (ret (example_answer r)) (ret tt))
    (fun _ => mk_awaitable (throw (Exn ExRuntimeError "offline")) (ret tt)) None.

Lemma example_invoker_steady : invoker_steady example_env example_invoker.
Proof.
  constructor.
  - intros r Hr. apply flow_triple_ret. intros w _. split; [|split_and!; simpl; lia].
    apply checked_Ok in Hr as (Hr & _). apply checked_Ok. split_and!; [|done|done].
    unfold AgentInvocationRequest_fields in Hr. simpl. by reflect.
  - intros r _. by apply flow_triple_ret.
  - intros r _. apply flow_triple_throw.
  - intros r _. by apply flow_triple_ret.
  - discriminate.
Qed.

Definition example_input : FlowInput := mk_FlowInput "Write it." [].

Definition example_call : strategy_call := CallRun example_definition example_input (Some 7%N).

(** The status and output [run] returns. *)
Definition example_returned (o : option (sys InMemoryFlowRepository * outcome FlowResult))
  : option (RunStatus * option string) :=
  match o with
  | Some (_, Ok r) => Some (fres_status r, fres_output r)
  | _ => None
  end.

Lemma example_empty_runs : runs_ok (W := InMemoryFlowRepository) flow_repository_empty.
Proof. split; [exact example_empty_wf|]. intros rid s log Hv. discriminate Hv. Qed.

Lemma strategy_tells_stored_flow_witness :
  exists w' r s log, view (W := InMemoryFlowRepository) w' (fres_run_id r) = Some (s, log) /\
    flow_result s = Ok r /\ fres_status r = COMPLETED /\ fres_output r = Some "done".
Proof.
  assert (example_returned (strategy_exec example_env (fun _ => false) None example_invoker 2
            example_call (mk_sys flow_repository_empty 0)) = Some (COMPLETED, Some "done")) as Hrun
    by (vm_compute; reflexivity).
  destruct (strategy_tells_stored_flow (W := InMemoryFlowRepository) example_env (fun _ => false)
              None example_invoker 2 example_call flow_repository_empty 0 example_invoker_steady
              example_env_distinct (conj eq_refl (le_n 2)) example_empty_runs)
    as (st' & o & E & Hr & _ & Hq); [intros rid s log k Hv; discriminate Hv|].
  rewrite E in Hrun. destruct o as [r|e]; [|discriminate Hrun].
  injection Hrun as Hst Hout. destruct (Hq r eq_refl) as (s & log & Hv & Hs & _).
  exists (sys_w st'), r, s, log. split_and!; [exact Hv|exact Hs|exact Hst|exact Hout].
Defined.
End Example.
