(* ===== verification/SequentialRun.v ===== *)
(** * An undisturbed sequential run

    [SequentialFlowStrategy.run] ([src/base_agent/flows/sequential.py]) when
    no other task interferes, every Agent completes and no budget is
    configured: the Flow completes, having invoked every Agent once, in
    declaration order, each with the prompt and the handoff of its
    predecessor. *)

From Stdlib Require Import QArith.
From stdpp Require Import base gmap strings list.
From S2P Require Import Prelude Json Models Sha256 FlowModels FlowLifecycle FlowRepository FlowService FlowBudgets Program Sequential StrategyLogic.

(** ** Handoffs always construct *)

Lemma require_unique_ids_label {A} (get_id : A -> uuid) l a b :
  require_unique_ids get_id l a = Ok tt -> require_unique_ids get_id l b = Ok tt.
Proof. unfold require_unique_ids. by case_bool_decide. Qed.

Lemma handoff_total r :
  result_ok r -> exists h, handoff (Some r) = Ok (Some h) /\
    ho_source_agent_key h = ir_agent_key r /\ ho_artifacts h = ir_artifacts r /\
    ho_data h = ir_metadata r /\
    ho_summary h = (if falsy (ir_output r) then "Agent completed without textual output."
                    else default "" (ir_output r)).
Proof.
  intros [(Hk & Hv & _)%checked_Ok _]. unfold handoff.
  set (h := mk_AgentHandoff (ir_agent_key r)
       (if falsy (ir_output r) then "Agent completed without textual output."
        else default "" (ir_output r)) (ir_metadata r) (ir_artifacts r)).
  exists h. split; [|done].
  assert (require_unique_ids art_id (ir_artifacts r) "handoff Artifacts" = Ok tt) as Hu.
  { unfold AgentInvocationResult_validate in Hv.
    destruct (require_unique_ids _ _ _) as [[]|] eqn:E; [|done].
    by eapply require_unique_ids_label. }
  assert (AgentHandoff_new h = Ok h) as ->; [|done].
  apply checked_Ok. split_and!; [|exact Hu|done]. unfold AgentHandoff_fields, h. simpl.
  rewrite Hk. simpl. destruct (ir_output r) as [[|a o]|]; [done| |done]. simpl.
  apply Z.leb_le. unfold slen. simpl. lia.
Qed.

(** ** What an undisturbed run invokes *)

(** The request an invocation record was begun with. *)
Definition request_of (i : AgentInvocation) : AgentInvocationRequest :=
  mk_AgentInvocationRequest (inv_flow_run_id i) (inv_id i) (inv_sequence i) (inv_agent_key i)
    (inv_definition_id i) (inv_definition_version i) (inv_definition_fingerprint i) (inv_input i).

(** [chain answer input previous agents invocations last]: the invocations
    are one per Agent, in order; each was asked with the prompt and the
    handoff of the result before it, and completed with the Agent's answer to
    exactly that request. *)
Inductive chain (answer : AgentInvocationRequest -> AgentInvocationResult) (input : FlowInput)
  : option AgentInvocationResult -> list FlowAgent -> list AgentInvocation ->
    option AgentInvocationResult -> Prop :=
  | chain_nil previous : chain answer input previous [] [] previous
  | chain_snoc previous bs invs r b i h last :
      chain answer input previous bs invs r ->
      handoff r = Ok h ->
      inv_agent_key i = fa_key b ->
      inv_definition_id i = prof_id (ad_profile (fa_definition b)) ->
      inv_definition_version i = ad_version (fa_definition b) ->
      inv_input i = mk_AgentInvocationInput (fi_prompt input) h (fi_attachments input) ->
      inv_status i = COMPLETED ->
      inv_result i = Some last -> last = answer (request_of i) ->
      chain answer input previous (bs ++ [b]) (invs ++ [i]) (Some last).

Lemma chain_length answer input p bs invs l :
  chain answer input p bs invs l -> length invs = length bs.
Proof. induction 1; [done|]. rewrite !length_app. simpl. lia. Qed.

(** A count an Agent reports in its metadata. *)
Definition reported (key : string) (r : AgentInvocationResult) : Z :=
  match dget key (ir_metadata r) with Some v => default 0 (json_int v) | None => 0 end.

(** A completed answer to a request. *)
Record answers (r : AgentInvocationRequest) (a : AgentInvocationResult) : Prop := {
  an_ok : result_ok a;
  an_completed : ir_status a = R_COMPLETED;
  an_run : ir_flow_run_id a = req_flow_run_id r;
  an_invocation : ir_invocation_id a = req_invocation_id r;
  an_agent : ir_agent_key a = req_agent_key r;
  an_models : 0 <= reported "model_calls" a;
  an_tools : 0 <= reported "tool_calls" a;
}.

(** A sequential definition without optional limits, over Agents whose ids
    an [AgentInvocationRequest] admits. *)
Record plain_definition (d : FlowDefinition) : Prop := {
  pd_new : FlowDefinition_new d = Ok d;
  pd_strategy : fd_strategy d = "sequential";
  pd_budget : FlowBudget_fields (fd_budget d) = true;
  pd_limits : fd_budget d = mk_FlowBudget (max_invocations (fd_budget d)) None None None None None None;
  pd_room : Z.of_nat (length (fd_agents d)) <= max_invocations (fd_budget d);
  pd_agents : Forall (fun b => key_ok (prof_id (ad_profile (fa_definition b))) = true /\
                version_ok (ad_version (fa_definition b)) = true) (fd_agents d);
}.

Lemma fd_agent_lookup d n b :
  FlowDefinition_new d = Ok d -> fd_agents d !! n = Some b -> fd_agent d (fa_key b) = Ok (fa_definition b).
Proof.
  intros (_ & Hv & _)%checked_Ok Hb. unfold FlowDefinition_validate in Hv.
  destruct (bool_decide (NoDup _)) eqn:Hnd; [|done]. apply bool_decide_eq_true in Hnd. clear Hv.
  unfold fd_agent. revert n Hb Hnd. induction (fd_agents d) as [|a l IH]; intros n Hb Hnd; [done|].
  simpl. simpl in Hnd. apply NoDup_cons in Hnd as [Ha Hnd]. destruct n as [|n]; simpl in Hb.
  - injection Hb as ->. by rewrite bool_decide_eq_true_2.
  - case_bool_decide as Heq; [|by eapply IH].
    exfalso. apply Ha. rewrite Heq. apply list_elem_of_fmap. exists b.
    split; [done|]. by apply list_elem_of_lookup_2 in Hb.
Qed.

Lemma plain_agent_key d n b :
  plain_definition d -> fd_agents d !! n = Some b -> key_ok (fa_key b) = true.
Proof.
  intros Hd Hb. pose proof (pd_new d Hd) as Hn. apply checked_Ok in Hn as (Hf & _).
  unfold FlowDefinition_fields in Hf. reflect.
  match goal with Hx : forallb _ _ = true |- _ => rename Hx into Hall end.
  apply forallb_Forall_bool in Hall. rewrite Forall_forall in Hall.
  apply list_elem_of_lookup_2 in Hb. by apply Hall in Hb.
Qed.

(** ** One iteration *)

(** No optional limit is set: the budget lets every transport through. *)
Lemma unlimited_budget s now b :
  flow_inv s -> counts_ok s -> fr_deadline_at s = None ->
  fr_budget s = mk_FlowBudget (max_invocations (fr_budget s)) None None None None None None ->
  (b = true -> Z.of_nat (length (fr_invocations s)) < max_invocations (fr_budget s)) ->
  before_transport s now b = Ok None /\ after_transport s now = Ok None /\ remaining_seconds s now = None.
Proof.
  intros Hs Hc Hd Hb Hroom. destruct (consumption_spec s now Hs Hc) as (c & Hcon & Hk & _).
  unfold before_transport, after_transport, past_deadline, remaining_seconds.
  rewrite Hcon, Hd. simpl.
  assert (forall i, cumulative_violation i s c = None) as Hcum.
  { intros i. unfold cumulative_violation, configured. by rewrite Hb. }
  rewrite !Hcum. split_and!; [|done|done]. destruct b; [|done]. simpl.
  rewrite <-(Hk BK_INVOCATIONS) by (done || by left). simpl.
  rewrite (proj2 (Z.leb_gt _ _)) by (specialize (Hroom eq_refl); lia). done.
Qed.

(** The two transitions of an iteration, computed. *)
Lemma flow_begin_total `{FloatRepr} amb d r s b n :
  flow_inv s -> fr_status s = RUNNING -> fr_active_invocation_id s = None ->
  require_definition s d = Ok tt -> FlowDefinition_new d = Ok d ->
  fd_agents d !! n = Some b -> n = length (fr_invocations s) ->
  Z.of_nat n < max_invocations (fr_budget s) ->
  req_flow_run_id r = fr_run_id s -> req_sequence r = Z.of_nat n + 1 -> req_agent_key r = fa_key b ->
  req_definition_id r = prof_id (ad_profile (fa_definition b)) ->
  req_definition_version r = ad_version (fa_definition b) ->
  req_definition_fingerprint r = AgentDefinition_fingerprint (fa_definition b) ->
  flow_begin amb d r s = Ok (evolve (amb_now amb 2) s RUNNING
    (fr_invocations s ++ [mk_AgentInvocation (req_invocation_id r) (fr_run_id s) (req_sequence r)
       (req_agent_key r) (req_definition_id r) (req_definition_version r)
       (req_definition_fingerprint r) (req_input r) RUNNING None (amb_now amb 0) (amb_now amb 1)])
    (Some (req_invocation_id r)) (fr_output s) (fr_error s)).
Proof.
  intros Hs Hst Ha Hd Hn Hb Hlen Hroom Hr1 Hr2 Hr3 Hr4 Hr5 Hr6. unfold flow_begin.
  rewrite Hst, Ha, Hd, Hr1, Hr2, <-Hlen, !bool_decide_eq_true_2 by done. simpl.
  rewrite Z.eqb_refl. simpl. rewrite (proj2 (Z.ltb_ge _ _)) by lia.
  rewrite Hr3, (fd_agent_lookup d n b Hn Hb), Hr4, Hr5, Hr6, !bool_decide_eq_true_2 by done. simpl.
  match goal with |- context [AgentInvocation_new ?i] => set (i0 := i) end.
  assert (AgentInvocation_new i0 = Ok i0) as ->; [|done].
  apply checked_Ok. split_and!; [|done|done]. unfold AgentInvocation_fields. simpl.
  rewrite AgentDefinition_fingerprint_ok. rewrite (proj2 (Z.leb_le _ _)) by lia. done.
Qed.

Lemma flow_settle_total amb a s l i :
  flow_inv s -> fr_invocations s = l ++ [i] -> fr_active_invocation_id s = Some (inv_id i) ->
  fr_status s = RUNNING -> ir_status a = R_COMPLETED ->
  ir_flow_run_id a = inv_flow_run_id i -> ir_invocation_id a = inv_id i ->
  ir_agent_key a = inv_agent_key i -> inv_status i = RUNNING ->
  flow_settle amb a s = Ok (evolve (amb_now amb 1) s RUNNING
    (l ++ [inv_with i COMPLETED (Some a) (amb_now amb 0)]) None (fr_output s) (fr_error s)).
Proof.
  intros Hs Hl Ha Hst Hc Hr1 Hr2 Hr3 Hi. unfold flow_settle.
  rewrite Hst, bool_decide_eq_true_2 by by left. simpl.
  rewrite (active_invocation_last s l i Hl (fv_ids _ Hs) Ha).
  unfold inv_settle. rewrite Hi, bool_decide_eq_true_2 by by left. simpl.
  assert (validate_result_identity i a = Ok tt) as -> by by apply validate_result_identity_Ok.
  rewrite Hc. simpl. by rewrite Hl, replace_last by first [done | exact (ids_before_last _ _ _ Hs Hl)].
Qed.

Section Undisturbed.
Context `{FloatRepr} {W : Type} `{FlowRepositoryLaws W}.
Variable env : nat -> ambient.
Variable expires : nat -> bool.
Variable lease : option FlowExecutionLease.
Variable invoker : AgentInvoker W.
Variable answer : AgentInvocationRequest -> AgentInvocationResult.
Variable d : FlowDefinition.
Variable input : FlowInput.
Variable rid : uuid.

(** Awaiting the invoker changes nothing and returns the Agent's answer. *)
Definition answered : Prop :=
  forall r, request_ok r ->
    answers r (answer r) /\
    forall st, aw_run (invoker_invoke invoker r) st = Some (st, Ok (answer r)).

Context (Hinvoker : answered) (Hplain : plain_definition d) (Hinput : FlowInput_new input = Ok input)
  (Huuids : uuids_distinct env).

(** The loop's state between two iterations. *)
Record running (n : nat) (w : W) (s : FlowRunState) (previous : option AgentInvocationResult) : Prop := {
  rn_wf : repo_wf w;
  rn_view : exists log, view w rid = Some (s, log);
  rn_id : fr_run_id s = rid;
  rn_inv : flow_inv s;
  rn_status : fr_status s = RUNNING;
  rn_active : fr_active_invocation_id s = None;
  rn_definition : require_definition s d = Ok tt;
  rn_budget : fr_budget s = fd_budget d;
  rn_deadline : fr_deadline_at s = None;
  rn_chain : chain answer input None (take (length (fr_invocations s)) (fd_agents d))
               (fr_invocations s) previous;
  rn_previous : forall r, previous = Some r -> result_ok r;
  rn_counts : Forall (fun i => 0 <= result_count "model_calls" i /\ 0 <= result_count "tool_calls" i)
                (fr_invocations s);
  rn_fresh : forall k, (n <= k)%nat -> amb_uuid (env k) 0 ∉ map inv_id (fr_invocations s);
  rn_write : forall t, lease_valid lease rid t w;
}.

Lemma counts_of s :
  Forall (fun i => 0 <= result_count "model_calls" i /\ 0 <= result_count "tool_calls" i)
    (fr_invocations s) -> counts_ok s.
Proof.
  unfold counts_ok, model_call_count, tool_call_count. induction 1; simpl; lia.
Qed.

(** A service call the aggregate allows, within the strategy. *)
Lemma service_step n w s log (c : ambient -> svc_call) s' :
  repo_wf w -> view w rid = Some (s, log) -> fr_run_id s = rid -> flow_inv s ->
  svc_amb (c (env n)) = env n ->
  op_ok (svc_op (c (env n))) s -> flow_apply (svc_op (c (env n))) s = Ok s' ->
  (forall t, lease_valid lease rid t w) ->
  exists w', svc env (fun amb => svc_exec lease rid (c amb)) (mk_sys w n) = Some (mk_sys w' (S n), Ok s') /\
    repo_wf w' /\ (exists log', view w' rid = Some (s', log')) /\ fr_run_id s' = rid /\ flow_inv s' /\
    (forall t, lease_valid lease rid t w').
Proof.
  intros Hw Hv Hid Hs Hamb Hop Happ Hl.
  destruct (svc_exec_total lease rid (c (env n)) w s s' log Hw Hv Hid Hs Hop Happ (Hl _)) as [w' Hx].
  exists w'. unfold svc. simpl. rewrite Hx. split; [done|].
  destruct (svc_exec_Ok lease rid (c (env n)) w w' s s' log Hw Hv Hid Hs Hop Hx)
    as [_ (Hw' & (es & Hv' & _) & _ & Hm)].
  destruct (flow_apply_inv _ _ _ Hs Hop Happ) as [Hs' (_ & (Hid' & _) & _)].
  split_and!; [done|by eexists|congruence|done|].
  intros t. destruct (Hl t) as (token & Htok & Hw1). exists token. by rewrite Hm.
Qed.

Lemma handoff_of_previous n w s previous :
  running n w s previous -> exists h, handoff previous = Ok h.
Proof.
  intros Hs. destruct previous as [p|]; [|by eexists].
  destruct (handoff_total p (rn_previous _ _ _ _ Hs p eq_refl)) as (h & -> & _). by eexists.
Qed.

(** The request [begin_next] builds. *)
Definition next_request (s : FlowRunState) (b : FlowAgent) (h : option AgentHandoff) (id : uuid)
  : AgentInvocationRequest :=
  mk_AgentInvocationRequest (fr_run_id s) id (Z.of_nat (length (fr_invocations s)) + 1) (fa_key b)
    (prof_id (ad_profile (fa_definition b))) (ad_version (fa_definition b))
    (AgentDefinition_fingerprint (fa_definition b))
    (mk_AgentInvocationInput (fi_prompt input) h (fi_attachments input)).

Lemma next_request_ok s b h id k :
  fd_agents d !! k = Some b -> request_ok (next_request s b h id).
Proof.
  intros Hb. apply checked_Ok. split_and!; [|done|done]. unfold AgentInvocationRequest_fields. simpl.
  rewrite (proj2 (Z.leb_le _ _)) by lia. rewrite (plain_agent_key d k b Hplain Hb).
  pose proof (pd_agents _ Hplain) as Ha. rewrite Forall_forall in Ha.
  destruct (Ha b) as [-> ->]; [by apply list_elem_of_lookup_2 in Hb|].
  by rewrite AgentDefinition_fingerprint_ok.
Qed.

(** [begin_next] begins the next Agent's invocation. *)
Lemma begin_step n w s previous b :
  running n w s previous -> fd_agents d !! length (fr_invocations s) = Some b ->
  exists w' s1 h, handoff previous = Ok h /\
    let r := next_request s b h (amb_uuid (env n) 0) in
    begin_next env lease d s input previous b (mk_sys w n) = Some (mk_sys w' (S (S n)), Ok (s1, r)) /\
    repo_wf w' /\ (exists log', view w' rid = Some (s1, log')) /\ fr_run_id s1 = rid /\ flow_inv s1 /\
    (forall t, lease_valid lease rid t w') /\
    exists c1 c2, s1 = evolve (amb_now (env (S n)) 2) s RUNNING
      (fr_invocations s ++ [mk_AgentInvocation (req_invocation_id r) (fr_run_id s) (req_sequence r)
         (req_agent_key r) (req_definition_id r) (req_definition_version r)
         (req_definition_fingerprint r) (req_input r) RUNNING None c1 c2])
      (Some (req_invocation_id r)) (fr_output s) (fr_error s).
Proof.
  intros Hs Hb. destruct (handoff_of_previous _ _ _ _ Hs) as [h Hh].
  set (r := next_request s b h (amb_uuid (env n) 0)).
  assert (request_ok r) as Hreq by by eapply next_request_ok.
  destruct (rn_view _ _ _ _ Hs) as [log Hv].
  assert (Z.of_nat (length (fr_invocations s)) < max_invocations (fr_budget s)) as Hroom.
  { rewrite (rn_budget _ _ _ _ Hs). pose proof (pd_room _ Hplain). apply lookup_lt_Some in Hb. lia. }
  pose proof (flow_begin_total (env (S n)) d r s b _ (rn_inv _ _ _ _ Hs) (rn_status _ _ _ _ Hs)
    (rn_active _ _ _ _ Hs) (rn_definition _ _ _ _ Hs) (pd_new _ Hplain) Hb eq_refl Hroom
    eq_refl eq_refl eq_refl eq_refl eq_refl eq_refl) as Hbegin.
  destruct (service_step (S n) w s log (fun amb => SvcBegin amb r d) _ (rn_wf _ _ _ _ Hs) Hv
    (rn_id _ _ _ _ Hs) (rn_inv _ _ _ _ Hs) eq_refl
    (conj Hreq (rn_fresh _ _ _ _ Hs n (le_n n))) Hbegin (rn_write _ _ _ _ Hs))
    as (w' & E & Hw' & Hv' & Hid' & Hs' & Hl').
  eexists w', _, h. split; [done|]. split; [|split_and!; [done|exact Hv'|exact Hid'|exact Hs'|done|]].
  - unfold begin_next. unfold bind at 1, of_outcome at 1. rewrite Hh.
    assert (AgentInvocationInput_new
      (mk_AgentInvocationInput (fi_prompt input) h (fi_attachments input))
      = Ok (mk_AgentInvocationInput (fi_prompt input) h (fi_attachments input))) as Hin.
    { pose proof Hinput as (Hi1 & Hi2 & _)%checked_Ok. apply checked_Ok. split_and!; [exact Hi1| |done].
      by eapply require_unique_ids_label. }
    unfold bind at 1, of_outcome at 1. rewrite Hin. unfold bind at 1, new_uuid at 1. simpl sys_tick.
    unfold bind at 1, of_outcome at 1. fold (next_request s b h (amb_uuid (env n) 0)). fold r.
    rewrite Hreq. unfold bind. simpl sys_w.
    change (svc env (fun amb => svc_begin lease amb (fr_run_id s) r d))
      with (svc env (fun amb => svc_exec lease (fr_run_id s) (SvcBegin amb r d))).
    rewrite <-(rn_id _ _ _ _ Hs) in E. by rewrite E.
  - by eexists _, _.
Qed.

Lemma running_later n m w s previous :
  (n <= m)%nat -> running n w s previous -> running m w s previous.
Proof. intros Hnm []. constructor; try done. intros k Hk. apply rn_fresh0. lia. Qed.

(** The invocation [begin_next] records. *)
Definition begun (r : AgentInvocationRequest) (c1 c2 : time) : AgentInvocation :=
  mk_AgentInvocation (req_invocation_id r) (req_flow_run_id r) (req_sequence r)
    (req_agent_key r) (req_definition_id r) (req_definition_version r)
    (req_definition_fingerprint r) (req_input r) RUNNING None c1 c2.

Lemma chain_next s previous b h r a c1 c2 t :
  fd_agents d !! length (fr_invocations s) = Some b ->
  chain answer input None (take (length (fr_invocations s)) (fd_agents d)) (fr_invocations s) previous ->
  handoff previous = Ok h -> r = next_request s b h (inv_id (begun r c1 c2)) -> a = answer r ->
  chain answer input None (take (S (length (fr_invocations s))) (fd_agents d))
    (fr_invocations s ++ [inv_with (begun r c1 c2) COMPLETED (Some a) t]) (Some a).
Proof.
  intros Hb Hc Hh Hr ->. rewrite (take_S_r _ _ _ Hb).
  apply chain_snoc with (r := previous) (h := h); simpl; try done; by rewrite Hr.
Qed.

Lemma running_budget n w s previous now :
  running n w s previous ->
  ((length (fr_invocations s) < length (fd_agents d))%nat -> before_transport s now true = Ok None) /\
  after_transport s now = Ok None.
Proof.
  intros Hs. pose proof (counts_of _ (rn_counts _ _ _ _ Hs)) as Hc.
  assert (fr_budget s = mk_FlowBudget (max_invocations (fr_budget s)) None None None None None None)
    as Hb by (rewrite (rn_budget _ _ _ _ Hs); apply (pd_limits _ Hplain)).
  split.
  - intros Hlt. apply unlimited_budget; [apply (rn_inv _ _ _ _ Hs)|done|apply (rn_deadline _ _ _ _ Hs)|done|].
    intros _. rewrite (rn_budget _ _ _ _ Hs). pose proof (pd_room _ Hplain). lia.
  - apply (unlimited_budget s now false); [apply (rn_inv _ _ _ _ Hs)|done|apply (rn_deadline _ _ _ _ Hs)|done|done].
Qed.

(** One iteration of the loop appends one completed invocation. *)
Lemma advance_step fuel n w s previous b :
  running n w s previous -> fd_agents d !! length (fr_invocations s) = Some b ->
  exists n' w' s' r, running n' w' s' (Some r) /\
    length (fr_invocations s') = S (length (fr_invocations s)) /\
    advance env expires lease invoker (S fuel) d s input previous (mk_sys w n)
      = advance env expires lease invoker fuel d s' input (Some r) (mk_sys w' n').
Proof.
  intros Hs Hb.
  destruct (begin_step (S n) w s previous b (running_later n (S n) _ _ _ (le_S _ _ (le_n n)) Hs) Hb)
    as (w1 & s1 & h & Hh & E1 & Hw1 & [log1 Hv1] & Hid1 & Hs1 & Hl1 & c1 & c2 & Hs1eq).
  set (r := next_request s b h (amb_uuid (env (S n)) 0)) in *.
  assert (request_ok r) as Hreq by by eapply next_request_ok.
  destruct (Hinvoker r Hreq) as [Ha Hrun]. set (i := begun r c1 c2).
  assert (fr_invocations s1 = fr_invocations s ++ [i]) as Hinv1 by by rewrite Hs1eq.
  pose proof (flow_settle_total (env (S (S (S (S n))))) (answer r) s1 (fr_invocations s) i Hs1 Hinv1
    ltac:(by rewrite Hs1eq) ltac:(by rewrite Hs1eq) (an_completed _ _ Ha) (an_run _ _ Ha)
    (an_invocation _ _ Ha) (an_agent _ _ Ha) eq_refl) as Hsettle.
  destruct (service_step (S (S (S (S n)))) w1 s1 log1 (fun amb => SvcSettle amb (answer r)) _ Hw1 Hv1
    Hid1 Hs1 eq_refl (an_ok _ _ Ha) Hsettle Hl1) as (w2 & E2 & Hw2 & Hv2 & Hid2 & Hs2 & Hl2).
  set (s2 := evolve _ s1 RUNNING _ _ _ _) in *.
  assert (running (S (S (S (S (S (S n)))))) w2 s2 (Some (answer r))) as Hr2.
  { constructor; try done.
    - unfold s2. simpl. rewrite Hs1eq. simpl. apply (rn_definition _ _ _ _ Hs).
    - unfold s2. simpl. rewrite Hs1eq. apply (rn_budget _ _ _ _ Hs).
    - unfold s2. simpl. rewrite Hs1eq. apply (rn_deadline _ _ _ _ Hs).
    - unfold s2. simpl. rewrite length_app, Nat.add_1_r.
      by apply (chain_next s previous b h r _ c1 c2 _ Hb (rn_chain _ _ _ _ Hs) Hh eq_refl eq_refl).
    - intros x [= <-]. apply (an_ok _ _ Ha).
    - unfold s2. simpl. apply Forall_app. split; [apply (rn_counts _ _ _ _ Hs)|].
      apply Forall_singleton. split; [apply (an_models _ _ Ha)|apply (an_tools _ _ Ha)].
    - intros k Hk. unfold s2. simpl. rewrite map_app. simpl. intros [Hin|Hin]%elem_of_app.
      + eapply (rn_fresh _ _ _ _ Hs k); [lia|done].
      + apply list_elem_of_singleton in Hin. symmetry in Hin. revert Hin. apply Huuids. lia. }
  exists (S (S (S (S (S (S n)))))), w2, s2, (answer r). split; [done|].
  split; [unfold s2; simpl; rewrite length_app; simpl; lia|].
  assert (fr_deadline_at s1 = None) as Hd1 by (rewrite Hs1eq; apply (rn_deadline _ _ _ _ Hs)).
  cbn [advance]. rewrite Hb.
  erewrite bind_Ok by reflexivity. cbn [sys_w sys_tick].
  destruct (running_budget _ _ _ _ (amb_clock (env n)) Hs) as (Hbefore & _).
  rewrite Hbefore by by apply lookup_lt_Some in Hb.
  erewrite bind_Ok by reflexivity. cbv beta iota. erewrite bind_Ok by exact E1. cbn [fst snd].
  rewrite (bind_Ok _ _ _ (mk_sys w2 (S (S (S (S (S (S n))))))) (inr (s2, answer r))); [done|].
  unfold settle_transport.
  erewrite bind_Ok.
  2: { apply try_Ok. erewrite bind_Ok; [reflexivity|]. unfold within_deadline.
       erewrite bind_Ok by reflexivity. unfold remaining_seconds. rewrite Hd1. apply Hrun. }
  cbv beta iota.
  erewrite bind_Ok.
  2: { apply try_Ok. erewrite bind_Ok; [reflexivity|]. rewrite Hid1. exact E2. }
  cbv beta iota.
  erewrite bind_Ok by reflexivity. cbn [sys_w sys_tick].
  destruct (running_budget _ _ _ _ (amb_clock (env (S (S (S (S (S n))))))) Hr2) as (_ & Hafter).
  rewrite Hafter. erewrite bind_Ok by reflexivity. cbv beta iota.
  rewrite (bind_Ok _ _ _ (mk_sys w2 (S (S (S (S (S (S n))))))) None); [done|].
  unfold handle_outcome. by rewrite (an_completed _ _ Ha).
Qed.

Lemma chain_completed p bs invs l :
  chain answer input p bs invs l -> Forall (fun i => inv_status i = COMPLETED) invs.
Proof. induction 1; [done|]. apply Forall_app. split; [done|]. by apply Forall_singleton. Qed.

Lemma chain_last p bs invs l :
  chain answer input p bs invs l -> bs <> [] -> exists r, l = Some r.
Proof. destruct 1; [done|]. intros _. by eexists. Qed.

(** A completed Flow has a result. *)
Lemma completed_result s :
  flow_inv s -> fr_status s = COMPLETED -> counts_ok s ->
  exists r, flow_result s = Ok r /\ fres_status r = COMPLETED /\ fres_output r = fr_output s.
Proof.
  intros Hs Hst [Hm Ht]. destruct (fv_completed _ Hs Hst) as (_ & He & _).
  unfold flow_result. rewrite Hst. destruct (flow_usage_spec s Hs) as (u & -> & _).
  rewrite bool_decide_eq_false_2 by done.
  match goal with |- context [FlowResult_new ?x] => set (r := x) end.
  assert (FlowResult_new r = Ok r) as ->; [|by eexists].
  apply checked_Ok. split_and!; [|unfold FlowResult_validate; simpl; by rewrite He|done].
  simpl. rewrite !andb_true_iff, !Z.leb_le. lia.
Qed.

(** The end of the loop. *)
Lemma advance_end fuel n w s r :
  running n w s (Some r) -> length (fr_invocations s) = length (fd_agents d) -> fd_agents d <> [] ->
  exists st' res s' log, advance env expires lease invoker fuel d s input (Some r) (mk_sys w n)
      = Some (st', Ok res) /\
    view (sys_w st') rid = Some (s', log) /\ flow_result s' = Ok res /\ fres_status res = COMPLETED /\
    fres_output res = Some (default "" (ir_output r)) /\ fr_invocations s' = fr_invocations s.
Proof.
  intros Hs Hlen Hne. destruct (rn_view _ _ _ _ Hs) as [log Hv].
  assert (fr_invocations s <> []) as Hinv.
  { intros Hnil. rewrite Hnil in Hlen. by destruct (fd_agents d). }
  assert (flow_complete (amb_now (env n) 0) (default "" (ir_output r)) s
    = Ok (evolve (amb_now (env n) 0) s COMPLETED (fr_invocations s) (fr_active_invocation_id s)
            (Some (default "" (ir_output r))) None)) as Hcomplete.
  { unfold flow_complete. rewrite (rn_status _ _ _ _ Hs), (rn_active _ _ _ _ Hs), bool_decide_eq_true_2 by done.
    simpl. rewrite bool_decide_eq_false_2 by by destruct (fr_invocations s).
    rewrite (proj2 (existsb_false_Forall _ _)); [done|].
    eapply Forall_impl; [exact (chain_completed _ _ _ _ (rn_chain _ _ _ _ Hs))|].
    intros i Hi. simpl. by rewrite bool_decide_eq_true_2. }
  destruct (service_step n w s log (fun amb => SvcComplete amb (default "" (ir_output r))) _
    (rn_wf _ _ _ _ Hs) Hv (rn_id _ _ _ _ Hs) (rn_inv _ _ _ _ Hs) eq_refl I Hcomplete
    (rn_write _ _ _ _ Hs)) as (w' & E & _ & [log' Hv'] & _ & Hs' & _).
  destruct (completed_result _ Hs' eq_refl) as (res & Hres & Hst & Hout);
    [apply (counts_of _ (rn_counts _ _ _ _ Hs))|].
  exists (mk_sys w' (S n)), res. eexists _, log'. split_and!; [|exact Hv'|exact Hres|exact Hst|exact Hout|done].
  rewrite <-(rn_id _ _ _ _ Hs) in E.
  assert (fd_agents d !! length (fr_invocations s) = None) as Hnone
    by (apply lookup_ge_None; lia).
  destruct fuel; cbn [advance]; rewrite Hnone; (erewrite bind_Ok by exact E);
    unfold of_outcome; by rewrite Hres.
Qed.

Lemma advance_completes fuel : forall n w s previous,
  running n w s previous -> fd_agents d <> [] ->
  (length (fr_invocations s) <= length (fd_agents d) <= fuel + length (fr_invocations s))%nat ->
  exists st' res s' log last, advance env expires lease invoker fuel d s input previous (mk_sys w n)
      = Some (st', Ok res) /\
    view (sys_w st') rid = Some (s', log) /\ flow_result s' = Ok res /\ fres_status res = COMPLETED /\
    fres_output res = Some (default "" (ir_output last)) /\
    chain answer input None (fd_agents d) (fr_invocations s') (Some last).
Proof.
  induction fuel as [|fuel IH]; intros n w s previous Hs Hne Hfuel;
    destruct (fd_agents d !! length (fr_invocations s)) as [b|] eqn:Hb.
  1: apply lookup_lt_Some in Hb; lia.
  2: { destruct (advance_step fuel n w s previous b Hs Hb) as (n' & w' & s' & r & Hs' & Hlen & ->).
       apply IH; [done|done|]. apply lookup_lt_Some in Hb. lia. }
  all: apply lookup_ge_None in Hb.
  all: pose proof (rn_chain _ _ _ _ Hs) as Hc; rewrite take_ge in Hc by lia.
  all: destruct (chain_last _ _ _ _ Hc Hne) as [r ->].
  all: assert (length (fr_invocations s) = length (fd_agents d)) as Heq by lia.
  all: match goal with |- context [advance _ _ _ _ ?f] => destruct (advance_end f n w s r Hs Heq Hne)
    as (st' & res & s' & log & E & Hv & Hres & Hst & Hout & Hinv) end.
  all: eexists st', res, s', log, r; split_and!; [exact E|done|done|done|done|by rewrite Hinv].
Qed.

(** The start of a run. *)
Lemma run_starts fuel n w :
  repo_wf w -> view w rid = None -> (forall t, lease_valid lease rid t w) ->
  exists w' s, running (S (S (S n))) w' s None /\ fr_invocations s = [] /\
    seq_run env expires lease invoker fuel d input (Some rid) (mk_sys w n)
      = advance env expires lease invoker fuel d s input None (mk_sys w' (S (S (S n)))).
Proof.
  intros Hw Hv Hl.
  destruct (flow_create_total (env (S n)) d (Some rid) (Some (amb_clock (env n))) (pd_budget _ Hplain))
    as [s0 Hs0].
  pose proof (flow_create_inv _ _ _ _ _ (pd_budget _ Hplain) Hs0) as Hinv0.
  pose proof Hs0 as Heq. apply checked_Ok in Heq as (_ & _ & Heq).
  assert (exists w1, svc_create (env (S n)) d (Some rid) (Some (amb_clock (env n))) w = Ok (w1, s0) /\
    repo_wf w1 /\ (exists log, view w1 rid = Some (s0, log)) /\ (forall t, lease_valid lease rid t w1))
    as (w1 & E1 & Hw1 & [log1 Hv1] & Hl1).
  { unfold svc_create. rewrite Hs0.
    match goal with |- context [frepo_create ?a s0 ?dr w] =>
      destruct (law_create_fresh a s0 dr w Hw) as [[w1 es] E] end;
      [by rewrite Heq|done|by rewrite Heq|].
    rewrite E. exists w1. split; [done|].
    destruct (law_create _ _ _ _ _ _ Hw E) as (Hw1 & _ & _ & _ & Hv1 & _ & _ & Hm).
    assert (fr_run_id s0 = rid) as Hrid by by rewrite Heq.
    rewrite Hrid in *. split_and!; [done|by eexists|].
    intros t. destruct (Hl t) as (token & Htok & Ht). exists token. by rewrite Hm. }
  assert (flow_start (amb_now (env (S (S n))) 0) s0
    = Ok (evolve (amb_now (env (S (S n))) 0) s0 RUNNING [] None None None)) as Hstart.
  { unfold flow_start. by rewrite Heq. }
  assert (fr_run_id s0 = rid) as Hid0 by by rewrite Heq.
  destruct (service_step (S (S n)) w1 s0 log1 SvcStart _ Hw1 Hv1 Hid0 Hinv0 eq_refl I Hstart Hl1)
    as (w2 & E2 & Hw2 & Hv2 & Hid2 & Hinv2 & Hl2).
  exists w2, (evolve (amb_now (env (S (S n))) 0) s0 RUNNING [] None None None).
  split; [|split; [reflexivity|]].
  - constructor; [done|exact Hv2|exact Hid2|exact Hinv2|done|done| | | | |done|done| |done]; simpl.
    + unfold require_definition. by rewrite Heq, !bool_decide_eq_true_2.
    + by rewrite Heq.
    + rewrite Heq. simpl. by rewrite (pd_limits _ Hplain).
    + constructor.
    + intros k _. apply not_elem_of_nil.
  - unfold seq_run. erewrite bind_Ok.
    2: { unfold require_supported. rewrite (pd_strategy _ Hplain), bool_decide_eq_true_2 by done.
         reflexivity. }
    erewrite bind_Ok by reflexivity. cbn [sys_w sys_tick].
    rewrite (bind_Ok _ _ _ (mk_sys w1 (S (S n))) s0) by (unfold svc; cbn [sys_w sys_tick]; by rewrite E1).
    rewrite <-Hid0 in E2. by erewrite bind_Ok by exact E2.
Qed.
End Undisturbed.

(** ** Property *)

(** C28: an undisturbed sequential run completes.  When every await on the
    invoker returns the Agent's completed answer, the definition is plain (no
    call, token, cost or time budget, [max_invocations] with room for every
    Agent, profile ids and versions that a request accepts), the drawn uuids
    differ and the lease admits the writes, [run] of a new id returns a
    completed result with fuel for one iteration per Agent: the stored Flow has
    exactly one invocation per Agent of the definition, in declaration
    order, each begun with the Flow's prompt and attachments and the handoff
    made from its predecessor's result (none for the first), each completed
    with its Agent's answer to exactly that request; the output is the last
    Agent's. *)
Theorem sequential_run_completes `{FloatRepr} `{FlowRepositoryLaws W} env expires lease
  (invoker : AgentInvoker W) answer d input rid w n :
  answered invoker answer -> plain_definition d -> FlowInput_new input = Ok input ->
  uuids_distinct env -> repo_wf w -> view w rid = None -> (forall t, lease_valid lease rid t w) ->
  exists st' res s log last,
    seq_run env expires lease invoker (length (fd_agents d)) d input (Some rid) (mk_sys w n)
      = Some (st', Ok res) /\
    view (sys_w st') rid = Some (s, log) /\ flow_result s = Ok res /\ fres_status res = COMPLETED /\
    fres_output res = Some (default "" (ir_output last)) /\
    chain answer input None (fd_agents d) (fr_invocations s) (Some last).
Proof.
  intros Hinv Hd Hin Hdis Hw Hv Hl.
  destruct (run_starts env expires lease invoker answer d input rid Hd (length (fd_agents d)) n w Hw Hv Hl)
    as (w' & s & Hs & Hnil & ->).
  apply (advance_completes env expires lease invoker answer d input rid Hinv Hd Hin Hdis) with (1 := Hs).
  - pose proof (pd_new d Hd) as (Hf & _)%checked_Ok. intros Hne. unfold FlowDefinition_fields in Hf.
    by rewrite Hne, andb_false_r in Hf.
  - rewrite Hnil. simpl. lia.
Qed.

Section Example.
#[local] Existing Instance example_float.

Definition plain_example : FlowDefinition :=
  mk_FlowDefinition "report" "1.0.0"
    [mk_FlowAgent "writer" (example_agent "writer"); mk_FlowAgent "editor" (example_agent "editor")]
    "sequential" (mk_FlowBudget 5 None None None None None None) [].

Lemma plain_example_ok : plain_definition plain_example.
Proof.
  constructor; try (vm_compute; reflexivity); [vm_compute; discriminate|].
  repeat constructor.
Qed.

Lemma example_answered : answered example_invoker example_answer.
Proof.
  intros r Hr. split; [|done]. constructor; try done. split; [|split_and!; simpl; lia].
  apply checked_Ok in Hr as (Hr & _). apply checked_Ok. split_and!; [|done|done].
  unfold AgentInvocationRequest_fields in Hr. simpl. by reflect.
Qed.

Lemma sequential_run_completes_witness :
  exists st' res s log last,
    seq_run example_env (fun _ => false) None example_invoker 2 plain_example example_input (Some 7%N)
      (mk_sys flow_repository_empty 0) = Some (st', Ok res) /\
    view (W := InMemoryFlowRepository) (sys_w st') 7%N = Some (s, log) /\ flow_result s = Ok res /\
    fres_status res = COMPLETED /\ fres_output res = Some (default "" (ir_output last)) /\
    chain example_answer example_input None (fd_agents plain_example) (fr_invocations s) (Some last).
Proof.
  exact (sequential_run_completes (W := InMemoryFlowRepository) example_env (fun _ => false) None
    example_invoker example_answer plain_example example_input 7%N flow_repository_empty 0
    example_answered plain_example_ok eq_refl example_env_distinct example_empty_wf eq_refl
    (fun t => ex_intro _ None (conj eq_refl eq_refl))).
Defined.
End Example.

(** ** Two ways a Flow stays marked running *)

Section Stranded.
#[local] Existing Instance example_float.

Definition waiting_answer (r : AgentInvocationRequest) : AgentInvocationResult :=
  mk_AgentInvocationResult (req_flow_run_id r) (req_invocation_id r) (req_agent_key r) R_WAITING
    None TokenUsage_zero [] (Some example_pending) None [].

Definition waiting_invoker : AgentInvoker InMemoryFlowRepository :=
  mk_AgentInvoker (fun r => mk_awaitable (ret (waiting_answer r)) (ret tt))
    (fun _ => mk_awaitable (throw (Exn ExRuntimeError "offline")) (ret tt)) None.

Definition run_then (d : FlowDefinition) : sys InMemoryFlowRepository :=
  match seq_run example_env (fun _ => false) None waiting_invoker 2 d example_input (Some 7%N)
          (mk_sys flow_repository_empty 0) with
  | Some (st, _) => st
  | None => mk_sys flow_repository_empty 0
  end.

(** The error class of a call and the status it leaves Run 7 in. *)
Definition stranded {A} (p : option (sys InMemoryFlowRepository * outcome A))
  : option (exn_class * RunStatus) :=
  match p with
  | Some (st, Raise e) => Some (exn_cls e, on_Ok (fm_get 7%N (sys_w st)) fr_status CREATED)
  | _ => None
  end.

(** [_resume_waiting] commits [resume_invocation] before it builds the
    [AgentInvocationResume]: an empty user input raises after the commit and
    leaves the waiting Flow running, with nobody executing it. *)
Example resume_empty_input_strands_flow :
  on_Ok (fm_get 7%N (sys_w (run_then plain_example))) fr_status CREATED = WAITING /\
  stranded (seq_resume example_env (fun _ => false) None waiting_invoker 2 plain_example 7%N ""
              (run_then plain_example)) = Some (ValidationError, RUNNING).
Proof. split; vm_compute; reflexivity. Qed.

(** [AgentProfile] admits an id that [AgentInvocationRequest] refuses: the
    definition is accepted, its run raises and leaves the Flow running. *)
Definition dashed_definition : FlowDefinition :=
  mk_FlowDefinition "report" "1.0.0" [mk_FlowAgent "writer" (example_agent "-writer")]
    "sequential" (mk_FlowBudget 5 None None None None None None) [].

Example dashed_agent_id_strands_flow :
  AgentDefinition_fields (example_agent "-writer") = true /\
  FlowDefinition_new dashed_definition = Ok dashed_definition /\
  stranded (seq_run example_env (fun _ => false) None waiting_invoker 2 dashed_definition
              example_input (Some 7%N) (mk_sys flow_repository_empty 0))
    = Some (ValidationError, RUNNING).
Proof. split_and!; vm_compute; reflexivity. Qed.
End Stranded.
