(* ===== verification/Runtime.v ===== *)
(** * The state of one execution
    ([src/base_agent/runtime/context.py], [runtime/checkpoint.py],
    [runtime/persistence.py], [skills/models.py], [resources/models.py],
    [models/memory.py])

    [RuntimeContext] is the mutable state of one Run's execution and
    [RuntimeCheckpoint] its snapshot at a waiting boundary.  [World] is what
    a running execution can reach: its context, the stores, and the rest of
    the process. *)

From Stdlib Require Import QArith.
From stdpp Require Import base gmap strings list.
From S2P Require Import Prelude Json Models Sha256 Plan StateMachine ConversationStore RunStore EventStore FlowModels Program Serial.

(** ** Skills *)

Definition is_digit (a : Ascii.ascii) : bool :=
  let n := Ascii.N_of_ascii a in ((48 <=? n) && (n <=? 57))%N.
Definition is_lower_alnum (a : Ascii.ascii) : bool :=
  let n := Ascii.N_of_ascii a in is_digit a || ((97 <=? n) && (n <=? 122))%N.

(** [^[a-z0-9]+(?:-[a-z0-9]+)*$]; [fresh]: the current word is still empty. *)
Fixpoint kebab_from (fresh : bool) (s : string) : bool :=
  match s with
  | EmptyString => negb fresh
  | String a s' =>
      if is_lower_alnum a then kebab_from false s'
      else bool_decide (a = Ascii.ascii_of_N 45) && negb fresh && kebab_from true s'
  end.

(** The text after a leading run of digits, [None] when there is none. *)
Fixpoint skip_digits (seen : bool) (s : string) : option string :=
  match s with
  | String a s' => if is_digit a then skip_digits true s' else if seen then Some s else None
  | EmptyString => if seen then Some EmptyString else None
  end.

Definition skip_dot (s : string) : option string :=
  match s with
  | String a s' => if bool_decide (a = Ascii.ascii_of_N 46) then Some s' else None
  | EmptyString => None
  end.

(** [^\d+\.\d+\.\d+(?:[-+][0-9A-Za-z.-]+)?$]. *)
Definition semver (s : string) : bool :=
  match (((skip_digits false s ≫= skip_dot) ≫= skip_digits false) ≫= skip_dot)
          ≫= skip_digits false with
  | None => false
  | Some EmptyString => true
  | Some (String a rest) =>
      has_char a "+-" && negb (is_empty rest)
      && all_chars (fun c => is_alnum c || has_char c ".-") rest
  end.

Example skill_patterns :
  map (kebab_from true) ["code-review"; "a"; "-a"; "a--b"; "a-"; "A"] = [true; true; false; false; false; false] /\
  map semver ["1.0.0"; "1.2.3-rc.1"; "1.2"; "1.2.3-"; "10.20.30+b-1"; "1..2"]
  = [true; true; false; false; true; false].
Proof. vm_compute. done. Qed.

Record SkillManifest := mk_SkillManifest {
  man_name : string;
  man_version : string;
  man_description : string;
  man_argument_hint : option string;
  man_allowed_tools : list string;
  man_required_tools : list string;
  man_required_permissions : gset string;
  man_input_schema : option jdict;
  man_output_schema : option jdict;
}.

Definition SkillManifest_fields (m : SkillManifest) : bool :=
  len_between 1 128 (man_name m) && kebab_from true (man_name m) && semver (man_version m)
  && (1 <=? slen (man_description m)).

Definition string_leb (a b : string) : bool := String.leb a b.

(** [validate_tool_contract]. *)
Definition SkillManifest_validate (m : SkillManifest) : outcome unit :=
  raise_when negb (bool_decide (NoDup (man_allowed_tools m)))
    as validation_error "allowed-tools must not contain duplicates" in
  raise_when negb (bool_decide (NoDup (man_required_tools m)))
    as validation_error "required-tools must not contain duplicates" in
  let missing := List.filter (fun t => negb (bool_decide (t ∈ man_allowed_tools m)))
                   (man_required_tools m) in
  raise_when negb (bool_decide (missing = []))
    as validation_error (fstr ["required-tools must also appear in allowed-tools: ";
                               String.concat ", " (sorted_by string_leb missing)]) in
  Ok tt.

Definition SkillManifest_new (m : SkillManifest) : outcome SkillManifest :=
  checked (SkillManifest_fields m) SkillManifest_validate m.

(** [SkillManifest.reference]. *)
Definition man_reference (m : SkillManifest) : SkillReference :=
  mk_SkillReference (man_name m) (man_version m).

(** [source] is the path of the file. *)
Record Skill := mk_Skill {
  skill_manifest : SkillManifest;
  skill_instructions : string;
  skill_source : string;
}.

(** ** Memories and resource failures *)

Record MemoryRecord := mk_MemoryRecord {
  mem_id : uuid;
  mem_content : string;
  mem_namespace : string;
  mem_created_at : time;
  mem_metadata : jdict;
}.

(** [score]: a float between 0 and 1. *)
Record MemoryMatch := mk_MemoryMatch {
  match_record : MemoryRecord;
  match_score : Q;
}.

Record MemoryQuery := mk_MemoryQuery {
  q_text : string;
  q_limit : Z;
  q_namespace : option string;
  q_profile_id : option string;
  q_run_id : option uuid;
  q_filters : jdict;
}.

Definition MemoryQuery_fields (q : MemoryQuery) : bool :=
  (1 <=? slen (q_text q)) && (1 <=? q_limit q) && (q_limit q <=? 100)
  && match q_namespace q with Some n => len_between 1 128 n | None => true end.

(** [MemoryQuery.reject_blank_text]. *)
Definition MemoryQuery_validate (q : MemoryQuery) : outcome unit :=
  raise_when blank (q_text q) as validation_error "memory query text must not be blank" in
  Ok tt.

Definition MemoryQuery_new (q : MemoryQuery) : outcome MemoryQuery :=
  checked (MemoryQuery_fields q) MemoryQuery_validate q.

(** [{"id": str(match.record.id), "score": match.score}]. *)
Definition match_summary (m : MemoryMatch) : json :=
  JObj [("id", juuid (mem_id (match_record m))); ("score", JFloat (match_score m))].

Inductive ResourcePhase := PHASE_ACQUIRE | PHASE_RELEASE.

Definition ResourcePhase_value (p : ResourcePhase) : string :=
  match p with PHASE_ACQUIRE => "acquire" | PHASE_RELEASE => "release" end.

Record ResourceFailure := mk_ResourceFailure {
  fail_name : string;
  fail_phase : ResourcePhase;
  fail_message : string;
}.

Definition ResourceFailure_dump (f : ResourceFailure) : json :=
  JObj [("name", JStr (fail_name f)); ("phase", JStr (ResourcePhase_value (fail_phase f)));
        ("message", JStr (fail_message f))].

(** ** The context *)

Record RuntimeContext := mk_RuntimeContext {
  ctx_profile : AgentProfile;
  ctx_messages : list Message;
  ctx_conversation_id : option uuid;
  ctx_turn_sequence : option Z;
  ctx_skills : list Skill;
  ctx_enabled_tool_names : list string;
  ctx_run_id : uuid;
  ctx_state_machine : RuntimeStateMachine;
  ctx_step_count : Z;
  ctx_tool_call_count : Z;
  ctx_usage : TokenUsage;
  ctx_responses : list ModelResponse;
  ctx_output : option string;
  ctx_error : option string;
  ctx_provider_name : option string;
  ctx_supervision_data : jdict;
  ctx_pending_input : option PendingInput;
  ctx_plan : option ExecutionPlan;
  ctx_planning_requested : bool;
  ctx_resource_failures : list ResourceFailure;
  ctx_attachments : list Attachment;
  ctx_artifacts : list Artifact;
  ctx_input_text : string;
  ctx_memories : list MemoryMatch;
  ctx_memory_initialized : bool;
  ctx_memory_error : option string;
  ctx_run_metadata : jdict;
}.

(** [RuntimeContext.state]. *)
Definition ctx_state (c : RuntimeContext) : RunStatus := sm_state (ctx_state_machine c).

(** A context rebuilt field by field, from which the assignments
    [context.field = value] are derived. *)
Definition ctx_eta (c : RuntimeContext) : RuntimeContext :=
  mk_RuntimeContext (ctx_profile c) (ctx_messages c) (ctx_conversation_id c) (ctx_turn_sequence c)
    (ctx_skills c) (ctx_enabled_tool_names c) (ctx_run_id c) (ctx_state_machine c)
    (ctx_step_count c) (ctx_tool_call_count c) (ctx_usage c) (ctx_responses c) (ctx_output c)
    (ctx_error c) (ctx_provider_name c) (ctx_supervision_data c) (ctx_pending_input c)
    (ctx_plan c) (ctx_planning_requested c) (ctx_resource_failures c) (ctx_attachments c)
    (ctx_artifacts c) (ctx_input_text c) (ctx_memories c) (ctx_memory_initialized c)
    (ctx_memory_error c) (ctx_run_metadata c).

Ltac assign field v c :=
  let t := eval unfold ctx_eta in (ctx_eta c) in
  match eval pattern (field c) in t with
  | ?f _ => let r := eval cbv beta in (f v) in exact r
  end.

Definition set_messages (v : list Message) (c : RuntimeContext) : RuntimeContext :=
  ltac:(assign ctx_messages v c).
Definition set_run_id (v : uuid) (c : RuntimeContext) : RuntimeContext :=
  ltac:(assign ctx_run_id v c).
Definition set_state_machine (v : RuntimeStateMachine) (c : RuntimeContext) : RuntimeContext :=
  ltac:(assign ctx_state_machine v c).
Definition set_step_count (v : Z) (c : RuntimeContext) : RuntimeContext :=
  ltac:(assign ctx_step_count v c).
Definition set_tool_call_count (v : Z) (c : RuntimeContext) : RuntimeContext :=
  ltac:(assign ctx_tool_call_count v c).
Definition set_usage (v : TokenUsage) (c : RuntimeContext) : RuntimeContext :=
  ltac:(assign ctx_usage v c).
Definition set_responses (v : list ModelResponse) (c : RuntimeContext) : RuntimeContext :=
  ltac:(assign ctx_responses v c).
Definition set_output (v : option string) (c : RuntimeContext) : RuntimeContext :=
  ltac:(assign ctx_output v c).
Definition set_error (v : option string) (c : RuntimeContext) : RuntimeContext :=
  ltac:(assign ctx_error v c).
Definition set_provider_name (v : option string) (c : RuntimeContext) : RuntimeContext :=
  ltac:(assign ctx_provider_name v c).
Definition set_supervision_data (v : jdict) (c : RuntimeContext) : RuntimeContext :=
  ltac:(assign ctx_supervision_data v c).
Definition set_pending_input (v : option PendingInput) (c : RuntimeContext) : RuntimeContext :=
  ltac:(assign ctx_pending_input v c).
Definition set_plan (v : option ExecutionPlan) (c : RuntimeContext) : RuntimeContext :=
  ltac:(assign ctx_plan v c).
Definition set_resource_failures (v : list ResourceFailure) (c : RuntimeContext) : RuntimeContext :=
  ltac:(assign ctx_resource_failures v c).
Definition set_artifacts (v : list Artifact) (c : RuntimeContext) : RuntimeContext :=
  ltac:(assign ctx_artifacts v c).
Definition set_memories (v : list MemoryMatch) (c : RuntimeContext) : RuntimeContext :=
  ltac:(assign ctx_memories v c).
Definition set_memory_initialized (v : bool) (c : RuntimeContext) : RuntimeContext :=
  ltac:(assign ctx_memory_initialized v c).
Definition set_memory_error (v : option string) (c : RuntimeContext) : RuntimeContext :=
  ltac:(assign ctx_memory_error v c).

(** [context.state_machine.transition_to(target)]. *)
Definition ctx_transition (target : RunStatus) (c : RuntimeContext) : outcome RuntimeContext :=
  let! m := transition_to (ctx_state_machine c) target in
  Ok (set_state_machine m c).

(** ** Checkpoints *)

Record RuntimeCheckpoint := mk_RuntimeCheckpoint {
  cp_run_id : uuid;
  cp_profile : AgentProfile;
  cp_messages : list Message;
  cp_conversation_id : option uuid;
  cp_turn_sequence : option Z;
  cp_skills : list Skill;
  cp_enabled_tool_names : list string;
  cp_state : RunStatus;
  cp_step_count : Z;
  cp_tool_call_count : Z;
  cp_usage : TokenUsage;
  cp_responses : list ModelResponse;
  cp_output : option string;
  cp_error : option string;
  cp_provider_name : option string;
  cp_supervision_data : jdict;
  cp_pending_input : PendingInput;
  cp_plan : option ExecutionPlan;
  cp_planning_requested : bool;
  cp_resource_failures : list ResourceFailure;
  cp_attachments : list Attachment;
  cp_artifacts : list Artifact;
  cp_input_text : string;
  cp_memories : list MemoryMatch;
  cp_memory_initialized : bool;
  cp_memory_error : option string;
  cp_run_metadata : jdict;
}.

Definition RuntimeCheckpoint_fields (c : RuntimeCheckpoint) : bool :=
  (0 <=? cp_step_count c) && (0 <=? cp_tool_call_count c).

(** [validate_waiting_state]. *)
Definition RuntimeCheckpoint_validate (c : RuntimeCheckpoint) : outcome unit :=
  raise_when negb (bool_decide (cp_state c = WAITING))
    as validation_error "runtime checkpoints must represent a waiting Run" in
  Ok tt.

(** [RuntimeCheckpoint.from_context]. *)
Definition from_context (c : RuntimeContext) : outcome RuntimeCheckpoint :=
  match ctx_pending_input c with
  | Some pending =>
      raise_when negb (bool_decide (ctx_state c = WAITING))
        as Exn ExValueError "only a waiting context with pending input can be checkpointed" in
      let cp :=
        mk_RuntimeCheckpoint (ctx_run_id c) (ctx_profile c) (ctx_messages c)
          (ctx_conversation_id c) (ctx_turn_sequence c) (ctx_skills c)
          (ctx_enabled_tool_names c) (ctx_state c) (ctx_step_count c)
          (ctx_tool_call_count c) (ctx_usage c) (ctx_responses c) (ctx_output c)
          (ctx_error c) (ctx_provider_name c) (ctx_supervision_data c) pending (ctx_plan c)
          (ctx_planning_requested c) (ctx_resource_failures c) (ctx_attachments c)
          (ctx_artifacts c) (ctx_input_text c) (ctx_memories c) (ctx_memory_initialized c)
          (ctx_memory_error c) (ctx_run_metadata c) in
      checked (RuntimeCheckpoint_fields cp) RuntimeCheckpoint_validate cp
  | None =>
      Raise (Exn ExValueError "only a waiting context with pending input can be checkpointed")
  end.

(** [RuntimeCheckpoint.restore]. *)
Definition restore (c : RuntimeCheckpoint) : RuntimeContext :=
  mk_RuntimeContext (cp_profile c) (cp_messages c) (cp_conversation_id c) (cp_turn_sequence c)
    (cp_skills c) (cp_enabled_tool_names c) (cp_run_id c) (mk_RuntimeStateMachine (cp_state c))
    (cp_step_count c) (cp_tool_call_count c) (cp_usage c) (cp_responses c) (cp_output c)
    (cp_error c) (cp_provider_name c) (cp_supervision_data c) (Some (cp_pending_input c))
    (cp_plan c) (cp_planning_requested c) (cp_resource_failures c) (cp_attachments c)
    (cp_artifacts c) (cp_input_text c) (cp_memories c) (cp_memory_initialized c)
    (cp_memory_error c) (cp_run_metadata c).

(** ** Snapshots *)

(** The keys [save_context_snapshot] adds to a Run's metadata. *)
Definition snapshot_metadata (c : RuntimeContext) : jdict :=
  [("pending_input", jopt PendingInput_dump (ctx_pending_input c));
   ("plan", jopt ExecutionPlan_dump (ctx_plan c));
   ("resource_failures", jlist ResourceFailure_dump (ctx_resource_failures c));
   ("memory", JObj [("initialized", JBool (ctx_memory_initialized c));
                    ("error", jopt JStr (ctx_memory_error c));
                    ("matches", jlist match_summary (ctx_memories c))]);
   ("model_calls", JInt (Z.of_nat (length (ctx_responses c))));
   ("planning_requested", JBool (ctx_planning_requested c))].

Definition interruption_metadata (c : RuntimeContext) : jdict :=
  if bool_decide (ctx_state c = INTERRUPTED)
  then [("interruption", JObj [("source", JStr "asyncio_task_cancelled");
                               ("recoverable", JBool false)])]
  else [].

(** [existing.model_copy(update={...}, deep=True)]. *)
Definition snapshot (c : RuntimeContext) (now : time) (existing : Run) : Run :=
  mk_Run (run_id existing) (run_profile_id existing) (run_conversation_id existing)
    (run_turn_sequence existing) (ctx_state c) (ctx_step_count c) (ctx_tool_call_count c)
    (ctx_usage c) (run_skills existing) (ctx_output c) (ctx_error c)
    (run_cancel_requested existing) (run_created_at existing) now
    (dmerge (dmerge (run_metadata existing) (snapshot_metadata c)) (interruption_metadata c))
    (ctx_attachments c) (ctx_artifacts c).

(** ** The world of an execution *)

(** [ResourceManager]'s mutable state: [_state], [_order] (the acquired
    names, [_acquired] holding their values) and [_failures]. *)
Inductive ScopeState := SCOPE_CREATED | SCOPE_ACTIVE | SCOPE_CLOSED.

#[export] Instance ScopeState_eq_dec : EqDecision ScopeState.
Proof. solve_decision. Defined.

Record ResourceScope := mk_ResourceScope {
  rs_state : ScopeState;
  rs_order : list string;
  rs_failures : list ResourceFailure;
}.

(** [w_ext] is the rest of the process: what providers, tools, resources and
    other tasks hold.  One execution has one context, reached through the
    services as well; the in-memory stores are shared with other tasks. *)

Record World (X : Type) := mk_World {
  w_ctx : RuntimeContext;
  w_runs : gmap uuid Run;
  w_events : gmap uuid (list RuntimeEvent);
  w_checkpoints : gmap uuid RuntimeCheckpoint;
  w_conversations : ConversationStore;
  w_resources : ResourceScope;
  w_ext : X;
}.
Arguments mk_World {X}.
Arguments w_ctx {X}.
Arguments w_runs {X}.
Arguments w_events {X}.
Arguments w_checkpoints {X}.
Arguments w_conversations {X}.
Arguments w_resources {X}.
Arguments w_ext {X}.

Definition set_ctx {X} (c : RuntimeContext) (w : World X) : World X :=
  mk_World c (w_runs w) (w_events w) (w_checkpoints w) (w_conversations w) (w_resources w)
    (w_ext w).
Definition set_runs {X} (m : gmap uuid Run) (w : World X) : World X :=
  mk_World (w_ctx w) m (w_events w) (w_checkpoints w) (w_conversations w) (w_resources w)
    (w_ext w).
Definition set_events {X} (m : gmap uuid (list RuntimeEvent)) (w : World X) : World X :=
  mk_World (w_ctx w) (w_runs w) m (w_checkpoints w) (w_conversations w) (w_resources w)
    (w_ext w).
Definition set_checkpoints {X} (m : gmap uuid RuntimeCheckpoint) (w : World X) : World X :=
  mk_World (w_ctx w) (w_runs w) (w_events w) m (w_conversations w) (w_resources w)
    (w_ext w).
Definition set_conversations {X} (m : ConversationStore) (w : World X) : World X :=
  mk_World (w_ctx w) (w_runs w) (w_events w) (w_checkpoints w) m (w_resources w)
    (w_ext w).
Definition set_resources {X} (r : ResourceScope) (w : World X) : World X :=
  mk_World (w_ctx w) (w_runs w) (w_events w) (w_checkpoints w) (w_conversations w) r (w_ext w).

Section RuntimePrograms.
Context {X : Type}.
Variable env : nat -> ambient.

Abbreviation M := (prog (World X)).

(** Reading and assigning the context. *)
Definition ctx_get : M RuntimeContext := fun st => Some (st, Ok (w_ctx (sys_w st))).

Definition ctx_do (f : RuntimeContext -> outcome RuntimeContext) : M unit := fun st =>
  match f (w_ctx (sys_w st)) with
  | Ok c => Some (mk_sys (set_ctx c (sys_w st)) (sys_tick st), Ok tt)
  | Raise e => Some (st, Raise e)
  end.

Definition ctx_put (f : RuntimeContext -> RuntimeContext) : M unit := ctx_do (fun c => Ok (f c)).

(** A call of a method of a store: atomic under the store's lock, with its
    own readings of the clock and of [uuid4]. *)
Definition call_store {A} (f : ambient -> World X -> outcome (World X * A)) : M A := fun st =>
  match f (env (sys_tick st)) (sys_w st) with
  | Ok (w, a) => Some (mk_sys w (S (sys_tick st)), Ok a)
  | Raise e => Some (mk_sys (sys_w st) (S (sys_tick st)), Raise e)
  end.

(** [event_store.emit(context.run_id, event_type, data)]. *)
Definition emit_event (ty : EventType) (data : jdict) : M unit :=
  call_store (fun amb w =>
    let! '(evs, _) := emit amb (ctx_run_id (w_ctx w)) ty (Some data) (w_events w) in
    Ok (set_events evs w, tt)).

(** [run_store.is_cancel_requested(context.run_id)]. *)
Definition cancel_requested : M bool :=
  call_store (fun _ w =>
    let! b := is_cancel_requested (ctx_run_id (w_ctx w)) (w_runs w) in Ok (w, b)).

(** [save_context_snapshot]: a read of the stored Run, then a save. *)
Definition save_context_snapshot : M unit :=
  let* existing := call_store (fun _ w =>
    let! r := run_get (ctx_run_id (w_ctx w)) (w_runs w) in Ok (w, r)) in
  let* c := ctx_get in
  call_store (fun amb w =>
    let! runs := run_save (snapshot c (amb_now amb 0) existing) (w_runs w) in
    Ok (set_runs runs w, tt)).
End RuntimePrograms.

(** ** Checkpoint round trip *)

Lemma from_context_Ok c cp :
  from_context c = Ok cp ->
  ctx_state c = WAITING /\ is_Some (ctx_pending_input c) /\
  0 <= ctx_step_count c /\ 0 <= ctx_tool_call_count c /\
  cp_run_id cp = ctx_run_id c /\ restore cp = c.
Proof.
  unfold from_context. destruct (ctx_pending_input c) as [p|] eqn:Ep; [|done].
  intros H. destruct (bool_decide (ctx_state c = WAITING)) eqn:Es; [|done]. simpl in H.
  apply checked_Ok in H as (Hf & _ & ->). unfold RuntimeCheckpoint_fields in Hf. simpl in Hf.
  reflect. split_and!; try done. destruct c as []; simpl in *.
  destruct ctx_state_machine0. unfold restore; simpl in *. by subst.
Qed.

Lemma from_context_total c :
  ctx_state c = WAITING -> is_Some (ctx_pending_input c) ->
  0 <= ctx_step_count c -> 0 <= ctx_tool_call_count c -> is_ok (from_context c).
Proof.
  intros Hs [p Hp] Hn Hm. unfold from_context. rewrite Hp, Hs. simpl.
  unfold checked, RuntimeCheckpoint_fields. simpl.
  rewrite !(proj2 (Z.leb_le _ _)) by lia. simpl. eexists. reflexivity.
Qed.

(** A call of the checkpoint store about another Run. *)
Definition elsewhere (rid : uuid) (k : checkpoint_call (C := RuntimeCheckpoint)) : Prop :=
  match k with
  | CpSave cp => cp_run_id cp <> rid
  | CpClaim r | CpDelete r => r <> rid
  | CpLoad _ => True
  end.

Lemma checkpoint_elsewhere rid calls : forall cps,
  Forall (elsewhere rid) calls -> checkpoint_trace cp_run_id calls cps !! rid = cps !! rid.
Proof.
  induction calls as [|k calls IH]; intros cps Hall; [done|].
  apply Forall_cons in Hall as [Hk Hall]. unfold checkpoint_trace in *. simpl.
  rewrite IH by done. destruct k as [cp|r|r|r]; simpl in *; [|done| |].
  - unfold checkpoint_save. by rewrite lookup_insert_ne.
  - unfold checkpoint_claim. destruct (cps !! r); [|done]. by rewrite lookup_delete_ne.
  - unfold checkpoint_delete. by rewrite lookup_delete_ne.
Qed.

(** C24: suspending loses nothing.  A context can be checkpointed exactly when
    it is waiting, has a pending input and its counters are not negative;
    what the store hands out at the claim then restores the very context
    that was saved, whatever happens to other Runs' checkpoints in between,
    and the store no longer holds it. *)
Theorem checkpoint_roundtrip c calls cps :
  Forall (elsewhere (ctx_run_id c)) calls ->
  (is_ok (from_context c) <->
     ctx_state c = WAITING /\ is_Some (ctx_pending_input c) /\
     0 <= ctx_step_count c /\ 0 <= ctx_tool_call_count c) /\
  forall cp, from_context c = Ok cp ->
    exists cp' rest,
      checkpoint_claim (ctx_run_id c)
        (checkpoint_trace cp_run_id calls (checkpoint_save cp_run_id cp cps)) = Ok (rest, cp') /\
      restore cp' = c /\ rest !! ctx_run_id c = None.
Proof.
  intros Hall. split.
  - split; [intros [cp H]; by apply from_context_Ok in H as (?&?&?&?&_)|].
    intros (?&?&?&?). by apply from_context_total.
  - intros cp H. apply from_context_Ok in H as (_ & _ & _ & _ & Hr & Hrest).
    exists cp. eexists. unfold checkpoint_claim. rewrite checkpoint_elsewhere by done.
    unfold checkpoint_save. rewrite Hr, lookup_insert_eq. split_and!; [done|done|].
    by rewrite lookup_delete_eq.
Qed.

Definition example_profile : AgentProfile :=
  mk_AgentProfile "helper" "Answer." None ["ask"] [] ∅ 10 50 3 3 262144.

Definition example_waiting : RuntimeContext :=
  mk_RuntimeContext example_profile [mk_Message USER (Some "hi") [] None] None None [] ["ask"] 7
    (mk_RuntimeStateMachine WAITING) 1 1 TokenUsage_zero [] None None (Some "model") []
    (Some (mk_PendingInput "c1" "ask" "Which one?" [])) None false [] [] [] "hi" [] true None [].

Lemma checkpoint_roundtrip_witness :
  exists cp rest, checkpoint_claim 7%N (checkpoint_save cp_run_id cp ∅) = Ok (rest, cp) /\
    restore cp = example_waiting.
Proof.
  destruct (checkpoint_roundtrip example_waiting [] ∅ ltac:(constructor)) as [_ Hr].
  destruct (Hr _ eq_refl) as (cp' & rest & Hc & Hw & _).
  vm_compute in Hc. injection Hc as <- <-. eexists _, ∅. split; [|exact Hw]. vm_compute. reflexivity.
Defined.
