(* ===== verification/Resources.v ===== *)
(** * Resources and memories of one execution
    ([src/base_agent/resources/manager.py], [src/base_agent/memory/manager.py])

    [ResourceManager] acquires named resources at most once and releases them
    in reverse order; [MemoryManager] retrieves memories once per Run.  The
    context managers of an application and its retriever are arbitrary
    programs.  The owning-task and expected-type tests of
    [ResourceManager.get] are not modelled: every call here is made by the
    task of the execution, and a value is whatever the entered manager left
    in the world. *)

From Stdlib Require Import QArith.
From stdpp Require Import base gmap strings list.
From S2P Require Import Prelude Json Models Sha256 Plan StateMachine ConversationStore RunStore EventStore FlowModels Program Serial Runtime.

(** [ResourceSpec]: the factory, and the manager it makes: [__aenter__] and
    [__aexit__] with the error it is given. *)
Record ResourceSpec (X : Type) := mk_ResourceSpec {
  spec_name : string;
  spec_eager : bool;
  spec_factory : prog (World X) unit;
  spec_enter : prog (World X) unit;
  spec_exit : option exn -> prog (World X) unit;
}.
Arguments mk_ResourceSpec {X}.
Arguments spec_name {X}.
Arguments spec_eager {X}.
Arguments spec_factory {X}.
Arguments spec_enter {X}.
Arguments spec_exit {X}.

(** [ResourceSpec.__post_init__]. *)
Definition ResourceSpec_check {X} (s : ResourceSpec X) : outcome unit :=
  raise_when negb (matches_key "_.-" (spec_name s))
    as value_error ["invalid resource name '"; spec_name s; "'"] in
  Ok tt.

(** [ResourceManager.__init__]. *)
Definition ResourceManager_check {X} (specs : list (ResourceSpec X)) : outcome unit :=
  raise_when negb (bool_decide (NoDup (map spec_name specs)))
    as value_error ["resource names must be unique"] in
  Ok tt.

(** The scope of a new manager. *)
Definition scope_new : ResourceScope := mk_ResourceScope SCOPE_CREATED [] [].

Section Resources.
Context {X : Type}.
Variable env : nat -> ambient.
Variable specs : list (ResourceSpec X).

Abbreviation M := (prog (World X)).

Definition scope_get : M ResourceScope := fun st => Some (st, Ok (w_resources (sys_w st))).
Definition scope_put (f : ResourceScope -> ResourceScope) : M unit := fun st =>
  Some (mk_sys (set_resources (f (w_resources (sys_w st))) (sys_w st)) (sys_tick st), Ok tt).

Definition with_state (v : ScopeState) (r : ResourceScope) : ResourceScope :=
  mk_ResourceScope v (rs_order r) (rs_failures r).
Definition with_order (v : list string) (r : ResourceScope) : ResourceScope :=
  mk_ResourceScope (rs_state r) v (rs_failures r).
Definition add_failure (f : ResourceFailure) (r : ResourceScope) : ResourceScope :=
  mk_ResourceScope (rs_state r) (rs_order r) (rs_failures r ++ [f]).

(** [self._specs.get(name)]. *)
Definition find_spec (name : string) : option (ResourceSpec X) :=
  List.find (fun s => bool_decide (spec_name s = name)) specs.

(** [_emit_failure]. *)
Definition emit_failure (f : ResourceFailure) : M unit :=
  emit_event env EV_RESOURCE_FAILED
    [("name", JStr (fail_name f)); ("phase", JStr (ResourcePhase_value (fail_phase f)));
     ("message", JStr (fail_message f))].

(** [_acquire]. *)
Definition resource_acquire (s : ResourceSpec X) : M unit :=
  do* spec_factory s in
  do* try_except (spec_enter s)
        (fun e =>
           if is_exception e then
             let failure := mk_ResourceFailure (spec_name s) PHASE_ACQUIRE (exn_str e) in
             Some (do* scope_put (add_failure failure) in
                   do* emit_failure failure in
                   throw (Exn ResourceAcquisitionError
                            (fstr ["failed to acquire resource '"; spec_name s; "': "; exn_str e])))
           else None) in
  do* scope_put (fun r => with_order (rs_order r ++ [spec_name s]) r) in
  emit_event env EV_RESOURCE_ACQUIRED [("name", JStr (spec_name s))].

(** [get]. *)
Definition resource_get (name : string) : M unit :=
  let* scope := scope_get in
  if negb (bool_decide (rs_state scope = SCOPE_ACTIVE)) then
    throw (Exn ResourceScopeClosedError "resources are only available during execution")
  else if bool_decide (name ∈ rs_order scope) then ret tt
  else
    match find_spec name with
    | None => throw (Exn ResourceNotFoundError (fstr ["unknown resource '"; name; "'"]))
    | Some s => resource_acquire s
    end.

(** The loop of [start] over the specifications. *)
Fixpoint acquire_eager (l : list (ResourceSpec X)) : M unit :=
  match l with
  | [] => ret tt
  | s :: l' =>
      do* (if spec_eager s then resource_get (spec_name s) else ret tt) in
      acquire_eager l'
  end.

(** [start]. *)
Definition resources_start : M unit :=
  let* scope := scope_get in
  if negb (bool_decide (rs_state scope = SCOPE_CREATED)) then
    throw (Exn ResourceScopeClosedError "resource scope can only be started once")
  else
    do* scope_put (with_state SCOPE_ACTIVE) in
    acquire_eager specs.

(** The loop of [close] over the acquired names, last first. *)
Fixpoint release_all (error : option exn) (names : list string) : M unit :=
  match names with
  | [] => ret tt
  | name :: names' =>
      let* failed :=
        try_except
          (do* match find_spec name with
               | Some s => spec_exit s error
               | None => throw (Exn ExKeyError name)
               end in ret None)
          (fun e => if is_exception e then Some (ret (Some e)) else None) in
      do* match failed with
          | Some e =>
              let failure := mk_ResourceFailure name PHASE_RELEASE (exn_str e) in
              do* scope_put (add_failure failure) in
              emit_failure failure
          | None => emit_event env EV_RESOURCE_RELEASED [("name", JStr name)]
          end in
      release_all error names'
  end.

(** [close]. *)
Definition resources_close (error : option exn) : M (list ResourceFailure) :=
  let* scope := scope_get in
  if bool_decide (rs_state scope = SCOPE_CLOSED) then ret (rs_failures scope)
  else
    do* scope_put (with_state SCOPE_CLOSED) in
    do* release_all error (rev (rs_order scope)) in
    do* scope_put (with_order []) in
    let* closed := scope_get in
    ret (rs_failures closed).
End Resources.

(** ** Memories *)

Inductive MemoryFailureMode := BEST_EFFORT | REQUIRED.

#[export] Instance MemoryFailureMode_eq_dec : EqDecision MemoryFailureMode.
Proof. solve_decision. Defined.

Record MemoryManager (X : Type) := mk_MemoryManager {
  mm_retriever : option (MemoryQuery -> prog (World X) (list MemoryMatch));
  mm_limit : Z;
  mm_namespace : option string;
  mm_failure_mode : MemoryFailureMode;
}.
Arguments mk_MemoryManager {X}.
Arguments mm_retriever {X}.
Arguments mm_limit {X}.
Arguments mm_namespace {X}.
Arguments mm_failure_mode {X}.

(** [MemoryManager.__init__]. *)
Definition MemoryManager_check {X} (m : MemoryManager X) : outcome unit :=
  raise_when (mm_limit m <? 1) || (100 <? mm_limit m)
    as value_error ["memory limit must be between 1 and 100"] in
  raise_when match mm_namespace m with Some n => blank n | None => false end
    as value_error ["memory namespace must not be blank"] in
  Ok tt.

Section Memory.
Context {X : Type}.
Variable env : nat -> ambient.
Variable manager : MemoryManager X.

Abbreviation M := (prog (World X)).

(** [search]. *)
Definition memory_search (q : MemoryQuery) : M (list MemoryMatch) :=
  match mm_retriever manager with
  | None => throw (Exn MemoryNotConfiguredError "no memory retriever is configured")
  | Some search =>
      let* matches :=
        try_except (let* l := search q in ret (take (Z.to_nat (q_limit q)) l))
          (fun e =>
             if is_exception e
             then Some (do* emit_event env EV_MEMORY_FAILED [("error", JStr (exn_str e))] in throw e)
             else None) in
      do* emit_event env EV_MEMORY_RETRIEVED
            [("limit", JInt (q_limit q)); ("namespace", jopt JStr (q_namespace q));
             ("matches", jlist match_summary matches)] in
      ret matches
  end.

(** [initialize]. *)
Definition memory_initialize : M (list MemoryMatch) :=
  let* c := ctx_get in
  if ctx_memory_initialized c then ret (ctx_memories c)
  else
    do* ctx_put (set_memory_initialized true) in
    match mm_retriever manager with
    | None => ret []
    | Some _ =>
        let* query := of_outcome (MemoryQuery_new
          (mk_MemoryQuery (ctx_input_text c) (mm_limit manager) (mm_namespace manager)
             (Some (prof_id (ctx_profile c))) (Some (ctx_run_id c)) [])) in
        let* found :=
          try_except (let* l := memory_search query in ret (Some l))
            (fun e =>
               if is_exception e then
                 Some (do* ctx_put (set_memory_error (Some (exn_str e))) in
                       if bool_decide (mm_failure_mode manager = REQUIRED) then throw e
                       else ret None)
               else None) in
        match found with
        | None => ret []
        | Some matches =>
            do* ctx_put (set_memories matches) in
            do* ctx_put (set_memory_error None) in
            ret matches
        end
    end.
End Memory.
