(* ===== verification/Supervision.v ===== *)
(** * Supervision ([src/base_agent/supervision/],
    [src/base_agent/orchestration/supervision.py])

    A supervisor is consulted before a model call and around every tool
    call; its decision lets the execution continue, redirects it with a
    message, or stops it.  The built-in policies keep their data in the
    context's [supervision_data]. *)

From Stdlib Require Import QArith.
From stdpp Require Import base gmap strings list.
From S2P Require Import Prelude Json Models Sha256 Plan StateMachine ConversationStore RunStore EventStore FlowModels Program Serial Runtime.

(** ** Decisions *)

Inductive SupervisionAction := CONTINUE | REDIRECT | STOP.

#[export] Instance SupervisionAction_eq_dec : EqDecision SupervisionAction.
Proof. solve_decision. Defined.

Definition SupervisionAction_value (a : SupervisionAction) : string :=
  match a with CONTINUE => "continue" | REDIRECT => "redirect" | STOP => "stop" end.

Record SupervisionDecision := mk_SupervisionDecision {
  dec_policy : string;
  dec_action : SupervisionAction;
  dec_reason : option string;
  dec_message : option string;
  dec_terminal_status : option RunStatus;
  dec_metadata : jdict;
}.

(** [validate_action_fields]. *)
Definition SupervisionDecision_validate (d : SupervisionDecision) : outcome unit :=
  if bool_decide (dec_action d = CONTINUE) then
    raise_when negb (is_none (dec_terminal_status d))
      as validation_error "continue decisions cannot set terminal_status" in
    Ok tt
  else
    raise_when falsy (dec_reason d)
      as validation_error "supervisor interventions require a reason" in
    if bool_decide (dec_action d = REDIRECT) then
      raise_when falsy (dec_message d)
        as validation_error "redirect decisions require a message" in
      raise_when negb (is_none (dec_terminal_status d))
        as validation_error "redirect decisions cannot set terminal_status" in
      Ok tt
    else
      raise_when negb (bool_decide (dec_terminal_status d
                                      ∈ [Some FAILED; Some CANCELLED; Some LIMIT_REACHED]))
        as validation_error "stop decisions require a terminal_status" in
      Ok tt.

Definition SupervisionDecision_new (d : SupervisionDecision) : outcome SupervisionDecision :=
  checked (1 <=? slen (dec_policy d)) SupervisionDecision_validate d.

(** [continue_], [redirect] and [stop]. *)
Definition decision_continue (policy : string) : outcome SupervisionDecision :=
  SupervisionDecision_new (mk_SupervisionDecision policy CONTINUE None None None []).
Definition decision_redirect (policy reason message : string) (metadata : jdict)
  : outcome SupervisionDecision :=
  SupervisionDecision_new
    (mk_SupervisionDecision policy REDIRECT (Some reason) (Some message) None metadata).
Definition decision_stop (policy reason : string) (terminal : RunStatus) (metadata : jdict)
  : outcome SupervisionDecision :=
  SupervisionDecision_new
    (mk_SupervisionDecision policy STOP (Some reason) None (Some terminal) metadata).

Definition SupervisionDecision_dump (d : SupervisionDecision) : jdict :=
  [("policy", JStr (dec_policy d)); ("action", JStr (SupervisionAction_value (dec_action d)));
   ("reason", jopt JStr (dec_reason d)); ("message", jopt JStr (dec_message d));
   ("terminal_status", jopt (fun s => JStr (RunStatus_value s)) (dec_terminal_status d));
   ("metadata", JObj (dec_metadata d))].

Definition continues (d : SupervisionDecision) : bool := bool_decide (dec_action d = CONTINUE).

(** ** Supervisors *)

Record Supervisor (X : Type) := mk_Supervisor {
  sup_before_model : prog (World X) SupervisionDecision;
  sup_before_tool : ToolCall -> prog (World X) SupervisionDecision;
  sup_after_tool : ToolCall -> ToolResult -> prog (World X) SupervisionDecision;
}.
Arguments mk_Supervisor {X}.
Arguments sup_before_model {X}.
Arguments sup_before_tool {X}.
Arguments sup_after_tool {X}.

Section Supervisors.
Context {X : Type}.
Abbreviation M := (prog (World X)).

(** The loop of [CompositeSupervisor]'s hooks over [self.policies]. *)
Fixpoint first_intervention (hook : Supervisor X -> M SupervisionDecision)
  (policies : list (Supervisor X)) : M SupervisionDecision :=
  match policies with
  | [] => of_outcome (decision_continue "composite-supervisor")
  | p :: policies' =>
      let* decision := hook p in
      if continues decision then first_intervention hook policies' else ret decision
  end.

Definition CompositeSupervisor (policies : list (Supervisor X)) : Supervisor X :=
  mk_Supervisor
    (first_intervention sup_before_model policies)
    (fun call => first_intervention (fun p => sup_before_tool p call) policies)
    (fun call result => first_intervention (fun p => sup_after_tool p call result) policies).

(** A hook that decides from the context and assigns it. *)
Definition policy_hook (f : RuntimeContext -> outcome (RuntimeContext * SupervisionDecision))
  : M SupervisionDecision :=
  let* c := ctx_get in
  let* r := of_outcome (f c) in
  do* ctx_put (fun _ => fst r) in
  ret (snd r).

(** [BaseSupervisor]'s hooks under the name of the policy. *)
Definition base_decision (name : string) (c : RuntimeContext)
  : outcome (RuntimeContext * SupervisionDecision) :=
  let! d := decision_continue name in Ok (c, d).
End Supervisors.

(** ** [ExecutionBudget] *)

Definition budget_before_model (c : RuntimeContext)
  : outcome (RuntimeContext * SupervisionDecision) :=
  let limit := prof_max_steps (ctx_profile c) in
  if limit <=? ctx_step_count c then
    let! d := decision_stop "execution-budget"
      (fstr ["maximum model steps reached ("; zstr limit; ")"]) LIMIT_REACHED
      [("limit", JInt limit); ("kind", JStr "model_steps")] in
    Ok (c, d)
  else base_decision "execution-budget" c.

Definition budget_before_tool (call : ToolCall) (c : RuntimeContext)
  : outcome (RuntimeContext * SupervisionDecision) :=
  let limit := prof_max_tool_calls (ctx_profile c) in
  if limit <=? ctx_tool_call_count c then
    let! d := decision_stop "execution-budget"
      (fstr ["maximum tool calls reached ("; zstr limit; ")"]) LIMIT_REACHED
      [("limit", JInt limit); ("kind", JStr "tool_calls")] in
    Ok (c, d)
  else base_decision "execution-budget" c.

(** ** [DuplicateToolCallDetector] *)

(** [int(text)]: surrounding whitespace, a sign, digits that single
    underscores may separate.  [digits_from ok acc s] reads the rest of the
    digits; [ok]: the text may end here. *)
Fixpoint digits_from (ok : bool) (acc : Z) (s : string) : option Z :=
  match s with
  | EmptyString => if ok then Some acc else None
  | String a s' =>
      if is_digit a
      then digits_from true (acc * 10 + (Z.of_N (Ascii.N_of_ascii a) - 48)) s'
      else if bool_decide (a = Ascii.ascii_of_N 95) && ok then digits_from false acc s' else None
  end.

Definition py_int_text (s : string) : option Z :=
  match strip s with
  | String a s' =>
      if bool_decide (a = Ascii.ascii_of_N 45) then Z.opp <$> digits_from false 0 s'
      else if bool_decide (a = Ascii.ascii_of_N 43) then digits_from false 0 s'
      else digits_from false 0 (String a s')
  | EmptyString => None
  end.

Example py_int_texts :
  map py_int_text ["12"; " -7 "; "1_000"; "1__0"; "_1"; "1_"; ""; "+3"; "3.0"]
  = [Some 12; Some (-7); Some 1000; None; None; None; None; Some 3; None].
Proof. vm_compute. reflexivity. Qed.

(** [int(value)] of a JSON value; a float is truncated. *)
Definition py_int (j : json) : outcome Z :=
  match j with
  | JInt z => Ok z
  | JBool b => Ok (if b then 1 else 0)
  | JFloat q => Ok (Z.quot (Qnum q) (Zpos (Qden q)))
  | JStr s =>
      match py_int_text s with
      | Some z => Ok z
      | None => Raise (value_error ["invalid literal for int() with base 10: "; py_repr s])
      end
  | _ => Raise (Exn ExTypeError "int() argument must be a string or a real number")
  end.

Definition attribute_error (attr : string) : exn :=
  Exn (UserException "AttributeError") (fstr ["object has no attribute '"; attr; "'"]).

Section Detectors.
Context `{FloatRepr}.

(** [f"{call.name}:{json.dumps(call.arguments, sort_keys=True, default=str)}"]. *)
Definition fingerprint (call : ToolCall) : string :=
  fstr [call_name call; ":"; json_dumps_sorted (JObj (call_arguments call))].

(** [count] of the call at hand. *)
Definition series_count (call : ToolCall) (state : jdict) : outcome Z :=
  if match dget "fingerprint" state with
     | Some v => json_eqb v (JStr (fingerprint call))
     | None => false
     end
  then let! n := py_int (default (JInt 0) (dget "count" state)) in Ok (n + 1)
  else Ok 1.

(** [state.update(...)] and the decision. *)
Definition record_series (call : ToolCall) (state : jdict) (count : Z) (c : RuntimeContext)
  : outcome (RuntimeContext * SupervisionDecision) :=
  let state' := dmerge state [("fingerprint", JStr (fingerprint call)); ("count", JInt count)] in
  let c' := set_supervision_data
              (dset "duplicate_tool_calls" (JObj state') (ctx_supervision_data c)) c in
  if prof_duplicate_tool_call_threshold (ctx_profile c) <=? count then
    let! d := decision_redirect "duplicate-tool-call-detector"
      (fstr ["repeated identical tool call detected ("; zstr count; " times)"])
      "The same tool call has been repeated without enough progress. Do not repeat it again; inspect prior observations and choose a new strategy."
      [("count", JInt count); ("tool", JStr (call_name call))] in
    Ok (c', d)
  else base_decision "duplicate-tool-call-detector" c'.

Definition duplicate_before_tool (call : ToolCall) (c : RuntimeContext)
  : outcome (RuntimeContext * SupervisionDecision) :=
  match default (JObj []) (dget "duplicate_tool_calls" (ctx_supervision_data c)) with
  | JObj state =>
      let! count := series_count call state in
      record_series call state count c
  | _ => Raise (attribute_error "get")
  end.
End Detectors.

(** ** [NoProgressDetector] *)

Definition progress_after_tool (call : ToolCall) (result : ToolResult) (c : RuntimeContext)
  : outcome (RuntimeContext * SupervisionDecision) :=
  if bool_decide (res_status result = T_SUCCESS) then
    base_decision "no-progress-detector"
      (set_supervision_data (dset "consecutive_tool_failures" (JInt 0) (ctx_supervision_data c)) c)
  else
    let! n := py_int (default (JInt 0) (dget "consecutive_tool_failures" (ctx_supervision_data c))) in
    let count := n + 1 in
    let c' := set_supervision_data
                (dset "consecutive_tool_failures" (JInt count) (ctx_supervision_data c)) c in
    if prof_max_consecutive_tool_failures (ctx_profile c) <=? count then
      let! d := decision_redirect "no-progress-detector"
        (fstr ["consecutive tool failures detected ("; zstr count; ")"])
        "Multiple tool attempts have failed. Review the error observations, change the approach, and avoid issuing another equivalent call."
        [("count", JInt count); ("last_tool", JStr (call_name call))] in
      Ok (c', d)
    else base_decision "no-progress-detector" c'.

(** ** The default supervisor *)

Section Default.
Context `{FloatRepr} {X : Type}.

Definition ExecutionBudget : Supervisor X :=
  mk_Supervisor (policy_hook budget_before_model)
    (fun call => policy_hook (budget_before_tool call))
    (fun _ _ => policy_hook (base_decision "execution-budget")).

Definition DuplicateToolCallDetector : Supervisor X :=
  mk_Supervisor (policy_hook (base_decision "duplicate-tool-call-detector"))
    (fun call => policy_hook (duplicate_before_tool call))
    (fun _ _ => policy_hook (base_decision "duplicate-tool-call-detector")).

Definition NoProgressDetector : Supervisor X :=
  mk_Supervisor (policy_hook (base_decision "no-progress-detector"))
    (fun _ => policy_hook (base_decision "no-progress-detector"))
    (fun call result => policy_hook (progress_after_tool call result)).

(** [build_default_supervisor]. *)
Definition build_default_supervisor : Supervisor X :=
  CompositeSupervisor [ExecutionBudget; DuplicateToolCallDetector; NoProgressDetector].
End Default.

(** ** Applying a decision *)

Section Apply.
Context {X : Type}.
Variable env : nat -> ambient.
Abbreviation M := (prog (World X)).

(** [apply_supervision_decision]. *)
Definition apply_supervision_decision (d : SupervisionDecision) (append_message : bool) : M unit :=
  do* emit_event env EV_SUPERVISOR_INTERVENED (SupervisionDecision_dump d) in
  do* (if append_message && negb (falsy (dec_message d)) then
         let* m := of_outcome (Message_system (default "" (dec_message d))) in
         ctx_put (fun c => set_messages (ctx_messages c ++ [m]) c)
       else ret tt) in
  if bool_decide (dec_action d = STOP) then
    match dec_terminal_status d with
    | None => throw (Exn InvalidStateTransitionError "stop decision has no terminal status")
    | Some status =>
        do* ctx_put (set_error (dec_reason d)) in
        ctx_do (ctx_transition status)
    end
  else ret tt.
End Apply.

(** ** What the default supervisor decides

    The specification keeps two counters: the length of the current series
    of identical tool calls, with their fingerprint, and the number of
    failures since the last success. *)

Record sup_view := mk_sup_view {
  v_series : option (string * Z);
  v_failures : Z;
}.

(** The counters as [supervision_data] stores them. *)
Definition sees (c : RuntimeContext) (v : sup_view) : Prop :=
  dget "duplicate_tool_calls" (ctx_supervision_data c)
    = option_map (fun fn : string * Z =>
        JObj [("fingerprint", JStr (fst fn)); ("count", JInt (snd fn))]) (v_series v) /\
  (dget "consecutive_tool_failures" (ctx_supervision_data c) = Some (JInt (v_failures v)) \/
   dget "consecutive_tool_failures" (ctx_supervision_data c) = None /\ v_failures v = 0).

(** The series after one more call. *)
Definition next_series (fp : string) (s : option (string * Z)) : string * Z :=
  match s with
  | Some (fp', n) => if bool_decide (fp' = fp) then (fp, n + 1) else (fp, 1)
  | None => (fp, 1)
  end.

(** Everything but the counters. *)
Definition only_counters (c c' : RuntimeContext) : Prop :=
  set_supervision_data [] c' = set_supervision_data [] c /\
  (NoDup (dkeys (ctx_supervision_data c)) -> NoDup (dkeys (ctx_supervision_data c'))) /\
  forall k, k <> "duplicate_tool_calls" -> k <> "consecutive_tool_failures" ->
    dget k (ctx_supervision_data c') = dget k (ctx_supervision_data c).

(** A decision whose reason, if it has one, says something. *)
Definition reasoned (d : SupervisionDecision) : Prop :=
  match dec_reason d with Some r => blank r = false | None => True end.

(** A hook that returns decision [d] and leaves context [c']. *)
Definition decides {X} (p : prog (World X) SupervisionDecision) (st : sys (World X))
  (c' : RuntimeContext) (a : SupervisionAction) (terminal : option RunStatus) : Prop :=
  exists d, p st = Some (mk_sys (set_ctx c' (sys_w st)) (sys_tick st), Ok d) /\
    dec_action d = a /\ dec_terminal_status d = terminal /\ reasoned d.

Lemma set_ctx_id {X} (w : World X) : set_ctx (w_ctx w) w = w.
Proof. by destruct w. Qed.

Lemma set_ctx_twice {X} a b (w : World X) : set_ctx a (set_ctx b w) = set_ctx a w.
Proof. done. Qed.

Lemma policy_hook_run {X} f (st : sys (World X)) c' d :
  f (w_ctx (sys_w st)) = Ok (c', d) ->
  policy_hook f st = Some (mk_sys (set_ctx c' (sys_w st)) (sys_tick st), Ok d).
Proof. intros Hf. unfold policy_hook, bind, ctx_get, of_outcome. by rewrite Hf. Qed.

(** Consulting the next policy, or not. *)
Lemma first_intervention_continue {X} hook (p : Supervisor X) ps st st' d :
  hook p st = Some (st', Ok d) -> continues d = true ->
  first_intervention hook (p :: ps) st = first_intervention hook ps st'.
Proof. intros Hp Hd. simpl. rewrite (bind_Ok _ _ _ _ _ Hp). by rewrite Hd. Qed.

Lemma first_intervention_stop {X} hook (p : Supervisor X) ps st st' d :
  hook p st = Some (st', Ok d) -> continues d = false ->
  first_intervention hook (p :: ps) st = Some (st', Ok d).
Proof. intros Hp Hd. simpl. rewrite (bind_Ok _ _ _ _ _ Hp). by rewrite Hd. Qed.

(** A policy that has nothing to say. *)
Lemma base_hook_run {X} name (st : sys (World X)) :
  1 <= slen name ->
  policy_hook (base_decision name) st
  = Some (st, Ok (mk_SupervisionDecision name CONTINUE None None None [])).
Proof.
  intros Hn. erewrite policy_hook_run.
  2: { unfold base_decision, decision_continue, SupervisionDecision_new, checked. simpl.
       rewrite (proj2 (Z.leb_le _ _)) by done. reflexivity. }
  rewrite set_ctx_id. by destruct st.
Qed.

Lemma composite_continue {X} (st : sys (World X)) hook :
  first_intervention hook [] st
  = Some (st, Ok (mk_SupervisionDecision "composite-supervisor" CONTINUE None None None [])).
Proof. reflexivity. Qed.

Lemma only_counters_refl c : only_counters c c.
Proof. done. Qed.

Lemma only_counters_set k v c :
  k = "duplicate_tool_calls" \/ k = "consecutive_tool_failures" ->
  only_counters c (set_supervision_data (dset k v (ctx_supervision_data c)) c).
Proof.
  intros Hk. split; [done|]. split; [apply dset_NoDup|].
  intros j Hx1 Hx2. simpl. apply dget_dset_ne. naive_solver.
Qed.

Lemma json_eqb_str a b : json_eqb (JStr a) (JStr b) = bool_decide (a = b).
Proof. done. Qed.

(** The detector of duplicates follows the specification. *)
Lemma duplicate_step `{FloatRepr} call c v :
  sees c v ->
  exists c' d, duplicate_before_tool call c = Ok (c', d) /\
    sees c' (mk_sup_view (Some (next_series (fingerprint call) (v_series v))) (v_failures v)) /\
    only_counters c c' /\
    dec_action d = (if prof_duplicate_tool_call_threshold (ctx_profile c)
                         <=? snd (next_series (fingerprint call) (v_series v))
                    then REDIRECT else CONTINUE) /\
    dec_terminal_status d = None /\ reasoned d.
Proof.
  intros [Hd Hf]. unfold duplicate_before_tool. rewrite Hd.
  set (fp := fingerprint call).
  assert (forall (state : jdict) count,
    series_count call state = Ok count ->
    dmerge state [("fingerprint", JStr fp); ("count", JInt count)]
      = [("fingerprint", JStr fp); ("count", JInt count)] ->
    next_series fp (v_series v) = (fp, count) ->
    exists c' d, (let! n := series_count call state in record_series call state n c) = Ok (c', d) /\
      sees c' (mk_sup_view (Some (next_series fp (v_series v))) (v_failures v)) /\
      only_counters c c' /\
      dec_action d = (if prof_duplicate_tool_call_threshold (ctx_profile c)
                           <=? snd (next_series fp (v_series v))
                      then REDIRECT else CONTINUE) /\ dec_terminal_status d = None /\
      reasoned d) as Hgo.
  { intros state count Hc Hm ->. rewrite Hc. unfold record_series. cbv zeta.
    fold fp. rewrite Hm. set (c' := set_supervision_data _ c).
    assert (sees c' (mk_sup_view (Some (fp, count)) (v_failures v))) as Hs.
    { split; simpl; [apply dget_dset_eq|]. by rewrite dget_dset_ne. }
    assert (only_counters c c') as Ho by (apply only_counters_set; auto).
    simpl. destruct (_ <=? count); eexists c', _; split_and!; try done. by apply blank_cons. }
  destruct (v_series v) as [[fp' n]|] eqn:Ev; simpl in *.
  - apply (Hgo _ (if bool_decide (fp' = fp) then n + 1 else 1)); [|done|by case_bool_decide].
    unfold series_count. simpl. fold fp. by case_bool_decide.
  - by apply (Hgo [] 1).
Qed.

(** The detector of failures follows the specification. *)
Lemma progress_step call result c v :
  sees c v ->
  let n := if bool_decide (res_status result = T_SUCCESS) then 0 else v_failures v + 1 in
  exists c' d, progress_after_tool call result c = Ok (c', d) /\
    sees c' (mk_sup_view (v_series v) n) /\ only_counters c c' /\
    dec_action d = (if negb (bool_decide (res_status result = T_SUCCESS))
                       && (prof_max_consecutive_tool_failures (ctx_profile c) <=? n)
                    then REDIRECT else CONTINUE) /\
    dec_terminal_status d = None /\ reasoned d.
Proof.
  intros [Hd Hf] n. unfold progress_after_tool, n. clear n.
  assert (forall count, let c' := set_supervision_data
            (dset "consecutive_tool_failures" (JInt count) (ctx_supervision_data c)) c in
          sees c' (mk_sup_view (v_series v) count) /\ only_counters c c') as Hs.
  { intros count. split; [|apply only_counters_set; auto]. split; simpl.
    - by rewrite dget_dset_ne.
    - left. apply dget_dset_eq. }
  case_bool_decide; simpl.
  - destruct (Hs 0) as [Hx1 Hx2]. eexists _, _. split_and!; try done.
  - assert (py_int (default (JInt 0)
              (dget "consecutive_tool_failures" (ctx_supervision_data c))) = Ok (v_failures v)) as ->.
    { destruct Hf as [->|[-> ->]]; done. }
    destruct (Hs (v_failures v + 1)) as [Hx1 Hx2].
    destruct (_ <=? _); eexists _, _; split_and!; try done. by apply blank_cons.
Qed.

Lemma next_series_fst fp s : fst (next_series fp s) = fp.
Proof. destruct s as [[f n]|]; simpl; [|done]. by case_bool_decide. Qed.

(** The series is the run of identical fingerprints at the end of the
    history. *)
Lemma series_length (fp : string) (history : list string) k :
  last history <> Some fp -> (0 < k)%nat ->
  fold_left (fun s f => Some (next_series f s)) (history ++ replicate k fp) None
  = Some (fp, Z.of_nat k).
Proof.
  intros Hl Hk. rewrite fold_left_app.
  assert (forall s, match s with Some (f, _) => f <> fp | None => True end ->
    forall k, (0 < k)%nat ->
    fold_left (fun s f => Some (next_series f s)) (replicate k fp) s = Some (fp, Z.of_nat k)) as Hgo.
  { intros s Hs. assert (forall m n, fold_left (fun s f => Some (next_series f s)) (replicate m fp)
      (Some (fp, n)) = Some (fp, n + Z.of_nat m)) as Hm.
    { induction m as [|m IH]; intros n; simpl; [do 2 f_equal; lia|].
      rewrite bool_decide_true by done. rewrite IH. do 2 f_equal. lia. }
    intros [|j] Hj; [lia|]. cbn [replicate fold_left].
    assert (next_series fp s = (fp, 1)) as ->.
    { destruct s as [[f n]|]; [|done]. simpl. rewrite bool_decide_false; done. }
    rewrite Hm. do 2 f_equal. lia. }
  apply Hgo; [|done]. destruct history as [|f0 history] using rev_ind; [done|].
  rewrite last_snoc in Hl. rewrite fold_left_app. simpl.
  pose proof (next_series_fst f0 (fold_left (fun s f => Some (next_series f s)) history None)) as Hf.
  destruct (next_series f0 _) as [f n]. simpl in Hf. naive_solver.
Qed.

Section DefaultSupervisor.
Context `{FloatRepr} {X : Type}.
Implicit Types st : sys (World X).

Ltac next_policy := erewrite first_intervention_continue;
  [|apply base_hook_run; vm_compute; done|reflexivity].

Lemma slen_pos s : s <> "" -> 1 <= slen s.
Proof. unfold slen. destruct s; simpl; [done|lia]. Qed.

Lemma budget_stop_run name reason limit kind st :
  blank reason = false -> 1 <= slen name ->
  exists d, decision_stop name reason LIMIT_REACHED [("limit", JInt limit); ("kind", JStr kind)] = Ok d /\
    dec_action d = STOP /\ dec_terminal_status d = Some LIMIT_REACHED /\ reasoned d /\
    continues d = false.
Proof.
  intros Hr Hn. unfold decision_stop, SupervisionDecision_new, checked. simpl.
  rewrite (proj2 (Z.leb_le _ _)) by done. unfold SupervisionDecision_validate. simpl.
  destruct reason as [|a reason]; [done|]. simpl. eexists. by split_and!.
Qed.

Lemma before_model_decides st v :
  sees (w_ctx (sys_w st)) v ->
  decides (sup_before_model build_default_supervisor) st (w_ctx (sys_w st))
    (if prof_max_steps (ctx_profile (w_ctx (sys_w st))) <=? ctx_step_count (w_ctx (sys_w st))
     then STOP else CONTINUE)
    (if prof_max_steps (ctx_profile (w_ctx (sys_w st))) <=? ctx_step_count (w_ctx (sys_w st))
     then Some LIMIT_REACHED else None).
Proof.
  intros _. set (c := w_ctx (sys_w st)).
  unfold decides. cbn [build_default_supervisor CompositeSupervisor sup_before_model].
  destruct (prof_max_steps (ctx_profile c) <=? ctx_step_count c) eqn:E.
  - destruct (budget_stop_run "execution-budget"
      (fstr ["maximum model steps reached ("; zstr (prof_max_steps (ctx_profile c)); ")"])
      (prof_max_steps (ctx_profile c)) "model_steps" st) as (d & Hd & Ha & Ht & Hr & Hc);
      [by apply blank_cons|vm_compute; done|].
    exists d. split; [|done]. apply first_intervention_stop; [|done].
    apply policy_hook_run. unfold budget_before_model. fold c. by rewrite E, Hd.
  - exists (mk_SupervisionDecision "composite-supervisor" CONTINUE None None None []).
    split; [|by split_and!].
    erewrite first_intervention_continue.
    2: { apply policy_hook_run. unfold budget_before_model. fold c. rewrite E. reflexivity. }
    2: { reflexivity. }
    unfold c. rewrite set_ctx_id. destruct st as [w n]. cbn [sys_w sys_tick].
    do 2 next_policy. apply composite_continue.
Qed.

Lemma before_tool_decides call st v :
  sees (w_ctx (sys_w st)) v ->
  let c := w_ctx (sys_w st) in
  let series := next_series (fingerprint call) (v_series v) in
  if prof_max_tool_calls (ctx_profile c) <=? ctx_tool_call_count c
  then decides (sup_before_tool build_default_supervisor call) st c STOP (Some LIMIT_REACHED)
  else exists c', only_counters c c' /\ sees c' (mk_sup_view (Some series) (v_failures v)) /\
    decides (sup_before_tool build_default_supervisor call) st c'
      (if prof_duplicate_tool_call_threshold (ctx_profile c) <=? snd series
       then REDIRECT else CONTINUE) None.
Proof.
  intros Hs c series. unfold decides.
  cbn [build_default_supervisor CompositeSupervisor sup_before_tool].
  destruct (prof_max_tool_calls (ctx_profile c) <=? ctx_tool_call_count c) eqn:E.
  - destruct (budget_stop_run "execution-budget"
      (fstr ["maximum tool calls reached ("; zstr (prof_max_tool_calls (ctx_profile c)); ")"])
      (prof_max_tool_calls (ctx_profile c)) "tool_calls" st) as (d & Hd & Ha & Ht & Hr & Hc);
      [by apply blank_cons|vm_compute; done|].
    exists d. split; [|done]. apply first_intervention_stop; [|done].
    apply policy_hook_run. unfold budget_before_tool. fold c. by rewrite E, Hd.
  - destruct (duplicate_step call c v Hs) as (c' & d & Hd & Hs' & Ho & Ha & Ht & Hr).
    exists c'. split_and!; [done|exact Hs'|].
    assert (forall rest, first_intervention (fun p => sup_before_tool p call)
              (ExecutionBudget :: rest) st
            = first_intervention (fun p => sup_before_tool p call) rest st) as ->.
    { intros rest. erewrite first_intervention_continue.
      2: { apply policy_hook_run. unfold budget_before_tool. fold c. rewrite E. reflexivity. }
      2: { reflexivity. }
      unfold c. rewrite set_ctx_id. by destruct st. }
    assert (policy_hook (duplicate_before_tool call) st
            = Some (mk_sys (set_ctx c' (sys_w st)) (sys_tick st), Ok d)) as Hrun
      by (by apply policy_hook_run).
    fold series in Ha. destruct (_ <=? snd series).
    + exists d. split; [|done]. apply first_intervention_stop; [exact Hrun|].
      unfold continues. by rewrite Ha.
    + exists (mk_SupervisionDecision "composite-supervisor" CONTINUE None None None []).
    split; [|by split_and!].
      erewrite first_intervention_continue; [|exact Hrun|unfold continues; by rewrite Ha].
      next_policy. apply composite_continue.
Qed.

Lemma after_tool_decides call result st v :
  sees (w_ctx (sys_w st)) v ->
  let c := w_ctx (sys_w st) in
  let failed := negb (bool_decide (res_status result = T_SUCCESS)) in
  let n := if failed then v_failures v + 1 else 0 in
  exists c', only_counters c c' /\ sees c' (mk_sup_view (v_series v) n) /\
    decides (sup_after_tool build_default_supervisor call result) st c'
      (if failed && (prof_max_consecutive_tool_failures (ctx_profile c) <=? n)
       then REDIRECT else CONTINUE) None.
Proof.
  intros Hs c failed n. unfold decides.
  cbn [build_default_supervisor CompositeSupervisor sup_after_tool].
  destruct (progress_step call result c v Hs) as (c' & d & Hd & Hs' & Ho & Ha & Ht & Hr).
  assert ((if bool_decide (res_status result = T_SUCCESS) then 0 else v_failures v + 1) = n) as Hn
    by (unfold n, failed; by case_bool_decide).
  rewrite Hn in Hs', Ha. fold failed in Ha.
  exists c'. split_and!; [done|exact Hs'|].
  do 2 next_policy.
  assert (policy_hook (progress_after_tool call result) st
          = Some (mk_sys (set_ctx c' (sys_w st)) (sys_tick st), Ok d)) as Hrun
    by (by apply policy_hook_run).
  destruct (failed && _).
  - exists d. split; [|done]. apply first_intervention_stop; [exact Hrun|].
    unfold continues. by rewrite Ha.
  - exists (mk_SupervisionDecision "composite-supervisor" CONTINUE None None None []).
    split; [|by split_and!].
    erewrite first_intervention_continue; [|exact Hrun|unfold continues; by rewrite Ha].
    apply composite_continue.
Qed.
End DefaultSupervisor.

(** C25: the default supervisor refines two counters.  Its hooks always return.
    A model call is stopped exactly when the step budget is used up.  A tool
    call is stopped exactly when the call budget is used up, and the
    detectors are then not consulted; otherwise it extends the series of
    identical calls (same tool, same arguments), and is redirected exactly
    when the series has reached the threshold.  A result is answered with a
    redirect exactly when it is a failure that makes the failures since the
    last success reach their limit.  Nothing else of the context changes. *)
Theorem default_supervisor_refines `{FloatRepr} {X : Type} (st : sys (World X)) v call result :
  let c := w_ctx (sys_w st) in
  let p := ctx_profile c in
  let series := next_series (fingerprint call) (v_series v) in
  let failed := negb (bool_decide (res_status result = T_SUCCESS)) in
  let failures := if failed then v_failures v + 1 else 0 in
  sees c v ->
  decides (sup_before_model build_default_supervisor) st c
    (if prof_max_steps p <=? ctx_step_count c then STOP else CONTINUE)
    (if prof_max_steps p <=? ctx_step_count c then Some LIMIT_REACHED else None) /\
  (if prof_max_tool_calls p <=? ctx_tool_call_count c
   then decides (sup_before_tool build_default_supervisor call) st c STOP (Some LIMIT_REACHED)
   else exists c', only_counters c c' /\ sees c' (mk_sup_view (Some series) (v_failures v)) /\
     decides (sup_before_tool build_default_supervisor call) st c'
       (if prof_duplicate_tool_call_threshold p <=? snd series then REDIRECT else CONTINUE) None) /\
  exists c', only_counters c c' /\ sees c' (mk_sup_view (v_series v) failures) /\
    decides (sup_after_tool build_default_supervisor call result) st c'
      (if failed && (prof_max_consecutive_tool_failures p <=? failures) then REDIRECT else CONTINUE)
      None.
Proof.
  intros c p series failed failures Hs. split_and!.
  - by eapply before_model_decides.
  - by apply before_tool_decides.
  - by apply after_tool_decides.
Qed.

Definition example_world : World unit :=
  mk_World example_waiting ∅ ∅ ∅ (mk_ConversationStore ∅ ∅) (mk_ResourceScope SCOPE_CREATED [] []) tt.

Lemma default_supervisor_refines_witness :
  exists c', decides (sup_before_tool (build_default_supervisor (H := fun _ => "")) (mk_ToolCall "c2" "ask" []))
    (mk_sys example_world 0) c' CONTINUE None.
Proof.
  destruct (default_supervisor_refines (H := fun _ => "") (mk_sys example_world 0)
    (mk_sup_view None 0) (mk_ToolCall "c2" "ask" []) (mk_ToolResult "ask" T_SUCCESS JNull None None)
    ltac:(split; [reflexivity|right; split; reflexivity])) as (_ & Ht & _).
  destruct Ht as (c' & _ & _ & Hd). exists c'. exact Hd.
Defined.
