(* ===== verification/ToolExecutor.v ===== *)
(** * Tool execution ([src/base_agent/tools/])

    The registry of an Agent's tools, the policy on result sizes, the
    declared confirmation policy, and [ToolExecutor]: permissions,
    confirmation, side-effect evidence and the time limit around one tool
    call.  A tool's own code, a custom confirmation policy and the recorder
    are arbitrary programs. *)

From Stdlib Require Import QArith.
From stdpp Require Import base gmap strings list pretty.
From S2P Require Import Prelude Json Models Sha256 Texts Plan StateMachine ConversationStore RunStore EventStore FlowModels SideEffects Program Serial Runtime.

(** ** Tools *)

(** [WaitForInput]. *)
Record WaitForInput := mk_WaitForInput {
  wait_prompt : string;
  wait_metadata : jdict;
}.

Definition WaitForInput_new (w : WaitForInput) : outcome WaitForInput :=
  checked (1 <=? slen (wait_prompt w)) (fun _ => Ok tt) w.

Definition WaitForInput_dump (w : WaitForInput) : json :=
  JObj [("prompt", JStr (wait_prompt w)); ("metadata", JObj (wait_metadata w))].

(** What a tool returns: a request for input, or data with the outcome of
    [to_jsonable_python] on it. *)
Inductive tool_return :=
  | ReturnsWait (w : WaitForInput)
  | ReturnsData (jsonable : outcome json).

(** [ToolContext] without the managers, which a tool reaches through the
    world. *)
Record ToolContext := mk_ToolContext {
  tc_run_id : uuid;
  tc_flow_run_id : option uuid;
  tc_invocation_id : option uuid;
  tc_tool_call_id : option string;
  tc_idempotency_key : option string;
  tc_confirmation : option ToolConfirmation;
}.

(** [replace(context, tool_call_id=...)] and
    [replace(context, idempotency_key=...)]. *)
Definition with_tool_call_id (v : string) (c : ToolContext) : ToolContext :=
  mk_ToolContext (tc_run_id c) (tc_flow_run_id c) (tc_invocation_id c) (Some v)
    (tc_idempotency_key c) (tc_confirmation c).
Definition with_idempotency_key (v : option string) (c : ToolContext) : ToolContext :=
  mk_ToolContext (tc_run_id c) (tc_flow_run_id c) (tc_invocation_id c) (tc_tool_call_id c) v
    (tc_confirmation c).

Inductive ToolConfirmationMode := CM_NONE | CM_REQUIRED.

#[export] Instance ToolConfirmationMode_eq_dec : EqDecision ToolConfirmationMode.
Proof. solve_decision. Defined.

Definition ToolSideEffectMode_value (m : ToolSideEffectMode) : string :=
  match m with
  | SM_UNSPECIFIED => "unspecified" | SM_READ_ONLY => "read_only"
  | SM_UNSAFE => "unsafe" | SM_IDEMPOTENT => "idempotent"
  end.

(** The [Tool] protocol and its optional extensions, [None] when the object
    does not satisfy one: [ContextualTool], [ArgumentValidatingTool],
    [GovernedTool], [ConfirmableTool]. *)
Record Tool (X : Type) := mk_Tool {
  tool_definition : ToolDefinition;
  tool_permissions : gset string;
  tool_timeout_seconds : seconds;
  tool_invoke : jdict -> awaitable (World X) tool_return;
  tool_invoke_with_context : option (jdict -> ToolContext -> awaitable (World X) tool_return);
  tool_validate_arguments : option (jdict -> outcome jdict);
  tool_side_effect_mode : option ToolSideEffectMode;
  tool_confirmation_mode : option ToolConfirmationMode;
}.
Arguments mk_Tool {X}.
Arguments tool_definition {X}.
Arguments tool_permissions {X}.
Arguments tool_timeout_seconds {X}.
Arguments tool_invoke {X}.
Arguments tool_invoke_with_context {X}.
Arguments tool_validate_arguments {X}.
Arguments tool_side_effect_mode {X}.
Arguments tool_confirmation_mode {X}.

(** ** The registry: [_tools], in insertion order *)

Section Registry.
Context {X : Type}.

Abbreviation ToolRegistry := (list (string * Tool X)).

Definition tool_name (t : Tool X) : string := td_name (tool_definition t).

(** [add]. *)
Definition registry_add_tool (t : Tool X) (r : ToolRegistry) : outcome ToolRegistry :=
  raise_when bool_decide (tool_name t ∈ dkeys r)
    as Exn DuplicateToolError (fstr ["tool '"; tool_name t; "' is already registered"]) in
  Ok (dset (tool_name t) t r).

(** [ToolRegistry(tools)]. *)
Fixpoint tool_registry_from (r : ToolRegistry) (tools : list (Tool X)) : outcome ToolRegistry :=
  match tools with
  | [] => Ok r
  | t :: tools' => let! r' := registry_add_tool t r in tool_registry_from r' tools'
  end.

Definition ToolRegistry_new (tools : list (Tool X)) : outcome ToolRegistry :=
  tool_registry_from [] tools.

(** [get]. *)
Definition tool_get (name : string) (r : ToolRegistry) : option (Tool X) := dget name r.

(** [require]. *)
Fixpoint tools_require (names : list string) (r : ToolRegistry) : outcome (list (Tool X)) :=
  match names with
  | [] => Ok []
  | n :: names' =>
      match tool_get n r with
      | None => Raise (Exn ToolNotFoundError (fstr ["tool '"; n; "' is not registered"]))
      | Some t => let! ts := tools_require names' r in Ok (t :: ts)
      end
  end.

(** [definitions]. *)
Definition tool_definitions (names : list string) (r : ToolRegistry)
  : outcome (list ToolDefinition) :=
  let! ts := tools_require names r in Ok (map tool_definition ts).
End Registry.

(** ** Result sizes *)

(** [BoundedToolResultPolicy.enforce] for [limits.max_bytes]. *)
Definition enforce `{JsonFloat} (max_bytes : Z) (r : ToolResult) : ToolResult :=
  let size_bytes := slen (utf8 (ToolResult_json r)) in
  if size_bytes <=? max_bytes then r
  else
    mk_ToolResult (res_tool_name r) T_ERROR
      (JObj [("original_size_bytes", JInt size_bytes); ("limit_bytes", JInt max_bytes);
             ("original_status", JStr (ToolResultStatus_value (res_status r)));
             ("overflow_action", JStr "rejected")])
      (Some "tool_result_too_large") (Some "Tool result exceeded the configured size limit").

(** ** Confirmation *)

Record ToolConfirmationRequest := mk_ToolConfirmationRequest {
  cr_id : uuid;
  cr_tool_call_id : string;
  cr_tool_name : string;
  cr_side_effect_mode : ToolSideEffectMode;
  cr_prompt : string;
}.

Definition ToolConfirmationRequest_fields (r : ToolConfirmationRequest) : bool :=
  (1 <=? slen (cr_tool_call_id r)) && len_between 1 128 (cr_tool_name r)
  && len_between 1 1000 (cr_prompt r).

Definition ToolConfirmationRequest_dump (r : ToolConfirmationRequest) : json :=
  JObj [("id", juuid (cr_id r)); ("tool_call_id", JStr (cr_tool_call_id r));
        ("tool_name", JStr (cr_tool_name r));
        ("side_effect_mode", JStr (ToolSideEffectMode_value (cr_side_effect_mode r)));
        ("prompt", JStr (cr_prompt r))].

(** [DeclaredToolConfirmationPolicy.request]. *)
Definition declared_request `{JsonFloat} (call : ToolCall) (tool_name : string)
  (side_effect_mode : ToolSideEffectMode) (confirmation_mode : ToolConfirmationMode)
  (context : ToolContext) : outcome (option ToolConfirmationRequest) :=
  if bool_decide (confirmation_mode = CM_NONE) then Ok None
  else
    let identity := sha256_hex (utf8 (ToolCall_json call)) in
    let request_id := uuid5 NAMESPACE_URL
      (fstr ["base-agent:tool-confirmation:"; uuid_str (tc_run_id context); ":"; tool_name; ":";
             identity]) in
    let r := mk_ToolConfirmationRequest request_id (call_id call) tool_name side_effect_mode
               (fstr ["Approve execution of Tool '"; tool_name; "'?"]) in
    let! r := checked (ToolConfirmationRequest_fields r) (fun _ => Ok tt) r in
    Ok (Some r).

(** ** The executor *)

(** [ToolConfirmationPolicy] and [ToolSideEffectRecorder]. *)
Abbreviation confirmation_policy X :=
  (ToolCall -> string -> ToolSideEffectMode -> ToolConfirmationMode -> ToolContext ->
   prog (World X) (option ToolConfirmationRequest)).

Record SideEffectRecorder (X : Type) := mk_SideEffectRecorder {
  recorder_begin : ToolCall -> string -> ToolSideEffectMode -> ToolContext ->
    prog (World X) ToolSideEffectReceipt;
  recorder_end : ToolSideEffectReceipt -> prog (World X) unit;
}.
Arguments mk_SideEffectRecorder {X}.
Arguments recorder_begin {X}.
Arguments recorder_end {X}.

(** [ToolExecutor]: [limit_bytes] is the bound of its
    [BoundedToolResultPolicy]. *)
Record ToolExecutor (X : Type) := mk_ToolExecutor {
  ex_registry : list (string * Tool X);
  ex_recorder : option (SideEffectRecorder X);
  ex_policy : confirmation_policy X;
  ex_limit_bytes : Z;
}.
Arguments mk_ToolExecutor {X}.
Arguments ex_registry {X}.
Arguments ex_recorder {X}.
Arguments ex_policy {X}.
Arguments ex_limit_bytes {X}.

(** [ToolExecutor(registry)]. *)
Definition ToolExecutor_default `{JsonFloat} {X} (registry : list (string * Tool X))
  : ToolExecutor X :=
  mk_ToolExecutor registry None
    (fun call name sm cm ctx => of_outcome (declared_request call name sm cm ctx)) 262144.

Definition result_of (name : string) (status : ToolResultStatus) (code message : string)
  : ToolResult :=
  mk_ToolResult name status JNull (Some code) (Some message).

(** The [WAITING] result of a [WaitForInput]. *)
Definition waiting_result (name : string) (w : WaitForInput) : ToolResult :=
  mk_ToolResult name T_WAITING (WaitForInput_dump w) None (Some (wait_prompt w)).

(** The [except] clauses. *)
Definition result_of_exception {X} (t : Tool X) (name : string) (e : exn) : option ToolResult :=
  if isinstance e ValidationError || isinstance e ToolInvalidArgumentsError then
    Some (result_of name T_INVALID_ARGUMENTS "invalid_arguments" (exn_str e))
  else if isinstance e ToolSideEffectReplayUnsafeError then
    Some (result_of name T_DENIED "side_effect_replay_unsafe" "Tool replay requires operator review")
  else if isinstance e ToolSideEffectRecorderError then
    Some (result_of name T_ERROR "side_effect_evidence_error"
            "Tool side-effect evidence could not be recorded")
  else if isinstance e ExTimeoutError then
    Some (result_of name T_TIMEOUT "tool_timeout"
            (fstr ["tool exceeded timeout of "; format_g (tool_timeout_seconds t); " seconds"]))
  else if is_exception e then
    Some (result_of name T_ERROR "tool_execution_error" (exn_str e))
  else None.

Section Executor.
Context `{JsonFloat} {X : Type}.
Variable expires : nat -> bool.
Variable ex : ToolExecutor X.

Abbreviation M := (prog (World X)).

(** The confirmation a request still lacks: [Some] is the result that ends
    the call. *)
Definition confirmation_result (name : string) (request : option ToolConfirmationRequest)
  (context : option ToolContext) : outcome (option ToolResult) :=
  match request with
  | None => Ok None
  | Some r =>
      match context with
      | None => Raise assertion_error
      | Some c =>
          match tc_confirmation c with
          | None =>
              let! w := WaitForInput_new
                (mk_WaitForInput (cr_prompt r)
                   [("kind", JStr "tool_confirmation");
                    ("request", ToolConfirmationRequest_dump r)]) in
              Ok (Some (waiting_result name w))
          | Some k =>
              if negb (bool_decide (conf_request_id k = cr_id r)) then
                Ok (Some (result_of name T_DENIED "tool_confirmation_mismatch"
                            "Tool confirmation targets another request"))
              else if bool_decide (conf_decision k = REJECT) then
                Ok (Some (result_of name T_DENIED "tool_confirmation_rejected"
                            "Tool execution was rejected"))
              else Ok None
          end
      end
  end.

(** Side-effect evidence before the transport: the receipt and the context
    to invoke the tool with. *)
Definition begin_evidence (call : ToolCall) (t : Tool X) (mode : ToolSideEffectMode)
  (context : option ToolContext) : M (option ToolSideEffectReceipt * option ToolContext) :=
  match ex_recorder ex with
  | Some recorder =>
      if bool_decide (mode ∈ [SM_UNSAFE; SM_IDEMPOTENT]) then
        match context with
        | None => throw (Exn ToolSideEffectContextError "governed Tool execution requires ToolContext")
        | Some c =>
            if bool_decide (mode = SM_IDEMPOTENT) && is_none (tool_invoke_with_context t) then
              throw (Exn ToolSideEffectContextError "idempotent Tool must consume ToolContext")
            else
              let* receipt := recorder_begin recorder call (call_name call) mode c in
              ret (Some receipt, Some (with_idempotency_key (rc_idempotency_key receipt) c))
        end
      else ret (None, context)
  | None => ret (None, context)
  end.

(** The invocation under its time limit, then the confirmation of the
    evidence. *)
Definition run_tool (name : string) (t : Tool X) (arguments : jdict)
  (receipt : option ToolSideEffectReceipt) (context : option ToolContext) : M ToolResult :=
  let invocation := match context, tool_invoke_with_context t with
                    | Some c, Some invoke => invoke arguments c
                    | _, _ => tool_invoke t arguments
                    end in
  let* data := with_timeout expires invocation in
  match data with
  | ReturnsWait w => ret (waiting_result name w)
  | ReturnsData jsonable =>
      do* match receipt with
          | None => ret tt
          | Some r =>
              match ex_recorder ex with
              | Some recorder => recorder_end recorder r
              | None => throw assertion_error
              end
          end in
      let* data := of_outcome jsonable in
      ret (mk_ToolResult name T_SUCCESS data None None)
  end.

(** The body of the [try] statement. *)
Definition execute_registered (call : ToolCall) (t : Tool X) (context : option ToolContext)
  : M ToolResult :=
  let name := call_name call in
  let* arguments := of_outcome (match tool_validate_arguments t with
                                | Some validate => validate (call_arguments call)
                                | None => Ok (call_arguments call)
                                end) in
  let context := option_map (with_tool_call_id (call_id call)) context in
  let side_effect_mode := default SM_UNSPECIFIED (tool_side_effect_mode t) in
  let confirmation_mode := default CM_NONE (tool_confirmation_mode t) in
  if is_none context && bool_decide (confirmation_mode = CM_REQUIRED) then
    ret (result_of name T_ERROR "tool_confirmation_context_required"
           "Tool confirmation requires execution context")
  else
    let* request := match context with
                    | Some c => ex_policy ex call name side_effect_mode confirmation_mode c
                    | None => ret None
                    end in
    let* refused := of_outcome (confirmation_result name request context) in
    match refused with
    | Some r => ret r
    | None =>
        let* evidence := begin_evidence call t side_effect_mode context in
        run_tool name t arguments (fst evidence) (snd evidence)
    end.

(** [_execute_unbounded]. *)
Definition execute_unbounded (call : ToolCall) (granted : gset string)
  (allowed : option (gset string)) (context : option ToolContext) : M ToolResult :=
  let name := call_name call in
  if match allowed with Some names => negb (bool_decide (name ∈ names)) | None => false end then
    ret (result_of name T_DENIED "tool_not_allowed"
           (fstr ["tool '"; name; "' is not allowed in this execution"]))
  else
    match tool_get name (ex_registry ex) with
    | None =>
        ret (result_of name T_NOT_FOUND "tool_not_found"
               (fstr ["tool '"; name; "' is not registered"]))
    | Some t =>
        let missing := elements (tool_permissions t ∖ granted) in
        if negb (bool_decide (missing = [])) then
          ret (result_of name T_DENIED "permission_denied"
                 (fstr ["missing tool permissions: ";
                        String.concat ", " (sorted_by string_leb missing)]))
        else
          try_except (execute_registered call t context)
            (fun e => option_map ret (result_of_exception t name e))
    end.

(** [execute]. *)
Definition tool_execute (call : ToolCall) (granted : gset string)
  (allowed : option (gset string)) (context : option ToolContext) : M ToolResult :=
  let* r := execute_unbounded call granted allowed context in
  ret (enforce (ex_limit_bytes ex) r).
End Executor.

(** ** The gate in front of a tool *)

Section Gate.
Context `{JsonFloat} {X : Type}.
Variable expires : nat -> bool.
Variable ex : ToolExecutor X.

(** The awaitables of a tool end, whether awaited or cut by the deadline. *)
Definition awaitable_ends {W A} (op : awaitable W A) : Prop := ends (aw_run op) /\ ends (aw_cut op).

Definition tool_ends (t : Tool X) : Prop :=
  (forall args, awaitable_ends (tool_invoke t args)) /\
  match tool_invoke_with_context t with
  | Some invoke => forall args c, awaitable_ends (invoke args c)
  | None => True
  end.

(** A program that ends and keeps [P], whatever its outcome. *)
Definition keeps {A} (P : World X -> Prop) (p : prog (World X) A) : Prop :=
  forall st, P (sys_w st) -> exists st' o, p st = Some (st', o) /\ P (sys_w st').

(** Everything the executor calls ends, and nothing but the tools (and the
    end of the evidence, which follows them) can break [P]. *)
Definition only_tools_break (P : World X -> Prop) : Prop :=
  (forall call name sm cm c, keeps P (ex_policy ex call name sm cm c)) /\
  match ex_recorder ex with
  | Some r => (forall call name mode c, keeps P (recorder_begin r call name mode c)) /\
              (forall receipt, ends (recorder_end r receipt))
  | None => True
  end /\
  (forall name t, tool_get name (ex_registry ex) = Some t -> tool_ends t).

(** What must hold before a tool runs: it is allowed, registered and
    permitted, its arguments are valid, a confirmation it needs was given by
    an approval of the very request, and evidence can be and was started. *)
Definition gate_open (call : ToolCall) (granted : gset string) (allowed : option (gset string))
  (context : option ToolContext) (st : sys (World X)) : Prop :=
  exists t args,
    match allowed with Some names => call_name call ∈ names | None => True end /\
    tool_get (call_name call) (ex_registry ex) = Some t /\
    tool_permissions t ⊆ granted /\
    match tool_validate_arguments t with
    | Some validate => validate (call_arguments call) = Ok args
    | None => call_arguments call = args
    end /\
    let sm := default SM_UNSPECIFIED (tool_side_effect_mode t) in
    let cm := default CM_NONE (tool_confirmation_mode t) in
    match option_map (with_tool_call_id (call_id call)) context with
    | None => cm = CM_NONE /\ (is_Some (ex_recorder ex) -> sm ∉ [SM_UNSAFE; SM_IDEMPOTENT])
    | Some c =>
        exists st1 request,
          ex_policy ex call (call_name call) sm cm c st = Some (st1, Ok request) /\
          (forall r, request = Some r -> exists k, tc_confirmation c = Some k /\
             conf_request_id k = cr_id r /\ conf_decision k = APPROVE) /\
          (forall rec, ex_recorder ex = Some rec -> sm ∈ [SM_UNSAFE; SM_IDEMPOTENT] ->
             exists st2 receipt, recorder_begin rec call (call_name call) sm c st1
                                 = Some (st2, Ok receipt))
    end.

Lemma confirmation_granted name request c :
  confirmation_result name request (Some c) = Ok None ->
  forall r, request = Some r -> exists k, tc_confirmation c = Some k /\
    conf_request_id k = cr_id r /\ conf_decision k = APPROVE.
Proof.
  intros Hc r ->. simpl in Hc. destruct (tc_confirmation c) as [k|].
  - destruct (bool_decide (conf_request_id k = cr_id r)) eqn:E1; [|done]. simpl in Hc.
    destruct (bool_decide (conf_decision k = REJECT)) eqn:E2; [done|]. reflect.
    exists k. split_and!; try done. by destruct (conf_decision k).
  - by destruct (WaitForInput_new _).
Qed.

Lemma run_tool_ends name t args receipt c :
  tool_ends t ->
  (forall r rc, ex_recorder ex = Some r -> ends (recorder_end r rc)) ->
  ends (run_tool expires ex name t args receipt c).
Proof.
  intros [Hi Hc] Hr. unfold run_tool. apply ends_bind.
  - apply ends_timeout; destruct c, (tool_invoke_with_context t); first [apply Hc|apply Hi].
  - intros [w|j]; [apply ends_ret|]. apply ends_bind; [|intros; apply ends_bind].
    + destruct receipt; [|apply ends_ret]. destruct (ex_recorder ex) eqn:E;
        [by apply Hr|apply ends_throw].
    + apply ends_of_outcome.
    + intros; apply ends_ret.
Qed.

Lemma execute_registered_gate P call t granted allowed context st :
  only_tools_break P -> P (sys_w st) ->
  match allowed with Some names => call_name call ∈ names | None => True end ->
  tool_get (call_name call) (ex_registry ex) = Some t -> tool_permissions t ⊆ granted ->
  exists st' o, execute_registered expires ex call t context st = Some (st', o) /\
    (P (sys_w st') \/ gate_open call granted allowed context st).
Proof.
  intros (Hpol & Hrec & Hend) HP Hal Ht Hperm. unfold execute_registered.
  set (args := match tool_validate_arguments t with Some v => _ | None => _ end).
  destruct args as [args'|e] eqn:Eargs; [|eexists _, _; split; [reflexivity|by left]].
  assert (match tool_validate_arguments t with
    | Some validate => validate (call_arguments call) = Ok args'
    | None => call_arguments call = args'
    end) as Hargs.
  { subst args. destruct (tool_validate_arguments t); [done|by injection Eargs]. }
  rewrite (bind_Ok _ _ st st args') by done. cbv zeta. clear args Eargs.
  set (sm := default SM_UNSPECIFIED _). set (cm := default CM_NONE _).
  assert (forall r rc, ex_recorder ex = Some r -> ends (recorder_end r rc)) as Hre.
  { intros r rc Hr. rewrite Hr in Hrec. apply Hrec. }
  assert (forall st receipt c, exists st' o,
    run_tool expires ex (call_name call) t args' receipt c st = Some (st', o)) as Hrun.
  { intros st0 rc c. apply run_tool_ends; [by eapply Hend|done]. }
  destruct (option_map _ context) as [c|] eqn:Ectx; simpl.
  - destruct (Hpol call (call_name call) sm cm c st HP) as (st1 & o1 & E1 & HP1).
    unfold bind at 1. rewrite E1. destruct o1 as [request|e]; [|eexists _, _; split; [done|by left]].
    destruct (confirmation_result (call_name call) request (Some c)) as [refused|e] eqn:Ec;
      [|eexists _, _; split; [reflexivity|by left]].
    rewrite (bind_Ok _ _ st1 st1 refused) by done.
    destruct refused as [r|]; [eexists _, _; split; [reflexivity|by left]|].
    pose proof (confirmation_granted _ _ _ Ec) as Hconf.
    assert ((forall rec, ex_recorder ex = Some rec -> sm ∈ [SM_UNSAFE; SM_IDEMPOTENT] ->
             exists st2 receipt, recorder_begin rec call (call_name call) sm c st1
                                 = Some (st2, Ok receipt)) ->
            gate_open call granted allowed context st) as Hopen.
    { intros Hb. exists t, args'. split_and!; try done. cbv zeta. rewrite Ectx.
      exists st1, request. done. }
    unfold begin_evidence. destruct (ex_recorder ex) as [rec|] eqn:Er.
    + destruct (bool_decide (sm ∈ _)) eqn:Em; reflect.
      * destruct (_ && _); [eexists _, _; split; [reflexivity|by left]|].
        destruct (proj1 Hrec call (call_name call) sm c st1 HP1) as (st2 & o2 & E2 & HP2).
        unfold bind at 1 2. rewrite E2.
        destruct o2 as [receipt|e]; [|eexists _, _; split; [reflexivity|by left]]. simpl.
        edestruct Hrun as (st' & o & E). eexists _, _. split; [exact E|]. right.
        apply Hopen. intros rec' [= <-] _. by exists st2, receipt.
      * edestruct Hrun as (st' & o & E). eexists _, _. split; [exact E|]. right.
        apply Hopen. intros rec' _ Hin. done.
    + edestruct Hrun as (st' & o & E). eexists _, _. split; [exact E|]. right. by apply Hopen.
  - destruct (bool_decide (cm = CM_REQUIRED)) eqn:Ecm;
      [eexists _, _; split; [reflexivity|by left]|]. reflect.
    assert ((is_Some (ex_recorder ex) -> sm ∉ [SM_UNSAFE; SM_IDEMPOTENT]) ->
            gate_open call granted allowed context st) as Hopen.
    { intros Hb. exists t, args'. split_and!; try done. cbv zeta. rewrite Ectx. split; [|done].
      fold cm. by destruct cm. }
    unfold bind at 1. unfold ret at 1. unfold bind at 1, of_outcome at 1. simpl.
    unfold begin_evidence. destruct (ex_recorder ex) as [rec|] eqn:Er.
    + destruct (bool_decide (sm ∈ _)) eqn:Em; reflect; [eexists _, _; split; [reflexivity|by left]|].
      edestruct Hrun as (st' & o & E). eexists _, _. split; [exact E|]. right. by apply Hopen.
    + edestruct Hrun as (st' & o & E). eexists _, _. split; [exact E|]. right. apply Hopen.
      by intros [? ?].
Qed.

Lemma result_of_exception_None (t : Tool X) name e :
  result_of_exception t name e = None -> is_exception e = false.
Proof. unfold result_of_exception. repeat (case_match; [done|]). done. Qed.
End Gate.

(** C23: a tool runs only through the gate, and its failures are results.
    Whatever the tools, the policy and the recorder do (as long as they
    end), [execute] ends; it raises only what is not an [Exception] (the
    cancellation of the task); and when the gate is closed nothing the tool
    could do has happened: any fact that the policy and the start of the
    evidence keep still holds. *)
Theorem tool_runs_only_through_gate `{JsonFloat} {X} expires (ex : ToolExecutor X) P
    call granted allowed context st :
  only_tools_break ex P -> P (sys_w st) ->
  exists st' o, tool_execute expires ex call granted allowed context st = Some (st', o) /\
    match o with
    | Ok r => exists r0, r = enforce (ex_limit_bytes ex) r0
    | Raise e => is_exception e = false
    end /\
    (P (sys_w st') \/ gate_open ex call granted allowed context st).
Proof.
  intros Hok HP. unfold tool_execute.
  assert (exists st' o, execute_unbounded expires ex call granted allowed context st = Some (st', o) /\
    match o with Ok _ => True | Raise e => is_exception e = false end /\
    (P (sys_w st') \/ gate_open ex call granted allowed context st)) as (st' & o & E & Ho & Hg).
  { unfold execute_unbounded.
    destruct (match allowed with Some _ => _ | None => _ end) eqn:Eal;
      [eexists _, _; split; [reflexivity|]; split; [done|by left]|].
    destruct (tool_get _ _) as [t|] eqn:Et; [|eexists _, _; split; [reflexivity|]; split; [done|by left]].
    destruct (negb _) eqn:Em; [eexists _, _; split; [reflexivity|]; split; [done|by left]|].
    assert (tool_permissions t ⊆ granted) as Hperm.
    { reflect. apply elements_empty_inv in Em. set_solver. }
    edestruct (execute_registered_gate expires ex P call t granted allowed context st)
      as (st1 & o1 & E1 & Hg); try done.
    { destruct allowed; [|done]. by reflect. }
    unfold try_except. rewrite E1. destruct o1 as [r|e]; [by eexists _, _|].
    destruct (result_of_exception t (call_name call) e) eqn:Ex; simpl; [by eexists _, _|].
    eexists _, _. split; [done|]. split; [by eapply result_of_exception_None|done]. }
  unfold bind. rewrite E. destruct o as [r|e]; eexists _, _; (split; [reflexivity|]); [|done].
  split; [by exists r|done].
Qed.

Definition counting_tool : Tool Z :=
  mk_Tool (mk_ToolDefinition "fetch" "Fetch." []) {["net"]} 30
    (fun _ => mk_awaitable
       (fun st => Some (mk_sys (mk_World (w_ctx (sys_w st)) (w_runs (sys_w st)) (w_events (sys_w st))
          (w_checkpoints (sys_w st)) (w_conversations (sys_w st)) (w_resources (sys_w st))
          (w_ext (sys_w st) + 1)) (sys_tick st), Ok (ReturnsData (Ok JNull))))
       (ret tt))
    None None None None.

Definition counting_executor : ToolExecutor Z :=
  ToolExecutor_default (H := fun _ => "0.0") [("fetch", counting_tool)].

Definition counting_world : World Z :=
  mk_World example_waiting ∅ ∅ ∅ (mk_ConversationStore ∅ ∅) (mk_ResourceScope SCOPE_CREATED [] []) 0.

(** A call without the permission never reaches the tool. *)
Lemma tool_runs_only_through_gate_witness :
  exists st' o,
    tool_execute (H := fun _ => "0.0") (fun _ => false) counting_executor
      (mk_ToolCall "c1" "fetch" []) ∅ None None (mk_sys counting_world 0) = Some (st', o) /\
    w_ext (sys_w st') = 0.
Proof.
  destruct (tool_runs_only_through_gate (H := fun _ => "0.0") (fun _ => false) counting_executor
    (fun w => w_ext w = 0) (mk_ToolCall "c1" "fetch" []) ∅ None None (mk_sys counting_world 0))
    as (st' & o & E & _ & Hg).
  - split; [|split; [exact I|]].
    + intros call name sm cm c st Hst. eexists _, _. split; [reflexivity|exact Hst].
    + intros name t Ht. unfold tool_get in Ht. simpl in Ht. case_decide; [|discriminate].
      injection Ht as <-. split; [|exact I]. intros args. split; intros st; eexists _, _; reflexivity.
  - reflexivity.
  - exists st', o. split; [exact E|]. destruct Hg as [Hg|(t & args & _ & Ht & Hp & _)]; [exact Hg|].
    exfalso. injection Ht as <-. change ({["net"]} ⊆ (∅ : gset string)) in Hp. clear -Hp. set_solver.
Defined.

(** ** The bound on results *)

Definition bytes (s : string) : nat := String.length (utf8 s).

Lemma bytes_app a b : bytes (a +:+ b) = (bytes a + bytes b)%nat.
Proof. unfold bytes. by rewrite utf8_app, length_string_app. Qed.

(** The characters of tool names need no escape. *)
Lemma tool_name_plain s :
  all_chars (fun c => is_alnum c || has_char c "_.-") s = true ->
  json_escape s = s /\ all_chars is_ascii s = true.
Proof.
  induction s as [|a s IH]; [done|]. intros [Ha Hs]%andb_true_iff.
  destruct (IH Hs) as [He Hx]. cbn [json_escape all_chars]. rewrite He, Hx.
  clear -Ha. destruct a as [[] [] [] [] [] [] [] []]; first [done|by vm_compute in Ha].
Qed.

Lemma bytes_tool_name s : tool_name_ok s = true -> (bytes (json_quote s) <= 130)%nat.
Proof.
  unfold tool_name_ok, len_between, slen. intros H. reflect.
  destruct (tool_name_plain s) as [He Ha]; [done|].
  unfold json_quote. rewrite He. change (String dquote s) with (String dquote "" +:+ s).
  rewrite !bytes_app. unfold bytes at 2. rewrite utf8_ascii by done. vm_compute (bytes _). lia.
Qed.

Lemma pretty_go_bytes k : forall x s,
  (x < 10 ^ N.of_nat k)%N -> (bytes (pretty_N_go x s) <= k + bytes s)%nat.
Proof.
  induction k as [|k IH]; intros x s Hx.
  - simpl in Hx. assert (x = 0%N) as -> by lia. by rewrite pretty_N_go_0.
  - destruct (decide (x = 0%N)) as [->|Hz]; [rewrite pretty_N_go_0; lia|].
    rewrite pretty_N_go_step by lia.
    etransitivity; [apply IH|].
    + apply N.Div0.div_lt_upper_bound. rewrite Nat2N.inj_succ, N.pow_succ_r' in Hx. lia.
    + assert (forall d, (d < 10)%N -> bytes (String (pretty_N_char d) s) = S (bytes s)) as Hd.
      { intros d Hd. change (String (pretty_N_char d) s) with (String (pretty_N_char d) "" +:+ s).
        rewrite bytes_app. enough (bytes (String (pretty_N_char d) "") = 1%nat) as -> by done.
        assert (forallb (fun n => (bytes (String (pretty_N_char (N.of_nat n)) "") =? 1)%nat) (seq 0 10) = true)
          as Hall by (vm_compute; reflexivity).
        rewrite forallb_forall in Hall. specialize (Hall (N.to_nat d)).
        rewrite N2Nat.id in Hall. apply Nat.eqb_eq, Hall, in_seq. lia. }
      rewrite Hd by (apply N.mod_lt; lia). lia.
Qed.

Lemma zstr_bytes z k : 0 <= z < 10 ^ Z.of_nat k -> (0 < k)%nat -> (bytes (zstr z) <= k)%nat.
Proof.
  intros Hz Hk. destruct z as [|p|p]; [vm_compute (bytes _); lia| |lia].
  change (zstr (Zpos p)) with (pretty_N_go (Npos p) "").
  etransitivity; [apply (pretty_go_bytes k)|].
  - assert (Z.of_N (Npos p) < Z.of_N (10 ^ N.of_nat k)) as Hn; [|lia].
    rewrite N2Z.inj_pow, nat_N_Z. simpl Z.of_N. lia.
  - vm_compute (bytes ""). lia.
Qed.

(** Computes the size of the literals of the goal. *)
Ltac is_numeral n := lazymatch n with O => idtac | S ?m => is_numeral m end.
Ltac count_literals :=
  repeat match goal with
         | |- context [bytes ?s] =>
             let n := eval vm_compute in (bytes s) in
             is_numeral n; change (bytes s) with n
         end.

(** The size of a rejection, up to the varying parts. *)
Lemma rejection_bytes `{JsonFloat} name n m status k :
  tool_name_ok name = true -> 0 <= n < 10 ^ Z.of_nat k -> 0 <= m < 10 ^ Z.of_nat k -> (0 < k)%nat ->
  (bytes (ToolResult_json
     (mk_ToolResult name T_ERROR
        (JObj [("original_size_bytes", JInt n); ("limit_bytes", JInt m);
               ("original_status", JStr (ToolResultStatus_value status));
               ("overflow_action", JStr "rejected")])
        (Some "tool_result_too_large") (Some "Tool result exceeded the configured size limit")))
   <= 371 + 2 * k)%nat.
Proof.
  intros Hname Hn Hm Hk.
  pose proof (bytes_tool_name name Hname) as Hx1.
  pose proof (zstr_bytes n k Hn Hk) as Hx2. pose proof (zstr_bytes m k Hm Hk) as Hx3.
  assert (bytes (json_quote (ToolResultStatus_value status)) <= 19)%nat as Hx4
    by (destruct status; vm_compute; lia).
  unfold ToolResult_json, ToolResult_dump. cbn [json_compact jopt res_tool_name res_status res_data
    res_error_code res_message String.concat].
  rewrite !bytes_app. revert Hx1 Hx2 Hx3 Hx4.
  generalize (bytes (json_quote name)), (bytes (zstr n)), (bytes (zstr m)),
    (bytes (json_quote (ToolResultStatus_value status))).
  intros b1 b2 b3 b4 Hx1 Hx2 Hx3 Hx4. count_literals. lia.
Qed.

(** No result exceeds the configured size.  For a tool name the models
    admit and a limit of at least 512 bytes (the field's bound), what
    [enforce] returns renders within the limit: the result itself exactly
    when it fits, and otherwise a rejection, under the same tool name, that
    itself fits (sizes being below 10^70). *)
Theorem tool_result_within_limit `{JsonFloat} limit r :
  let size r := slen (utf8 (ToolResult_json r)) in
  tool_name_ok (res_tool_name r) = true ->
  512 <= limit < 10 ^ 70 -> size r < 10 ^ 70 ->
  size (enforce limit r) <= limit /\
  res_tool_name (enforce limit r) = res_tool_name r /\
  (size r <= limit -> enforce limit r = r) /\
  (limit < size r -> res_status (enforce limit r) = T_ERROR /\
                     res_error_code (enforce limit r) = Some "tool_result_too_large").
Proof.
  intros size Hname Hl Hs. unfold enforce. fold (size r).
  destruct (size r <=? limit) eqn:E; reflect; [split_and!; [done|done|done|lia]|].
  split_and!; [|done|lia|done].
  pose proof (rejection_bytes (res_tool_name r) (size r) limit (res_status r) 70 Hname) as Hb.
  change (Z.of_nat 70) with 70 in Hb. unfold bytes in Hb. unfold size at 1, slen.
  assert (0 <= size r) by (unfold size, slen; lia).
  specialize (Hb ltac:(lia) ltac:(lia) ltac:(lia)).
  remember (utf8 (ToolResult_json _)) as u. lia.
Qed.

Definition big_result : ToolResult :=
  mk_ToolResult "fetch" T_SUCCESS (JStr (String.concat "" (replicate 100 "0123456789"))) None None.

Lemma tool_result_within_limit_witness :
  slen (utf8 (ToolResult_json (H := fun _ => "0.0")
    (enforce (H := fun _ => "0.0") 512 big_result))) <= 512 /\
  res_status (enforce (H := fun _ => "0.0") 512 big_result) = T_ERROR.
Proof.
  destruct (tool_result_within_limit (H := fun _ => "0.0") 512 big_result) as (Hs & _ & _ & He).
  - vm_compute. reflexivity.
  - split; vm_compute; congruence.
  - vm_compute. reflexivity.
  - split; [exact Hs|]. apply He. vm_compute. reflexivity.
Defined.
