(* ===== verification/ModelTool.v ===== *)
(** * The model-tool strategy
    ([src/base_agent/orchestration/model_tool.py],
    [src/base_agent/orchestration/protocol.py])

    One [advance] is one model call and the batch of tool calls it asks for;
    a batch that a tool suspends is stored in the context and taken up again
    by the first [advance] after the resumption.  The methods a subclass
    overrides are the fields of [Hooks].  Logging is not modelled. *)

From Stdlib Require Import QArith.
From stdpp Require Import base gmap strings list.
From S2P Require Import Prelude Json Models Sha256 Plan StateMachine ConversationStore RunStore EventStore FlowModels SideEffects Program Serial Runtime Resources Supervision ToolExecutor.

(** ** Requests *)

Record ModelRequest := mk_ModelRequest {
  mq_messages : list Message;
  mq_tools : list ToolDefinition;
  mq_tool_choice : ToolChoice;
  mq_model : option string;
  mq_metadata : jdict;
  mq_attachments : list Attachment;
  mq_memories : list MemoryMatch;
}.

(** [ModelRequest.validate_tool_choice]. *)
Definition ModelRequest_validate (r : ModelRequest) : outcome unit :=
  raise_when bool_decide (mq_tool_choice r = TC_REQUIRED) && bool_decide (length (mq_tools r) = 0%nat)
    as validation_error "tool_choice='required' requires at least one tool" in
  Ok tt.

Definition ModelRequest_new (r : ModelRequest) : outcome ModelRequest :=
  checked (1 <=? Z.of_nat (length (mq_messages r))) ModelRequest_validate r.

Definition ToolChoice_value (c : ToolChoice) : string :=
  match c with TC_AUTO => "auto" | TC_NONE => "none" | TC_REQUIRED => "required" end.

(** [{**request.model_dump(mode="json", exclude={"memories"}), "memories": [...]}]. *)
Definition ModelRequest_event (r : ModelRequest) : json :=
  JObj [("messages", jlist Message_dump (mq_messages r));
        ("tools", jlist ToolDefinition_dump (mq_tools r));
        ("tool_choice", JStr (ToolChoice_value (mq_tool_choice r)));
        ("model", jopt JStr (mq_model r)); ("metadata", JObj (mq_metadata r));
        ("attachments", jlist Attachment_dump (mq_attachments r));
        ("memories", jlist match_summary (mq_memories r))].

(** ** Services *)

(** [ModelProvider]. *)
Record ModelProvider (X : Type) := mk_ModelProvider {
  provider_name : string;
  provider_complete : ModelRequest -> prog (World X) ModelResponse;
}.
Arguments mk_ModelProvider {X}.
Arguments provider_name {X}.
Arguments provider_complete {X}.

(** [RuntimeServices]; the stores and managers are reached through the
    world. *)
Record RuntimeServices (X : Type) := mk_RuntimeServices {
  sv_provider : ModelProvider X;
  sv_tool_registry : option (list (string * Tool X));
  sv_tool_executor : option (ToolExecutor X);
  sv_supervisor : Supervisor X;
}.
Arguments mk_RuntimeServices {X}.
Arguments sv_provider {X}.
Arguments sv_tool_registry {X}.
Arguments sv_tool_executor {X}.
Arguments sv_supervisor {X}.

Abbreviation ToolObservation := (ToolCall * ToolResult)%type.

(** The methods of [ModelToolStrategy] that its subclasses override. *)
Record Hooks (X : Type) := mk_Hooks {
  hk_select_tool_calls : ModelResponse -> prog (World X) (list ToolCall);
  hk_before_model_request : prog (World X) unit;
  hk_on_action_batch_selected : list ToolCall -> prog (World X) unit;
  hk_on_observation_batch_recorded : list ToolObservation -> prog (World X) unit;
  hk_on_iteration_completed : ModelResponse -> bool -> prog (World X) unit;
  hk_tool_definitions : prog (World X) (list ToolDefinition);
  hk_complete_response : string -> prog (World X) unit;
  hk_fail_execution : string -> prog (World X) unit;
  hk_wait_for_input : prog (World X) unit;
}.
Arguments mk_Hooks {X}.
Arguments hk_select_tool_calls {X}.
Arguments hk_before_model_request {X}.
Arguments hk_on_action_batch_selected {X}.
Arguments hk_on_observation_batch_recorded {X}.
Arguments hk_on_iteration_completed {X}.
Arguments hk_tool_definitions {X}.
Arguments hk_complete_response {X}.
Arguments hk_fail_execution {X}.
Arguments hk_wait_for_input {X}.

(** ** Parsing

    What [model_validate] and [model_validate_json] make of dumped data is
    pydantic's; a theorem that needs a dump to parse back says so. *)
Class Validators := {
  ToolCall_validate_json : json -> outcome ToolCall;
  ToolResult_validate_json : json -> outcome ToolResult;
  ModelResponse_validate_json : json -> outcome ModelResponse;
  ToolConfirmation_validate_json : json -> outcome ToolConfirmation;
  ToolConfirmationRequest_validate_json : json -> outcome ToolConfirmationRequest;
  ToolResult_validate_text : string -> outcome ToolResult;
}.

(** ** Values kept as JSON *)

Definition suspended_key : string := "model_tool_suspended_action_batch".
Definition confirmation_key : string := "tool_confirmation_decision".

(** [type(value).__name__]. *)
Definition json_type_name (j : json) : string :=
  match j with
  | JNull => "NoneType" | JBool _ => "bool" | JInt _ => "int" | JFloat _ => "float"
  | JStr _ => "str" | JArr _ => "list" | JObj _ => "dict"
  end.

(** [value[key]] for a string key. *)
Definition json_item (key : string) (j : json) : outcome json :=
  match j with
  | JObj d => match dget key d with Some v => Ok v | None => Raise (Exn ExKeyError key) end
  | JArr _ => Raise (Exn ExTypeError "list indices must be integers or slices, not str")
  | JStr _ => Raise (Exn ExTypeError "string indices must be integers, not 'str'")
  | _ => Raise (Exn ExTypeError (fstr ["'"; json_type_name j; "' object is not subscriptable"]))
  end.

(** What [for item in value] goes through. *)
Definition json_iter (j : json) : outcome (list json) :=
  match j with
  | JArr l => Ok l
  | JObj d => Ok (map JStr (dkeys d))
  | JStr s => Ok (map (fun a => JStr (String a EmptyString)) (String.list_ascii_of_string s))
  | _ => Raise (Exn ExTypeError (fstr ["'"; json_type_name j; "' object is not iterable"]))
  end.

(** [str.replace(pattern, "")]. *)
Fixpoint remove_text (fuel : nat) (pattern s : string) : string :=
  match fuel with
  | O => s
  | S fuel' =>
      if String.prefix pattern s && negb (is_empty pattern)
      then remove_text fuel' pattern (String.substring (String.length pattern)
                                        (String.length s - String.length pattern) s)
      else match s with
           | String a s' => String a (remove_text fuel' pattern s')
           | EmptyString => EmptyString
           end
  end.

Definition hex_value (a : Ascii.ascii) : option Z :=
  let n := Z.of_N (Ascii.N_of_ascii a) in
  if (48 <=? n) && (n <=? 57) then Some (n - 48)
  else if (97 <=? n) && (n <=? 102) then Some (n - 87)
  else if (65 <=? n) && (n <=? 70) then Some (n - 55)
  else None.

(** The digits of [int(text, 16)], which single underscores may separate. *)
Fixpoint hex_from (ok : bool) (acc : Z) (s : string) : option Z :=
  match s with
  | EmptyString => if ok then Some acc else None
  | String a s' =>
      match hex_value a with
      | Some d => hex_from true (acc * 16 + d) s'
      | None => if bool_decide (a = Ascii.ascii_of_N 95) && ok then hex_from false acc s' else None
      end
  end.

(** [int(text, 16)]: surrounding whitespace, a sign and [0x] are accepted. *)
Definition int_base16 (text : string) : option Z :=
  let unsigned (s : string) : option Z :=
    match s with
    | String z (String x s') =>
        if bool_decide (z = Ascii.ascii_of_N 48)
           && (bool_decide (x = Ascii.ascii_of_N 120) || bool_decide (x = Ascii.ascii_of_N 88))
        then match s' with
             | String u s'' => if bool_decide (u = Ascii.ascii_of_N 95)
                               then hex_from false 0 s'' else hex_from false 0 s'
             | EmptyString => None
             end
        else hex_from false 0 s
    | _ => hex_from false 0 s
    end in
  match strip text with
  | String a s' =>
      if bool_decide (a = Ascii.ascii_of_N 45) then Z.opp <$> unsigned s'
      else if bool_decide (a = Ascii.ascii_of_N 43) then unsigned s'
      else unsigned (String a s')
  | EmptyString => None
  end.

(** Strips the characters of [{}] from the left. *)
Fixpoint lstrip_braces (s : string) : string :=
  match s with
  | String a s' => if has_char a "{}" then lstrip_braces s' else s
  | EmptyString => EmptyString
  end.

(** [UUID(text)], [None] for a [ValueError]. *)
Definition parse_uuid (text : string) : option uuid :=
  let n := S (String.length text) in
  let s := remove_text n "uuid:" (remove_text n "urn:" text) in
  let s := String.rev (lstrip_braces (String.rev (lstrip_braces s))) in
  let s := remove_text n "-" s in
  if negb (slen s =? 32) then None
  else match int_base16 s with
       | Some z => if (0 <=? z) && (z <? 2 ^ 128) then Some (Z.to_N z) else None
       | None => None
       end.

Example parse_uuid_examples :
  map parse_uuid ["12345678-1234-5678-1234-567812345678"; "{urn:uuid:00000000-0000-0000-0000-00000000000F}";
                  "1234"; "g2345678123456781234567812345678"]
  = [Some 24197857161011715162171839636988778104%N; Some 15%N; None; None].
Proof. vm_compute. reflexivity. Qed.

(** [_metadata_uuid]: a value whose text is not that of a UUID (that of a
    float, a list, a dict or a bool never is) gives [None]. *)
Definition metadata_uuid (c : RuntimeContext) (key : string) : option uuid :=
  match dget key (ctx_run_metadata c) with
  | Some (JStr s) => parse_uuid s
  | Some (JInt z) => parse_uuid (zstr z)
  | _ => None
  end.

(** ** The strategy *)

Section Strategy.
Context `{JsonFloat} `{Validators} {X : Type}.
Variable env : nat -> ambient.
Variable expires : nat -> bool.
Variable services : RuntimeServices X.
Variable hooks : Hooks X.

Abbreviation M := (prog (World X)).

(** [services.tool_executor or ToolExecutor(services.tool_registry or ToolRegistry())]. *)
Definition active_executor : ToolExecutor X :=
  match sv_tool_executor services with
  | Some ex => ex
  | None => ToolExecutor_default (default [] (sv_tool_registry services))
  end.

Definition add_message (m : outcome Message) : M unit :=
  let* m := of_outcome m in
  ctx_put (fun c => set_messages (ctx_messages c ++ [m]) c).

(** [_cancel_if_requested]. *)
Definition cancel_if_requested : M bool :=
  let* requested := cancel_requested env in
  if negb requested then ret false
  else
    do* ctx_put (set_error (Some "run cancellation requested")) in
    do* ctx_do (ctx_transition CANCELLED) in
    ret true.

(** The event data of one call. *)
Definition call_data (c : RuntimeContext) (call : ToolCall) : jdict :=
  [("step", JInt (ctx_step_count c)); ("call", ToolCall_dump call)].
Definition result_data (c : RuntimeContext) (call : ToolCall) (r : ToolResult) : jdict :=
  [("step", JInt (ctx_step_count c)); ("call_id", JStr (call_id call)); ("result", ToolResult_dump r)].

Definition count_tool_call : M unit :=
  ctx_put (fun c => set_tool_call_count (ctx_tool_call_count c + 1) c).

(** A supervisor's intervention before a call. *)
Definition block_call (call : ToolCall) (d : SupervisionDecision) : M unit :=
  do* apply_supervision_decision env d false in
  if bool_decide (dec_action d = STOP) then ret tt
  else
    do* count_tool_call in
    let blocked := mk_ToolResult (call_name call) T_DENIED JNull (Some "supervisor_intervention")
                     (dec_reason d) in
    do* add_message (Message_tool (ToolResult_json blocked) (call_id call)) in
    do* (if falsy (dec_message d) then ret tt
         else add_message (Message_system (default "" (dec_message d)))) in
    let* c := ctx_get in
    do* emit_event env EV_TOOL_FAILED (result_data c call blocked) in
    save_context_snapshot env.

(** The request of a call, up to its start: [false] when a supervisor
    intervened. *)
Definition request_call (call : ToolCall) : M bool :=
  let* c := ctx_get in
  do* emit_event env EV_TOOL_REQUESTED (call_data c call) in
  let* d := sup_before_tool (sv_supervisor services) call in
  if continues d then
    do* count_tool_call in
    do* save_context_snapshot env in
    do* emit_event env EV_TOOL_STARTED (call_data c call) in
    ret true
  else
    do* block_call call d in
    ret false.

(** The value stored while a call waits. *)
Definition suspended_batch (call : ToolCall) (remaining : list ToolCall)
  (collected : list ToolObservation) (response : ModelResponse) : json :=
  JObj [("waiting_call", ToolCall_dump call);
        ("remaining_calls", jlist ToolCall_dump remaining);
        ("observations", jlist (fun o : ToolObservation =>
           JObj [("call", ToolCall_dump (fst o)); ("result", ToolResult_dump (snd o))]) collected);
        ("response", ModelResponse_dump response)].

(** Suspends the Run on a call that waits. *)
Definition suspend_call (call : ToolCall) (remaining : list ToolCall)
  (collected : list ToolObservation) (response : ModelResponse) (r : ToolResult) : M unit :=
  do* ctx_put (fun c => set_supervision_data
        (dset suspended_key (suspended_batch call remaining collected response)
           (ctx_supervision_data c)) c) in
  let wait_data := match res_data r with JObj d => d | _ => [] end in
  match dget "prompt" wait_data with
  | Some (JStr prompt) =>
      if blank prompt then
        hk_fail_execution hooks
          (fstr ["tool '"; call_name call; "' returned an invalid input request"])
      else
        let metadata := match dget "metadata" wait_data with Some (JObj m) => Some m | _ => None end in
        let pending := mk_PendingInput (call_id call) (call_name call) prompt (default [] metadata) in
        let* pending := of_outcome (checked (PendingInput_fields pending) (fun _ => Ok tt) pending) in
        do* ctx_put (set_pending_input (Some pending)) in
        do* ctx_do (ctx_transition WAITING) in
        do* match metadata with
            | Some m =>
                if json_opt_eqb (dget "kind" m) (Some (JStr "tool_confirmation")) then
                  let request_id := match dget "request" m with
                                    | Some (JObj q) => default JNull (dget "id" q)
                                    | _ => JNull
                                    end in
                  emit_event env EV_TOOL_CONFIRMATION_REQUESTED
                    [("request_id", request_id); ("tool_call_id", JStr (call_id call));
                     ("tool_name", JStr (call_name call))]
                else ret tt
            | None => ret tt
            end in
        let* c := ctx_get in
        do* emit_event env EV_TOOL_WAITING (result_data c call r) in
        do* hk_wait_for_input hooks in
        save_context_snapshot env
  | _ =>
      hk_fail_execution hooks
        (fstr ["tool '"; call_name call; "' returned an invalid input request"])
  end.

(** The execution of one call by the executor. *)
Definition execute_call (call : ToolCall) (confirmation : option ToolConfirmation) : M ToolResult :=
  let* c := ctx_get in
  tool_execute expires active_executor call (prof_permissions (ctx_profile c))
    (Some (list_to_set (ctx_enabled_tool_names c)))
    (Some (mk_ToolContext (ctx_run_id c) (metadata_uuid c "flow_run_id")
             (metadata_uuid c "invocation_id") (Some (call_id call)) None confirmation)).

(** Records a result; [false] when the batch ends here. *)
Definition record_result (call : ToolCall) (r : ToolResult) : M bool :=
  let* c := ctx_get in
  do* emit_event env (if bool_decide (res_status r = T_SUCCESS) then EV_TOOL_COMPLETED
                      else EV_TOOL_FAILED) (result_data c call r) in
  do* add_message (Message_tool (ToolResult_json r) (call_id call)) in
  let* d := sup_after_tool (sv_supervisor services) call r in
  if continues d then
    let* cancelled := cancel_if_requested in
    ret (negb cancelled)
  else
    do* apply_supervision_decision env d true in
    do* save_context_snapshot env in
    ret false.

(** The loop of [_execute_tool_batch]: the observations when every call was
    executed, [None] when the method returned early. *)
Fixpoint batch_loop (calls : list ToolCall) (response : ModelResponse)
  (confirmations : list (string * ToolConfirmation)) (collected : list ToolObservation)
  : M (option (list ToolObservation)) :=
  match calls with
  | [] => ret (Some collected)
  | call :: remaining =>
      let* cancelled := cancel_if_requested in
      if cancelled then ret None
      else
        let confirmation := dget (call_id call) confirmations in
        let* started := match confirmation with
                        | Some _ => ret true
                        | None => request_call call
                        end in
        if negb started then ret None
        else
          let* r := execute_call call confirmation in
          if bool_decide (res_status r = T_WAITING) then
            do* suspend_call call remaining collected response r in
            ret None
          else
            let* go_on := record_result call r in
            if go_on
            then batch_loop remaining response confirmations (collected ++ [(call, r)])
            else ret None
  end.

(** What follows a completed batch. *)
Definition finish_batch (response : ModelResponse) (collected : list ToolObservation) : M unit :=
  do* hk_on_observation_batch_recorded hooks collected in
  do* hk_on_iteration_completed hooks response true in
  save_context_snapshot env.

(** [_execute_tool_batch]. *)
Definition execute_tool_batch (calls : list ToolCall) (response : ModelResponse)
  (observations : list ToolObservation) (confirmations : list (string * ToolConfirmation))
  : M unit :=
  let* done := batch_loop calls response confirmations observations in
  match done with
  | None => ret tt
  | Some collected => finish_batch response collected
  end.

(** [_find_tool_result]. *)
Definition find_tool_result (messages : list Message) (tool_call_id : string) : outcome ToolResult :=
  match List.find (fun m => bool_decide (msg_tool_call_id m = Some tool_call_id)
                            && negb (is_none (msg_content m))) (rev messages) with
  | Some m => ToolResult_validate_text (default "" (msg_content m))
  | None => Raise (value_error ["missing resumed ToolResult for call '"; tool_call_id; "'"])
  end.

Definition parse_observation (item : json) : outcome ToolObservation :=
  let! jc := json_item "call" item in
  let! call := ToolCall_validate_json jc in
  let! jr := json_item "result" item in
  let! r := ToolResult_validate_json jr in
  Ok (call, r).

(** The calls, response and observations of a suspended batch. *)
Definition parse_suspended (raw : json)
  : outcome (ToolCall * list ToolCall * ModelResponse * list ToolObservation) :=
  raise_when match raw with JObj _ => false | _ => true end
    as Exn ExTypeError "suspended action batch must be an object" in
  let! jw := json_item "waiting_call" raw in
  let! waiting_call := ToolCall_validate_json jw in
  let! jr := json_item "remaining_calls" raw in
  let! items := json_iter jr in
  let! remaining := traverse ToolCall_validate_json items in
  let! jresp := json_item "response" raw in
  let! response := ModelResponse_validate_json jresp in
  let! jo := json_item "observations" raw in
  let! items := json_iter jo in
  let! observations := traverse parse_observation items in
  Ok (waiting_call, remaining, response, observations).

(** [context.supervision_data.pop(key, None)]. *)
Definition pop_supervision (key : string) : M (option json) :=
  let* c := ctx_get in
  do* ctx_put (set_supervision_data (ddel key (ctx_supervision_data c))) in
  ret (match dget key (ctx_supervision_data c) with
       | Some JNull | None => None
       | Some v => Some v
       end).

Definition approved (k : option ToolConfirmation) : bool :=
  match k with Some k => bool_decide (conf_decision k = APPROVE) | None => false end.

(** The [try] statement of [_resume_action_batch]. *)
Definition load_suspended (raw : json)
  : M (ToolCall * list ToolCall * ModelResponse * list ToolObservation
       * option ToolConfirmation * option ToolResult) :=
  let* batch := of_outcome (parse_suspended raw) in
  let '(waiting_call, remaining, response, observations) := batch in
  let* raw_confirmation := pop_supervision confirmation_key in
  let* confirmation := of_outcome
    (match raw_confirmation with
     | Some j => let! k := ToolConfirmation_validate_json j in Ok (Some k)
     | None => Ok None
     end) in
  let* c := ctx_get in
  let* waiting_result := of_outcome
    (if approved confirmation then Ok None
     else let! r := find_tool_result (ctx_messages c) (call_id waiting_call) in Ok (Some r)) in
  ret (waiting_call, remaining, response, observations, confirmation, waiting_result).

(** What [_resume_action_batch] does with the batch it has loaded. *)
Definition continue_batch
  (batch : ToolCall * list ToolCall * ModelResponse * list ToolObservation
           * option ToolConfirmation * option ToolResult) : M unit :=
  let '(waiting_call, remaining, response, observations, confirmation, waiting_result) := batch in
  match confirmation, approved confirmation with
  | Some k, true =>
      execute_tool_batch (waiting_call :: remaining) response observations
        [(call_id waiting_call, k)]
  | _, _ =>
      match waiting_result with
      | None => throw assertion_error
      | Some r =>
          let observations := observations ++ [(waiting_call, r)] in
          match remaining with
          | [] => finish_batch response observations
          | _ => execute_tool_batch remaining response observations []
          end
      end
  end.

(** The stored batch: [None] when it is invalid, which fails the Run. *)
Definition load_batch (raw : json) :=
  try_except (let* b := load_suspended raw in ret (Some b))
    (fun e =>
       if isinstance e ExKeyError || isinstance e ExTypeError || isinstance e ExValueError then
         Some (do* hk_fail_execution hooks
                     (fstr ["invalid suspended action batch: "; exn_str e]) in
               ret None)
       else None).

(** [_resume_action_batch]: whether a batch was taken up. *)
Definition resume_action_batch : M bool :=
  let* raw := pop_supervision suspended_key in
  match raw with
  | None => ret false
  | Some raw =>
      let* loaded := load_batch raw in
      do* match loaded with Some batch => continue_batch batch | None => ret tt end in
      ret true
  end.

(** [_has_suspended_action_batch]. *)
Definition has_suspended_batch (c : RuntimeContext) : bool :=
  negb (is_none (dget suspended_key (ctx_supervision_data c))).

(** The model call of one turn: [None] when the provider failed. *)
Definition complete_model (request : ModelRequest) : M (option ModelResponse) :=
  try_except (let* r := provider_complete (sv_provider services) request in ret (Some r))
    (fun e =>
       if is_exception e then
         Some (do* hk_fail_execution hooks
                     (fstr ["model provider '"; provider_name (sv_provider services); "' failed: ";
                            exn_str e]) in
               ret None)
       else None).

(** What the turn does with the response. *)
Definition accept_response (response : ModelResponse) : M unit :=
  let* c := ctx_get in
  do* emit_event env EV_MODEL_RESPONDED
        [("step", JInt (ctx_step_count c)); ("response", ModelResponse_dump response)] in
  do* ctx_put (fun c => set_responses (ctx_responses c ++ [response]) c) in
  do* ctx_do (fun c => let! u := TokenUsage_add (ctx_usage c) (mr_usage response) in
                       Ok (set_usage u c)) in
  do* add_message (to_assistant_message response) in
  save_context_snapshot env.

(** The rest of the turn. *)
Definition act_on_response (response : ModelResponse) : M unit :=
  let* cancelled := cancel_if_requested in
  if cancelled then ret tt
  else if no_calls (mr_tool_calls response) then
    do* hk_on_iteration_completed hooks response false in
    hk_complete_response hooks (default "" (mr_content response))
  else
    let* calls := hk_select_tool_calls hooks response in
    do* hk_on_action_batch_selected hooks calls in
    execute_tool_batch calls response [] [].

(** [advance]. *)
Definition model_tool_advance : M unit :=
  let* resumed := resume_action_batch in
  if resumed then ret tt
  else
    do* ctx_put (fun c => set_step_count (ctx_step_count c + 1) c) in
    do* hk_before_model_request hooks in
    let* definitions := hk_tool_definitions hooks in
    let* c := ctx_get in
    let* request := of_outcome (ModelRequest_new
      (mk_ModelRequest (ctx_messages c) definitions TC_AUTO (prof_model (ctx_profile c)) []
         (ctx_attachments c) (ctx_memories c))) in
    do* emit_event env EV_MODEL_REQUESTED
          [("step", JInt (ctx_step_count c)); ("request", ModelRequest_event request)] in
    let* answered := complete_model request in
    match answered with
    | None => ret tt
    | Some response =>
        do* accept_response response in
        act_on_response response
    end.
End Strategy.

(** [ModelToolStrategy]'s own methods. *)
Definition default_hooks {X} (services : RuntimeServices X) : Hooks X :=
  mk_Hooks
    (fun response => ret (mr_tool_calls response))
    (ret tt)
    (fun _ => ret tt)
    (fun _ => ret tt)
    (fun _ _ => ret tt)
    (match sv_tool_registry services with
     | Some registry =>
         let* c := ctx_get in of_outcome (tool_definitions (ctx_enabled_tool_names c) registry)
     | None => ret []
     end)
    (fun content =>
       do* ctx_put (set_output (Some content)) in
       ctx_do (ctx_transition COMPLETED))
    (fun error =>
       do* ctx_put (set_error (Some error)) in
       let* c := ctx_get in
       if bool_decide (ctx_state c = RUNNING) then ctx_do (ctx_transition FAILED) else ret tt)
    (ret tt).
