(* ===== verification/Engine.v ===== *)
(** * The agent runtime ([src/base_agent/runtime/engine.py],
    [src/base_agent/models/result.py])

    [AgentRuntime.execute] owns the lifecycle of a Run: it creates or resumes
    it, turns the strategy until the Run leaves [RUNNING], releases the
    resources, and settles the stored Run, its checkpoint and its
    conversation turn.  Logging is not modelled. *)

From Stdlib Require Import QArith.
From stdpp Require Import base gmap strings list.
From S2P Require Import Prelude Json Models Sha256 Plan StateMachine ConversationStore RunStore EventStore FlowModels SideEffects Program Serial Runtime Resources Supervision ToolExecutor ModelTool.

(** ** Results *)

Record AgentResult := mk_AgentResult {
  ares_status : AgentResultStatus;
  ares_output : option string;
  ares_messages : list Message;
  ares_usage : TokenUsage;
  ares_error : option string;
  ares_metadata : jdict;
  ares_attachments : list Attachment;
  ares_artifacts : list Artifact;
}.

(** The tables [status_map] and [terminal_events]. *)
Definition status_map (s : RunStatus) : option AgentResultStatus :=
  match s with
  | COMPLETED => Some R_COMPLETED | FAILED => Some R_FAILED | CANCELLED => Some R_CANCELLED
  | INTERRUPTED => Some R_INTERRUPTED | LIMIT_REACHED => Some R_LIMIT_REACHED
  | WAITING => Some R_WAITING
  | CREATED | RUNNING => None
  end.

Definition run_terminal_event (s : RunStatus) : option EventType :=
  match s with
  | COMPLETED => Some EV_RUN_COMPLETED | FAILED => Some EV_RUN_FAILED
  | CANCELLED => Some EV_RUN_CANCELLED | INTERRUPTED => Some EV_RUN_INTERRUPTED
  | LIMIT_REACHED => Some EV_RUN_LIMIT_REACHED | WAITING => Some EV_RUN_WAITING
  | CREATED | RUNNING => None
  end.

(** The memory entry of a result's metadata and of the final event. *)
Definition memory_summary (c : RuntimeContext) : json :=
  JObj [("initialized", JBool (ctx_memory_initialized c));
        ("error", jopt JStr (ctx_memory_error c));
        ("matches", jlist match_summary (ctx_memories c))].

(** [_build_result]. *)
Definition build_result (c : RuntimeContext) : outcome AgentResult :=
  match status_map (ctx_state c) with
  | None =>
      Raise (Exn InvalidStateTransitionError
               (fstr ["cannot build a result from state "; RunStatus_value (ctx_state c)]))
  | Some status =>
      Ok (mk_AgentResult status (ctx_output c) (ctx_messages c) (ctx_usage c) (ctx_error c)
            (dmerge
               (dmerge
                  [("run_id", juuid (ctx_run_id c));
                   ("conversation_id", jopt juuid (ctx_conversation_id c));
                   ("turn_sequence", jopt JInt (ctx_turn_sequence c));
                   ("steps", JInt (ctx_step_count c));
                   ("tool_calls", JInt (ctx_tool_call_count c));
                   ("provider", jopt JStr (ctx_provider_name c));
                   ("planning_requested", JBool (ctx_planning_requested c))]
                  match dget "react_strategy" (ctx_supervision_data c) with
                  | Some v => [("react", v)]
                  | None => []
                  end)
               [("model_calls", JInt (Z.of_nat (length (ctx_responses c))));
                ("pending_input", jopt PendingInput_dump (ctx_pending_input c));
                ("plan", jopt ExecutionPlan_dump (ctx_plan c));
                ("resource_failures", jlist ResourceFailure_dump (ctx_resource_failures c));
                ("memory", memory_summary c)])
            (ctx_attachments c) (ctx_artifacts c))
  end.

(** ** Contexts *)


(** [_compose_instructions]. *)
Definition compose_instructions (p : AgentProfile) (skills : list Skill) : string :=
  String.concat (newline +:+ newline)
    (strip (prof_instructions p)
     :: map (fun s =>
          String.concat newline
            [fstr ["## Skill: "; man_name (skill_manifest s); " (";
                   man_version (skill_manifest s); ")"];
             man_description (skill_manifest s); skill_instructions s]) skills).

(** [create_context]. *)
Definition create_context (amb : ambient) (p : AgentProfile) (prompt : string)
  (run_id conversation_id : option uuid) (turn_sequence : option Z)
  (conversation_history : list Message) (skills : list Skill)
  (enabled_tool_names : option (list string)) (plan : option ExecutionPlan)
  (planning_requested : bool) (attachments : list Attachment) (run_metadata : jdict)
  : outcome RuntimeContext :=
  raise_when blank prompt as value_error ["prompt must not be empty"] in
  raise_when negb (bool_decide (NoDup (map att_id attachments)))
    as value_error ["attachments must be unique"] in
  raise_when existsb (fun m => negb (bool_decide (msg_role m ∈ [USER; ASSISTANT])))
               conversation_history
    as value_error ["conversation history may contain only user and assistant messages"] in
  raise_when negb (Bool.eqb (is_none conversation_id) (is_none turn_sequence))
    as value_error ["conversation_id and turn_sequence must be provided together"] in
  raise_when negb (is_none plan) && planning_requested
    as value_error ["plan and planning_requested cannot be used together"] in
  let! system := Message_system (compose_instructions p skills) in
  let! user := Message_user prompt in
  Ok (mk_RuntimeContext p (system :: conversation_history ++ [user]) conversation_id turn_sequence
        skills (default (prof_tools p) enabled_tool_names) (default (amb_uuid amb 0) run_id)
        (mk_RuntimeStateMachine CREATED) 0 0 TokenUsage_zero [] None None None [] None plan
        planning_requested [] attachments [] prompt [] false None run_metadata).

(** [_flow_invocation_correlation]. *)
Definition flow_invocation_correlation (metadata : jdict) : jdict :=
  if json_opt_eqb (dget "execution_scope" metadata) (Some (JStr "flow_invocation")) then
    flat_map (fun k => match dget k metadata with Some v => [(k, v)] | None => [] end)
      ["execution_scope"; "flow_run_id"; "invocation_id"; "agent_key"; "definition_id";
       "definition_version"; "definition_fingerprint"]
  else [].

(** The snapshot [_create_run] stores: [Run(...)]. *)
Definition new_run (amb : ambient) (c : RuntimeContext) : outcome Run :=
  let r := mk_Run (ctx_run_id c) (prof_id (ctx_profile c)) (ctx_conversation_id c)
             (ctx_turn_sequence c) CREATED 0 0 TokenUsage_zero
             (map (fun s => man_reference (skill_manifest s)) (ctx_skills c)) None None false
             (amb_now amb 0) (amb_now amb 1) (ctx_run_metadata c) (ctx_attachments c)
             (ctx_artifacts c) in
  checked (match ctx_turn_sequence c with Some n => 1 <=? n | None => true end) Run_validate r.

(** ** [try]/[finally] *)

(** The outcome of a program, whatever it raises. *)
Definition attempt {W A} (p : prog W A) : prog W (outcome A) := fun st =>
  match p st with
  | Some (st', o) => Some (st', Ok o)
  | None => None
  end.

(** ** Execution *)

(** An [OrchestrationStrategy]; [st_settle] for a [PlanningStrategy]. *)
Record Strategy (X : Type) := mk_Strategy {
  st_advance : prog (World X) unit;
  st_settle : option (prog (World X) unit);
}.
Arguments mk_Strategy {X}.
Arguments st_advance {X}.
Arguments st_settle {X}.

Section Engine.
Context `{JsonFloat} `{Validators} {X : Type}.
Variable env : nat -> ambient.

Abbreviation M := (prog (World X)).

(** The loops of [_create_run] over the skills and the attachments. *)
Fixpoint emit_skills (skills : list Skill) : M unit :=
  match skills with
  | [] => ret tt
  | s :: skills' =>
      let data := [("name", JStr (man_name (skill_manifest s)));
                   ("version", JStr (man_version (skill_manifest s)))] in
      do* emit_event env EV_SKILL_SELECTED data in
      do* emit_event env EV_SKILL_LOADED data in
      emit_skills skills'
  end.

Fixpoint emit_attachments (l : list Attachment) : M unit :=
  match l with
  | [] => ret tt
  | a :: l' =>
      do* emit_event env EV_ATTACHMENT_ADDED [("attachment", Attachment_dump a)] in
      emit_attachments l'
  end.

(** [_create_run]. *)
Definition create_run : M unit :=
  let* c := ctx_get in
  do* call_store env (fun amb w =>
        let! r := new_run amb c in
        let! runs := run_create r (w_runs w) in
        Ok (set_runs runs w, tt)) in
  do* emit_event env EV_RUN_CREATED
        (dmerge [("profile_id", JStr (prof_id (ctx_profile c)));
                 ("conversation_id", jopt juuid (ctx_conversation_id c));
                 ("turn_sequence", jopt JInt (ctx_turn_sequence c))]
           (flow_invocation_correlation (ctx_run_metadata c))) in
  do* emit_skills (ctx_skills c) in
  do* match ctx_plan c with
      | Some p => emit_event env EV_PLAN_CREATED [("plan", ExecutionPlan_dump p)]
      | None => ret tt
      end in
  emit_attachments (ctx_attachments c).

(** A new Run, up to its start. *)
Definition start_run (provider : string) : M unit :=
  do* create_run in
  let* c := ctx_get in
  do* (if bool_decide (ctx_state c = CREATED) then ctx_do (ctx_transition RUNNING) else ret tt) in
  do* ctx_put (set_provider_name (Some provider)) in
  do* save_context_snapshot env in
  emit_event env EV_RUN_STARTED [("provider", JStr provider)].

(** The confirmation a resumption must bring: its request is checked, and a
    rejection answers the call; [None] when the input is not a
    confirmation. *)
Definition resume_confirmation (pending : PendingInput) (resume_input : option string)
  (confirmation : option ToolConfirmation) : M (option ToolResult) :=
  if negb (is_none resume_input) then
    throw (value_error ["pending Tool confirmation requires Agent.confirm()"])
  else
    match confirmation with
    | None => throw (value_error ["Tool confirmation decision is required"])
    | Some k =>
        let* request :=
          try_except
            (of_outcome (let! j := json_item "request" (JObj (pend_metadata pending)) in
                         ToolConfirmationRequest_validate_json j))
            (fun e =>
               if isinstance e ExKeyError || isinstance e ExValueError then
                 Some (throw (Exn InvalidStateTransitionError
                                "pending Tool confirmation metadata is invalid"))
               else None) in
        if negb (bool_decide (conf_request_id k = cr_id request)) then
          throw (value_error ["Tool confirmation targets another request"])
        else
          do* ctx_put (fun c => set_supervision_data
                (dset confirmation_key (ToolConfirmation_dump k) (ctx_supervision_data c)) c) in
          if bool_decide (conf_decision k = REJECT) then
            let rejected := result_of (pend_tool_name pending) T_DENIED
                              "tool_confirmation_rejected" "Tool execution was rejected" in
            do* add_message (Message_tool (ToolResult_json rejected) (pend_tool_call_id pending)) in
            ret (Some rejected)
          else ret None
    end.

(** The input of a resumption that is not a confirmation. *)
Definition resume_with_input (pending : PendingInput) (resume_input : option string)
  (confirmation : option ToolConfirmation) : M unit :=
  if negb (is_none confirmation) then
    throw (value_error ["pending input does not accept a Tool confirmation"])
  else
    match resume_input with
    | None => throw (value_error ["resume input must not be empty"])
    | Some text =>
        if blank text then throw (value_error ["resume input must not be empty"])
        else
          let r := mk_ToolResult (pend_tool_name pending) T_SUCCESS (JObj [("input", JStr text)])
                     None None in
          add_message (Message_tool (ToolResult_json r) (pend_tool_call_id pending))
    end.

(** [pending.metadata.get("kind") == "tool_confirmation"]. *)
Definition is_confirmation (pending : PendingInput) : bool :=
  json_opt_eqb (dget "kind" (pend_metadata pending)) (Some (JStr "tool_confirmation")).

(** [_prepare_resume]. *)
Definition prepare_resume (resume_input : option string) (confirmation : option ToolConfirmation)
  (provider : string) : M unit :=
  let* c := ctx_get in
  match ctx_pending_input c with
  | None => throw (Exn InvalidStateTransitionError "waiting context has no pending input")
  | Some pending =>
      let* rejected_result :=
        if is_confirmation pending then resume_confirmation pending resume_input confirmation
        else do* resume_with_input pending resume_input confirmation in ret None in
      do* ctx_put (set_pending_input None) in
      do* ctx_put (set_output None) in
      do* ctx_put (set_error None) in
      do* ctx_put (set_provider_name (Some provider)) in
      do* ctx_do (ctx_transition RUNNING) in
      do* save_context_snapshot env in
      do* (if is_confirmation pending then
             match confirmation with
             | None => throw assertion_error
             | Some k =>
                 do* emit_event env EV_TOOL_CONFIRMATION_DECIDED
                       [("request_id", juuid (conf_request_id k));
                        ("tool_call_id", JStr (pend_tool_call_id pending));
                        ("tool_name", JStr (pend_tool_name pending));
                        ("decision", JStr (ToolConfirmationDecision_value (conf_decision k)));
                        ("subject_id", JStr (conf_subject_id k));
                        ("reason_code", JStr (conf_reason_code k));
                        ("decided_at", JStr (isoformat (conf_decided_at k)))] in
                 match rejected_result with
                 | Some r =>
                     let* c := ctx_get in
                     emit_event env EV_TOOL_FAILED
                       [("step", JInt (ctx_step_count c));
                        ("call_id", JStr (pend_tool_call_id pending));
                        ("result", ToolResult_dump r)]
                 | None => ret tt
                 end
             end
           else
             emit_event env EV_INPUT_RECEIVED
               [("tool_call_id", JStr (pend_tool_call_id pending));
                ("tool_name", JStr (pend_tool_name pending));
                ("input", jopt JStr resume_input)]) in
      emit_event env EV_RUN_RESUMED [("provider", JStr provider); ("from", JStr "waiting")]
  end.

(** [_finalize_run]. *)
Definition finalize_run : M unit :=
  do* save_context_snapshot env in
  let* c := ctx_get in
  match run_terminal_event (ctx_state c) with
  | None =>
      throw (Exn InvalidStateTransitionError
               (fstr ["cannot finalize state "; RunStatus_value (ctx_state c)]))
  | Some event_type =>
      emit_event env event_type
        ([("steps", JInt (ctx_step_count c)); ("tool_calls", JInt (ctx_tool_call_count c));
          ("output", jopt JStr (ctx_output c)); ("error", jopt JStr (ctx_error c));
          ("usage", TokenUsage_dump (ctx_usage c));
          ("model_calls", JInt (Z.of_nat (length (ctx_responses c))));
          ("pending_input", jopt PendingInput_dump (ctx_pending_input c));
          ("plan", jopt ExecutionPlan_dump (ctx_plan c));
          ("resource_failures", jlist ResourceFailure_dump (ctx_resource_failures c));
          ("attachments", jlist Attachment_dump (ctx_attachments c));
          ("artifacts", jlist Artifact_dump (ctx_artifacts c));
          ("memory", memory_summary c)]
         ++ if bool_decide (ctx_state c = INTERRUPTED)
            then [("interruption_source", JStr "asyncio_task_cancelled");
                  ("recoverable", JBool false)]
            else [])
  end.

(** ** The lifecycle *)

Variable specs : list (ResourceSpec X).
Variable memories : MemoryManager X.
Variable services : RuntimeServices X.
Variable strategy : Strategy X.

(** The [while] loop. *)
Fixpoint run_loop (fuel : nat) : M unit :=
  let* c := ctx_get in
  if negb (bool_decide (ctx_state c = RUNNING)) then ret tt
  else
    match fuel with
    | O => fun _ => None
    | S fuel' =>
        let* cancelled := cancel_requested env in
        if cancelled then
          do* ctx_put (set_error (Some "run cancellation requested")) in
          ctx_do (ctx_transition CANCELLED)
        else
          let* d := sup_before_model (sv_supervisor services) in
          do* (if continues d then ret tt else apply_supervision_decision env d true) in
          let* c := ctx_get in
          if negb (bool_decide (ctx_state c = RUNNING)) then ret tt
          else
            do* st_advance strategy in
            run_loop fuel'
    end.

(** The body of the [try] statement. *)
Definition run_body (fuel : nat) : M unit :=
  do* resources_start env specs in
  do* (let* _ := memory_initialize env memories in ret tt) in
  run_loop fuel.

(** [if context.state in {...}: transition_to(target)]. *)
Definition abandon (from : list RunStatus) (target : RunStatus) : M unit :=
  let* c := ctx_get in
  if bool_decide (ctx_state c ∈ from) then ctx_do (ctx_transition target) else ret tt.

(** The [except] clauses. *)
Definition run_failed (e : exn) : M unit :=
  if is_exception e then
    do* ctx_put (set_error (Some (fstr ["orchestration failed: "; exn_str e]))) in
    abandon [RUNNING] FAILED
  else
    let* requested := cancel_requested env in
    if requested then
      do* ctx_put (set_error (Some "run cancellation requested")) in
      abandon [CREATED; RUNNING; WAITING] CANCELLED
    else
      do* ctx_put (set_error (Some "runtime task interrupted")) in
      abandon [CREATED; RUNNING; WAITING] INTERRUPTED.

(** The [try]/[except]/[finally] statement: the [execution_error]. *)
Definition guarded_run (fuel : nat) : M (option exn) :=
  let* body := attempt (run_body fuel) in
  let execution_error := match body with Ok _ => None | Raise e => Some e end in
  let* handled := attempt (match body with Ok _ => ret tt | Raise e => run_failed e end) in
  let* failures := resources_close env specs execution_error in
  do* ctx_put (fun c => set_resource_failures (ctx_resource_failures c ++ failures) c) in
  match handled with
  | Ok _ => ret execution_error
  | Raise e => throw e
  end.

(** The checkpoint of a Run that waits; none of one that ended. *)
Definition settle_checkpoint : M unit :=
  call_store env (fun _ w =>
    if bool_decide (ctx_state (w_ctx w) = WAITING) then
      let! cp := from_context (w_ctx w) in
      Ok (set_checkpoints (checkpoint_save cp_run_id cp (w_checkpoints w)) w, tt)
    else Ok (set_checkpoints (checkpoint_delete (ctx_run_id (w_ctx w)) (w_checkpoints w)) w, tt)).

(** The conversation turn; [conversation_store]: one was given. *)
Definition settle_turn (conversation_store : bool) : M unit :=
  let* c := ctx_get in
  match ctx_conversation_id c with
  | None => ret tt
  | Some cid =>
      if negb conversation_store then
        throw (value_error ["conversation_store is required for a Conversation Run"])
      else
        call_store env (fun amb w =>
          let! '(convs, _) := finish_turn amb cid (ctx_run_id c) (ctx_state c) (ctx_output c)
                                (w_conversations w) in
          Ok (set_conversations convs w, tt))
  end.

(** The creation or the resumption of the Run, by the state of its context. *)
Definition open_run (resume_input : option string) (confirmation : option ToolConfirmation)
  : M unit :=
  let* c := ctx_get in
  let provider := provider_name (sv_provider services) in
  match ctx_state c with
  | CREATED | RUNNING => start_run provider
  | WAITING => prepare_resume resume_input confirmation provider
  | s => throw (Exn InvalidStateTransitionError
                  (fstr ["cannot execute context in state "; RunStatus_value s]))
  end.

(** What follows the [try] statement. *)
Definition close_run (conversation_store : bool) (execution_error : option exn) : M AgentResult :=
  do* match st_settle strategy with Some settle => settle | None => ret tt end in
  let* c := ctx_get in
  let* result := of_outcome (build_result c) in
  do* settle_checkpoint in
  do* settle_turn conversation_store in
  do* finalize_run in
  match execution_error with
  | Some e => if is_exception e then ret result else throw e
  | None => ret result
  end.

(** [execute]. *)
Definition runtime_execute (fuel : nat) (conversation_store : bool) (resume_input : option string)
  (confirmation : option ToolConfirmation) : M AgentResult :=
  do* of_outcome (ResourceManager_check specs) in
  do* of_outcome (MemoryManager_check memories) in
  do* scope_put (fun _ => scope_new) in
  do* open_run resume_input confirmation in
  let* execution_error := guarded_run fuel in
  close_run conversation_store execution_error.
End Engine.

(** [AgentRuntime]: the strategy of a context that has a plan or asks for
    one, and of one that does not. *)
Record AgentRuntime (X : Type) := mk_AgentRuntime {
  rt_strategy : Strategy X;
  rt_planning_strategy : option (Strategy X);
}.
Arguments mk_AgentRuntime {X}.
Arguments rt_strategy {X}.
Arguments rt_planning_strategy {X}.

Definition active_strategy {X} (rt : AgentRuntime X) (c : RuntimeContext) : Strategy X :=
  if negb (is_none (ctx_plan c)) || ctx_planning_requested c
  then default (rt_strategy rt) (rt_planning_strategy rt)
  else rt_strategy rt.

(** [ModelToolStrategy()]. *)
Definition ModelToolStrategy `{JsonFloat} `{Validators} {X} (env : nat -> ambient)
  (expires : nat -> bool) (services : RuntimeServices X) : Strategy X :=
  mk_Strategy (model_tool_advance env expires services (default_hooks services)) None.
