(* ===== verification/RuntimeLogic.v ===== *)
(** * A program logic for the runtime

    Total-correctness triples for the programs of [Runtime], [ModelTool] and
    [Engine]: while one Run executes, its context, its stored snapshot, its
    event log and its conversation turn satisfy [eng_inv] between any two
    steps, whatever the application's code (provider, tools, resources,
    retriever, confirmation policy, evidence recorder) and the other tasks
    do, as long as that is [peaceful]. *)

From Stdlib Require Import QArith.
From stdpp Require Import base gmap strings list.
From S2P Require Import Prelude Json Models Sha256 Plan StateMachine ConversationStore RunStore EventStore FlowModels SideEffects Program Serial Runtime Resources Supervision ToolExecutor ModelTool Engine.

Section RuntimeLogic.
Context {X : Type}.
Variable env : nat -> ambient.

(** The Run, its profile, its event log before this execution, and its
    conversation. *)
Variable rid : uuid.
Variable prof : AgentProfile.
Variable log0 : list RuntimeEvent.
Variable conv : option uuid.

(** Whether the Run has left [CREATED]. *)
Variable started : bool.

(** The turn of the Run is the active one of the conversation. *)
Definition turn_open (cid : uuid) (cs : ConversationStore) : Prop :=
  exists c i t, cs_conversations cs !! cid = Some c /\ conv_active_run_id c = Some rid /\
    turn_index rid (turns_of cs cid) = Some i /\ turns_of cs cid !! i = Some t.

(** Events that do not end the Run. *)
Definition ongoing (es : list RuntimeEvent) : Prop :=
  Forall (fun e => is_terminal_event e = false) es.

(** A pending input its constructor accepted. *)
Definition pending_valid (c : RuntimeContext) : Prop :=
  exists p, ctx_pending_input c = Some p /\ PendingInput_fields p = true.

Lemma pending_valid_Some c : pending_valid c -> is_Some (ctx_pending_input c).
Proof. intros (p & -> & _). by eexists. Qed.

(** What an execution maintains of its context. *)
Record ctx_ok (c : RuntimeContext) : Prop := {
  ok_run_id : ctx_run_id c = rid;
  ok_profile : ctx_profile c = prof;
  ok_conversation : ctx_conversation_id c = conv;
  ok_state : started = true -> ctx_state c <> CREATED;
  ok_pending : ctx_state c = WAITING -> pending_valid c;
  ok_steps : 0 <= ctx_step_count c <= prof_max_steps prof;
  ok_calls : 0 <= ctx_tool_call_count c <= prof_max_tool_calls prof;
  ok_responses : Z.of_nat (length (ctx_responses c)) <= ctx_step_count c;
  ok_counters : exists v, sees c v;
  ok_keys : NoDup (dkeys (ctx_supervision_data c));
  ok_error : forall e, ctx_error c = Some e -> blank e = false;
  ok_plan : forall p, ctx_plan c = Some p -> plan_valid p;
}.

(** The Run is stored, under its id, with the conversation it belongs to. *)
Definition stored_in (cv : option uuid) (w : World X) : Prop :=
  exists r, w_runs w !! rid = Some r /\ run_id r = rid /\ run_conversation_id r = cv.

Definition run_stored (w : World X) : Prop := stored_in conv w.

Record eng_inv (w : World X) : Prop := {
  inv_ctx : ctx_ok (w_ctx w);
  inv_run : run_stored w;
  inv_log : exists es, events_of (w_events w) rid = log0 ++ es /\ ongoing es;
  inv_turn : match conv with Some cid => turn_open cid (w_conversations w) | None => True end;
}.

(** ** What the application's code and other tasks may do *)

(** They reach the context only through the artifact manager, do not delete
    the stored Run, emit no event that ends it, and leave its turn alone. *)
Record peaceful (w w' : World X) : Prop := {
  pc_ctx : w_ctx w' = set_artifacts (ctx_artifacts (w_ctx w')) (w_ctx w);
  pc_run : forall cv, stored_in cv w -> stored_in cv w';
  pc_log : exists es, events_of (w_events w') rid = events_of (w_events w) rid ++ es /\ ongoing es;
  pc_turn : forall cid, turn_open cid (w_conversations w) -> turn_open cid (w_conversations w');
}.

(** A program that ends and does nothing else. *)
Definition quiet {A} (p : prog (World X) A) : Prop :=
  forall st, exists st' o, p st = Some (st', o) /\ peaceful (sys_w st) (sys_w st').

Lemma set_artifacts_id c : set_artifacts (ctx_artifacts c) c = c.
Proof. by destruct c. Qed.

Lemma ongoing_app a b : ongoing a -> ongoing b -> ongoing (a ++ b).
Proof. apply Forall_app_2. Qed.

Lemma peaceful_refl w : peaceful w w.
Proof.
  split; try done; [by rewrite set_artifacts_id|].
  exists []. rewrite app_nil_r. split; [done|constructor].
Qed.

Lemma peaceful_trans w1 w2 w3 : peaceful w1 w2 -> peaceful w2 w3 -> peaceful w1 w3.
Proof.
  intros [c1 r1 (es1 & l1 & o1) t1] [c2 r2 (es2 & l2 & o2) t2]. split; [|auto| |auto].
  - rewrite c2. rewrite c1. by destruct (w_ctx w1).
  - exists (es1 ++ es2). rewrite l2, l1, app_assoc. split; [done|by apply ongoing_app].
Qed.

Lemma quiet_of_outcome {A} (o : outcome A) : quiet (of_outcome o).
Proof. intros st. eexists st, o. split; [done|apply peaceful_refl]. Qed.
Lemma quiet_ret {A} (a : A) : quiet (ret a).
Proof. apply (quiet_of_outcome (Ok a)). Qed.
Lemma quiet_throw {A} e : quiet (throw (A := A) e).
Proof. apply (quiet_of_outcome (Raise e)). Qed.
Lemma quiet_get : quiet ctx_get.
Proof. intros st. eexists st, _. split; [done|apply peaceful_refl]. Qed.

Lemma quiet_bind {A B} (p : prog (World X) A) (k : A -> prog (World X) B) :
  quiet p -> (forall a, quiet (k a)) -> quiet (bind p k).
Proof.
  intros Hp Hk st. unfold bind. destruct (Hp st) as (st1 & [a|e] & -> & H1); [|by eexists _, _].
  destruct (Hk a st1) as (st2 & o & -> & H2). eexists _, _. split; [done|].
  by eapply peaceful_trans.
Qed.

Lemma quiet_try {A} (p : prog (World X) A) h :
  quiet p -> (forall e q, h e = Some q -> quiet q) -> quiet (try_except p h).
Proof.
  intros Hp Hh st. unfold try_except.
  destruct (Hp st) as (st1 & [a|e] & -> & H1); [by eexists _, _|].
  destruct (h e) as [q|] eqn:E; [|by eexists _, _].
  destruct (Hh _ _ E st1) as (st2 & o & -> & H2). eexists _, _. split; [done|].
  by eapply peaceful_trans.
Qed.

Lemma quiet_timeout {A} expires (op : awaitable (World X) A) :
  quiet (aw_run op) -> quiet (aw_cut op) -> quiet (with_timeout expires op).
Proof.
  intros Hr Hc st. unfold with_timeout. destruct (expires _).
  - assert (quiet (bind (aw_cut op) (fun _ => throw (A := A) (Exn ExTimeoutError "")))) as Hq
      by (apply quiet_bind; [done|]; intros; apply quiet_throw).
    destruct (Hq (mk_sys (sys_w st) (S (sys_tick st)))) as (st' & o & E & Hp). by exists st', o.
  - destruct (Hr (mk_sys (sys_w st) (S (sys_tick st)))) as (st' & o & E & Hp). by exists st', o.
Qed.

(** ** Triples

    [triple P p Q]: from a state of the invariant whose context satisfies
    [P], [p] ends in one of the invariant, and if it returns, [Q] holds of
    its value and the context.  Assertions are steady: the artifacts and the
    supervisor's counters do not matter to them. *)

Record steady (P : RuntimeContext -> Prop) : Prop := {
  st_artifacts : forall c a, P c -> P (set_artifacts a c);
  st_counters : forall c c', only_counters c c' -> P c -> P c';
}.

Definition triple {A} (P : RuntimeContext -> Prop) (p : prog (World X) A)
  (Q : A -> RuntimeContext -> Prop) : Prop :=
  forall st, eng_inv (sys_w st) -> P (w_ctx (sys_w st)) ->
    exists st' o, p st = Some (st', o) /\ eng_inv (sys_w st') /\
      forall a, o = Ok a -> Q a (w_ctx (sys_w st')).

Lemma ctx_ok_artifacts c a : ctx_ok c -> ctx_ok (set_artifacts a c).
Proof. intros [? ? ? ? ? ? ? ? [v Hv] ? ? ?]. split; try done. exists v. exact Hv. Qed.

Lemma eng_inv_peaceful w w' : eng_inv w -> peaceful w w' -> eng_inv w'.
Proof.
  intros [Hc Hr (es & He & Ho) Ht] [c r (es' & l & o) t]. split.
  - rewrite c. by apply ctx_ok_artifacts.
  - by apply r.
  - exists (es ++ es'). rewrite l, He, app_assoc. split; [done|by apply ongoing_app].
  - destruct conv; [by apply t|done].
Qed.

Lemma triple_quiet {A} P (p : prog (World X) A) :
  quiet p -> steady P -> triple P p (fun _ c => P c).
Proof.
  intros Hq [Hs _] st Hi HP. destruct (Hq st) as (st' & o & E & Hp). exists st', o.
  split_and!; [done|by eapply eng_inv_peaceful|].
  intros a _. rewrite (pc_ctx _ _ Hp). by apply Hs.
Qed.

Lemma triple_post {A} P (p : prog (World X) A) Q Q' :
  triple P p Q -> (forall a c, Q a c -> Q' a c) -> triple P p Q'.
Proof.
  intros Hp Hq st Hi HP. destruct (Hp _ Hi HP) as (st' & o & E & Hx & Hy).
  exists st', o. split_and!; try done. intros a Ha. by apply Hq, Hy.
Qed.

Lemma triple_pre {A} (P P' : RuntimeContext -> Prop) (p : prog (World X) A) Q :
  triple P p Q -> (forall c, P' c -> P c) -> triple P' p Q.
Proof. intros Hp Hpre st Hi HP. by apply (Hp _ Hi (Hpre _ HP)). Qed.

Lemma triple_fact {A} (F : Prop) P (p : prog (World X) A) Q :
  (F -> triple P p Q) -> triple (fun c => F /\ P c) p Q.
Proof. intros Hp st Hi [HF HP]. by apply (Hp HF _ Hi HP). Qed.

Lemma triple_of_outcome {A} P (o : outcome A) (Q : A -> RuntimeContext -> Prop) :
  (forall a c, o = Ok a -> P c -> Q a c) -> triple P (of_outcome o) Q.
Proof. intros Hq st Hi HP. exists st, o. split_and!; try done. intros a Ha. by apply Hq. Qed.

Lemma triple_ret {A} P (a : A) (Q : A -> RuntimeContext -> Prop) :
  (forall c, P c -> Q a c) -> triple P (ret a) Q.
Proof. intros Hq. apply (triple_of_outcome P (Ok a)). intros a' c [= <-]. apply Hq. Qed.

Lemma triple_skip {A} P (a : A) : triple P (ret a) (fun _ c => P c).
Proof. by apply triple_ret. Qed.

Lemma triple_throw {A} P e (Q : A -> RuntimeContext -> Prop) : triple P (throw e) Q.
Proof. by apply (triple_of_outcome P (Raise e)). Qed.

Lemma triple_bind {A B} P (p : prog (World X) A) (k : A -> prog (World X) B) Q R :
  triple P p Q -> (forall a, triple (Q a) (k a) R) -> triple P (bind p k) R.
Proof.
  intros Hp Hk st Hi HP. destruct (Hp _ Hi HP) as (st1 & o1 & E1 & Hi1 & Hq1).
  unfold bind. rewrite E1. destruct o1 as [a|e]; [|by eexists _, _].
  destruct (Hk a _ Hi1 (Hq1 _ eq_refl)) as (st2 & o2 & E2 & Hi2 & Hq2).
  by exists st2, o2.
Qed.

(** A handler starts anywhere in the invariant. *)
Lemma triple_try {A} P (p : prog (World X) A) h Q :
  triple P p Q -> (forall e q, h e = Some q -> triple (fun _ => True) q Q) ->
  triple P (try_except p h) Q.
Proof.
  intros Hp Hh st Hi HP. destruct (Hp _ Hi HP) as (st1 & o1 & E1 & Hi1 & Hq1).
  unfold try_except. rewrite E1. destruct o1 as [a|e]; [by eexists _, _|].
  destruct (h e) as [q|] eqn:Eh; [|by eexists _, _].
  destruct (Hh _ _ Eh _ Hi1 I) as (st2 & o2 & E2 & Hi2 & Hq2).
  by exists st2, o2.
Qed.

Lemma triple_get P : triple P ctx_get (fun c c' => c = c' /\ P c').
Proof. intros st Hi HP. eexists st, _. split_and!; try done. by intros c [= <-]. Qed.

Lemma triple_do P f (Q : unit -> RuntimeContext -> Prop) :
  (forall c c', ctx_ok c -> P c -> f c = Ok c' -> ctx_ok c' /\ Q tt c') ->
  triple P (ctx_do f) Q.
Proof.
  intros Hf st Hi HP. unfold ctx_do. destruct (f (w_ctx (sys_w st))) as [c'|e] eqn:E;
    [|by eexists _, _].
  destruct (Hf _ _ (inv_ctx _ Hi) HP E) as [Hok Hq]. eexists _, _. split; [reflexivity|]. simpl.
  destruct Hi as [_ Hr Hl Ht]. split; [by split|]. by intros [] _.
Qed.

Lemma triple_put P f (Q : unit -> RuntimeContext -> Prop) :
  (forall c, ctx_ok c -> P c -> ctx_ok (f c) /\ Q tt (f c)) -> triple P (ctx_put f) Q.
Proof. intros Hf. apply triple_do. intros c c' Hc HP [= <-]. by apply Hf. Qed.

(** [sure P p Q]: moreover [p] returns. *)
Definition sure {A} (P : RuntimeContext -> Prop) (p : prog (World X) A)
  (Q : A -> RuntimeContext -> Prop) : Prop :=
  forall st, eng_inv (sys_w st) -> P (w_ctx (sys_w st)) ->
    exists st' a, p st = Some (st', Ok a) /\ eng_inv (sys_w st') /\ Q a (w_ctx (sys_w st')).

Lemma sure_triple {A} P (p : prog (World X) A) Q : sure P p Q -> triple P p Q.
Proof.
  intros Hp st Hi HP. destruct (Hp st Hi HP) as (st' & a & E & Hi' & Hq).
  exists st', (Ok a). split_and!; try done. by intros a' [= <-].
Qed.

Lemma sure_bind {A B} P (p : prog (World X) A) (k : A -> prog (World X) B) Q R :
  sure P p Q -> (forall a, sure (Q a) (k a) R) -> sure P (bind p k) R.
Proof.
  intros Hp Hk st Hi HP. destruct (Hp _ Hi HP) as (st1 & a & E1 & Hi1 & Hq1).
  rewrite (bind_Ok _ _ _ _ _ E1). by apply (Hk a).
Qed.

Lemma sure_ret {A} P (a : A) (Q : A -> RuntimeContext -> Prop) :
  (forall c, P c -> Q a c) -> sure P (ret a) Q.
Proof. intros Hq st Hi HP. exists st, a. split_and!; [done|done|by apply Hq]. Qed.

Lemma sure_skip {A} P (a : A) : sure P (ret a) (fun _ c => P c).
Proof. by apply sure_ret. Qed.

Lemma sure_get P : sure P ctx_get (fun c c' => c = c' /\ P c').
Proof. intros st Hi HP. eexists st, _. by split_and!. Qed.

Lemma sure_pre {A} (P P' : RuntimeContext -> Prop) (p : prog (World X) A) Q :
  sure P p Q -> (forall c, P' c -> P c) -> sure P' p Q.
Proof. intros Hp Hpre st Hi HP. by apply (Hp _ Hi (Hpre _ HP)). Qed.

Lemma sure_do P f (Q : unit -> RuntimeContext -> Prop) :
  (forall c, ctx_ok c -> P c -> exists c', f c = Ok c' /\ ctx_ok c' /\ Q tt c') ->
  sure P (ctx_do f) Q.
Proof.
  intros Hf st Hi HP. unfold ctx_do. destruct (Hf _ (inv_ctx _ Hi) HP) as (c' & -> & Hok & Hq).
  eexists _, _. split; [reflexivity|]. simpl. destruct Hi as [_ Hr Hl Ht]. split; [by split|done].
Qed.

Lemma sure_put P f (Q : unit -> RuntimeContext -> Prop) :
  (forall c, ctx_ok c -> P c -> ctx_ok (f c) /\ Q tt (f c)) -> sure P (ctx_put f) Q.
Proof. intros Hf. apply sure_do. intros c Hc HP. exists (f c). by destruct (Hf c Hc HP). Qed.

(** [stays P p]: [P] holds again however [p] ends. *)
Definition stays {A} (P : RuntimeContext -> Prop) (p : prog (World X) A) : Prop :=
  forall st, eng_inv (sys_w st) -> P (w_ctx (sys_w st)) ->
    exists st' o, p st = Some (st', o) /\ eng_inv (sys_w st') /\ P (w_ctx (sys_w st')).

Lemma stays_quiet {A} P (p : prog (World X) A) : quiet p -> steady P -> stays P p.
Proof.
  intros Hq [Hs _] st Hi HP. destruct (Hq st) as (st' & o & E & Hp). exists st', o.
  split_and!; [done|by eapply eng_inv_peaceful|]. rewrite (pc_ctx _ _ Hp). by apply Hs.
Qed.

Lemma stays_sure {A} P (p : prog (World X) A) : sure P p (fun _ c => P c) -> stays P p.
Proof. intros Hp st Hi HP. destruct (Hp st Hi HP) as (st' & a & E & Hx). by exists st', (Ok a). Qed.

Lemma stays_of_outcome {A} P (o : outcome A) : stays P (of_outcome o).
Proof. intros st Hi HP. by exists st, o. Qed.

Lemma stays_bind {A B} P (p : prog (World X) A) (k : A -> prog (World X) B) :
  stays P p -> (forall a, stays P (k a)) -> stays P (bind p k).
Proof.
  intros Hp Hk st Hi HP. destruct (Hp _ Hi HP) as (st1 & [a|e] & E & Hi1 & HP1).
  - rewrite (bind_Ok _ _ _ _ _ E). by apply Hk.
  - rewrite (bind_Raise _ _ _ _ _ E). by eexists _, _.
Qed.

Lemma stays_try {A} P (p : prog (World X) A) h :
  stays P p -> (forall e q, h e = Some q -> stays P q) -> stays P (try_except p h).
Proof.
  intros Hp Hh st Hi HP. unfold try_except.
  destruct (Hp _ Hi HP) as (st1 & [a|e] & -> & Hi1 & HP1); [by eexists _, _|].
  destruct (h e) as [q|] eqn:E; [by apply (Hh _ _ E)|by eexists _, _].
Qed.

Lemma stays_triple {A} P (p : prog (World X) A) : stays P p -> triple P p (fun _ c => P c).
Proof. intros Hp st Hi HP. destruct (Hp _ Hi HP) as (st' & o & E & Hx & Hy). by exists st', o. Qed.

(** A handler that starts where the program started. *)
Lemma triple_try_stays {A} P (p : prog (World X) A) h (Q : A -> RuntimeContext -> Prop) :
  stays P p -> (forall a c, P c -> Q a c) ->
  (forall e q, h e = Some q -> triple P q Q) -> triple P (try_except p h) Q.
Proof.
  intros Hp Hret Hh st Hi HP. unfold try_except.
  destruct (Hp _ Hi HP) as (st1 & [a|e] & -> & Hi1 & HP1).
  - eexists _, _. split_and!; try done. intros a' [= <-]. by apply Hret.
  - destruct (h e) as [q|] eqn:Eh; [by apply (Hh _ _ Eh)|by eexists _, _].
Qed.

(** *** The stores *)

Lemma log_of_insert evs r l : events_of (<[r := l]> evs) r = l.
Proof. unfold events_of. by rewrite lookup_insert_eq. Qed.

Lemma emit_run amb ty data evs :
  exists e, emit amb rid ty (Some data) evs
            = Ok (<[rid := events_of evs rid ++ [e]]> evs, e) /\ ev_type e = ty.
Proof.
  unfold emit, checked. rewrite (proj2 (Z.leb_le _ _)) by lia. eexists. split; [reflexivity|done].
Qed.

Lemma emit_event_run ty data (st : sys (World X)) :
  ctx_run_id (w_ctx (sys_w st)) = rid ->
  exists e, emit_event env ty data st
    = Some (mk_sys (set_events (<[rid := events_of (w_events (sys_w st)) rid ++ [e]]>
                                  (w_events (sys_w st))) (sys_w st)) (S (sys_tick st)), Ok tt) /\
    ev_type e = ty.
Proof.
  intros Hid. destruct (emit_run (env (sys_tick st)) ty data (w_events (sys_w st))) as (e & E & Ht).
  exists e. split; [|done]. unfold emit_event, call_store. by rewrite Hid, E.
Qed.

Lemma sure_emit P ty data :
  bool_decide (ty ∈ terminal_types) = false ->
  sure P (emit_event env ty data) (fun _ c => P c).
Proof.
  intros Hty st Hi HP.
  destruct (emit_event_run ty data st (ok_run_id _ (inv_ctx _ Hi))) as (e & E & Ht).
  eexists _, _. split; [exact E|]. destruct Hi as [Hc Hr (es & He & Ho) Htu].
  split; [|done]. split; try done. exists (es ++ [e]). simpl.
  rewrite log_of_insert, He, app_assoc. split; [done|]. apply ongoing_app; [done|].
  constructor; [|constructor]. unfold is_terminal_event. by rewrite Ht.
Qed.

Lemma triple_emit P ty data :
  bool_decide (ty ∈ terminal_types) = false ->
  triple P (emit_event env ty data) (fun _ c => P c).
Proof. intros Hty. by apply sure_triple, sure_emit. Qed.

(** What a stored Run tells of a context. *)
Record run_tells (r : Run) (c : RuntimeContext) : Prop := {
  rt_status : run_status r = ctx_state c;
  rt_steps : run_step_count r = ctx_step_count c;
  rt_calls : run_tool_call_count r = ctx_tool_call_count c;
  rt_output : run_output r = ctx_output c;
  rt_error : run_error r = ctx_error c;
  rt_artifacts : run_artifacts r = ctx_artifacts c;
}.

Lemma save_context_snapshot_run (st : sys (World X)) :
  ctx_run_id (w_ctx (sys_w st)) = rid -> run_stored (sys_w st) ->
  exists r' n, save_context_snapshot env st
    = Some (mk_sys (set_runs (<[rid := r']> (w_runs (sys_w st))) (sys_w st)) n, Ok tt) /\
    run_id r' = rid /\ run_conversation_id r' = conv /\ run_tells r' (w_ctx (sys_w st)).
Proof.
  intros Hid (r & Hr & Hrid & Hcv).
  unfold save_context_snapshot, bind, call_store, run_get, ctx_get. simpl. rewrite Hid, Hr. simpl.
  unfold run_save. simpl. rewrite Hrid, Hr.
  destruct (run_cancel_requested r && _); eexists _, _; split_and!; try reflexivity;
    try exact Hrid; try exact Hcv; by split.
Qed.

Lemma sure_save P : sure P (save_context_snapshot env) (fun _ c => P c).
Proof.
  intros st Hi HP.
  destruct (save_context_snapshot_run st (ok_run_id _ (inv_ctx _ Hi)) (inv_run _ Hi))
    as (r' & n & E & Hx1 & Hx2 & _).
  eexists _, _. split; [exact E|]. destruct Hi as [Hc Hr Hl Ht].
  split; [|done]. split; try done. exists r'. simpl. by rewrite lookup_insert_eq.
Qed.

Lemma triple_save P : triple P (save_context_snapshot env) (fun _ c => P c).
Proof. apply sure_triple, sure_save. Qed.

Lemma sure_cancel_requested P : sure P (cancel_requested env) (fun _ c => P c).
Proof.
  intros st Hi HP. destruct (inv_run _ Hi) as (r & Hr & Hid & _).
  unfold cancel_requested, call_store, is_cancel_requested, run_get.
  rewrite (ok_run_id _ (inv_ctx _ Hi)), Hr. eexists _, _. split; [reflexivity|].
  destruct Hi as [Hc Hr' Hl Ht]. split; [by split|done].
Qed.

Lemma triple_cancel_requested P : triple P (cancel_requested env) (fun _ c => P c).
Proof. apply sure_triple, sure_cancel_requested. Qed.

(** *** Supervision *)

Lemma only_counters_eq c c' :
  only_counters c c' -> c' = set_supervision_data (ctx_supervision_data c') c.
Proof.
  intros [He _]. destruct c, c'. unfold set_supervision_data in *. simpl in *. by injection He; intros; subst.
Qed.

Lemma ctx_ok_counters c c' v : ctx_ok c -> only_counters c c' -> sees c' v -> ctx_ok c'.
Proof.
  intros [? ? ? ? ? ? ? ? _ Hn ? ?] Ho Hv. pose proof (only_counters_eq _ _ Ho) as E.
  pose proof (proj1 (proj2 Ho) Hn) as Hn'.
  rewrite E. split; try done. exists v. by rewrite <-E.
Qed.

(** A hook of the default supervisor: it decides and changes nothing but the
    counters. *)
Lemma decides_triple P (p : prog (World X) SupervisionDecision) (a : RuntimeContext -> SupervisionAction)
    (t : RuntimeContext -> option RunStatus) :
  (forall st, eng_inv (sys_w st) -> exists c' v, only_counters (w_ctx (sys_w st)) c' /\ sees c' v /\
     decides p st c' (a (w_ctx (sys_w st))) (t (w_ctx (sys_w st)))) ->
  steady P ->
  triple P p (fun d c' => P c' /\ reasoned d /\ exists c, ctx_ok c /\ only_counters c c' /\
                dec_action d = a c /\ dec_terminal_status d = t c).
Proof.
  intros Hp [_ Hst] st Hi HP. destruct (Hp st Hi) as (c' & v & Ho & Hv & d & E & Ha & Ht & Hrd).
  eexists _, _. split; [exact E|]. destruct Hi as [Hc Hr Hl Htu].
  split.
  - split; try done. by eapply ctx_ok_counters.
  - intros d' [= <-]. split; [by eapply Hst|]. split; [done|]. by exists (w_ctx (sys_w st)).
Qed.

Ltac step_by t := eapply triple_bind; [t|cbv beta].
Tactic Notation "step" tactic(t) := step_by t.

Section Strategies.
Context `{JsonFloat} `{FloatRepr} `{Validators}.

(** Consulting the default supervisor before a model call. *)
Lemma triple_before_model P :
  steady P ->
  triple P (sup_before_model build_default_supervisor)
  (fun d c => P c /\ reasoned d /\
     (dec_action d = CONTINUE /\ ctx_step_count c < prof_max_steps prof \/
      dec_action d = STOP /\ dec_terminal_status d = Some LIMIT_REACHED)).
Proof.
  intros Hst. eapply triple_post.
  - apply (decides_triple P _
    (fun c => if prof_max_steps (ctx_profile c) <=? ctx_step_count c then STOP else CONTINUE)
    (fun c => if prof_max_steps (ctx_profile c) <=? ctx_step_count c then Some LIMIT_REACHED else None));
    [|done].
  intros st Hi. destruct (ok_counters _ (inv_ctx _ Hi)) as [v Hv].
  eexists _, v. split_and!; [apply only_counters_refl|exact Hv|by eapply before_model_decides].
  - intros d c' [HP [Hrd (c & Hc & Ho & Ha & Ht)]]. split; [done|]. split; [done|].
  rewrite (only_counters_eq _ _ Ho). simpl. rewrite (ok_profile _ Hc) in Ha, Ht.
  destruct (_ <=? _) eqn:E; reflect; auto.
Qed.

(** Consulting it before a tool call. *)
Lemma triple_before_tool P call :
  steady P ->
  triple P (sup_before_tool build_default_supervisor call)
  (fun d c => P c /\ reasoned d /\
     (dec_action d = STOP /\ dec_terminal_status d = Some LIMIT_REACHED \/
      dec_action d <> STOP /\ dec_terminal_status d = None /\
      ctx_tool_call_count c < prof_max_tool_calls prof)).
Proof.
  intros Hst st Hi HP. destruct (ok_counters _ (inv_ctx _ Hi)) as [v Hv].
  pose proof (before_tool_decides call st v Hv) as Hd. cbv zeta in Hd.
  rewrite (ok_profile _ (inv_ctx _ Hi)) in Hd.
  destruct Hi as [Hc Hr Hl Htu].
  destruct (_ <=? ctx_tool_call_count _) eqn:E.
  - destruct Hd as (d & Er & Ha & Ht & Hrd). eexists _, _. split; [exact Er|].
  split; [by split|]. intros d' [= <-]. by auto.
  - destruct Hd as (c' & Ho & Hv' & d & Er & Ha & Ht & Hrd). eexists _, _. split; [exact Er|].
  split; [split; try done; by eapply ctx_ok_counters|].
  intros d' [= <-]. split; [by eapply (st_counters _ Hst)|]. split; [done|]. right.
  simpl. pose proof (only_counters_eq _ _ Ho) as Hc'. rewrite Hc'. simpl. reflect.
  split_and!; [|done|done]. rewrite Ha. by destruct (_ <=? _).
Qed.

(** And after it. *)
Lemma triple_after_tool P call r :
  steady P ->
  triple P (sup_after_tool build_default_supervisor call r)
  (fun d c => P c /\ reasoned d /\ dec_action d <> STOP).
Proof.
  intros Hst st Hi HP. destruct (ok_counters _ (inv_ctx _ Hi)) as [v Hv].
  destruct (after_tool_decides call r st v Hv) as (c' & Ho & Hv' & d & Er & Ha & Ht & Hrd).
  destruct Hi as [Hc Hr Hl Htu].
  eexists _, _. split; [exact Er|]. split; [split; try done; by eapply ctx_ok_counters|].
  intros d' [= <-]. split; [by eapply (st_counters _ Hst)|]. split; [done|]. rewrite Ha. by destruct (_ && _).
Qed.

(** ** The state during a turn

    [turn k c]: the step of the turn, and no batch is suspended while the Run
    is running. *)
Definition turn (k : Z) (c : RuntimeContext) : Prop :=
  ctx_step_count c = k /\ (ctx_state c = RUNNING -> has_suspended_batch c = false).

Lemma steady_turn k : steady (turn k).
Proof.
  split; [done|]. intros c c' Ho [Hk Hs]. pose proof (only_counters_eq _ _ Ho) as E.
  unfold turn. rewrite E. simpl. split; [done|]. intros Hr. rewrite <-(Hs Hr).
  unfold has_suspended_batch. simpl. destruct Ho as (_ & _ & Ho). by rewrite Ho.
Qed.

(** Everything an assignment leaves alone. *)
Ltac keep_ok := match goal with H : ctx_ok _ |- _ => destruct H; split; simpl in *; auto end.

Lemma ctx_transition_Ok t c c' :
  ctx_transition t c = Ok c' ->
  c' = set_state_machine (mk_RuntimeStateMachine t) c /\ t ∈ allowed_transitions (ctx_state c).
Proof.
  unfold ctx_transition. destruct (transition_to _ t) as [m|] eqn:E; [|done].
  apply transition_to_Ok in E as [Hin ->]. by intros [= <-].
Qed.

(** Leaving the running state for one that is not waiting. *)
Lemma triple_leave k t :
  t <> CREATED -> t <> WAITING -> t <> RUNNING ->
  triple (turn k) (ctx_do (ctx_transition t)) (fun _ c => turn k c /\ ctx_state c = t).
Proof.
  intros Hx1 Hx2 Hx3. apply triple_do. intros c c' Hc [Hk Hs] Ht.
  apply ctx_transition_Ok in Ht as [-> _]. split.
  - keep_ok. by intros.
  - split; [split; [done|]|done]. by intros.
Qed.

(** An error that is not blank, or none. *)
Definition says (e : option string) : Prop := forall r, e = Some r -> blank r = false.

Lemma says_cons a t : py_isspace a = false -> says (Some (String a t)).
Proof. intros Ha r [= <-]. by apply blank_cons. Qed.

Lemma ctx_ok_error c e : says e -> ctx_ok c -> ctx_ok (set_error e c).
Proof. intros He Hc. keep_ok. Qed.

Lemma says_reason d : reasoned d -> says (dec_reason d).
Proof. intros Hd r Hr. unfold reasoned in Hd. by rewrite Hr in Hd. Qed.

Lemma triple_set_error P e :
  says e -> (forall c, P c -> P (set_error e c)) ->
  triple P (ctx_put (set_error e)) (fun _ c => P c).
Proof. intros He HP. apply triple_put. intros c Hc Hp. split; [by apply ctx_ok_error|by apply HP]. Qed.

Lemma triple_add_message P m :
  (forall c l, P c -> P (set_messages l c)) ->
  triple P (add_message m) (fun _ c => P c).
Proof.
  intros HP. step (by apply (triple_of_outcome P m (fun _ c => P c))).
  intros a. simpl. apply triple_put. intros c Hc Hp. split; [keep_ok|by apply HP].
Qed.

(** [_cancel_if_requested]. *)
Lemma triple_cancel_if_requested k :
  triple (turn k) (cancel_if_requested env) (fun _ c => turn k c).
Proof.
  step (apply triple_cancel_requested). intros [|]; simpl; [|by apply triple_ret].
  step (apply triple_set_error; [by apply says_cons|done]). intros _.
  step (by apply triple_leave). intros _. apply triple_ret. by intros c [? _].
Qed.

(** [apply_supervision_decision] for the decisions of the default
    supervisor. *)
Definition plain_decision (d : SupervisionDecision) : Prop :=
  reasoned d /\ (dec_action d = STOP -> dec_terminal_status d = Some LIMIT_REACHED).

Lemma triple_apply k d b :
  plain_decision d ->
  triple (turn k) (apply_supervision_decision env d b)
  (fun _ c => turn k c /\ (dec_action d = STOP -> ctx_state c = LIMIT_REACHED)).
Proof.
  intros [Hrd Hd]. step (by apply triple_emit). intros _.
  apply (triple_bind _ _ _ (fun _ => turn k)); [|cbv beta; intros _].
  - destruct (_ && _); [|by apply triple_ret].
  by apply (triple_add_message (turn k)).
  - simpl. destruct (bool_decide _) eqn:E; reflect.
  + rewrite (Hd E). step (apply triple_set_error; [by apply says_reason|done]). intros _.
    eapply triple_post; [by apply triple_leave|]. intros _ c [? ?]. done.
  + by apply triple_ret.
Qed.

Lemma triple_count_tool_call k :
  triple (fun c => turn k c /\ ctx_tool_call_count c < prof_max_tool_calls prof)
  count_tool_call (fun _ c => turn k c).
Proof.
  apply triple_put. intros c Hc [Ht Hlt]. split; [|done]. destruct Hc. split; simpl; auto. lia.
Qed.

Variable expires : nat -> bool.
Variable services : RuntimeServices X.
Hypothesis default_supervision : sv_supervisor services = build_default_supervisor.

Lemma triple_block_call k call d :
  plain_decision d ->
  triple (fun c => turn k c /\ (dec_action d <> STOP -> ctx_tool_call_count c < prof_max_tool_calls prof))
  (block_call env call d) (fun _ c => turn k c).
Proof.
  intros Hd st Hi [Ht Hlt]. revert st Hi Ht Hlt.
  destruct (decide (dec_action d = STOP)) as [E|E].
  - intros st Hi Ht _. unfold block_call.
  assert (triple (turn k) (bind (apply_supervision_decision env d false)
    (fun _ => ret tt)) (fun _ c => turn k c)) as Hp.
  { step (by apply triple_apply). intros _. apply triple_ret. by intros c [? _]. }
  rewrite E. by apply Hp.
  - intros st Hi Ht Hlt.
  assert (triple (fun c => turn k c /\ ctx_tool_call_count c < prof_max_tool_calls prof)
    (block_call env call d) (fun _ c => turn k c)) as Hp; [|apply Hp; auto].
  unfold block_call.
  apply (triple_bind _ _ _ (fun _ c => turn k c /\ ctx_tool_call_count c < prof_max_tool_calls prof)).
  +
    unfold apply_supervision_decision. step (by apply triple_emit). intros _. simpl.
    rewrite (bool_decide_false _ E). step (apply triple_skip). intros _.
    by apply triple_ret.
  + intros _. rewrite (bool_decide_false _ E).
    step (apply triple_count_tool_call). intros _.
    step (by apply (triple_add_message (turn k))). intros _.
    apply (triple_bind _ _ _ (fun _ => turn k)).
    { destruct (falsy _); [by apply triple_ret|].
      by apply (triple_add_message (turn k)). }
    intros _. step (apply triple_get). intros c.
    apply (triple_pre (turn k)); [|by intros c' [_ ?]].
    step (by apply triple_emit). intros _. apply triple_save.
Qed.

Lemma triple_request_call k call :
  triple (turn k) (request_call env services call) (fun _ c => turn k c).
Proof.
  unfold request_call. step (apply triple_get). intros c0.
  apply (triple_pre (turn k)); [|by intros c' [_ ?]].
  step (by apply triple_emit). intros _. rewrite default_supervision.
  step (apply triple_before_tool, steady_turn). intros d.
  destruct (continues d) eqn:Ed; unfold continues in Ed; reflect.
  - apply (triple_pre (fun c => turn k c /\ ctx_tool_call_count c < prof_max_tool_calls prof)).
  + step (apply triple_count_tool_call). intros _.
    step (apply triple_save). intros _.
    step (by apply triple_emit). intros _. by apply triple_ret.
  + intros c (Ht & _ & [[Hs _]|(_ & _ & Hlt)]); [congruence|done].
  - apply (triple_bind _ _ _ (fun _ => turn k)); [|cbv beta; intros _; apply triple_skip].
  intros st Hi (Ht & Hrd & Hx). eapply (triple_block_call k call d); [split; [done|]|done|split; [done|]].
  + intros Hs. destruct Hx as [[_ ?]|[? _]]; done.
  + intros Hns. by destruct Hx as [[? _]|(_ & _ & ?)].
Qed.

(** *** The tool batch *)

(** The application's code behind the executor and the model. *)
Definition executor_quiet (ex : ToolExecutor X) : Prop :=
  (forall call name sm cm c, quiet (ex_policy ex call name sm cm c)) /\
  match ex_recorder ex with
  | Some r => (forall call name mode c, quiet (recorder_begin r call name mode c)) /\
            (forall receipt, quiet (recorder_end r receipt))
  | None => True
  end /\
  (forall name t, tool_get name (ex_registry ex) = Some t ->
   (forall args, quiet (aw_run (tool_invoke t args)) /\ quiet (aw_cut (tool_invoke t args))) /\
   match tool_invoke_with_context t with
   | Some invoke => forall args c, quiet (aw_run (invoke args c)) /\ quiet (aw_cut (invoke args c))
   | None => True
   end).

Definition services_quiet : Prop :=
  (forall request, quiet (provider_complete (sv_provider services) request)) /\
  executor_quiet (active_executor services).

Lemma quiet_begin_evidence ex call t sm c :
  executor_quiet ex -> quiet (begin_evidence ex call t sm c).
Proof.
  intros (_ & Hr & _). unfold begin_evidence.
  destruct (ex_recorder ex) as [rec|]; [|apply quiet_ret]. destruct Hr as [Hb _].
  destruct (bool_decide _); [|apply quiet_ret]. destruct c as [c|]; [|apply quiet_throw].
  destruct (_ && _); [apply quiet_throw|]. apply quiet_bind; [apply Hb|]. intros. apply quiet_ret.
Qed.

Lemma quiet_run_tool ex name t args receipt c :
  executor_quiet ex -> tool_get name (ex_registry ex) = Some t ->
  quiet (run_tool expires ex name t args receipt c).
Proof.
  intros (_ & Hr & Ht) Hg. destruct (Ht _ _ Hg) as [Hi Hc]. unfold run_tool.
  apply quiet_bind.
  { apply quiet_timeout; destruct c, (tool_invoke_with_context t); first [apply Hc|apply Hi]. }
  intros [w|j]; [apply quiet_ret|]. apply quiet_bind.
  { destruct receipt; [|apply quiet_ret]. destruct (ex_recorder ex); [apply Hr|apply quiet_throw]. }
  intros _. apply quiet_bind; [apply quiet_of_outcome|]. intros. apply quiet_ret.
Qed.

Lemma quiet_tool_execute ex call granted allowed c :
  executor_quiet ex -> quiet (tool_execute expires ex call granted allowed c).
Proof.
  intros Hex. pose proof Hex as (Hp & _ & _). unfold tool_execute.
  apply quiet_bind; [|intros; apply quiet_ret]. unfold execute_unbounded.
  destruct (match allowed with Some _ => _ | None => _ end); [apply quiet_ret|].
  destruct (tool_get _ _) as [t|] eqn:Et; [|apply quiet_ret]. destruct (negb _); [apply quiet_ret|].
  apply quiet_try; [|intros e q; destruct (result_of_exception t _ e); [|done];
                    intros [= <-]; apply quiet_ret].
  unfold execute_registered. apply quiet_bind; [apply quiet_of_outcome|]. intros args. cbv zeta.
  destruct (_ && _); [apply quiet_ret|]. apply quiet_bind.
  { destruct (option_map _ _); [apply Hp|apply quiet_ret]. }
  intros request. apply quiet_bind; [apply quiet_of_outcome|].
  intros [r|]; [apply quiet_ret|].
  apply quiet_bind; [by apply quiet_begin_evidence|]. intros evidence. by apply quiet_run_tool.
Qed.

Hypothesis quiet_services : services_quiet.

Lemma sees_other key v c s :
  key <> "duplicate_tool_calls" -> key <> "consecutive_tool_failures" ->
  sees c s -> sees (set_supervision_data (dset key v (ctx_supervision_data c)) c) s.
Proof. intros Hx Hy [Hd Hf]. unfold sees. simpl. by rewrite !dget_dset_ne. Qed.

Lemma sees_pop key c s :
  key <> "duplicate_tool_calls" -> key <> "consecutive_tool_failures" ->
  sees c s -> sees (set_supervision_data (ddel key (ctx_supervision_data c)) c) s.
Proof. intros Hx Hy [Hd Hf]. unfold sees. simpl. by rewrite !dget_ddel_ne. Qed.

Definition reserved_key (key : string) : Prop :=
  key <> "duplicate_tool_calls" /\ key <> "consecutive_tool_failures".

Lemma ctx_ok_dset key v c :
  reserved_key key -> ctx_ok c ->
  ctx_ok (set_supervision_data (dset key v (ctx_supervision_data c)) c).
Proof.
  intros [Hx Hy] Hc. destruct Hc as [? ? ? ? ? ? ? ? [s Hs] Hn ? ?]. split; try done.
  - exists s. by apply sees_other.
  - by apply dset_NoDup.
Qed.

Lemma ctx_ok_ddel key c :
  reserved_key key -> ctx_ok c ->
  ctx_ok (set_supervision_data (ddel key (ctx_supervision_data c)) c).
Proof.
  intros [Hx Hy] Hc. destruct Hc as [? ? ? ? ? ? ? ? [s Hs] Hn ? ?]. split; try done.
  - exists s. by apply sees_pop.
  - by apply ddel_NoDup.
Qed.

(** The step of the turn, in the waiting state. *)
Definition halted (k : Z) (c : RuntimeContext) : Prop :=
  ctx_step_count c = k /\ ctx_state c = WAITING.

Lemma halted_turn k c : halted k c -> turn k c.
Proof. intros [Hk Hs]. split; [done|congruence]. Qed.

(** *** What a strategy's hooks keep

    The methods [ModelToolStrategy]'s subclasses override: each keeps the
    step of the turn, and suspends nothing; a failed execution is not
    running. *)

(** The context between the start of a turn's model call and its response. *)
Definition asking (k : Z) (c : RuntimeContext) : Prop :=
  turn (k + 1) c /\ Z.of_nat (length (ctx_responses c)) <= k.

Class HooksLaws (hooks : Hooks X) : Prop := {
  hooks_select k response :
    triple (turn k) (hk_select_tool_calls hooks response) (fun _ => turn k);
  hooks_before k : triple (asking k) (hk_before_model_request hooks) (fun _ => asking k);
  hooks_actions k calls :
    triple (turn k) (hk_on_action_batch_selected hooks calls) (fun _ => turn k);
  hooks_observations k seen :
    triple (turn k) (hk_on_observation_batch_recorded hooks seen) (fun _ => turn k);
  hooks_iteration k response acted :
    triple (turn k) (hk_on_iteration_completed hooks response acted) (fun _ => turn k);
  hooks_definitions k : triple (asking k) (hk_tool_definitions hooks) (fun _ => asking k);
  hooks_complete k content :
    triple (turn k) (hk_complete_response hooks content) (fun _ => turn k);
  hooks_fail k error : blank error = false ->
    triple (fun c => ctx_step_count c = k) (hk_fail_execution hooks error)
      (fun _ c => turn k c /\ ctx_state c <> RUNNING);
  hooks_wait k : triple (halted k) (hk_wait_for_input hooks) (fun _ => halted k);
}.

Section Turns.
Variable hooks : Hooks X.
Context `{!HooksLaws hooks}.

Lemma triple_suspend_call k call remaining collected response r :
  triple (turn k) (suspend_call env hooks call remaining collected response r)
  (fun _ c => turn k c).
Proof.
  unfold suspend_call.
  apply (triple_bind _ _ _ (fun _ c => ctx_step_count c = k)); [|cbv beta; intros _].
  { apply triple_put. intros c Hc [Hk _]. split; [by apply ctx_ok_dset|done]. }
  assert (forall e, blank e = false -> triple (fun c => ctx_step_count c = k)
          (hk_fail_execution hooks e) (fun _ c => turn k c)) as Hfail.
  { intros e He. eapply triple_post; [by apply hooks_fail|]. by intros a c [? _]. }
  cbv zeta. destruct (dget "prompt" _) as [[]|]; try by apply Hfail, blank_cons.
  destruct (blank s); [by apply Hfail, blank_cons|].
  apply (triple_bind _ _ _ (fun p c => PendingInput_fields p = true /\ ctx_step_count c = k)).
  { apply triple_of_outcome. by intros p c (Hf & _ & ->)%checked_Ok Hk. }
  intros pending. cbv beta. apply triple_fact. intros Hpend.
  apply (triple_bind _ _ _ (fun _ c => ctx_step_count c = k /\ pending_valid c));
  [|cbv beta; intros _].
  { apply triple_put. intros c Hc Hk.
    assert (pending_valid (set_pending_input (Some pending) c)) by (by exists pending).
    split; [keep_ok|by split]. }
  apply (triple_bind _ _ _ (fun _ => halted k)); [|cbv beta; intros _].
  { apply triple_do. intros c c' Hc [Hk Hp] Ht. apply ctx_transition_Ok in Ht as [-> _].
  split; [keep_ok; by intros|by split]. }
  apply (triple_bind _ _ _ (fun _ => halted k)); [|cbv beta; intros _].
  { destruct (match dget "metadata" _ with Some _ => _ | None => _ end) as [m|]; [|apply triple_skip].
  destruct (json_opt_eqb _ _); [by apply triple_emit|apply triple_skip]. }
  step (apply triple_get). intros c0. apply (triple_pre (halted k)); [|by intros c [_ ?]].
  step (by apply triple_emit). intros _. step (apply hooks_wait). intros _.
  eapply triple_post; [apply triple_save|]. intros []. apply halted_turn.
Qed.

Lemma triple_execute_call k call confirmation :
  triple (turn k) (execute_call expires services call confirmation) (fun _ c => turn k c).
Proof.
  apply triple_quiet; [|apply steady_turn]. apply quiet_bind; [apply quiet_get|]. intros c.
  apply quiet_tool_execute, quiet_services.
Qed.

Lemma triple_record_result k call r :
  triple (turn k) (record_result env services call r) (fun _ c => turn k c).
Proof.
  unfold record_result. step (apply triple_get). intros c0.
  apply (triple_pre (turn k)); [|by intros c' [_ ?]].
  apply (triple_bind _ _ _ (fun _ => turn k)); [|cbv beta; intros _].
  { destruct (bool_decide _); by apply triple_emit. }
  step (by apply (triple_add_message (turn k))). intros _. rewrite default_supervision.
  step (apply triple_after_tool, steady_turn). intros d.
  destruct (continues d).
  - apply (triple_pre (turn k)); [|by intros c [? _]].
  step (apply triple_cancel_if_requested). intros b. apply triple_skip.
  - apply (triple_pre (fun c => (reasoned d /\ dec_action d <> STOP) /\ turn k c));
      [|by intros c (? & ? & ?)].
  apply triple_fact. intros [Hrd Hd].
  step (apply (triple_apply k); by split). intros _.
  apply (triple_pre (turn k)); [|by intros c [? _]].
  step (apply triple_save). intros _. apply triple_skip.
Qed.

Lemma triple_batch_loop k response confirmations : forall calls collected,
  triple (turn k)
  (batch_loop env expires services hooks calls response confirmations collected)
  (fun _ c => turn k c).
Proof.
  induction calls as [|call calls IH]; intros collected; simpl; [apply triple_skip|].
  step (apply triple_cancel_if_requested). intros [|]; [apply triple_skip|].
  apply (triple_bind _ _ _ (fun _ => turn k)); [|cbv beta; intros go].
  { destruct (dget _ _); [apply triple_skip|apply triple_request_call]. }
  destruct (negb go); [apply triple_skip|].
  step (apply triple_execute_call). intros r. destruct (bool_decide _).
  - step (apply triple_suspend_call). intros _. apply triple_skip.
  - step (apply triple_record_result). intros [|]; [apply IH|apply triple_skip].
Qed.

Lemma triple_finish_batch k response collected :
  triple (turn k) (finish_batch env hooks response collected)
  (fun _ c => turn k c).
Proof.
  unfold finish_batch. step (apply hooks_observations). intros _.
  step (apply hooks_iteration). intros _. apply triple_save.
Qed.

Lemma triple_execute_tool_batch k calls response observations confirmations :
  triple (turn k)
  (execute_tool_batch env expires services hooks calls response observations
     confirmations) (fun _ c => turn k c).
Proof.
  unfold execute_tool_batch. step (apply triple_batch_loop). intros [collected|];
  [apply triple_finish_batch|apply triple_skip].
Qed.

(** ** One turn *)

Lemma triple_pop_suspended k :
  triple (fun c => ctx_step_count c = k) (pop_supervision suspended_key)
  (fun _ c => turn k c).
Proof.
  unfold pop_supervision. step (apply triple_get). intros c0.
  apply (triple_bind _ _ _ (fun _ => turn k)); [|cbv beta; intros _; apply triple_skip].
  apply triple_put. intros c Hc [-> Hk]. split; [by apply ctx_ok_ddel|].
  split; [done|]. intros _. unfold has_suspended_batch. simpl.
  rewrite dget_ddel_eq; [done|apply (ok_keys _ Hc)].
Qed.

Lemma triple_pop_confirmation k :
  triple (turn k) (pop_supervision confirmation_key) (fun _ c => turn k c).
Proof.
  unfold pop_supervision. step (apply triple_get). intros c0.
  apply (triple_bind _ _ _ (fun _ => turn k)); [|cbv beta; intros _; apply triple_skip].
  apply triple_put. intros c Hc [-> [Hk Hs]]. split; [by apply ctx_ok_ddel|].
  split; [done|]. intros Hr. rewrite <-(Hs Hr). unfold has_suspended_batch. simpl.
  by rewrite dget_ddel_ne.
Qed.

Lemma triple_load_suspended k raw :
  triple (turn k) (load_suspended raw) (fun _ c => turn k c).
Proof.
  unfold load_suspended.
  step (apply (triple_of_outcome _ _ (fun _ => turn k)); done). intros [[[w rem] resp] obs].
  step (apply triple_pop_confirmation). intros raw_confirmation.
  step (apply (triple_of_outcome _ _ (fun _ => turn k)); done). intros confirmation.
  step (apply triple_get). intros c0. apply (triple_pre (turn k)); [|by intros c' [_ ?]].
  step (apply (triple_of_outcome _ _ (fun _ => turn k)); done). intros wr. apply triple_skip.
Qed.

Lemma triple_fail_anywhere error :
  blank error = false ->
  triple (fun _ => True) (hk_fail_execution hooks error)
  (fun _ c => ctx_state c <> RUNNING).
Proof.
  intros He st Hi _. destruct (hooks_fail (ctx_step_count (w_ctx (sys_w st))) error He st Hi eq_refl)
  as (st' & o & E & Hi' & Hq). exists st', o. split_and!; try done.
  intros a Ha. by destruct (Hq a Ha).
Qed.

Lemma triple_continue_batch k batch :
  triple (turn k) (continue_batch env expires services hooks batch)
  (fun _ c => turn k c).
Proof.
  destruct batch as [[[[[w rem] resp] obs] conf] wr]. simpl.
  assert (triple (turn k) match wr with
        | None => throw assertion_error
        | Some r =>
            match rem with
            | [] => finish_batch env hooks resp (obs ++ [(w, r)])
            | _ => execute_tool_batch env expires services hooks
                     rem resp (obs ++ [(w, r)]) []
            end
        end (fun _ c => turn k c)) as Hgo.
  { destruct wr as [r|]; [|apply triple_throw].
  destruct rem; [apply triple_finish_batch|apply triple_execute_tool_batch]. }
  destruct conf as [c|]; [|exact Hgo]. destruct (bool_decide _); [|exact Hgo].
  apply triple_execute_tool_batch.
Qed.

Lemma triple_load_batch k raw :
  triple (turn k) (load_batch hooks raw)
  (fun loaded c => ctx_state c = RUNNING \/ loaded <> None -> turn k c).
Proof.
  apply triple_try.
  - step (apply triple_load_suspended). intros b. by apply triple_ret.
  - intros e q. destruct (_ || _); [|done]. intros [= <-].
  step (by apply triple_fail_anywhere, blank_cons). intros _. apply triple_ret. intros c Hc [?|?]; done.
Qed.

(** Taking up a suspended batch: [s] tells whether one is stored. *)
Lemma triple_resume k s :
  triple (fun c => ctx_step_count c = k /\ has_suspended_batch c = s)
  (resume_action_batch env expires services hooks)
  (fun b c => (b = false -> turn k c) /\ (b = true -> s = true /\ (ctx_state c = RUNNING -> turn k c))).
Proof.
  apply (triple_bind _ _ _ (fun raw c => turn k c /\ (raw <> None -> s = true))).
  - intros st Hi [Hk Hs]. destruct (triple_pop_suspended k st Hi Hk) as (st1 & o & E & Hi1 & Hq).
  exists st1, o. split_and!; try done. intros raw Ho. split; [by eapply Hq|].
  unfold pop_supervision, bind, ctx_get, ctx_put, ctx_do, ret in E. subst o. injection E as _ <-.
  rewrite <-Hs. unfold has_suspended_batch. by destruct (dget _ _).
  - intros [raw|]; cbv beta; [|by apply triple_ret; intros c [? _]].
  apply (triple_pre (fun c => s = true /\ turn k c)); [|intros c [Hc Hs]; by split; [apply Hs|]].
  apply triple_fact. intros Hs. step (apply triple_load_batch). intros loaded.
  apply (triple_bind _ _ _ (fun _ c => ctx_state c = RUNNING -> turn k c)).
  + destruct loaded as [batch|].
    * apply (triple_pre (turn k)); [|intros c Hc; apply Hc; by right].
      eapply triple_post; [apply triple_continue_batch|]. by intros.
    * apply triple_ret. intros c Hc Hr. apply Hc. by left.
  + intros _. cbv beta. by apply triple_ret.
Qed.

(** *** One turn of the strategy *)

Lemma steady_asking k : steady (asking k).
Proof.
  split; [done|]. intros c c' Ho [Ht Hl].
  split; [by eapply (st_counters _ (steady_turn _))|]. by rewrite (only_counters_eq _ _ Ho).
Qed.

Lemma triple_complete_model k request :
  triple (asking k) (complete_model services hooks request)
  (fun r c => turn (k + 1) c /\ (r <> None -> asking k c)).
Proof.
  apply triple_try_stays.
  - apply stays_quiet; [|apply steady_asking].
  apply quiet_bind; [apply quiet_services|]. intros. apply quiet_ret.
  - intros a c Hc. split; [apply Hc|by intros].
  - intros e q. destruct (is_exception e); [|done]. intros [= <-].
  apply (triple_bind _ _ _ (fun _ => turn (k + 1))).
  + apply (triple_pre (fun c => ctx_step_count c = k + 1)); [|by intros c [[? _] _]].
    eapply triple_post; [by apply hooks_fail, blank_cons|]. by intros a c [? _].
  + intros _. cbv beta. apply triple_ret. by intros.
Qed.

Lemma triple_accept_response k response :
  triple (asking k) (accept_response env response) (fun _ c => turn (k + 1) c).
Proof.
  unfold accept_response. step (apply triple_get). intros c0.
  apply (triple_pre (asking k)); [|by intros c [_ ?]].
  step (by apply triple_emit). intros _.
  apply (triple_bind _ _ _ (fun _ => turn (k + 1))); [|cbv beta; intros _].
  { apply triple_put. intros c Hc [Ht Hl]. split; [|done]. destruct Hc. split; simpl; try done.
  rewrite length_app. simpl. destruct Ht as [-> _]. lia. }
  apply (triple_bind _ _ _ (fun _ => turn (k + 1))); [|cbv beta; intros _].
  { apply triple_do. intros c c' Hc Ht. destruct (TokenUsage_add _ _); [|done]. intros [= <-].
  split; [keep_ok|done]. }
  step (by apply (triple_add_message (turn (k + 1)))). intros _. apply triple_save.
Qed.

Lemma triple_act_on_response k response :
  triple (turn k) (act_on_response env expires services hooks response)
  (fun _ c => turn k c).
Proof.
  unfold act_on_response. step (apply triple_cancel_if_requested). intros [|]; [apply triple_skip|].
  destruct (no_calls _); simpl.
  - step (apply hooks_iteration). intros _. apply hooks_complete.
  - step (apply hooks_select). intros calls. step (apply hooks_actions). intros _.
  apply triple_execute_tool_batch.
Qed.

(** One [advance] makes progress: the Run leaves [RUNNING], or a step is
    counted, or a suspended batch is used up. *)
Lemma triple_advance k s :
  k < prof_max_steps prof ->
  triple (fun c => ctx_step_count c = k /\ has_suspended_batch c = s)
  (model_tool_advance env expires services hooks)
  (fun _ c => ctx_state c = RUNNING -> turn (k + 1) c \/ s = true /\ turn k c).
Proof.
  intros Hk. unfold model_tool_advance. step (apply triple_resume). intros [|].
  - apply triple_ret. intros c [_ Hc] Hr. right. destruct (Hc eq_refl) as [-> Ht]. auto.
  - apply (triple_pre (turn k)); [|intros c [Hc _]; by apply Hc].
  apply (triple_bind _ _ _ (fun _ => asking k)); [|cbv beta; intros _].
  { apply triple_put. intros c Hc [Hs Hb]. split.
    - destruct Hc. split; simpl; try done; lia.
    - split; [split; simpl; [lia|done]|]. simpl. rewrite <-Hs. apply (ok_responses _ Hc). }
  step (apply hooks_before). intros _. step (apply hooks_definitions). intros definitions.
  step (apply triple_get). intros c0. apply (triple_pre (asking k)); [|by intros c [_ ?]].
  step (apply (triple_of_outcome _ _ (fun _ => asking k)); done). intros request.
  step (by apply triple_emit). intros _.
  step (apply triple_complete_model). intros [response|].
  + apply (triple_pre (asking k)); [|intros c [_ Hc]; by apply Hc].
    step (apply triple_accept_response). intros _.
    eapply triple_post; [apply triple_act_on_response|]. intros []; auto.
  + apply triple_ret. intros c [Hc _] _. by left.
Qed.
End Turns.

(** *** [ModelToolStrategy]'s own hooks *)

(** [ModelToolStrategy]'s own [_fail_execution], from any step. *)
Lemma triple_fail k error :
  blank error = false ->
  triple (fun c => ctx_step_count c = k) (hk_fail_execution (default_hooks services) error)
  (fun _ c => turn k c /\ ctx_state c <> RUNNING).
Proof.
  intros He. simpl. step (apply triple_set_error; [by intros r [= <-]|done]). intros _. step (apply triple_get). intros c0.
  destruct (bool_decide (ctx_state c0 = RUNNING)) eqn:E; reflect.
  - apply triple_do. intros c c' Hc [-> Hk] Ht. apply ctx_transition_Ok in Ht as [-> _]. split.
  + keep_ok. by intros.
  + split; [split; [done|]|]; done.
  - apply triple_ret. intros c [-> Hk]. by split; [split|].
Qed.

(** Failing while the Run waits leaves it waiting. *)
Lemma triple_fail_halted k error :
  blank error = false ->
  triple (halted k) (hk_fail_execution (default_hooks services) error) (fun _ => halted k).
Proof.
  intros He. simpl. step (apply triple_set_error; [by intros r [= <-]|done]). intros _.
  step (apply triple_get). intros c0. destruct (bool_decide _) eqn:E; reflect.
  - apply (triple_pre (fun c => False /\ halted k c)); [|intros c [-> [Hk Hs]]; congruence].
    by apply triple_fact.
  - by apply triple_ret; intros c [_ ?].
Qed.

Lemma triple_tool_definitions P :
  triple P (hk_tool_definitions (default_hooks services)) (fun _ => P).
Proof.
  simpl. destruct (sv_tool_registry services); [|apply triple_skip].
  step (apply triple_get). intros c0. apply triple_of_outcome. by intros a c _ [_ ?].
Qed.

#[export] Instance ModelTool_hooks : HooksLaws (default_hooks services).
Proof.
  split; try (intros; apply triple_skip).
  - intros k. apply triple_tool_definitions.
  - intros k content. simpl. apply (triple_bind _ _ _ (fun _ => turn k)); [|cbv beta; intros _].
    { apply triple_put. intros c Hc Ht. split; [keep_ok|done]. }
    eapply triple_post; [by apply triple_leave|]. by intros a c [? _].
  - intros k error. apply triple_fail.
Qed.
End Strategies.
End RuntimeLogic.
