(* ===== verification/Artifacts.v ===== *)
(** * Artifacts ([src/base_agent/artifacts/manager.py], the artifact store of
    [src/base_agent/stores/in_memory.py])

    The store keeps the content of attachments and artifacts with references
    to them; the manager gives a Run access to the content it declared or
    produced.  Tools reach the manager while the Run executes: its operations
    are programs of that execution, the store a part of the application's
    state. *)

From Stdlib Require Import QArith.
From stdpp Require Import base gmap strings list.
From S2P Require Import Prelude Json Models Sha256 Plan StateMachine ConversationStore RunStore EventStore FlowModels Program Serial Runtime RuntimeLogic.

(** ** [InMemoryArtifactStore] *)

(** [_artifacts] is listed in the order of its keys. *)
Record ArtifactStore := mk_ArtifactStore {
  as_attachments : gmap uuid Attachment;
  as_artifacts : list (uuid * Artifact);
  as_content : gmap uuid string;
}.

Definition artifact_store_empty : ArtifactStore := mk_ArtifactStore ∅ [] ∅.

(** [add_attachment]. *)
Definition add_attachment (amb : ambient) (name media_type content : string)
  (metadata : option jdict) (st : ArtifactStore) : outcome (ArtifactStore * Attachment) :=
  let attachment := mk_Attachment (amb_uuid amb 0) name media_type (slen content)
                      (sha256_hex content) (amb_now amb 0) (default [] metadata) in
  let! attachment := checked (Attachment_fields attachment) (fun _ => Ok tt) attachment in
  Ok (mk_ArtifactStore (<[att_id attachment := attachment]> (as_attachments st)) (as_artifacts st)
        (<[att_id attachment := content]> (as_content st)), attachment).

(** [get_attachment]. *)
Definition get_attachment (aid : uuid) (st : ArtifactStore) : outcome Attachment :=
  match as_attachments st !! aid with
  | Some a => Ok a
  | None => Raise (Exn AttachmentNotFoundError
                     (fstr ["attachment '"; uuid_str aid; "' was not found"]))
  end.

(** [create_artifact]. *)
Definition create_artifact (amb : ambient) (rid : uuid) (name media_type content : string)
  (metadata : option jdict) (st : ArtifactStore) : outcome (ArtifactStore * Artifact) :=
  let artifact := mk_Artifact (amb_uuid amb 0) rid name media_type (slen content)
                    (sha256_hex content) (amb_now amb 0) (default [] metadata) in
  let! artifact := checked (Artifact_fields artifact) (fun _ => Ok tt) artifact in
  Ok (mk_ArtifactStore (as_attachments st) (dset (art_id artifact) artifact (as_artifacts st))
        (<[art_id artifact := content]> (as_content st)), artifact).

(** [get_artifact]. *)
Definition get_artifact (aid : uuid) (st : ArtifactStore) : outcome Artifact :=
  match dget aid (as_artifacts st) with
  | Some a => Ok a
  | None => Raise (Exn ArtifactNotFoundError
                     (fstr ["artifact '"; uuid_str aid; "' was not found"]))
  end.

(** [read]. *)
Definition read_content (cid : uuid) (st : ArtifactStore) : outcome string :=
  match as_content st !! cid with
  | Some c => Ok c
  | None => Raise (Exn ArtifactNotFoundError
                     (fstr ["content '"; uuid_str cid; "' was not found"]))
  end.

(** [list_artifacts]. *)
Definition list_artifacts (rid : uuid) (st : ArtifactStore) : list Artifact :=
  List.filter (fun a => bool_decide (art_run_id a = rid)) (dvalues (as_artifacts st)).

(** The calls that change the store. *)
Inductive artifact_call :=
  | CallAttach (amb : ambient) (name media_type content : string) (metadata : option jdict)
  | CallCreateArtifact (amb : ambient) (rid : uuid) (name media_type content : string)
      (metadata : option jdict).

Definition artifact_after (call : artifact_call) (st : ArtifactStore) : ArtifactStore :=
  match call with
  | CallAttach amb name media_type content metadata =>
      on_Ok (add_attachment amb name media_type content metadata st) fst st
  | CallCreateArtifact amb rid name media_type content metadata =>
      on_Ok (create_artifact amb rid name media_type content metadata st) fst st
  end.

Fixpoint artifact_trace (calls : list artifact_call) (st : ArtifactStore) : ArtifactStore :=
  match calls with
  | [] => st
  | call :: calls' => artifact_trace calls' (artifact_after call st)
  end.

(** ** [ArtifactManager] *)

(** Where the application keeps the store. *)
Class ArtifactAccess (X : Type) := {
  artifact_store_of : X -> ArtifactStore;
  with_artifact_store : ArtifactStore -> X -> X;
}.

Section Manager.
Context {X : Type} `{!ArtifactAccess X}.
Variable env : nat -> ambient.

Abbreviation M := (prog (World X)).

Definition set_ext (x : X) (w : World X) : World X :=
  mk_World (w_ctx w) (w_runs w) (w_events w) (w_checkpoints w) (w_conversations w) (w_resources w) x.

(** A call of a method of the store. *)
Definition call_artifacts {A} (f : ambient -> ArtifactStore -> outcome (ArtifactStore * A)) : M A :=
  call_store env (fun amb w =>
    let! '(st, a) := f amb (artifact_store_of (w_ext w)) in
    Ok (set_ext (with_artifact_store st (w_ext w)) w, a)).

Definition read_artifacts {A} (f : ArtifactStore -> outcome A) : M A :=
  call_store env (fun _ w => let! a := f (artifact_store_of (w_ext w)) in Ok (w, a)).

(** [create]. *)
Definition manager_create (name media_type content : string) (metadata : option jdict) : M Artifact :=
  let* c := ctx_get in
  let* artifact := call_artifacts (fun amb =>
    create_artifact amb (ctx_run_id c) name media_type content metadata) in
  do* ctx_put (fun c => set_artifacts (ctx_artifacts c ++ [artifact]) c) in
  do* emit_event env EV_ARTIFACT_CREATED [("artifact", Artifact_dump artifact)] in
  ret artifact.

(** [read_attachment]. *)
Definition manager_read_attachment (aid : uuid) : M string :=
  let* c := ctx_get in
  if negb (bool_decide (aid ∈ map att_id (ctx_attachments c)))
  then throw (Exn ArtifactAccessError
                (fstr ["attachment '"; uuid_str aid; "' is not available to this Run"]))
  else read_artifacts (read_content aid).

(** [read_artifact]. *)
Definition manager_read_artifact (aid : uuid) : M string :=
  let* artifact := read_artifacts (get_artifact aid) in
  let* c := ctx_get in
  if negb (bool_decide (art_run_id artifact = ctx_run_id c))
  then throw (Exn ArtifactAccessError
                (fstr ["artifact '"; uuid_str aid; "' belongs to another Run"]))
  else read_artifacts (read_content aid).
End Manager.

(** ** References and content *)

(** [uuid4] gives an id that no content has yet. *)
Definition artifact_fresh (call : artifact_call) (st : ArtifactStore) : Prop :=
  match call with
  | CallAttach amb _ _ _ _ | CallCreateArtifact amb _ _ _ _ _ =>
      as_content st !! amb_uuid amb 0 = None
  end.

Fixpoint artifacts_fresh (calls : list artifact_call) (st : ArtifactStore) : Prop :=
  match calls with
  | [] => True
  | call :: calls' => artifact_fresh call st /\ artifacts_fresh calls' (artifact_after call st)
  end.

(** Content of the size and the digest a reference tells. *)
Definition told (content : option string) (size : Z) (digest : string) : Prop :=
  exists c, content = Some c /\ size = slen c /\ digest = sha256_hex c.

Record references_ok (st : ArtifactStore) : Prop := {
  ro_attachments : forall aid a, as_attachments st !! aid = Some a ->
    att_id a = aid /\ told (as_content st !! aid) (att_size_bytes a) (att_checksum_sha256 a);
  ro_artifacts : forall aid a, dget aid (as_artifacts st) = Some a ->
    art_id a = aid /\ told (as_content st !! aid) (art_size_bytes a) (art_checksum_sha256 a);
}.

(** [st'] has everything [st] has, and artifacts after those of [st]. *)
Record extends (st st' : ArtifactStore) : Prop := {
  ex_attachments : as_attachments st ⊆ as_attachments st';
  ex_artifacts : exists l, as_artifacts st' = as_artifacts st ++ l;
  ex_content : as_content st ⊆ as_content st';
}.

Lemma extends_refl st : extends st st.
Proof. split; [done| |done]. exists []. by rewrite app_nil_r. Qed.

Lemma extends_trans st1 st2 st3 : extends st1 st2 -> extends st2 st3 -> extends st1 st3.
Proof.
  intros [a1 (l1 & r1) c1] [a2 (l2 & r2) c2]. split; [by etrans| |by etrans].
  exists (l1 ++ l2). by rewrite r2, r1, app_assoc.
Qed.

Lemma told_extends st st' cid size digest :
  extends st st' -> told (as_content st !! cid) size digest -> told (as_content st' !! cid) size digest.
Proof. intros He (c & Hc & Hd). exists c. split; [|done]. by eapply lookup_weaken, He. Qed.

Lemma dget_app_l {V} (k : uuid) (v : V) (d e : list (uuid * V)) :
  dget k d = Some v -> dget k (d ++ e) = Some v.
Proof. induction d as [|[k' v'] d IH]; simpl; [done|]. case_decide; [done|exact IH]. Qed.

(** A fresh key is of no attachment and no artifact. *)
Lemma fresh_reference st i :
  references_ok st -> as_content st !! i = None ->
  as_attachments st !! i = None /\ dget i (as_artifacts st) = None.
Proof.
  intros [Ha Hr] Hi. split.
  - destruct (as_attachments st !! i) as [a|] eqn:E; [|done].
    destruct (Ha i a E) as (_ & c & Hc & _). congruence.
  - destruct (dget i (as_artifacts st)) as [a|] eqn:E; [|done].
    destruct (Hr i a E) as (_ & c & Hc & _). congruence.
Qed.

Lemma told_insert st cid i content size digest :
  as_content st !! i = None -> told (as_content st !! cid) size digest ->
  told (<[i := content]> (as_content st) !! cid) size digest.
Proof.
  intros Hi (c & Hc & Hd). exists c. split; [|done].
  rewrite lookup_insert_ne; [done|]. intros ->. congruence.
Qed.

Lemma told_new cid content (m : gmap uuid string) :
  told (<[cid := content]> m !! cid) (slen content) (sha256_hex content).
Proof. exists content. by rewrite lookup_insert_eq. Qed.

Lemma artifact_after_ok call st :
  references_ok st -> artifact_fresh call st ->
  references_ok (artifact_after call st) /\ extends st (artifact_after call st).
Proof.
  intros Hok Hfresh. destruct call as [amb nm mt content md|amb rid nm mt content md]; simpl in Hfresh |- *.
  - destruct (fresh_reference st _ Hok Hfresh) as [Hna Hnr]. destruct Hok as [Ha Hr].
    unfold add_attachment, checked. destruct (Attachment_fields _); simpl; [|by split; [split|apply extends_refl]].
    split; split; simpl.
    + intros aid a. rewrite lookup_insert. case_decide as E; [intros [= <-]|].
      * subst aid. simpl. split; [done|]. apply told_new.
      * intros [Hid Ht]%Ha. split; [done|by apply told_insert].
    + intros aid a [Hid Ht]%Hr. split; [done|by apply told_insert].
    + by apply insert_subseteq.
    + exists []. by rewrite app_nil_r.
    + by apply insert_subseteq.
  - destruct (fresh_reference st _ Hok Hfresh) as [Hna Hnr]. destruct Hok as [Ha Hr].
    unfold create_artifact, checked. destruct (Artifact_fields _); simpl; [|by split; [split|apply extends_refl]].
    split; split; simpl.
    + intros aid a [Hid Ht]%Ha. split; [done|by apply told_insert].
    + intros aid a. rewrite dget_dset. case_decide as E; [intros [= <-]|].
      * subst aid. simpl. split; [done|]. apply told_new.
      * intros [Hid Ht]%Hr. split; [done|by apply told_insert].
    + done.
    + rewrite dset_fresh by (by apply dget_None). by eexists.
    + by apply insert_subseteq.
Qed.

Lemma artifact_trace_ok calls : forall st,
  references_ok st -> artifacts_fresh calls st ->
  references_ok (artifact_trace calls st) /\ extends st (artifact_trace calls st).
Proof.
  induction calls as [|call calls IH]; simpl; intros st Hok Hf; [by split; [|apply extends_refl]|].
  destruct Hf as [Hc Hcs]. destruct (artifact_after_ok call st Hok Hc) as [Hok1 He1].
  destruct (IH _ Hok1 Hcs) as [Hok2 He2]. split; [done|by eapply extends_trans].
Qed.

Lemma references_empty : references_ok artifact_store_empty.
Proof. split; intros aid a H; [by simpl in H; rewrite lookup_empty in H|done]. Qed.

Lemma artifact_trace_app calls calls' st :
  artifact_trace (calls ++ calls') st = artifact_trace calls' (artifact_trace calls st).
Proof. revert st. induction calls as [|call calls IH]; simpl; intros st; [done|apply IH]. Qed.

Lemma artifacts_fresh_app calls calls' st :
  artifacts_fresh (calls ++ calls') st <->
  artifacts_fresh calls st /\ artifacts_fresh calls' (artifact_trace calls st).
Proof.
  revert st. induction calls as [|call calls IH]; simpl; intros st; [naive_solver|].
  rewrite IH. naive_solver.
Qed.

Lemma read_told st cid size digest :
  told (as_content st !! cid) size digest ->
  exists c, read_content cid st = Ok c /\ size = slen c /\ digest = sha256_hex c.
Proof. intros (c & Hc & Hd). exists c. unfold read_content. by rewrite Hc. Qed.

Lemma read_extends st st' cid c :
  extends st st' -> read_content cid st = Ok c -> read_content cid st' = Ok c.
Proof.
  unfold read_content. intros He H. destruct (as_content st !! cid) as [c0|] eqn:E; [|done].
  injection H as ->. by rewrite (lookup_weaken _ _ _ _ E (ex_content _ _ He)).
Qed.

(** Content is immutable, and references tell the truth about it.  Along
    any calls of the store that draw unused ids, an attachment or an artifact
    keeps its reference, its id, and the very bytes it was created with, of
    which the reference gives the size and the SHA-256 digest; a Run's
    artifacts are only ever added to, in the order of their creation. *)
Theorem artifact_content_immutable calls calls' :
  artifacts_fresh (calls ++ calls') artifact_store_empty ->
  let st := artifact_trace calls artifact_store_empty in
  let st' := artifact_trace (calls ++ calls') artifact_store_empty in
  (forall aid a, get_attachment aid st = Ok a ->
     get_attachment aid st' = Ok a /\ att_id a = aid /\
     exists c, read_content aid st = Ok c /\ read_content aid st' = Ok c /\
       att_size_bytes a = slen c /\ att_checksum_sha256 a = sha256_hex c) /\
  (forall aid a, get_artifact aid st = Ok a ->
     get_artifact aid st' = Ok a /\ art_id a = aid /\
     exists c, read_content aid st = Ok c /\ read_content aid st' = Ok c /\
       art_size_bytes a = slen c /\ art_checksum_sha256 a = sha256_hex c) /\
  (forall rid, exists l, list_artifacts rid st' = list_artifacts rid st ++ l).
Proof.
  intros [H1 H2]%artifacts_fresh_app st st'. unfold st'. rewrite artifact_trace_app. fold st in H2 |- *.
  destruct (artifact_trace_ok calls _ references_empty H1) as [Hok _]. fold st in Hok.
  destruct (artifact_trace_ok calls' st Hok H2) as [_ He].
  split_and!.
  - intros aid a H. unfold get_attachment in *.
    destruct (as_attachments st !! aid) as [a0|] eqn:E; [|done]. injection H as ->.
    rewrite (lookup_weaken _ _ _ _ E (ex_attachments _ _ He)).
    destruct (ro_attachments _ Hok _ _ E) as [Hid (c & Hc & Hd)%read_told].
    split_and!; [done|done|]. exists c. split_and!; [done|by eapply read_extends|apply Hd..].
  - intros aid a H. unfold get_artifact in *. destruct (ex_artifacts _ _ He) as [l Hl].
    destruct (dget aid (as_artifacts st)) as [a0|] eqn:E; [|done]. injection H as ->.
    rewrite Hl, (dget_app_l _ _ _ _ E).
    destruct (ro_artifacts _ Hok _ _ E) as [Hid (c & Hc & Hd)%read_told].
    split_and!; [done|done|]. exists c. split_and!; [done|by eapply read_extends|apply Hd..].
  - intros rid. destruct (ex_artifacts _ _ He) as [l Hl]. unfold list_artifacts, dvalues.
    rewrite Hl, map_app, List.filter_app. by eexists.
Qed.

(** ** The manager is a peaceful part of the application *)

Section Confined.
Context {X : Type} `{!ArtifactAccess X}.
Variable env : nat -> ambient.
Variable rid : uuid.

Lemma set_ext_peaceful (x : X) (w : World X) : peaceful rid w (set_ext x w).
Proof.
  split; try done; simpl; [by rewrite set_artifacts_id|].
  exists []. rewrite app_nil_r. split; [done|constructor].
Qed.

Lemma quiet_call_artifacts {A} (f : ambient -> ArtifactStore -> outcome (ArtifactStore * A)) :
  quiet rid (call_artifacts (X := X) env f).
Proof.
  intros st. unfold call_artifacts, call_store.
  destruct (f _ _) as [[s a]|e]; eexists _, _; (split; [reflexivity|]);
    [apply set_ext_peaceful|apply peaceful_refl].
Qed.

Lemma quiet_read_artifacts {A} (f : ArtifactStore -> outcome A) :
  quiet rid (read_artifacts (X := X) env f).
Proof.
  intros st. unfold read_artifacts, call_store.
  destruct (f _) as [a|e]; eexists _, _; (split; [reflexivity|]); apply peaceful_refl.
Qed.

Lemma quiet_add_artifact a :
  quiet rid (X := X) (ctx_put (fun c => set_artifacts (ctx_artifacts c ++ [a]) c)).
Proof.
  intros st. eexists _, _. split; [reflexivity|]. split; try done.
  exists []. rewrite app_nil_r. split; [done|constructor].
Qed.

(** An event that does not end the Run. *)
Lemma quiet_emit ty data :
  bool_decide (ty ∈ terminal_types) = false -> quiet rid (X := X) (emit_event env ty data).
Proof.
  intros Hty st.
  destruct (emit_event_run env (ctx_run_id (w_ctx (sys_w st))) ty data st eq_refl) as (e & E & He).
  eexists _, _. split; [exact E|]. split; try done; simpl; [by rewrite set_artifacts_id|].
  destruct (decide (ctx_run_id (w_ctx (sys_w st)) = rid)) as [Hr|Hne].
  - exists [e]. rewrite Hr, log_of_insert. split; [done|]. constructor; [|constructor].
    unfold is_terminal_event. by rewrite He.
  - exists []. rewrite app_nil_r. split; [|constructor]. unfold events_of. by rewrite lookup_insert_ne.
Qed.
End Confined.

Lemma quiet_manager_create {X} `{!ArtifactAccess X} env rid nm mt content md :
  quiet rid (manager_create (X := X) env nm mt content md).
Proof.
  apply quiet_bind; [apply quiet_get|intros c]. apply quiet_bind; [apply quiet_call_artifacts|intros a].
  apply quiet_bind; [apply quiet_add_artifact|intros _].
  apply quiet_bind; [by apply quiet_emit|intros _]. apply quiet_ret.
Qed.

Lemma quiet_manager_read_attachment {X} `{!ArtifactAccess X} env rid aid :
  quiet rid (manager_read_attachment (X := X) env aid).
Proof.
  apply quiet_bind; [apply quiet_get|intros c].
  destruct (negb _); [apply quiet_throw|apply quiet_read_artifacts].
Qed.

Lemma quiet_manager_read_artifact {X} `{!ArtifactAccess X} env rid aid :
  quiet rid (manager_read_artifact (X := X) env aid).
Proof.
  apply quiet_bind; [apply quiet_read_artifacts|intros a]. apply quiet_bind; [apply quiet_get|intros c].
  destruct (negb _); [apply quiet_throw|apply quiet_read_artifacts].
Qed.

Lemma read_artifacts_run {X A} `{!ArtifactAccess X} env (f : ArtifactStore -> outcome A) (st : sys (World X)) :
  read_artifacts env f st
  = Some (mk_sys (sys_w st) (S (sys_tick st)), f (artifact_store_of (w_ext (sys_w st)))).
Proof. unfold read_artifacts, call_store. by destruct (f _). Qed.

(** C34: the manager confines a Run to its own content.  Reading an attachment
    returns content only if the Run declares the attachment, reading an
    artifact only if the Run produced it; both leave everything as it was,
    and in every other case raise.  Creating, reading and failing, the
    manager does nothing but what an execution tolerates of the
    application's code, whichever Run it serves: so tools may use it. *)
Theorem artifact_manager_confined {X} `{!ArtifactAccess X} env rid (st : sys (World X)) :
  let c := w_ctx (sys_w st) in
  let store := artifact_store_of (w_ext (sys_w st)) in
  (forall aid, exists n o, manager_read_attachment env aid st = Some (mk_sys (sys_w st) n, o) /\
     (forall content, o = Ok content <->
        aid ∈ map att_id (ctx_attachments c) /\ read_content aid store = Ok content)) /\
  (forall aid, exists n o, manager_read_artifact env aid st = Some (mk_sys (sys_w st) n, o) /\
     (forall content, o = Ok content <->
        exists a, get_artifact aid store = Ok a /\ art_run_id a = ctx_run_id c /\
          read_content aid store = Ok content)) /\
  (forall nm mt content md, quiet rid (manager_create (X := X) env nm mt content md)) /\
  (forall aid, quiet rid (manager_read_attachment (X := X) env aid)) /\
  (forall aid, quiet rid (manager_read_artifact (X := X) env aid)).
Proof.
  intros c store. split_and!; [| |intros; apply quiet_manager_create
    |intros; apply quiet_manager_read_attachment|intros; apply quiet_manager_read_artifact].
  - intros aid. unfold manager_read_attachment. rewrite (bind_Ok ctx_get _ st st c) by done. cbv beta.
    destruct (bool_decide (aid ∈ map att_id (ctx_attachments c))) eqn:E; simpl; reflect.
    + rewrite read_artifacts_run. eexists _, _. split; [done|]. naive_solver.
    + exists (sys_tick st), (Raise (Exn ArtifactAccessError
        (fstr ["attachment '"; uuid_str aid; "' is not available to this Run"]))).
      split; [by destruct st|]. naive_solver.
  - intros aid. unfold manager_read_artifact. unfold bind at 1. rewrite read_artifacts_run. fold store.
    destruct (get_artifact aid store) as [a|e].
    2: { eexists _, _. split; [done|]. naive_solver. }
    rewrite (bind_Ok ctx_get _ _ (mk_sys (sys_w st) (S (sys_tick st))) c) by done. cbv beta.
    destruct (bool_decide (art_run_id a = ctx_run_id c)) eqn:E; simpl; reflect.
    + rewrite read_artifacts_run. eexists _, _. split; [done|]. naive_solver.
    + eexists _, _. split; [done|]. naive_solver.
Qed.

(** ** An example *)

Definition drawing (i : uuid) : ambient := Ambient 0 (fun _ => 0) (fun _ => i).

Definition report_calls : list artifact_call :=
  [CallCreateArtifact (drawing 11) 7 "report.txt" "text/plain" "abc" None].
Definition later_calls : list artifact_call :=
  [CallAttach (drawing 12) "input.txt" "text/plain" "xyz" None;
   CallCreateArtifact (drawing 13) 7 "final.txt" "text/plain" "" None].

(** The first report is readable after the later calls, and told by its
    reference. *)
Lemma artifact_content_immutable_witness :
  exists a, get_artifact 11 (artifact_trace report_calls artifact_store_empty) = Ok a /\
    art_checksum_sha256 a = "ba7816bf8f01cfea414140de5dae2223b00361a396177a9cb410ff61f20015ad" /\
    read_content 11 (artifact_trace (report_calls ++ later_calls) artifact_store_empty) = Ok "abc" /\
    exists l, list_artifacts 7 (artifact_trace (report_calls ++ later_calls) artifact_store_empty) = a :: l.
Proof.
  destruct (artifact_content_immutable report_calls later_calls) as (_ & Hart & Hlist).
  { vm_compute. by split_and!. }
  eexists. split; [vm_compute; reflexivity|]. split; [vm_compute; reflexivity|]. split.
  - destruct (Hart 11%N _ ltac:(vm_compute; reflexivity)) as (_ & _ & c & Hc & Hc' & _).
    rewrite Hc', <-Hc. vm_compute. reflexivity.
  - destruct (Hlist 7%N) as [l Hl]. exists l. rewrite Hl. vm_compute. reflexivity.
Defined.
