(* ===== verification/EngineRun.v ===== *)
(** * Every execution settles its Run

    The lifecycle of [Engine] with the default supervisor and any strategy
    that keeps the laws of [StrategyLaws], in the program logic of
    [RuntimeLogic]: the [while] loop ends, every way out
    of the [try] statement leaves the Run in a final or waiting state, and
    what follows stores that state, the checkpoint, the turn and the closing
    event. *)

From Stdlib Require Import QArith.
From stdpp Require Import base gmap strings list.
From S2P Require Import Prelude Json Models Sha256 Plan StateMachine ConversationStore RunStore EventStore FlowModels SideEffects Program Serial Runtime Resources Supervision ToolExecutor ModelTool Engine RuntimeLogic.

Section EngineRun.
Context `{JsonFloat} `{FloatRepr} `{Validators} {X : Type}.
Variable env : nat -> ambient.
Variable expires : nat -> bool.
Variable specs : list (ResourceSpec X).
Variable memories : MemoryManager X.
Variable services : RuntimeServices X.
Variable rid : uuid.
Variable prof : AgentProfile.
Variable log0 : list RuntimeEvent.
Variable conv : option uuid.

(** The application's code does nothing but what is peaceful; leaving a
    resource is not where the task is cancelled. *)
Record peaceful_application : Prop := {
  pa_supervisor : sv_supervisor services = build_default_supervisor;
  pa_services : services_quiet rid services;
  pa_resources : forall s, s ∈ specs ->
    quiet rid (spec_factory s) /\ quiet rid (spec_enter s) /\
    forall error, quiet rid (spec_exit s error) /\
      forall st st' e, spec_exit s error st = Some (st', Raise e) -> is_exception e = true;
  pa_retriever : forall search q, mm_retriever memories = Some search -> quiet rid (search q);
}.

Hypothesis application : peaceful_application.

(** *** What a strategy promises

    A measure that every [advance] decreases while the Run goes on, as long
    as the step budget lasts; and what its [settle] achieves for a Run that
    has stopped. *)
Class StrategyLaws (strategy : Strategy X) := {
  st_measure : RuntimeContext -> Z;
  st_turns : Z;
  st_ended : RuntimeContext -> Prop;
  measure_bound c : ctx_ok rid prof conv true c -> 0 <= st_measure c < st_turns;
  measure_counters c c' :
    set_artifacts [] c' = set_artifacts [] c \/ only_counters c c' -> st_measure c' = st_measure c;
  measure_advance m :
    RuntimeLogic.triple (X := X) rid prof log0 conv true
      (fun c => st_measure c = m /\ ctx_step_count c < prof_max_steps prof)
      (st_advance strategy) (fun _ c => ctx_state c = RUNNING -> st_measure c < m);
  settle_ended s : s <> RUNNING ->
    match st_settle strategy with
    | Some p => RuntimeLogic.sure (X := X) rid prof log0 conv true
                  (fun c => ctx_state c = s) p (fun _ c => ctx_state c = s /\ st_ended c)
    | None => forall c, st_ended c
    end;
}.

Section Segment.
Variable started : bool.

#[local] Abbreviation triple := (RuntimeLogic.triple (X := X) rid prof log0 conv started).
#[local] Abbreviation sure := (RuntimeLogic.sure (X := X) rid prof log0 conv started).
#[local] Abbreviation inv := (RuntimeLogic.eng_inv (X := X) rid prof log0 conv started).

Ltac step_by t := eapply triple_bind; [t|cbv beta].
Tactic Notation "step" tactic(t) := step_by t.
Ltac surely_by t := eapply sure_bind; [t|cbv beta].
Tactic Notation "surely" tactic(t) := surely_by t.

(** *** Resources *)

Lemma sure_scope_put P f : sure P (scope_put f) (fun _ c => P c).
Proof.
  intros st [Hc Hr Hl Ht] HP. eexists _, _. split; [reflexivity|]. split; [by split|done].
Qed.

Lemma sure_scope_get P : sure P scope_get (fun _ c => P c).
Proof. intros st Hi HP. by eexists _, _. Qed.

Lemma find_spec_in name s : find_spec specs name = Some s -> s ∈ specs.
Proof. intros Hs. by apply find_Some_spec in Hs as [? _]. Qed.

Lemma triple_acquire P s : steady P -> s ∈ specs -> triple P (resource_acquire env s) (fun _ c => P c).
Proof.
  intros Hst Hs. destruct (pa_resources application s Hs) as (Hf & He & _).
  unfold resource_acquire. step (by apply triple_quiet). intros _.
  apply (triple_bind _ _ _ _ _ _ _ _ (fun _ c => P c)).
  - apply triple_try_stays; [by apply stays_quiet|done|]. intros e q. destruct (is_exception e); [|done].
    intros [= <-]. step (apply sure_triple, sure_scope_put). intros _.
    step (by apply triple_emit). intros _. apply triple_throw.
  - intros _. step (apply sure_triple, sure_scope_put). intros _. by apply triple_emit.
Qed.

Lemma triple_resource_get P name :
  steady P -> triple P (resource_get env specs name) (fun _ c => P c).
Proof.
  intros Hst. unfold resource_get. step (apply sure_triple, sure_scope_get). intros scope.
  destruct (negb _); [apply triple_throw|]. destruct (bool_decide _); [apply triple_skip|].
  destruct (find_spec specs name) as [s|] eqn:E; [|apply triple_throw].
  apply triple_acquire; [done|by eapply find_spec_in].
Qed.

Lemma triple_resources_start P : steady P -> triple P (resources_start env specs) (fun _ c => P c).
Proof.
  intros Hst. unfold resources_start. step (apply sure_triple, sure_scope_get). intros scope.
  destruct (negb _); [apply triple_throw|].
  step (apply sure_triple, sure_scope_put). intros _.
  assert (forall l, triple P (acquire_eager env specs l) (fun _ c => P c)) as Hl; [|apply Hl].
  induction l as [|s l IH]; simpl; [apply triple_skip|].
  apply (triple_bind _ _ _ _ _ _ _ _ (fun _ c => P c)); [|by intros _].
  destruct (spec_eager s); [by apply triple_resource_get|apply triple_skip].
Qed.

(** Releasing a resource always returns. *)
Lemma sure_release P error : steady P ->
  forall names, sure P (release_all env specs error names) (fun _ c => P c).
Proof.
  intros Hst. induction names as [|name names IH]; simpl; [apply sure_skip|].
  apply (sure_bind _ _ _ _ _ _ _ _ (fun _ c => P c)).
  - intros st Hi HP. unfold try_except, bind.
    destruct (find_spec specs name) as [s|] eqn:E; [|by eexists _, _].
    destruct (pa_resources application s (find_spec_in _ _ E)) as (_ & _ & Hx).
    destruct (Hx error) as [Hq Hexc]. destruct (Hq st) as (st' & o & Er & Hp).
    pose proof (eng_inv_peaceful _ _ _ _ _ _ _ Hi Hp) as Hi'.
    assert (P (w_ctx (sys_w st'))) as HP'
      by (rewrite (pc_ctx _ _ _ Hp); by apply (st_artifacts _ Hst)).
    rewrite Er. destruct o as [[]|e]; [by eexists _, _|]. rewrite (Hexc _ _ _ Er). by eexists _, _.
  - intros [e|]; cbv beta; [|by eapply sure_bind; [by apply sure_emit|intros []; apply IH]].
    apply (sure_bind _ _ _ _ _ _ _ _ (fun _ c => P c)); [|intros _; apply IH].
    surely (apply sure_scope_put). intros _. by apply sure_emit.
Qed.

Lemma sure_close P error :
  steady P -> sure P (resources_close env specs error) (fun _ c => P c).
Proof.
  intros Hst. unfold resources_close. surely (apply sure_scope_get). intros scope.
  destruct (bool_decide _); [apply sure_skip|].
  surely (apply sure_scope_put). intros _. surely (by apply sure_release). intros _.
  surely (apply sure_scope_put). intros _. surely (apply sure_scope_get). intros closed.
  apply sure_skip.
Qed.

(** *** Memories *)

Lemma triple_memory_put P f :
  (forall c, ctx_ok rid prof conv started c -> ctx_ok rid prof conv started (f c)) ->
  (forall c, P c -> P (f c)) -> triple P (ctx_put f) (fun _ c => P c).
Proof. intros Hok HP. apply triple_put. intros c Hc Hp. split; [by apply Hok|by apply HP]. Qed.

Ltac keep_ok := match goal with H : ctx_ok _ _ _ _ _ |- _ => destruct H; split; simpl in *; auto end.

Lemma stays_memory_search P q :
  steady P -> RuntimeLogic.stays rid prof log0 conv started P (memory_search env memories q).
Proof.
  intros Hst. unfold memory_search.
  destruct (mm_retriever memories) as [search|] eqn:E; [|apply stays_of_outcome].
  apply stays_bind.
  - apply stays_try.
    + apply stays_quiet; [|done]. apply quiet_bind; [by apply (pa_retriever application _ q E)|].
      intros. apply quiet_ret.
    + intros e h. destruct (is_exception e); [|done]. intros [= <-].
      apply stays_bind; [by apply stays_sure, sure_emit|]. intros _. apply stays_of_outcome.
  - intros matches. apply stays_bind; [by apply stays_sure, sure_emit|].
    intros _. apply (stays_of_outcome _ _ _ _ _ _ (Ok matches)).
Qed.

Lemma triple_memory_initialize :
  triple (fun _ => True) (memory_initialize env memories) (fun _ _ => True).
Proof.
  set (P := fun _ : RuntimeContext => True). assert (steady P) as Hst by (by split).
  change (triple P (memory_initialize env memories) (fun _ => P)).
  unfold memory_initialize. step (apply triple_get). intros c0.
  apply (triple_pre _ _ _ _ _ P); [|by intros c [_ ?]].
  destruct (ctx_memory_initialized c0); [apply triple_skip|].
  step (apply triple_memory_put; [intros c Hc; keep_ok|done]). intros _.
  destruct (mm_retriever memories) as [search|] eqn:Er; [|apply triple_skip].
  apply (triple_bind _ _ _ _ _ _ _ _ (fun _ c => P c)); [by apply triple_of_outcome|].
  intros query. cbv beta.
  apply (triple_bind _ _ _ _ _ _ _ _ (fun _ c => P c)).
  - apply triple_try_stays; [|done|].
    + apply stays_bind; [by apply stays_memory_search|].
      intros l. apply (stays_of_outcome _ _ _ _ _ _ (Ok (Some l))).
    + intros e h. destruct (is_exception e); [|done]. intros [= <-].
      step (apply triple_memory_put; [intros c Hc; keep_ok|done]). intros _.
      destruct (bool_decide _); [apply triple_throw|apply triple_skip].
  - intros [l|]; cbv beta; [|apply triple_skip].
    step (apply triple_memory_put; [intros c Hc; keep_ok|done]). intros _.
    step (apply triple_memory_put; [intros c Hc; keep_ok|done]). intros _.
    apply triple_skip.
Qed.

(** *** Leaving [RUNNING] *)

Lemma triple_transition P t :
  t <> CREATED -> t <> WAITING ->
  triple P (ctx_do (ctx_transition t)) (fun _ c => ctx_state c = t).
Proof.
  intros Hx1 Hx2. apply triple_do. intros c c' Hc _ Ht. apply ctx_transition_Ok in Ht as [-> _].
  split; [keep_ok; by intros|done].
Qed.

(** Stopping, from any state of the invariant. *)
Lemma triple_apply_stop P d :
  reasoned d -> dec_action d = STOP -> dec_terminal_status d = Some LIMIT_REACHED ->
  triple P (apply_supervision_decision env d true) (fun _ c => ctx_state c = LIMIT_REACHED).
Proof.
  intros Hd Ha Ht. unfold apply_supervision_decision. rewrite Ha, Ht.
  apply (triple_bind _ _ _ _ _ _ _ _ (fun _ _ => True)).
  { eapply triple_post; [by apply triple_emit|]. done. }
  intros _. apply (triple_bind _ _ _ _ _ _ _ _ (fun _ _ => True)).
  { destruct (true && _); [|by apply triple_ret]. eapply triple_post; [|done].
    by apply (triple_add_message _ _ _ _ _ (fun _ => True)). }
  intros _. simpl. apply (triple_bind _ _ _ _ _ _ _ _ (fun _ _ => True)).
  { apply triple_put. intros c Hc _. split; [by apply ctx_ok_error; [apply says_reason|]|done]. }
  intros _. by apply triple_transition.
Qed.

(** *** The [try] statement *)

(** A state in which a Run is settled after the [except] clauses. *)
Lemma sure_abandon P from t :
  t <> CREATED -> t <> WAITING -> t ∉ from ->
  (forall s, s ∈ from -> t ∈ allowed_transitions s) ->
  sure P (abandon from t) (fun _ c => ctx_state c ∉ from).
Proof.
  intros Hx1 Hx2 Hx3 Hal. unfold abandon. surely (apply sure_get). intros c0.
  destruct (bool_decide (ctx_state c0 ∈ from)) eqn:E; reflect.
  - apply sure_do. intros c Hc [-> _]. exists (set_state_machine (mk_RuntimeStateMachine t) c).
    split_and!; [|keep_ok; by intros|done].
    unfold ctx_transition. assert (transition_to (ctx_state_machine c) t = Ok (mk_RuntimeStateMachine t)) as ->;
      [|done]. apply transition_to_Ok. split; [by apply Hal|done].
  - apply sure_ret. by intros c [-> _].
Qed.

(** The state a cancelled execution may be left in. *)
Definition stopped (c : RuntimeContext) : Prop := ctx_state c ∉ [CREATED; RUNNING; WAITING].

Lemma sure_post {A} P (p : prog (World X) A) (Q Q' : A -> RuntimeContext -> Prop) :
  sure P p Q -> (forall a c, Q a c -> Q' a c) -> sure P p Q'.
Proof.
  intros Hp Hq st Hi HP. destruct (Hp st Hi HP) as (st' & a & E & Hi' & Ha).
  exists st', a. split_and!; auto.
Qed.

Lemma stopped_ends c : stopped c -> ctx_state c <> RUNNING.
Proof. unfold stopped. intros Hs E. rewrite E in Hs. by apply Hs, list_elem_of_In; right; left. Qed.

(** Recording an error, then leaving the states [from]. *)
Lemma sure_record_error P m (p : prog (World X) unit) Q :
  says m -> sure (fun _ => True) p Q -> sure P (bind (ctx_put (set_error m)) (fun _ => p)) Q.
Proof.
  intros Hm Hp. apply (sure_bind _ _ _ _ _ _ _ _ (fun _ _ => True)); [|by intros _].
  apply sure_put. intros c Hc _. split; [by apply ctx_ok_error|done].
Qed.

Lemma sure_stop P t : t = CANCELLED \/ t = INTERRUPTED ->
  sure P (abandon [CREATED; RUNNING; WAITING] t) (fun _ c => stopped c).
Proof.
  intros Ht. apply sure_abandon.
  1-2: by destruct Ht as [-> | ->].
  - destruct Ht as [-> | ->]; rewrite !elem_of_cons, elem_of_nil; naive_solver.
  - intros s Hs. rewrite !elem_of_cons, elem_of_nil in Hs.
    destruct Ht as [-> | ->]; destruct Hs as [-> |[-> |[-> |[]]]]; simpl;
      rewrite !elem_of_cons; tauto.
Qed.

Lemma sure_run_failed e :
  sure (fun _ => True) (run_failed env e)
    (fun _ c => ctx_state c <> RUNNING /\ (is_exception e = false -> stopped c)).
Proof.
  unfold run_failed. destruct (is_exception e).
  - apply sure_record_error; [by apply says_cons|]. eapply sure_post.
    + apply (sure_abandon _ [RUNNING] FAILED); try done.
      * by intros E%list_elem_of_singleton.
      * intros s ->%list_elem_of_singleton. simpl. rewrite !elem_of_cons. tauto.
    + cbv beta. intros a c Hc. split; [|done]. intros E. by apply Hc, list_elem_of_singleton.
  - surely (apply sure_cancel_requested). intros [|]; (apply sure_record_error; [by apply says_cons|]);
      (eapply sure_post; [apply sure_stop; tauto|]); cbv beta; intros a c Hc;
      (split; [by apply stopped_ends|done]).
Qed.

End Segment.

(** ** Settling *)

(** The checkpoint of a Run whose context is [c]. *)
Definition checkpoint_settled (c : RuntimeContext) (cps : gmap uuid RuntimeCheckpoint) : Prop :=
  if bool_decide (ctx_state c = WAITING)
  then exists cp, cps !! rid = Some cp /\ restore cp = c
  else cps !! rid = None.

(** Its turn: it has the status of the Run, and the conversation is free
    again unless the Run waits. *)
Definition turn_settled (s : RunStatus) (cs : ConversationStore) : Prop :=
  match conv with
  | None => True
  | Some cid => exists v i t, cs_conversations cs !! cid = Some v /\
      turn_index rid (turns_of cs cid) = Some i /\ turns_of cs cid !! i = Some t /\
      turn_status t = s /\
      conv_active_run_id v = if bool_decide (s = WAITING) then Some rid else None
  end.

#[local] Abbreviation inv := (RuntimeLogic.eng_inv (X := X) rid prof log0 conv true).

(** The states a Run can be settled in have a status and an event. *)
Lemma settled_state c :
  ctx_ok rid prof conv true c -> ctx_state c <> RUNNING ->
  exists s ty, status_map (ctx_state c) = Some s /\ run_terminal_event (ctx_state c) = Some ty.
Proof.
  intros Hc Hr. pose proof (ok_state _ _ _ _ _ Hc eq_refl).
  destruct (ctx_state c); try done; by eexists _, _.
Qed.

Lemma settle_checkpoint_run (st : sys (World X)) :
  ctx_ok rid prof conv true (w_ctx (sys_w st)) ->
  exists cps, settle_checkpoint env st
    = Some (mk_sys (set_checkpoints cps (sys_w st)) (S (sys_tick st)), Ok tt) /\
    checkpoint_settled (w_ctx (sys_w st)) cps.
Proof.
  intros [Hid _ _ _ Hp Hn Hm _ _ _]. unfold settle_checkpoint, call_store, checkpoint_settled.
  destruct (bool_decide _) eqn:E; reflect.
  - destruct (from_context_total _ E (pending_valid_Some _ (Hp E))) as [cp Hcp]; [lia..|]. rewrite Hcp. simpl.
    apply from_context_Ok in Hcp as (_ & _ & _ & _ & Hr & Hrest).
    eexists. split; [reflexivity|]. exists cp. unfold checkpoint_save.
    by rewrite Hr, Hid, lookup_insert_eq.
  - eexists. split; [reflexivity|]. unfold checkpoint_delete. by rewrite Hid, lookup_delete_eq.
Qed.

Lemma turn_index_update r l i t t' :
  turn_index r l = Some i -> l !! i = Some t -> turn_run_id t' = turn_run_id t ->
  turn_index r (<[i := t']> l) = Some i.
Proof.
  revert i. induction l as [|u l IH]; intros i Hi Hl Ht; [done|]. simpl in Hi.
  destruct (bool_decide (turn_run_id u = r)) eqn:E.
  - injection Hi as <-. simpl in Hl. injection Hl as ->. simpl. by rewrite Ht, E.
  - destruct (turn_index r l) as [j|] eqn:Ej; [|done]. injection Hi as <-. simpl in *.
    by rewrite E, (IH j).
Qed.

(** A turn that is open can be finished. *)
Lemma finish_turn_total amb cid s m cs :
  turn_open rid cid cs -> conv = Some cid -> s <> CREATED -> s <> RUNNING ->
  exists cs' t, finish_turn amb cid rid s m cs = Ok (cs', t) /\ turn_settled s cs'.
Proof.
  intros (v & i & t & Hv & Ha & Hi & Ht) Hconv Hx1 Hx2. unfold finish_turn.
  rewrite (bool_decide_eq_false_2 (_ ∈ _)).
  2: { rewrite !elem_of_cons, elem_of_nil. naive_solver. }
  unfold get_locked. rewrite Hv. simpl. rewrite Hi. simpl. rewrite Ht. simpl.
  rewrite bool_decide_eq_true_2 by done. simpl. eexists _, _. split; [reflexivity|].
  unfold turn_settled. rewrite Hconv. unfold turns_of. simpl. rewrite lookup_insert_eq. simpl.
  set (t' := mk_ConversationTurn _ _ _ _ _ _ _ _).
  assert (turn_index rid (<[i := t']> (turns_of cs cid)) = Some i) as Hi'
    by (by eapply turn_index_update).
  assert ((<[i := t']> (turns_of cs cid)) !! i = Some t') as Ht'
    by (apply list_lookup_insert_eq; by eapply lookup_lt_Some).
  destruct (bool_decide (s = WAITING)); simpl.
  - by exists v, i, t'.
  - eexists _, i, t'. rewrite lookup_insert_eq. by split_and!.
Qed.

Lemma settle_turn_run store (st : sys (World X)) :
  inv (sys_w st) -> ctx_state (w_ctx (sys_w st)) <> RUNNING -> (conv <> None -> store = true) ->
  exists cs n, settle_turn env store st
    = Some (mk_sys (set_conversations cs (sys_w st)) n, Ok tt) /\
    turn_settled (ctx_state (w_ctx (sys_w st))) cs.
Proof.
  intros Hi Hr Hstore. pose proof (inv_ctx _ _ _ _ _ _ Hi) as Hc.
  pose proof (inv_turn _ _ _ _ _ _ Hi) as Ht.
  unfold settle_turn, bind, ctx_get. simpl. rewrite (ok_conversation _ _ _ _ _ Hc).
  destruct conv as [cid|] eqn:Econv.
  - rewrite Hstore by done. simpl. unfold call_store.
    destruct (finish_turn_total (env (sys_tick st)) cid (ctx_state (w_ctx (sys_w st))) (ctx_output (w_ctx (sys_w st))) _ Ht) as (cs' & t & E & Hs);
      [done|by apply (ok_state _ _ _ _ _ Hc)|done|].
    rewrite (ok_run_id _ _ _ _ _ Hc), E. simpl. eexists _, _. split; [reflexivity|exact Hs].
  - exists (w_conversations (sys_w st)), (sys_tick st). split; [|by unfold turn_settled; rewrite Econv].
    by destruct st as [[] ?].
Qed.

Lemma finalize_run_run (st : sys (World X)) ty :
  ctx_run_id (w_ctx (sys_w st)) = rid -> run_stored rid conv (sys_w st) ->
  run_terminal_event (ctx_state (w_ctx (sys_w st))) = Some ty ->
  exists r e n, finalize_run env st
    = Some (mk_sys (set_events (<[rid := events_of (w_events (sys_w st)) rid ++ [e]]>
                                  (w_events (sys_w st)))
                     (set_runs (<[rid := r]> (w_runs (sys_w st))) (sys_w st))) n, Ok tt) /\
    run_id r = rid /\ run_conversation_id r = conv /\ run_tells r (w_ctx (sys_w st)) /\ ev_type e = ty.
Proof.
  intros Hid Hst Hty.
  destruct (save_context_snapshot_run env rid conv st Hid Hst) as (r & n & E & Hrid & Hcv & Htell).
  unfold finalize_run. rewrite (bind_Ok _ _ _ _ _ E). unfold ctx_get at 1, bind at 1. simpl.
  rewrite Hty.
  match goal with |- context [emit_event env ?t ?d ?s] =>
    destruct (emit_event_run env rid t d s Hid) as (e & Ee & Het) end.
  rewrite Ee. exists r, e. eexists. split; [reflexivity|done].
Qed.

(** ** Opening *)

(** What an execution starts from: a context that fits the Run, its
    conversation turn begun, and for a waiting Run its snapshot stored. *)
Record ready (w : World X) : Prop := {
  rd_ctx : ctx_ok rid prof conv false (w_ctx w);
  rd_turn_sequence : ctx_state (w_ctx w) <> WAITING ->
                     match ctx_turn_sequence (w_ctx w) with
                     | Some n => 1 <= n /\ conv <> None
                     | None => conv = None
                     end;
  rd_waiting : ctx_state (w_ctx w) = WAITING -> run_stored rid conv w;
  rd_log : events_of (w_events w) rid = log0;
  rd_turn : match conv with Some cid => turn_open rid cid (w_conversations w) | None => True end;
}.

(** The stores of two worlds are the same. *)
Definition untouched (w w' : World X) : Prop :=
  w_runs w' = w_runs w /\ w_events w' = w_events w /\
  w_checkpoints w' = w_checkpoints w /\ w_conversations w' = w_conversations w.

(** Programs that reach only the context. *)
Definition local {A} (p : prog (World X) A) : Prop :=
  forall st, exists c o, p st = Some (mk_sys (set_ctx c (sys_w st)) (sys_tick st), o).

Lemma local_of_outcome {A} (o : outcome A) : local (of_outcome o).
Proof. intros st. exists (w_ctx (sys_w st)), o. rewrite set_ctx_id. by destruct st. Qed.

Lemma local_get : local ctx_get.
Proof. intros st. exists (w_ctx (sys_w st)). eexists. rewrite set_ctx_id. by destruct st. Qed.

Lemma local_do f : local (ctx_do f).
Proof.
  intros st. unfold ctx_do. destruct (f _) as [c|e]; [by eexists _, _|].
  exists (w_ctx (sys_w st)), (Raise e). rewrite set_ctx_id. by destruct st.
Qed.

Lemma local_bind {A B} (p : prog (World X) A) (k : A -> prog (World X) B) :
  local p -> (forall a, local (k a)) -> local (bind p k).
Proof.
  intros Hp Hk st. unfold bind. destruct (Hp st) as (c1 & [a|e] & ->); [|by eexists _, _].
  destruct (Hk a (mk_sys (set_ctx c1 (sys_w st)) (sys_tick st))) as (c2 & o & ->).
  simpl. rewrite set_ctx_twice. by eexists _, _.
Qed.

Lemma local_try {A} (p : prog (World X) A) h :
  local p -> (forall e q, h e = Some q -> local q) -> local (try_except p h).
Proof.
  intros Hp Hh st. unfold try_except. destruct (Hp st) as (c1 & [a|e] & ->); [by eexists _, _|].
  destruct (h e) as [q|] eqn:E; [|by eexists _, _].
  destruct (Hh _ _ E (mk_sys (set_ctx c1 (sys_w st)) (sys_tick st))) as (c2 & o & ->).
  simpl. rewrite set_ctx_twice. by eexists _, _.
Qed.

Lemma local_add_message m : local (add_message (X := X) m).
Proof. apply local_bind; [apply local_of_outcome|]. intros a. apply local_do. Qed.

#[local] Abbreviation throws e := (local_of_outcome (Raise e)).

Lemma local_resume_confirmation pending ri conf :
  local (resume_confirmation (X := X) pending ri conf).
Proof.
  unfold resume_confirmation. destruct (negb _); [apply (throws _)|].
  destruct conf as [k|]; [|apply (throws _)]. apply local_bind.
  - apply local_try; [apply local_of_outcome|]. intros e q. destruct (_ || _); [|done].
    intros [= <-]. apply (throws _).
  - intros request. destruct (negb _); [apply (throws _)|].
    apply local_bind; [apply local_do|]. intros _. destruct (bool_decide _).
    + apply local_bind; [apply local_add_message|]. intros _. apply (local_of_outcome (Ok _)).
    + apply (local_of_outcome (Ok _)).
Qed.

Lemma local_resume_with_input pending ri conf :
  local (resume_with_input (X := X) pending ri conf).
Proof.
  unfold resume_with_input. destruct (negb _); [apply (throws _)|].
  destruct ri as [text|]; [|apply (throws _)]. destruct (blank text); [apply (throws _)|].
  apply local_add_message.
Qed.

(** The answer to the pending input, before anything is stored. *)
Definition answer (pending : PendingInput) (ri : option string) (conf : option ToolConfirmation)
  : prog (World X) (option ToolResult) :=
  if is_confirmation pending then resume_confirmation pending ri conf
  else do* resume_with_input pending ri conf in ret None.

Lemma local_answer pending ri conf : local (answer pending ri conf).
Proof.
  unfold answer. destruct (is_confirmation pending); [apply local_resume_confirmation|].
  apply local_bind; [apply local_resume_with_input|]. intros _. apply (local_of_outcome (Ok _)).
Qed.

Section Opening.
Variable started : bool.
#[local] Abbreviation triple := (RuntimeLogic.triple (X := X) rid prof log0 conv started).
#[local] Abbreviation sure := (RuntimeLogic.sure (X := X) rid prof log0 conv started).

Ltac keep_ok := match goal with H : ctx_ok _ _ _ _ _ |- _ => destruct H; split; simpl in *; auto end.

(** It leaves the state of the context alone, and there is no answer to a
    confirmation request without a decision. *)
Lemma triple_answer pending ri conf s :
  triple (fun c => ctx_state c = s) (answer pending ri conf)
    (fun _ c => ctx_state c = s /\ (is_confirmation pending = true -> conf <> None)).
Proof.
  set (P := fun c => ctx_state c = s).
  unfold answer. destruct (is_confirmation pending).
  - unfold resume_confirmation. destruct (negb _); [apply triple_throw|].
    destruct conf as [k|]; [|apply triple_throw].
    apply (triple_bind _ _ _ _ _ _ _ _ (fun _ => P)).
    { apply triple_try_stays; [apply stays_of_outcome|done|]. intros e q. destruct (_ || _); [|done].
      intros [= <-]. apply triple_throw. }
    intros request. cbv beta. destruct (negb _); [apply triple_throw|].
    apply (triple_bind _ _ _ _ _ _ _ _ (fun _ => P)).
    { apply triple_put. intros c Hc Hs. split; [by apply ctx_ok_dset|done]. }
    intros _. cbv beta. destruct (bool_decide _).
    + apply (triple_bind _ _ _ _ _ _ _ _ (fun _ => P)); [by apply triple_add_message|].
      intros _. by apply triple_ret.
    + by apply triple_ret.
  - apply (triple_bind _ _ _ _ _ _ _ _ (fun _ => P)); [|intros _; by apply triple_ret].
    unfold resume_with_input. destruct (negb _); [apply triple_throw|].
    destruct ri as [text|]; [|apply triple_throw]. destruct (blank text); [apply triple_throw|].
    by apply triple_add_message.
Qed.

Lemma sure_emit_skills P skills : sure P (emit_skills env skills) (fun _ c => P c).
Proof.
  induction skills as [|s skills IH]; simpl; [apply sure_skip|].
  eapply sure_bind; [by apply sure_emit|]. intros [].
  eapply sure_bind; [by apply sure_emit|]. by intros [].
Qed.

Lemma sure_emit_attachments P l : sure P (emit_attachments env l) (fun _ c => P c).
Proof.
  induction l as [|a l IH]; simpl; [apply sure_skip|].
  eapply sure_bind; [by apply sure_emit|]. by intros [].
Qed.
End Opening.
#[local] Abbreviation inv0 := (RuntimeLogic.eng_inv (X := X) rid prof log0 conv false).

Lemma eng_started w : inv0 w -> ctx_state (w_ctx w) <> CREATED -> inv w.
Proof. intros [[] Hr Hl Ht] Hs. split; [by split|done..]. Qed.

(** *** A new Run *)

Lemma new_run_total amb w :
  ready w -> ctx_state (w_ctx w) <> WAITING ->
  exists r, new_run amb (w_ctx w) = Ok r /\ run_id r = rid /\ run_conversation_id r = conv.
Proof.
  intros [Hc Hseq _ _ _] Hs. specialize (Hseq Hs). unfold new_run, checked, Run_validate. simpl.
  rewrite (ok_conversation _ _ _ _ _ Hc), (ok_run_id _ _ _ _ _ Hc).
  destruct (ctx_turn_sequence (w_ctx w)) as [n|].
  - destruct Hseq as [Hn Hcv]. rewrite (proj2 (Z.leb_le _ _)) by done.
    rewrite (bool_decide_eq_false_2 _ Hcv), (bool_decide_eq_false_2 (Some n = None)) by done.
    eexists. split; [reflexivity|]. done.
  - rewrite (bool_decide_eq_true_2 _ Hseq). eexists. split; [reflexivity|]. done.
Qed.

Lemma create_run_opens (st : sys (World X)) :
  ready (sys_w st) -> ctx_state (w_ctx (sys_w st)) <> WAITING -> w_runs (sys_w st) !! rid = None ->
  exists st', create_run env st = Some (st', Ok tt) /\ inv0 (sys_w st') /\
    w_ctx (sys_w st') = w_ctx (sys_w st).
Proof.
  intros Hrd Hnw Hnone. destruct (new_run_total (env (sys_tick st)) _ Hrd Hnw) as (r & Hr & Hid & Hcv).
  pose proof Hrd as [Hc _ _ Hl Ht]. unfold create_run.
  rewrite (bind_Ok ctx_get _ st st (w_ctx (sys_w st))) by done. cbv beta.
  set (c0 := w_ctx (sys_w st)) in *.
  set (st1 := mk_sys (set_runs (<[rid := r]> (w_runs (sys_w st))) (sys_w st)) (S (sys_tick st))).
  rewrite (bind_Ok _ _ st st1 tt).
  2: { unfold call_store. rewrite Hr. simpl. unfold run_create. rewrite Hid, Hnone. done. }
  assert (inv0 (sys_w st1)) as Hi1.
  { split; [exact Hc| | |exact Ht].
    - exists r. simpl. by rewrite lookup_insert_eq.
    - exists []. rewrite app_nil_r. split; [exact Hl|constructor]. }
  match goal with |- exists st', ?p st1 = _ /\ _ =>
    assert (RuntimeLogic.sure rid prof log0 conv false (fun c => c = c0) p (fun _ c => c = c0)) as Hp
  end.
  { eapply sure_bind; [by apply sure_emit|]. intros [].
    eapply sure_bind; [apply sure_emit_skills|]. intros [].
    apply (sure_bind _ _ _ _ _ _ _ _ (fun _ c => c = c0)); [|intros []; apply sure_emit_attachments].
    destruct (ctx_plan c0); [by apply sure_emit|apply sure_skip]. }
  destruct (Hp st1 Hi1 eq_refl) as (st' & [] & E & Hi' & Hc'). by exists st'.
Qed.

Lemma not_waiting s : s = CREATED \/ s = RUNNING -> s <> WAITING.
Proof. by intros [-> | ->]. Qed.

Lemma start_run_opens provider (st : sys (World X)) :
  ready (sys_w st) -> w_runs (sys_w st) !! rid = None ->
  ctx_state (w_ctx (sys_w st)) = CREATED \/ ctx_state (w_ctx (sys_w st)) = RUNNING ->
  exists st', start_run env provider st = Some (st', Ok tt) /\ inv (sys_w st') /\
    ctx_state (w_ctx (sys_w st')) = RUNNING.
Proof.
  intros Hrd Hnone Hs. destruct (create_run_opens st Hrd (not_waiting _ Hs) Hnone) as (st1 & E1 & Hi1 & Hc1).
  unfold start_run. rewrite (bind_Ok _ _ _ _ _ E1). cbv beta.
  rewrite (bind_Ok ctx_get _ st1 st1 (w_ctx (sys_w st1))) by done. cbv beta. rewrite Hc1.
  assert (RuntimeLogic.sure (X := X) rid prof log0 conv false (fun c => c = w_ctx (sys_w st))
    (if bool_decide (ctx_state (w_ctx (sys_w st)) = CREATED)
     then ctx_do (ctx_transition RUNNING) else ret tt) (fun _ c => ctx_state c = RUNNING)) as Hgo.
  { destruct (bool_decide _) eqn:E; reflect.
    - apply sure_do. intros c Hc ->.
      exists (set_state_machine (mk_RuntimeStateMachine RUNNING) (w_ctx (sys_w st))). split_and!.
      + unfold ctx_transition. unfold ctx_state in E. by destruct (w_ctx (sys_w st)) as [] eqn:Ew;
          simpl in *; destruct ctx_state_machine as []; simpl in *; subst.
      + destruct Hc. by split.
      + done.
    - apply sure_ret. intros c ->. by destruct Hs. }
  destruct (Hgo st1 Hi1 Hc1) as (st2 & [] & E2 & Hi2 & Hs2).
  rewrite (bind_Ok _ _ _ _ _ E2). cbv beta.
  assert (inv (sys_w st2)) as Hi2' by (apply eng_started; [done|congruence]).
  match goal with |- exists st', ?p st2 = _ /\ _ =>
    assert (RuntimeLogic.sure rid prof log0 conv true (fun c => ctx_state c = RUNNING) p
              (fun _ c => ctx_state c = RUNNING)) as Hp
  end.
  { eapply (sure_bind _ _ _ _ _ _ _ _ (fun _ c => ctx_state c = RUNNING)).
    - apply sure_put. intros c Hc Hr. split; [destruct Hc; by split|done].
    - intros []. eapply sure_bind; [apply sure_save|]. intros []. by apply sure_emit. }
  destruct (Hp st2 Hi2' Hs2) as (st' & [] & E & Hi' & Hs'). by exists st'.
Qed.

(** *** A waiting Run *)

Lemma prepare_resume_opens ri conf provider (st : sys (World X)) :
  inv (sys_w st) -> ctx_state (w_ctx (sys_w st)) = WAITING ->
  exists st' o, prepare_resume env ri conf provider st = Some (st', o) /\
    match o with
    | Ok _ => inv (sys_w st') /\ ctx_state (w_ctx (sys_w st')) = RUNNING
    | Raise _ => untouched (sys_w st) (sys_w st')
    end.
Proof.
  intros Hi Hw. unfold prepare_resume.
  rewrite (bind_Ok ctx_get _ st st (w_ctx (sys_w st))) by done. cbv beta.
  destruct (ok_pending _ _ _ _ _ (inv_ctx _ _ _ _ _ _ Hi) Hw) as (pending & Hpend & _). rewrite Hpend.
  change (if is_confirmation pending then resume_confirmation pending ri conf
          else do* resume_with_input pending ri conf in ret None) with (answer pending ri conf).
  destruct (local_answer pending ri conf st) as (c1 & o1 & E1).
  destruct (triple_answer true pending ri conf WAITING st Hi Hw) as (st1 & o1' & E1' & Hi1 & Hq1).
  rewrite E1 in E1'. injection E1' as <- <-.
  destruct o1 as [rejected|e]; [|rewrite (bind_Raise _ _ _ _ _ E1); eexists _, _; split; [reflexivity|]; by split_and!].
  destruct (Hq1 _ eq_refl) as [Hs1 Hconf]. simpl in Hs1.
  rewrite (bind_Ok _ _ _ _ _ E1). cbv beta.
  set (c2 := set_state_machine (mk_RuntimeStateMachine RUNNING)
               (set_provider_name (Some provider) (set_error None (set_output None
                  (set_pending_input None c1))))).
  set (st2 := mk_sys (set_ctx c2 (sys_w st)) (sys_tick st)).
  match goal with |- exists st' o, bind (ctx_put ?f1) (fun _ => bind (ctx_put ?f2) (fun _ =>
      bind (ctx_put ?f3) (fun _ => bind (ctx_put ?f4) (fun _ => bind (ctx_do ?f5) ?k)))) ?s = _ /\ _ =>
    assert (bind (ctx_put f1) (fun _ => bind (ctx_put f2) (fun _ =>
      bind (ctx_put f3) (fun _ => bind (ctx_put f4) (fun _ => bind (ctx_do f5) k)))) s = k tt st2) as ->
  end.
  { unfold bind at 1 2 3 4 5, ctx_put, ctx_do. simpl. rewrite !set_ctx_twice.
    unfold ctx_transition. unfold ctx_state in Hs1. simpl in *.
    destruct (ctx_state_machine c1) as [s]. simpl in *. by subst s. }
  cbv beta.
  assert (inv (sys_w st2)) as Hi2.
  { destruct Hi1 as [[] ? ? ?]. split; [|done..]. by split. }
  match goal with |- exists st' o, ?p st2 = _ /\ _ =>
    assert (RuntimeLogic.sure rid prof log0 conv true (fun c => ctx_state c = RUNNING) p
              (fun _ c => ctx_state c = RUNNING)) as Hp
  end.
  { eapply sure_bind; [apply sure_save|]. intros [].
    eapply (sure_bind _ _ _ _ _ _ _ _ (fun _ c => ctx_state c = RUNNING));
      [|intros []; by apply sure_emit].
    destruct (is_confirmation pending); [|by apply sure_emit].
    destruct conf as [k|]; [|by destruct Hconf].
    eapply sure_bind; [by apply sure_emit|]. intros [].
    destruct rejected; [|apply sure_skip].
    apply (sure_bind _ _ _ _ _ _ _ _ (fun _ c => ctx_state c = RUNNING)).
    - eapply sure_post; [apply sure_get|]. by intros a c [_ ?].
    - intros a. by apply sure_emit. }
  destruct (Hp st2 Hi2 eq_refl) as (st' & [] & E & Hi' & Hs'). by exists st', (Ok tt).
Qed.
(** ** Settling the execution of a strategy *)

Section Strategy.
Variable strategy : Strategy X.
Context `{laws : !StrategyLaws strategy}.

#[local] Abbreviation triple := (RuntimeLogic.triple (X := X) rid prof log0 conv true).
#[local] Abbreviation sure := (RuntimeLogic.sure (X := X) rid prof log0 conv true).
#[local] Abbreviation inv := (RuntimeLogic.eng_inv (X := X) rid prof log0 conv true).

Ltac step_by t := eapply triple_bind; [t|cbv beta].
Tactic Notation "step" tactic(t) := step_by t.

Ltac keep_ok := match goal with H : ctx_ok _ _ _ _ _ |- _ => destruct H; split; simpl in *; auto end.

(** *** The loop *)

(** The measure of a context, as a ghost. *)
Lemma triple_measure {A} P (p : prog (World X) A) Q :
  (forall m, triple (fun c => P c /\ st_measure c = m) p Q) -> triple P p Q.
Proof. intros Hp st Hi HP. by apply (Hp (st_measure (w_ctx (sys_w st))) st Hi). Qed.

Lemma steady_measure m : steady (fun c => st_measure c = m).
Proof.
  split.
  - intros c a <-. apply measure_counters. by left.
  - intros c c' Ho <-. apply measure_counters. by right.
Qed.

Lemma triple_run_loop : forall fuel,
  triple (fun c => ctx_state c = RUNNING -> st_measure c < Z.of_nat fuel)
    (run_loop env services strategy fuel) (fun _ c => ctx_state c <> RUNNING).
Proof.
  induction fuel as [|fuel IH]; simpl;
    (eapply triple_bind; [apply triple_get|cbv beta; intros c0]);
    destruct (bool_decide (ctx_state c0 = RUNNING)) eqn:E; simpl; reflect;
    try (by apply triple_ret; intros c [-> _]).
  - intros st Hi [-> He]. exfalso. specialize (He E).
    pose proof (measure_bound _ (inv_ctx _ _ _ _ _ _ Hi)). lia.
  - apply triple_measure. intros m.
    apply (triple_pre _ _ _ _ _ (fun c => m < Z.of_nat (S fuel) /\ st_measure c = m)).
    2: { intros c [[-> He] <-]. split; [by apply He|done]. }
    apply triple_fact. intros Hm.
    step (apply triple_cancel_requested). intros [|].
    { apply (triple_bind _ _ _ _ _ _ _ _ (fun _ _ => True)); [|intros _].
      { apply triple_put. intros c Hc _. split; [by apply ctx_ok_error; [apply says_cons|]|done]. }
      eapply triple_post; [by apply triple_transition|]. by intros a c ->. }
    rewrite (pa_supervisor application). step (apply triple_before_model, steady_measure). intros d.
    apply (triple_bind _ _ _ _ _ _ _ _
      (fun _ c => ctx_state c = RUNNING -> st_measure c = m /\ ctx_step_count c < prof_max_steps prof)).
    { destruct (continues d) eqn:Ed; unfold continues in Ed; reflect.
      - apply triple_ret. intros c (Ht & _ & [[_ Hlt]|[Hs _]]) _; [done|congruence].
      - apply (triple_pre _ _ _ _ _ (fun c => (reasoned d /\ dec_action d = STOP /\
          dec_terminal_status d = Some LIMIT_REACHED) /\ True)).
        2: { by intros c (_ & Hr & [[? _]|[? ?]]). }
        apply triple_fact. intros (Hr & Ha & Ht).
        eapply triple_post; [by apply triple_apply_stop|]. cbv beta. intros a c Hc Hrun. congruence. }
    intros _. cbv beta. step (apply triple_get). intros c1.
    destruct (bool_decide (ctx_state c1 = RUNNING)) eqn:E1; simpl; reflect.
    2: { by apply triple_ret; intros c [-> _]. }
    apply (triple_bind _ _ _ _ _ _ _ _
      (fun _ c => ctx_state c = RUNNING -> st_measure c < Z.of_nat fuel)); [|by intros _].
    eapply triple_pre; [eapply triple_post; [apply (measure_advance m)|]|].
    + cbv beta. intros a c Hc Hr. specialize (Hc Hr). lia.
    + intros c [-> Hc]. by apply Hc.
Qed.

(** *** The [try] statement always ends, with the Run no longer running. *)
Lemma sure_guarded_run fuel :
  st_turns <= Z.of_nat fuel ->
  sure (fun _ => True) (guarded_run env specs memories services strategy fuel)
    (fun err c => ctx_state c <> RUNNING /\
       forall e, err = Some e -> is_exception e = false -> stopped c).
Proof.
  intros Hfuel.
  assert (triple (fun _ => True) (run_body env specs memories services strategy fuel)
    (fun _ c => ctx_state c <> RUNNING)) as Hbody.
  { unfold run_body. step (by apply triple_resources_start). intros _.
    apply (triple_bind _ _ _ _ _ _ _ _ (fun _ _ => True)).
    - step (apply triple_memory_initialize). intros l. apply triple_skip.
    - intros _ st Hi _. apply (triple_run_loop fuel st Hi). intros _.
      pose proof (measure_bound _ (inv_ctx _ _ _ _ _ _ Hi)). lia. }
  intros st Hi _. destruct (Hbody st Hi I) as (st1 & o & E1 & Hi1 & Hq1).
  unfold guarded_run, bind at 1, attempt at 1. rewrite E1. cbv beta iota zeta.
  set (err := match o with Ok _ => None | Raise e => Some e end).
  assert (exists st2, attempt (match o with Ok _ => ret tt | Raise e => run_failed env e end) st1
            = Some (st2, Ok (Ok tt)) /\ inv (sys_w st2) /\ ctx_state (w_ctx (sys_w st2)) <> RUNNING /\
            forall e, err = Some e -> is_exception e = false -> stopped (w_ctx (sys_w st2)))
    as (st2 & E2 & Hi2 & Hq2).
  { unfold attempt. destruct o as [[]|e]; simpl.
    - exists st1. split_and!; try done. by apply (Hq1 tt).
    - destruct (sure_run_failed true e st1 Hi1 I) as (st2 & [] & E & Hi2 & Hr & Hs).
      exists st2. rewrite E. split_and!; try done. by intros e' [= <-]. }
  rewrite (bind_Ok _ _ _ _ _ E2). cbv beta.
  set (P := fun c => ctx_state c <> RUNNING /\
              forall e, err = Some e -> is_exception e = false -> stopped c).
  assert (sure P (bind (resources_close env specs err) (fun failures =>
    bind (ctx_put (fun c => set_resource_failures (ctx_resource_failures c ++ failures) c))
      (fun _ => ret err))) (fun err' c => err' = err /\ P c)) as Hclose.
  { assert (steady P) as Hst.
    { split; [done|]. intros c c' Ho Hp. unfold P, stopped, ctx_state in *.
      rewrite (only_counters_eq _ _ Ho). exact Hp. }
    apply (sure_bind _ _ _ _ _ _ _ _ (fun _ => P)); [by apply sure_close|intros failures].
    apply (sure_bind _ _ _ _ _ _ _ _ (fun _ => P)); [|intros _; by apply sure_ret].
    apply sure_put. intros c Hc Hp. split; [keep_ok|exact Hp]. }
  destruct (Hclose st2 Hi2 Hq2) as (st3 & err' & E3 & Hi3 & -> & Hp3).
  exists st3, err. split_and!; [exact E3|exact Hi3|apply Hp3|apply Hp3].
Qed.

(** Everything about an execution that is over. *)
Record settled (w : World X) : Prop := {
  se_ctx : ctx_ok rid prof conv true (w_ctx w);
  se_ended : ctx_state (w_ctx w) <> RUNNING;
  se_run : exists r, w_runs w !! rid = Some r /\ run_id r = rid /\ run_conversation_id r = conv /\
             run_tells r (w_ctx w);
  se_log : exists es e, events_of (w_events w) rid = log0 ++ es ++ [e] /\ ongoing es /\
             run_terminal_event (ctx_state (w_ctx w)) = Some (ev_type e);
  se_checkpoint : checkpoint_settled (w_ctx w) (w_checkpoints w);
  se_turn : turn_settled (ctx_state (w_ctx w)) (w_conversations w);
}.

(** What an execution that is over returns or raises. *)
Definition reported (err : option exn) (r : AgentResult) : outcome AgentResult :=
  match err with
  | Some e => if is_exception e then Ok r else Raise e
  | None => Ok r
  end.

Lemma close_run_settles store err (st : sys (World X)) :
  inv (sys_w st) -> ctx_state (w_ctx (sys_w st)) <> RUNNING -> (conv <> None -> store = true) ->
  exists st' r, close_run env strategy store err st = Some (st', reported err r) /\
    (settled (sys_w st') /\ st_ended (w_ctx (sys_w st'))) /\
    ctx_state (w_ctx (sys_w st')) = ctx_state (w_ctx (sys_w st)) /\
    build_result (w_ctx (sys_w st')) = Ok r.
Proof.
  intros Hi0 Hr0 Hstore.
  assert (exists st0, match st_settle strategy with Some settle => settle | None => ret tt end st
            = Some (st0, Ok tt) /\ inv (sys_w st0) /\
          ctx_state (w_ctx (sys_w st0)) = ctx_state (w_ctx (sys_w st)) /\ st_ended (w_ctx (sys_w st0)))
    as (st0 & E0 & Hi & Hs0 & Hended).
  { pose proof (settle_ended _ Hr0) as Hs. destruct (st_settle strategy) as [p|].
    - destruct (Hs st Hi0 eq_refl) as (st0 & [] & E & Hi & Hs0 & He). by exists st0.
    - by exists st. }
  unfold close_run. rewrite (bind_Ok _ _ _ _ _ E0). cbv beta. clear Hi0. rewrite <-Hs0 in Hr0 |- *.
  pose proof (inv_ctx _ _ _ _ _ _ Hi) as Hc.
  destruct (settled_state _ Hc Hr0) as (s & ty & Hs & Hty).
  assert (exists r, build_result (w_ctx (sys_w st0)) = Ok r) as [r Hres]
    by (unfold build_result; rewrite Hs; by eexists).
  destruct (settle_checkpoint_run st0 Hc) as (cps & E1 & Hcp).
  set (st1 := mk_sys (set_checkpoints cps (sys_w st0)) (S (sys_tick st0))) in *.
  assert (inv (sys_w st1)) as Hi1 by (destruct Hi; by split).
  destruct (settle_turn_run store st1 Hi1 Hr0 Hstore) as (cs & n2 & E2 & Hturn).
  set (st2 := mk_sys (set_conversations cs (sys_w st1)) n2) in *.
  destruct (finalize_run_run st2 ty) as (run & e & n3 & E3 & Hrid & Hcv & Htell & He);
    [apply Hc|exact (inv_run _ _ _ _ _ _ Hi)|done|].
  rewrite (bind_Ok _ _ _ st0 (w_ctx (sys_w st0))) by done. cbv beta.
  rewrite Hres. rewrite (bind_Ok _ _ _ st0 r) by done. cbv beta.
  rewrite (bind_Ok _ _ _ _ _ E1). cbv beta. rewrite (bind_Ok _ _ _ _ _ E2). cbv beta.
  rewrite (bind_Ok _ _ _ _ _ E3). cbv beta.
  eexists _, r. split.
  { unfold reported. destruct err as [x|]; [destruct (is_exception x)|]; reflexivity. }
  split; [|done]. split; [|exact Hended]. destruct (inv_log _ _ _ _ _ _ Hi) as (es & Hes & Hon).
  split; simpl; [exact Hc|exact Hr0| | |exact Hcp|exact Hturn].
  - exists run. by rewrite lookup_insert_eq.
  - exists es, e. rewrite log_of_insert. split_and!; [|done|by rewrite He].
    rewrite app_assoc. f_equal. exact Hes.
Qed.

(** *** Any Run *)

(** The executions that nothing refuses: of a new Run, with resources and
    memories that are configured consistently. *)
Definition accepted (w : World X) : Prop :=
  ResourceManager_check specs = Ok tt /\ MemoryManager_check memories = Ok tt /\
  ctx_state (w_ctx w) = CREATED /\ w_runs w !! rid = None.

Lemma open_run_opens ri conf (st : sys (World X)) :
  ready (sys_w st) ->
  exists st' o, open_run env services ri conf st = Some (st', o) /\
    match o with
    | Ok _ => inv (sys_w st') /\ ctx_state (w_ctx (sys_w st')) = RUNNING
    | Raise _ => untouched (sys_w st) (sys_w st') /\
        ~ (ctx_state (w_ctx (sys_w st)) = CREATED /\ w_runs (sys_w st) !! rid = None)
    end.
Proof.
  intros Hrd. unfold open_run. rewrite (bind_Ok ctx_get _ st st (w_ctx (sys_w st))) by done.
  cbv beta zeta.
  assert (ctx_state (w_ctx (sys_w st)) = CREATED \/ ctx_state (w_ctx (sys_w st)) = RUNNING ->
    exists st' o, start_run env (provider_name (sv_provider services)) st = Some (st', o) /\
    match o with
    | Ok _ => inv (sys_w st') /\ ctx_state (w_ctx (sys_w st')) = RUNNING
    | Raise _ => untouched (sys_w st) (sys_w st') /\
        ~ (ctx_state (w_ctx (sys_w st)) = CREATED /\ w_runs (sys_w st) !! rid = None)
    end) as Hnew.
  { intros Hs. destruct (w_runs (sys_w st) !! rid) as [r0|] eqn:Er.
    - destruct (new_run_total (env (sys_tick st)) _ Hrd (not_waiting _ Hs)) as (r & Hr & Hid & _).
      assert (exists e, create_run env st = Some (mk_sys (sys_w st) (S (sys_tick st)), Raise e))
        as [e E].
      { unfold create_run. rewrite (bind_Ok ctx_get _ st st (w_ctx (sys_w st))) by done.
        cbv beta. unfold bind at 1, call_store. rewrite Hr. simpl. unfold run_create.
        rewrite Hid, Er. simpl. by eexists. }
      eexists _, _. unfold start_run. rewrite (bind_Raise _ _ _ _ _ E). split; [reflexivity|].
      split; [by split_and!|]. by intros [_ ?].
    - destruct (start_run_opens (provider_name (sv_provider services)) st Hrd Er Hs)
        as (st' & E & Hx). by exists st', (Ok tt). }
  destruct (ctx_state (w_ctx (sys_w st))) eqn:Es; try (apply Hnew; tauto);
    try (eexists _, _; split; [reflexivity|]; split; [by split_and!|by intros [? _]]).
  assert (inv (sys_w st)) as Hi.
  { destruct Hrd as [[] _ Hst Hl Ht]. split; [|by apply Hst| |done].
    - split; auto. congruence.
    - exists []. rewrite app_nil_r. split; [done|constructor]. }
  destruct (prepare_resume_opens ri conf (provider_name (sv_provider services)) st Hi Es)
    as (st' & o & E & Ho).
  exists st', o. split; [done|]. destruct o; [done|]. split; [done|]. by intros [? _].
Qed.

(** Either the execution is refused before it touched a store, or it ends
    and settles its Run. *)
Lemma strategy_settles fuel store ri conf (st : sys (World X)) :
  ready (sys_w st) -> (conv <> None -> store = true) -> st_turns <= Z.of_nat fuel ->
  exists st' o,
    runtime_execute env specs memories services strategy fuel store ri conf st
      = Some (st', o) /\
    ((exists e, o = Raise e) /\ untouched (sys_w st) (sys_w st') /\ ~ accepted (sys_w st) \/
     (settled (sys_w st') /\ st_ended (w_ctx (sys_w st'))) /\
     match o with
     | Ok r => build_result (w_ctx (sys_w st')) = Ok r
     | Raise e => is_exception e = false /\ stopped (w_ctx (sys_w st'))
     end).
Proof.
  intros Hrd Hstore Hfuel. unfold runtime_execute.
  destruct (ResourceManager_check specs) as [[]|e1] eqn:E1.
  2: { eexists _, _. split; [reflexivity|]. left. split_and!; try done; [by eexists|].
       unfold accepted. rewrite E1. by intros [? _]. }
  rewrite (bind_Ok _ _ st st tt) by done. cbv beta.
  destruct (MemoryManager_check memories) as [[]|e2] eqn:E2.
  2: { eexists _, _. split; [reflexivity|]. left. split_and!; try done; [by eexists|].
       unfold accepted. rewrite E2. by intros (_ & ? & _). }
  rewrite (bind_Ok _ _ st st tt) by done. cbv beta.
  set (st1 := mk_sys (set_resources scope_new (sys_w st)) (sys_tick st)).
  rewrite (bind_Ok _ _ st st1 tt) by done. cbv beta.
  assert (ready (sys_w st1)) as Hrd1 by (destruct Hrd; by split).
  destruct (open_run_opens ri conf st1 Hrd1) as (st2 & o2 & E3 & Ho).
  destruct o2 as [[]|e].
  2: { destruct Ho as [Hun Hno]. eexists _, _. rewrite (bind_Raise _ _ _ _ _ E3).
       split; [reflexivity|]. left. split_and!; [by eexists|done..|]. intros (_ & _ & Hx). by apply Hno. }
  destruct Ho as [Hi2 Hs2]. rewrite (bind_Ok _ _ _ _ _ E3). cbv beta.
  destruct (sure_guarded_run fuel Hfuel st2 Hi2 I) as (st3 & err & E4 & Hi3 & Hs3 & Hstop).
  rewrite (bind_Ok _ _ _ _ _ E4). cbv beta.
  destruct (close_run_settles store err st3 Hi3 Hs3 Hstore) as (st4 & r & E5 & Hset & Hc & Hr).
  exists st4, (reported err r). split; [exact E5|]. right. split; [done|].
  unfold reported. destruct err as [e|]; [|done].
  destruct (is_exception e) eqn:Ee; [done|]. split; [done|]. unfold stopped. rewrite Hc.
  by apply (Hstop e).
Qed.
End Strategy.

(** ** [ModelToolStrategy] keeps the laws *)

(** Turns left: two for a step, one for a suspended batch. *)
Definition turns_left (c : RuntimeContext) : Z :=
  2 * (prof_max_steps prof - ctx_step_count c) + (if has_suspended_batch c then 1 else 0).

Lemma has_suspended_counters c c' :
  set_artifacts [] c' = set_artifacts [] c \/ only_counters c c' ->
  has_suspended_batch c' = has_suspended_batch c /\ ctx_step_count c' = ctx_step_count c.
Proof.
  intros [E|Ho].
  - destruct c, c'. simplify_eq/=. done.
  - rewrite (only_counters_eq _ _ Ho). unfold has_suspended_batch. simpl.
    destruct Ho as (_ & _ & Ho). by rewrite Ho.
Qed.

(** The step and the suspended batch of a context, as ghosts. *)
Lemma triple_turn {A} P (p : prog (World X) A) Q :
  (forall k s, RuntimeLogic.triple (X := X) rid prof log0 conv true
     (fun c => P c /\ ctx_step_count c = k /\ has_suspended_batch c = s) p Q) ->
  RuntimeLogic.triple (X := X) rid prof log0 conv true P p Q.
Proof.
  intros Hp st Hi HP.
  by apply (Hp (ctx_step_count (w_ctx (sys_w st))) (has_suspended_batch (w_ctx (sys_w st))) st Hi).
Qed.

(** The step and the suspended batch of a context. *)
Definition at_turn (k : Z) (s : bool) (c : RuntimeContext) : Prop :=
  ctx_step_count c = k /\ has_suspended_batch c = s.

(** A turn of [ModelToolStrategy], with the hooks of a strategy. *)
Definition turned (k : Z) (s : bool) (c : RuntimeContext) : Prop :=
  ctx_state c = RUNNING -> turn (k + 1) c \/ s = true /\ turn k c.

Lemma triple_model_tool hooks k s :
  HooksLaws rid prof log0 conv true hooks -> k < prof_max_steps prof ->
  RuntimeLogic.triple (X := X) rid prof log0 conv true (at_turn k s) (model_tool_advance env expires services hooks) (fun _ => turned k s).
Proof.
  intros Hl Hk.
  eapply triple_advance;
    [apply (pa_supervisor application)|apply (pa_services application)|exact Hl|exact Hk].
Qed.

(** The context after a turn has fewer turns left. *)
Lemma turned_left k s c :
  turned k s c -> ctx_state c = RUNNING ->
  turns_left c < 2 * (prof_max_steps prof - k) + (if s then 1 else 0).
Proof.
  intros Hc Hr. unfold turns_left. destruct (Hc Hr) as [[Hk Hb]|[-> [Hk Hb]]];
    rewrite Hk, (Hb Hr); [destruct s|]; lia.
Qed.

(** A step budget for [turns_left]. *)
Lemma triple_budget (p : prog (World X) unit) m :
  (forall k s, k < prof_max_steps prof -> RuntimeLogic.triple (X := X) rid prof log0 conv true (at_turn k s) p (fun _ => turned k s)) ->
  RuntimeLogic.triple (X := X) rid prof log0 conv true
    (fun c => turns_left c = m /\ ctx_step_count c < prof_max_steps prof) p
    (fun _ c => ctx_state c = RUNNING -> turns_left c < m).
Proof.
  intros Hp. apply triple_turn. intros k s.
  apply (triple_pre _ _ _ _ _ (fun c => (k < prof_max_steps prof /\
    2 * (prof_max_steps prof - k) + (if s then 1 else 0) = m) /\ at_turn k s c)).
  2: { intros c [[Hm Hlt] [Hk Hs]]. unfold turns_left in Hm. rewrite Hk, Hs in Hm.
       rewrite Hk in Hlt. done. }
  apply triple_fact. intros [Hk <-]. eapply triple_post; [by apply Hp|].
  intros [] c Hc. by apply turned_left.
Qed.

Lemma turns_left_bound c :
  ctx_ok rid prof conv true c -> 0 <= turns_left c < 2 * prof_max_steps prof + 2.
Proof.
  intros Hc. unfold turns_left. pose proof (ok_steps _ _ _ _ _ Hc).
  destruct (has_suspended_batch _); lia.
Qed.

Lemma turns_left_counters c c' :
  set_artifacts [] c' = set_artifacts [] c \/ only_counters c c' -> turns_left c' = turns_left c.
Proof. intros [Hb Hk]%has_suspended_counters. unfold turns_left. by rewrite Hb, Hk. Qed.

#[export, refine] Instance ModelTool_laws :
  StrategyLaws (ModelToolStrategy env expires services) := {
  st_measure := turns_left;
  st_turns := 2 * prof_max_steps prof + 2;
  st_ended := fun _ => True;
  measure_bound := turns_left_bound;
  measure_counters := turns_left_counters;
}.
Proof.
  - intros m. apply triple_budget. intros k s. apply triple_model_tool, ModelTool_hooks.
  - done.
Defined.
End EngineRun.

(** ** A new context is ready *)

Lemma create_context_ready {X} amb p prompt r conv seq history skills tools plan planning
  attachments metadata c (w : World X) :
  create_context amb p prompt (Some r) conv seq history skills tools plan planning attachments
    metadata = Ok c ->
  0 <= prof_max_steps p -> 0 <= prof_max_tool_calls p ->
  match seq with Some n => 1 <= n | None => True end ->
  (forall p, plan = Some p -> plan_valid p) ->
  w_ctx w = c ->
  match conv with Some cid => turn_open r cid (w_conversations w) | None => True end ->
  ready r p (events_of (w_events w) r) conv w.
Proof.
  unfold create_context. intros H Hs Hm Hseq Hplan Hw Ht.
  destruct (blank prompt); [done|]. destruct (negb (bool_decide (NoDup _))); [done|].
  destruct (existsb _ history); [done|].
  destruct (negb (Bool.eqb _ _)) eqn:Eb; [done|].
  destruct (negb (is_none plan) && planning); [done|].
  destruct (Message_system _) as [system|]; [|done].
  destruct (Message_user prompt) as [user|]; [|done].
  injection H as <-. split; rewrite ?Hw; simpl.
  - split; simpl; auto; try lia; try done.
    + exists (mk_sup_view None 0). split; [done|by right].
    + constructor.
  - destruct seq, conv; done || (split; done).
  - done.
  - done.
  - exact Ht.
Qed.
