(* ===== verification/RunHandle.v ===== *)
(** * Cancelling a Run from outside ([src/base_agent/run_handle.py])

    [request_cancellation] cancels a Run another task executes or that waits
    for input; [finalize_task_interruption] settles the Run of an execution
    whose own task was cancelled.  Both act on the stores only: the context
    of an execution is not theirs.  Handles and the streams of events they
    give are not modelled. *)

From Stdlib Require Import QArith.
From stdpp Require Import base gmap strings list.
From S2P Require Import Prelude Json Models Sha256 Plan StateMachine ConversationStore RunStore EventStore FlowModels Program Serial Runtime ModelTool Engine RuntimeLogic EngineRun.

(** [run.model_copy(update={"status": ..., "error": ..., "metadata": ...,
    "updated_at": ...}, deep=True)]. *)
Definition run_ended (r : Run) (status : RunStatus) (error : string) (metadata : jdict)
  (updated_at : time) : Run :=
  mk_Run (run_id r) (run_profile_id r) (run_conversation_id r) (run_turn_sequence r) status
    (run_step_count r) (run_tool_call_count r) (run_usage r) (run_skills r) (run_output r)
    (Some error) (run_cancel_requested r) (run_created_at r) updated_at metadata
    (run_attachments r) (run_artifacts r).

Section Handle.
Context {X : Type}.
Variable env : nat -> ambient.

Abbreviation M := (prog (World X)).

(** [run_store.get(run_id)]. *)
Definition get_run (rid : uuid) : M Run :=
  call_store env (fun _ w => let! r := run_get rid (w_runs w) in Ok (w, r)).

(** The statements both functions end with: the turn of the Run is closed,
    its snapshot stored, its checkpoint deleted, its last event emitted. *)
Definition close_stored (conversation_store : bool) (rid : uuid) (ended : Run) (ty : EventType)
  (data : jdict) : M unit :=
  do* match run_conversation_id ended with
      | Some cid =>
          if conversation_store then
            call_store env (fun amb w =>
              let! '(convs, _) := finish_turn amb cid rid (run_status ended) None (w_conversations w) in
              Ok (set_conversations convs w, tt))
          else ret tt
      | None => ret tt
      end in
  do* call_store env (fun _ w =>
        let! runs := run_save ended (w_runs w) in Ok (set_runs runs w, tt)) in
  do* call_store env (fun _ w => Ok (set_checkpoints (checkpoint_delete rid (w_checkpoints w)) w, tt)) in
  call_store env (fun amb w =>
    let! '(evs, _) := emit amb rid ty (Some data) (w_events w) in
    Ok (set_events evs w, tt)).

Definition waiting_cancelled_error : string := "run cancellation requested while waiting for input".

(** [request_cancellation]. *)
Definition request_cancellation (conversation_store : bool) (rid : uuid) : M Run :=
  let* existing := get_run rid in
  let* requested := call_store env (fun amb w =>
    let! '(runs, r) := run_request_cancel amb rid (w_runs w) in Ok (set_runs runs w, r)) in
  if negb (bool_decide (run_status existing = WAITING)) then ret requested
  else
    let* cancelled := call_store env (fun amb w =>
      Ok (w, run_ended requested CANCELLED waiting_cancelled_error (run_metadata requested)
               (amb_now amb 0))) in
    do* close_stored conversation_store rid cancelled EV_RUN_CANCELLED
          [("error", jopt JStr (run_error cancelled)); ("while_waiting", JBool true)] in
    ret cancelled.

(** [finalize_task_interruption]: [None] when no Run is stored. *)
Definition finalize_task_interruption (conversation_store : bool) (rid : uuid) : M (option Run) :=
  let* existing :=
    try_except (let* r := get_run rid in ret (Some r))
      (fun e => if isinstance e RunNotFoundError then Some (ret None) else None) in
  match existing with
  | None => ret None
  | Some existing =>
      if negb (bool_decide (run_status existing ∈ [CREATED; RUNNING; WAITING]))
      then ret (Some existing)
      else
        let requested := run_cancel_requested existing in
        let status := if requested then CANCELLED else INTERRUPTED in
        let error := if requested then "run cancellation requested"
                     else "runtime task interrupted" in
        let metadata :=
          if requested then run_metadata existing
          else dset "interruption"
                 (JObj [("source", JStr "asyncio_task_cancelled"); ("recoverable", JBool false)])
                 (run_metadata existing) in
        let* finalized := call_store env (fun amb w =>
          Ok (w, run_ended existing status error metadata (amb_now amb 0))) in
        do* close_stored conversation_store rid finalized
              (if requested then EV_RUN_CANCELLED else EV_RUN_INTERRUPTED)
              (("error", JStr error)
               :: if requested then [("cancel_source", JStr "requested")]
                  else [("interruption_source", JStr "asyncio_task_cancelled");
                        ("recoverable", JBool false)]) in
        ret (Some finalized)
  end.
End Handle.

(** ** Runs at rest

    A Run no task executes: its stores are settled for some context, which
    is the one its checkpoint restores when it waits. *)
Section Rest.
Context {X : Type}.
Variable env : nat -> ambient.
Variable rid : uuid.

Definition rests_as (prof : AgentProfile) (log0 : list RuntimeEvent) (conv : option uuid)
  (c : RuntimeContext) (w : World X) : Prop :=
  settled rid prof log0 conv (set_ctx c w).

Definition rests (w : World X) : Prop :=
  exists prof log0 conv c, rests_as prof log0 conv c w.

(** The context of a Run that was closed from outside. *)
Definition closed_context (status : RunStatus) (error : string) (c : RuntimeContext) : RuntimeContext :=
  set_error (Some error) (set_state_machine (mk_RuntimeStateMachine status) c).

Lemma call_store_Ok {A} (f : ambient -> World X -> outcome (World X * A)) (st : sys (World X)) w a :
  f (env (sys_tick st)) (sys_w st) = Ok (w, a) ->
  call_store env f st = Some (mk_sys w (S (sys_tick st)), Ok a).
Proof. unfold call_store. by intros ->. Qed.

Lemma call_store_Raise {A} (f : ambient -> World X -> outcome (World X * A)) (st : sys (World X)) e :
  f (env (sys_tick st)) (sys_w st) = Raise e ->
  call_store env f st = Some (mk_sys (sys_w st) (S (sys_tick st)), Raise e).
Proof. unfold call_store. by intros ->. Qed.

Lemma rests_ctx prof log0 conv c c' w :
  rests_as prof log0 conv c (set_ctx c' w) <-> rests_as prof log0 conv c w.
Proof. done. Qed.

Lemma get_run_Ok (st : sys (World X)) r :
  w_runs (sys_w st) !! rid = Some r ->
  get_run env rid st = Some (mk_sys (sys_w st) (S (sys_tick st)), Ok r).
Proof. intros Hr. apply call_store_Ok. unfold run_get. by rewrite Hr. Qed.

(** The cancellation flag of a stored Run is not part of what it tells. *)
Lemma rests_flag prof log0 conv c w r b t :
  rests_as prof log0 conv c w -> w_runs w !! rid = Some r ->
  rests_as prof log0 conv c (set_runs (<[rid := run_with_cancel r b t]> (w_runs w)) w).
Proof.
  intros [Hc He (r' & Hr' & Hid & Hcv & Ht) Hl Hcp Htn] Hr. simpl in *.
  assert (r' = r) as -> by congruence. split; simpl; try done. eexists. rewrite lookup_insert_eq. split_and!; try done.
  destruct Ht. by split.
Qed.

(** *** Closing a waiting Run

    Its checkpoint may be claimed: [cps] is a table that holds it. *)
Section Close.
Variable prof : AgentProfile.
Variable log0 : list RuntimeEvent.
Variable conv : option uuid.
Variable c : RuntimeContext.
Variable status : RunStatus.
Variable error : string.

Hypothesis final : status = CANCELLED \/ status = INTERRUPTED.
Hypothesis said : blank error = false.

Lemma final_over : status <> CREATED /\ status <> RUNNING /\ status <> WAITING.
Proof. destruct final as [E|E]; by rewrite E. Qed.

Lemma closed_context_ok :
  ctx_ok rid prof conv true c -> ctx_ok rid prof conv true (closed_context status error c).
Proof.
  pose proof final_over as (? & ? & ?). intros []. split; simpl; auto.
  - intros E. by apply (proj2 (proj2 final_over)) in E.
  - by intros e [= <-].
Qed.

(** The turn of a waiting Run can be closed. *)
Lemma close_waiting_turn (w : World X) amb m cid :
  rests_as prof log0 conv c w -> ctx_state c = WAITING -> conv = Some cid ->
  exists cs t, finish_turn amb cid rid status m (w_conversations w) = Ok (cs, t) /\
    turn_settled rid conv status cs.
Proof.
  intros Hrest Hw Hcv. pose proof final_over as (? & ? & ?). pose proof (se_turn _ _ _ _ _ Hrest) as Ht.
  unfold turn_settled in Ht. simpl in Ht. rewrite Hcv, Hw in Ht.
  destruct Ht as (v & i & t & Hv & Hi & Hti & _ & Ha).
  refine (finish_turn_total env (fun _ => false) rid conv amb cid status m (w_conversations w) _ Hcv _ _); try done.
  exists v, i, t. by rewrite bool_decide_eq_true_2 in Ha.
Qed.

Lemma close_stored_run store cps (st : sys (World X)) r metadata t ty data :
  rests_as prof log0 conv c (set_checkpoints cps (sys_w st)) -> ctx_state c = WAITING ->
  (conv <> None -> store = true) ->
  w_runs (sys_w st) !! rid = Some r -> run_terminal_event status = Some ty ->
  exists st', close_stored env store rid (run_ended r status error metadata t) ty data st
      = Some (st', Ok tt) /\
    w_ctx (sys_w st') = w_ctx (sys_w st) /\
    rests_as prof (events_of (w_events (sys_w st)) rid) conv (closed_context status error c) (sys_w st').
Proof.
  intros Hrest Hw Hstore Hr Hty. pose proof final_over as (? & ? & ?).
  pose proof Hrest as [Hc _ (r' & Hr' & Hid & Hcv & Ht) _ _ _]. simpl in *.
  assert (r' = r) as -> by congruence.
  assert (exists cs n, match run_conversation_id (run_ended r status error metadata t) with
      | Some cid => if store then
            call_store env (fun amb w =>
              let! '(convs, _) := finish_turn amb cid rid
                (run_status (run_ended r status error metadata t)) None (w_conversations w) in
              Ok (set_conversations convs w, tt))
          else ret tt
      | None => ret tt
      end st = Some (mk_sys (set_conversations cs (sys_w st)) n, Ok tt) /\
      turn_settled rid conv status cs) as (cs & n & E1 & Hturn).
  { simpl. rewrite Hcv. assert (exists cv, conv = cv) as [[cid|] Ecv] by (by eexists); rewrite Ecv.
    - rewrite Hstore by (by rewrite Ecv).
      destruct (close_waiting_turn (set_checkpoints cps (sys_w st)) (env (sys_tick st)) None cid Hrest Hw Ecv)
        as (cs & t' & E & Hs). simpl in E.
      eexists cs, _. split; [|by rewrite <-Ecv]. apply call_store_Ok. simpl. by rewrite E.
    - eexists (w_conversations (sys_w st)), (sys_tick st). split; [by destruct st as [[] ?]|done]. }
  unfold close_stored. rewrite (bind_Ok _ _ _ _ _ E1). cbv beta.
  set (st1 := mk_sys _ n).
  set (stored := run_ended r status error metadata t).
  rewrite (bind_Ok _ _ st1 (mk_sys (set_runs (<[rid := stored]> (w_runs (sys_w st))) (sys_w st1)) (S n)) tt).
  2: { apply call_store_Ok. unfold run_save. simpl. by rewrite Hid, Hr, andb_negb_r. }
  cbv beta. set (st2 := mk_sys _ (S n)).
  rewrite (bind_Ok _ _ st2 (mk_sys (set_checkpoints (checkpoint_delete rid
    (w_checkpoints (sys_w st2))) (sys_w st2)) (S (S n))) tt) by (by apply call_store_Ok).
  cbv beta. set (st3 := mk_sys _ (S (S n))).
  destruct (emit_run rid (env (sys_tick st3)) ty data (w_events (sys_w st3))) as (e & Ee & Hety).
  eexists. split; [apply call_store_Ok; by rewrite Ee|]. split; [done|].
  assert (ctx_state (closed_context status error c) = status) as Hst by done.
  split; simpl; rewrite ?Hst.
  - by apply closed_context_ok.
  - done.
  - exists stored. rewrite lookup_insert_eq. destruct Ht. split_and!; done.
  - exists [], e. rewrite log_of_insert. split_and!; [done|constructor|by rewrite Hety].
  - unfold checkpoint_settled. rewrite Hst, bool_decide_eq_false_2 by done.
    apply lookup_delete_eq.
  - done.
Qed.
End Close.

Lemma set_checkpoints_id (w : World X) : set_checkpoints (w_checkpoints w) w = w.
Proof. by destruct w. Qed.

Lemma rests_cancellable prof log0 conv c w r :
  rests_as prof log0 conv c w -> w_runs w !! rid = Some r ->
  run_status r = ctx_state c /\
  (run_status r ∈ [CREATED; RUNNING; WAITING] <-> ctx_state c = WAITING).
Proof.
  intros [Hc He (r' & Hr' & _ & _ & Ht) _ _ _] Hr. simpl in *.
  assert (r' = r) as -> by congruence. rewrite (rt_status _ _ Ht). split; [done|].
  rewrite !elem_of_cons, elem_of_nil. pose proof (ok_state _ _ _ _ _ Hc eq_refl).
  naive_solver.
Qed.

(** Cancelling a Run that waits. *)
Lemma request_cancellation_waiting prof log0 conv c store (st : sys (World X)) :
  rests_as prof log0 conv c (sys_w st) -> ctx_state c = WAITING -> (conv <> None -> store = true) ->
  exists st' r, request_cancellation env store rid st = Some (st', Ok r) /\
    run_status r = CANCELLED /\ w_ctx (sys_w st') = w_ctx (sys_w st) /\
    rests_as prof (events_of (w_events (sys_w st)) rid) conv
      (closed_context CANCELLED waiting_cancelled_error c) (sys_w st').
Proof.
  intros Hrest Hw Hstore. pose proof (se_run _ _ _ _ _ Hrest) as (r & Hr & _). simpl in Hr.
  destruct (rests_cancellable _ _ _ _ _ _ Hrest Hr) as [Hst Hin].
  unfold request_cancellation. rewrite (bind_Ok _ _ _ _ _ (get_run_Ok st r Hr)). cbv beta.
  set (st1 := mk_sys (sys_w st) _).
  set (requested := run_with_cancel r true (amb_now (env (sys_tick st1)) 0)).
  set (st2 := mk_sys (set_runs (<[rid := requested]> (w_runs (sys_w st))) (sys_w st)) (S (sys_tick st1))).
  rewrite (bind_Ok _ _ st1 st2 requested).
  2: { apply call_store_Ok. unfold run_request_cancel. simpl. rewrite Hr.
       by rewrite bool_decide_eq_true_2 by (by apply Hin). }
  cbv beta. rewrite Hst, bool_decide_eq_true_2 by done. cbv beta iota delta [negb].
  set (t := amb_now (env (sys_tick st2)) 0).
  set (cancelled := run_ended requested CANCELLED waiting_cancelled_error (run_metadata requested) t).
  set (st3 := mk_sys (sys_w st2) (S (sys_tick st2))).
  rewrite (bind_Ok _ _ st2 st3 cancelled) by (by apply call_store_Ok).
  cbv beta.
  destruct (close_stored_run prof log0 conv c CANCELLED waiting_cancelled_error (or_introl eq_refl)
    eq_refl store (w_checkpoints (sys_w st)) st3 requested (run_metadata requested) t EV_RUN_CANCELLED
    [("error", jopt JStr (run_error cancelled)); ("while_waiting", JBool true)])
    as (st' & E & Hc & Hrest'); try done.
  - exact (rests_flag prof log0 conv c _ _ true _ Hrest Hr).
  - simpl. by rewrite lookup_insert_eq.
  - exists st', cancelled. fold cancelled in E. by rewrite (bind_Ok _ _ _ _ _ E).
Qed.

(** A Run that ended is not cancelled any more. *)
Lemma request_cancellation_ended prof log0 conv c store (st : sys (World X)) :
  rests_as prof log0 conv c (sys_w st) -> ctx_state c <> WAITING ->
  exists st' m, request_cancellation env store rid st = Some (st', Raise (Exn RunNotCancellableError m)) /\
    sys_w st' = sys_w st.
Proof.
  intros Hrest Hw. pose proof (se_run _ _ _ _ _ Hrest) as (r & Hr & _). simpl in Hr.
  destruct (rests_cancellable _ _ _ _ _ _ Hrest Hr) as [Hst Hin].
  unfold request_cancellation. rewrite (bind_Ok _ _ _ _ _ (get_run_Ok st r Hr)). cbv beta.
  eexists _, _. split.
  - apply bind_Raise, call_store_Raise. unfold run_request_cancel. simpl. rewrite Hr.
    rewrite bool_decide_eq_false_2 by (by rewrite Hin). reflexivity.
  - done.
Qed.

(** A Run some task executes: its flag is set and nothing else happens, so
    that the execution goes on as with any peaceful neighbour. *)
Lemma request_cancellation_running store (st : sys (World X)) r :
  w_runs (sys_w st) !! rid = Some r -> run_status r = CREATED \/ run_status r = RUNNING ->
  exists st' t, request_cancellation env store rid st = Some (st', Ok (run_with_cancel r true t)) /\
    sys_w st' = set_runs (<[rid := run_with_cancel r true t]> (w_runs (sys_w st))) (sys_w st) /\
    peaceful rid (sys_w st) (sys_w st').
Proof.
  intros Hr Hs. unfold request_cancellation. rewrite (bind_Ok _ _ _ _ _ (get_run_Ok st r Hr)). cbv beta.
  eexists (mk_sys (set_runs (<[rid := _]> (w_runs (sys_w st))) (sys_w st)) (S (S (sys_tick st)))), _.
  split.
  - erewrite bind_Ok.
    2: { apply call_store_Ok. unfold run_request_cancel. simpl. rewrite Hr.
         rewrite bool_decide_eq_true_2; [reflexivity|].
         rewrite !elem_of_cons. tauto. }
    cbv beta. rewrite bool_decide_eq_false_2; [reflexivity|]. by destruct Hs as [-> | ->].
  - split; [done|]. split; simpl; [by destruct (sys_w st) as []; destruct w_ctx| | |done].
    + intros cv (r' & Hr' & Hid & Hcv). assert (r' = r) as -> by congruence.
      eexists. split; [apply lookup_insert_eq|done].
    + exists []. rewrite app_nil_r. split; [done|constructor].
Qed.

(** *** An interrupted task *)

Lemma get_run_None (st : sys (World X)) :
  w_runs (sys_w st) !! rid = None ->
  get_run env rid st = Some (mk_sys (sys_w st) (S (sys_tick st)), Raise (run_not_found rid)).
Proof. intros Hr. apply call_store_Raise. unfold run_get. by rewrite Hr. Qed.

Lemma finalize_unknown store (st : sys (World X)) :
  w_runs (sys_w st) !! rid = None ->
  exists n, finalize_task_interruption env store rid st = Some (mk_sys (sys_w st) n, Ok None).
Proof.
  intros Hr. unfold finalize_task_interruption, try_except, bind. rewrite get_run_None by done.
  by eexists.
Qed.

Lemma finalize_ended prof log0 conv c store (st : sys (World X)) :
  rests_as prof log0 conv c (sys_w st) -> ctx_state c <> WAITING ->
  exists n r, finalize_task_interruption env store rid st = Some (mk_sys (sys_w st) n, Ok (Some r)).
Proof.
  intros Hrest Hw. pose proof (se_run _ _ _ _ _ Hrest) as (r & Hr & _). simpl in Hr.
  destruct (rests_cancellable _ _ _ _ _ _ Hrest Hr) as [Hst Hin].
  unfold finalize_task_interruption, try_except, bind. rewrite (get_run_Ok st r Hr).
  simpl. rewrite bool_decide_eq_false_2 by (by rewrite Hin). by eexists _, _.
Qed.

(** A waiting Run, its checkpoint claimed or not. *)
Lemma finalize_waiting prof log0 conv c cps store (st : sys (World X)) :
  rests_as prof log0 conv c (set_checkpoints cps (sys_w st)) -> ctx_state c = WAITING ->
  (conv <> None -> store = true) ->
  exists st' r status error,
    finalize_task_interruption env store rid st = Some (st', Ok (Some r)) /\
    (status = CANCELLED \/ status = INTERRUPTED) /\ w_ctx (sys_w st') = w_ctx (sys_w st) /\
    rests_as prof (events_of (w_events (sys_w st)) rid) conv (closed_context status error c) (sys_w st').
Proof.
  intros Hrest Hw Hstore. pose proof (se_run _ _ _ _ _ Hrest) as (r & Hr & _). simpl in Hr.
  destruct (rests_cancellable _ _ _ _ _ _ Hrest Hr) as [Hst Hin].
  unfold finalize_task_interruption. set (st1 := mk_sys (sys_w st) (S (sys_tick st))).
  rewrite (bind_Ok _ _ st st1 (Some r)).
  2: { unfold try_except, bind. by rewrite (get_run_Ok st r Hr). }
  cbv beta iota zeta. rewrite bool_decide_eq_true_2 by (by apply Hin). cbv beta iota delta [negb].
  set (requested := run_cancel_requested r).
  set (status := if requested then CANCELLED else INTERRUPTED).
  set (error := if requested then "run cancellation requested" else "runtime task interrupted").
  set (metadata := if requested then _ else _). set (data := _ :: _).
  set (t := amb_now (env (sys_tick st1)) 0).
  rewrite (bind_Ok _ _ st1 (mk_sys (sys_w st1) (S (sys_tick st1))) (run_ended r status error metadata t))
    by (by apply call_store_Ok).
  cbv beta. set (st2 := mk_sys _ _).
  assert (status = CANCELLED \/ status = INTERRUPTED) as Hfin
    by (unfold status; destruct requested; tauto).
  destruct (close_stored_run prof log0 conv c status error Hfin) with (store := store) (cps := cps)
    (st := st2) (r := r) (metadata := metadata) (t := t) (data := data)
    (ty := if requested then EV_RUN_CANCELLED else EV_RUN_INTERRUPTED) as (st' & E & Hc & Hrest');
    try done; [by unfold error; destruct requested|by unfold status; destruct requested|].
  exists st', (run_ended r status error metadata t), status, error.
  rewrite (bind_Ok _ _ _ _ _ E). by split_and!.
Qed.
End Rest.
