(* ===== verification/React.v ===== *)
(** * The ReAct strategy ([src/base_agent/orchestration/react.py])

    A subclass of [ModelToolStrategy]: it bounds the iterations of the loop,
    reports them as events, and takes a structured result from the model.
    The strategy keeps its state in the context's [supervision_data]; the
    operations on that dict are here, as [PlanExecution] shares them. *)

From Stdlib Require Import QArith.
From stdpp Require Import base gmap strings list.
From S2P Require Import Prelude Json Models Sha256 Plan Serial StateMachine ConversationStore RunStore EventStore FlowModels SideEffects Program Runtime Resources Supervision ToolExecutor ModelTool Engine.

(** ** The state dict of a strategy *)

(** [not value] is [negb (truthy value)]. *)
Definition truthy (j : json) : bool :=
  match j with
  | JNull => false
  | JBool b => b
  | JInt z => negb (z =? 0)
  | JFloat q => negb (Qeq_bool q 0)
  | JStr s => negb (is_empty s)
  | JArr l => match l with [] => false | _ => true end
  | JObj d => match d with [] => false | _ => true end
  end.

(** [value.get(key)]: only a dict has the method. *)
Definition json_get (key : string) (j : json) : outcome (option json) :=
  match j with
  | JObj d => Ok (dget key d)
  | _ => Raise (Exn (UserException "AttributeError")
                  (fstr ["'"; json_type_name j; "' object has no attribute 'get'"]))
  end.

(** [value[key] = item]. *)
Definition json_set_item (key : string) (item j : json) : outcome json :=
  match j with
  | JObj d => Ok (JObj (dset key item d))
  | JArr _ => Raise (Exn ExTypeError "list indices must be integers or slices, not str")
  | _ => Raise (Exn ExTypeError
                  (fstr ["'"; json_type_name j; "' object does not support item assignment"]))
  end.

(** [int(state.get(key, 0))]. *)
Definition get_int (key : string) (j : json) : outcome Z :=
  let! v := json_get key j in
  py_int (default (JInt 0) v).

Section State.
Context {X : Type}.
Abbreviation M := (prog (World X)).

(** [context.supervision_data.setdefault(key, initial)]. *)
Definition setdefault (key : string) (initial : RuntimeContext -> json) : M json :=
let* c := ctx_get in
match dget key (ctx_supervision_data c) with
| Some v => ret v
| None =>
    do* ctx_put (fun c => set_supervision_data
                            (dset key (initial c) (ctx_supervision_data c)) c) in
    ret (initial c)
end.

(** [context.supervision_data[key]]. *)
Definition supervision_item (key : string) : M json :=
let* c := ctx_get in
of_outcome (json_item key (JObj (ctx_supervision_data c))).

(** An assignment to the dict stored under [key], which the local variable
  [state] of the source is an alias of. *)
Definition update_state (key : string) (f : json -> outcome json) : M unit :=
let* j := supervision_item key in
let* j' := of_outcome (f j) in
ctx_put (fun c => set_supervision_data (dset key j' (ctx_supervision_data c)) c).
End State.

(** ** What the model answers *)

(** [json.loads] of a text, and pydantic's reading of the values of a
    model's fields from data; the constraints a model of this program
    declares are checked by its own [_new]. *)
Record ReActResult := mk_ReActResult {
  rr_success : bool;
  rr_result : string;
  rr_attachments : list string;
}.

Class ModelText := {
  json_loads : string -> outcome json;
  ReActResult_read : json -> outcome ReActResult;
  PlanStep_read : json -> outcome PlanStep;
  ExecutionPlan_read : json -> outcome ExecutionPlan;
}.

Definition ReActResult_dump (r : ReActResult) : json :=
  JObj [("success", JBool (rr_success r)); ("result", JStr (rr_result r));
        ("attachments", jlist JStr (rr_attachments r))].

(** [str.splitlines()]: [line] is the line so far, in reverse; a carriage
    return and the line feed after it end one line. *)
Definition ends_line (a : Ascii.ascii) : bool :=
  let n := Ascii.N_of_ascii a in
  bool_decide (n ∈ [10; 11; 12; 13; 28; 29; 30; 133]%N).

Fixpoint splitlines_from (line : string) (after_cr : bool) (s : string) : list string :=
  match s with
  | EmptyString => if is_empty line then [] else [String.rev line]
  | String a s' =>
      if after_cr && bool_decide (a = Ascii.ascii_of_N 10) then splitlines_from line false s'
      else if ends_line a
      then String.rev line :: splitlines_from EmptyString (bool_decide (a = Ascii.ascii_of_N 13)) s'
      else splitlines_from (String a line) false s'
  end.
Definition splitlines (s : string) : list string := splitlines_from EmptyString false s.

Definition text_of_codes (l : list N) : string :=
  fold_right (fun n s => String (Ascii.ascii_of_N n) s) EmptyString l.

Example splitlines_examples :
  map splitlines [""; text_of_codes [97; 10; 98]%N; text_of_codes [97; 13; 10; 10]%N;
                  text_of_codes [10; 97; 13]%N]
  = [[]; ["a"; "b"]; ["a"; ""]; [""; "a"]].
Proof. vm_compute. reflexivity. Qed.

(** [s[4:]]. *)
Definition drop_chars (n : nat) (s : string) : string :=
  String.substring n (String.length s - n) s.

(** The content of a fenced block, or the text itself. *)
Definition unfence (content : string) : string :=
  let fence := "```" in
  let candidate := strip content in
  if String.prefix fence candidate then
    let lines := splitlines candidate in
    if (3 <=? Z.of_nat (length lines)) && bool_decide (strip (List.last lines "") = fence) then
      let body := String.concat newline (removelast (tail lines)) in
      if String.prefix "json" (lstrip body) then lstrip (drop_chars 4 (lstrip body)) else body
    else candidate
  else candidate.

Example unfence_examples :
  map unfence [" {} ";
               String.concat newline ["```json"; "{"; "}"; "```"];
               String.concat newline ["```"; "json {}"; "``` "];
               "```{}```"]
  = ["{}"; String.concat newline ["{"; "}"]; "{}"; "```{}```"].
Proof. vm_compute. reflexivity. Qed.

(** [_parse_result]. *)
Definition parse_react_result `{ModelText} (content : string) : outcome ReActResult :=
  let! payload := json_loads (unfence content) in
  match payload with
  | JObj _ => ReActResult_read payload
  | _ => Raise (Exn ExTypeError "ReAct response must be a JSON object")
  end.

(** ** The strategy *)

Definition react_key : string := "react_strategy".

(** [_instructions]. *)
Definition react_instructions : string :=
  String.concat newline
    ["Use an iterative ReAct process to complete the task.";
     "Analyze the current state, choose the necessary tool actions, observe their results, and repeat until the task is complete.";
     "Independent tool calls may be emitted in one action batch. Calls that depend on an earlier result must wait for a later iteration.";
     fstr ["Do not reveal private chain-of-thought. Tool calls express actions. When complete, return JSON only as {";
           json_quote "success"; ":true,"; json_quote "result"; ":"; json_quote "final result"; ",";
           json_quote "attachments"; ":[]}."]].

(** [_event_data]. *)
Definition react_event_data (state : json) : outcome jdict :=
  let! n := json_get "iteration" state in
  Ok [("iteration", default (JInt 0) n)].

(** The [actions] and [observations] of the batch events. *)
Definition action_summary (call : ToolCall) : json :=
  JObj [("call_id", JStr (call_id call)); ("tool_name", JStr (call_name call))].
Definition observation_summary (o : ToolObservation) : json :=
  JObj [("call_id", JStr (call_id (fst o))); ("tool_name", JStr (call_name (fst o)));
        ("status", JStr (ToolResultStatus_value (res_status (snd o))));
        ("error_code", jopt JStr (res_error_code (snd o)))].

Section Strategy.
Context `{JsonFloat} `{Validators} `{ModelText} {X : Type}.
Variable env : nat -> ambient.
Variable expires : nat -> bool.
Variable services : RuntimeServices X.
Variable max_iterations : Z.

Abbreviation M := (prog (World X)).

(** An event about the current iteration. *)
Definition emit_iteration (ty : EventType) (more : jdict) : M unit :=
let* state := supervision_item react_key in
let* data := of_outcome (react_event_data state) in
emit_event env ty (dmerge data more).

(** [_complete_response]. *)
Definition react_complete_response (content : string) : M unit :=
let fail := hk_fail_execution (default_hooks services) in
let* result := try_except
  (let* r := of_outcome (parse_react_result content) in ret (Some r))
  (fun e =>
     if isinstance e ExValueError || isinstance e ExTypeError then
       Some (do* fail (fstr ["model generated an invalid ReAct result: "; exn_str e]) in ret None)
     else None) in
match result with
| None => ret tt
| Some result =>
    do* update_state react_key (json_set_item "result" (ReActResult_dump result)) in
    do* ctx_put (set_output (Some (rr_result result))) in
    ctx_do (ctx_transition COMPLETED)
end.

(** [_before_model_request]. *)
Definition react_before_model_request : M unit :=
do* update_state react_key (fun state =>
      let! n := get_int "iteration" state in
      json_set_item "iteration" (JInt (n + 1)) state) in
emit_iteration EV_REACT_ITERATION_STARTED [].

Definition react_hooks : Hooks X :=
mk_Hooks
  (hk_select_tool_calls (default_hooks services))
  react_before_model_request
  (fun calls => emit_iteration EV_REACT_ACTION_BATCH_SELECTED
                  [("actions", jlist action_summary calls)])
  (fun seen => emit_iteration EV_REACT_OBSERVATION_BATCH_RECORDED
                 [("observations", jlist observation_summary seen)])
  (fun response acted => emit_iteration EV_REACT_ITERATION_COMPLETED
     [("had_actions", JBool acted); ("finish_reason", jopt JStr (mr_finish_reason response))])
  (hk_tool_definitions (default_hooks services))
  react_complete_response
  (hk_fail_execution (default_hooks services))
  (hk_wait_for_input (default_hooks services)).

(** The first message, with the instructions. *)
Definition add_instructions : M unit :=
let* c := ctx_get in
match ctx_messages c with
| [] => throw (Exn (UserException "IndexError") "list index out of range")
| first :: rest =>
    match msg_content first with
    | None => throw (value_error ["ReActStrategy requires a textual System Prompt"])
    | Some content =>
        let* m := of_outcome (Message_system (fstr [content; newline; newline; react_instructions])) in
        do* ctx_put (set_messages (m :: rest)) in
        do* update_state react_key (json_set_item "prompt_added" (JBool true)) in
        save_context_snapshot env
    end
end.

(** [advance]. *)
Definition react_advance : M unit :=
let* state := setdefault react_key
                (fun _ => JObj [("iteration", JInt 0); ("prompt_added", JBool false)]) in
let* added := of_outcome (json_get "prompt_added" state) in
do* (if truthy (default JNull added) then ret tt else add_instructions) in
let* n := of_outcome (get_int "iteration" state) in
let* c := ctx_get in
if (max_iterations <=? n) && negb (has_suspended_batch c) then
  hk_fail_execution react_hooks
    (fstr ["ReAct iteration limit reached ("; zstr max_iterations; ")"])
else model_tool_advance env expires services react_hooks.

Definition ReActStrategy : Strategy X := mk_Strategy react_advance None.
End Strategy.

(** [ReActStrategy(max_iterations=...)]. *)
Definition ReActStrategy_check (max_iterations : Z) : outcome unit :=
  raise_when max_iterations <? 1 as value_error ["max_iterations must be at least 1"] in
  Ok tt.
