(* ===== verification/Skills.v ===== *)
(** * Skills ([src/base_agent/skills/loader.py], [skills/registry.py],
    [skills/validator.py], and the part of [src/base_agent/agent.py] that
    chooses the tools of a Run)

    A Skill is a file with YAML front matter; the registry discovers the
    manifests and loads the instructions on demand.  The file system and
    [yaml.safe_load] are the interface [SkillFiles]. *)

From Stdlib Require Import QArith.
From stdpp Require Import base gmap strings list.
From S2P Require Import Prelude Json Models Sha256 Plan StateMachine ConversationStore RunStore EventStore FlowModels Program Serial Runtime Resources Supervision ToolExecutor ModelTool Engine React.

(** ** Files of text *)

Definition line_feed : Ascii.ascii := Ascii.ascii_of_N 10.
Definition carriage_return : Ascii.ascii := Ascii.ascii_of_N 13.

(** What a file opened as text reads of its content: every line end is a
    line feed. *)
Fixpoint universal_newlines (s : string) : string :=
  match s with
  | EmptyString => EmptyString
  | String a s' =>
      if bool_decide (a = carriage_return) then
        match s' with
        | String b s'' =>
            if bool_decide (b = line_feed) then universal_newlines s'
            else String line_feed (universal_newlines s')
        | EmptyString => String line_feed EmptyString
        end
      else String a (universal_newlines s')
  end.

(** The lines a file object yields, each with its line feed. *)
Fixpoint file_lines_from (line s : string) : list string :=
  match s with
  | EmptyString => if is_empty line then [] else [String.rev line]
  | String a s' =>
      if bool_decide (a = line_feed)
      then String.rev (String a line) :: file_lines_from EmptyString s'
      else file_lines_from (String a line) s'
  end.
Definition file_lines (s : string) : list string := file_lines_from EmptyString s.

(** ** [SkillLoader] *)

Definition skill_filename : string := "SKILL.md".
Definition delimiter : string := "---".

Definition invalid_skill (parts : list string) : exn := Exn InvalidSkillError (fstr parts).

Definition no_front_matter (file : string) : exn :=
  invalid_skill ["'"; file; "' must start with YAML front matter"].
Definition no_delimiter (file : string) : exn :=
  invalid_skill ["'"; file; "' has no closing front matter delimiter"].

(** The lines before the first delimiter, and those after it. *)
Fixpoint until_delimiter (lines : list string) : option (list string * list string) :=
  match lines with
  | [] => None
  | line :: lines' =>
      if bool_decide (strip line = delimiter) then Some ([], lines')
      else (fun '(before, after) => (line :: before, after)) <$> until_delimiter lines'
  end.

(** [_read_front_matter]: [readline] gives the empty text at the end. *)
Definition read_front_matter (file text : string) : outcome string :=
  let lines := file_lines text in
  raise_when negb (bool_decide (strip (hd EmptyString lines) = delimiter)) as no_front_matter file in
  match until_delimiter (tail lines) with
  | Some (before, _) => Ok (String.concat "" before)
  | None => Raise (no_delimiter file)
  end.

(** [_split_document]. *)
Definition split_document (file text : string) : outcome (string * string) :=
  let lines := splitlines text in
  raise_when bool_decide (lines = []) || negb (bool_decide (strip (hd EmptyString lines) = delimiter))
    as no_front_matter file in
  match until_delimiter (tail lines) with
  | Some (before, after) => Ok (String.concat newline before, String.concat newline after)
  | None => Raise (no_delimiter file)
  end.

(** The file system (paths are texts, [/] joining them), the parser of YAML
    (a text is the one of a [YAMLError]) and pydantic's reading of a manifest. *)
Class SkillFiles := {
  is_dir : string -> bool;
  is_file : string -> bool;
  resolve : string -> string;
  read_file : string -> outcome string;
  skill_files_below : string -> list string;
  yaml_safe_load : string -> string + json;
  SkillManifest_read : json -> outcome SkillManifest;
}.

Section Loader.
Context `{SkillFiles}.

Definition skill_path (path : string) : string :=
  if is_dir path then path +:+ "/" +:+ skill_filename else path.

(** [_resolve_file]. *)
Definition resolve_file (path : string) : outcome string :=
  raise_when negb (is_file (skill_path path))
    as invalid_skill ["Skill file '"; skill_path path; "' does not exist"] in
  Ok (resolve (skill_path path)).

Definition file_text (file : string) : outcome string :=
  let! raw := read_file file in
  Ok (universal_newlines raw).

(** [load_manifest]. *)
Definition load_manifest (path : string) : outcome SkillManifest :=
  let! file := resolve_file path in
  let! text := file_text file in
  let! front := read_front_matter file text in
  match yaml_safe_load front with
  | inl why => Raise (invalid_skill ["invalid YAML in '"; file; "': "; why])
  | inr (JObj d) =>
      match (let! m := SkillManifest_read (JObj d) in SkillManifest_new m) with
      | Ok m => Ok m
      | Raise e =>
          if isinstance e ValidationError
          then Raise (invalid_skill ["invalid Skill manifest in '"; file; "': "; exn_str e])
          else Raise e
      end
  | inr _ => Raise (invalid_skill ["Skill manifest in '"; file; "' must be a mapping"])
  end.

(** [load]. *)
Definition load_skill (path : string) : outcome Skill :=
  let! file := resolve_file path in
  let! text := file_text file in
  let! '(_, instructions) := split_document file text in
  let normalized := strip instructions in
  raise_when is_empty normalized
    as invalid_skill ["Skill instructions in '"; file; "' must not be empty"] in
  let! m := load_manifest file in
  Ok (mk_Skill m normalized file).

(** ** [SkillRegistry] *)

Record Registration := mk_Registration { reg_manifest : SkillManifest; reg_path : string }.

Definition SkillRegistry := list (string * Registration).

(** [register_path]. *)
Definition register_path (path : string) (r : SkillRegistry) : outcome (SkillRegistry * SkillManifest) :=
  let! m := load_manifest path in
  match dget (man_name m) r with
  | Some existing =>
      Raise (Exn DuplicateSkillError
               (fstr ["Skill '"; man_name m; "' is already registered from '"; reg_path existing; "'"]))
  | None => Ok (dset (man_name m) (mk_Registration m (resolve (skill_path path))) r, m)
  end.

(** [from_directory]. *)
Fixpoint register_all (paths : list string) (r : SkillRegistry) : outcome SkillRegistry :=
  match paths with
  | [] => Ok r
  | path :: paths' => let! '(r, _) := register_path path r in register_all paths' r
  end.

Definition registry_from_directory (root : string) : outcome SkillRegistry :=
  raise_when negb (is_dir root)
    as value_error ["Skill directory '"; root; "' does not exist"] in
  register_all (sorted_by string_leb (skill_files_below root)) [].

Definition skill_not_found (name : string) : exn :=
  Exn SkillNotFoundError (fstr ["Skill '"; name; "' is not registered"]).

(** [manifest], [load], [select]. *)
Definition registry_manifest (name : string) (r : SkillRegistry) : outcome SkillManifest :=
  match dget name r with
  | Some g => Ok (reg_manifest g)
  | None => Raise (skill_not_found name)
  end.

Definition registry_load (name : string) (r : SkillRegistry) : outcome Skill :=
  match dget name r with
  | Some g => load_skill (reg_path g)
  | None => Raise (skill_not_found name)
  end.

Definition registry_select (names : list string) (r : SkillRegistry) : outcome (list Skill) :=
  traverse (fun name => registry_load name r) names.

(** ** Validation *)

(** [", ".join(sorted(set(l) - set(m)))]. *)
Definition sorted_names (l : list string) : string :=
  String.concat ", " (sorted_by string_leb (remove_dups l)).

Definition without (l m : list string) : list string :=
  List.filter (fun x => negb (bool_decide (x ∈ m))) l.

Context {X : Type}.

(** The checks of one selected Skill. *)
Definition check_skill (p : AgentProfile) (tools : list (string * Tool X)) (s : Skill) : outcome unit :=
  let m := skill_manifest s in
  let unavailable := without (man_allowed_tools m) (prof_tools p) in
  raise_when negb (bool_decide (unavailable = []))
    as Exn SkillRequirementsError
         (fstr ["Skill '"; man_name m; "' tools are not enabled by AgentProfile: ";
                sorted_names unavailable]) in
  let! _ := tools_require (man_required_tools m) tools in
  let missing := elements (man_required_permissions m ∖ prof_permissions p) in
  raise_when negb (bool_decide (missing = []))
    as Exn SkillRequirementsError
         (fstr ["Skill '"; man_name m; "' missing permissions: "; sorted_names missing]) in
  Ok tt.

(** [select_and_validate_skills]. *)
Definition select_and_validate_skills (names : list string) (p : AgentProfile) (r : SkillRegistry)
  (tools : list (string * Tool X)) : outcome (list Skill) :=
  raise_when negb (bool_decide (NoDup names))
    as Exn SkillRequirementsError "selected skills must not contain duplicates" in
  let disabled := without names (prof_skills p) in
  raise_when negb (bool_decide (disabled = []))
    as Exn SkillNotEnabledError
         (fstr ["skills not enabled by AgentProfile: "; sorted_names disabled]) in
  let! selected := registry_select names r in
  let! _ := traverse (check_skill p tools) selected in
  Ok selected.
End Loader.

(** [Agent._enabled_tools]. *)
Definition enabled_tools (p : AgentProfile) (skills : list Skill) : list string :=
  match skills with
  | [] => prof_tools p
  | _ =>
      let allowed := concat (map (fun s => man_allowed_tools (skill_manifest s)) skills) in
      List.filter (fun name => bool_decide (name ∈ allowed)) (prof_tools p)
  end.

(** ** The two readers of the front matter agree *)

(** A text whose only line ends are line feeds, as those of a file are
    unless it holds one of the other separators of [str.splitlines]. *)
Fixpoint plain_lines (s : string) : bool :=
  match s with
  | EmptyString => true
  | String a s' => (negb (ends_line a) || bool_decide (a = line_feed)) && plain_lines s'
  end.

(** A line with its line feed. *)
Definition fed (line : string) : string := line +:+ newline.

(** The lines of a file are those of [splitlines], fed, and perhaps one that
    the end of the text cut short. *)
Lemma file_lines_splitlines_from s : forall line,
  plain_lines s = true ->
  exists lines, exists last : option string,
    file_lines_from line s = map fed lines ++ option_list last /\
    splitlines_from line false s = lines ++ option_list last.
Proof.
  induction s as [|a s IH]; simpl; intros line Hs.
  - destruct (is_empty line); [by exists [], None|by exists [], (Some (String.rev line))].
  - apply andb_true_iff in Hs as [Ha Hs]. destruct (ends_line a) eqn:E; simpl in Ha.
    + reflect. subst a. simpl.
      destruct (IH EmptyString Hs) as (lines & last & H1 & H2).
      exists (String.rev line :: lines), last.
      rewrite H1, H2, string_rev_cons. done.
    + rewrite bool_decide_false by by intros ->.
      destruct (IH (String a line) Hs) as (lines & last & H1 & H2). by exists lines, last.
Qed.

Lemma lstrip_fed line :
  lstrip (fed line) = if is_empty (lstrip line) then EmptyString else fed (lstrip line).
Proof.
  induction line as [|a line IH]; [done|].
  change (fed (String a line)) with (String a (fed line)). simpl.
  destruct (py_isspace a); [exact IH|done].
Qed.

Lemma strip_fed line : strip (fed line) = strip line.
Proof.
  unfold strip. rewrite lstrip_fed. destruct (is_empty (lstrip line)) eqn:E.
  - destruct (lstrip line); [done|discriminate E].
  - unfold fed. rewrite string_rev_app. done.
Qed.

Lemma concat_fed lines :
  String.concat "" (map fed lines)
  = match lines with [] => EmptyString | _ => fed (String.concat newline lines) end.
Proof.
  induction lines as [|line lines IH]; [done|].
  destruct lines as [|line' lines]; [done|].
  change (String.concat "" (map fed (line :: line' :: lines)))
    with (fed line +:+ String.concat "" (map fed (line' :: lines))).
  rewrite IH. unfold fed.
  change (String.concat newline (line :: line' :: lines))
    with (line +:+ (newline +:+ String.concat newline (line' :: lines))).
  by rewrite !string_app_assoc.
Qed.

Lemma until_delimiter_fed lines (last : option string) :
  match until_delimiter (map fed lines ++ option_list last), until_delimiter (lines ++ option_list last) with
  | Some (before, _), Some (before', _) => before = map fed before'
  | None, None => True
  | _, _ => False
  end.
Proof.
  induction lines as [|line lines IH]; simpl.
  - destruct last as [l|]; simpl; [|done]. by destruct (bool_decide _).
  - rewrite strip_fed. destruct (bool_decide _); [done|].
    destruct (until_delimiter (map fed lines ++ _)) as [[b a]|];
      destruct (until_delimiter (lines ++ _)) as [[b' a']|]; simpl; try done. by rewrite IH.
Qed.

(** The two readers of a Skill file agree.  Discovery reads the front
    matter line by line and stops at its end, loading splits the whole text:
    on a text without exotic line separators, both find the same front
    matter, but for the line feed at its end, or both refuse the file with
    the same error. *)
Theorem front_matter_readers_agree file text :
  plain_lines text = true ->
  match read_front_matter file text, split_document file text with
  | Ok front, Ok (front', _) => front = front' \/ front = fed front'
  | Raise e, Raise e' => e = e'
  | _, _ => False
  end.
Proof.
  intros Ht. unfold read_front_matter, split_document.
  destruct (file_lines_splitlines_from text EmptyString Ht) as (lines & last & Hf & Hs).
  change (file_lines text = map fed lines ++ option_list last) in Hf.
  change (splitlines text = lines ++ option_list last) in Hs.
  rewrite Hf, Hs. cbv zeta. destruct lines as [|first lines].
  - destruct last as [line|]; simpl; [|done]. destruct (bool_decide (strip line = delimiter)); done.
  - simpl. rewrite strip_fed. destruct (bool_decide (strip first = delimiter)); simpl; [|done].
    pose proof (until_delimiter_fed lines last) as Hu.
    destruct (until_delimiter (map fed lines ++ _)) as [[b a]|];
      destruct (until_delimiter (lines ++ _)) as [[b' a']|]; try done.
    rewrite Hu, concat_fed. destruct b'; auto.
Qed.

Definition example_text : string :=
  String.concat newline ["---"; "name: review"; "version: 1.0.0"; "--- "; "Look at it."].

Lemma front_matter_readers_agree_witness :
  plain_lines example_text = true /\
  exists front front' body, read_front_matter "f" example_text = Ok front /\
    split_document "f" example_text = Ok (front', body) /\ (front = front' \/ front = fed front') /\
    body = "Look at it.".
Proof.
  assert (plain_lines example_text = true) as Hp by (vm_compute; reflexivity).
  split; [exact Hp|]. pose proof (front_matter_readers_agree "f" example_text Hp) as Hagree.
  destruct (read_front_matter "f" example_text) as [front|] eqn:E1; [|by vm_compute in E1].
  destruct (split_document "f" example_text) as [[front' body]|] eqn:E2; [|by vm_compute in E2].
  exists front, front', body. split_and!; try done. vm_compute in E2. by injection E2 as _ <-.
Defined.

(** A form feed ends a line for [splitlines] only: discovery finds no front
    matter in a text that loading accepts. *)
Example form_feed_divergence :
  let text := "---" +:+ String (Ascii.ascii_of_N 12) ("name: x" +:+ newline +:+ "---" +:+ newline +:+ "Go.") in
  read_front_matter "f" text = Raise (no_front_matter "f") /\
  split_document "f" text = Ok ("name: x", "Go.").
Proof. vm_compute. done. Qed.

(** ** Selection *)

Lemma without_nil l m : without l m = [] <-> forall x, x ∈ l -> x ∈ m.
Proof.
  unfold without. induction l as [|a l IH]; simpl.
  - split; [by intros _ x ?%elem_of_nil|done].
  - destruct (bool_decide (a ∈ m)) eqn:E; simpl; reflect.
    + rewrite IH. setoid_rewrite elem_of_cons. naive_solver.
    + split; [done|]. intros H. destruct E. apply H. by left.
Qed.

Lemma tools_require_Ok {X} names (r : list (string * Tool X)) ts :
  tools_require names r = Ok ts -> forall n, n ∈ names -> is_Some (tool_get n r).
Proof.
  revert ts. induction names as [|m names IH]; simpl; intros ts E n; [by intros ?%elem_of_nil|].
  destruct (tool_get m r) eqn:Et; [|done]. destruct (tools_require names r) eqn:Er; [|done].
  intros [->|Hn]%elem_of_cons; [done|by eapply IH].
Qed.

Lemma tools_require_total {X} names (r : list (string * Tool X)) :
  (forall n, n ∈ names -> is_Some (tool_get n r)) -> exists ts, tools_require names r = Ok ts.
Proof.
  induction names as [|n names IH]; simpl; intros Hn; [by eexists|].
  destruct (Hn n ltac:(left)) as [t ->]. destruct IH as [ts ->]; [|by eexists].
  intros m Hm. apply Hn. by right.
Qed.

Section Selection.
Context `{SkillFiles} {X : Type}.
Implicit Types (p : AgentProfile) (r : SkillRegistry) (tools : list (string * Tool X)).

(** What a loaded Skill satisfies. *)
Definition skill_ok (s : Skill) : Prop :=
  is_empty (skill_instructions s) = false /\
  (forall t, t ∈ man_required_tools (skill_manifest s) -> t ∈ man_allowed_tools (skill_manifest s)).

Lemma load_manifest_ok path m :
  load_manifest path = Ok m -> forall t, t ∈ man_required_tools m -> t ∈ man_allowed_tools m.
Proof.
  unfold load_manifest. intros E. raise_free E.
  match goal with H : (let! m := SkillManifest_read _ in SkillManifest_new m) = Ok m |- _ => raise_free H end.
  match goal with H : SkillManifest_new _ = Ok _ |- _ => apply checked_Ok in H as (_ & Hv & ->) end.
  unfold SkillManifest_validate in Hv. raise_free Hv.
  match goal with H : negb (bool_decide (List.filter _ _ = [])) = false |- _ =>
    apply negb_false_iff in H; reflect; exact (proj1 (without_nil _ _) H) end.
Qed.

Lemma load_skill_ok path s : load_skill path = Ok s -> skill_ok s.
Proof.
  unfold load_skill. intros E. raise_free E. split; [done|]. simpl. by eapply load_manifest_ok.
Qed.

Lemma check_skill_Ok p tools s :
  check_skill p tools s = Ok tt ->
  (forall t, t ∈ man_allowed_tools (skill_manifest s) -> t ∈ prof_tools p) /\
  (forall t, t ∈ man_required_tools (skill_manifest s) -> is_Some (tool_get t tools)) /\
  man_required_permissions (skill_manifest s) ⊆ prof_permissions p.
Proof.
  unfold check_skill. intros E. raise_free E.
  repeat match goal with H : negb (bool_decide _) = false |- _ => apply negb_false_iff in H; reflect end.
  split_and!.
  - by apply without_nil.
  - by eapply tools_require_Ok.
  - match goal with H : elements _ = [] |- _ => apply elements_empty_inv in H end. set_solver.
Qed.

Lemma enabled_tools_elem p skills t :
  t ∈ enabled_tools p skills <->
  t ∈ prof_tools p /\
    (skills = [] \/ exists s, s ∈ skills /\ t ∈ man_allowed_tools (skill_manifest s)).
Proof.
  unfold enabled_tools. destruct skills as [|s0 skills]; [naive_solver|].
  set (l := s0 :: skills). rewrite list_elem_of_In, List.filter_In, <-list_elem_of_In.
  assert (t ∈ concat (map (fun s => man_allowed_tools (skill_manifest s)) l) <->
          exists s, s ∈ l /\ t ∈ man_allowed_tools (skill_manifest s)) as <-.
  { rewrite list_elem_of_In, in_concat. setoid_rewrite in_map_iff. setoid_rewrite list_elem_of_In.
    naive_solver. }
  rewrite bool_decide_eq_true. naive_solver.
Qed.

(** C33: Skills widen nothing.  When the Skills of a Run are accepted, they are
    distinct and enabled by the profile, one is loaded for each name, with
    instructions; the profile grants every permission one requires; the tools
    of the Run are tools of the profile that one of the Skills allows (all of
    them without a Skill); and every tool a Skill requires is registered and
    is one of the Run's. *)
Theorem skills_stay_within_profile names p r tools selected :
  select_and_validate_skills names p r tools = Ok selected ->
  NoDup names /\ (forall n, n ∈ names -> n ∈ prof_skills p) /\ length selected = length names /\
  (forall s, s ∈ selected ->
     is_empty (skill_instructions s) = false /\
     man_required_permissions (skill_manifest s) ⊆ prof_permissions p /\
     (forall t, t ∈ man_required_tools (skill_manifest s) ->
        is_Some (tool_get t tools) /\ t ∈ enabled_tools p selected)) /\
  (forall t, t ∈ enabled_tools p selected ->
     t ∈ prof_tools p /\
     (selected = [] \/ exists s, s ∈ selected /\ t ∈ man_allowed_tools (skill_manifest s))).
Proof.
  unfold select_and_validate_skills. intros E. raise_free E.
  repeat match goal with H : negb (bool_decide _) = false |- _ => apply negb_false_iff in H; reflect end.
  match goal with H : registry_select _ _ = Ok _ |- _ => apply traverse_Forall2 in H; rename H into Hl end.
  match goal with H : traverse _ _ = Ok _ |- _ => apply traverse_Forall2 in H; rename H into Hc end.
  split_and!; [done|by apply without_nil|symmetry; by eapply Forall2_length| |].
  - intros s Hs.
    assert (skill_ok s) as [Hi Ha].
    { apply list_elem_of_lookup in Hs as [i Hi].
      destruct (Forall2_lookup_r _ _ _ _ _ Hl Hi) as (n & _ & Hn). unfold registry_load in Hn.
      destruct (dget n r); [|done]. by eapply load_skill_ok. }
    assert (check_skill p tools s = Ok tt) as (Hp & Hr & Hm)%check_skill_Ok.
    { apply list_elem_of_lookup in Hs as [i Hi'].
      destruct (Forall2_lookup_l _ _ _ _ _ Hc Hi') as ([] & _ & ?). done. }
    split_and!; [done|done|]. intros t Ht. split; [by apply Hr|].
    apply enabled_tools_elem. split; [by apply Hp, Ha|]. right. exists s. auto.
  - intros t Ht. by apply enabled_tools_elem.
Qed.
End Selection.

(** ** An example *)

Definition review_manifest : SkillManifest :=
  mk_SkillManifest "review" "1.0.0" "Reviews." None ["fetch"; "grep"] ["fetch"] {["net"]} None None.

#[local] Instance one_file : SkillFiles := {
  is_dir path := bool_decide (path = "skills");
  is_file path := bool_decide (path = "skills/SKILL.md");
  resolve path := path;
  read_file _ := Ok example_text;
  skill_files_below _ := ["skills/SKILL.md"];
  yaml_safe_load _ := inr (JObj []);
  SkillManifest_read _ := Ok review_manifest;
}.

Definition review_profile : AgentProfile :=
  mk_AgentProfile "helper" "Answer." None ["fetch"; "count"] ["review"] {["net"]} 5 5 3 3 262144.

Definition wide_profile : AgentProfile :=
  mk_AgentProfile "helper" "Answer." None ["fetch"; "count"; "grep"] ["review"] {["net"]} 5 5 3 3 262144.

Definition review_registry : SkillRegistry :=
  on_Ok (registry_from_directory "skills") id [].

Definition example_tools : list (string * Tool Z) := [("fetch", counting_tool)].

(** The Skill is refused by a profile without one of its tools, and leaves a
    wider one with its own tools only. *)
Lemma skills_stay_within_profile_witness :
  is_exception (Exn SkillRequirementsError "") = true /\
  select_and_validate_skills ["review"] review_profile review_registry example_tools
    = Raise (Exn SkillRequirementsError
               "Skill 'review' tools are not enabled by AgentProfile: grep") /\
  exists selected,
    select_and_validate_skills ["review"] wide_profile review_registry example_tools = Ok selected /\
    enabled_tools wide_profile selected = ["fetch"; "grep"] /\ length selected = 1%nat.
Proof.
  split; [done|]. split; [vm_compute; reflexivity|].
  destruct (select_and_validate_skills ["review"] wide_profile review_registry example_tools)
    as [selected|e] eqn:E; [|by vm_compute in E].
  exists selected. split; [done|].
  destruct (skills_stay_within_profile ["review"] wide_profile review_registry example_tools selected E)
    as (_ & _ & Hlen & _).
  split; [|done]. vm_compute in E. injection E as <-. vm_compute. reflexivity.
Defined.
