(* ===== verification/Agent.v ===== *)
(** * The Agent facade ([src/base_agent/agent.py])

    An Agent composes a profile, a provider, tools, Skills and the stores,
    and runs prompts through its runtime.  Its operations are programs over
    the world of an execution: a call makes the context of its Run the
    context of the world.  [Agent.start], which runs [Agent.run] as a task of
    its own, and logging are not modelled; nor is a second cancellation while
    [asyncio.shield] protects the settlement of an interrupted Run. *)

From Stdlib Require Import QArith.
From stdpp Require Import base gmap strings list.
From S2P Require Import Prelude Json Models Sha256 Plan StateMachine ConversationStore RunStore EventStore FlowModels SideEffects Program Serial Runtime Resources Supervision ToolExecutor ModelTool Engine RuntimeLogic Artifacts EngineRun RunHandle React Skills.

Record Agent (X : Type) := mk_Agent {
  ag_definition : option AgentDefinition;
  ag_profile : AgentProfile;
  ag_runtime : AgentRuntime X;
  ag_services : RuntimeServices X;
  ag_tools : list (string * Tool X);
  ag_skill_registry : SkillRegistry;
  ag_resources : list (ResourceSpec X);
  ag_memories : MemoryManager X;
  ag_history_limit : Z;
}.
Arguments mk_Agent {X}.
Arguments ag_definition {X}.
Arguments ag_profile {X}.
Arguments ag_runtime {X}.
Arguments ag_services {X}.
Arguments ag_tools {X}.
Arguments ag_skill_registry {X}.
Arguments ag_resources {X}.
Arguments ag_memories {X}.
Arguments ag_history_limit {X}.

(** What [Agent(...)] is given; a strategy of the runtime reaches the
    services of the Agent. *)
Record AgentParts (X : Type) := mk_AgentParts {
  ap_profile : option AgentProfile;
  ap_definition : option AgentDefinition;
  ap_model : ModelProvider X;
  ap_tools : list (Tool X);
  ap_runtime : RuntimeServices X -> AgentRuntime X;
  ap_skill_registry : option SkillRegistry;
  ap_supervisor : option (Supervisor X);
  ap_resources : list (ResourceSpec X);
  ap_memories : MemoryManager X;
  ap_history_limit : Z;
  ap_recorder : option (SideEffectRecorder X);
  ap_policy : option (confirmation_policy X);
  ap_result_limit : option Z;
}.
Arguments mk_AgentParts {X}.
Arguments ap_profile {X}.
Arguments ap_definition {X}.
Arguments ap_model {X}.
Arguments ap_tools {X}.
Arguments ap_runtime {X}.
Arguments ap_skill_registry {X}.
Arguments ap_supervisor {X}.
Arguments ap_resources {X}.
Arguments ap_memories {X}.
Arguments ap_history_limit {X}.
Arguments ap_recorder {X}.
Arguments ap_policy {X}.
Arguments ap_result_limit {X}.

(** [==] of two attachments. *)
Definition Attachment_eqb (a b : Attachment) : bool :=
  bool_decide (att_id a = att_id b) && bool_decide (att_name a = att_name b)
  && bool_decide (att_media_type a = att_media_type b) && (att_size_bytes a =? att_size_bytes b)
  && bool_decide (att_checksum_sha256 a = att_checksum_sha256 b)
  && (att_created_at a =? att_created_at b) && jdict_eqb (att_metadata a) (att_metadata b).

Section Agents.
Context `{JsonFloat} `{FloatRepr} `{Validators} `{SkillFiles} {X : Type} `{!ArtifactAccess X}.

Definition one_of_profile : exn := value_error ["provide exactly one of profile or definition"].

(** [Agent.__init__]. *)
Definition Agent_new (p : AgentParts X) : outcome (Agent X) :=
  let! profile :=
    match ap_definition p, ap_profile p with
    | Some d, None => Ok (to_profile d)
    | None, Some profile => Ok profile
    | _, _ => Raise one_of_profile
    end in
  let! tools := ToolRegistry_new (ap_tools p) in
  let! _ := tools_require (prof_tools profile) tools in
  let default_executor := ToolExecutor_default tools in
  let executor :=
    mk_ToolExecutor tools (ap_recorder p) (default (ex_policy default_executor) (ap_policy p))
      (default (prof_max_tool_result_bytes profile) (ap_result_limit p)) in
  let registry := default [] (ap_skill_registry p) in
  let! _ := traverse (fun name => registry_manifest name registry) (prof_skills profile) in
  let services := mk_RuntimeServices (ap_model p) (Some tools) (Some executor)
                    (default build_default_supervisor (ap_supervisor p)) in
  let memories := ap_memories p in
  raise_when (mm_limit memories <? 1) || (100 <? mm_limit memories)
    as value_error ["memory_limit must be between 1 and 100"] in
  raise_when match mm_namespace memories with Some n => blank n | None => false end
    as value_error ["memory_namespace must not be blank"] in
  raise_when (ap_history_limit p <? 2) || negb (ap_history_limit p mod 2 =? 0)
    as value_error ["conversation_history_limit must be an even integer of at least 2"] in
  Ok (mk_Agent (ap_definition p) profile (ap_runtime p services) services tools registry
        (ap_resources p) memories (ap_history_limit p)).

Variable env : nat -> ambient.

Abbreviation M := (prog (World X)).

(** [history[-limit:]]. *)
Definition last_messages (limit : Z) (history : list Message) : list Message :=
  drop (length history - Z.to_nat limit) history.

(** The arguments of [Agent._execute]. *)
Record Request := mk_Request {
  rq_prompt : string;
  rq_run_id : option uuid;
  rq_conversation_id : option uuid;
  rq_skills : list string;
  rq_plan : option ExecutionPlan;
  rq_planning : bool;
  rq_attachments : list Attachment;
  rq_metadata : jdict;
}.

Section OneAgent.
Variable agent : Agent X.

(** The loop of [Agent._resolve_attachments]. *)
Fixpoint resolve_each (l : list Attachment) : M (list Attachment) :=
  match l with
  | [] => ret []
  | a :: l' =>
      let* stored := read_artifacts env (get_attachment (att_id a)) in
      if negb (Attachment_eqb stored a) then
        throw (value_error ["attachment '"; uuid_str (att_id a);
                            "' does not match its stored reference"])
      else
        let* resolved := resolve_each l' in
        ret (stored :: resolved)
  end.

(** [Agent._resolve_attachments]. *)
Definition resolve_attachments (l : list Attachment) : M (list Attachment) :=
  if negb (bool_decide (NoDup (map att_id l))) then throw (value_error ["attachments must be unique"])
  else resolve_each l.

(** [Agent._select_skills]. *)
Definition select_skills (names : list string) : M (list Skill) :=
  of_outcome (select_and_validate_skills names (ag_profile agent) (ag_skill_registry agent)
                (ag_tools agent)).

(** [Agent._settle_task_interruption]. *)
Definition settle_task_interruption (rid : uuid) : M (option Run) :=
  try_except (finalize_task_interruption env true rid)
    (fun e => if is_exception e then Some (ret None) else None).

(** The Run's turn, and the history before it. *)
Definition begin_conversation (rid : uuid) (q : Request) : M (option ConversationTurn * list Message) :=
  match rq_conversation_id q with
  | None => ret (None, [])
  | Some cid =>
      let* begun :=
        call_store env (fun amb w =>
          let! '(convs, r) := begin_turn amb cid rid (prof_id (ag_profile agent)) (rq_prompt q)
                                (w_conversations w) in
          Ok (set_conversations convs w, r)) in
      ret (Some begun.1, last_messages (ag_history_limit agent) begun.2)
  end.

(** What precedes the context. *)
Definition prepare (rid : uuid) (q : Request)
  : M (list Skill * list string * list Attachment * option ConversationTurn * list Message) :=
  let* skills := select_skills (rq_skills q) in
  let enabled := enabled_tools (ag_profile agent) skills in
  let* attachments := resolve_attachments (rq_attachments q) in
  let* begun := begin_conversation rid q in
  ret (skills, enabled, attachments, begun.1, begun.2).

(** [self.runtime.execute(context, ...)] for the context of the world. *)
Definition execute_context (fuel : nat) (resume_input : option string)
  (confirmation : option ToolConfirmation) : M AgentResult :=
  let* c := ctx_get in
  runtime_execute env (ag_resources agent) (ag_memories agent) (ag_services agent)
    (active_strategy (ag_runtime agent) c) fuel true resume_input confirmation.

(** The context, and its execution. *)
Definition execute_prepared (fuel : nat) (rid : uuid) (q : Request) (skills : list Skill)
  (enabled : list string) (attachments : list Attachment) (turn : option ConversationTurn)
  (history : list Message) : M AgentResult :=
  do* call_store env (fun amb w =>
        let! c := create_context amb (ag_profile agent) (rq_prompt q) (Some rid)
                    (rq_conversation_id q) (turn_sequence <$> turn) history skills (Some enabled)
                    (rq_plan q) (rq_planning q) attachments (rq_metadata q) in
        Ok (set_ctx c w, tt)) in
  execute_context fuel None None.

(** The [except BaseException] clause. *)
Definition execution_raised {A} (rid : uuid) (cid : option uuid) (turn : option ConversationTurn)
  (e : exn) : M A :=
  let* interrupted_run := if is_exception e then ret None else settle_task_interruption rid in
  do* match cid, turn, interrupted_run with
      | Some cid, Some _, None =>
          try_except
            (call_store env (fun amb w =>
               let! '(convs, _) := finish_turn amb cid rid
                                     (if is_exception e then FAILED else INTERRUPTED) None
                                     (w_conversations w) in
               Ok (set_conversations convs w, tt)))
            (fun e' => if is_exception e' then Some (ret tt) else None)
      | _, _, _ => ret tt
      end in
  throw e.

(** [Agent._execute]. *)
Definition execute (fuel : nat) (q : Request) : M AgentResult :=
  let* rid := match rq_run_id q with
              | Some rid => ret rid
              | None => call_store env (fun amb w => Ok (w, amb_uuid amb 0))
              end in
  let* prepared := attempt (prepare rid q) in
  match prepared with
  | Raise e => execution_raised rid (rq_conversation_id q) None e
  | Ok (skills, enabled, attachments, turn, history) =>
      let* result := attempt (execute_prepared fuel rid q skills enabled attachments turn history) in
      match result with
      | Ok r => ret r
      | Raise e => execution_raised rid (rq_conversation_id q) turn e
      end
  end.

(** [Agent.run]. *)
Definition agent_run (fuel : nat) (prompt : string) (run_id conversation_id : option uuid)
  (skills : list string) (plan : option ExecutionPlan) (planning : bool)
  (attachments : list Attachment) : M AgentResult :=
  execute fuel (mk_Request prompt run_id conversation_id skills plan planning attachments []).

(** [Agent.execute_invocation]. *)
Definition execute_invocation (fuel : nat) (prompt : string) (flow_run_id invocation_id : uuid)
  (agent_key : string) (attachments : list Attachment) : M AgentResult :=
  match ag_definition agent with
  | None =>
      throw (value_error ["Flow invocation requires an Agent constructed from AgentDefinition"])
  | Some d =>
      execute fuel
        (mk_Request prompt (Some invocation_id) None (prof_skills (ad_profile d)) None false
           attachments
           [("execution_scope", JStr "flow_invocation"); ("flow_run_id", juuid flow_run_id);
            ("invocation_id", juuid invocation_id); ("agent_key", JStr agent_key);
            ("definition_id", JStr (prof_id (ad_profile d)));
            ("definition_version", JStr (ad_version d));
            ("definition_fingerprint", JStr (AgentDefinition_fingerprint d))])
  end.

(** ** Continuing a waiting Run *)

(** What [Agent._continue_waiting] checks before it claims the checkpoint. *)
Definition waiting_checkpoint (rid : uuid) : M unit :=
  let* run := get_run env rid in
  if negb (bool_decide (run_status run = WAITING)) then
    throw (value_error ["run '"; uuid_str rid; "' is not waiting for input"])
  else
    let* checkpoint := call_store env (fun _ w =>
      let! cp := checkpoint_load rid (w_checkpoints w) in Ok (w, cp)) in
    if negb (bool_decide (prof_id (cp_profile checkpoint) = prof_id (ag_profile agent))) then
      throw (value_error ["run '"; uuid_str rid; "' belongs to profile '";
                          prof_id (cp_profile checkpoint); "', not '";
                          prof_id (ag_profile agent); "'"])
    else
      let* _ := of_outcome (tools_require (cp_enabled_tool_names checkpoint) (ag_tools agent)) in
      ret tt.

(** [checkpoint_store.claim(run_id)], with its [except] clause. *)
Definition claim_checkpoint (rid : uuid) : M RuntimeCheckpoint :=
  let* claimed := attempt (call_store env (fun _ w =>
    let! '(cps, cp) := checkpoint_claim rid (w_checkpoints w) in
    Ok (set_checkpoints cps w, cp))) in
  match claimed with
  | Ok cp => ret cp
  | Raise e =>
      do* (if is_exception e then ret tt
           else let* _ := settle_task_interruption rid in ret tt) in
      throw e
  end.

(** [Agent._continue_waiting]. *)
Definition continue_waiting (fuel : nat) (rid : uuid) (resume_input : option string)
  (confirmation : option ToolConfirmation) : M AgentResult :=
  do* waiting_checkpoint rid in
  let* checkpoint := claim_checkpoint rid in
  do* ctx_put (fun _ => restore checkpoint) in
  let* result := attempt (execute_context fuel resume_input confirmation) in
  match result with
  | Ok r => ret r
  | Raise e =>
      do* (if is_exception e then
             call_store env (fun _ w =>
               Ok (set_checkpoints (checkpoint_save cp_run_id checkpoint (w_checkpoints w)) w, tt))
           else let* _ := settle_task_interruption rid in ret tt) in
      throw e
  end.

(** [Agent.resume]. *)
Definition agent_resume (fuel : nat) (rid : uuid) (user_input : string) : M AgentResult :=
  if blank user_input then throw (value_error ["resume input must not be empty"])
  else continue_waiting fuel rid (Some user_input) None.

(** [Agent.confirm]. *)
Definition agent_confirm (fuel : nat) (rid : uuid) (confirmation : ToolConfirmation)
  : M AgentResult :=
  continue_waiting fuel rid None (Some confirmation).

(** [Agent.cancel]. *)
Definition agent_cancel (rid : uuid) : M Run := request_cancellation env true rid.

(** [Agent.create_conversation]. *)
Definition agent_create_conversation (metadata : option jdict) : M Conversation :=
  call_store env (fun amb w =>
    let conversation :=
      mk_Conversation (amb_uuid amb 0) (prof_id (ag_profile agent)) 0 None (amb_now amb 0)
        (amb_now amb 1) (default [] metadata) in
    let! convs := create_conversation conversation (w_conversations w) in
    Ok (set_conversations convs w, conversation)).
End OneAgent.
End Agents.
