(* ===== verification/PlanExecution.v ===== *)
(** * The planning strategy ([src/base_agent/orchestration/planning.py],
    [src/base_agent/orchestration/plan_execution.py])

    A subclass of [ModelToolStrategy] that has the model write a plan,
    executes its steps one after another (each one turn, or a ReAct loop),
    has the pending work replanned after every step, and summarizes the
    results.  Its state, under a key of [supervision_data], holds the phase:
    planning, executing, updating or summarizing. *)

From Stdlib Require Import QArith.
From stdpp Require Import base gmap strings list.
From S2P Require Import Prelude Json Models Sha256 Plan Serial StateMachine ConversationStore RunStore EventStore FlowModels SideEffects Program Runtime Resources Supervision ToolExecutor ModelTool Engine React.

(** ** Python renderings *)

(** [json.dumps(v, ensure_ascii=False)]. *)
Fixpoint json_dumps_spaced `{FloatRepr} (j : json) : string :=
  match j with
  | JNull => "null"
  | JBool b => if b then "true" else "false"
  | JInt z => zstr z
  | JFloat q => float_repr q
  | JStr s => json_quote s
  | JArr l => "[" +:+ String.concat ", " (map json_dumps_spaced l) +:+ "]"
  | JObj d =>
      "{" +:+ String.concat ", "
        ((fix go d := match d with
                      | [] => []
                      | (k, v) :: d' => (json_quote k +:+ ": " +:+ json_dumps_spaced v) :: go d'
                      end) d) +:+ "}"
  end.

(** [repr(v)] of the value a JSON text denotes, and [str(v)]. *)
Fixpoint json_repr `{FloatRepr} (j : json) : string :=
  match j with
  | JNull => "None"
  | JBool b => if b then "True" else "False"
  | JInt z => zstr z
  | JFloat q => float_repr q
  | JStr s => py_repr s
  | JArr l => "[" +:+ String.concat ", " (map json_repr l) +:+ "]"
  | JObj d =>
      "{" +:+ String.concat ", "
        ((fix go d := match d with
                      | [] => []
                      | (k, v) :: d' => (py_repr k +:+ ": " +:+ json_repr v) :: go d'
                      end) d) +:+ "}"
  end.
Definition json_str `{FloatRepr} (j : json) : string :=
  match j with JStr s => s | _ => json_repr j end.

(** [step == other]: equality of the fields. *)
Definition PlanStep_eqb (a b : PlanStep) : bool :=
  bool_decide (step_id a = step_id b) && bool_decide (step_description a = step_description b)
  && bool_decide (step_executor a = step_executor b)
  && bool_decide (step_dependencies a = step_dependencies b)
  && bool_decide (step_status a = step_status b) && bool_decide (step_success a = step_success b)
  && json_eqb (default JNull (step_result a)) (default JNull (step_result b))
  && bool_decide (step_attachments a = step_attachments b)
  && bool_decide (step_error a = step_error b)
  && jdict_eqb (step_metadata a) (step_metadata b).

Fixpoint PlanSteps_eqb (l l' : list PlanStep) : bool :=
  match l, l' with
  | [], [] => true
  | a :: l, b :: l' => PlanStep_eqb a b && PlanSteps_eqb l l'
  | _, _ => false
  end.

(** ** Replacing the plan of a context *)

(** The event of a step whose status changed. *)
Definition step_event (before after : StepStatus) : option EventType :=
  if bool_decide (before = S_WAITING) && bool_decide (after = S_RUNNING) then Some EV_STEP_RESUMED
  else match after with
       | S_RUNNING => Some EV_STEP_STARTED
       | S_WAITING => Some EV_STEP_WAITING
       | S_COMPLETED => Some EV_STEP_COMPLETED
       | S_FAILED => Some EV_STEP_FAILED
       | S_CANCELLED => Some EV_STEP_CANCELLED
       | S_SKIPPED => Some EV_STEP_SKIPPED
       | S_PENDING => None
       end.

Section Update.
Context {X : Type}.
Variable env : nat -> ambient.
Abbreviation M := (prog (World X)).

(** The loop of [update_execution_plan] over the steps of the new plan. *)
Fixpoint emit_step_events (p : ExecutionPlan) (previous : list (string * PlanStep))
(steps : list PlanStep) : M unit :=
match steps with
| [] => ret tt
| step :: steps' =>
    do* match dget (step_id step) previous with
        | None => ret tt
        | Some old =>
            if bool_decide (step_status old = step_status step) then ret tt
            else match step_event (step_status old) (step_status step) with
                 | Some ty => emit_event env ty [("plan_id", JStr (plan_id p));
                                                 ("step", PlanStep_dump step);
                                                 ("plan", ExecutionPlan_dump p)]
                 | None => ret tt
                 end
        end in
    emit_step_events p previous steps'
end.

(** The checks of [update_execution_plan]. *)
Definition plan_replaces (previous : option ExecutionPlan) (p : ExecutionPlan) : outcome unit :=
match previous with
| None => Ok tt
| Some q =>
    raise_when negb (bool_decide (plan_id q = plan_id p))
      as value_error ["a running context cannot replace its plan identity"] in
    raise_when plan_revision p <=? plan_revision q
      as value_error ["an updated plan must have a newer revision"] in
    Ok tt
end.

(** [update_execution_plan]. *)
Definition update_execution_plan (p : ExecutionPlan) (emit_plan_updated : bool) : M unit :=
let* c := ctx_get in
let previous := ctx_plan c in
do* of_outcome (plan_replaces previous p) in
do* ctx_put (set_plan (Some p)) in
do* save_context_snapshot env in
do* (if is_none previous || emit_plan_updated then
       emit_event env (if is_none previous then EV_PLAN_CREATED else EV_PLAN_UPDATED)
         [("plan", ExecutionPlan_dump p)]
     else ret tt) in
match previous with
| None => ret tt
| Some q =>
    emit_step_events p (dmerge [] (map (fun s => (step_id s, s)) (plan_steps q))) (plan_steps p)
end.
End Update.

(** ** Plans the model writes *)

Definition planning_key : string := "built_in_planning".

(** [_validate_executors]. *)
Definition supported_executor (e : option string) : bool :=
  bool_decide (e ∈ [None; Some "model"; Some "react"]).

Definition validate_executors (p : ExecutionPlan) : outcome unit :=
  let unsupported := List.filter (fun e => negb (supported_executor e))
                       (map step_executor (plan_steps p)) in
  raise_when negb (bool_decide (unsupported = []))
    as value_error ["unsupported plan step executors: ";
                    String.concat ", "
                      (sorted_by string_leb (remove_dups (map (default "None") unsupported)));
                    "; built-in PlanningStrategy supports 'model' or 'react'"] in
  Ok tt.

Definition step_with_status (p : ExecutionPlan) (s : StepStatus) : option PlanStep :=
  List.find (fun step => bool_decide (step_status step = s)) (plan_steps p).

Section Parsing.
Context `{ModelText}.

(** [_parse_json_object]. *)
Definition parse_json_object (content : string) : outcome json :=
let! payload := json_loads (unfence content) in
match payload with
| JObj _ => Ok payload
| _ => Raise (Exn ExTypeError "model response must be a JSON object")
end.

(** [PlanStep.model_validate] and [ExecutionPlan.model_validate] of data. *)
Definition PlanStep_checked (s : PlanStep) : outcome PlanStep :=
checked (PlanStep_fields s) PlanStep_validate s.

Definition ExecutionPlan_new (p : ExecutionPlan) : outcome ExecutionPlan :=
checked (ExecutionPlan_fields p) validate_graph p.

Definition PlanStep_validate_json (j : json) : outcome PlanStep :=
let! s := PlanStep_read j in
PlanStep_checked s.

Definition ExecutionPlan_validate_json (j : json) : outcome ExecutionPlan :=
let! p := ExecutionPlan_read j in
let! _ := traverse PlanStep_checked (plan_steps p) in
ExecutionPlan_new p.

Definition with_metadata (p : ExecutionPlan) (m : jdict) : ExecutionPlan :=
mk_ExecutionPlan (plan_id p) (plan_title p) (plan_steps p) (plan_status p) (plan_revision p) m.

Definition all_pending (steps : list PlanStep) : bool :=
forallb (fun s => bool_decide (step_status s = S_PENDING)) steps.

(** [_parse_generated_plan]. *)
Definition parse_generated_plan (content provider_name : string) : outcome ExecutionPlan :=
let! payload := parse_json_object content in
let! p := ExecutionPlan_validate_json payload in
raise_when negb (bool_decide (plan_status p = P_CREATED))
  as value_error ["generated plan must start in created status"] in
raise_when negb (all_pending (plan_steps p))
  as value_error ["generated plan steps must start in pending status"] in
Ok (with_metadata p (dmerge (plan_metadata p)
      [("generated", JBool true); ("provider", JStr provider_name)])).

(** [_parse_replanned_steps]. *)
Definition parse_replanned_steps (content : string) : outcome (list PlanStep) :=
let! payload := parse_json_object content in
let! raw := json_get "steps" payload in
match raw with
| Some (JArr items) =>
    let! steps := traverse PlanStep_validate_json items in
    raise_when negb (all_pending steps)
      as value_error ["updated plan steps must start in pending status"] in
    Ok steps
| _ => Raise (Exn ExTypeError "updated plan response must contain a JSON steps array")
end.

(** [_parse_react_result]. *)
Definition parse_step_result (content : string) : outcome ReActResult :=
let! payload := parse_json_object content in
ReActResult_read payload.
End Parsing.

(** [_future_steps_unchanged]. *)
Definition future_steps_unchanged (p : ExecutionPlan) (future : list PlanStep) : bool :=
  PlanSteps_eqb (List.filter (fun s => bool_decide (step_status s = S_PENDING)) (plan_steps p)) future.

(** [_merge_replanned_steps]: the settled steps stay, the pending ones are
    replaced.  The constructor takes [PlanStep] objects as they are. *)
Definition settled_history (p : ExecutionPlan) : list PlanStep :=
  List.filter (fun s => historical (step_status s)) (plan_steps p).

Definition merge_replanned_steps (p : ExecutionPlan) (future : list PlanStep)
  : outcome ExecutionPlan :=
  let history := settled_history p in
  raise_when negb (existsb (fun s => bool_decide (step_status s = S_COMPLETED)) history)
    as value_error ["updated plan requires at least one completed historical step"] in
  let! n := py_int (default (JInt 0) (dget "replan_count" (plan_metadata p))) in
  let! updated := ExecutionPlan_new
    (mk_ExecutionPlan (plan_id p) (plan_title p) (history ++ future)
       (match future with [] => P_COMPLETED | _ => P_RUNNING end) (plan_revision p + 1)
       (dset "replan_count" (JInt (n + 1)) (plan_metadata p))) in
  raise_when existsb (fun pair => negb (PlanStep_eqb (fst pair) (snd pair)))
               (combine history (plan_steps updated))
    as value_error ["updated plan changed settled step history"] in
  Ok updated.

(** ** Prompts *)

Section Prompts.
Context `{JsonFloat} `{FloatRepr}.

(** The results of the steps a step depends on. *)
Definition dependency_results (p : ExecutionPlan) (step : PlanStep) : list json :=
map (fun item => JObj [("id", JStr (step_id item)); ("description", JStr (step_description item));
                       ("result", default JNull (step_result item))])
  (List.filter (fun item => bool_decide (step_id item ∈ step_dependencies step)) (plan_steps p)).

Definition dependency_line (p : ExecutionPlan) (step : PlanStep) : string :=
match dependency_results p step with
| [] => "Completed dependency results: none"
| l => "Completed dependency results: " +:+ json_dumps_spaced (JArr l)
end.

Definition step_lines (c : RuntimeContext) (p : ExecutionPlan) (step : PlanStep) : list string :=
[fstr ["Original task: "; ctx_input_text c];
 fstr ["Plan: "; plan_title p];
 fstr ["Current step ["; step_id step; "]: "; step_description step];
 dependency_line p step].

(** [_step_prompt]. *)
Definition step_prompt (c : RuntimeContext) (p : ExecutionPlan) (step : PlanStep) : string :=
String.concat newline
  (["Execute exactly one step from the active plan."] ++ step_lines c p step ++
   ["Use the available tools when needed. Finish this step only, then return its concrete result."]).

(** [_react_step_prompt]. *)
Definition react_step_prompt (c : RuntimeContext) (p : ExecutionPlan) (step : PlanStep) : string :=
String.concat newline
  (["Execute one plan step with a ReAct loop."] ++ step_lines c p step ++
   ["Analyze the current state, select the tool actions needed, observe their results, and iterate until this step is complete. Independent tool calls may be selected in one action batch; dependent calls must wait for a later iteration.";
    fstr ["Do not reveal private chain-of-thought. Tool calls communicate actions. When complete, return JSON only as {";
          json_quote "success"; ":true,"; json_quote "result"; ":";
          json_quote "concrete step result"; ","; json_quote "attachments"; ":[]}."]]).

(** The [capabilities] of the planning prompts. *)
Definition capabilities (definitions : list ToolDefinition) : string :=
fstr ["Available tools: ";
      json_dumps_spaced (jlist (fun d => JObj [("name", JStr (td_name d));
                                                ("description", JStr (td_description d))])
                           definitions)].

(** [_planning_prompt]. *)
Definition planning_prompt (c : RuntimeContext) (definitions : list ToolDefinition) : string :=
String.concat newline
  ["Create a concise execution plan for the original user task.";
   fstr ["Original task: "; ctx_input_text c];
   capabilities definitions;
   fstr ["Return JSON only with this shape: {"; json_quote "id"; ":"; json_quote "plan-id"; ",";
         json_quote "title"; ":"; json_quote "title"; ","; json_quote "steps"; ":[{";
         json_quote "id"; ":"; json_quote "step-id"; ","; json_quote "description"; ":";
         json_quote "atomic action"; ","; json_quote "executor"; ":"; json_quote "react"; ",";
         json_quote "dependencies"; ":[]}]}"];
   "Use stable alphanumeric step ids. Steps must be atomic, executable through the available tools, dependency-ordered, and free of cycles. Use executor 'react' for steps that may need tools or iterative observation, and 'model' for direct tool-free generation. Use one step when decomposition is unnecessary."].

(** [_replanning_prompt]. *)
Definition replanning_prompt (c : RuntimeContext) (definitions : list ToolDefinition)
(p : ExecutionPlan) (completed : PlanStep) : string :=
String.concat newline
  ["Update the execution plan after one completed step.";
   fstr ["Original task: "; ctx_input_text c];
   fstr ["Current plan: "; json_compact (ExecutionPlan_dump p)];
   fstr ["Just completed step: "; json_compact (PlanStep_dump completed)];
   capabilities definitions;
   fstr ["Return JSON only as {"; json_quote "steps";
         ":[...]}. The steps array represents all remaining work and replaces every not-yet-executed step."];
   "Do not include completed, failed, cancelled, or skipped steps; the runtime preserves that immutable history. Return an empty steps array when the original task is complete.";
   "Each new step must use pending status, have a unique stable id, and may depend on preserved historical step ids. Dependencies must be valid and acyclic. Use executor 'react' for steps that may need tools or iterative observation, and 'model' for direct tool-free generation."].

(** The character U+2026, which the texts of this model cannot hold: any
  one character stands for it. *)
Variable ellipsis : Ascii.ascii.

Definition max_result_characters : Z := 12000.

(** The loop of [_bounded_results]. *)
Definition result_line (step : PlanStep) : string :=
fstr ["- ["; step_id step; "] "; step_description step; ": ";
      match step_result step with Some JNull | None => "" | Some v => json_str v end].

Fixpoint bounded_lines (remaining : Z) (steps : list PlanStep) : list string :=
match steps with
| [] => []
| step :: steps' =>
    let line := result_line step in
    let line := if remaining <? slen line
                then String.substring 0 (Z.to_nat (Z.max (remaining - 1) 0)) line
                     +:+ String ellipsis EmptyString
                else line in
    let remaining := remaining - slen line in
    line :: (if remaining <=? 0 then [] else bounded_lines remaining steps')
end.

Definition bounded_results (p : ExecutionPlan) : string :=
String.concat newline (bounded_lines max_result_characters (plan_steps p)).

(** [_summary_prompt]. *)
Definition summary_prompt (c : RuntimeContext) (p : ExecutionPlan) : string :=
String.concat newline
  ["The execution plan is complete. Deliver the final result to the user.";
   fstr ["Original task: "; ctx_input_text c];
   fstr ["Plan: "; plan_title p];
   fstr ["Step results:"; newline; bounded_results p];
   "Synthesize the completed work into one clear final answer. Do not return a todo list or another plan."].

(** [_deterministic_summary]. *)
Definition deterministic_summary (p : ExecutionPlan) : string :=
fstr [plan_title p; newline; newline; bounded_results p].
End Prompts.

(** ** The strategy *)

(** [PlanningStrategy(summarize, replan_after_step, max_react_iterations_per_step)]. *)
Record PlanningOptions := mk_PlanningOptions {
  po_summarize : bool;
  po_replan_after_step : bool;
  po_max_react_iterations : Z;
}.

Definition PlanningOptions_check (o : PlanningOptions) : outcome unit :=
  raise_when po_max_react_iterations o <? 1
    as value_error ["max_react_iterations_per_step must be at least 1"] in
  Ok tt.

Definition phase_planning : string := "planning".
Definition phase_executing : string := "executing".
Definition phase_updating : string := "updating".
Definition phase_summarizing : string := "summarizing".

Definition in_phase (name : string) (phase : option json) : bool :=
  json_opt_eqb phase (Some (JStr name)).

(** [raw if isinstance(raw, dict) else {}]. *)
Definition dict_or_empty (raw : option json) : jdict :=
  match raw with Some (JObj d) => d | _ => [] end.

(** [_active_react_step], of a state dict. *)
Definition active_react_step (c : RuntimeContext) : outcome (option PlanStep) :=
  let! phase := json_get "phase" (default (JObj []) (dget planning_key (ctx_supervision_data c))) in
  match in_phase phase_executing phase, ctx_plan c with
  | true, Some p =>
      match step_with_status p S_RUNNING with
      | Some step => if bool_decide (step_executor step = Some "react") then Ok (Some step) else Ok None
      | None => Ok None
      end
  | _, _ => Ok None
  end.

(** [_react_event_data]. *)
Definition step_event_data (c : RuntimeContext) (step : PlanStep) (react : option json) : jdict :=
  [("plan_id", jopt (fun p => JStr (plan_id p)) (ctx_plan c)); ("step_id", JStr (step_id step));
   ("iteration", default (JInt 0) (dget "iteration" (dict_or_empty react)))].

Section Strategy.
Context `{JsonFloat} `{FloatRepr} `{Validators} `{ModelText} {X : Type}.
Variable env : nat -> ambient.
Variable expires : nat -> bool.
Variable services : RuntimeServices X.
Variable options : PlanningOptions.
Variable ellipsis : Ascii.ascii.

Abbreviation M := (prog (World X)).

(** The definitions of the tools for a prompt. *)
Definition prompt_definitions : M (list ToolDefinition) :=
match sv_tool_registry services with
| Some registry =>
    let* c := ctx_get in of_outcome (tool_definitions (ctx_enabled_tool_names c) registry)
| None => ret []
end.

(** [context.messages.append(Message.user(text))] and the snapshot. *)
Definition prompt_model (text : string) : M unit :=
do* add_message (Message_user text) in
save_context_snapshot env.

(** [_require_plan]. *)
Definition require_plan : M ExecutionPlan :=
let* c := ctx_get in
match ctx_plan c with
| Some p => ret p
| None => throw (value_error ["PlanningStrategy requires an ExecutionPlan"])
end.

(** [_fail_execution]. *)
Definition planning_fail_execution (error : string) : M unit :=
let* c := ctx_get in
do* match ctx_plan c with
    | Some p =>
        if bool_decide (plan_status p ∈ [P_FAILED; P_CANCELLED]) then ret tt
        else
          let* failed := of_outcome (plan_fail p error) in
          update_execution_plan env failed false
    | None => ret tt
    end in
hk_fail_execution (default_hooks services) error.

(** [_wait_for_input]. *)
Definition planning_wait_for_input : M unit :=
let* p := require_plan in
match step_with_status p S_RUNNING with
| None => planning_fail_execution "planning strategy cannot suspend without an active step"
| Some running =>
    let* waiting := of_outcome (wait_step p (step_id running)) in
    update_execution_plan env waiting false
end.

(** [context.error or text]. *)
Definition error_or (e : option string) (text : string) : string :=
match e with Some r => if is_empty r then text else r | None => text end.

(** [_settle_terminal_plan], which is also [settle]. *)
Definition settle_terminal_plan : M unit :=
let* c := ctx_get in
match ctx_plan c with
| None => ret tt
| Some p =>
    if bool_decide (plan_status p ∈ [P_COMPLETED; P_FAILED; P_CANCELLED]) then ret tt
    else if bool_decide (ctx_state c = CANCELLED) then
      let* cancelled := of_outcome (plan_cancel p (error_or (ctx_error c) "run cancelled")) in
      update_execution_plan env cancelled false
    else if bool_decide (ctx_state c ∈ [FAILED; INTERRUPTED; LIMIT_REACHED]) then
      let* failed := of_outcome
        (plan_fail p (error_or (ctx_error c)
                        (fstr ["run ended with "; RunStatus_value (ctx_state c)]))) in
      update_execution_plan env failed false
    else ret tt
end.

(** [_finish_plan]. *)
Definition finish_plan (p : ExecutionPlan) : M unit :=
if negb (po_summarize options) then
  do* ctx_put (set_output (Some (deterministic_summary ellipsis p))) in
  ctx_do (ctx_transition COMPLETED)
else
  do* ctx_put (fun c => set_supervision_data
        (dset planning_key (JObj [("phase", JStr phase_summarizing)]) (ctx_supervision_data c)) c) in
  let* c := ctx_get in
  prompt_model (summary_prompt ellipsis c p).

(** [_handle_no_ready_step]. *)
Definition handle_no_ready_step (p : ExecutionPlan) : M unit :=
if bool_decide (plan_status p = P_COMPLETED) then finish_plan p
else planning_fail_execution "execution plan has no ready or active step".

(** An event about the active ReAct step, if there is one. *)
Definition emit_step_iteration (ty : EventType) (more : jdict) : M unit :=
let* c := ctx_get in
let* step := of_outcome (active_react_step c) in
match step with
| None => ret tt
| Some step =>
    let* state := supervision_item planning_key in
    let* react := of_outcome (json_get "react" state) in
    emit_event env ty (dmerge (step_event_data c step react) more)
end.

(** [_before_model_request]. *)
Definition planning_before_model_request : M unit :=
let* c := ctx_get in
let* step := of_outcome (active_react_step c) in
match step with
| None => ret tt
| Some step =>
    let* state := supervision_item planning_key in
    let* raw := of_outcome (json_get "react" state) in
    let react := if json_opt_eqb (dget "step_id" (dict_or_empty raw)) (Some (JStr (step_id step)))
                 then dict_or_empty raw
                 else [("step_id", JStr (step_id step)); ("iteration", JInt 0)] in
    do* update_state planning_key (json_set_item "react" (JObj react)) in
    let* n := of_outcome (get_int "iteration" (JObj react)) in
    let react := dset "iteration" (JInt (n + 1)) react in
    do* update_state planning_key (json_set_item "react" (JObj react)) in
    emit_event env EV_REACT_ITERATION_STARTED (step_event_data c step (Some (JObj react)))
end.

(** [_tool_definitions]: none while the model plans or summarizes. *)
Definition planning_tool_definitions : M (list ToolDefinition) :=
let* c := ctx_get in
let* phase := of_outcome
  (json_get "phase" (default (JObj []) (dget planning_key (ctx_supervision_data c)))) in
match phase with
| Some (JArr _) => throw (Exn ExTypeError "unhashable type: 'list'")
| Some (JObj _) => throw (Exn ExTypeError "unhashable type: 'dict'")
| _ =>
    if in_phase phase_planning phase || in_phase phase_updating phase
       || in_phase phase_summarizing phase
    then ret []
    else hk_tool_definitions (default_hooks services)
end.

(** The [except (ValueError, TypeError, json.JSONDecodeError)] clauses: the
  value of the [try] body, or [None] after the execution was failed. *)
Definition or_fail {A} (o : outcome A) (what : string) : M (option A) :=
try_except (let* a := of_outcome o in ret (Some a))
  (fun e =>
     if isinstance e ExValueError || isinstance e ExTypeError then
       Some (do* planning_fail_execution (fstr [what; ": "; exn_str e]) in ret None)
     else None).

(** [_complete_response], in the planning phase. *)
Definition complete_planning (content : string) : M unit :=
let* generated := or_fail
  (let! p := parse_generated_plan content (provider_name (sv_provider services)) in
   let! _ := validate_executors p in
   Ok p) "model generated an invalid execution plan" in
match generated with
| None => ret tt
| Some p =>
    do* update_execution_plan env p true in
    update_state planning_key (json_set_item "phase" (JStr phase_executing))
end.

(** The plan after a review: the new pending steps, whether they are
  different, and the plan with them. *)
Definition review_plan (p : ExecutionPlan) (content : string)
: outcome (list PlanStep * bool * ExecutionPlan) :=
let! future := parse_replanned_steps content in
let changed := negb (future_steps_unchanged p future) in
let! updated := if changed then merge_replanned_steps p future else Ok p in
let! _ := validate_executors updated in
Ok (future, changed, updated).

(** In the updating phase. *)
Definition complete_updating (state : json) (content : string) : M unit :=
let* p := require_plan in
let* reviewed := or_fail (review_plan p content)
                   "model generated an invalid updated execution plan" in
match reviewed with
| None => ret tt
| Some (future, changed, updated) =>
    let* completed := of_outcome (json_get "completed_step_id" state) in
    do* emit_event env EV_PLAN_REVIEWED
          [("plan_id", JStr (plan_id p)); ("revision", JInt (plan_revision p));
           ("changed", JBool changed); ("completed_step_id", default JNull completed);
           ("proposed_steps", jlist PlanStep_dump future)] in
    do* (if changed : bool then update_execution_plan env updated true else ret tt) in
    do* update_state planning_key (fun s =>
          let! s := json_set_item "phase" (JStr phase_executing) s in
          match s with
          | JObj d => Ok (JObj (ddel "completed_step_id" d))
          | _ => Ok s
          end) in
    if bool_decide (plan_status updated = P_COMPLETED) then finish_plan updated else ret tt
end.

(** The completion of the running step, with the plan it leads to. *)
Definition complete_running (p : ExecutionPlan) (running : PlanStep) (state : json)
(content : string) : M (option ExecutionPlan) :=
if bool_decide (step_executor running = Some "react") then
  let* parsed := or_fail (parse_step_result content)
                   "model generated an invalid ReAct step result" in
  match parsed with
  | None => ret None
  | Some r =>
      let* react := of_outcome (json_get "react" state) in
      let iterations := default (JInt 0) (dget "iteration" (dict_or_empty react)) in
      let* completed := of_outcome
        (complete_step p (step_id running) (Some (JStr (rr_result r))) (Some (rr_success r))
           (rr_attachments r) (Some [("react_iterations", iterations)])) in
      do* update_state planning_key (fun s =>
            match s with JObj d => Ok (JObj (ddel "react" d)) | _ => Ok s end) in
      ret (Some completed)
  end
else
  let* completed := of_outcome
    (complete_step p (step_id running) (Some (JStr content)) None [] None) in
  ret (Some completed).

(** In the executing phase. *)
Definition complete_executing (state : json) (content : string) : M unit :=
let* p := require_plan in
match step_with_status p S_RUNNING with
| None =>
    planning_fail_execution "planning strategy received a step result without an active step"
| Some running =>
    let* completed := complete_running p running state content in
    match completed with
    | None => ret tt
    | Some completed =>
        do* update_execution_plan env completed false in
        if po_replan_after_step options then
          do* update_state planning_key (json_set_item "phase" (JStr phase_updating)) in
          do* update_state planning_key
                (json_set_item "completed_step_id" (JStr (step_id running))) in
          let* done := of_outcome (get_step completed (step_id running)) in
          let* definitions := prompt_definitions in
          let* c := ctx_get in
          prompt_model (replanning_prompt c definitions completed done)
        else if bool_decide (plan_status completed = P_COMPLETED) then finish_plan completed
        else ret tt
    end
end.

(** [_complete_response]. *)
Definition planning_complete_response (content : string) : M unit :=
let* state := setdefault planning_key (fun _ => JObj [("phase", JStr phase_executing)]) in
let* phase := of_outcome (json_get "phase" state) in
if in_phase phase_planning phase then complete_planning content
else if in_phase phase_updating phase then complete_updating state content
else if in_phase phase_summarizing phase then
  do* ctx_put (set_output (Some content)) in
  ctx_do (ctx_transition COMPLETED)
else complete_executing state content.

Definition planning_hooks : Hooks X :=
mk_Hooks
  (hk_select_tool_calls (default_hooks services))
  planning_before_model_request
  (fun calls => emit_step_iteration EV_REACT_ACTION_BATCH_SELECTED
                  [("actions", jlist action_summary calls)])
  (fun seen => emit_step_iteration EV_REACT_OBSERVATION_BATCH_RECORDED
                 [("observations", jlist observation_summary seen)])
  (fun response acted => emit_step_iteration EV_REACT_ITERATION_COMPLETED
     [("had_actions", JBool acted); ("finish_reason", jopt JStr (mr_finish_reason response))])
  planning_tool_definitions
  planning_complete_response
  planning_fail_execution
  planning_wait_for_input.

(** [super().advance] and the settlement that follows it. *)
Definition advance_and_settle : M unit :=
do* model_tool_advance env expires services planning_hooks in
settle_terminal_plan.

(** [advance] without a plan. *)
Definition advance_planning (state : json) : M unit :=
let* c := ctx_get in
if negb (ctx_planning_requested c)
then throw (value_error ["PlanningStrategy requires an ExecutionPlan"])
else
  let* phase := of_outcome (json_get "phase" state) in
  if negb (in_phase phase_planning phase)
  then planning_fail_execution "planning state is inconsistent with the missing plan"
  else
    let* added := of_outcome (json_get "prompt_added" state) in
    do* (if truthy (default JNull added) then ret tt
         else
           let* definitions := prompt_definitions in
           do* add_message (Message_user (planning_prompt c definitions)) in
           do* update_state planning_key (json_set_item "prompt_added" (JBool true)) in
           save_context_snapshot env) in
    advance_and_settle.

(** The step to work on: the running one, a waiting one that resumes, or the
  first that is ready; [None] when there is none. *)
Definition resume_waiting (p : ExecutionPlan) : M ExecutionPlan :=
match step_with_status p S_WAITING with
| None => ret p
| Some waiting =>
    let* resumed := of_outcome (resume_step p (step_id waiting)) in
    do* update_execution_plan env resumed false in
    ret resumed
end.

Definition begin_step (p : ExecutionPlan) (step : PlanStep) : M unit :=
let* p := of_outcome (start_step p (step_id step)) in
do* update_execution_plan env p false in
let* c := ctx_get in
prompt_model (if bool_decide (step_executor step = Some "react")
              then react_step_prompt c p step else step_prompt c p step).

Definition current_step (p : ExecutionPlan) : M (option PlanStep) :=
match step_with_status p S_RUNNING with
| Some running => ret (Some running)
| None =>
    let* ready := of_outcome (ready_steps p) in
    match ready with
    | [] => do* handle_no_ready_step p in ret None
    | step :: _ => do* begin_step p step in ret (Some step)
    end
end.

(** The iteration limit of a ReAct step. *)
Definition iteration_limit (state : json) (step : PlanStep) : M bool :=
if bool_decide (step_executor step = Some "react") then
  let* react := of_outcome (json_get "react" state) in
  let* n := of_outcome (get_int "iteration" (JObj (dict_or_empty react))) in
  let* c := ctx_get in
  ret ((po_max_react_iterations options <=? n) && negb (has_suspended_batch c))
else ret false.

(** [advance] with a plan. *)
Definition advance_plan (state : json) (p : ExecutionPlan) : M unit :=
do* of_outcome (validate_executors p) in
let* phase := of_outcome (json_get "phase" state) in
if in_phase phase_summarizing phase || in_phase phase_updating phase then advance_and_settle
else
  let* p := resume_waiting p in
  let* step := current_step p in
  match step with
  | None => ret tt
  | Some step =>
      let* exceeded := iteration_limit state step in
      if exceeded then
        planning_fail_execution
          (fstr ["ReAct iteration limit reached for step '"; step_id step; "' (";
                 zstr (po_max_react_iterations options); ")"])
      else advance_and_settle
  end.

(** [advance]. *)
Definition planning_advance : M unit :=
let* state := setdefault planning_key (fun c =>
  JObj [("phase", JStr (if is_none (ctx_plan c) && ctx_planning_requested c
                        then phase_planning else phase_executing))]) in
let* c := ctx_get in
match ctx_plan c with
| None => advance_planning state
| Some p => advance_plan state p
end.

Definition PlanningStrategy : Strategy X :=
mk_Strategy planning_advance (Some settle_terminal_plan).
End Strategy.

(** ** Plans that [PlanningStrategy] installs are valid *)

(** The checks of the constructors, for steps and for plans of checked
    steps. *)
Definition step_checked (s : PlanStep) : Prop :=
  PlanStep_fields s = true /\ PlanStep_validate s = Ok tt.

Section Installed.
Context `{ModelText}.

Lemma PlanStep_checked_spec s s' : PlanStep_checked s = Ok s' -> s' = s /\ step_checked s'.
Proof. intros (? & ? & ->)%checked_Ok. done. Qed.

Lemma traverse_checked l l' : traverse PlanStep_checked l = Ok l' -> l' = l /\ Forall step_checked l'.
Proof.
intros E. split; [|by eapply traverse_Forall; [|exact E]; intros a b [_ ?]%PlanStep_checked_spec].
revert l' E. induction l as [|a l IH]; simpl; intros l' E; [by simplify_eq|].
raise_free E. apply PlanStep_checked_spec in Heqo as [-> _]. by rewrite (IH _ eq_refl).
Qed.

Lemma ExecutionPlan_new_valid p p' :
ExecutionPlan_new p = Ok p' -> Forall step_checked (plan_steps p) -> p' = p /\ plan_valid p'.
Proof. intros (Hf & Hg & ->)%checked_Ok Hs. split; [done|by split]. Qed.

Lemma ExecutionPlan_validate_json_valid j p : ExecutionPlan_validate_json j = Ok p -> plan_valid p.
Proof.
unfold ExecutionPlan_validate_json. intros E. raise_free E.
apply traverse_checked in Heqo0 as [-> Hs]. by apply ExecutionPlan_new_valid in E as [_ ?].
Qed.

Lemma parse_generated_plan_valid content name p :
parse_generated_plan content name = Ok p -> plan_valid p.
Proof.
unfold parse_generated_plan. intros E. raise_free E.
match goal with H : ExecutionPlan_validate_json _ = Ok _ |- _ =>
  apply ExecutionPlan_validate_json_valid in H as [Hf Hg Hs] end.
by split.
Qed.

Lemma parse_replanned_steps_checked content steps :
parse_replanned_steps content = Ok steps -> Forall step_checked steps.
Proof.
unfold parse_replanned_steps. intros E. raise_free E.
match goal with H : traverse _ _ = Ok _ |- _ => eapply traverse_Forall, H end.
intros j s. unfold PlanStep_validate_json. intros Ej. raise_free Ej.
match goal with H : PlanStep_checked _ = Ok _ |- _ => by apply PlanStep_checked_spec in H as [_ ?] end.
Qed.

Lemma settled_history_checked p : plan_valid p -> Forall step_checked (settled_history p).
Proof.
intros [_ _ Hs]. unfold settled_history. apply List.Forall_forall. intros s [Hin _]%List.filter_In.
by eapply List.Forall_forall in Hs.
Qed.

(** The plan after a review of [p]. *)
Lemma merge_replanned_steps_Ok p future p' :
merge_replanned_steps p future = Ok p' ->
plan_valid p -> Forall step_checked future ->
plan_valid p' /\ plan_steps p' = settled_history p ++ future /\
plan_id p' = plan_id p /\ plan_revision p' = plan_revision p + 1 /\
existsb (fun s => bool_decide (step_status s = S_COMPLETED)) (settled_history p) = true /\
(plan_status p' = P_COMPLETED <-> future = []).
Proof.
unfold merge_replanned_steps. intros E Hv Hf. raise_free E.
match goal with H : ExecutionPlan_new _ = Ok _ |- _ =>
  apply ExecutionPlan_new_valid in H as [-> Hv'] end.
2: { simpl. apply Forall_app. split; [by apply settled_history_checked|done]. }
split_and!; try done; simpl; [by apply negb_false_iff|]. by destruct future.
Qed.

Lemma parse_replanned_steps_pending content steps :
parse_replanned_steps content = Ok steps -> Forall (fun s => step_status s = S_PENDING) steps.
Proof.
unfold parse_replanned_steps. intros E. raise_free E.
match goal with H : negb (all_pending _) = false |- _ => apply negb_false_iff in H;
  unfold all_pending in H; rewrite List.forallb_forall in H; apply List.Forall_forall;
  intros s Hs; specialize (H s Hs) end.
by reflect.
Qed.

Lemma validate_executors_Ok p s :
validate_executors p = Ok tt -> s ∈ plan_steps p -> supported_executor (step_executor s) = true.
Proof.
unfold validate_executors. intros E Hs. raise_free E.
match goal with H : negb (bool_decide _) = false |- _ => apply negb_false_iff in H; reflect; rename H into Hnil end.
destruct (supported_executor (step_executor s)) eqn:Ex; [done|]. exfalso.
assert (In (step_executor s) (List.filter (fun e => negb (supported_executor e))
  (map step_executor (plan_steps p)))) as Hin.
{ apply List.filter_In. split; [by apply List.in_map, list_elem_of_In|by rewrite Ex]. }
by rewrite Hnil in Hin.
Qed.

(** Steps that are pending are no history. *)
Lemma history_of_pending l :
Forall (fun s => step_status s = S_PENDING) l ->
List.filter (fun s => historical (step_status s)) l = [].
Proof. induction 1 as [|s l Hs _ IH]; simpl; [done|]. by rewrite Hs. Qed.

Lemma filter_again {A} (f : A -> bool) l : List.filter f (List.filter f l) = List.filter f l.
Proof. induction l as [|a l IH]; simpl; [done|]. destruct (f a) eqn:E; simpl; rewrite ?E, ?IH; done. Qed.

Lemma review_plan_Ok p content future changed p' :
review_plan p content = Ok (future, changed, p') ->
parse_replanned_steps content = Ok future /\ validate_executors p' = Ok tt /\
if changed then merge_replanned_steps p future = Ok p' else p' = p.
Proof.
unfold review_plan. destruct (parse_replanned_steps content) as [steps|]; [|done]. simpl.
destruct (negb (future_steps_unchanged p steps)).
- destruct (merge_replanned_steps p steps) as [q|] eqn:E; [|done]. simpl.
  destruct (validate_executors q) as [[]|] eqn:Ex; [|done]. intros [= <- <- <-]. done.
- simpl. destruct (validate_executors p) as [[]|] eqn:Ex; [|done]. intros [= <- <- <-]. done.
Qed.

Lemma review_plan_valid p content future changed p' :
review_plan p content = Ok (future, changed, p') -> plan_valid p -> plan_valid p'.
Proof.
intros (Ep & _ & Ec)%review_plan_Ok Hv. destruct changed; [|by subst].
by apply merge_replanned_steps_Ok in Ec as [? _]; [..|by eapply parse_replanned_steps_checked].
Qed.

(** The steps of a plan that nothing changes any more. *)
Definition history_of (p : ExecutionPlan) : list PlanStep :=
List.filter (fun s => historical (step_status s)) (plan_steps p).

(** C22: a review of the plan keeps what was done.  When the reply of the model
  to a replanning prompt is accepted, the plan after it is valid, with the
  same id and only executors the strategy supports; it is either the very
  plan of before, or its next revision, in which the completed, failed,
  cancelled and skipped steps are those of before, unchanged and in their
  order, at least one of them completed, followed by the proposed steps, all
  pending; such a plan is completed exactly when no step is proposed.  A
  reply that would break the dependency graph is refused. *)
Theorem replanning_preserves_history p content future changed p' :
plan_valid p -> review_plan p content = Ok (future, changed, p') ->
plan_valid p' /\ plan_id p' = plan_id p /\
(forall s, s ∈ plan_steps p' -> supported_executor (step_executor s) = true) /\
Forall (fun s => step_status s = S_PENDING) future /\
if changed : bool then
  plan_revision p' = plan_revision p + 1 /\
  plan_steps p' = history_of p ++ future /\ history_of p' = history_of p /\
  (exists s, s ∈ history_of p /\ step_status s = S_COMPLETED) /\
  (plan_status p' = P_COMPLETED <-> future = [])
else p' = p.
Proof.
intros Hv E. split; [by eapply review_plan_valid|].
destruct (review_plan_Ok _ _ _ _ _ E) as (Ep & Hex & Ec).
assert (Forall (fun s => step_status s = S_PENDING) future) as Hpend
  by by eapply parse_replanned_steps_pending.
assert (forall s, s ∈ plan_steps p' -> supported_executor (step_executor s) = true) as Hsup
  by (intros s; by apply validate_executors_Ok).
destruct changed; [|by subst p'].
apply merge_replanned_steps_Ok in Ec as (_ & Hs & Hid & Hrev & Hdone & Hcomp);
  [|done|by eapply parse_replanned_steps_checked].
split_and!; try done.
- unfold history_of at 1. rewrite Hs, List.filter_app.
  rewrite (history_of_pending future), app_nil_r by done. apply filter_again.
- apply List.existsb_exists in Hdone as (s & Hin & Hst). reflect.
  exists s. by rewrite list_elem_of_In.
Qed.
End Installed.

(** A model that proposes one more step. *)
#[local] Instance proposing : ModelText := {
  json_loads _ := Ok (JObj [("steps", JArr [JStr "e"])]);
  ReActResult_read _ := Raise (Exn ExValueError "invalid");
  PlanStep_read j := match j with
                     | JStr sid => Ok (example_step sid ["a"])
                     | _ => Raise (Exn ExValueError "invalid")
                     end;
  ExecutionPlan_read _ := Raise (Exn ExValueError "invalid");
}.

Definition reviewed : outcome (list PlanStep * bool * ExecutionPlan) :=
  review_plan example_completed "{}".

(** The three pending steps of the example are replaced by the new one. *)
Lemma replanning_preserves_history_witness :
  match reviewed with
  | Ok (future, changed, p) => plan_valid p /\ changed = true /\ map step_id (plan_steps p) = ["a"; "e"]
  | Raise _ => False
  end.
Proof.
  destruct (replanning_preserves_history example_completed "{}" [example_step "e" ["a"]] true
    (mk_ExecutionPlan "plan-1" "demo"
       (settled_history example_completed ++ [example_step "e" ["a"]]) P_RUNNING 4
       [("replan_count", JInt 1)])) as [Hv _]; [apply example_completed_valid|vm_compute; reflexivity|].
  assert (reviewed = Ok ([example_step "e" ["a"]], true, mk_ExecutionPlan "plan-1" "demo"
       (settled_history example_completed ++ [example_step "e" ["a"]]) P_RUNNING 4
       [("replan_count", JInt 1)])) as -> by (vm_compute; reflexivity).
  by split_and!.
Defined.
