(* ===== verification/Executions.v ===== *)
(** * The built-in strategies keep the contract of a strategy

    [ReActStrategy] and [PlanningStrategy] override hooks of
    [ModelToolStrategy]; here their hooks keep [HooksLaws] and the strategies
    [StrategyLaws], so that [EngineRun] settles every execution that uses
    them.  A plan is valid throughout, and terminal once its Run has
    stopped. *)

From Stdlib Require Import QArith.
From stdpp Require Import base gmap strings list.
From S2P Require Import Prelude Json Models Sha256 Plan Serial StateMachine ConversationStore RunStore EventStore FlowModels SideEffects Program Runtime Resources Supervision ToolExecutor ModelTool Engine RuntimeLogic EngineRun React PlanExecution.

Section Hooks.
Context `{JsonFloat} `{FloatRepr} `{Validators} `{ModelText} {X : Type}.
Variable env : nat -> ambient.
Variable services : RuntimeServices X.
Variable rid : uuid.
Variable prof : AgentProfile.
Variable log0 : list RuntimeEvent.
Variable conv : option uuid.
Variable started : bool.

#[local] Abbreviation triple := (RuntimeLogic.triple (X := X) rid prof log0 conv started).
#[local] Abbreviation sure := (RuntimeLogic.sure (X := X) rid prof log0 conv started).

Ltac step_by t := eapply triple_bind; [t|cbv beta].
Tactic Notation "step" tactic(t) := step_by t.
Ltac surely_by t := eapply sure_bind; [t|cbv beta].
Tactic Notation "surely" tactic(t) := surely_by t.
Ltac keep_ok := match goal with H : ctx_ok _ _ _ _ _ |- _ => destruct H; split; simpl in *; auto end.

#[local] Abbreviation base_fail := (triple_fail rid prof log0 conv started services).
#[local] Abbreviation base_fail_halted := (triple_fail_halted rid prof log0 conv started services).

(** *** The state dict of a strategy *)

(** A key of [supervision_data] that is the strategy's own. *)
Definition own_key (key : string) : Prop := reserved_key key /\ key <> suspended_key.

(** Assertions that the value under such a key does not matter to. *)
Definition key_free (P : RuntimeContext -> Prop) : Prop :=
forall key v c, own_key key -> P c ->
  P (set_supervision_data (dset key v (ctx_supervision_data c)) c).

Lemma has_suspended_dset key v c :
own_key key ->
has_suspended_batch (set_supervision_data (dset key v (ctx_supervision_data c)) c)
= has_suspended_batch c.
Proof. intros [_ Hk]. unfold has_suspended_batch. simpl. by rewrite dget_dset_ne. Qed.

Lemma key_free_turn k : key_free (turn k).
Proof. intros key v c Hkey [Hk Hs]. split; [done|]. by rewrite has_suspended_dset. Qed.

Lemma key_free_asking k : key_free (asking k).
Proof. intros key v c Hkey [Ht Hl]. split; [by apply key_free_turn|done]. Qed.

Lemma key_free_at_turn k s : key_free (at_turn k s).
Proof. intros key v c Hkey [Hk Hs]. split; [done|]. by rewrite has_suspended_dset. Qed.

Lemma triple_supervision_item P key : triple P (supervision_item key) (fun _ => P).
Proof.
unfold supervision_item. step (apply triple_get). intros c0.
apply triple_of_outcome. by intros a c _ [_ ?].
Qed.

Lemma triple_update_state P key f :
own_key key -> key_free P -> triple P (update_state key f) (fun _ => P).
Proof.
intros Hkey HP. unfold update_state. step (apply triple_supervision_item). intros j.
step (by apply (triple_of_outcome _ _ _ _ _ P (f j) (fun _ => P))). intros j'.
apply triple_put. intros c Hc Hp. split; [apply ctx_ok_dset; [apply Hkey|done]|by apply HP].
Qed.

Lemma triple_setdefault P key initial :
own_key key -> key_free P ->
triple P (setdefault key initial)
  (fun v c => P c /\ dget key (ctx_supervision_data c) = Some v).
Proof.
intros Hkey HP. unfold setdefault. step (apply triple_get). intros c0.
destruct (dget key (ctx_supervision_data c0)) as [v|] eqn:E.
- apply triple_ret. by intros c [<- ?].
- apply (triple_bind _ _ _ _ _ _ _ _
    (fun _ c => P c /\ dget key (ctx_supervision_data c) = Some (initial c0)));
    [|intros _; by apply triple_ret].
  apply triple_put. intros c Hc [<- Hp]. split; [apply ctx_ok_dset; [apply Hkey|done]|].
  split; [by apply HP|]. apply dget_dset_eq.
Qed.

(** *** [ReActStrategy] *)

Lemma react_own : own_key react_key.
Proof. by split_and!. Qed.

Lemma triple_emit_iteration P ty more :
bool_decide (ty ∈ terminal_types) = false ->
triple P (emit_iteration env ty more) (fun _ => P).
Proof.
intros Hty. unfold emit_iteration. step (apply triple_supervision_item). intros state.
step (by apply (triple_of_outcome _ _ _ _ _ P _ (fun _ => P))). intros data.
by apply triple_emit.
Qed.

Lemma triple_react_complete k content :
triple (turn k) (react_complete_response services content) (fun _ => turn k).
Proof.
unfold react_complete_response.
apply (triple_bind _ _ _ _ _ _ _ _ (fun _ => turn k)).
- apply triple_try_stays; [|done|].
  + apply stays_bind; [apply stays_of_outcome|]. intros r. apply (stays_of_outcome _ _ _ _ _ _ (Ok _)).
  + intros e q. destruct (_ || _); [|done]. intros [= <-].
    apply (triple_bind _ _ _ _ _ _ _ _ (fun _ => turn k)); [|intros _; by apply triple_ret].
    apply (triple_pre _ _ _ _ _ (fun c => ctx_step_count c = k)); [|by intros c [? _]].
    eapply triple_post; [apply base_fail; by apply blank_cons|]. by intros a c [? _].
- intros [r|]; cbv beta; [|by apply triple_ret].
  step (apply triple_update_state; [apply react_own|apply key_free_turn]). intros _.
  apply (triple_bind _ _ _ _ _ _ _ _ (fun _ => turn k)).
  { apply triple_put. intros c Hc Ht. split; [keep_ok|done]. }
  intros _. eapply triple_post; [by apply triple_leave|]. by intros a c [? _].
Qed.

#[export] Instance ReAct_hooks : HooksLaws rid prof log0 conv started (react_hooks env services).
Proof.
split.
- intros k response. apply triple_skip.
- intros k. simpl. unfold react_before_model_request.
  step (apply triple_update_state; [apply react_own|apply key_free_asking]). intros _.
  by apply triple_emit_iteration.
- intros k calls. by apply triple_emit_iteration.
- intros k seen. by apply triple_emit_iteration.
- intros k response acted. by apply triple_emit_iteration.
- intros k. apply triple_tool_definitions.
- intros k content. apply triple_react_complete.
- intros k error He. by apply base_fail.
- intros k. apply triple_skip.
Qed.

(** *** The plan of a context *)

(** Assertions about the Run's progress: the plan, the messages, the output
  and the strategy's own state do not matter to them. *)
Record progress (P : RuntimeContext -> Prop) : Prop := {
pg_key : key_free P;
pg_plan : forall p c, P c -> P (set_plan p c);
pg_messages : forall l c, P c -> P (set_messages l c);
pg_output : forall o c, P c -> P (set_output o c);
}.

Lemma progress_turn k : progress (turn k).
Proof. split; [apply key_free_turn|done..]. Qed.
Lemma progress_asking k : progress (asking k).
Proof. split; [apply key_free_asking|done..]. Qed.
Lemma progress_halted k : progress (halted k).
Proof. split; [by intros key v c _|done..]. Qed.
Lemma progress_steps k : progress (fun c => ctx_step_count c = k).
Proof. split; [by intros key v c _|done..]. Qed.
Lemma progress_at_turn k s : progress (at_turn k s).
Proof. split; [apply key_free_at_turn|done..]. Qed.
#[local] Hint Resolve progress_turn progress_asking progress_halted progress_steps progress_at_turn : core.

Lemma planning_own : own_key planning_key.
Proof. by split_and!. Qed.

Lemma triple_read {A} P (k : RuntimeContext -> prog (World X) A) Q :
(forall c0, ctx_ok rid prof conv started c0 -> triple (fun c => c = c0 /\ P c) (k c0) Q) ->
triple P (bind ctx_get k) Q.
Proof. intros Hk st Hi HP. by apply (Hk (w_ctx (sys_w st)) (inv_ctx _ _ _ _ _ _ Hi) st Hi). Qed.

Lemma sure_read {A} P (k : RuntimeContext -> prog (World X) A) Q :
(forall c0, ctx_ok rid prof conv started c0 -> P c0 -> sure (fun c => c = c0) (k c0) Q) ->
sure P (bind ctx_get k) Q.
Proof. intros Hk st Hi HP. by apply (Hk (w_ctx (sys_w st)) (inv_ctx _ _ _ _ _ _ Hi) HP st Hi). Qed.

Lemma triple_at {A} c0 P (p : prog (World X) A) Q :
triple P p Q -> triple (fun c => c = c0 /\ P c) p Q.
Proof. intros Hp. apply (triple_pre _ _ _ _ _ P); [done|by intros c [_ ?]]. Qed.

Lemma step_event_ongoing before after ty :
step_event before after = Some ty -> bool_decide (ty ∈ terminal_types) = false.
Proof.
unfold step_event. destruct (_ && _); [by intros [= <-]|]. by destruct after; intros [= <-].
Qed.

Lemma sure_emit_step_events P p previous steps :
sure P (emit_step_events env p previous steps) (fun _ c => P c).
Proof.
induction steps as [|s steps IH]; simpl; [apply sure_skip|].
apply (sure_bind _ _ _ _ _ _ _ _ (fun _ => P)); [|intros _; apply IH].
destruct (dget _ _) as [old|]; [|apply sure_skip].
destruct (bool_decide _); [apply sure_skip|].
destruct (step_event _ _) as [ty|] eqn:E; [|apply sure_skip].
by eapply sure_emit, step_event_ongoing.
Qed.

Lemma ctx_ok_plan c p :
plan_valid p -> ctx_ok rid prof conv started c -> ctx_ok rid prof conv started (set_plan (Some p) c).
Proof. intros Hp Hc. keep_ok. by intros q [= <-]. Qed.

(** An update that is not refused happens. *)
Lemma sure_update_plan P p created :
plan_valid p -> (forall c, P c -> P (set_plan (Some p) c)) ->
sure (fun c => P c /\ plan_replaces (ctx_plan c) p = Ok tt)
  (update_execution_plan env p created) (fun _ c => P c /\ ctx_plan c = Some p).
Proof.
intros Hv HP. unfold update_execution_plan. apply sure_read. intros c0 Hc0 [Hp0 E]. rewrite E.
surely (apply (sure_ret _ _ _ _ _ _ tt (fun _ => P)); by intros c ->). intros _.
apply (sure_bind _ _ _ _ _ _ _ _ (fun _ c => P c /\ ctx_plan c = Some p)).
{ apply sure_put. intros c Hc Hp. split; [by apply ctx_ok_plan|split; [by apply HP|done]]. }
intros _. surely (apply sure_save). intros _.
apply (sure_bind _ _ _ _ _ _ _ _ (fun _ c => P c /\ ctx_plan c = Some p)).
{ destruct (_ || _); [|apply sure_skip]. apply sure_emit. by destruct (is_none _). }
intros _.
destruct (ctx_plan c0); [apply sure_emit_step_events|apply sure_skip].
Qed.

Lemma triple_update_plan P p created :
plan_valid p -> progress P -> triple P (update_execution_plan env p created) (fun _ => P).
Proof.
intros Hv HP st Hi Hp.
destruct (plan_replaces (ctx_plan (w_ctx (sys_w st))) p) as [[]|e] eqn:E.
- destruct (sure_update_plan P p created Hv (pg_plan _ HP (Some p)) st Hi (conj Hp E))
    as (st' & [] & E' & Hi' & Hp' & _).
  exists st', (Ok tt). by split_and!.
- exists st, (Raise e). split_and!; [|done|done].
  unfold update_execution_plan. rewrite (bind_Ok _ _ st st (w_ctx (sys_w st))) by done.
  cbv beta zeta. by rewrite E.
Qed.

Lemma triple_lift {A B} P (o : outcome A) (k : A -> prog (World X) B) Q :
(forall a, o = Ok a -> triple P (k a) Q) -> triple P (bind (of_outcome o) k) Q.
Proof.
intros Hk. destruct o as [a|e]; [by apply Hk|].
intros st Hi HP. by exists st, (Raise e).
Qed.

Lemma triple_prompt_model P text : progress P -> triple P (prompt_model env text) (fun _ => P).
Proof.
intros HP. unfold prompt_model. step (apply triple_add_message; intros; by apply pg_messages).
intros _. apply triple_save.
Qed.

(** *** [PlanningStrategy]'s hooks *)

Lemma triple_require_plan P :
triple P require_plan (fun p c => P c /\ plan_valid p).
Proof.
apply triple_read. intros c0 Hc0. destruct (ctx_plan c0) as [p|] eqn:E; [|apply triple_throw].
apply triple_ret. intros c [_ Hp]. split; [done|by apply (ok_plan _ _ _ _ _ Hc0)].
Qed.

Lemma triple_planning_fail P Q error :
progress P -> triple P (hk_fail_execution (default_hooks services) error) Q ->
triple P (planning_fail_execution env services error) Q.
Proof.
intros HP Hbase. apply triple_read. intros c0 Hc0. apply triple_at.
apply (triple_bind _ _ _ _ _ _ _ _ (fun _ => P)); [|intros _; exact Hbase].
destruct (ctx_plan c0) as [p|] eqn:Ep; [|apply triple_skip].
destruct (bool_decide _); [apply triple_skip|].
apply triple_lift. intros failed Ef. apply triple_update_plan; [|done].
apply (plan_step_valid p); [by apply (ok_plan _ _ _ _ _ Hc0)|by eapply plan_failed].
Qed.

Lemma triple_fail_steps k error :
blank error = false ->
triple (fun c => ctx_step_count c = k) (planning_fail_execution env services error)
  (fun _ c => turn k c /\ ctx_state c <> RUNNING).
Proof. intros He. apply triple_planning_fail; [done|]. by apply base_fail. Qed.

Lemma triple_fail_turn k error :
blank error = false ->
triple (turn k) (planning_fail_execution env services error) (fun _ => turn k).
Proof.
intros He. apply (triple_pre _ _ _ _ _ (fun c => ctx_step_count c = k)); [|by intros c [? _]].
eapply triple_post; [by apply triple_fail_steps|]. by intros a c [? _].
Qed.

Lemma triple_planning_wait k :
triple (halted k) (planning_wait_for_input env services) (fun _ => halted k).
Proof.
unfold planning_wait_for_input. step (apply triple_require_plan). intros p.
destruct (step_with_status p S_RUNNING) as [s|].
- apply (triple_pre _ _ _ _ _ (fun c => plan_valid p /\ halted k c)); [|by intros c [? ?]].
  apply triple_fact. intros Hv. apply triple_lift. intros p' E. apply triple_update_plan; [|done].
  apply (plan_step_valid p); [done|by eapply plan_wait].
- apply (triple_pre _ _ _ _ _ (halted k)); [|by intros c [? _]].
  apply triple_planning_fail; [done|]. apply base_fail_halted. by apply blank_cons.
Qed.

Lemma triple_or_fail {A} k (o : outcome A) what :
(forall e, blank (fstr [what; ": "; exn_str e]) = false) ->
triple (turn k) (or_fail env services o what)
  (fun a c => (forall x, a = Some x -> o = Ok x) /\ turn k c).
Proof.
intros Hw. destruct o as [a|e].
- intros st Hi HP. exists st, (Ok (Some a)). split_and!; [done|done|].
  intros b [= <-]. split; [by intros x [= <-]|done].
- assert (triple (turn k)
    (if isinstance e ExValueError || isinstance e ExTypeError
     then bind (planning_fail_execution env services (fstr [what; ": "; exn_str e]))
            (fun _ => ret (@None A))
     else throw e) (fun a c => (forall x, a = Some x -> Raise e = Ok x) /\ turn k c)) as Hh.
  { destruct (_ || _); [|apply triple_throw].
    apply (triple_bind _ _ _ _ _ _ _ _ (fun _ => turn k)).
    - apply triple_fail_turn, Hw.
    - intros _. by apply triple_ret. }
  intros st Hi HP. destruct (Hh st Hi HP) as (st' & o' & E & Hq). exists st', o'. split; [|done].
  rewrite <-E. unfold or_fail, try_except, bind at 1, of_outcome. by destruct (_ || _).
Qed.

Lemma triple_put_key P v :
progress P ->
triple P (ctx_put (fun c => set_supervision_data (dset planning_key v (ctx_supervision_data c)) c))
  (fun _ => P).
Proof.
intros HP. apply triple_put. intros c Hc Hp.
split; [by apply ctx_ok_dset; [apply planning_own|]|by apply HP].
Qed.

Lemma triple_update_key P f : progress P -> triple P (update_state planning_key f) (fun _ => P).
Proof. intros HP. apply triple_update_state; [apply planning_own|apply HP]. Qed.

Lemma triple_set_output P o : progress P -> triple P (ctx_put (set_output o)) (fun _ => P).
Proof. intros HP. apply triple_put. intros c Hc Hp. split; [keep_ok|by apply HP]. Qed.

Lemma triple_leave_turn k t :
t <> CREATED -> t <> WAITING -> t <> RUNNING ->
triple (turn k) (ctx_do (ctx_transition t)) (fun _ => turn k).
Proof. intros ???. eapply triple_post; [by apply triple_leave|]. by intros a c [? _]. Qed.

Lemma triple_finish_plan k options ellipsis p :
triple (turn k) (finish_plan env options ellipsis p) (fun _ => turn k).
Proof.
unfold finish_plan. destruct (negb _).
- step (by apply triple_set_output). intros _. by apply triple_leave_turn.
- step (by apply triple_put_key). intros _. apply triple_read. intros c0 _. apply triple_at.
  by apply triple_prompt_model.
Qed.

Lemma triple_prompt_definitions P : triple P (prompt_definitions services) (fun _ => P).
Proof.
unfold prompt_definitions. destruct (sv_tool_registry services); [|apply triple_skip].
apply triple_read. intros c0 _. apply triple_of_outcome. by intros a c _ [_ ?].
Qed.

Lemma triple_complete_planning k content :
triple (turn k) (complete_planning env services content) (fun _ => turn k).
Proof.
unfold complete_planning. step (apply triple_or_fail; intros e; by apply blank_cons).
intros [p|]; [|by apply triple_ret; intros c [_ ?]].
apply triple_fact. intros E. specialize (E p eq_refl). raise_free E.
apply (triple_bind _ _ _ _ _ _ _ _ (fun _ => turn k)); [|intros _; by apply triple_update_key].
apply triple_update_plan; [by eapply parse_generated_plan_valid|done].
Qed.

Lemma triple_complete_updating k options ellipsis state content :
triple (turn k) (complete_updating env services options ellipsis state content) (fun _ => turn k).
Proof.
unfold complete_updating. step (apply triple_require_plan). intros p.
apply (triple_pre _ _ _ _ _ (fun c => plan_valid p /\ turn k c)); [|by intros c [? ?]].
apply triple_fact. intros Hp. step (apply triple_or_fail; intros e; by apply blank_cons).
intros [[[future changed] updated]|]; [|by apply triple_ret; intros c [_ ?]].
apply triple_fact. intros E. specialize (E _ eq_refl). apply review_plan_valid in E; [|done].
apply triple_lift. intros completed _.
step (by apply triple_emit). intros _.
apply (triple_bind _ _ _ _ _ _ _ _ (fun _ => turn k)).
{ destruct changed; [by apply triple_update_plan|apply triple_skip]. }
intros _. step (by apply triple_update_key). intros _.
destruct (bool_decide _); [apply triple_finish_plan|apply triple_skip].
Qed.

Lemma triple_complete_running k p running state content :
plan_valid p ->
triple (turn k) (complete_running env services p running state content)
  (fun a c => (forall q, a = Some q -> plan_valid q) /\ turn k c).
Proof.
intros Hv. unfold complete_running.
assert (forall r su at' md q, complete_step p (step_id running) r su at' md = Ok q -> plan_valid q) as Hc
  by (intros; eapply plan_step_valid; [done|by eapply plan_complete]).
destruct (bool_decide _).
- step (apply triple_or_fail; intros e; by apply blank_cons). intros [r|].
  + apply triple_fact. intros _. apply triple_lift. intros react _.
    apply triple_lift. intros q Hq. step (by apply triple_update_key). intros _.
    apply triple_ret. intros c Ht. split; [intros q' [= <-]; by eapply Hc|done].
  + apply triple_ret. by intros c [_ ?].
- apply triple_lift. intros q Hq. apply triple_ret. intros c Ht.
  split; [intros q' [= <-]; by eapply Hc|done].
Qed.

Lemma triple_complete_executing k options ellipsis state content :
triple (turn k) (complete_executing env services options ellipsis state content) (fun _ => turn k).
Proof.
unfold complete_executing. step (apply triple_require_plan). intros p.
apply (triple_pre _ _ _ _ _ (fun c => plan_valid p /\ turn k c)); [|by intros c [? ?]].
apply triple_fact. intros Hp. destruct (step_with_status p S_RUNNING) as [running|].
2: { apply triple_fail_turn. by apply blank_cons. }
step (by apply triple_complete_running). intros [q|]; [|by apply triple_ret; intros c [_ ?]].
apply triple_fact. intros Hq. specialize (Hq q eq_refl).
apply (triple_bind _ _ _ _ _ _ _ _ (fun _ => turn k)); [by apply triple_update_plan|intros _].
destruct (po_replan_after_step options).
- step (by apply triple_update_key). intros _. step (by apply triple_update_key). intros _.
  apply triple_lift. intros done _. step (apply triple_prompt_definitions). intros definitions.
  apply triple_read. intros c0 _. apply triple_at. by apply triple_prompt_model.
- destruct (bool_decide _); [apply triple_finish_plan|apply triple_skip].
Qed.

Lemma triple_planning_complete k options ellipsis content :
triple (turn k) (planning_complete_response env services options ellipsis content) (fun _ => turn k).
Proof.
unfold planning_complete_response.
apply (triple_bind _ _ _ _ _ _ _ _ (fun _ => turn k)).
{ eapply triple_post; [apply triple_setdefault; [apply planning_own|apply key_free_turn]|].
  by intros v c [? _]. }
intros state. apply triple_lift. intros phase _.
destruct (in_phase phase_planning phase); [apply triple_complete_planning|].
destruct (in_phase phase_updating phase); [apply triple_complete_updating|].
destruct (in_phase phase_summarizing phase); [|apply triple_complete_executing].
step (by apply triple_set_output). intros _. by apply triple_leave_turn.
Qed.

Lemma triple_emit_step_iteration P ty more :
bool_decide (ty ∈ terminal_types) = false ->
triple P (emit_step_iteration env ty more) (fun _ => P).
Proof.
intros Hty. apply triple_read. intros c0 _. apply triple_at. apply triple_lift. intros [s|] _.
- step (apply triple_supervision_item). intros state. apply triple_lift. intros react _.
  by apply triple_emit.
- apply triple_skip.
Qed.

Lemma triple_planning_before P :
progress P -> triple P (planning_before_model_request env) (fun _ => P).
Proof.
intros HP. apply triple_read. intros c0 _. apply triple_at. apply triple_lift. intros [s|] _.
- step (apply triple_supervision_item). intros state. apply triple_lift. intros raw _.
  step (by apply triple_update_key). intros _. apply triple_lift. intros n _.
  step (by apply triple_update_key). intros _. by apply triple_emit.
- apply triple_skip.
Qed.

Lemma triple_planning_definitions P :
triple P (planning_tool_definitions services) (fun _ => P).
Proof.
apply triple_read. intros c0 _. apply triple_at. apply triple_lift. intros phase _.
assert (triple P (if in_phase phase_planning phase || in_phase phase_updating phase
                     || in_phase phase_summarizing phase
                  then ret [] else hk_tool_definitions (default_hooks services)) (fun _ => P)) as Hd.
{ destruct (_ || _); [apply triple_skip|apply triple_tool_definitions]. }
destruct phase as [[]|]; try exact Hd; apply triple_throw.
Qed.

#[export] Instance Planning_hooks options ellipsis :
HooksLaws rid prof log0 conv started (planning_hooks env services options ellipsis).
Proof.
split.
- intros k response. apply triple_skip.
- intros k. by apply triple_planning_before.
- intros k calls. by apply triple_emit_step_iteration.
- intros k seen. by apply triple_emit_step_iteration.
- intros k response acted. by apply triple_emit_step_iteration.
- intros k. apply triple_planning_definitions.
- intros k content. apply triple_planning_complete.
- intros k error He. by apply triple_fail_steps.
- intros k. apply triple_planning_wait.
Qed.

(** *** [settle] *)

(** The states in which [settle] ends the plan, and a plan that is over. *)
Definition ends_plan (s : RunStatus) : bool :=
bool_decide (s ∈ [CANCELLED; FAILED; INTERRUPTED; LIMIT_REACHED]).
Definition plan_over (c : RuntimeContext) : Prop :=
ends_plan (ctx_state c) = true ->
forall p, ctx_plan c = Some p -> plan_status p ∈ [P_COMPLETED; P_FAILED; P_CANCELLED].

Lemma error_or_says c text :
ctx_ok rid prof conv started c -> blank text = false -> blank (error_or (ctx_error c) text) = false.
Proof.
intros Hc Ht. unfold error_or. destruct (ctx_error c) as [r|] eqn:E; [|done].
destruct (is_empty r); [done|by apply (ok_error _ _ _ _ _ Hc)].
Qed.

Lemma stop_plan_replaces p st pst e : plan_replaces (Some p) (stop_plan p st pst e) = Ok tt.
Proof. simpl. rewrite bool_decide_true by done. simpl. by rewrite (proj2 (Z.leb_gt _ _)) by lia. Qed.

(** The replacement of the plan [p] of [c0] by one that is over. *)
Lemma sure_stop_plan c0 p p' pst s :
ctx_ok rid prof conv started c0 -> ctx_plan c0 = Some p -> ctx_state c0 = s ->
plan_step p p' -> plan_replaces (Some p) p' = Ok tt ->
plan_status p' = pst -> pst ∈ [P_COMPLETED; P_FAILED; P_CANCELLED] ->
sure (fun c => c = c0) (update_execution_plan env p' false)
  (fun _ c => ctx_state c = s /\ plan_over c).
Proof.
intros Hc Hp Hs Hstep Hr Hst Hin st Hi E0.
assert (plan_valid p') as Hv by (eapply plan_step_valid; [by eapply (ok_plan _ _ _ _ _ Hc)|done]).
assert (ctx_state (w_ctx (sys_w st)) = s /\ plan_replaces (ctx_plan (w_ctx (sys_w st))) p' = Ok tt)
  as Hpre by (rewrite E0, Hp; done).
destruct (sure_update_plan (fun c => ctx_state c = s) p' false Hv (fun c Hx => Hx) st Hi Hpre)
  as (st' & [] & E & Hi' & Hs' & Hp').
exists st', tt. split_and!; try done. intros _ q Hq. rewrite Hp' in Hq. injection Hq as <-. by rewrite Hst.
Qed.

Lemma sure_settle s :
sure (fun c => ctx_state c = s) (settle_terminal_plan env)
  (fun _ c => ctx_state c = s /\ plan_over c).
Proof.
apply sure_read. intros c0 Hc0 Hs.
assert (plan_over c0 -> sure (fun c => c = c0) (ret tt) (fun _ c => ctx_state c = s /\ plan_over c))
  as Hret by (intros Ho; apply sure_ret; by intros c ->).
destruct (ctx_plan c0) as [p|] eqn:Ep; [|apply Hret; intros _ q; by rewrite Ep].
destruct (bool_decide (plan_status p ∈ _)) eqn:Et; reflect.
{ apply Hret. intros _ q. rewrite Ep. by intros [= <-]. }
assert (forall text, blank text = false -> blank (error_or (ctx_error c0) text) = false) as Hsay
  by (intros; by apply error_or_says).
destruct (bool_decide (ctx_state c0 = CANCELLED)) eqn:Ec.
- unfold plan_cancel. rewrite Hsay by by apply blank_cons. simpl.
  eapply sure_stop_plan; [done|done|done| |apply stop_plan_replaces|reflexivity|by right; right; left].
  apply (plan_cancelled _ _ (error_or (ctx_error c0) "run cancelled")).
  unfold plan_cancel. by rewrite Hsay by by apply blank_cons.
- destruct (bool_decide (ctx_state c0 ∈ [FAILED; INTERRUPTED; LIMIT_REACHED])) eqn:Ef.
  + set (text := fstr ["run ended with "; RunStatus_value (ctx_state c0)]).
    assert (blank text = false) as Ht by by apply blank_cons.
    unfold plan_fail. rewrite Hsay by done. simpl.
    eapply sure_stop_plan; [done|done|done| |apply stop_plan_replaces|reflexivity|by right; left].
    apply (plan_failed _ _ (error_or (ctx_error c0) text)). unfold plan_fail. by rewrite Hsay.
  + apply Hret. intros He q. exfalso. unfold ends_plan in He. reflect.
    apply elem_of_cons in He as [He|He]; [by destruct Ec|by destruct Ef].
Qed.

Lemma triple_settle_plan P : progress P -> triple P (settle_terminal_plan env) (fun _ => P).
Proof.
intros HP. apply triple_read. intros c0 Hc0. apply triple_at.
destruct (ctx_plan c0) as [p|] eqn:Ep; [|apply triple_skip].
pose proof (ok_plan _ _ _ _ _ Hc0 p Ep) as Hv.
destruct (bool_decide _); [apply triple_skip|]. destruct (bool_decide _).
- apply triple_lift. intros p' E. apply triple_update_plan; [|done].
  by eapply plan_step_valid, plan_cancelled.
- destruct (bool_decide _); [|apply triple_skip]. apply triple_lift. intros p' E.
  apply triple_update_plan; [|done]. by eapply plan_step_valid, plan_failed.
Qed.
End Hooks.

(** ** The laws of the strategies *)

Section Laws.
Context `{JsonFloat} `{FloatRepr} `{Validators} `{ModelText} {X : Type}.
Variable env : nat -> ambient.
Variable expires : nat -> bool.
Variable specs : list (ResourceSpec X).
Variable memories : MemoryManager X.
Variable services : RuntimeServices X.
Variable rid : uuid.
Variable prof : AgentProfile.
Variable log0 : list RuntimeEvent.
Variable conv : option uuid.
Hypothesis application : peaceful_application specs memories services rid.

#[local] Abbreviation triple := (RuntimeLogic.triple (X := X) rid prof log0 conv true).

Ltac step_by t := eapply triple_bind; [t|cbv beta].
Tactic Notation "step" tactic(t) := step_by t.
Ltac keep_ok := match goal with H : ctx_ok _ _ _ _ _ |- _ => destruct H; split; simpl in *; auto end.
#[local] Hint Resolve progress_turn progress_halted progress_steps progress_at_turn : core.

(** *** [ReActStrategy] *)

Lemma triple_add_instructions k s :
triple (at_turn k s) (add_instructions env) (fun _ => at_turn k s).
Proof.
apply triple_read. intros c0 _. apply triple_at. destruct (ctx_messages c0) as [|first rest];
  [apply triple_throw|].
destruct (msg_content first); [|apply triple_throw]. apply triple_lift. intros m _.
apply (triple_bind _ _ _ _ _ _ _ _ (fun _ => at_turn k s)).
{ apply triple_put. intros c Hc Hs. split; [keep_ok|done]. }
intros _. step (apply triple_update_state; [apply react_own|apply key_free_at_turn]). intros _.
apply triple_save.
Qed.

Lemma triple_react_advance max_iterations k s :
k < prof_max_steps prof ->
triple (at_turn k s) (react_advance env expires services max_iterations) (fun _ => turned k s).
Proof.
intros Hk. unfold react_advance.
apply (triple_bind _ _ _ _ _ _ _ _ (fun _ => at_turn k s)).
{ eapply triple_post; [apply triple_setdefault; [apply react_own|apply key_free_at_turn]|].
  by intros v c [? _]. }
intros state. apply triple_lift. intros added _.
apply (triple_bind _ _ _ _ _ _ _ _ (fun _ => at_turn k s)).
{ destruct (truthy _); [apply triple_skip|apply triple_add_instructions]. }
intros _. apply triple_lift. intros n _. apply triple_read. intros c0 _. apply triple_at.
destruct (_ && _); [|eapply triple_model_tool; [exact application|apply ReAct_hooks|done]].
apply (triple_pre _ _ _ _ _ (fun c => ctx_step_count c = k)); [|by intros c [? _]].
eapply triple_post; [by apply triple_fail, blank_cons|]. intros [] c [_ Hr] Hr'. done.
Qed.

#[export, refine] Instance ReAct_laws max_iterations :
StrategyLaws rid prof log0 conv (ReActStrategy env expires services max_iterations) := {
st_measure := turns_left prof;
st_turns := 2 * prof_max_steps prof + 2;
st_ended := fun _ => True;
measure_bound := turns_left_bound rid prof conv;
measure_counters := turns_left_counters prof;
}.
Proof.
- intros m. apply triple_budget. intros k s. apply triple_react_advance.
- done.
Defined.

(** *** [PlanningStrategy] *)

(** Whether the state under the strategy's key is in its last phase. *)
Definition summarizing_state (v : option json) : bool :=
match v with
| Some j => match json_get "phase" j with
            | Ok phase => in_phase phase_summarizing phase
            | Raise _ => false
            end
| None => false
end.
Definition summarizing (c : RuntimeContext) : bool :=
summarizing_state (dget planning_key (ctx_supervision_data c)).

(** Turns left: the summary needs one that no step of the plan takes. *)
Definition planning_left (c : RuntimeContext) : Z :=
2 * (prof_max_steps prof - ctx_step_count c) + 2 * (if has_suspended_batch c then 1 else 0)
+ (if summarizing c then 0 else 1).

(** After an [advance] that began at step [k], with a suspended batch or not,
  in the last phase or not. *)
Definition planned (k : Z) (s b : bool) (c : RuntimeContext) : Prop :=
ctx_state c = RUNNING ->
turn (k + 1) c \/ s = true /\ turn k c \/ b = false /\ at_turn k s c /\ summarizing c = true.

Lemma turned_planned k s b c : turned k s c -> planned k s b c.
Proof. intros Hc Hr. destruct (Hc Hr) as [?|?]; auto. Qed.

Lemma progress_turned k s : progress (turned k s).
Proof.
split; [|done..]. intros key v c Hkey Hc Hr.
destruct (Hc Hr) as [Ht|[Hs Ht]]; [left|right; split; [done|]]; by apply key_free_turn.
Qed.

Lemma triple_advance_and_settle options ellipsis k s :
k < prof_max_steps prof ->
triple (at_turn k s) (advance_and_settle env expires services options ellipsis)
  (fun _ => turned k s).
Proof.
intros Hk. unfold advance_and_settle.
apply (triple_bind _ _ _ _ _ _ _ _ (fun _ => turned k s)).
- eapply triple_model_tool; [exact application|apply Planning_hooks|done].
- intros _. apply triple_settle_plan, progress_turned.
Qed.

Lemma triple_fail_planned k s b error :
blank error = false ->
triple (at_turn k s) (planning_fail_execution env services error) (fun _ => planned k s b).
Proof.
intros He. apply (triple_pre _ _ _ _ _ (fun c => ctx_step_count c = k)); [|by intros c [? _]].
eapply triple_post; [by apply triple_fail_steps|]. by intros [] c [_ Hr] Hr'.
Qed.

(** The plan is finished: the Run completes, or the summary is asked for. *)
Lemma triple_finish_planned options ellipsis p k s :
triple (at_turn k s) (finish_plan env options ellipsis p) (fun _ => planned k s false).
Proof.
unfold finish_plan. destruct (negb _).
- step (by apply triple_set_output). intros _.
  apply triple_do. intros c c' Hc _ Ht. apply ctx_transition_Ok in Ht as [-> _].
  split; [keep_ok; by intros|]. by intros Hr.
- apply (triple_bind _ _ _ _ _ _ _ _ (fun _ c => at_turn k s c /\ summarizing c = true)).
  { apply triple_put. intros c Hc Hp. split; [by apply ctx_ok_dset; [apply planning_own|]|].
    split; [by apply key_free_at_turn; [apply planning_own|]|].
    unfold summarizing. simpl. by rewrite dget_dset_eq. }
  intros _. apply triple_read. intros c0 _. apply triple_at.
  unfold prompt_model. step (apply triple_add_message; by intros c l [? ?]).
  intros _. eapply triple_post; [apply triple_save|]. intros [] c [Ht Hs] _. auto.
Qed.

Lemma triple_no_ready_step options ellipsis p k s :
triple (at_turn k s) (handle_no_ready_step env services options ellipsis p)
  (fun _ => planned k s false).
Proof.
unfold handle_no_ready_step. destruct (bool_decide _); [apply triple_finish_planned|].
by apply triple_fail_planned, blank_cons.
Qed.

Lemma triple_resume_step P p :
plan_valid p -> progress P ->
triple P (resume_waiting env p) (fun p' c => plan_valid p' /\ P c).
Proof.
intros Hv HP. unfold resume_waiting. destruct (step_with_status p S_WAITING) as [w|].
- apply triple_lift. intros p' E.
  assert (plan_valid p') as Hv' by (eapply plan_step_valid; [done|by eapply plan_resume]).
  apply (triple_bind _ _ _ _ _ _ _ _ (fun _ => P)); [by apply triple_update_plan|].
  intros _. by apply triple_ret.
- by apply triple_ret.
Qed.

Lemma triple_begin_step P p s :
plan_valid p -> progress P -> triple P (begin_step env p s) (fun _ => P).
Proof.
intros Hv HP. apply triple_lift. intros p' E.
apply (triple_bind _ _ _ _ _ _ _ _ (fun _ => P)).
- apply triple_update_plan; [|done]. by eapply plan_step_valid, plan_start.
- intros _. apply triple_read. intros c0 _. apply triple_at. by apply triple_prompt_model.
Qed.

Lemma triple_current_step options ellipsis p k s :
plan_valid p ->
triple (at_turn k s) (current_step env services options ellipsis p)
  (fun a c => match a with Some _ => at_turn k s c | None => planned k s false c end).
Proof.
intros Hv. unfold current_step. destruct (step_with_status p S_RUNNING); [by apply triple_ret|].
apply triple_lift. intros [|next rest] _.
- apply (triple_bind _ _ _ _ _ _ _ _ (fun _ => planned k s false)); [apply triple_no_ready_step|].
  intros _. by apply triple_ret.
- apply (triple_bind _ _ _ _ _ _ _ _ (fun _ => at_turn k s)); [by apply triple_begin_step|].
  intros _. by apply triple_ret.
Qed.

Lemma triple_iteration_limit options P state s :
triple P (iteration_limit options state s) (fun _ => P).
Proof.
unfold iteration_limit. destruct (bool_decide _); [|apply triple_skip].
apply triple_lift. intros react _. apply triple_lift. intros n _.
apply triple_read. intros c0 _. apply triple_at, triple_skip.
Qed.

Lemma triple_advance_plan options ellipsis state p k s :
k < prof_max_steps prof -> plan_valid p ->
triple (at_turn k s) (advance_plan env expires services options ellipsis state p)
  (fun _ => planned k s (summarizing_state (Some state))).
Proof.
intros Hk Hv. unfold advance_plan. apply triple_lift. intros [] _.
apply triple_lift. intros phase Hphase. simpl. rewrite Hphase.
destruct (in_phase phase_summarizing phase || in_phase phase_updating phase) eqn:E.
- eapply triple_post; [by apply triple_advance_and_settle|]. intros []. apply turned_planned.
- apply orb_false_iff in E as [-> _].
  step (by apply triple_resume_step). intros p'. apply triple_fact. intros Hv'.
  step (by apply triple_current_step). intros [running|]; [|by apply triple_ret].
  step (apply triple_iteration_limit). intros [|].
  + by apply triple_fail_planned, blank_cons.
  + eapply triple_post; [by apply triple_advance_and_settle|]. intros []. apply turned_planned.
Qed.

Lemma triple_advance_planning options ellipsis state k s b :
k < prof_max_steps prof ->
triple (at_turn k s) (advance_planning env expires services options ellipsis state)
  (fun _ => planned k s b).
Proof.
intros Hk. apply triple_read. intros c0 _. apply triple_at.
destruct (negb _); [apply triple_throw|]. apply triple_lift. intros phase _.
destruct (negb _); [by apply triple_fail_planned, blank_cons|].
apply triple_lift. intros added _.
apply (triple_bind _ _ _ _ _ _ _ _ (fun _ => at_turn k s)).
- destruct (truthy _); [apply triple_skip|].
  step (apply triple_prompt_definitions). intros definitions.
  step (apply triple_add_message; by intros c l ?). intros _.
  step (by apply triple_update_key). intros _. apply triple_save.
- intros _. eapply triple_post; [by apply triple_advance_and_settle|]. intros []. apply turned_planned.
Qed.

Lemma triple_planning_setdefault initial k s b :
(forall c, summarizing_state (Some (initial c)) = false) ->
triple (fun c => at_turn k s c /\ summarizing c = b) (setdefault planning_key initial)
  (fun v c => b = summarizing_state (Some v) /\ at_turn k s c).
Proof.
intros Hinit. apply triple_read. intros c0 _. unfold summarizing.
destruct (dget planning_key (ctx_supervision_data c0)) as [v|] eqn:E.
- apply triple_ret. intros c [-> [Ht <-]]. by rewrite E.
- apply (triple_bind _ _ _ _ _ _ _ _ (fun _ c => b = false /\ at_turn k s c)).
  + apply triple_put. intros c Hc [-> [Ht <-]]. rewrite E.
    split; [by apply ctx_ok_dset; [apply planning_own|]|].
    split; [done|by apply key_free_at_turn; [apply planning_own|]].
  + intros _. apply triple_ret. by intros c [-> ?].
Qed.

Lemma triple_planning_advance options ellipsis k s b :
k < prof_max_steps prof ->
triple (fun c => at_turn k s c /\ summarizing c = b)
  (planning_advance env expires services options ellipsis) (fun _ => planned k s b).
Proof.
intros Hk. unfold planning_advance. step (apply triple_planning_setdefault).
{ intros c. simpl. by destruct (_ && _). }
intros state. apply triple_fact. intros ->. apply triple_read. intros c0 Hc0. apply triple_at.
destruct (ctx_plan c0) as [p|] eqn:E.
- by apply triple_advance_plan, (ok_plan _ _ _ _ _ Hc0).
- by apply triple_advance_planning.
Qed.

Lemma planned_left k s b c :
planned k s b c -> ctx_state c = RUNNING ->
planning_left c < 2 * (prof_max_steps prof - k) + 2 * (if s then 1 else 0) + (if b then 0 else 1).
Proof.
intros Hc Hr. unfold planning_left.
destruct (Hc Hr) as [[Hk Hb]|[(-> & Hk & Hb)|(-> & [Hk Hb] & Hs)]].
- rewrite Hk, (Hb Hr). destruct s, b, (summarizing c); lia.
- rewrite Hk, (Hb Hr). destruct b, (summarizing c); lia.
- rewrite Hk, Hb, Hs. lia.
Qed.

#[export, refine] Instance Planning_laws options ellipsis :
StrategyLaws rid prof log0 conv (PlanningStrategy env expires services options ellipsis) := {
st_measure := planning_left;
st_turns := 2 * prof_max_steps prof + 4;
st_ended := plan_over;
}.
Proof.
- intros c Hc. unfold planning_left. pose proof (ok_steps _ _ _ _ _ Hc).
  destruct (has_suspended_batch _), (summarizing c); lia.
- intros c c' Hsame. unfold planning_left, summarizing.
  destruct (has_suspended_counters _ _ Hsame) as [-> ->]. do 2 f_equal.
  destruct Hsame as [E|(_ & _ & E)]; [by destruct c, c'; simplify_eq/=|by rewrite E].
- intros m. apply triple_turn. intros k s st Hi Hpre.
  destruct Hpre as [[Hm Hlt] [Hk Hs]]. pose proof Hm as Hm'. unfold planning_left in Hm'.
  rewrite Hk, Hs in Hm'. rewrite Hk in Hlt.
  destruct (triple_planning_advance options ellipsis k s (summarizing (w_ctx (sys_w st))) Hlt st Hi)
    as (st' & o & E & Hi' & Hq); [by repeat split|].
  exists st', o. split_and!; [exact E|exact Hi'|]. intros a Ha Hr. rewrite <-Hm'.
  by apply planned_left; [eapply Hq|].
- intros s _. apply sure_settle.
Defined.

(** ** Executions *)

(** The strategies of the library. *)
Inductive builtin :=
| UseModelTool
| UseReAct (max_iterations : Z)
| UsePlanning (options : PlanningOptions) (ellipsis : Ascii.ascii).

Definition builtin_strategy (b : builtin) : Strategy X :=
match b with
| UseModelTool => ModelToolStrategy env expires services
| UseReAct max_iterations => ReActStrategy env expires services max_iterations
| UsePlanning options ellipsis => PlanningStrategy env expires services options ellipsis
end.

(** More turns of the loop than an execution needs. *)
Definition builtin_turns (b : builtin) : Z :=
2 * prof_max_steps prof + match b with UsePlanning _ _ => 4 | _ => 2 end.

(** C1: an execution ends and settles its Run.  Given that the Run is stored as
  it was created or as it waits ([ready]), that a conversation store is there
  when the Run has a conversation (without one [execute] raises before the
  Run is settled), and that leaving a resource is not where the task is
  cancelled (which ends [close] before the Run is settled): however the
  provider, the tools, the resources, the retriever and the other tasks behave
  otherwise (returning or raising anything, an [asyncio] cancellation
  included, as long as they do not reach into this Run), [execute] with a
  built-in strategy and the default supervisor needs at most
  [2 * max_steps + 3] turns of its loop.  Either it refuses the execution before it touched a
  store, which it never does to a well configured new Run; or it leaves the
  Run in a state that is not [RUNNING] within the step and tool-call
  limits, with its stored snapshot telling of the context, one closing
  event of that state after the events of the execution, a checkpoint that
  restores the very context exactly when the Run waits, and the
  conversation turn in the same state and the conversation free unless it
  waits; the result is the one of that context, and what is raised instead
  is no [Exception] and left the Run stopped.  The plan of the context is
  valid, and with [PlanningStrategy] it is over once the Run was cancelled,
  failed, was interrupted or reached a limit. *)
Theorem execution_settles b fuel store ri conf (st : sys (World X)) :
ready rid prof log0 conv (sys_w st) -> (conv <> None -> store = true) ->
builtin_turns b <= Z.of_nat fuel ->
exists st' o,
  runtime_execute env specs memories services (builtin_strategy b) fuel store ri conf st
    = Some (st', o) /\
  ((exists e, o = Raise e) /\ untouched (sys_w st) (sys_w st') /\
     ~ accepted specs memories rid (sys_w st) \/
   settled rid prof log0 conv (sys_w st') /\
   (forall options ellipsis, b = UsePlanning options ellipsis -> plan_over (w_ctx (sys_w st'))) /\
   match o with
   | Ok r => build_result (w_ctx (sys_w st')) = Ok r
   | Raise e => is_exception e = false /\ stopped (w_ctx (sys_w st'))
   end).
Proof.
intros Hrd Hstore Hfuel.
assert (exists laws : StrategyLaws rid prof log0 conv (builtin_strategy b),
  st_turns rid prof log0 conv = builtin_turns b /\
  forall c, st_ended rid prof log0 conv c ->
    forall options ellipsis, b = UsePlanning options ellipsis -> plan_over c)
  as (laws & Hturns & Hended).
{ destruct b as [|n|options ellipsis].
  - exists (ModelTool_laws env expires specs memories services rid prof log0 conv application). done.
  - exists (ReAct_laws n). done.
  - by exists (Planning_laws options ellipsis). }
destruct (strategy_settles env expires specs memories services rid prof log0 conv application
  (builtin_strategy b) fuel store ri conf st Hrd Hstore) as (st' & o & E & Ho).
{ by rewrite Hturns. }
exists st', o. split; [done|]. destruct Ho as [?|[[Hs He] Ho]]; [by left|right].
split_and!; [done|by apply Hended|done].
Qed.
End Laws.

(** ** An execution *)

#[local] Instance plain_repr : FloatRepr := fun _ => "0.0".

#[local] Instance plain_float : JsonFloat := fun _ => "0.0".

(** No dump is parsed back in this execution. *)
#[local] Instance no_validators : Validators := {
  ToolCall_validate_json _ := Raise (Exn ExValueError "invalid");
  ToolResult_validate_json _ := Raise (Exn ExValueError "invalid");
  ModelResponse_validate_json _ := Raise (Exn ExValueError "invalid");
  ToolConfirmation_validate_json _ := Raise (Exn ExValueError "invalid");
  ToolConfirmationRequest_validate_json _ := Raise (Exn ExValueError "invalid");
  ToolResult_validate_text _ := Raise (Exn ExValueError "invalid");
}.

(** A provider that asks for the counting tool until it has run. *)
Definition fetching_provider : ModelProvider Z :=
  mk_ModelProvider "scripted" (fun _ => fun st =>
    Some (st, Ok (if w_ext (sys_w st) =? 0
                  then mk_ModelResponse None [mk_ToolCall "c1" "fetch" []] None TokenUsage_zero []
                  else mk_ModelResponse (Some "Done.") [] None TokenUsage_zero []))).

Definition fetching_services : RuntimeServices Z :=
  mk_RuntimeServices fetching_provider None (Some counting_executor) build_default_supervisor.

Definition fetching_profile : AgentProfile :=
  mk_AgentProfile "helper" "Answer." None ["fetch"] [] {["net"]} 5 5 3 3 262144.

(** No text is read as JSON in this execution. *)
#[local] Instance no_text : ModelText := {
  json_loads _ := Raise (Exn ExValueError "invalid");
  ReActResult_read _ := Raise (Exn ExValueError "invalid");
  PlanStep_read _ := Raise (Exn ExValueError "invalid");
  ExecutionPlan_read _ := Raise (Exn ExValueError "invalid");
}.

Definition fetching_context : RuntimeContext :=
  match create_context example_ambient fetching_profile "Fetch it." (Some 7%N) None None [] [] None
          (Some example_plan) false [] [] with
  | Ok c => c
  | Raise _ => example_waiting
  end.

Definition fetching_world : World Z :=
  mk_World fetching_context ∅ ∅ ∅ (mk_ConversationStore ∅ ∅) (mk_ResourceScope SCOPE_CREATED [] []) 0.

Definition no_memories : MemoryManager Z := mk_MemoryManager None 5 None BEST_EFFORT.

Lemma fetching_peaceful :
  peaceful_application [] no_memories fetching_services 7%N.
Proof.
  split; [done| |by intros s ?%elem_of_nil|done].
  split; [intros request st; eexists _, _; split; [reflexivity|apply peaceful_refl]|].
  split; [intros call name sm cm c; apply quiet_of_outcome|]. split; [exact I|].
  intros name t Ht. unfold tool_get in Ht. simpl in Ht. case_decide; [|discriminate].
  injection Ht as <-. split; [|exact I]. intros args. split; intros st; [|by eexists _, _; split; [reflexivity|apply peaceful_refl]].
  eexists _, _. split; [reflexivity|]. split; try done; simpl; [by rewrite set_artifacts_id|].
  exists []. rewrite app_nil_r. split; [done|constructor].
Qed.

(** A plan of four steps, carried out without replanning. *)
Definition fetching_options : PlanningOptions := mk_PlanningOptions false false 5.

Definition fetching_run : option (sys (World Z) * outcome AgentResult) :=
  runtime_execute (fun _ => example_ambient) [] no_memories fetching_services
    (builtin_strategy (fun _ => example_ambient) (fun _ => false) fetching_services
       (UsePlanning fetching_options (Ascii.ascii_of_nat 46)))
    14 false None None (mk_sys fetching_world 0).

Definition on_run (p : option (sys (World Z) * outcome AgentResult)) :=
  match p with
  | Some (st, Ok r) => Some (ares_status r, w_ext (sys_w st), option_map plan_status (ctx_plan (w_ctx (sys_w st))))
  | _ => None
  end.

(** The tool ran once, the plan was carried out, and the Run is settled as
    completed. *)
Lemma execution_settles_witness :
  exists st' r, fetching_run = Some (st', Ok r) /\ settled 7%N fetching_profile [] None (sys_w st') /\
    ares_status r = R_COMPLETED /\ w_ext (sys_w st') = 1 /\
    option_map plan_status (ctx_plan (w_ctx (sys_w st'))) = Some P_COMPLETED.
Proof.
  destruct (execution_settles (fun _ => example_ambient) (fun _ => false) [] no_memories
    fetching_services 7%N fetching_profile [] None fetching_peaceful
    (UsePlanning fetching_options (Ascii.ascii_of_nat 46)) 14 false None None
    (mk_sys fetching_world 0)) as (st' & o & E & [(_ & _ & Hno)|(Hset & _ & Ho)]).
  - change (ready 7%N fetching_profile (events_of (w_events fetching_world) 7%N) None fetching_world).
    apply (create_context_ready example_ambient fetching_profile "Fetch it." 7%N None None [] [] None
      (Some example_plan) false [] [] fetching_context); try (vm_compute; first [done|congruence]).
    intros p [= <-]. apply example_plan_valid.
  - done.
  - vm_compute. congruence.
  - exfalso. apply Hno. by split_and!.
  - exists st'. change (fetching_run = Some (st', o)) in E.
    assert (on_run fetching_run = Some (R_COMPLETED, 1, Some P_COMPLETED)) as Hrun
      by (vm_compute; reflexivity).
    rewrite E in Hrun. destruct o as [r|e]; [|discriminate Hrun].
    injection Hrun as Hs Hx Hp. exists r. by split_and!.
Defined.
