(* ===== verification/AgentRun.v ===== *)
(** * Every call of an Agent settles its Run

    The operations of [Agent] with the built-in strategies: [run] executes
    and settles the Run or leaves no trace of it but a closed turn; [resume],
    [confirm] and [cancel] take a waiting Run from one rest to the next. *)

From Stdlib Require Import QArith.
From stdpp Require Import base gmap strings list.
From S2P Require Import Prelude Json Models Sha256 Plan StateMachine ConversationStore RunStore EventStore FlowModels SideEffects Program Serial Runtime Resources Supervision ToolExecutor ModelTool Engine RuntimeLogic Artifacts EngineRun RunHandle React Skills Agent PlanExecution Executions.

(** ** Programs that leave the stores alone *)

Section Reads.
Context {X : Type}.
Variable env : nat -> ambient.

Definition reads {A} (p : prog (World X) A) : Prop :=
  forall st, exists n o, p st = Some (mk_sys (sys_w st) n, o).

Lemma reads_of_outcome {A} (o : outcome A) : reads (of_outcome o).
Proof. intros st. exists (sys_tick st), o. by destruct st. Qed.

Lemma reads_ret {A} (a : A) : reads (ret a).
Proof. apply (reads_of_outcome (Ok a)). Qed.

Lemma reads_throw {A} e : reads (throw (A := A) e).
Proof. apply (reads_of_outcome (Raise e)). Qed.

Lemma reads_get : reads ctx_get.
Proof. intros st. eexists (sys_tick st), _. by destruct st. Qed.

Lemma reads_bind {A B} (p : prog (World X) A) (k : A -> prog (World X) B) :
  reads p -> (forall a, reads (k a)) -> reads (bind p k).
Proof.
  intros Hp Hk st. unfold bind. destruct (Hp st) as (n & [a|e] & ->); [|by eexists _, _].
  apply (Hk a (mk_sys (sys_w st) n)).
Qed.

Lemma reads_call {A} (f : World X -> outcome A) :
  reads (call_store env (fun _ w => let! a := f w in Ok (w, a))).
Proof.
  intros st. unfold call_store. destruct (f (sys_w st)) as [a|e]; by eexists _, _.
Qed.

Lemma reads_artifacts `{!ArtifactAccess X} {A} (f : ArtifactStore -> outcome A) :
  reads (read_artifacts env f).
Proof. apply (reads_call (fun w => f (artifact_store_of (w_ext w)))). Qed.

Lemma reads_resolve_each `{!ArtifactAccess X} l : reads (resolve_each env l).
Proof.
  induction l as [|a l IH]; simpl; [apply reads_ret|].
  apply reads_bind; [apply reads_artifacts|]. intros stored. destruct (negb _); [apply reads_throw|].
  apply reads_bind; [done|]. intros. apply reads_ret.
Qed.

Lemma reads_resolve `{!ArtifactAccess X} l : reads (resolve_attachments env l).
Proof.
  unfold resolve_attachments. destruct (negb _); [apply reads_throw|apply reads_resolve_each].
Qed.

Lemma untouched_refl (w : World X) : untouched w w.
Proof. done. Qed.
End Reads.

(** A turn that was begun is open. *)
Lemma begin_turn_opens amb cid rid p m cs cs' turn history :
  begin_turn amb cid rid p m cs = Ok (cs', (turn, history)) ->
  turn_open rid cid cs' /\ 1 <= turn_sequence turn.
Proof.
  intros E. split.
  - apply begin_turn_Ok in E as (c & Hc & _ & _ & _ & -> & _ & ->). unfold turn_open, turns_of. simpl.
    rewrite !lookup_insert_eq. simpl.
    destruct (turn_index rid _) as [i|] eqn:Ei.
    + destruct (turn_index_Some _ _ _ Ei) as (t & Ht & _). by eexists _, i, t.
    + exfalso. apply turn_index_None in Ei. apply Ei. rewrite map_app, elem_of_app.
      right. by left.
  - unfold begin_turn in E. destruct (blank m); [done|].
    destruct (get_locked cs cid) as [c|]; [|done]. simpl in E. destruct (negb _); [done|].
    destruct (conv_active_run_id c); [done|]. destruct (messages_locked cs cid); [|done]. simpl in E.
    unfold checked in E. destruct (ConversationTurn_fields _) eqn:Ef; [|done]. simpl in E.
    injection E as _ <- _. unfold ConversationTurn_fields in Ef. reflect. by simpl in *.
Qed.

(** ** The Agent *)

Section AgentRun.
Context `{JsonFloat} `{FloatRepr} `{Validators} `{ModelText} `{SkillFiles} {X : Type} `{!ArtifactAccess X}.
Variable env : nat -> ambient.
Variable expires : nat -> bool.
Variable agent : Agent X.
Variable rid : uuid.

(** Its runtime uses built-in strategies. *)
Variable usual : builtin.
Variable planner : option builtin.

Hypothesis runtime_builtin : ag_runtime agent =
  mk_AgentRuntime (builtin_strategy env expires (ag_services agent) usual)
    (builtin_strategy env expires (ag_services agent) <$> planner).

Hypothesis application :
  peaceful_application (ag_resources agent) (ag_memories agent) (ag_services agent) rid.

(** Turns enough for an execution under a profile. *)
Definition enough (prof : AgentProfile) (fuel : nat) : Prop :=
  2 * prof_max_steps prof + 4 <= Z.of_nat fuel.

Lemma active_builtin c :
  exists b, active_strategy (ag_runtime agent) c
    = builtin_strategy env expires (ag_services agent) b.
Proof.
  rewrite runtime_builtin. unfold active_strategy. simpl. destruct (_ || _); [|by eexists].
  destruct planner as [b|]; by eexists.
Qed.

(** What an execution that was not refused has done. *)
Definition concluded (prof : AgentProfile) (log0 : list RuntimeEvent) (conv : option uuid)
  (w : World X) (o : outcome AgentResult) : Prop :=
  settled rid prof log0 conv w /\
  match o with
  | Ok r => build_result (w_ctx w) = Ok r
  | Raise e => is_exception e = false /\ stopped (w_ctx w)
  end.

Lemma execute_context_settles prof log0 conv fuel ri conf (st : sys (World X)) :
  ready rid prof log0 conv (sys_w st) -> enough prof fuel ->
  exists st' o, execute_context env agent fuel ri conf st = Some (st', o) /\
    ((exists e, o = Raise e) /\ untouched (sys_w st) (sys_w st') \/
     concluded prof log0 conv (sys_w st') o).
Proof.
  intros Hrd Hfuel. unfold execute_context.
  rewrite (bind_Ok ctx_get _ st st (w_ctx (sys_w st))) by done. cbv beta.
  destruct (active_builtin (w_ctx (sys_w st))) as [b ->].
  destruct (execution_settles env expires (ag_resources agent) (ag_memories agent)
    (ag_services agent) rid prof log0 conv application b fuel true ri conf st Hrd)
    as (st' & o & E & Ho); [done| |].
  { unfold enough, builtin_turns in *. destruct b; lia. }
  exists st', o. split; [done|]. destruct Ho as [(He & Hun & _)|(Hs & _ & Ho)]; [by left|by right].
Qed.

(** *** Interruptions *)

Lemma settle_unknown (st : sys (World X)) :
  w_runs (sys_w st) !! rid = None ->
  exists n, settle_task_interruption env rid st = Some (mk_sys (sys_w st) n, Ok None).
Proof.
  intros Hr. destruct (finalize_unknown env rid true st Hr) as [n E]. exists n. by apply try_Ok.
Qed.

Lemma settle_ended prof log0 conv c (st : sys (World X)) :
  rests_as rid prof log0 conv c (sys_w st) -> ctx_state c <> WAITING ->
  exists n r, settle_task_interruption env rid st = Some (mk_sys (sys_w st) n, Ok (Some r)).
Proof.
  intros Hr Hw. destruct (finalize_ended env rid prof log0 conv c true st Hr Hw) as (n & r & E).
  exists n, r. by apply try_Ok.
Qed.

Lemma settle_waiting prof log0 conv c cps (st : sys (World X)) :
  rests_as rid prof log0 conv c (set_checkpoints cps (sys_w st)) -> ctx_state c = WAITING ->
  exists st' r status error,
    settle_task_interruption env rid st = Some (st', Ok (Some r)) /\
    (status = CANCELLED \/ status = INTERRUPTED) /\ w_ctx (sys_w st') = w_ctx (sys_w st) /\
    rests_as rid prof (events_of (w_events (sys_w st)) rid) conv (closed_context status error c)
      (sys_w st').
Proof.
  intros Hr Hw.
  destruct (finalize_waiting env rid prof log0 conv c cps true st Hr Hw)
    as (st' & r & status & error & E & Hx); [done|].
  exists st', r, status, error. split; [by apply try_Ok|done].
Qed.

Lemma concluded_rests prof log0 conv w o :
  concluded prof log0 conv w o -> rests_as rid prof log0 conv (w_ctx w) w.
Proof. intros [Hs _]. unfold rests_as. by rewrite set_ctx_id. Qed.

Lemma stopped_not_waiting c : stopped c -> ctx_state c <> WAITING.
Proof. unfold stopped. intros Hs E. apply Hs. rewrite E, !elem_of_cons. tauto. Qed.

(** Whatever an execution that was concluded raised, it stays concluded. *)
Lemma raised_concluded {A} prof log0 conv cid turn e (st : sys (World X)) :
  concluded prof log0 conv (sys_w st) (Raise e) ->
  exists n, execution_raised (A := A) env rid cid turn e st = Some (mk_sys (sys_w st) n, Raise e).
Proof.
  intros Hc. pose proof (concluded_rests _ _ _ _ _ Hc) as Hr. destruct Hc as [_ [He Hs]].
  unfold execution_raised. rewrite He.
  destruct (settle_ended _ _ _ _ st Hr (stopped_not_waiting _ Hs)) as (n & r & E).
  rewrite (bind_Ok _ _ _ _ _ E). cbv beta. exists n. by destruct cid, turn.
Qed.

(** The turn of an execution that was refused. *)
Definition refused_turn (cid : option uuid) (w w' : World X) : Prop :=
  w_conversations w' = w_conversations w \/
  is_Some cid /\ exists s, (s = FAILED \/ s = INTERRUPTED) /\ turn_settled rid cid s (w_conversations w').

(** A Run that was never stored. *)
Lemma raised_refused {A} cid turn e (st : sys (World X)) :
  w_runs (sys_w st) !! rid = None ->
  (forall c, cid = Some c -> is_Some turn -> turn_open rid c (w_conversations (sys_w st))) ->
  exists st', execution_raised (A := A) env rid cid turn e st = Some (st', Raise e) /\
    w_runs (sys_w st') = w_runs (sys_w st) /\ w_events (sys_w st') = w_events (sys_w st) /\
    w_checkpoints (sys_w st') = w_checkpoints (sys_w st) /\
    (is_Some cid /\ is_Some turn -> exists s, (s = FAILED \/ s = INTERRUPTED) /\
       turn_settled rid cid s (w_conversations (sys_w st'))) /\
    (turn = None -> w_conversations (sys_w st') = w_conversations (sys_w st)).
Proof.
  intros Hnone Hopen. unfold execution_raised.
  assert (exists n, (if is_exception e then ret None else settle_task_interruption env rid) st
            = Some (mk_sys (sys_w st) n, Ok None)) as [n E].
  { destruct (is_exception e); [exists (sys_tick st); by destruct st|by apply settle_unknown]. }
  rewrite (bind_Ok _ _ _ _ _ E). cbv beta. clear E.
  set (status := if is_exception e then FAILED else INTERRUPTED).
  assert (status = FAILED \/ status = INTERRUPTED) as Hst
    by (unfold status; destruct (is_exception e); tauto).
  destruct cid as [cid|]; [|eexists; split; [reflexivity|]; split_and!; try done; by intros [[? ?] _]].
  destruct turn as [t|]; [|eexists; split; [reflexivity|]; split_and!; try done; by intros [_ [? ?]]].
  destruct (finish_turn_total env expires rid (Some cid) (env n) cid status None
    (w_conversations (sys_w st))) as (cs & t' & E & Ht);
    [by apply Hopen|done|by destruct Hst as [-> | ->]..|].
  set (st1 := mk_sys (set_conversations cs (sys_w st)) (S n)).
  rewrite (bind_Ok _ _ _ st1 tt).
  2: { apply try_Ok, call_store_Ok. simpl. by rewrite E. }
  exists st1. split; [reflexivity|]. split_and!; try done. intros _. by exists status.
Qed.

(** *** [Agent.run] *)

(** The world before a Run, and after its turn was begun. *)
Record prepared (q : Request) (turn : option ConversationTurn) (w w' : World X) : Prop := {
  pr_runs : w_runs w' = w_runs w;
  pr_events : w_events w' = w_events w;
  pr_checkpoints : w_checkpoints w' = w_checkpoints w;
  pr_turn : match rq_conversation_id q, turn with
            | Some cid, Some t => turn_open rid cid (w_conversations w') /\ 1 <= turn_sequence t
            | None, None => w_conversations w' = w_conversations w
            | _, _ => False
            end;
}.

Lemma begin_conversation_run q (st : sys (World X)) :
  exists st' o, begin_conversation env agent rid q st = Some (st', o) /\
    match o with
    | Ok (turn, _) => prepared q turn (sys_w st) (sys_w st')
    | Raise _ => untouched (sys_w st) (sys_w st')
    end.
Proof.
  unfold begin_conversation. destruct (rq_conversation_id q) as [cid|] eqn:Ec.
  2: { eexists st, _. split; [reflexivity|]. split; rewrite ?Ec; done. }
  destruct (begin_turn (env (sys_tick st)) cid rid (prof_id (ag_profile agent)) (rq_prompt q)
              (w_conversations (sys_w st))) as [[cs [turn history]]|e] eqn:E.
  - eexists (mk_sys (set_conversations cs (sys_w st)) _), _. split.
    + erewrite bind_Ok by (apply call_store_Ok; simpl; rewrite E; reflexivity). reflexivity.
    + destruct (begin_turn_opens _ _ _ _ _ _ _ _ _ E). by split; rewrite ?Ec.
  - eexists _, _. split.
    + erewrite bind_Raise by (apply call_store_Raise; simpl; rewrite E; reflexivity). reflexivity.
    + done.
Qed.

Lemma prepare_run q (st : sys (World X)) :
  exists st' o, prepare env agent rid q st = Some (st', o) /\
    match o with
    | Ok (_, _, _, turn, _) => prepared q turn (sys_w st) (sys_w st')
    | Raise _ => untouched (sys_w st) (sys_w st')
    end.
Proof.
  unfold prepare, select_skills.
  destruct (select_and_validate_skills _ _ _ _) as [skills|e].
  2: { by eexists st, _. }
  rewrite (bind_Ok _ _ st st skills) by done. cbv beta zeta.
  destruct (reads_resolve env (rq_attachments q) st) as (n & [atts|e] & E).
  2: { eexists _, _. rewrite (bind_Raise _ _ _ _ _ E). by split. }
  rewrite (bind_Ok _ _ _ _ _ E). cbv beta.
  destruct (begin_conversation_run q (mk_sys (sys_w st) n)) as (st' & [[turn history]|e] & E' & Hx).
  - eexists st', _. rewrite (bind_Ok _ _ _ _ _ E'). by split.
  - eexists st', _. rewrite (bind_Raise _ _ _ _ _ E'). by split.
Qed.

(** The Run of a request that was prepared: it is executed, or no trace of it
    is stored. *)
Lemma execute_prepared_run fuel q skills enabled atts turn history (w0 : World X) (st : sys (World X)) :
  prepared q turn w0 (sys_w st) -> enough (ag_profile agent) fuel ->
  0 <= prof_max_steps (ag_profile agent) -> 0 <= prof_max_tool_calls (ag_profile agent) ->
  (forall p, rq_plan q = Some p -> plan_valid p) ->
  exists st' o, execute_prepared env agent fuel rid q skills enabled atts turn history st = Some (st', o) /\
    ((exists e, o = Raise e) /\ untouched (sys_w st) (sys_w st') \/
     concluded (ag_profile agent) (events_of (w_events w0) rid) (rq_conversation_id q) (sys_w st') o).
Proof.
  intros Hp Hfuel Hsteps Hcalls Hplan. unfold execute_prepared.
  destruct (create_context (env (sys_tick st)) (ag_profile agent) (rq_prompt q) (Some rid)
    (rq_conversation_id q) (turn_sequence <$> turn) history skills (Some enabled) (rq_plan q)
    (rq_planning q) atts (rq_metadata q)) as [c|e] eqn:Ec.
  2: { eexists _, _. erewrite bind_Raise by (apply call_store_Raise; simpl; rewrite Ec; reflexivity).
       split; [reflexivity|]. left. split; [by eexists|done]. }
  set (st1 := mk_sys (set_ctx c (sys_w st)) (S (sys_tick st))).
  rewrite (bind_Ok _ _ st st1 tt) by (apply call_store_Ok; simpl; by rewrite Ec). cbv beta.
  assert (ready rid (ag_profile agent) (events_of (w_events w0) rid) (rq_conversation_id q) (sys_w st1))
    as Hrd.
  { rewrite <-(pr_events _ _ _ _ Hp).
    apply (create_context_ready _ _ _ _ _ _ _ _ _ _ _ _ _ _ (sys_w st1) Ec); try done;
      pose proof (pr_turn _ _ _ _ Hp) as Ht; destruct (rq_conversation_id q), turn; simpl; tauto. }
  destruct (execute_context_settles _ _ _ fuel None None st1 Hrd Hfuel) as (st' & o & E & Ho).
  exists st', o. split; [done|]. destruct Ho as [[He Hun]|Ho]; [left|by right]. split; [done|exact Hun].
Qed.

(** The Run's id. *)
Definition draws (q : Request) (st : sys (World X)) : Prop :=
  rid = default (amb_uuid (env (sys_tick st)) 0) (rq_run_id q).

Lemma execute_settles_run fuel q (st : sys (World X)) :
  draws q st -> w_runs (sys_w st) !! rid = None ->
  AgentProfile_fields (ag_profile agent) = true -> enough (ag_profile agent) fuel ->
  (forall p, rq_plan q = Some p -> plan_valid p) ->
  exists st' o, execute env agent fuel q st = Some (st', o) /\
    ((exists e, o = Raise e) /\ w_runs (sys_w st') = w_runs (sys_w st) /\
     w_events (sys_w st') = w_events (sys_w st) /\
     w_checkpoints (sys_w st') = w_checkpoints (sys_w st) /\
     refused_turn (rq_conversation_id q) (sys_w st) (sys_w st') \/
     concluded (ag_profile agent) (events_of (w_events (sys_w st)) rid) (rq_conversation_id q) (sys_w st') o).
Proof.
  intros Hdraw Hnone Hprof Hfuel Hplan. unfold execute.
  assert (exists n, (match rq_run_id q with
                     | Some r => ret r
                     | None => call_store env (fun amb w => Ok (w, amb_uuid amb 0))
                     end) st = Some (mk_sys (sys_w st) n, Ok rid)) as [n E].
  { unfold draws in Hdraw. destruct (rq_run_id q); simpl in Hdraw; rewrite Hdraw;
      [exists (sys_tick st)|by eexists]. by destruct st. }
  rewrite (bind_Ok _ _ _ _ _ E). cbv beta. clear E.
  destruct (prepare_run q (mk_sys (sys_w st) n)) as (st1 & o1 & E1 & Hp). simpl in Hp.
  rewrite (bind_Ok _ _ _ st1 o1) by (unfold attempt; by rewrite E1). cbv beta.
  destruct o1 as [[[[[skills enabled] atts] turn] history]|e].
  2: { destruct Hp as (Hx1 & Hx2 & Hx3 & Hx4).
       destruct (raised_refused (A := AgentResult) (rq_conversation_id q) None e st1)
         as (st' & E & Hy1 & Hy2 & Hy3 & _ & Hy4); [congruence|by intros ? _ [? ?]|].
       exists st', (Raise e). split; [done|]. left. split; [by eexists|].
       split_and!; try congruence. left. rewrite Hy4 by done. done. }
  assert (0 <= prof_max_steps (ag_profile agent) /\ 0 <= prof_max_tool_calls (ag_profile agent)) as [Hs Hm].
  { unfold AgentProfile_fields in Hprof. reflect. lia. }
  destruct (execute_prepared_run fuel q skills enabled atts turn history (sys_w st) st1 Hp Hfuel Hs Hm Hplan)
    as (st2 & o2 & E2 & Ho).
  rewrite (bind_Ok _ _ _ st2 o2) by (unfold attempt; by rewrite E2). cbv beta.
  destruct Ho as [[[e ->] (Hx1 & Hx2 & Hx3 & Hx4)]|Ho].
  - pose proof Hp as [Hp1 Hp2 Hp3 Hp4].
    destruct (raised_refused (A := AgentResult) (rq_conversation_id q) turn e st2)
      as (st' & E & Hy1 & Hy2 & Hy3 & Hy4 & Hy5); [congruence| |].
    { intros c Hc [t Ht]. rewrite Hx4. rewrite Hc, Ht in Hp4. apply Hp4. }
    exists st', (Raise e). split; [done|]. left. split; [by eexists|]. split_and!; try congruence.
    unfold refused_turn. destruct (rq_conversation_id q) as [cid|], turn as [t|]; try done.
    + right. split; [done|]. by apply Hy4.
    + left. rewrite Hy5 by done. congruence.
  - destruct o2 as [r|e]; [exists st2, (Ok r); split; [done|by right]|].
    destruct (raised_concluded (A := AgentResult) _ _ _ (rq_conversation_id q) turn e st2 Ho) as [n' E].
    exists (mk_sys (sys_w st2) n'), (Raise e). split; [done|by right].
Qed.

(** *** [Agent.resume], [Agent.confirm] *)

Lemma reads_get_run : reads (get_run (X := X) env rid).
Proof. apply (reads_call env (fun w => run_get rid (w_runs w))). Qed.

Lemma reads_waiting_checkpoint : reads (waiting_checkpoint env agent rid).
Proof.
  unfold waiting_checkpoint. apply reads_bind; [apply reads_get_run|]. intros run.
  destruct (negb _); [apply reads_throw|].
  apply reads_bind; [apply (reads_call env (fun w => checkpoint_load rid (w_checkpoints w)))|].
  intros cp. destruct (negb _); [apply reads_throw|].
  apply reads_bind; [apply reads_of_outcome|]. intros. apply reads_ret.
Qed.

(** The checks let only a waiting Run pass. *)
Lemma waiting_checkpoint_Ok prof log0 conv c (st st' : sys (World X)) :
  rests_as rid prof log0 conv c (sys_w st) -> waiting_checkpoint env agent rid st = Some (st', Ok tt) ->
  ctx_state c = WAITING.
Proof.
  intros Hrest E. pose proof (se_run _ _ _ _ _ Hrest) as (r & Hr & _). simpl in Hr.
  destruct (rests_cancellable rid _ _ _ _ _ _ Hrest Hr) as [Hst _].
  unfold waiting_checkpoint in E. rewrite (bind_Ok _ _ _ _ _ (get_run_Ok env rid st r Hr)) in E.
  cbv beta in E. rewrite <-Hst. destruct (bool_decide (run_status r = WAITING)) eqn:Ew; [by reflect|done].
Qed.

(** A waiting Run is ready to execute again, its checkpoint claimed. *)
Lemma rests_ready prof log0 conv c (w : World X) cps :
  rests_as rid prof log0 conv c w -> ctx_state c = WAITING ->
  ready rid prof (events_of (w_events w) rid) conv (set_ctx c (set_checkpoints cps w)).
Proof.
  intros [Hc He (r & Hr & Hid & Hcv & _) Hl _ Ht] Hw. simpl in *. split; simpl; try done.
  - destruct Hc. by split.
  - intros _. by exists r.
  - destruct conv as [cid|]; [|done]. simpl in Ht. rewrite Hw in Ht.
    destruct Ht as (v & i & t & Hv & Hi & Hti & _ & Ha).
    exists v, i, t. by rewrite bool_decide_eq_true_2 in Ha.
Qed.

(** What continuing a waiting Run does. *)
Definition continued (prof : AgentProfile) (conv : option uuid) (c : RuntimeContext) (w : World X)
  (w' : World X) (o : outcome AgentResult) : Prop :=
  (exists e, o = Raise e) /\ untouched w w' \/
  ctx_state c = WAITING /\
    (concluded prof (events_of (w_events w) rid) conv w' o \/
     exists e status error, o = Raise e /\ is_exception e = false /\
       (status = CANCELLED \/ status = INTERRUPTED) /\
       rests_as rid prof (events_of (w_events w) rid) conv (closed_context status error c) w').

Lemma continue_waiting_run prof log0 conv c fuel ri conf (st : sys (World X)) :
  rests_as rid prof log0 conv c (sys_w st) -> enough prof fuel ->
  exists st' o, continue_waiting env agent fuel rid ri conf st = Some (st', o) /\
    continued prof conv c (sys_w st) (sys_w st') o.
Proof.
  intros Hrest Hfuel. unfold continue_waiting.
  destruct (reads_waiting_checkpoint st) as (n & [[]|e] & E).
  2: { eexists _, _. rewrite (bind_Raise _ _ _ _ _ E). split; [done|]. left. split; [by eexists|done]. }
  pose proof (waiting_checkpoint_Ok _ _ _ _ _ _ Hrest E) as Hw.
  rewrite (bind_Ok _ _ _ _ _ E). cbv beta. clear E. set (st1 := mk_sys (sys_w st) n).
  pose proof (se_checkpoint _ _ _ _ _ Hrest) as Hcp. unfold checkpoint_settled in Hcp. simpl in Hcp.
  rewrite bool_decide_eq_true_2 in Hcp by done. destruct Hcp as (cp & Hcp & Hres).
  set (cps := delete rid (w_checkpoints (sys_w st))).
  set (st2 := mk_sys (set_checkpoints cps (sys_w st)) (S n)).
  rewrite (bind_Ok _ _ st1 st2 cp).
  2: { unfold claim_checkpoint. rewrite (bind_Ok _ _ st1 st2 (Ok cp)); [done|].
       unfold attempt, call_store. simpl. unfold checkpoint_claim. by rewrite Hcp. }
  cbv beta. set (st3 := mk_sys (set_ctx c (sys_w st2)) (S n)).
  rewrite (bind_Ok _ _ st2 st3 tt) by (unfold ctx_put, ctx_do; by rewrite Hres). cbv beta.
  pose proof (rests_ready _ _ _ _ _ cps Hrest Hw) as Hrd.
  destruct (execute_context_settles prof _ conv fuel ri conf st3 Hrd Hfuel) as (st4 & o & E4 & Ho).
  rewrite (bind_Ok _ _ st3 st4 o) by (unfold attempt; by rewrite E4). cbv beta.
  destruct Ho as [[[e ->] (Hx1 & Hx2 & Hx3 & Hx4)]|Ho].
  - destruct (is_exception e) eqn:Ee.
    + eexists _, _. erewrite bind_Ok by (apply call_store_Ok; reflexivity). split; [reflexivity|].
      left. split; [by eexists|]. split_and!; simpl; try done.
      rewrite Hx3. simpl. unfold checkpoint_save.
      assert (cp_run_id cp = rid) as ->.
      { change (ctx_run_id (restore cp) = rid). rewrite Hres. apply (ok_run_id _ _ _ _ _ (se_ctx _ _ _ _ _ Hrest)). }
      unfold cps. by apply insert_delete_id.
    + destruct (settle_waiting prof log0 conv c (w_checkpoints (sys_w st)) st4) as
        (st5 & r & status & error & E5 & Hfin & _ & Hrest5); [|done|].
      { destruct Hrest. simpl in *.
        split; simpl; rewrite ?Hx1, ?Hx2, ?Hx4; done. }
      rewrite (bind_Ok _ _ st4 st5 tt) by (by rewrite (bind_Ok _ _ _ _ _ E5)). cbv beta.
      exists st5, (Raise e). split; [done|]. right. split; [done|]. right.
      exists e, status, error. split_and!; try done. by rewrite Hx2 in Hrest5.
  - destruct o as [r|e]; [exists st4, (Ok r); split; [done|]; right; split; [done|by left]|].
    pose proof (concluded_rests _ _ _ _ _ Ho) as Hr4. pose proof Ho as [_ [He Hs]]. rewrite He.
    destruct (settle_ended _ _ _ _ st4 Hr4 (stopped_not_waiting _ Hs)) as (m & r & E5).
    rewrite (bind_Ok _ _ st4 (mk_sys (sys_w st4) m) tt) by (by rewrite (bind_Ok _ _ _ _ _ E5)). cbv beta.
    exists (mk_sys (sys_w st4) m), (Raise e). split; [done|]. right. split; [done|by left].
Qed.


(** *** The calls about a Run at rest *)

Inductive control :=
  | Resume (text : string)
  | Confirm (confirmation : ToolConfirmation)
  | Cancel.

(** The caller of a control goes on whatever it raises. *)
Definition perform (fuel : nat) (k : control) : prog (World X) unit :=
  match k with
  | Resume text => let* _ := attempt (agent_resume env agent fuel rid text) in ret tt
  | Confirm confirmation => let* _ := attempt (agent_confirm env agent fuel rid confirmation) in ret tt
  | Cancel => let* _ := attempt (agent_cancel env rid) in ret tt
  end.

Fixpoint perform_all (fuel : nat) (ks : list control) : prog (World X) unit :=
  match ks with
  | [] => ret tt
  | k :: ks' => do* perform fuel k in perform_all fuel ks'
  end.

(** From one rest to the next. *)
Record carried (prof : AgentProfile) (conv : option uuid) (c : RuntimeContext) (w w' : World X) : Prop := {
  ca_rests : exists log c', rests_as rid prof log conv c' w';
  ca_log : events_of (w_events w) rid `prefix_of` events_of (w_events w') rid;
  ca_final : ctx_state c <> WAITING -> untouched w w';
}.

Lemma rests_untouched prof log0 conv c (w w' : World X) :
  untouched w w' -> rests_as rid prof log0 conv c w -> rests_as rid prof log0 conv c w'.
Proof.
  intros (Hx1 & Hx2 & Hx3 & Hx4) []. simpl in *. split; simpl; by rewrite ?Hx1, ?Hx2, ?Hx3, ?Hx4.
Qed.

Lemma untouched_carried prof log0 conv c (w w' : World X) :
  rests_as rid prof log0 conv c w -> untouched w w' -> carried prof conv c w w'.
Proof.
  intros Hr Hun. split; [exists log0, c; by eapply rests_untouched| |done].
  by destruct Hun as (_ & -> & _).
Qed.

(** A Run that waited rests again, with the events of the step appended. *)
Lemma rests_carried prof conv c c' (w w' : World X) :
  ctx_state c = WAITING -> rests_as rid prof (events_of (w_events w) rid) conv c' w' ->
  carried prof conv c w w'.
Proof.
  intros Hw Hr. split; [by eexists _, _| |done].
  destruct (se_log _ _ _ _ _ Hr) as (es & e & Hl & _). simpl in Hl. rewrite Hl. by exists (es ++ [e]).
Qed.

Lemma continued_carried prof log0 conv c (w w' : World X) o :
  rests_as rid prof log0 conv c w -> continued prof conv c w w' o -> carried prof conv c w w'.
Proof.
  intros Hr [[_ Hun]|[Hw [Hc|(e & status & error & _ & _ & _ & Hc)]]].
  - by eapply untouched_carried.
  - by eapply rests_carried, concluded_rests.
  - by eapply rests_carried.
Qed.

Lemma perform_run prof log0 conv c fuel k (st : sys (World X)) :
  rests_as rid prof log0 conv c (sys_w st) -> enough prof fuel ->
  exists st', perform fuel k st = Some (st', Ok tt) /\ carried prof conv c (sys_w st) (sys_w st').
Proof.
  intros Hr Hfuel.
  assert (forall ri conf, exists st', (let* _ := attempt (continue_waiting env agent fuel rid ri conf) in
    ret tt) st = Some (st', Ok tt) /\ carried prof conv c (sys_w st) (sys_w st')) as Hgo.
  { intros ri conf. destruct (continue_waiting_run _ _ _ _ fuel ri conf st Hr Hfuel) as (st' & o & E & Ho).
    exists st'. split; [|by eapply continued_carried].
    rewrite (bind_Ok _ _ st st' o); [done|]. unfold attempt. by rewrite E. }
  destruct k as [text|confirmation|]; simpl.
  - unfold agent_resume. destruct (blank text); [|apply Hgo].
    exists st. split; [done|]. by eapply untouched_carried.
  - apply Hgo.
  - unfold agent_cancel. destruct (decide (ctx_state c = WAITING)) as [Hw|Hw].
    + destruct (request_cancellation_waiting env rid prof log0 conv c true st Hr Hw)
        as (st' & r & E & _ & _ & Hr'); [done|].
      exists st'. rewrite (bind_Ok _ _ st st' (Ok r)) by (unfold attempt; by rewrite E).
      split; [done|by eapply rests_carried].
    + destruct (request_cancellation_ended env rid prof log0 conv c true st Hr Hw) as (st' & m & E & Es).
      exists st'. rewrite (bind_Ok _ _ st st' (Raise (Exn RunNotCancellableError m)))
        by (unfold attempt; by rewrite E).
      split; [done|]. eapply untouched_carried; [done|]. by rewrite Es.
Qed.

End AgentRun.

(** ** An Agent that asks *)

#[local] Existing Instances plain_repr plain_float no_text one_file.

(** The dumps of the one call of this execution, read back. *)
#[local] Instance ask_validators : Validators := {
  ToolCall_validate_json _ := Ok (mk_ToolCall "c1" "ask" []);
  ToolResult_validate_json _ := Raise (Exn ExValueError "invalid");
  ModelResponse_validate_json _ :=
    Ok (mk_ModelResponse None [mk_ToolCall "c1" "ask" []] None TokenUsage_zero []);
  ToolConfirmation_validate_json _ := Raise (Exn ExValueError "invalid");
  ToolConfirmationRequest_validate_json _ := Raise (Exn ExValueError "invalid");
  ToolResult_validate_text _ :=
    Ok (mk_ToolResult "ask" T_SUCCESS (JObj [("input", JStr "The first.")]) None None);
}.

(** No content is stored. *)
#[local] Instance no_content : ArtifactAccess Z := {
  artifact_store_of _ := artifact_store_empty;
  with_artifact_store _ x := x;
}.

(** A tool that waits for the user, and a provider that calls it once. *)
Definition asking_tool : Tool Z :=
  mk_Tool (mk_ToolDefinition "ask" "Ask." []) ∅ 30
    (fun _ => mk_awaitable (ret (ReturnsWait (mk_WaitForInput "Which one?" []))) (ret tt))
    None None None None.

Definition asking_provider : ModelProvider Z :=
  mk_ModelProvider "scripted" (fun _ => fun st =>
    Some (mk_sys (set_ext (w_ext (sys_w st) + 1) (sys_w st)) (sys_tick st),
          Ok (if w_ext (sys_w st) =? 0
              then mk_ModelResponse None [mk_ToolCall "c1" "ask" []] None TokenUsage_zero []
              else mk_ModelResponse (Some "That one.") [] None TokenUsage_zero []))).

Definition asking_profile : AgentProfile :=
  mk_AgentProfile "helper" "Answer." None ["ask"] [] ∅ 5 5 3 3 262144.

Definition asking_env : nat -> ambient := fun _ => example_ambient.

Definition asking_parts : AgentParts Z :=
  mk_AgentParts (Some asking_profile) None asking_provider [asking_tool]
    (fun services => mk_AgentRuntime
       (builtin_strategy asking_env (fun _ => false) services UseModelTool)
       (builtin_strategy asking_env (fun _ => false) services <$> None))
    None None [] (mk_MemoryManager None 5 None BEST_EFFORT) 40 None None None.

Definition asking_services : RuntimeServices Z :=
  mk_RuntimeServices asking_provider (Some [("ask", asking_tool)])
    (Some (ToolExecutor_default [("ask", asking_tool)])) build_default_supervisor.

Definition asking_agent : Agent Z :=
  mk_Agent None asking_profile (ap_runtime asking_parts asking_services) asking_services
    [("ask", asking_tool)] [] [] (mk_MemoryManager None 5 None BEST_EFFORT) 40.

Example asking_agent_new : Agent_new asking_parts = Ok asking_agent.
Proof. reflexivity. Qed.

Definition asking_world : World Z :=
  mk_World example_waiting ∅ ∅ ∅
    (mk_ConversationStore {[3%N := mk_Conversation 3%N "helper" 0 None 0 0 []]} ∅)
    (mk_ResourceScope SCOPE_CREATED [] []) 0.

Definition asking_request : Request :=
  mk_Request "Pick one." (Some 7%N) (Some 3%N) [] None false [] [].

Definition asked : option (sys (World Z) * outcome AgentResult) :=
  execute asking_env asking_agent 14 asking_request (mk_sys asking_world 0).

Lemma asking_peaceful :
  peaceful_application (ag_resources asking_agent) (ag_memories asking_agent)
    (ag_services asking_agent) 7%N.
Proof.
  split; [done| |by intros s ?%elem_of_nil|done].
  split.
  { intros request st. eexists _, _; split; [reflexivity|]. apply set_ext_peaceful. }
  split; [intros call name sm cm c; apply quiet_of_outcome|]. split; [exact I|].
  intros name t Ht. unfold tool_get in Ht. simpl in Ht. case_decide; [|discriminate].
  injection Ht as <-. split; [|exact I]. intros args. split; apply quiet_ret.
Qed.

Definition state_of (p : option (sys (World Z) * outcome AgentResult)) :=
  match p with
  | Some (st, Ok r) =>
      Some (ares_status r, ares_output r,
            conv_active_run_id <$> cs_conversations (w_conversations (sys_w st)) !! 3%N)
  | _ => None
  end.


Definition asking_controls : list control := [Resume " "; Resume "The first."; Cancel].

Definition run_of (p : option (sys (World Z) * outcome unit)) :=
  match p with
  | Some (st, Ok _) =>
      Some ((fun r => (run_status r, run_output r)) <$> w_runs (sys_w st) !! 7%N,
            conv_active_run_id <$> cs_conversations (w_conversations (sys_w st)) !! 3%N)
  | _ => None
  end.

Definition asked_state : sys (World Z) := default (mk_sys asking_world 0) (fst <$> asked).

Definition answered : option (sys (World Z) * outcome unit) :=
  perform_all asking_env asking_agent 7%N 14 asking_controls asked_state.

