(* ===== verification/RaftInbox.v ===== *)
(** * The inbox of a Raft agent ([src/base_agent/integrations/raft/models.py],
    [integrations/raft/parser.py])

    Messages of an external chat, the configuration of the worker that
    answers them, and the parser of the text the Raft command line prints.
    The three regular expressions of the parser are written out as functions;
    none of them needs backtracking on more than one alternative.  The
    characters outside the strings of [Prelude] (the em dash) are the class
    [RaftTexts]. *)

From Stdlib Require Import QArith.
From stdpp Require Import base gmap strings list pretty.
From S2P Require Import Prelude Sha256 Texts.

Class RaftTexts := { em_dash : string }.

(** ** Messages *)

Record RaftMessage := mk_RaftMessage {
  rm_target : string;
  rm_message_id : string;
  rm_timestamp : string;
  rm_sender_type : string;
  rm_sender_handle : string;
  rm_content : string;
  rm_task_number : option Z;
  rm_task_status : option string;
  rm_task_assignee_type : option string;
  rm_task_assignee_id : option string;
}.

(** [s.count(c)] of a character. *)
Fixpoint count_char (c : Ascii.ascii) (s : string) : nat :=
  match s with
  | EmptyString => 0
  | String a s' => (if bool_decide (a = c) then 1 else 0) + count_char c s'
  end.

Definition colon : Ascii.ascii := Ascii.ascii_of_N 58.
Definition hash : Ascii.ascii := Ascii.ascii_of_N 35.
Definition bracket : Ascii.ascii := Ascii.ascii_of_N 93.
Definition nl : Ascii.ascii := Ascii.ascii_of_N 10.

(** [RaftMessage.is_direct_message], [is_thread]. *)
Definition is_direct_message (m : RaftMessage) : bool := starts "dm:@" (rm_target m).

Definition is_thread (m : RaftMessage) : bool :=
  if starts "dm:@" (rm_target m) then (2 <=? count_char colon (rm_target m))%nat
  else starts "#" (rm_target m) && has_char colon (rm_target m).

(** ** Configuration *)

Record RaftWorkerConfig := mk_RaftWorkerConfig {
  rc_profile : string;
  rc_agent_id : uuid;
  rc_handle : string;
  rc_executable : string;
  rc_adapter_instance : string;
  rc_cli_timeout_seconds : seconds;
  rc_cli_max_output_bytes : Z;
  rc_bridge_poll_interval_ms : Z;
  rc_max_reply_chars : Z;
  rc_processed_message_limit : Z;
}.

(** [removeprefix]. *)
Definition remove_prefix (p s : string) : string := default s (after_prefix p s).

(** [_SAFE_ADAPTER_INSTANCE.fullmatch]. *)
Definition safe_adapter_instance (s : string) : bool :=
  negb (is_empty s) && all_chars (fun c => is_alnum c || has_char c "._-") s.

(** [RaftWorkerConfig.__post_init__]. *)
Definition RaftWorkerConfig_new (c : RaftWorkerConfig) : outcome RaftWorkerConfig :=
  let profile := strip (rc_profile c) in
  let handle := remove_prefix "@" (strip (rc_handle c)) in
  let executable := strip (rc_executable c) in
  let adapter_instance := strip (rc_adapter_instance c) in
  raise_when is_empty profile as value_error ["Raft profile must not be blank"] in
  raise_when is_empty handle || negb (all_chars (fun a => negb (py_isspace a)) handle)
    as value_error ["Raft handle must be a non-blank handle without spaces"] in
  raise_when is_empty executable as value_error ["Raft executable must not be blank"] in
  raise_when negb (safe_adapter_instance adapter_instance)
    as value_error ["Raft adapter_instance may contain only letters, numbers, '.', '_', and '-'"] in
  raise_when Qle_bool (rc_cli_timeout_seconds c) 0
    as value_error ["Raft CLI timeout must be greater than zero"] in
  raise_when rc_cli_max_output_bytes c <? 1
    as value_error ["Raft CLI output limit must be greater than zero"] in
  raise_when rc_bridge_poll_interval_ms c <? 250
    as value_error ["Raft bridge poll interval must be at least 250ms"] in
  raise_when rc_max_reply_chars c <? 256
    as value_error ["Raft maximum reply size must be at least 256 characters"] in
  raise_when rc_processed_message_limit c <? 100
    as value_error ["Raft processed message limit must be at least 100"] in
  Ok (mk_RaftWorkerConfig profile (rc_agent_id c) handle executable adapter_instance
        (rc_cli_timeout_seconds c) (rc_cli_max_output_bytes c) (rc_bridge_poll_interval_ms c)
        (rc_max_reply_chars c) (rc_processed_message_limit c)).

(** ** The parser *)

Definition nonspace (a : Ascii.ascii) : bool := negb (py_isspace a).
Definition in_brackets (a : Ascii.ascii) : bool := nonspace a && negb (bool_decide (a = bracket)).

(** [time=(.*?) type=([^\]\s]+)\] ] in the rest of a line. *)
Fixpoint time_and_type (s : string) : option (string * string * string) :=
  let here :=
    s ← after_prefix " type=" s;
    '(ty, s) ← span1 in_brackets s;
    rest ← after_prefix "] " s;
    Some (EmptyString, ty, rest) in
  match here, s with
  | Some r, _ => Some r
  | None, EmptyString => None
  | None, String a s' => '(time, ty, rest) ← time_and_type s'; Some (String a time, ty, rest)
  end.

Record Header := mk_Header {
  hd_target : string;
  hd_message_id : string;
  hd_timestamp : string;
  hd_sender_type : string;
}.

(** [_HEADER] at the start of a line. *)
Definition match_header (line : string) : option (Header * string) :=
  s ← after_prefix "[target=" line;
  '(target, s) ← span1 nonspace s;
  s ← after_prefix " msg=" s;
  '(message_id, s) ← span1 nonspace s;
  s ← after_prefix " time=" s;
  '(time, ty, rest) ← time_and_type s;
  Some (mk_Header target message_id time ty, rest).

(** [s.split(newline)]. *)
Fixpoint split_lines (s : string) : list string :=
  match s with
  | EmptyString => [EmptyString]
  | String a s' =>
      if bool_decide (a = nl) then EmptyString :: split_lines s'
      else match split_lines s' with
           | line :: lines => String a line :: lines
           | [] => [String a EmptyString]
           end
  end.

(** [_HEADER.finditer]: each header with the text up to the next one, after
    the lines before the first. *)
Fixpoint envelopes (lines : list string) : list string * list (Header * string) :=
  match lines with
  | [] => ([], [])
  | line :: lines' =>
      let '(loose, found) := envelopes lines' in
      match match_header line with
      | Some (h, rest) => ([], (h, String.concat newline (rest :: loose)) :: found)
      | None => (line :: loose, found)
      end
  end.

Section Parser.
Context `{RaftTexts}.

(** [_SENDER.fullmatch]: the handle and the content. *)
Definition match_sender (body : string) : option (string * string) :=
  s ← after_prefix "@" body;
  '(handle, s) ← span1 (fun a => nonspace a && negb (bool_decide (a = colon))) s;
  content ← match after_prefix (" " +:+ em_dash +:+ " ") s with
            | Some s =>
                after_prefix ": "
                  (span (fun a => negb (bool_decide (a = colon)) && negb (bool_decide (a = nl))) s).2
            | None => after_prefix ": " s
            end;
  Some (handle, content).
End Parser.

Record RaftTask := mk_RaftTask {
  rt_number : Z;
  rt_status : string;
  rt_assignee : option (string * string);
}.

Definition is_status_char (a : Ascii.ascii) : bool :=
  let n := Ascii.N_of_ascii a in ((97 <=? n) && (n <=? 122) || (n =? 95))%N.

(** [(?: assignee=([a-z_]+):([^\]\s]+))?]. *)
Definition match_assignee (s : string) : option (option (string * string) * string) :=
  match after_prefix " assignee=" s with
  | None => Some (None, s)
  | Some s =>
      '(ty, s) ← span1 is_status_char s;
      s ← after_prefix ":" s;
      '(id, s) ← span1 in_brackets s;
      Some (Some (ty, id), s)
  end.

(** [_TASK] at a position. *)
Definition match_task (s : string) : option RaftTask :=
  match s with
  | String a _ =>
      if negb (py_isspace a) then None
      else
        s ← after_prefix "[task #" (lstrip s);
        '(number, s) ← span1 is_digit_char s;
        s ← after_prefix " status=" s;
        '(status, s) ← span1 is_status_char s;
        '(assignee, s) ← match_assignee s;
        s ← after_prefix "]" s;
        if blank s then Some (mk_RaftTask (digits_value 0 number) status assignee) else None
  | EmptyString => None
  end.

(** [_TASK.search]: the text before the first match, and the match. *)
Fixpoint search_task (s : string) : option (string * RaftTask) :=
  match match_task s, s with
  | Some t, _ => Some (EmptyString, t)
  | None, EmptyString => None
  | None, String a s' => '(before, t) ← search_task s'; Some (String a before, t)
  end.

Definition protocol_error (parts : list string) : exn := Exn RaftProtocolError (fstr parts).

(** [s.endswith(suffix)], and [s] without it. *)
Definition before_suffix (suffix s : string) : option string :=
  String.rev <$> after_prefix (String.rev suffix) (String.rev s).

(** [_DRAIN_SUFFIXES]. *)
Definition no_more_messages : string := newline +:+ "No more new messages.".
Definition more_messages : string :=
  newline +:+ "More messages are pending. Run `raft message check` again.".

Definition without_drain_suffix (s : string) : string :=
  match before_suffix no_more_messages s with
  | Some s' => rstrip s'
  | None => match before_suffix more_messages s with Some s' => rstrip s' | None => s end
  end.

Section Messages.
Context `{RaftTexts}.

(** One round of the loop. *)
Definition read_message (e : Header * string) : outcome RaftMessage :=
  let '(h, text) := e in
  match match_sender (rstrip text) with
  | None =>
      Raise (protocol_error
        ["raft message check returned a message with an unsupported sender envelope"])
  | Some (handle, content) =>
      let content := rstrip content in
      let task := search_task content in
      raise_when bool_decide (hd_message_id h = "-")
        as protocol_error ["raft message envelope is missing its message id"] in
      Ok (mk_RaftMessage (hd_target h) (hd_message_id h) (hd_timestamp h) (hd_sender_type h) handle
            match task with Some (before, _) => rstrip before | None => content end
            ((fun p => rt_number p.2) <$> task) ((fun p => rt_status p.2) <$> task)
            (p ← task; fst <$> rt_assignee p.2) (p ← task; snd <$> rt_assignee p.2))
  end.

(** [parse_raft_messages]. *)
Definition parse_raft_messages (output : string) : outcome (list RaftMessage) :=
  let normalized := rstrip output in
  if is_empty normalized || bool_decide (normalized = "No new messages.") then Ok []
  else
    let normalized := without_drain_suffix normalized in
    if is_empty normalized || bool_decide (normalized = "No new messages.") then Ok []
    else
      let found := (envelopes (split_lines normalized)).2 in
      raise_when bool_decide (length found = 0)%nat
        as protocol_error
             ["raft message check returned output without a recognized message envelope"] in
      traverse read_message found.

End Messages.

(** ** The canonical text of an inbox

    [_raw_messages] of [tests/test_raft.py]: the envelopes as the command
    line prints them. *)
Definition task_text (m : RaftMessage) : string :=
  match rm_task_number m with
  | None => ""
  | Some n =>
      let assignee := match rm_task_assignee_id m with
                      | Some id => fstr [" assignee="; default "None" (rm_task_assignee_type m); ":"; id]
                      | None => ""
                      end in
      fstr [" [task #"; zstr n; " status="; default "None" (rm_task_status m); assignee; "]"]
  end.

Definition raw_message (m : RaftMessage) : string :=
  fstr ["[target="; rm_target m; " msg="; rm_message_id m; " time="; rm_timestamp m; " type=";
        rm_sender_type m; "] @"; rm_sender_handle m; ": "; rm_content m; task_text m].

Definition raw_messages (ms : list RaftMessage) : string :=
  match ms with
  | [] => "No new messages." +:+ newline
  | _ => String.concat newline (map raw_message ms) +:+ no_more_messages +:+ newline
  end.

(** Messages such a text can tell apart: tokens without spaces, and content
    that is not empty, ends in no space and has no bracket. *)
Definition opening : Ascii.ascii := Ascii.ascii_of_N 91.

Definition equals : Ascii.ascii := Ascii.ascii_of_N 61.

Definition plain_time (a : Ascii.ascii) : bool :=
  negb (bool_decide (a = nl)) && negb (bool_decide (a = equals)).

Definition task_canonical (m : RaftMessage) : bool :=
  match rm_task_number m, rm_task_status m with
  | None, None => bool_decide (rm_task_assignee_type m = None) && bool_decide (rm_task_assignee_id m = None)
  | Some n, Some status =>
      (0 <=? n) && token is_status_char status &&
      match rm_task_assignee_type m, rm_task_assignee_id m with
      | Some ty, Some id => token is_status_char ty && token in_brackets id
      | None, None => true
      | _, _ => false
      end
  | _, _ => false
  end.

Definition canonical (m : RaftMessage) : bool :=
  token nonspace (rm_target m)
  && token nonspace (rm_message_id m) && negb (bool_decide (rm_message_id m = "-"))
  && all_chars plain_time
       (rm_timestamp m)
  && token in_brackets (rm_sender_type m)
  && token (fun a => nonspace a && negb (bool_decide (a = colon))) (rm_sender_handle m)
  && negb (is_empty (rm_content m)) && bool_decide (rstrip (rm_content m) = rm_content m)
  && negb (has_char opening (rm_content m)) && task_canonical m.

(** *** Texts *)

Lemma after_prefix_app p s : after_prefix p (p +:+ s) = Some s.
Proof. induction p as [|a p IH]; simpl; [done|]. by rewrite bool_decide_true. Qed.

Lemma after_prefix_Some p s r : after_prefix p s = Some r -> s = p +:+ r.
Proof.
  revert s. induction p as [|a p IH]; intros s Hs; [by injection Hs as ->|].
  destruct s as [|b s]; [done|]. simpl in Hs. case_bool_decide; [|done]. subst.
  change (String b s = String b (p +:+ r)). by rewrite <-(IH s).
Qed.

(** The rest cannot continue the repetition. *)
Lemma before_suffix_app a b : before_suffix b (a +:+ b) = Some a.
Proof. unfold before_suffix. rewrite string_rev_app, after_prefix_app. simpl. by rewrite string_rev_involutive. Qed.

(** Lines. *)
Lemma split_lines_cons a s :
  a <> nl -> exists line lines, split_lines s = line :: lines /\
    split_lines (String a s) = String a line :: lines.
Proof.
  intros Ha. simpl. rewrite bool_decide_false by done.
  destruct (split_lines s) as [|line lines] eqn:E; [|by eexists _, _].
  exfalso. destruct s as [|b s]; simpl in E; [done|]. case_bool_decide; [done|]. by destruct (split_lines s).
Qed.

Lemma split_lines_join s : String.concat newline (split_lines s) = s.
Proof.
  induction s as [|a s IH]; [done|]. destruct (decide (a = nl)) as [->|Ha].
  - change (split_lines (String nl s)) with (EmptyString :: split_lines s).
    destruct (split_lines s) as [|line lines] eqn:E.
    + exfalso. destruct s; simpl in E; [done|]. case_bool_decide; [done|]. by destruct (split_lines s).
    + change (newline +:+ String.concat newline (line :: lines) = String nl s). by rewrite IH.
  - destruct (split_lines_cons a s Ha) as (line & lines & E & ->). rewrite E in IH.
    destruct lines; simpl in *; by rewrite <-IH.
Qed.

Lemma split_lines_app s t : split_lines (s +:+ newline +:+ t) = split_lines s ++ split_lines t.
Proof.
  induction s as [|a s IH]; [done|]. destruct (decide (a = nl)) as [->|Ha].
  - change (EmptyString :: split_lines (s +:+ newline +:+ t) = EmptyString :: (split_lines s ++ split_lines t)).
    by rewrite IH.
  - change (split_lines (String a (s +:+ newline +:+ t)) = split_lines (String a s) ++ split_lines t).
    destruct (split_lines_cons a s Ha) as (line & lines & E & ->).
    destruct (split_lines_cons a (s +:+ newline +:+ t) Ha) as (line' & lines' & E' & ->).
    rewrite IH, E in E'. by injection E' as <- <-.
Qed.

Definition no_newline (a : Ascii.ascii) : bool := negb (bool_decide (a = nl)).

Lemma split_lines_prefix h s :
  all_chars no_newline h = true ->
  exists line lines, split_lines s = line :: lines /\ split_lines (h +:+ s) = (h +:+ line) :: lines.
Proof.
  induction h as [|a h IH]; intros Hh.
  - destruct (split_lines s) as [|line lines] eqn:E; [|by eexists _, _].
    exfalso. destruct s; simpl in E; [done|]. case_bool_decide; [done|]. by destruct (split_lines s).
  - simpl in Hh. apply andb_true_iff in Hh as [Ha Hh]. unfold no_newline in Ha. reflect.
    destruct (IH Hh) as (line & lines & E & E').
    destruct (split_lines_cons a (h +:+ s) Ha) as (l2 & ls2 & E2 & E3). rewrite E' in E2.
    injection E2 as <- <-. exists line, lines. by split.
Qed.

(** *** Envelopes *)

Lemma some_bind {A B} (x : A) (f : A -> option B) : (Some x ≫= f) = f x.
Proof. done. Qed.

(** The mark of the type contains an equals sign, and its first character
    only at its beginning. *)
Lemma after_prefix_type a ts r :
  all_chars plain_time (String a ts) = true -> after_prefix " type=" (String a (ts +:+ " type=" +:+ r)) = None.
Proof.
  intros Hts.
  assert (forall b s, all_chars plain_time (String b s) = true -> b <> equals /\ all_chars plain_time s = true)
    as Hstep.
  { intros b s Hb. simpl in Hb. unfold plain_time in Hb at 1. reflect. by split. }
  apply Hstep in Hts as [Ha Hts]. simpl. case_bool_decide; [|done].
  do 5 (destruct ts as [|? ts]; [by vm_compute|]; apply Hstep in Hts as [? Hts]; simpl;
        case_bool_decide; [|done]).
  subst. exfalso. naive_solver.
Qed.

Lemma time_and_type_eq s :
  time_and_type s =
  match (s ← after_prefix " type=" s; '(ty, s) ← span1 in_brackets s; rest ← after_prefix "] " s;
         Some (EmptyString, ty, rest)), s with
  | Some r, _ => Some r
  | None, EmptyString => None
  | None, String a s' => '(time, ty, rest) ← time_and_type s'; Some (String a time, ty, rest)
  end.
Proof. by destruct s. Qed.

Lemma time_and_type_app ts ty rest :
  all_chars plain_time ts = true -> token in_brackets ty = true ->
  time_and_type (ts +:+ " type=" +:+ ty +:+ "] " +:+ rest) = Some (ts, ty, rest).
Proof.
  intros Hts Hty. induction ts as [|a ts IH].
  - rewrite time_and_type_eq. change ("" +:+ ?s) with s.
    by rewrite after_prefix_app, some_bind, span1_app, some_bind, after_prefix_app.
  - change (String a ts +:+ ?s) with (String a (ts +:+ s)).
    rewrite time_and_type_eq, after_prefix_type by done. simpl in Hts. reflect.
    change ((None : option string) ≫= _) with (None : option (string * string * string)). cbv iota.
    by rewrite IH, some_bind.
Qed.

Section Canonical.
Context `{RaftTexts}.
Variable m : RaftMessage.
Hypothesis good : canonical m = true.

Lemma canonical_split :
  token nonspace (rm_target m) = true /\ token nonspace (rm_message_id m) = true /\
  rm_message_id m <> "-" /\ all_chars plain_time (rm_timestamp m) = true /\
  token in_brackets (rm_sender_type m) = true /\
  token (fun a => nonspace a && negb (bool_decide (a = colon))) (rm_sender_handle m) = true /\
  rm_content m <> "" /\ rstrip (rm_content m) = rm_content m /\
  has_char opening (rm_content m) = false /\ task_canonical m = true.
Proof.
  unfold canonical in good. repeat rewrite andb_true_iff in good.
  destruct good as (((((((((H1 & H2) & H3) & H4) & H5) & H6) & H7) & H8) & H9) & H10).
  apply negb_true_iff, bool_decide_eq_false_1 in H3. apply bool_decide_eq_true_1 in H8.
  apply negb_true_iff in H9. split_and!; try done. by intros Hc; rewrite Hc in H7.
Qed.

Definition envelope_header : Header :=
  mk_Header (rm_target m) (rm_message_id m) (rm_timestamp m) (rm_sender_type m).

Definition header_text : string :=
  "[target=" +:+ rm_target m +:+ " msg=" +:+ rm_message_id m +:+ " time=" +:+ rm_timestamp m
  +:+ " type=" +:+ rm_sender_type m +:+ "] ".

Lemma match_header_app rest : match_header (header_text +:+ rest) = Some (envelope_header, rest).
Proof using good.
  destruct canonical_split as (Ht & Hid & _ & Hts & Hty & _).
  unfold header_text, match_header. repeat rewrite !string_app_assoc.
  rewrite after_prefix_app, some_bind, span1_app, some_bind, after_prefix_app, some_bind by done.
  rewrite span1_app, some_bind, after_prefix_app, some_bind by done.
  by rewrite time_and_type_app, some_bind.
Qed.

Lemma nonspace_no_newline a : nonspace a = true -> no_newline a = true.
Proof. unfold nonspace, no_newline. intros Hn. case_bool_decide; [|done]. by subst. Qed.

Lemma header_no_newline : all_chars no_newline header_text = true.
Proof using good.
  destruct canonical_split as (Ht & Hid & _ & Hts & Hty & _). unfold token in *. reflect.
  unfold header_text. rewrite !all_chars_app.
  repeat (apply andb_true_iff; split); try reflexivity;
    (eapply all_chars_mono; [|eassumption]; intros a Ha).
  - by apply nonspace_no_newline.
  - by apply nonspace_no_newline.
  - unfold plain_time in Ha. unfold no_newline. by apply andb_true_iff in Ha as [-> _].
  - unfold in_brackets in Ha. apply nonspace_no_newline. by apply andb_true_iff in Ha as [-> _].
Qed.
End Canonical.

(** *** Bodies *)

(** No line of the content opens an envelope. *)
Definition not_open (line : string) : Prop :=
  match line with EmptyString => True | String a _ => a <> opening end.

Lemma match_header_not_open line : not_open line -> match_header line = None.
Proof. destruct line as [|a line]; [done|]. intros Ha. unfold match_header. simpl. by rewrite bool_decide_false. Qed.

Lemma split_lines_line s : all_chars no_newline s = true -> split_lines s = [s].
Proof.
  intros Hs. destruct (split_lines_prefix s "" Hs) as (line & lines & E & E').
  injection E as <- <-. by rewrite string_app_nil in E'.
Qed.

Lemma lines_not_open c t :
  has_char opening c = false -> not_open t -> all_chars no_newline t = true ->
  Forall not_open (split_lines (c +:+ t)).
Proof.
  intros Hc Ht Hn. induction c as [|a c IH].
  - change (split_lines ("" +:+ t)) with (split_lines t). rewrite split_lines_line by done. by constructor.
  - simpl in Hc. apply orb_false_iff in Hc as [Ha Hc]. reflect. specialize (IH Hc).
    destruct (decide (a = nl)) as [->|Hne]; [by constructor|].
    change (split_lines (String a c +:+ t)) with (split_lines (String a (c +:+ t))).
    destruct (split_lines_cons a (c +:+ t) Hne) as (line & lines & E & ->). rewrite E in IH.
    inversion IH; subst. by constructor.
Qed.

Lemma envelopes_loose lines rest :
  Forall not_open lines -> envelopes (lines ++ rest) = (lines ++ (envelopes rest).1, (envelopes rest).2).
Proof.
  induction 1 as [|line lines Hl _ IH]; simpl; [by destruct (envelopes rest)|].
  rewrite IH. by rewrite match_header_not_open.
Qed.

(** *** Trailing space *)

Lemma rstrip_tail a c :
  rstrip (String a c) = String a c -> c = "" /\ py_isspace a = false \/ c <> "" /\ rstrip c = c.
Proof.
  intros Hr. destruct (is_empty (rstrip c)) eqn:E.
  - left. assert (lstrip (String.rev c) = "") as Hl.
    { unfold rstrip in E. destruct (lstrip (String.rev c)) as [|b u] eqn:El; [done|].
      rewrite string_rev_cons in E. by destruct (String.rev u). }
    unfold rstrip in Hr. rewrite string_rev_cons in Hr.
    assert (forall u v, lstrip u = "" -> lstrip (u +:+ v) = lstrip v) as Hlv.
    { induction u as [|b u IH]; intros v Hu; simpl in *; [done|]. destruct (py_isspace b); [by apply IH|done]. }
    rewrite Hlv in Hr by done. simpl in Hr. destruct (py_isspace a); [done|]. by injection Hr as <-.
  - right. change (rstrip (String a "" +:+ c) = String a c) in Hr. rewrite (rstrip_app (String a "") c E) in Hr. change (String a (rstrip c) = String a c) in Hr.
    injection Hr as Hr. split; [|done]. by intros ->.
Qed.

Lemma lstrip_black c t : c <> "" -> rstrip c = c -> has_char opening c = false ->
  exists b u, lstrip (c +:+ t) = String b u /\ b <> opening.
Proof.
  induction c as [|a c IH]; intros Hne Hr Hc; [done|]. simpl in Hc. apply orb_false_iff in Hc as [Ha Hc]. reflect.
  change (lstrip (String a c +:+ t)) with (if py_isspace a then lstrip (c +:+ t) else String a (c +:+ t)).
  destruct (rstrip_tail a c Hr) as [[-> ->]|[Hc2 Hr2]]; [by eexists _, _|].
  destruct (py_isspace a); [by apply IH|by eexists _, _].
Qed.

(** The content hides no task. *)
Lemma search_task_app c t :
  c = "" \/ rstrip c = c -> has_char opening c = false ->
  search_task (c +:+ t) = (fun p => (c +:+ p.1, p.2)) <$> search_task t.
Proof.
  induction c as [|a c IH]; intros Hr Hc.
  - change ("" +:+ t) with t. by destruct (search_task t) as [[? ?]|].
  - destruct Hr as [|Hr]; [done|]. simpl in Hc. apply orb_false_iff in Hc as [Ha Hc]. reflect.
    assert (match_task (String a (c +:+ t)) = None) as Hm.
    { unfold match_task. destruct (py_isspace a) eqn:Es; [|done]. cbv beta iota delta [negb].
      destruct (rstrip_tail a c Hr) as [[-> Hb]|[Hne Hr2]]; [congruence|].
      destruct (lstrip_black c t Hne Hr2 Hc) as (b & u & Hl & Hb).
      change (lstrip (String a (c +:+ t))) with (if py_isspace a then lstrip (c +:+ t) else String a (c +:+ t)).
      rewrite Es, Hl. simpl. by rewrite bool_decide_false. }
    change (String a c +:+ t) with (String a (c +:+ t)).
    change (search_task (String a (c +:+ t))) with
      (match match_task (String a (c +:+ t)) with
       | Some t => Some (EmptyString, t)
       | None => '(before, k) ← search_task (c +:+ t); Some (String a before, k)
       end).
    rewrite Hm, IH; [by destruct (search_task t) as [[? ?]|]| |done].
    destruct (rstrip_tail a c Hr) as [[-> _]|[_ ?]]; [by left|by right].
Qed.

(** *** The round trip *)

Section Roundtrip.
Context `{RaftTexts}.
Variable m : RaftMessage.
Hypothesis good : canonical m = true.

Definition sender_text : string := "@" +:+ rm_sender_handle m +:+ ": " +:+ rm_content m +:+ task_text m.

Lemma raw_message_text : raw_message m = header_text m +:+ sender_text.
Proof. unfold header_text, sender_text. by rewrite !string_app_assoc. Qed.

Definition task_of : option RaftTask :=
  n ← rm_task_number m;
  Some (mk_RaftTask n (default "" (rm_task_status m))
          (ty ← rm_task_assignee_type m; id ← rm_task_assignee_id m; Some (ty, id))).

Lemma match_assignee_app ty id rest :
  token is_status_char ty = true -> token in_brackets id = true ->
  match_assignee (" assignee=" +:+ ty +:+ ":" +:+ id +:+ "]" +:+ rest) = Some (Some (ty, id), "]" +:+ rest).
Proof.
  intros Hty Hid. unfold match_assignee. rewrite after_prefix_app.
  by rewrite span1_app, some_bind, after_prefix_app, some_bind, span1_app, some_bind.
Qed.

Lemma match_task_eq rest :
  match_task (" " +:+ "[task #" +:+ rest) =
  ('(number, s) ← span1 is_digit_char rest;
   s ← after_prefix " status=" s;
   '(status, s) ← span1 is_status_char s;
   '(assignee, s) ← match_assignee s;
   s ← after_prefix "]" s;
   if blank s then Some (mk_RaftTask (digits_value 0 number) status assignee) else None).
Proof. done. Qed.

(** The task at the end of a message, read back. *)
Lemma task_text_spec :
  match task_of with
  | None => task_text m = ""
  | Some t => match_task (task_text m) = Some t /\ all_chars no_newline (task_text m) = true /\
      rstrip (task_text m) = task_text m /\ is_empty (task_text m) = false /\ not_open (task_text m)
  end.
Proof using good.
  destruct (canonical_split m good) as (_ & _ & _ & _ & _ & _ & _ & _ & _ & Ht).
  unfold task_canonical, task_of, task_text in *. destruct (rm_task_number m) as [n|]; [|done].
  destruct (rm_task_status m) as [st|]; [|done].
  apply andb_true_iff in Ht as [[Hn Hst]%andb_true_iff Ha]. apply Z.leb_le in Hn.
  destruct (zstr_digits n Hn) as [Hd Hv]. rewrite some_bind. cbn [default from_option].
  set (who := match rm_task_assignee_id m with Some _ => _ | None => "" end).
  set (asg := (ty ← rm_task_assignee_type m; _)).
  assert (match_assignee (who +:+ "]" +:+ "") = Some (asg, "]" +:+ "") /\ all_chars no_newline who = true) as [Hwho Hwl].
  { unfold who, asg. destruct (rm_task_assignee_type m) as [ty|], (rm_task_assignee_id m) as [id|]; try done.
    apply andb_true_iff in Ha as [Hty Hid]. split.
    - rewrite some_bind, some_bind, <-(match_assignee_app ty id "") by done.
      f_equal. change (fstr [" assignee="; default "None" (Some ty); ":"; id]) with (" assignee=" +:+ ty +:+ ":" +:+ id).
      by rewrite !string_app_assoc.
    - change (fstr [" assignee="; default "None" (Some ty); ":"; id])
        with (" assignee=" +:+ ty +:+ ":" +:+ id).
      unfold token in *. reflect. rewrite !all_chars_app.
      repeat (apply andb_true_iff; split); try reflexivity; (eapply all_chars_mono; [|eassumption]; intros a Hc).
      + unfold no_newline. case_bool_decide; [by subst|done].
      + unfold in_brackets in Hc. apply nonspace_no_newline. by apply andb_true_iff in Hc as [-> _]. }
  assert (match who +:+ "]" +:+ "" with String a _ => negb (is_status_char a) | _ => false end = true) as Hstop.
  { unfold who. by destruct (rm_task_assignee_id m). }
  clearbody who asg. change (id st) with st.
  change (fstr [" [task #"; zstr n; " status="; st; who; "]"])
    with (" " +:+ "[task #" +:+ zstr n +:+ " status=" +:+ st +:+ who +:+ "]").
  split_and!.
  - change (who +:+ "]") with (who +:+ "]" +:+ ""). rewrite match_task_eq.
    rewrite span1_app, some_bind by done.
    rewrite after_prefix_app, some_bind, span1_app, some_bind; [|done|].
    2: { by destruct (who +:+ "]" +:+ ""). }
    by rewrite Hwho, some_bind, after_prefix_app, some_bind, Hv.
  - rewrite !all_chars_app. unfold token in *. reflect.
    repeat (apply andb_true_iff; split); try reflexivity; try done;
      (eapply all_chars_mono; [|eassumption]; intros a Hc; unfold no_newline; case_bool_decide; [by subst|done]).
  - rewrite <-!string_app_assoc. by rewrite rstrip_app.
  - done.
  - done.
Qed.

Lemma task_text_search :
  search_task (rm_content m +:+ task_text m) = (fun t => (rm_content m, t)) <$> task_of.
Proof using good.
  destruct (canonical_split m good) as (_ & _ & _ & _ & _ & _ & _ & Hr & Ho & _).
  rewrite search_task_app by (by try right). pose proof task_text_spec as Ht.
  destruct task_of as [t|].
  - destruct Ht as [Hm _]. destruct (task_text m) as [|a s]; [done|].
    change (search_task (String a s)) with
      (match match_task (String a s) with
       | Some t => Some (EmptyString, t)
       | None => '(before, k) ← search_task s; Some (String a before, k)
       end).
    rewrite Hm. simpl. by rewrite string_app_nil.
  - by rewrite Ht.
Qed.

Lemma body_rstrip : rstrip (rm_content m +:+ task_text m) = rm_content m +:+ task_text m /\
  is_empty (rm_content m +:+ task_text m) = false.
Proof using good.
  destruct (canonical_split m good) as (_ & _ & _ & _ & _ & _ & Hne & Hr & _).
  pose proof task_text_spec as Ht. split.
  - destruct task_of as [t|].
    + destruct Ht as (_ & _ & Hs & He & _). rewrite rstrip_app; [by rewrite Hs|by rewrite Hs].
    + by rewrite Ht, string_app_nil.
  - by destruct (rm_content m).
Qed.

Lemma read_message_app : read_message (envelope_header m, sender_text) = Ok m.
Proof using good.
  destruct (canonical_split m good) as (_ & _ & Hid & _ & _ & Hh & Hne & Hr & _ & Htask).
  destruct body_rstrip as [Hb He]. unfold read_message, sender_text.
  assert (rstrip ("@" +:+ rm_sender_handle m +:+ ": " +:+ rm_content m +:+ task_text m)
          = "@" +:+ rm_sender_handle m +:+ ": " +:+ rm_content m +:+ task_text m) as ->.
  { rewrite <-!string_app_assoc. rewrite (string_app_assoc _ (rm_content m) (task_text m)).
    rewrite rstrip_app by (by rewrite Hb). by rewrite Hb. }
  unfold match_sender. rewrite after_prefix_app, some_bind, span1_app, some_bind by done.
  change (after_prefix (" " +:+ em_dash +:+ " ") (": " +:+ rm_content m +:+ task_text m))
    with (None : option string). cbv iota. rewrite after_prefix_app, some_bind. cbv zeta.
  rewrite Hb, task_text_search. rewrite bool_decide_false by done. clear -Hr Htask.
  unfold task_of, task_canonical in *. destruct m as [tg id ts ty h c n st aty aid]. simpl in *.
  destruct n as [n|]; simpl.
  - rewrite Hr. destruct st as [st|]; [|done]. apply andb_true_iff in Htask as [_ Ha].
    by destruct aty, aid.
  - destruct st; [done|]. apply andb_true_iff in Htask as [Ha1 Ha2]. reflect. subst.
    by rewrite string_app_nil.
Qed.

Lemma envelopes_hit line rest h lines :
  match_header line = Some (h, rest) ->
  envelopes (line :: lines)
  = ([], (h, String.concat newline (rest :: (envelopes lines).1)) :: (envelopes lines).2).
Proof. intros Hm. simpl. rewrite Hm. by destruct (envelopes lines). Qed.

(** The lines of a message, before those of the next ones. *)
Lemma envelopes_message lines :
  (envelopes lines).1 = [] ->
  envelopes (split_lines (raw_message m) ++ lines)
  = ([], (envelope_header m, sender_text) :: (envelopes lines).2).
Proof using good.
  intros Hl. rewrite raw_message_text.
  destruct (split_lines_prefix (header_text m) sender_text (header_no_newline m good)) as (line & rest & E & ->).
  assert (Forall not_open rest) as Hrest.
  { unfold sender_text in E. rewrite <-!string_app_assoc in E. rewrite (string_app_assoc _ (rm_content m)) in E.
    destruct (canonical_split m good) as (_ & _ & _ & _ & _ & Hh & _ & _ & Ho & _).
    destruct (split_lines_prefix (("@" +:+ rm_sender_handle m) +:+ ": ") (rm_content m +:+ task_text m))
      as (line' & rest' & E1 & E2).
    { unfold token in Hh. apply andb_true_iff in Hh as [_ Hh]. rewrite !all_chars_app.
      repeat (apply andb_true_iff; split); try reflexivity. eapply all_chars_mono; [|exact Hh].
      intros a [Ha _]%andb_true_iff. by apply nonspace_no_newline. }
    rewrite E2 in E. injection E as _ <-.
    assert (Forall not_open (split_lines (rm_content m +:+ task_text m))) as Hall.
    { pose proof task_text_spec as Ht.
      destruct task_of; [destruct Ht as (_ & ? & _ & _ & ?)|rewrite Ht]; by apply lines_not_open. }
    rewrite E1 in Hall. by inversion Hall. }
  change (((header_text m +:+ line) :: rest) ++ lines) with ((header_text m +:+ line) :: (rest ++ lines)).
  rewrite (envelopes_hit _ _ _ _ (match_header_app m good line)), envelopes_loose by done.
  cbn [fst snd]. by rewrite Hl, app_nil_r, <-E, split_lines_join.
Qed.
End Roundtrip.

Lemma envelopes_messages `{RaftTexts} ms :
  ms <> [] -> Forall (fun m => canonical m = true) ms ->
  envelopes (split_lines (String.concat newline (map raw_message ms)))
  = ([], map (fun m => (envelope_header m, sender_text m)) ms).
Proof.
  intros Hne Hms. induction Hms as [|m ms Hm _ IH]; [done|]. destruct ms as [|m' ms].
  - change (String.concat newline (map raw_message [m])) with (raw_message m).
    rewrite <-(app_nil_r (split_lines (raw_message m))). by rewrite envelopes_message.
  - change (String.concat newline (map raw_message (m :: m' :: ms)))
      with (raw_message m +:+ newline +:+ String.concat newline (map raw_message (m' :: ms))).
    rewrite split_lines_app, envelopes_message by (try done; by rewrite IH). by rewrite IH.
Qed.

Lemma traverse_map {A B C} (f : B -> outcome C) (g : A -> B) (h : A -> C) l :
  (forall x, x ∈ l -> f (g x) = Ok (h x)) -> traverse f (map g l) = Ok (map h l).
Proof.
  induction l as [|x l IH]; intros Hf; simpl; [done|].
  rewrite Hf by (by left). simpl. by rewrite IH by (intros; apply Hf; by right).
Qed.

(** C7: the parser reads back what the command line prints.  For messages
    whose tokens hold no spaces and whose content ends in none and has no
    bracket - with or without a task, over any number of lines - parsing the
    canonical text of an inbox gives exactly these messages, in order. *)
Theorem parse_raft_messages_roundtrip `{RaftTexts} ms :
  Forall (fun m => canonical m = true) ms -> parse_raft_messages (raw_messages ms) = Ok ms.
Proof.
  intros Hms. destruct ms as [|m ms]; [by vm_compute|].
  set (text := String.concat newline (map raw_message (m :: ms))).
  assert (raw_messages (m :: ms) = (text +:+ newline +:+ "No more new messages") +:+ ("." +:+ newline)) as ->.
  { change (raw_messages (m :: ms)) with (text +:+ ((newline +:+ "No more new messages") +:+ ("." +:+ newline))).
    by rewrite !string_app_assoc. }
  unfold parse_raft_messages. rewrite rstrip_app by done. change (rstrip ("." +:+ newline)) with ".".
  rewrite string_app_assoc. change (((newline +:+ "No more new messages") +:+ ".")) with no_more_messages.
  assert (exists s, text = String opening s) as [s Hs].
  { unfold text. destruct ms; simpl; by eexists. }
  assert (forall t, is_empty (text +:+ t) = false /\ text +:+ t <> "No new messages.") as Htext.
  { intros t. by rewrite Hs. }
  rewrite (proj1 (Htext _)), bool_decide_false by apply Htext. simpl orb. cbv iota.
  unfold without_drain_suffix. rewrite before_suffix_app.
  assert (rstrip text = text) as ->.
  { unfold text. clear Htext Hs s text. revert m Hms. induction ms as [|m' ms IH]; intros m Hms.
    - inversion Hms as [|? ? Hm _]; subst. simpl. rewrite raw_message_text. unfold sender_text.
      destruct (body_rstrip m Hm) as [Hb He]. rewrite <-!string_app_assoc.
      rewrite (string_app_assoc _ (rm_content m)). rewrite rstrip_app by (by rewrite Hb). by rewrite Hb.
    - inversion Hms as [|? ? Hm Hms']; subst.
      change (String.concat newline (map raw_message (m :: m' :: ms)))
        with (raw_message m +:+ newline +:+ String.concat newline (map raw_message (m' :: ms))).
      rewrite <-string_app_assoc, rstrip_app; rewrite (IH m') by done; [done|]. by destruct ms. }
  specialize (Htext ""). rewrite string_app_nil in Htext.
  rewrite (proj1 Htext), bool_decide_false by apply Htext. simpl orb. cbv iota.
  unfold text. rewrite envelopes_messages by done. cbn [snd].
  rewrite bool_decide_false by (by rewrite length_map). rewrite (traverse_map _ _ id).
  - by rewrite map_id.
  - intros x Hx. rewrite Forall_forall in Hms. by apply read_message_app, Hms.
Qed.

(** *** Instances *)

#[local] Instance plain_texts : RaftTexts := { em_dash := "-" }.

Definition task_message : RaftMessage :=
  mk_RaftMessage "#agents" "abcd1234" "2026-07-31 11:00:00" "human" "iris-huang"
    ("@iris-external-no-1 analyse" +:+ newline +:+ "second line") (Some 7) (Some "todo") (Some "agent")
    (Some (uuid_str 281460516427926640281877486458606755269)).

Definition direct_message : RaftMessage :=
  mk_RaftMessage "dm:@iris-huang" "ef56" "2026-07-31 11:00:01" "human" "iris-huang" "Hello" None None None None.

Lemma parse_raft_messages_roundtrip_witness :
  parse_raft_messages (raw_messages [task_message; direct_message]) = Ok [task_message; direct_message].
Proof.
  apply parse_raft_messages_roundtrip. repeat constructor; vm_compute; reflexivity.
Defined.

(** A message without text is refused, and the whole batch with it: the space
    after the colon is stripped before the sender is matched. *)
Example empty_content_refused :
  parse_raft_messages (raw_messages [direct_message;
    mk_RaftMessage "#agents" "gh78" "2026-07-31 11:00:02" "human" "iris" "" None None None None])
  = Raise (protocol_error ["raft message check returned a message with an unsupported sender envelope"]).
Proof. vm_compute. reflexivity. Qed.

(** The sender may carry a description, and the last line ask for another
    check. *)
Example described_sender :
  parse_raft_messages ("[target=#a:t msg=m1 time=now type=agent] @bob - the builder: done" +:+ more_messages)
  = Ok [mk_RaftMessage "#a:t" "m1" "now" "agent" "bob" "done" None None None None].
Proof. vm_compute. reflexivity. Qed.
