(* ===== verification/RaftWorker.v ===== *)
(** * The Raft worker ([src/base_agent/integrations/raft/worker.py],
    [integrations/raft/state.py])

    The worker answers the messages of an external chat with Runs of an
    Agent.  It keeps a journal of how far each message has come, so that
    neither a failure of the transport nor a restart of the process repeats
    what is done.  What lies outside - the command line of the transport, the
    Agent, the file system, the bridge - is the record [Outside]; any call of
    it may raise, and a crash of the process is an exception nobody catches.
    The Chinese texts of the replies are the class [ReplyTexts]. *)

From Stdlib Require Import QArith.
From stdpp Require Import base gmap strings list.
From S2P Require Import Prelude Json Models Sha256 Serial ModelTool Engine PlanExecution Texts RaftInbox.

Class ReplyTexts := {
  no_output_text : string;
  need_more_text : string;
  unfinished_text : string;
  unfinished_because : string;
  truncated_marker : string;
}.

(** ** The journal *)

Record CachedReply := mk_CachedReply {
  cr_target : string;
  cr_content : string;
  cr_move_task_to_review : bool;
  cr_task_target : option string;
  cr_task_number : option Z;
}.

Record OpenTask := mk_OpenTask { ot_target : string; ot_number : Z }.

Record WorkerState := mk_WorkerState {
  st_completed_ids : list string;
  st_claimed_ids : gset string;
  st_replied_ids : gset string;
  st_cached_replies : gmap string CachedReply;
  st_waiting_runs : gmap string string;
  st_open_tasks : gmap string OpenTask;
}.

Definition WorkerState_default : WorkerState := mk_WorkerState [] ∅ ∅ ∅ ∅ ∅.

Definition is_completed (mid : string) (s : WorkerState) : bool :=
  bool_decide (mid ∈ st_completed_ids s).

Definition add_claimed (mid : string) (s : WorkerState) : WorkerState :=
  mk_WorkerState (st_completed_ids s) ({[mid]} ∪ st_claimed_ids s) (st_replied_ids s)
    (st_cached_replies s) (st_waiting_runs s) (st_open_tasks s).

Definition add_replied (mid : string) (s : WorkerState) : WorkerState :=
  mk_WorkerState (st_completed_ids s) (st_claimed_ids s) ({[mid]} ∪ st_replied_ids s)
    (st_cached_replies s) (st_waiting_runs s) (st_open_tasks s).

Definition add_cached (mid : string) (r : CachedReply) (s : WorkerState) : WorkerState :=
  mk_WorkerState (st_completed_ids s) (st_claimed_ids s) (st_replied_ids s)
    (<[mid := r]> (st_cached_replies s)) (st_waiting_runs s) (st_open_tasks s).

Definition set_conversation (waiting : gmap string string -> gmap string string)
  (tasks : gmap string OpenTask -> gmap string OpenTask) (s : WorkerState) : WorkerState :=
  mk_WorkerState (st_completed_ids s) (st_claimed_ids s) (st_replied_ids s)
    (st_cached_replies s) (waiting (st_waiting_runs s)) (tasks (st_open_tasks s)).

(** [mark_completed], before it saves. *)
Definition completed (limit : Z) (mid : string) (s : WorkerState) : WorkerState :=
  let ids :=
    if is_completed mid s then st_completed_ids s
    else
      let ids := st_completed_ids s ++ [mid] in
      drop (Z.to_nat (Z.of_nat (length ids) - limit)) ids in
  mk_WorkerState ids (st_claimed_ids s ∖ {[mid]}) (st_replied_ids s ∖ {[mid]})
    (delete mid (st_cached_replies s)) (st_waiting_runs s) (st_open_tasks s).

(** ** The world *)

(** What the worker asks of others, each with the message it is about; and
    which messages are completed in the saved journal. *)
Inductive raft_event :=
  | Claimed (mid target : string) (number : Z)
  | Ran (mid : string) (run_id : uuid)
  | Resumed (mid : string) (run_id : uuid)
  | Sent (mid target content : string)
  | Updated (mid target : string) (number : Z)
  | Completed (mid : string).

(** The state in memory and on disk, the spooled inbox, everything asked so
    far, and the state of the outside. *)
Record RaftWorld (X : Type) := mk_RaftWorld {
  rw_state : WorkerState;
  rw_disk : option WorkerState;
  rw_spool : option string;
  rw_log : list raft_event;
  rw_ext : X;
}.
Arguments mk_RaftWorld {X}.
Arguments rw_state {X}.
Arguments rw_disk {X}.
Arguments rw_spool {X}.
Arguments rw_log {X}.
Arguments rw_ext {X}.

Record Outside (X : Type) := mk_Outside {
  out_message_check : X -> X * outcome string;
  out_send_message : string -> string -> X -> X * outcome unit;
  out_claim_task : string -> Z -> X -> X * outcome unit;
  out_update_task : string -> Z -> string -> X -> X * outcome unit;
  out_run : string -> uuid -> list string -> X -> X * outcome AgentResult;
  out_resume : uuid -> string -> X -> X * outcome AgentResult;
  out_io : X -> X * bool;
  out_start_bridge : X -> X * outcome unit;
  out_wake : X -> X * outcome unit;
}.
Arguments mk_Outside {X}.
Arguments out_message_check {X}.
Arguments out_send_message {X}.
Arguments out_claim_task {X}.
Arguments out_update_task {X}.
Arguments out_run {X}.
Arguments out_resume {X}.
Arguments out_io {X}.
Arguments out_start_bridge {X}.
Arguments out_wake {X}.

(** ** Pure parts *)

(** [s] after [p], whatever the case of the letters. *)
Fixpoint after_prefix_nocase (p s : string) : option string :=
  match p, s with
  | EmptyString, _ => Some s
  | String a p', String b s' =>
      if bool_decide (lower_char a = lower_char b) then after_prefix_nocase p' s' else None
  | String _ _, EmptyString => None
  end.

Definition joins_word (a : Ascii.ascii) : bool := word_char a || has_char a "-".

(** [self._mention.search]; [free] says that no word precedes. *)
Fixpoint mentions (handle : string) (free : bool) (s : string) : bool :=
  match s with
  | EmptyString => false
  | String a s' =>
      (free && bool_decide (a = Ascii.ascii_of_N 64) &&
       match after_prefix_nocase handle s' with
       | Some (String b _) => negb (joins_word b)
       | Some EmptyString => true
       | None => false
       end)
      || mentions handle (negb (joins_word a)) s'
  end.

(** [_build_prompt]. *)
Definition raft_prompt (m : RaftMessage) : string :=
  let task_context :=
    match rm_task_number m with
    | Some n => fstr ["Raft task #"; zstr n; " ("; default "None" (rm_task_status m); ")."; newline]
    | None => ""
    end in
  fstr ["You are responding through a Raft External Agent Worker. ";
        "Do not invoke Raft CLI commands or attempt to send the response yourself; ";
        "the Worker owns task claims, transport, and status updates."; newline;
        "Sender: @"; rm_sender_handle m; newline; "Source: "; rm_target m; newline; task_context;
        "Request:"; newline; rm_content m].

(** [x or y] of an optional text. *)
Definition or_text (x : option string) (y : string) : string :=
  match x with Some s => if is_empty s then y else s | None => y end.

(** [_bounded_reply]. *)
Definition bounded_reply `{ReplyTexts} (r : AgentResult) (limit : Z) : string :=
  let status := AgentResultStatus_value (ares_status r) in
  let text :=
    match ares_status r with
    | R_COMPLETED => or_text (ares_output r) no_output_text
    | R_WAITING => or_text (ares_output r) need_more_text
    | _ =>
        let detail := or_text (ares_error r) (or_text (ares_output r) status) in
        fstr [unfinished_text; status; unfinished_because; detail]
    end in
  if slen text <=? limit then text
  else String.substring 0 (Z.to_nat (Z.max 0 (limit - slen truncated_marker))) text +:+ truncated_marker.

(** [_conversation_key], [_task_target], [_reply_target]. *)
Definition conversation_key (m : RaftMessage) : string :=
  if is_direct_message m || is_thread m then rm_target m
  else fstr [rm_target m; ":"; rm_message_id m].

Definition task_target (target : string) : string :=
  if starts "#" target && has_char colon target
  then (span (fun a => negb (bool_decide (a = colon))) target).1
  else target.

Definition reply_target (m : RaftMessage) (open_task : option OpenTask) : string :=
  match open_task with
  | Some _ =>
      if starts "#" (rm_target m) && negb (is_thread m)
      then fstr [rm_target m; ":"; rm_message_id m] else rm_target m
  | None => rm_target m
  end.

(** [UUID(text)]. *)
Definition UUID_of (text : string) : outcome uuid :=
  match parse_uuid text with
  | Some u => Ok u
  | None => Raise (value_error ["badly formed hexadecimal UUID string"])
  end.

Definition raft_run_namespace : uuid := 202019081890860510912852680346478538007.

Example raft_run_namespace_text :
  UUID_of "97fb75bc-ff5a-41fc-a4c3-31fb69cf6d17" = Ok raft_run_namespace.
Proof. vm_compute. reflexivity. Qed.

(** ** Steps *)

(** A step of the worker; it reads and writes the world, and returns or raises. *)
Definition action (X A : Type) : Type := RaftWorld X -> RaftWorld X * outcome A.

Section Steps.
Context {X : Type}.

Abbreviation act := (action X).

Definition give {A} (a : A) : act A := fun w => (w, Ok a).
Definition fail {A} (e : exn) : act A := fun w => (w, Raise e).

Definition chain {A B} (p : act A) (k : A -> act B) : act B :=
  fun w => match p w with
           | (w', Ok a) => k a w'
           | (w', Raise e) => (w', Raise e)
           end.

(** [try: p except ...: h]: [h e] is [None] when no clause matches. *)
Definition rescue {A} (p : act A) (h : exn -> option (act A)) : act A :=
  fun w => match p w with
           | (w', Raise e) => match h e with Some q => q w' | None => (w', Raise e) end
           | r => r
           end.
End Steps.

Notation "'let^' x ':=' p 'in' k" := (chain p (fun x => k))
  (at level 10, x name, p at level 200, k at level 200).
Notation "'do^' p 'in' k" := (chain p (fun _ => k)) (at level 10, p at level 200, k at level 200).

(** ** The worker *)

Section Worker.
Context `{RaftTexts} `{ReplyTexts} `{FloatRepr} {X : Type}.
Variable config : RaftWorkerConfig.
Variable root : string.
Variable skills : list string.
Variable out : Outside X.

Abbreviation act := (action X).

(** A call of the outside. *)
Definition ask {A} (f : X -> X * A) : act A :=
  fun w => let '(x, a) := f (rw_ext w) in
           (mk_RaftWorld (rw_state w) (rw_disk w) (rw_spool w) (rw_log w) x, Ok a).

Definition attempted {A} (f : X -> X * outcome A) : act A :=
  let^ o := ask f in fun w => (w, o).

Definition note (e : raft_event) : act unit :=
  fun w => (mk_RaftWorld (rw_state w) (rw_disk w) (rw_spool w) (rw_log w ++ [e]) (rw_ext w), Ok tt).

Definition read_state : act WorkerState := fun w => (w, Ok (rw_state w)).
Definition put_state (f : WorkerState -> WorkerState) : act unit :=
  fun w => (mk_RaftWorld (f (rw_state w)) (rw_disk w) (rw_spool w) (rw_log w) (rw_ext w), Ok tt).

(** ** [RaftWorkerStateStore] *)

Definition state_error (what file : string) : exn :=
  Exn RaftStateError (fstr [what; " '"; root; "/"; file; "'"]).

(** An operation on a file, done or refused by the system. *)
Definition file_operation {A} (what file : string) (f : RaftWorld X -> RaftWorld X * A) : act A :=
  let^ done := ask (out_io out) in
  if done then fun w => let '(w', a) := f w in (w', Ok a) else fail (state_error what file).

(** [_write_atomic]: the new file is complete before it replaces the old one. *)
Definition write_atomic (file : string) (f : RaftWorld X -> RaftWorld X) : act unit :=
  file_operation "failed to persist Raft state" file (fun w => (f w, tt)).

Definition state_file : string := "worker-state.json".
Definition spool_file : string := "pending-inbox.txt".

(** [save]. *)
Definition save : act unit :=
  write_atomic state_file (fun w =>
    mk_RaftWorld (rw_state w) (Some (rw_state w)) (rw_spool w) (rw_log w) (rw_ext w)).

(** [mark_completed]. *)
Definition mark_completed (mid : string) : act unit :=
  do^ put_state (completed (rc_processed_message_limit config) mid) in
  do^ save in
  note (Completed mid).

(** [write_spool], [clear_spool]; [read_spool]. *)
Definition set_spool (raw : option string) (w : RaftWorld X) : RaftWorld X :=
  mk_RaftWorld (rw_state w) (rw_disk w) raw (rw_log w) (rw_ext w).

Definition write_spool (raw : string) : act unit := write_atomic spool_file (set_spool (Some raw)).
Definition clear_spool : act unit :=
  file_operation "failed to remove Raft inbox spool" spool_file (fun w => (set_spool None w, tt)).
Definition read_spool : act (option string) :=
  file_operation "failed to read Raft inbox spool" spool_file (fun w => (w, rw_spool w)).

(** [_load]: a restarted process has what is on the disk. *)
Definition reload (w : RaftWorld X) : RaftWorld X :=
  mk_RaftWorld (default WorkerState_default (rw_disk w)) (rw_disk w) (rw_spool w) (rw_log w) (rw_ext w).

(** ** [RaftWorker] *)

(** [_should_handle]. *)
Definition should_handle (m : RaftMessage) (key : string) (s : WorkerState) : bool :=
  let mine := uuid_str (rc_agent_id config) in
  if bool_decide (casefold (rm_sender_handle m) = casefold (rc_handle config)) then false
  else if bool_decide (rm_sender_type m ∈ ["system"; "third_party_app"]) then false
  else if match rm_task_status m with Some t => bool_decide (t ∈ ["done"; "closed"]) | None => false end
  then false
  else if match rm_task_assignee_id m with Some a => negb (bool_decide (a = mine)) | None => false end
  then false
  else if match st_waiting_runs s !! key with Some _ => true | None => false end then true
  else if is_direct_message m then true
  else if bool_decide (rm_task_assignee_id m = Some mine) then true
  else mentions (rc_handle config) true (rm_content m).

(** [_task_for_message]. *)
Definition task_for_message (m : RaftMessage) (key : string) (s : WorkerState) : option OpenTask :=
  match rm_task_number m with
  | Some n => Some (mk_OpenTask (task_target (rm_target m)) n)
  | None => st_open_tasks s !! key
  end.

(** [_claim_if_needed]. *)
Definition claim_if_needed (m : RaftMessage) (number : Z) : act bool :=
  let mid := rm_message_id m in
  let^ s := read_state in
  if bool_decide (mid ∈ st_claimed_ids s) then give true
  else
    let^ claimed :=
      if bool_decide (rm_task_status m = Some "in_progress")
         && bool_decide (rm_task_assignee_id m = Some (uuid_str (rc_agent_id config)))
      then give true
      else
        do^ note (Claimed mid (task_target (rm_target m)) number) in
        rescue (do^ attempted (out_claim_task out (task_target (rm_target m)) number) in give true)
          (fun e => if isinstance e RaftCliCommandError then Some (give false) else None) in
    if negb claimed then give false
    else
      do^ put_state (add_claimed mid) in
      do^ save in
      give true.

(** [_execute]: the id of the Run of a message. *)
Definition run_id_of (m : RaftMessage) : uuid :=
  uuid5 raft_run_namespace (fstr [uuid_str (rc_agent_id config); ":"; rm_message_id m]).

(** The [try] statement: the result of the resumed Run. *)
Definition resume_waiting_run (m : RaftMessage) (key waiting_run : string) : act (option AgentResult) :=
  rescue
    (let^ rid := fun w => (w, UUID_of waiting_run) in
     do^ note (Resumed (rm_message_id m) rid) in
     let^ r := attempted (out_resume out rid (rm_content m)) in
     give (Some r))
    (fun e =>
       if isinstance e RunNotFoundError || isinstance e ExValueError
       then Some (do^ put_state (set_conversation (delete key) (delete key)) in
                  do^ save in
                  give None)
       else None).

Definition execute_message (m : RaftMessage) (key : string) : act AgentResult :=
  let^ s := read_state in
  let^ resumed := match st_waiting_runs s !! key with
                  | Some waiting_run => resume_waiting_run m key waiting_run
                  | None => give None
                  end in
  match resumed with
  | Some r => give r
  | None =>
      do^ note (Ran (rm_message_id m) (run_id_of m)) in
      attempted (out_run out (raft_prompt m) (run_id_of m) skills)
  end.

(** [_cache_reply]. *)
Definition reply_of (m : RaftMessage) (r : AgentResult) (open_task : option OpenTask) : CachedReply :=
  mk_CachedReply (reply_target m open_task) (bounded_reply r (rc_max_reply_chars config))
    (bool_decide (ares_status r = R_COMPLETED) && match open_task with Some _ => true | None => false end)
    (ot_target <$> open_task) (ot_number <$> open_task).

Definition cache_reply (m : RaftMessage) (r : AgentResult) (key : string) (open_task : option OpenTask)
  : act CachedReply :=
  do^ (if bool_decide (ares_status r = R_WAITING) then
         match dget "run_id" (ares_metadata r) with
         | None => fail (Exn ExKeyError "run_id")
         | Some j =>
             put_state (set_conversation (insert key (json_str j))
                          (match open_task with Some t => insert key t | None => id end))
         end
       else put_state (set_conversation (delete key) id)) in
  do^ put_state (add_cached (rm_message_id m) (reply_of m r open_task)) in
  do^ save in
  give (reply_of m r open_task).

(** The reply of a message: the cached one, or that of its Run. *)
Definition reply_for (m : RaftMessage) (key : string) : act CachedReply :=
  let^ s := read_state in
  match st_cached_replies s !! rm_message_id m with
  | Some cached => give cached
  | None =>
      let^ r := execute_message m key in
      let^ s := read_state in
      cache_reply m r key (task_for_message m key s)
  end.

(** The reply is sent, unless the journal says so. *)
Definition deliver (m : RaftMessage) (cached : CachedReply) : act unit :=
  let mid := rm_message_id m in
  let^ s := read_state in
  if bool_decide (mid ∈ st_replied_ids s) then give tt
  else
    do^ note (Sent mid (cr_target cached) (cr_content cached)) in
    do^ attempted (out_send_message out (cr_target cached) (cr_content cached)) in
    do^ put_state (add_replied mid) in
    save.

(** The task of a completed Run goes to review. *)
Definition review_task (m : RaftMessage) (key : string) (cached : CachedReply) : act unit :=
  match cr_move_task_to_review cached, cr_task_target cached, cr_task_number cached with
  | true, Some target, Some number =>
      do^ note (Updated (rm_message_id m) target number) in
      do^ attempted (out_update_task out target number "in_review") in
      do^ put_state (set_conversation (delete key) (delete key)) in
      save
  | _, _, _ => give tt
  end.

(** [_process_message]. *)
Definition process_message (m : RaftMessage) : act bool :=
  let key := conversation_key m in
  let mid := rm_message_id m in
  let^ s := read_state in
  if negb (should_handle m key s) then do^ mark_completed mid in give false
  else
    let^ claimed := match rm_task_number m with
                    | Some n => claim_if_needed m n
                    | None => give true
                    end in
    if negb claimed then do^ mark_completed mid in give false
    else
      let^ cached := reply_for m key in
      do^ deliver m cached in
      do^ review_task m key cached in
      do^ mark_completed mid in
      give true.

Record RaftDrainResult := mk_RaftDrainResult { dr_received : Z; dr_handled : Z; dr_skipped : Z }.

(** The loop of [run_once]. *)
Fixpoint process_all (ms : list RaftMessage) (handled skipped : Z) : act (Z * Z) :=
  match ms with
  | [] => give (handled, skipped)
  | m :: ms' =>
      let^ s := read_state in
      if is_completed (rm_message_id m) s then process_all ms' handled (skipped + 1)
      else
        let^ done := process_message m in
        if done then process_all ms' (handled + 1) skipped else process_all ms' handled (skipped + 1)
  end.

(** [RaftCliClient.check_messages]. *)
Definition check_messages : act (string * list RaftMessage) :=
  let^ raw := attempted (out_message_check out) in
  let^ messages := fun w => (w, parse_raft_messages raw) in
  give (raw, messages).

(** The messages to work on: the spooled ones, or new ones once spooled. *)
Definition next_batch : act (option (list RaftMessage)) :=
  let^ raw := read_spool in
  match raw with
  | None =>
      let^ batch := check_messages in
      match batch.2 with
      | [] => give None
      | _ => do^ write_spool batch.1 in give (Some batch.2)
      end
  | Some raw =>
      let^ messages := fun w => (w, parse_raft_messages raw) in
      give (Some messages)
  end.

(** The spooled messages are worked on, then the spool is removed. *)
Definition drain_messages (messages : list RaftMessage) : act RaftDrainResult :=
  let^ counts := process_all messages 0 0 in
  do^ clear_spool in
  give (mk_RaftDrainResult (Z.of_nat (length messages)) counts.1 counts.2).

(** [run_once]. *)
Definition raft_run_once : act RaftDrainResult :=
  let^ batch := next_batch in
  match batch with
  | None => give (mk_RaftDrainResult 0 0 0)
  | Some messages => drain_messages messages
  end.

(** The loop of [run_forever], for [n] wakes; the exit of the bridge is an
    exception of the wait. *)
Fixpoint wake_loop (n : nat) : act unit :=
  match n with
  | O => give tt
  | S n' =>
      do^ attempted (out_wake out) in
      do^ raft_run_once in
      wake_loop n'
  end.

(** [run_forever]. *)
Definition raft_run_forever (n : nat) : act unit :=
  do^ attempted (out_start_bridge out) in
  do^ raft_run_once in
  wake_loop n.

(** A process starts from its files and runs until an exception or a crash
    ends it; the next one starts from what it left. *)
Definition life (w : RaftWorld X) (n : nat) : RaftWorld X := fst (raft_run_forever n (reload w)).

Definition lives (ns : list nat) (w : RaftWorld X) : RaftWorld X := fold_left life ns w.
End Worker.

(** ** The order of what the worker asks *)

(** [e] makes no Run for [mid], and is no other reply to it. *)
Definition consistent (mid target content : string) (e : raft_event) : Prop :=
  match e with
  | Ran m _ | Resumed m _ => m <> mid
  | Sent m t c => m = mid -> t = target /\ c = content
  | _ => True
  end.

(** How often other messages were completed. *)
Definition other_completion (mid : string) (e : raft_event) : bool :=
  match e with Completed m => negb (bool_decide (m = mid)) | _ => false end.

Definition others (mid : string) (l : list raft_event) : Z :=
  Z.of_nat (length (List.filter (other_completion mid) l)).

Lemma others_snoc mid l e : others mid (l ++ [e]) = others mid l + Z.b2z (other_completion mid e).
Proof.
  unfold others. rewrite List.filter_app, length_app. simpl.
  destruct (other_completion mid e); simpl; lia.
Qed.

Lemma others_nonneg mid l : 0 <= others mid l.
Proof. unfold others. lia. Qed.

(** The events of a log after one of it. *)
Lemma snoc_split {A} (l1 l2 l : list A) x e :
  l ++ [e] = l1 ++ x :: l2 ->
  (l2 = [] /\ x = e /\ l1 = l) \/ exists l2', l2 = l2' ++ [e] /\ l = l1 ++ x :: l2'.
Proof.
  destruct l2 as [|y l2 _] using rev_ind; intros Heq.
  - left. by apply app_inj_tail in Heq as [-> ->].
  - right. rewrite app_comm_cons, app_assoc in Heq. apply app_inj_tail in Heq as [-> ->]. by exists l2.
Qed.

Section Order.
Variable limit : Z.

(** From a reply to [mid] on, until [limit] other messages are completed,
    no Run is made for it and every reply to it is the same. *)
Definition orderly (l : list raft_event) : Prop :=
  forall l1 mid t c l2 e l3, l = l1 ++ Sent mid t c :: l2 ++ e :: l3 ->
    others mid l2 < limit -> consistent mid t c e.

Lemma orderly_snoc l e :
  orderly l ->
  (forall l1 mid t c l2, l = l1 ++ Sent mid t c :: l2 -> others mid l2 < limit -> consistent mid t c e) ->
  orderly (l ++ [e]).
Proof.
  intros Hl He l1 mid t c l2 e' l3 Heq Hlt. rewrite app_comm_cons, app_assoc in Heq.
  apply snoc_split in Heq as [(-> & -> & Heq)|(l3' & -> & Heq)].
  - by apply (He l1 mid t c l2).
  - apply (Hl l1 mid t c l2 e' l3'); [|done]. by rewrite Heq, <-app_assoc.
Qed.

(** The journal remembers that [mid] was completed: it is listed, and behind
    it only what was completed after it; unless [limit] others were. *)
Definition remembers (s : WorkerState) (mid : string) (l : list raft_event) : Prop :=
  limit <= others mid l \/
  exists pre post, st_completed_ids s = pre ++ mid :: post /\ Z.of_nat (length post) <= others mid l.

Lemma remembers_snoc s mid l e : remembers s mid l -> remembers s mid (l ++ [e]).
Proof.
  unfold remembers. rewrite others_snoc. intros [Hl|(pre & post & Hc & Hp)].
  - left. destruct (other_completion mid e); simpl; lia.
  - right. exists pre, post. split; [done|]. destruct (other_completion mid e); simpl; lia.
Qed.

Lemma remembers_listed s mid l : remembers s mid l -> others mid l < limit -> mid ∈ st_completed_ids s.
Proof.
  intros [Hl|(pre & post & -> & _)] Hlt; [lia|]. apply elem_of_app. right. by left.
Qed.

(** What the eviction of [mark_completed] leaves. *)
Lemma remembers_completed s mid m l :
  mid ∉ st_completed_ids s -> remembers s m l ->
  remembers (completed limit mid s) m (l ++ [Completed mid]).
Proof.
  intros Hmid Hr. destruct Hr as [Hl|(pre & post & Hc & Hp)].
  { left. rewrite others_snoc. destruct (other_completion m _); simpl; lia. }
  assert (mid <> m) as Hne by (intros ->; apply Hmid; rewrite Hc; apply elem_of_app; right; by left).
  unfold remembers, completed, is_completed. rewrite others_snoc. simpl.
  rewrite !bool_decide_eq_false_2 by done. rewrite Hc. simpl.
  set (k := Z.to_nat _).
  assert (Z.of_nat (length pre) + 2 + Z.of_nat (length post) - limit <= Z.of_nat k) as Hk.
  { unfold k. rewrite !length_app. simpl. lia. }
  assert (0 < Z.of_nat k -> Z.of_nat (length pre) + 2 + Z.of_nat (length post) - limit = Z.of_nat k) as Hk2.
  { unfold k. rewrite !length_app. simpl. lia. }
  destruct (decide (k <= length pre)%nat) as [Hle|Hgt]; [right|left; lia].
  exists (drop k pre), (post ++ [mid]). rewrite <-app_assoc, drop_app_le by done. split; [done|].
  rewrite length_app. simpl. lia.
Qed.

Lemma remembers_self s mid l :
  mid ∉ st_completed_ids s -> remembers (completed limit mid s) mid l.
Proof.
  intros Hmid. unfold remembers, completed, is_completed. simpl.
  rewrite bool_decide_eq_false_2 by done. pose proof (others_nonneg mid l) as Ho. set (k := Z.to_nat _).
  assert (k = Z.to_nat (Z.of_nat (length (st_completed_ids s)) + 1 - limit)) as Hk.
  { unfold k. f_equal. rewrite length_app. simpl. lia. }
  destruct (decide (k <= length (st_completed_ids s))%nat) as [Hle|Hgt]; [right|left; lia].
  exists (drop k (st_completed_ids s)), []. rewrite drop_app_le by done. split; [done|]. simpl. lia.
Qed.

Lemma completed_listed s mid x :
  x ∈ st_completed_ids (completed limit mid s) -> x ∈ st_completed_ids s \/ x = mid.
Proof.
  unfold completed. simpl. destruct (is_completed mid s); [by left|]. intros Hx.
  apply list_elem_of_lookup in Hx as [i Hx]. rewrite lookup_drop in Hx. apply list_elem_of_lookup_2 in Hx.
  apply elem_of_app in Hx as [Hx|Hx]; [by left|right]. by apply list_elem_of_singleton in Hx.
Qed.

(** What the journal knows of the replies that were sent, and of the
    messages that were completed. *)
Definition journaled (s : WorkerState) (l : list raft_event) : Prop :=
  forall l1 mid t c l2, l = l1 ++ Sent mid t c :: l2 ->
    remembers s mid l2 \/
    exists r, st_cached_replies s !! mid = Some r /\ cr_target r = t /\ cr_content r = c.

Definition recorded (s : WorkerState) (l : list raft_event) : Prop :=
  forall l1 mid l2, l = l1 ++ Completed mid :: l2 -> remembers s mid l2.

Lemma journaled_other s l e :
  (forall mid t c, e <> Sent mid t c) -> journaled s l -> journaled s (l ++ [e]).
Proof.
  intros He Hl l1 mid t c l2 Heq.
  apply snoc_split in Heq as [(_ & <- & _)|(l2' & -> & Heq)]; [by destruct (He mid t c)|].
  destruct (Hl _ _ _ _ _ Heq) as [Hr|Hr]; [left; by apply remembers_snoc|by right].
Qed.

Lemma recorded_other s l e :
  (forall mid, e <> Completed mid) -> recorded s l -> recorded s (l ++ [e]).
Proof.
  intros He Hl l1 mid l2 Heq.
  apply snoc_split in Heq as [(_ & <- & _)|(l2' & -> & Heq)]; [by destruct (He mid)|].
  apply remembers_snoc. by eapply Hl.
Qed.
End Order.

(** ** Steps of the worker *)
Section Journal.
Context `{RaftTexts} `{ReplyTexts} `{FloatRepr} {X : Type}.
Variable config : RaftWorkerConfig.
Variable root : string.
Variable skills : list string.
Variable out : Outside X.

(** From a time [since] on, when the journal listed [base]; the inbox that is
    spooled; and messages that were completed. *)
Variable base : list string.
Variable since : nat.
Variable spool : option string.
Variable done : list string.

Abbreviation limit := (rc_processed_message_limit config).
Abbreviation W := (RaftWorld X).
Abbreviation act := (action X).

Definition disk_state (w : W) : WorkerState := default WorkerState_default (rw_disk w).

(** [mid] was completed before [since], and still listed then, or after. *)
Definition settled (l : list raft_event) (mid : string) : Prop :=
  mid ∈ base \/ Completed mid ∈ drop since l.

Lemma settled_app l l' mid : (since <= length l)%nat -> settled l mid -> settled (l ++ l') mid.
Proof.
  intros Hl [Hb|Hs]; [by left|right]. rewrite drop_app_le by done. apply elem_of_app. by left.
Qed.

Record journal_ok (s : WorkerState) (l : list raft_event) : Prop := {
  jo_journaled : journaled limit s l;
  jo_recorded : recorded limit s l;
  jo_since : (since <= length l)%nat;
  jo_known : forall mid, mid ∈ st_completed_ids s -> settled l mid;
  jo_done : forall mid, mid ∈ done -> settled l mid;
}.

Lemma journal_ok_snoc s l e :
  journaled limit s (l ++ [e]) -> recorded limit s (l ++ [e]) -> journal_ok s l -> journal_ok s (l ++ [e]).
Proof.
  intros Hj Hr [_ _ J3 J4 J5]. split; try done; [rewrite length_app; simpl; lia|..];
    intros mid Hm; apply settled_app; auto.
Qed.

(** What every step, even one that raises, leaves. *)
Record durable (w : W) : Prop := {
  du_disk : journal_ok (disk_state w) (rw_log w);
  du_orderly : orderly limit (rw_log w);
  du_spool : rw_spool w = spool;
}.

(** The journal in memory is [s]; on disk, unless [dirty], as well. *)
Record at_state (s : WorkerState) (w : W) : Prop := {
  as_durable : durable w;
  as_state : rw_state w = s;
  as_ok : journal_ok s (rw_log w);
}.

Record synced (s : WorkerState) (w : W) : Prop := {
  sy_at : at_state s w;
  sy_disk : disk_state w = s;
}.

(** A step that returns with [Q] and raises with [E]. *)
Definition ends_in {A} (P : W -> Prop) (p : act A) (Q : A -> W -> Prop) (E : W -> Prop) : Prop :=
  forall w, P w -> match p w with (w', Ok a) => Q a w' | (w', Raise _) => E w' end.

Definition triple {A} (P : W -> Prop) (p : act A) (Q : A -> W -> Prop) : Prop := ends_in P p Q durable.

Lemma ends_in_chain {A B} P (p : act A) (k : A -> act B) Q R E :
  ends_in P p Q E -> (forall a, ends_in (Q a) (k a) R E) -> ends_in P (chain p k) R E.
Proof.
  intros Hp Hk w Hw. specialize (Hp w Hw). unfold chain. destruct (p w) as [w' [a|e]]; [|done].
  by apply (Hk a).
Qed.

Lemma journal_chain {A B} P (p : act A) (k : A -> act B) Q R :
  triple P p Q -> (forall a, triple (Q a) (k a) R) -> triple P (chain p k) R.
Proof. apply ends_in_chain. Qed.

Lemma journal_rescue {A} P (p : act A) h Q E :
  ends_in P p Q E -> (forall e q, h e = Some q -> triple E q Q) -> (forall w, E w -> durable w) ->
  triple P (rescue p h) Q.
Proof.
  intros Hp Hh HE w Hw. specialize (Hp w Hw). unfold rescue. destruct (p w) as [w' [a|e]]; [done|].
  destruct (h e) as [q|] eqn:Eh; [by apply (Hh e q Eh)|by apply HE].
Qed.

Lemma journal_post {A} P (p : act A) (Q Q' : A -> W -> Prop) :
  triple P p Q -> (forall a w, Q a w -> Q' a w) -> triple P p Q'.
Proof. intros Hp HQ w Hw. specialize (Hp w Hw). destruct (p w) as [w' [a|e]]; auto. Qed.

Lemma journal_pre {A} (P P' : W -> Prop) (p : act A) Q :
  (forall w, P w -> P' w) -> triple P' p Q -> triple P p Q.
Proof. intros HP Hp w Hw. by apply Hp, HP. Qed.

Lemma journal_give {A} (P : W -> Prop) (a : A) Q : (forall w, P w -> Q a w) -> triple P (give a) Q.
Proof. intros HP w Hw. by apply HP. Qed.

Lemma journal_fail {A} (P : W -> Prop) e (Q : A -> W -> Prop) : (forall w, P w -> durable w) -> triple P (fail e) Q.
Proof. intros HP w Hw. by apply HP. Qed.

Lemma journal_read s (P : W -> Prop) {A} (k : WorkerState -> act A) Q :
  (forall w, P w -> rw_state w = s) -> triple P (k s) Q -> triple P (chain read_state k) Q.
Proof.
  intros HP Hk w Hw. unfold chain, read_state. rewrite (HP w Hw). by apply Hk.
Qed.

(** Nothing outside touches the worker's files. *)
Lemma at_ext s w x :
  at_state s w -> at_state s (mk_RaftWorld (rw_state w) (rw_disk w) (rw_spool w) (rw_log w) x).
Proof. by intros [[] ? ?]; split; [split| |]. Qed.

Lemma durable_ext w x :
  durable w -> durable (mk_RaftWorld (rw_state w) (rw_disk w) (rw_spool w) (rw_log w) x).
Proof. by intros []; split. Qed.

Lemma ends_in_attempted {A} s (f : X -> X * outcome A) :
  ends_in (synced s) (attempted f) (fun _ => synced s) (synced s).
Proof.
  intros w [Ha Hd]. unfold attempted, chain, ask.
  destruct (f (rw_ext w)) as [x [a|e]]; simpl; (split; [by apply at_ext|done]).
Qed.

Lemma synced_durable s w : synced s w -> durable w.
Proof. intros [[]]. done. Qed.

Lemma synced_state s w : synced s w -> rw_state w = s.
Proof. by intros [[]]. Qed.

Lemma journal_attempted {A} s (f : X -> X * outcome A) : triple (synced s) (attempted f) (fun _ => synced s).
Proof.
  intros w Hw. pose proof (ends_in_attempted s f w Hw) as He.
  destruct (attempted f w) as [w' [a|e]]; [done|by eapply synced_durable].
Qed.

Lemma journal_save s : triple (at_state s) (save root out) (fun _ => synced s).
Proof.
  intros w Ha. unfold save, write_atomic, file_operation, chain, ask. destruct (out_io out (rw_ext w)) as [x []]; simpl.
  - destruct Ha as [[_ Ho Hs] Hst Hok]. subst s.
    split; [split|done]; simpl; [|done|done]. by split.
  - apply durable_ext, Ha.
Qed.

Lemma journal_put s f (P : W -> Prop) :
  (forall w, P w -> at_state s w) -> (forall w, P w -> journal_ok (f s) (rw_log w)) ->
  triple P (put_state f) (fun _ => at_state (f s)).
Proof.
  intros HP Hf w Hw. simpl. pose proof (HP w Hw) as [[] <- _]. pose proof (Hf w Hw). by split; [split| |].
Qed.

Lemma journal_update s f :
  (forall l, journal_ok s l -> journal_ok (f s) l) ->
  triple (synced s) (do^ put_state f in save root out) (fun _ => synced (f s)).
Proof.
  intros Hf. apply (journal_chain _ _ _ (fun _ => at_state (f s))); [|intros []; apply journal_save].
  eapply (journal_put s); intros w [Ha _]; [done|]. apply Hf, Ha.
Qed.

Lemma ends_in_note s e E :
  (forall mid, e <> Completed mid) ->
  (forall l, journal_ok s l ->
     (forall l1 mid t c l2, l = l1 ++ Sent mid t c :: l2 -> others mid l2 < limit -> consistent mid t c e) /\
     journaled limit s (l ++ [e])) ->
  ends_in (synced s) (note e) (fun _ => synced s) E.
Proof.
  intros Hne He w [[[Hd Ho Hs] Hst Hok] Hds]. simpl. destruct (He _ Hok) as [Hc Hj].
  assert (journal_ok s (rw_log w ++ [e])) as Hok'.
  { apply journal_ok_snoc; [done| |done]. apply recorded_other; [done|apply Hok]. }
  split; [split; [split| |]|]; unfold disk_state in *; simpl in *; try done; [by rewrite Hds|by apply orderly_snoc].
Qed.

(** Parts of the journal a step leaves alone. *)
Lemma journal_ok_same s s' l :
  st_completed_ids s' = st_completed_ids s -> st_cached_replies s' = st_cached_replies s ->
  journal_ok s l -> journal_ok s' l.
Proof.
  intros Hc Hr [J1 J2 J3 J4 J5].
  split; unfold journaled, recorded, remembers in *; rewrite ?Hc, ?Hr; done.
Qed.

(** A message is completed in the journal, on disk, and in the log. *)
Lemma completed_ok mid s l :
  mid ∉ st_completed_ids s -> journal_ok s l ->
  journal_ok (completed limit mid s) (l ++ [Completed mid]) /\ settled (l ++ [Completed mid]) mid.
Proof.
  intros Hmid [J1 J2 J3 J4 J5].
  assert (settled (l ++ [Completed mid]) mid) as Hself.
  { right. rewrite drop_app_le by done. apply elem_of_app. right. by left. }
  split; [|done]. split.
  - intros l1 m t c l2 Heq.
    apply snoc_split in Heq as [(_ & Heq & _)|(l2' & -> & Heq)]; [done|].
    destruct (decide (m = mid)) as [->|Hne]; [left; by apply remembers_self|].
    destruct (J1 _ _ _ _ _ Heq) as [Hr|(r & Hr & Ht)]; [left; by apply remembers_completed|].
    right. exists r. split; [|done]. simpl. by rewrite lookup_delete_ne.
  - intros l1 m l2 Heq. apply snoc_split in Heq as [(-> & [= ->] & _)|(l2' & -> & Heq)].
    + by apply remembers_self.
    + apply remembers_completed; [done|]. by eapply J2.
  - rewrite length_app. simpl. lia.
  - intros x Hx. apply completed_listed in Hx as [Hx| ->]; [|done]. apply settled_app; auto.
  - intros x Hx. apply settled_app; auto.
Qed.

Definition in_settled (mid : string) (w : W) : Prop := exists s, synced s w /\ settled (rw_log w) mid.

Lemma journal_mark_completed mid s :
  mid ∉ st_completed_ids s ->
  triple (synced s) (mark_completed config root out mid) (fun _ => in_settled mid).
Proof.
  intros Hmid w Hs. unfold mark_completed, save, write_atomic, file_operation, chain, ask. simpl.
  destruct (out_io out (rw_ext w)) as [x []]; simpl.
  - destruct Hs as [[[_ Ho Hsp] Hst Hok] _]. destruct (completed_ok mid s _ Hmid Hok) as [Hok' Hset].
    exists (completed limit mid s). rewrite Hst. split; [|done].
    split; [split; [split|..]|]; simpl; try done. apply orderly_snoc; [done|]. done.
  - destruct Hs as [[[Hd Ho Hsp] Hst Hok] _]. by split.
Qed.

(** *** The phases of a message *)

Definition same_progress (s s' : WorkerState) : Prop :=
  st_completed_ids s' = st_completed_ids s /\ st_cached_replies s' = st_cached_replies s.

Definition progressed (s : WorkerState) (w : W) : Prop := exists s', synced s' w /\ same_progress s s'.

Lemma progressed_refl s w : synced s w -> progressed s w.
Proof. intros Hs. by exists s. Qed.

Lemma journal_same s f :
  same_progress s (f s) ->
  triple (synced s) (do^ put_state f in save root out) (fun _ => progressed s).
Proof.
  intros [Hc Hr]. eapply journal_post.
  - apply journal_update. intros l Hl. by apply (journal_ok_same s).
  - intros [] w Hw. exists (f s). by split.
Qed.

Definition quiet_event (e : raft_event) : bool :=
  match e with Claimed _ _ _ | Updated _ _ _ => true | _ => false end.

Lemma ends_in_quiet s e E : quiet_event e = true -> ends_in (synced s) (note e) (fun _ => synced s) E.
Proof.
  intros He. apply ends_in_note; [by intros mid ->|]. intros l Hl. split; [by destruct e|].
  apply journaled_other; [|apply Hl]. by intros mid t c ->.
Qed.

(** No reply was sent while none is cached. *)
Lemma ends_in_begun s mid e E :
  (exists rid, e = Ran mid rid \/ e = Resumed mid rid) ->
  mid ∉ st_completed_ids s -> st_cached_replies s !! mid = None ->
  ends_in (synced s) (note e) (fun _ => synced s) E.
Proof.
  intros [rid He] Hc Hr. apply ends_in_note; [intros m ->; by destruct He|]. intros l Hl. split.
  - intros l1 m t c l2 Heq Hlt. assert (m <> mid) as Hne.
    { intros ->. destruct (jo_journaled _ _ Hl _ _ _ _ _ Heq) as [Hm|(r & Hr' & _)]; [|congruence].
      by apply remembers_listed in Hm. }
    by destruct He as [-> | ->]; simpl; intros ->.
  - apply journaled_other; [|apply Hl]. intros m t c ->. by destruct He.
Qed.

Lemma journal_claim m n s :
  triple (synced s) (claim_if_needed config root out m n) (fun _ => progressed s).
Proof.
  unfold claim_if_needed. apply (journal_read s); [apply synced_state|].
  case_bool_decide; [apply journal_give; intros; by apply progressed_refl|].
  apply (journal_chain _ _ _ (fun _ => synced s)).
  - destruct (_ && _); [by apply journal_give|].
    apply (journal_chain _ _ _ (fun _ => synced s)); [by apply ends_in_quiet|intros []].
    apply (journal_rescue _ _ _ _ (synced s)).
    + apply (ends_in_chain _ _ _ (fun _ => synced s)); [apply ends_in_attempted|]. by intros _ w Hw.
    + intros e q Hq. destruct (isinstance e _); [|done]. injection Hq as <-. by apply journal_give.
    + apply synced_durable.
  - intros []; [|apply journal_give; intros; by apply progressed_refl]. cbn [negb].
    intros w Hw. pose proof (journal_same s (add_claimed (rm_message_id m)) (conj eq_refl eq_refl) w Hw) as Ht.
    unfold chain in *. destruct (put_state _ w) as [w1 [[]|e]]; [|done].
    by destruct (save root out w1) as [w2 [[]|e]].
Qed.

Section Message.
Variable m : RaftMessage.
Let mid := rm_message_id m.

(** The message is not completed; its reply is not, or is, cached. *)
Definition fresh (s : WorkerState) : Prop :=
  mid ∉ st_completed_ids s /\ st_cached_replies s !! mid = None.

Definition answered (r : CachedReply) (s : WorkerState) : Prop :=
  mid ∉ st_completed_ids s /\ st_cached_replies s !! mid = Some r.

Definition in_phase (phase : WorkerState -> Prop) (w : W) : Prop := exists s, synced s w /\ phase s.

Lemma journal_exists {A} (phase : WorkerState -> Prop) (p : act A) Q :
  (forall s, phase s -> triple (synced s) p Q) -> triple (in_phase phase) p Q.
Proof. intros Hp w (s & Hs & Hph). by apply (Hp s). Qed.

Lemma journal_resume key run s :
  fresh s -> triple (synced s) (resume_waiting_run root out m key run) (fun _ => in_phase fresh).
Proof.
  intros [Hc Hr]. apply (journal_rescue _ _ _ _ (synced s)).
  - apply (ends_in_chain _ _ _ (fun _ => synced s)); [intros w Hw; by destruct (UUID_of run)|intros rid].
    apply (ends_in_chain _ _ _ (fun _ => synced s)).
    { apply (ends_in_begun s mid); [eexists; by right|done|done]. }
    intros []. apply (ends_in_chain _ _ _ (fun _ => synced s)); [apply ends_in_attempted|].
    intros r w Hw. by exists s.
  - intros e q Hq. destruct (_ || _); [|done]. injection Hq as <-. intros w Hw.
    pose proof (journal_same s (set_conversation (delete key) (delete key)) (conj eq_refl eq_refl) w Hw) as Ht.
    unfold chain in *. destruct (put_state _ w) as [w1 [[]|e']]; [|done].
    destruct (save root out w1) as [w2 [[]|e']]; [|done]. destruct Ht as (s' & Hs' & Hc' & Hr').
    exists s'. split; [done|]. split; [by rewrite Hc'|by rewrite Hr'].
  - apply synced_durable.
Qed.

Lemma journal_execute key s :
  fresh s -> triple (synced s) (execute_message config root skills out m key) (fun _ => in_phase fresh).
Proof.
  intros Hf. unfold execute_message. apply (journal_read s); [apply synced_state|].
  apply (journal_chain _ _ _ (fun _ => in_phase fresh)).
  - destruct (st_waiting_runs s !! key); [by apply journal_resume|].
    apply journal_give. intros w Hw. by exists s.
  - intros [r|]; [by apply journal_give|]. apply journal_exists. intros s' Hf'.
    apply (journal_chain _ _ _ (fun _ => synced s')).
    { apply (ends_in_begun s' mid); [eexists; by left|apply Hf'|apply Hf']. }
    intros []. eapply journal_post; [apply journal_attempted|]. intros r w Hw. by exists s'.
Qed.

Lemma journal_cache r key open_task s :
  fresh s ->
  triple (synced s) (cache_reply config root out m r key open_task) (fun reply => in_phase (answered reply)).
Proof.
  intros [Hc Hr]. unfold cache_reply.
  assert (forall s', same_progress s s' ->
    triple (at_state s')
      (do^ put_state (add_cached mid (reply_of config m r open_task)) in
       do^ save root out in give (reply_of config m r open_task))
      (fun reply => in_phase (answered reply))) as Hrest.
  { intros s' [Hc' Hr'].
    apply (journal_chain _ _ _ (fun _ => at_state (add_cached mid (reply_of config m r open_task) s'))).
    - apply (journal_put s'); [done|]. intros w [_ _ [J1 J2 J3 J4 J5]]. split; try done.
      intros l1 x t c l2 Hs. destruct (J1 _ _ _ _ _ Hs) as [?|(r' & Hx & Hr'')]; [by left|].
      destruct (decide (x = mid)) as [->|Hne]; [rewrite Hr' in Hx; congruence|].
      right. exists r'. split; [|done]. simpl. by rewrite lookup_insert_ne.
    - intros []. eapply journal_chain; [apply journal_save|]. intros [].
      apply journal_give. intros w Hw. eexists. split; [exact Hw|]. split; simpl; [by rewrite Hc'|].
      apply lookup_insert_eq. }
  assert (forall f, same_progress s (f s) ->
    triple (synced s) (put_state f) (fun _ => at_state (f s))) as Hput.
  { intros f [P2 P3]. apply (journal_put s); intros w [Ha _]; [done|]. apply (journal_ok_same s); try done. apply Ha. }
  destruct (bool_decide _).
  - destruct (dget _ _) as [j|].
    + eapply journal_chain; [apply Hput; done|]. intros []. by apply Hrest.
    + eapply (journal_chain _ _ _ (fun _ _ => False)); [|by intros ? ? []].
      apply journal_fail. apply synced_durable.
  - eapply journal_chain; [apply Hput; done|]. intros []. by apply Hrest.
Qed.

Lemma journal_reply key s :
  mid ∉ st_completed_ids s ->
  triple (synced s) (reply_for config root skills out m key) (fun reply => in_phase (answered reply)).
Proof.
  intros Hc. unfold reply_for. apply (journal_read s); [apply synced_state|].
  destruct (st_cached_replies s !! rm_message_id m) as [r|] eqn:Er.
  - apply journal_give. intros w Hw. by exists s.
  - apply (journal_chain _ _ _ (fun _ => in_phase fresh)); [by apply journal_execute|]. intros r.
    apply journal_exists. intros s' Hf. apply (journal_read s'); [apply synced_state|]. by apply journal_cache.
Qed.

Lemma journal_deliver r s :
  answered r s -> triple (synced s) (deliver root out m r) (fun _ => in_phase (answered r)).
Proof.
  intros [Hc Hr]. unfold deliver. apply (journal_read s); [apply synced_state|].
  case_bool_decide; [apply journal_give; intros w Hw; by exists s|].
  apply (journal_chain _ _ _ (fun _ => synced s)).
  - apply ends_in_note; [done|]. intros l Hl. split.
    + intros l1 x t c l2 Hs Hlt <-.
      destruct (jo_journaled _ _ Hl _ _ _ _ _ Hs) as [Hm|(r' & Hr' & <- & <-)]; [by apply remembers_listed in Hm|].
      assert (r' = r) as -> by (unfold mid in Hr; congruence). done.
    + intros l1 x t c l2 Hs. apply snoc_split in Hs as [(_ & [= -> -> ->] & _)|(l2' & -> & Hs)].
      * right. by exists r.
      * destruct (jo_journaled _ _ Hl _ _ _ _ _ Hs); [left; by apply remembers_snoc|by right].
  - intros []. eapply journal_chain; [apply journal_attempted|]. intros [].
    eapply journal_post; [apply journal_same; done|]. intros [] w (s' & Hs' & P2 & P3).
    exists s'. split; [done|]. split; [by rewrite P2|by rewrite P3].
Qed.

Lemma journal_review key r s :
  answered r s -> triple (synced s) (review_task root out m key r) (fun _ => in_phase (answered r)).
Proof.
  intros Ha. assert (triple (synced s) (give tt) (fun _ => in_phase (answered r))) as Hgive.
  { apply journal_give. intros w Hw. by exists s. }
  unfold review_task. destruct (cr_move_task_to_review r), (cr_task_target r), (cr_task_number r); try exact Hgive.
  apply (journal_chain _ _ _ (fun _ => synced s)); [by apply ends_in_quiet|]. intros [].
  eapply journal_chain; [apply journal_attempted|]. intros [].
  eapply journal_post; [apply journal_same; done|]. intros [] w (s' & Hs' & P2 & P3).
  destruct Ha. exists s'. split; [done|]. split; [by rewrite P2|by rewrite P3].
Qed.

(** A message that is worked on without an exception is completed. *)
Lemma journal_process s :
  mid ∉ st_completed_ids s ->
  triple (synced s) (process_message config root skills out m) (fun _ => in_settled mid).
Proof.
  intros Hc. unfold process_message. apply (journal_read s); [apply synced_state|].
  assert (forall (b : bool) s, mid ∉ st_completed_ids s ->
    triple (synced s) (do^ mark_completed config root out (rm_message_id m) in give b)
      (fun _ => in_settled mid)) as Hmark.
  { intros b s0 Hs0. eapply journal_chain; [by apply journal_mark_completed|]. intros []. by apply journal_give. }
  destruct (negb (should_handle _ _ _ _)); [by apply Hmark|].
  apply (journal_chain _ _ _ (fun _ => progressed s)).
  { destruct (rm_task_number m); [apply journal_claim|]. apply journal_give. intros. by apply progressed_refl. }
  intros claimed w (s1 & Hs1 & P2 & P3). revert w Hs1.
  assert (mid ∉ st_completed_ids s1) as Hc1 by by rewrite P2.
  destruct (negb claimed); [by apply Hmark|].
  eapply journal_chain; [by apply journal_reply|]. intros r. apply journal_exists. intros s2 Ha2.
  eapply journal_chain; [by apply journal_deliver|]. intros []. apply journal_exists. intros s3 Ha3.
  eapply journal_chain; [by apply journal_review|]. intros []. apply journal_exists. intros s4 Ha4.
  apply Hmark, Ha4.
Qed.
End Message.
End Journal.

(** ** Drains, sessions and restarts *)
Section Drains.
Context `{RaftTexts} `{ReplyTexts} `{FloatRepr} {X : Type}.
Variable config : RaftWorkerConfig.
Variable root : string.
Variable skills : list string.
Variable out : Outside X.
Variable base : list string.
Variable since : nat.

Abbreviation W := (RaftWorld X).
Abbreviation limit := (rc_processed_message_limit config).
Abbreviation journal_ok := (journal_ok config base since).
Abbreviation durable := (durable config base since).
Abbreviation synced := (synced config base since).
Abbreviation settled := (settled base since).

Lemma journal_ok_weaken done done' s l :
  (forall x, x ∈ done' -> x ∈ done) -> journal_ok done s l -> journal_ok done' s l.
Proof. intros Hd [J1 J2 J3 J4 J5]. split; try done. intros x Hx. by apply J5, Hd. Qed.

Lemma durable_weaken spool done done' (w : W) :
  (forall x, x ∈ done' -> x ∈ done) -> durable spool done w -> durable spool done' w.
Proof. intros Hd [D1 D2 D3]. split; try done. by eapply journal_ok_weaken. Qed.

Lemma synced_weaken spool done done' s (w : W) :
  (forall x, x ∈ done' -> x ∈ done) -> synced spool done s w -> synced spool done' s w.
Proof.
  intros Hd [[Hdu Hst Hok] Hds]. split; [split|]; try done; [by eapply durable_weaken|by eapply journal_ok_weaken].
Qed.

(** What is completed may be added to what must stay so. *)
Lemma synced_extend spool done more s (w : W) :
  (forall x, x ∈ more -> settled (rw_log w) x) ->
  synced spool done s w -> synced spool (more ++ done) s w.
Proof.
  intros Hm [[[D1 D2 D3] Hst Hok] Hds].
  assert (journal_ok (more ++ done) s (rw_log w)) as Hok'.
  { destruct Hok as [J1 J2 J3 J4 J5]. split; try done. intros x [Hx|Hx]%elem_of_app; auto. }
  split; [split; [split|..]|]; try done. by rewrite Hds.
Qed.

Lemma synced_spool spool spool' done s (w : W) :
  synced spool done s w -> synced spool' done s (set_spool spool' w).
Proof. intros [[[D1 D2 D3] Hst Hok] Hds]. by split; [split; [split|..]|]. Qed.

Lemma synced_ext spool done s (w : W) (x : X) :
  synced spool done s w ->
  synced spool done s (mk_RaftWorld (rw_state w) (rw_disk w) (rw_spool w) (rw_log w) x).
Proof. intros [Ha Hd]. split; [by apply at_ext|done]. Qed.

Lemma journal_process_all spool ms : forall done handled skipped,
  triple config base since spool done (fun w => exists s, synced spool done s w)
    (process_all config root skills out ms handled skipped)
    (fun _ w => exists s, synced spool (map rm_message_id ms ++ done) s w).
Proof.
  induction ms as [|m ms IH]; intros done handled skipped; simpl; [by apply journal_give|].
  intros w (s & Hs).
  refine (journal_read config base since spool done s (synced spool done s) _ _ (synced_state config base since spool done s) _ w Hs).
  clear w Hs.
  assert (forall h k, triple config base since spool done
    (in_settled config base since spool done (rm_message_id m)) (process_all config root skills out ms h k)
      (fun _ w => exists s, synced spool (rm_message_id m :: map rm_message_id ms ++ done) s w)) as Hrest.
  { intros h k w (s' & Hw & Hin).
    pose proof (IH ([rm_message_id m] ++ done) h k w) as Hp.
    destruct (process_all _ _ _ _ ms h k w) as [w' [a|e]].
    - destruct Hp as (s2 & Hs2).
      { exists s'. apply synced_extend; [|done]. by intros x ->%list_elem_of_singleton. }
      exists s2. eapply synced_weaken; [|exact Hs2]. intros x. rewrite !elem_of_cons, !elem_of_app, list_elem_of_singleton.
      tauto.
    - eapply durable_weaken; [|apply Hp].
      + intros x Hx. apply elem_of_app. by right.
      + exists s'. apply synced_extend; [|done]. by intros x ->%list_elem_of_singleton. }
  destruct (is_completed (rm_message_id m) s) eqn:Ec; unfold is_completed in Ec; reflect.
  { eapply journal_pre; [|apply Hrest]. intros w Hw. exists s. split; [done|].
    destruct Hw as [[_ _ Hok] _]. by apply (jo_known _ _ _ _ _ _ Hok). }
  eapply journal_chain; [by apply journal_process|]. intros b. destruct b; by apply Hrest.
Qed.

(** A drain that returns has emptied the spool and completed its messages;
    one that raises has at most filled it. *)
Lemma raft_run_once_spec done s (w : W) :
  synced (rw_spool w) done s w ->
  match raft_run_once config root skills out w with
  | (w', Ok _) =>
      rw_spool w' = None /\ exists s', synced None done s' w' /\
        forall raw ms m, rw_spool w = Some raw -> parse_raft_messages raw = Ok ms -> m ∈ ms ->
          settled (rw_log w') (rm_message_id m)
  | (w', Raise _) =>
      durable (rw_spool w') done w' /\ (forall raw, rw_spool w = Some raw -> rw_spool w' = Some raw)
  end.
Proof.
  intros Hs. pose proof (synced_durable _ _ _ _ _ _ _ Hs) as Hdur.
  assert (forall spool ms (w1 : W), synced spool done s w1 ->
    match drain_messages config root skills out ms w1 with
    | (w', Ok _) => rw_spool w' = None /\ exists s', synced None done s' w' /\
        forall m, m ∈ ms -> settled (rw_log w') (rm_message_id m)
    | (w', Raise _) => durable spool done w' /\ rw_spool w' = spool
    end) as Hwork.
  { intros spool ms w1 Hw1. unfold drain_messages, chain at 1.
    pose proof (journal_process_all spool ms done 0 0 w1 (ex_intro _ s Hw1)) as Hp.
    destruct (process_all _ _ _ _ ms 0 0 w1) as [w2 [[h k]|e]]; [|split; [done|apply (du_spool _ _ _ _ _ _ Hp)]].
    destruct Hp as (s2 & Hs2). unfold clear_spool, file_operation, ask, chain, give, fail.
    destruct (out_io out (rw_ext w2)) as [x []]; simpl.
    - split; [done|]. exists s2. split.
      + apply (synced_spool spool None), (synced_ext spool _ _ _ x). eapply synced_weaken; [|exact Hs2].
        intros y Hy. apply elem_of_app. by right.
      + intros m Hm. destruct Hs2 as [[_ _ Hok] _]. apply (jo_done _ _ _ _ _ _ Hok).
        apply elem_of_app. left. by apply list_elem_of_fmap_2.
    - apply synced_durable in Hs2. split; [|apply Hs2]. apply durable_ext. eapply durable_weaken; [|exact Hs2].
      intros y Hy. apply elem_of_app. by right. }
  unfold raft_run_once, next_batch, read_spool, write_spool, check_messages, attempted, write_atomic,
    file_operation, ask, chain, give, fail.
  destruct (out_io out (rw_ext w)) as [x []]; cbn [fst snd].
  2: { split; [by apply durable_ext|done]. }
  set (w1 := mk_RaftWorld _ _ _ _ x). assert (synced (rw_spool w) done s w1) as Hs1 by by apply synced_ext.
  assert (rw_spool w1 = rw_spool w) as Hsw by done.
  assert (durable (rw_spool w1) done w1) as Hd1 by by eapply synced_durable.
  clearbody w1. rewrite Hsw. destruct (rw_spool w) as [raw|] eqn:Esp.
  - destruct (parse_raft_messages raw) as [ms|e] eqn:Ep.
    2: { split; [done|]. by intros ? [= <-]. }
    specialize (Hwork _ ms w1 Hs1).
    destruct (drain_messages _ _ _ _ ms w1) as [w' [r|e]].
    + destruct Hwork as (Hn & s' & Hs' & Hall). split; [done|]. exists s'. split; [done|].
      intros raw' ms' m [= <-] Hp. rewrite Hp in Ep. injection Ep as ->. apply Hall.
    + destruct Hwork as [Hd Hsp]. by rewrite Hsp.
  - destruct (out_message_check out (rw_ext w1)) as [x2 [raw|e]] eqn:Ec; cbn [fst snd].
    2: { split; [by apply durable_ext|done]. }
    destruct (parse_raft_messages raw) as [ms|e] eqn:Ep; cbn [fst snd].
    2: { split; [by apply durable_ext|done]. }
    set (w2 := mk_RaftWorld _ _ _ _ x2). assert (synced None done s w2) as Hs2 by by apply synced_ext.
    destruct ms as [|m0 ms]; [split; [done|]; by exists s|].
    destruct (out_io out (rw_ext w2)) as [x3 []]; cbn [fst snd].
    2: { split; [by do 2 apply durable_ext|done]. }
    set (w3 := set_spool _ _).
    assert (synced (Some raw) done s w3) as Hs3 by by eapply synced_spool, synced_ext.
    specialize (Hwork _ (m0 :: ms) w3 Hs3).
    destruct (drain_messages _ _ _ _ (m0 :: ms) w3) as [w' [r|e]].
    + destruct Hwork as (Hn & s' & Hs' & Hall). split; [done|]. by exists s'.
    + destruct Hwork as [Hd Hsp]. by rewrite Hsp.
Qed.

(** *** Lives *)

Section Kept.
Variable raw : string.
Variable ms : list RaftMessage.
Hypothesis read : parse_raft_messages raw = Ok ms.

(** The inbox [raw] is still spooled, or its messages are completed. *)
Definition kept (holds : list string -> Prop) (w : W) : Prop :=
  holds [] /\ rw_spool w = Some raw \/ holds (map rm_message_id ms).

Definition kept_durable (w : W) : Prop := kept (fun done => durable (rw_spool w) done w) w.
Definition kept_synced (w : W) : Prop := exists s, kept (fun done => synced (rw_spool w) done s w) w.

Lemma kept_synced_durable w : kept_synced w -> kept_durable w.
Proof.
  intros (s & [[Hs Hr]|Hs]); [left|right].
  - split; [by eapply synced_durable|done].
  - by eapply synced_durable.
Qed.

Lemma kept_reload w : kept_durable w -> kept_synced (reload w).
Proof.
  intros Hw. exists (disk_state w).
  assert (forall done, durable (rw_spool w) done w ->
            synced (rw_spool (reload w)) done (disk_state w) (reload w)) as Hs.
  { intros done [D1 D2 D3]. split; [split|]; try done. }
  destruct Hw as [[Hd Hr]|Hd]; [left|right]; [split; [by apply Hs|done]|by apply Hs].
Qed.

Lemma kept_attempted {A} (f : X -> X * outcome A) :
  ends_in kept_synced (attempted f) (fun _ => kept_synced) kept_durable.
Proof.
  intros w Hw. assert (forall x, kept_synced (mk_RaftWorld (rw_state w) (rw_disk w) (rw_spool w) (rw_log w) x)) as Hx.
  { intros x. destruct Hw as (s & Hw). exists s.
    destruct Hw as [[Hs Hr]|Hs]; [left|right]; [split; [by apply synced_ext|done]|by apply synced_ext]. }
  unfold attempted, chain, ask. destruct (f (rw_ext w)) as [x [a|e]]; [by apply Hx|].
  by apply kept_synced_durable, Hx.
Qed.

Lemma kept_run_once :
  ends_in kept_synced (raft_run_once config root skills out) (fun _ => kept_synced) kept_durable.
Proof using read.
  intros w (s & Hw). destruct Hw as [[Hs Hr]|Hs];
    pose proof (raft_run_once_spec _ s w Hs) as Hspec;
    destruct (raft_run_once _ _ _ _ w) as [w' [r|e]].
  - destruct Hspec as (Hn & s' & Hs' & Hall). exists s'. right.
    rewrite Hn. rewrite <-(app_nil_r (map rm_message_id ms)). apply synced_extend; [|done].
    intros x (m & -> & Hm)%list_elem_of_fmap. by eapply Hall.
  - destruct Hspec as (Hd & Hsp). left. split; [done|by apply Hsp].
  - destruct Hspec as (Hn & s' & Hs' & _). exists s'. right. by rewrite Hn.
  - destruct Hspec as (Hd & _). by right.
Qed.

Lemma kept_life w n : kept_durable w -> kept_durable (life config root skills out w n).
Proof using read.
  intros Hw. assert (forall n, ends_in kept_synced (wake_loop config root skills out n)
    (fun _ => kept_synced) kept_durable) as Hloop.
  { intros k. induction k as [|k IH]; simpl; [intros w' Hw'; exact Hw'|].
    eapply ends_in_chain; [apply kept_attempted|]. intros []. eapply ends_in_chain; [apply kept_run_once|].
    intros r. exact IH. }
  assert (ends_in kept_synced (raft_run_forever config root skills out n) (fun _ => kept_synced) kept_durable) as Hrun.
  { eapply ends_in_chain; [apply kept_attempted|]. intros []. eapply ends_in_chain; [apply kept_run_once|].
    intros r. apply Hloop. }
  specialize (Hrun (reload w) (kept_reload w Hw)). unfold life.
  destruct (raft_run_forever _ _ _ _ n (reload w)) as [w' [r|e]]; [by apply kept_synced_durable|done].
Qed.

Lemma kept_lives ns : forall w, kept_durable w -> kept_durable (lives config root skills out ns w).
Proof using read.
  induction ns as [|n ns IH]; intros w Hw; [done|]. by apply IH, kept_life.
Qed.
End Kept.

(** A worker on a machine that has never run one. *)
Definition installed (x : X) : W := mk_RaftWorld WorkerState_default None None [] x.

End Drains.

Section Guarantees.
Context `{RaftTexts} `{ReplyTexts} `{FloatRepr} {X : Type}.
Variable config : RaftWorkerConfig.
Variable root : string.
Variable skills : list string.
Variable out : Outside X.

Abbreviation lives := (lives config root skills out).

Lemma lives_durable ns x :
  let w := lives ns (installed x) in durable config [] 0 (rw_spool w) [] w.
Proof.
  intros w. destruct (kept_lives config root skills out [] 0 "" [] eq_refl ns (installed x)) as [Hw|Hw].
  - right.
    assert (journal_ok config [] 0 [] WorkerState_default []) as Hok.
    { split; try (by intros ? ?%elem_of_nil); [intros l1 ? ? ? ? Heq|intros l1 ? ? Heq|simpl; lia]; by destruct l1. }
    split; try done. intros l1 mid t c l2 e l3 Heq. by destruct l1.
  - by destruct Hw.
  - done.
Qed.

(** Time starts anew. *)
Lemma durable_since (w : RaftWorld X) :
  durable config [] 0 (rw_spool w) [] w ->
  durable config (st_completed_ids (disk_state w)) (length (rw_log w)) (rw_spool w) [] w.
Proof.
  intros [[J1 J2 J3 J4 J5] D2 D3]. split; [|done|done]. split; try done.
  - intros mid Hm. by left.
  - by intros ? ?%elem_of_nil.
Qed.

(** C5: the journal keeps answered work from being done again.  However often
    the worker crashes or is restarted, whatever its transport, its Agent and
    its files do: from any reply to a message on, until
    [processed_message_limit] other messages were completed - only then may
    the journal evict it - no Run is started or resumed for the message, and
    every reply sent to it is the same. *)
Theorem raft_reply_final ns x l1 mid target content l2 e l3 :
  rw_log (lives ns (installed x)) = l1 ++ Sent mid target content :: l2 ++ e :: l3 ->
  others mid l2 < rc_processed_message_limit config ->
  (forall rid, e <> Ran mid rid /\ e <> Resumed mid rid) /\
  (forall target' content', e = Sent mid target' content' -> target' = target /\ content' = content).
Proof.
  intros Hlog Hlt. pose proof (du_orderly _ _ _ _ _ _ (lives_durable ns x)) as Ho.
  specialize (Ho _ _ _ _ _ _ _ Hlog Hlt). split.
  - intros rid. split; intros ->; by apply Ho.
  - intros t' c' ->. by apply Ho.
Qed.

(** C6: a spooled inbox is never lost.  From the moment an inbox is spooled,
    after any further crashes and restarts, it is still spooled, or each of
    its messages was completed since or was listed as completed then; the
    next drain that returns has removed the spool and left all of them so.
    And a completed message stays listed on disk at least until
    [processed_message_limit] others were completed. *)
Theorem raft_inbox_survives ns ns' x raw ms :
  let w := lives ns (installed x) in
  let w' := lives ns' w in
  let settled_in (u : RaftWorld X) mid := mid ∈ st_completed_ids (disk_state w) \/
    Completed mid ∈ drop (length (rw_log w)) (rw_log u) in
  rw_spool w = Some raw -> parse_raft_messages raw = Ok ms ->
  (rw_spool w' = Some raw \/ forall m, m ∈ ms -> settled_in w' (rm_message_id m)) /\
  (forall w2 r, raft_run_once config root skills out (reload w') = (w2, Ok r) ->
     rw_spool w2 = None /\ forall m, m ∈ ms -> settled_in w2 (rm_message_id m)) /\
  (forall l1 mid l2, rw_log w' = l1 ++ Completed mid :: l2 ->
     others mid l2 < rc_processed_message_limit config -> mid ∈ st_completed_ids (disk_state w')).
Proof.
  intros w w' settled_in Hraw Hms.
  pose proof (durable_since _ (lives_durable ns x)) as Hd. fold w in Hd.
  assert (kept_durable config (st_completed_ids (disk_state w)) (length (rw_log w)) raw ms w') as Hw'.
  { apply kept_lives; [done|]. by left. }
  assert (forall w0, kept_durable config (st_completed_ids (disk_state w)) (length (rw_log w)) raw ms w0 ->
    rw_spool w0 = Some raw \/ forall m, m ∈ ms -> settled_in w0 (rm_message_id m)) as Hor.
  { intros w0 [[_ Hr]|[[_ _ _ _ Hdone] _ _]]; [by left|right]. intros m Hm. apply Hdone.
    by apply list_elem_of_fmap_2. }
  split; [by apply Hor|]. split.
  - intros w2 r E. pose proof (kept_reload _ _ _ _ _ _ Hw') as Hks. pose proof Hks as (s & Hs).
    assert (exists done, synced config (st_completed_ids (disk_state w)) (length (rw_log w))
      (rw_spool (reload w')) done s (reload w')) as [done Hsync] by (destruct Hs as [[? _]|?]; by eexists).
    pose proof (raft_run_once_spec _ root skills out _ _ done s _ Hsync) as Hspec. rewrite E in Hspec.
    pose proof (kept_run_once _ root skills out _ _ raw ms Hms (reload w') Hks) as Hk2. rewrite E in Hk2.
    destruct Hspec as [Hn _]. split; [done|]. apply kept_synced_durable in Hk2.
    destruct (Hor _ Hk2); [congruence|done].
  - intros l1 mid l2 Hlog Hlt. apply (remembers_listed (rc_processed_message_limit config) _ _ l2); [|done].
    assert (exists done, durable config (st_completed_ids (disk_state w)) (length (rw_log w)) (rw_spool w') done w')
      as [done' Hd'] by (destruct Hw' as [[? _]|?]; by eexists).
    by apply (jo_recorded _ _ _ _ _ _ (du_disk _ _ _ _ _ _ Hd') l1).
Qed.
End Guarantees.

Lemma length_substring n s : (String.length (String.substring 0 n s) <= n)%nat.
Proof. revert s. induction n as [|n IH]; intros [|a s]; simpl; [lia..|]. specialize (IH s). lia. Qed.

(** A reply is as long as the configuration allows. *)
Lemma bounded_reply_length `{ReplyTexts} r limit :
  slen truncated_marker <= limit -> slen (bounded_reply r limit) <= limit.
Proof.
  intros Hm. unfold bounded_reply. cbv zeta. set (text := match ares_status r with R_COMPLETED => _ | _ => _ end).
  destruct (slen text <=? limit) eqn:E; [by apply Z.leb_le|]. unfold slen in *.
  rewrite length_string_app.
  pose proof (length_substring (Z.to_nat (Z.max 0 (limit - Z.of_nat (String.length truncated_marker)))) text). lia.
Qed.

(** ** Instances *)

#[local] Existing Instance plain_texts.
#[local] Instance raft_repr : FloatRepr := fun _ => "0.0".
#[local] Instance plain_replies : ReplyTexts :=
  { no_output_text := "Done."; need_more_text := "Please say more."; unfinished_text := "Not done (";
    unfinished_because := "): "; truncated_marker := " [cut]" }.

Definition example_raft_config : RaftWorkerConfig :=
  mk_RaftWorkerConfig "iris" 7%N "iris-agent" "raft" "base-agent" (30 # 1) 4194304 5000 8000 100.

Example example_raft_config_new : RaftWorkerConfig_new example_raft_config = Ok example_raft_config.
Proof. vm_compute. reflexivity. Qed.

Definition greeting_inbox : string := raw_messages [direct_message].

Definition answer (text : string) : AgentResult :=
  mk_AgentResult R_COMPLETED (Some text) [] (mk_TokenUsage 1 1 2) None [] [] [].

(** The first time a message is sent, the process dies; the Agent gives
    another answer each time it is asked. *)
Definition mortal : Outside nat :=
  mk_Outside (fun x => (x, Ok greeting_inbox))
    (fun _ _ x => (S x, match x with 1%nat => Raise (Exn (UserException "SIGKILL") "") | _ => Ok tt end))
    (fun _ _ x => (x, Ok tt)) (fun _ _ _ x => (x, Ok tt))
    (fun _ _ _ x => (S x, Ok (answer (zstr (Z.of_nat x))))) (fun _ _ x => (x, Ok (answer "resumed")))
    (fun x => (x, true)) (fun x => (x, Ok tt)) (fun x => (x, Ok tt)).

Definition mortal_lives (ns : list nat) : RaftWorld nat :=
  lives example_raft_config "state" [] mortal ns (installed 0%nat).

Lemma raft_reply_final_witness :
  exists rid, rw_log (mortal_lives [0; 0]%nat)
    = [Ran "ef56" rid; Sent "ef56" "dm:@iris-huang" "0"; Sent "ef56" "dm:@iris-huang" "0"; Completed "ef56"] /\
  rw_spool (mortal_lives [0; 0]%nat) = None /\
  forall rid', Sent "ef56" "dm:@iris-huang" "0" <> Ran "ef56" rid'.
Proof.
  eexists. split; [vm_compute; reflexivity|]. split; [vm_compute; reflexivity|]. intros rid'.
  refine (proj1 (proj1 (raft_reply_final example_raft_config "state" [] mortal [0; 0]%nat 0%nat [_] "ef56"
    "dm:@iris-huang" "0" [] _ [Completed "ef56"] _ _) rid')); vm_compute; reflexivity.
Defined.

Lemma raft_inbox_survives_witness :
  rw_spool (mortal_lives [0]%nat) = Some greeting_inbox /\
  (rw_spool (lives example_raft_config "state" [] mortal [0]%nat (mortal_lives [0]%nat)) = Some greeting_inbox \/
   forall m, m ∈ [direct_message] ->
     rm_message_id m ∈ st_completed_ids (disk_state (mortal_lives [0]%nat)) \/
     Completed (rm_message_id m) ∈ drop (length (rw_log (mortal_lives [0]%nat)))
       (rw_log (lives example_raft_config "state" [] mortal [0]%nat (mortal_lives [0]%nat)))).
Proof.
  assert (rw_spool (mortal_lives [0]%nat) = Some greeting_inbox) as Hs by (vm_compute; reflexivity).
  split; [exact Hs|].
  refine (proj1 (raft_inbox_survives example_raft_config "state" [] mortal [0]%nat [0]%nat 0%nat
    greeting_inbox [direct_message] Hs _)).
  vm_compute. reflexivity.
Defined.

(** The journal evicts: with room for one message, the completion of a
    second one makes it forget the first. *)
Example completed_evicts :
  st_completed_ids (completed 1 "b" (completed 1 "a" WorkerState_default)) = ["b"] /\
  st_completed_ids (completed 2 "b" (completed 2 "a" WorkerState_default)) = ["a"; "b"].
Proof. vm_compute. done. Qed.

(** An Agent whose store already holds the Run of a message - one that was
    interrupted before its reply was cached - refuses every retry: the inbox
    is never drained. *)
Definition remembering : Outside nat :=
  mk_Outside (out_message_check mortal) (out_send_message mortal) (out_claim_task mortal)
    (out_update_task mortal)
    (fun _ rid _ x => (x, Raise (Exn RunAlreadyExistsError (fstr ["run '"; uuid_str rid; "' already exists"]))))
    (out_resume mortal) (out_io mortal) (out_start_bridge mortal) (out_wake mortal).

Example known_run_blocks_inbox :
  let w := lives example_raft_config "state" [] remembering [5; 5; 5]%nat (installed 0%nat) in
  rw_spool w = Some greeting_inbox /\ st_completed_ids (disk_state w) = [] /\ length (rw_log w) = 3%nat.
Proof. vm_compute. done. Qed.
