(* ===== verification/RedisEvents.v ===== *)
(** * The Redis event store ([src/base_agent/stores/redis/store.py])

    [RedisEventStore] writes events to a durable store and uses Redis Pub/Sub
    only to wake subscribers.  What Redis answers at each [await] is an
    arbitrary [reply]; the durable store is the in-memory one.  The frame of
    the generator [subscribe] between two resumptions is a
    [RedisSubscription]. *)

From Stdlib Require Import QArith.
From stdpp Require Import base gmap strings list.
From S2P Require Import Prelude Json Models EventStore.

(** ** Configuration *)

Record RedisEventStore := mk_RedisEventStore {
  res_channel_prefix : string;
  res_poll_interval : seconds;
  res_owns_client : bool;
}.

(** [__init__]. *)
Definition RedisEventStore_new (prefix : string) (poll_interval : seconds) : outcome RedisEventStore :=
  raise_when is_empty prefix || all_chars py_isspace prefix
    as value_error ["channel_prefix must not be blank"] in
  raise_when negb (all_chars (fun c => negb (py_isspace c)) prefix)
    as value_error ["channel_prefix must not contain whitespace"] in
  raise_when Qle_bool poll_interval 0
    as value_error ["poll_interval must be greater than zero"] in
  Ok (mk_RedisEventStore prefix poll_interval false).

(** [from_url]. *)
Definition RedisEventStore_from_url (prefix : string) (poll_interval : seconds) : outcome RedisEventStore :=
  let! store := RedisEventStore_new prefix poll_interval in
  Ok (mk_RedisEventStore (res_channel_prefix store) (res_poll_interval store) true).

(** [_channel]. *)
Definition channel (store : RedisEventStore) (rid : uuid) : string :=
  fstr [res_channel_prefix store; ":"; uuid_str rid].

(** ** What an [await] of Redis gives

    [Foreign] is any exception that is no [RedisError], a cancellation
    included. *)
Inductive reply :=
  | Replied
  | RedisFailed
  | Foreign (e : exn).

(** [_STREAM_BOUNDARIES] and [_PERMANENT_BOUNDARIES]. *)
Definition stream_boundaries : list EventType :=
  [EV_RUN_COMPLETED; EV_RUN_FAILED; EV_RUN_CANCELLED; EV_RUN_INTERRUPTED;
   EV_RUN_LIMIT_REACHED; EV_RUN_WAITING].
Definition permanent_boundaries : list EventType :=
  List.filter (fun t => negb (bool_decide (t = EV_RUN_WAITING))) stream_boundaries.

Definition boundary (e : RuntimeEvent) : bool := bool_decide (ev_type e ∈ stream_boundaries).
Definition permanent (e : RuntimeEvent) : bool := bool_decide (ev_type e ∈ permanent_boundaries).

(** [emit]: the event is stored before it is announced. *)
Definition redis_emit (amb : ambient) (rid : uuid) (ty : EventType) (data : option jdict) (r : reply)
  (st : event_log) : event_log * outcome RuntimeEvent :=
  match emit amb rid ty data st with
  | Raise e => (st, Raise e)
  | Ok (st', event) =>
      (st', match r with Foreign e => Raise e | _ => Ok event end)
  end.

(** ** [subscribe]

    The generator waits for the durable list (inside or outside the
    [async with]), for its consumer at a [yield] (with the rest of the batch,
    and whether the listed events have a permanent boundary), or for Redis. *)
Inductive leaving :=
  | ByReturn
  | ByRedisError
  | ByException (e : exn).

Inductive redis_frame :=
  | Listing (inside : bool)
  | Yielding (inside : bool) (event : RuntimeEvent) (rest : list RuntimeEvent) (over : bool)
  | Subscribing
  | Messaging
  | Closing (why : leaving)
  | Sleeping
  | Finished
  | Raised (e : exn).

Record RedisSubscription := mk_RedisSubscription {
  rs_frame : redis_frame;
  rs_next_sequence : Z;
  rs_unavailable : bool;
}.

Definition redis_subscribe (after_sequence : Z) : outcome RedisSubscription :=
  raise_when (after_sequence <? 0) as value_error ["after_sequence must be non-negative"] in
  Ok (mk_RedisSubscription (Listing false) (after_sequence + 1) false).

(** [return], inside or outside the [async with]. *)
Definition leave (inside : bool) : redis_frame := if inside then Closing ByReturn else Finished.

(** The rest of a batch, then the test for a permanent boundary. *)
Definition serve (inside : bool) (batch : list RuntimeEvent) (over : bool) : redis_frame * option RuntimeEvent :=
  match batch with
  | e :: rest => (Yielding inside e rest over, Some e)
  | [] => (if over then leave inside else if inside then Messaging else Subscribing, None)
  end.

(** The [except RedisError] clause. *)
Definition redis_lost (s : RedisSubscription) : RedisSubscription :=
  mk_RedisSubscription Sleeping (rs_next_sequence s) true.

(** The generator from one suspension to the next; [r] is what the awaited
    operation gives, [events] the durable log.  [asyncio.sleep] raises no
    [RedisError]. *)
Definition redis_step (r : reply) (events : list RuntimeEvent) (s : RedisSubscription)
  : RedisSubscription * option RuntimeEvent :=
  let next := rs_next_sequence s in
  let go f := mk_RedisSubscription f next (rs_unavailable s) in
  match rs_frame s with
  | Listing inside =>
      let '(f, y) := serve inside (List.filter (fun e => next <=? ev_sequence e) events)
                       (existsb permanent events) in
      (go f, y)
  | Yielding inside e rest over =>
      let '(f, y) := if boundary e then (leave inside, None) else serve inside rest over in
      (mk_RedisSubscription f (ev_sequence e + 1) (rs_unavailable s), y)
  | Subscribing =>
      match r with
      | Replied => (mk_RedisSubscription (Listing true) next false, None)
      | RedisFailed => (go (Closing ByRedisError), None)
      | Foreign e => (go (Closing (ByException e)), None)
      end
  | Messaging =>
      match r with
      | Replied => (go (Listing true), None)
      | RedisFailed => (go (Closing ByRedisError), None)
      | Foreign e => (go (Closing (ByException e)), None)
      end
  | Closing why =>
      match r, why with
      | Replied, ByReturn => (go Finished, None)
      | Replied, ByException e => (go (Raised e), None)
      | Replied, ByRedisError | RedisFailed, _ => (redis_lost s, None)
      | Foreign e, _ => (go (Raised e), None)
      end
  | Sleeping =>
      match r with
      | Foreign e => (go (Raised e), None)
      | _ => (go (Listing false), None)
      end
  | Finished | Raised _ => (s, None)
  end.

(** ** Producers and one subscriber *)

Inductive redis_action :=
  | Emit (amb : ambient) (rid : uuid) (ty : EventType) (data : option jdict) (r : reply)
  | Step (r : reply).

Record redis_world := mk_redis_world {
  red_log : event_log;
  red_sub : RedisSubscription;
  red_yielded : list RuntimeEvent;
}.

Definition redis_act (rid : uuid) (a : redis_action) (w : redis_world) : redis_world :=
  match a with
  | Emit amb rid' ty data r =>
      mk_redis_world (redis_emit amb rid' ty data r (red_log w)).1 (red_sub w) (red_yielded w)
  | Step r =>
      let '(s, y) := redis_step r (event_list rid (red_log w)) (red_sub w) in
      mk_redis_world (red_log w) s (red_yielded w ++ option_list y)
  end.

Definition redis_run (rid : uuid) (acts : list redis_action) (w : redis_world) : redis_world :=
  fold_left (fun w a => redis_act rid a w) acts w.

(** No [RedisError] meets a [return] on its way out of the [async with]. *)
Fixpoint closes_cleanly (rid : uuid) (acts : list redis_action) (w : redis_world) : bool :=
  match acts with
  | [] => true
  | a :: acts' =>
      match a, rs_frame (red_sub w) with
      | Step RedisFailed, Closing ByReturn => false
      | _, _ => true
      end && closes_cleanly rid acts' (redis_act rid a w)
  end.

(** The events a subscriber is to see: up to the first boundary. *)
Fixpoint until_boundary (l : list RuntimeEvent) : list RuntimeEvent :=
  match l with
  | [] => []
  | e :: l' => if boundary e then [e] else e :: until_boundary l'
  end.

(** ** What a subscriber sees *)

Lemma boundary_terminal e : boundary e = is_terminal_event e.
Proof. done. Qed.

Lemma listed_from rid events (n : nat) : log_numbered rid events ->
  List.filter (fun e => Z.of_nat n + 1 <=? ev_sequence e) events = drop n events.
Proof.
  intros Hl.
  assert (forall k l, l = drop k events ->
            List.filter (fun e => Z.of_nat n + 1 <=? ev_sequence e) l = drop (n - k) l) as Hd.
  { intros k l. revert k. induction l as [|e l IH]; intros k Hk; [by rewrite drop_nil|].
    assert (events !! k = Some e) as Hlk.
    { pose proof (lookup_drop events k 0) as Hx. rewrite <-Hk, Nat.add_0_r in Hx. done. }
    assert (l = drop (S k) events) as Hk'.
    { by rewrite <-Nat.add_1_r, <-drop_drop, <-Hk. }
    destruct (Hl _ _ Hlk) as [Hs _]. simpl. rewrite Hs, (IH (S k) Hk').
    destruct (_ <=? _) eqn:E; reflect.
    - replace (n - S k)%nat with 0%nat by lia. by replace (n - k)%nat with 0%nat by lia.
    - by replace (n - k)%nat with (S (n - S k)) by lia. }
  rewrite (Hd 0%nat) by done. by rewrite Nat.sub_0_r.
Qed.

(** What has been seen, when at most its last event is a boundary. *)
Lemma prefix_until ys zs l :
  Forall (fun e => boundary e = false) ys -> (length zs <= 1)%nat ->
  ys ++ zs `prefix_of` l -> ys ++ zs `prefix_of` until_boundary l.
Proof.
  intros Hys. revert l. induction Hys as [|e ys He Hys IH]; intros l Hz Hp; simpl in *.
  - destruct zs as [|z [|]]; simpl in *; [apply prefix_nil| |lia].
    destruct Hp as [k ->]. simpl. destruct (boundary z); by eexists.
  - destruct l as [|e' l]; [by apply prefix_nil_not in Hp|].
    pose proof (prefix_cons_inv_1 _ _ _ _ Hp) as <-. apply prefix_cons_inv_2 in Hp.
    simpl. rewrite He. by apply prefix_cons, IH.
Qed.

Section Subscriber.
Variables (rid : uuid) (after : nat).
(** Whether [closes_cleanly] is assumed of the run so far. *)
Variable clean : Prop.

Definition unbounded (l : list RuntimeEvent) : Prop := Forall (fun e => boundary e = false) l.

(** At most the last event seen is a boundary. *)
Definition bounded_last (l : list RuntimeEvent) : Prop :=
  exists ys zs, l = ys ++ zs /\ (length zs <= 1)%nat /\ unbounded ys.

Definition redis_frame_ok (log yielded : list RuntimeEvent) (s : RedisSubscription) : Prop :=
  let caught_up := rs_next_sequence s = Z.of_nat (after + length yielded) + 1 in
  match rs_frame s with
  | Yielding _ e rest over =>
      exists ys, yielded = ys ++ [e] /\ (clean -> unbounded ys) /\
        yielded ++ rest `prefix_of` drop after log /\
        (over = true -> exists p, p ∈ log /\ permanent p = true)
  | Closing ByReturn =>
      caught_up /\ (clean -> bounded_last yielded) /\
      exists p, p ∈ log /\ boundary p = true
  | Raised _ => caught_up /\ (clean -> bounded_last yielded)
  | Finished => (clean -> bounded_last yielded) /\ exists p, p ∈ log /\ boundary p = true
  | _ => caught_up /\ (clean -> unbounded yielded)
  end.

Record redis_ok (w : redis_world) : Prop := {
  ro_log : log_ok (red_log w);
  ro_seen : red_yielded w `prefix_of` drop after (events_of (red_log w) rid);
  ro_frame : redis_frame_ok (events_of (red_log w) rid) (red_yielded w) (red_sub w);
}.

Lemma unbounded_last l : unbounded l -> bounded_last l.
Proof. intros Hl. exists l, []. rewrite app_nil_r. simpl. split_and!; [done|lia|done]. Qed.

Lemma permanent_boundary p : permanent p = true -> boundary p = true.
Proof.
  unfold permanent, boundary. rewrite !bool_decide_eq_true. unfold permanent_boundaries.
  rewrite list_elem_of_In, List.filter_In, <-list_elem_of_In. tauto.
Qed.

Lemma existsb_elem {A} (f : A -> bool) l : existsb f l = true <-> exists x, x ∈ l /\ f x = true.
Proof. rewrite existsb_exists. by setoid_rewrite list_elem_of_In. Qed.

(** Serving a batch keeps the invariant. *)
Lemma serve_ok log' events yielded inside batch over u :
  log_ok log' -> events_of log' rid = events ->
  yielded ++ batch `prefix_of` drop after events -> (clean -> unbounded yielded) ->
  (over = true -> exists p, p ∈ events /\ permanent p = true) ->
  let '(f, y) := serve inside batch over in
  redis_ok (mk_redis_world log'
    (mk_RedisSubscription f (Z.of_nat (after + length yielded) + 1) u) (yielded ++ option_list y)).
Proof.
  intros Hlog <- Hp Hu Ho. destruct batch as [|e rest]; simpl.
  - rewrite app_nil_r in *. split; simpl; [done|done|]. unfold redis_frame_ok.
    destruct over; [|by destruct inside].
    destruct (Ho eq_refl) as (p & Hin & Hperm).
    assert (exists p, p ∈ events_of log' rid /\ boundary p = true) by (eauto using permanent_boundary).
    destruct inside; simpl; split_and!; auto using unbounded_last.
  - split; simpl; [done| |].
    + etrans; [|exact Hp]. exists rest. by rewrite <-app_assoc.
    + exists yielded. split_and!; [done|done| |done]. by rewrite <-app_assoc.
Qed.

Lemma yielded_sequence w ys e :
  redis_ok w -> red_yielded w = ys ++ [e] ->
  ev_sequence e = Z.of_nat (after + length (red_yielded w)) /\ e ∈ events_of (red_log w) rid.
Proof.
  intros [Hlog [r Hr] _] Hy.
  assert (events_of (red_log w) rid !! (after + length ys)%nat = Some e) as Hlk.
  { rewrite <-lookup_drop, Hr, Hy, <-app_assoc. simpl. by apply list_lookup_middle. }
  destruct (Hlog rid _ _ Hlk) as [-> _]. split; [|by eapply list_elem_of_lookup_2].
  rewrite Hy, length_app. simpl. lia.
Qed.

Lemma redis_step_ok r w :
  redis_ok w ->
  (clean -> match r, rs_frame (red_sub w) with RedisFailed, Closing ByReturn => False | _, _ => True end) ->
  redis_ok (redis_act rid (Step r) w).
Proof.
  intros Hw Hc. pose proof Hw as [Hlog Hs Hf]. destruct w as [log [f n u] seen]; simpl in *.
  unfold redis_frame_ok in Hf; simpl in Hf. unfold redis_step; simpl.
  destruct f as [inside|inside e rest over| | |why| | |x].
  - destruct Hf as [-> Hu].
    pose proof (serve_ok log _ seen inside
      (List.filter (fun e => Z.of_nat (after + length seen) + 1 <=? ev_sequence e) (event_list rid log))
      (existsb permanent (event_list rid log)) u Hlog eq_refl) as Hserve.
    destruct (serve _ _ _) as [f y]. apply Hserve; [|done|by rewrite existsb_elem].
    unfold event_list. rewrite (listed_from rid) by apply Hlog. rewrite <-drop_drop.
    destruct Hs as [k Hk]. rewrite Hk, drop_app_length. done.
  - destruct Hf as (ys & Hy & Hu & Hp & Ho).
    destruct (yielded_sequence _ ys e Hw Hy) as [Hseq Hin]. simpl in Hseq, Hin. rewrite Hseq.
    destruct (boundary e) eqn:Hb.
    + simpl. rewrite app_nil_r. split; simpl; [done|done|].
      assert (clean -> bounded_last seen) as Hl.
      { intros Hcl. exists ys, [e]. simpl. split_and!; [done|lia|auto]. }
      unfold redis_frame_ok. destruct inside; simpl; split_and!; eauto.
    + pose proof (serve_ok log _ seen inside rest over u Hlog eq_refl Hp) as Hserve.
      destruct (serve _ _ _) as [f y]. apply Hserve; [|done].
      intros Hcl. rewrite Hy. apply Forall_app. split; [by apply Hu|by constructor].
  - destruct Hf as [-> Hu]. destruct r; simpl; rewrite app_nil_r; split; simpl; try done;
      split; auto using unbounded_last.
  - destruct Hf as [-> Hu]. destruct r; simpl; rewrite app_nil_r; split; simpl; try done;
      split; auto using unbounded_last.
  - destruct r, why; simpl in *; rewrite app_nil_r; split; simpl; try done; unfold redis_frame_ok; simpl;
      intuition auto using unbounded_last.
  - destruct Hf as [-> Hu]. destruct r; simpl; rewrite app_nil_r; split; simpl; try done;
      split; auto using unbounded_last.
  - simpl. by rewrite app_nil_r.
  - simpl. by rewrite app_nil_r.
Qed.

Lemma redis_emit_ok amb rid' ty data r w :
  redis_ok w -> redis_ok (redis_act rid (Emit amb rid' ty data r) w).
Proof.
  intros [Hlog Hs Hf]. destruct w as [log [f n u] seen]; simpl in *. unfold redis_emit.
  destruct (emit amb rid' ty data log) as [[log' e]|] eqn:E; [|done]. simpl.
  destruct (emit_log_ok _ _ _ _ _ _ _ Hlog E) as [Hlog' Hpre]. specialize (Hpre rid).
  assert (forall P, (exists p, p ∈ events_of log rid /\ P p = true) ->
                    exists p, p ∈ events_of log' rid /\ P p = true) as Hin.
  { intros P (p & Hp & HP). exists p. split; [|done]. destruct Hpre as [k ->]. set_solver. }
  split; simpl; [done|by eapply prefix_drop_mono, Hs|].
  unfold redis_frame_ok in *; simpl in *. destruct f as [| | | |[]| | |]; try done.
  - destruct Hf as (ys & Hy & Hu & Hp & Ho). exists ys. split_and!; [done|done| |auto].
    by eapply prefix_drop_mono, Hp.
  - destruct Hf as (?&?&?); eauto.
  - destruct Hf as (?&?); eauto.
Qed.

Lemma redis_run_ok acts : forall w,
  redis_ok w -> (clean -> closes_cleanly rid acts w = true) -> redis_ok (redis_run rid acts w).
Proof.
  unfold redis_run. induction acts as [|a acts IH]; simpl; intros w Hw Hc; [done|].
  apply IH; [|intros Hcl; by apply Hc, andb_true_iff in Hcl as [_ ?]].
  destruct a as [| r]; [by apply redis_emit_ok|]. apply redis_step_ok; [done|].
  intros Hcl. apply Hc, andb_true_iff in Hcl as [Hcl _].
  destruct r; [done| |done]. destruct (rs_frame (red_sub w)); try done. by destruct why.
Qed.

Lemma redis_ok_start : redis_ok (mk_redis_world ∅ (mk_RedisSubscription (Listing false) (Z.of_nat after + 1) false) []).
Proof.
  split; simpl; [apply log_ok_empty|apply prefix_nil|].
  split; simpl; [lia|intros; constructor].
Qed.
End Subscriber.

(** ** A lost notification delays nothing for ever *)

Definition ended (w : redis_world) : Prop :=
  match rs_frame (red_sub w) with Finished | Raised _ => True | _ => False end.

Definition known (r : reply) : Prop := match r with Foreign _ => False | _ => True end.

Section Progress.
Variables (rid : uuid) (after : nat).

Abbreviation ordered := (redis_ok rid after False).

(** There is an event the subscriber has not seen. *)
Definition behind (w : redis_world) : Prop :=
  (after + length (red_yielded w) < length (events_of (red_log w) rid))%nat.

Definition polled (rs : list reply) (w : redis_world) : redis_world := redis_run rid (map Step rs) w.

(** In [k] steps, whatever Redis answers, the next event is seen or the
    subscription is over. *)
Definition moves_on (k : nat) (w : redis_world) : Prop := forall rs,
  length rs = k -> Forall known rs ->
  (length (red_yielded w) < length (red_yielded (polled rs w)))%nat \/ ended (polled rs w).

Lemma step_grows r w :
  (length (red_yielded w) <= length (red_yielded (redis_act rid (Step r) w)))%nat.
Proof. simpl. destruct (redis_step _ _ _). simpl. rewrite length_app. lia. Qed.

Lemma step_ended r w : ended w -> redis_act rid (Step r) w = w.
Proof.
  destruct w as [log [f n u] seen]. unfold ended. simpl.
  destruct f; try done; intros _; simpl; by rewrite app_nil_r.
Qed.

Lemma polled_grows rs : forall w, (length (red_yielded w) <= length (red_yielded (polled rs w)))%nat.
Proof.
  induction rs as [|r rs IH]; intros w; [done|]. etrans; [apply (step_grows r)|apply IH].
Qed.

Lemma polled_ended rs : forall w, ended w -> polled rs w = w.
Proof.
  induction rs as [|r rs IH]; intros w Hw; [done|].
  change (polled (r :: rs) w) with (polled rs (redis_act rid (Step r) w)).
  rewrite step_ended by done. by apply IH.
Qed.

(** One step, after which the event was seen, the subscription is over, or
    fewer steps suffice. *)
Lemma moves_on_step k w :
  (forall r, known r ->
     let w' := redis_act rid (Step r) w in
     (length (red_yielded w) < length (red_yielded w'))%nat \/ ended w' \/ moves_on k w') ->
  moves_on (S k) w.
Proof.
  intros Hw rs Hk Hrs. destruct rs as [|r rs]; [done|]. inversion Hrs; subst.
  change (polled (r :: rs) w) with (polled rs (redis_act rid (Step r) w)).
  destruct (Hw r) as [Hg|[He|Hm]]; [done| | |].
  - left. eapply Nat.lt_le_trans, polled_grows. done.
  - right. by rewrite polled_ended.
  - destruct (Hm rs) as [Hg|He]; [by injection Hk|done| |by right]. left.
    eapply Nat.le_lt_trans; [apply (step_grows r)|done].
Qed.

Lemma moves_on_more k w : moves_on k w -> moves_on (S k) w.
Proof.
  intros Hw rs Hk Hrs. rewrite <-(take_drop k rs) in *. apply Forall_app in Hrs as [Ht _].
  unfold polled. rewrite map_app. unfold redis_run. rewrite fold_left_app.
  change (fold_left _ (map Step (drop k rs)) _) with (polled (drop k rs) (polled (take k rs) w)).
  destruct (Hw (take k rs)) as [Hg|He]; [|done| |].
  - rewrite take_drop in Hk. rewrite length_take. lia.
  - left. eapply Nat.lt_le_trans, polled_grows. done.
  - right. by rewrite polled_ended.
Qed.

Lemma moves_on_listing inside w :
  ordered w -> behind w -> rs_frame (red_sub w) = Listing inside -> moves_on 1 w.
Proof.
  intros [Hlog Hs Hf] Hb Hfr. apply moves_on_step. intros r _. left.
  destruct w as [log [f n u] seen]; simpl in *; subst f. unfold redis_frame_ok in Hf; simpl in Hf.
  destruct Hf as [-> _]. unfold redis_step; simpl. unfold event_list. rewrite (listed_from rid) by apply Hlog.
  destruct (drop (after + length seen) _) as [|e rest] eqn:E; simpl; [|rewrite length_app; simpl; lia].
  apply (f_equal length) in E. rewrite length_drop in E. unfold behind in Hb. simpl in *. lia.
Qed.

Lemma ordered_step r w : ordered w -> ordered (redis_act rid (Step r) w).
Proof. intros Hw. by apply redis_step_ok. Qed.

Lemma behind_step r w :
  behind w ->
  (length (red_yielded w) < length (red_yielded (redis_act rid (Step r) w)))%nat \/
  behind (redis_act rid (Step r) w).
Proof.
  intros Hb. pose proof (step_grows r w) as Hg.
  destruct (decide (length (red_yielded (redis_act rid (Step r) w)) = length (red_yielded w))%nat) as [E|E];
    [right|left; lia].
  unfold behind. rewrite E. replace (red_log (redis_act rid (Step r) w)) with (red_log w); [done|].
  simpl. by destruct (redis_step _ _ _).
Qed.

(** From a frame whose every step leads to one that moves on in [k]. *)
Lemma moves_on_from k (frames : redis_frame -> Prop) w :
  ordered w -> behind w ->
  (forall w', ordered w' -> behind w' -> frames (rs_frame (red_sub w')) -> moves_on k w') ->
  (forall r, known r -> let w' := redis_act rid (Step r) w in
     (length (red_yielded w) < length (red_yielded w'))%nat \/ ended w' \/ frames (rs_frame (red_sub w'))) ->
  moves_on (S k) w.
Proof.
  intros Ho Hb Hk Hstep. apply moves_on_step. intros r Hr w'.
  destruct (Hstep r Hr) as [?|[?|Hf]]; [by left|by right; left|].
  destruct (behind_step r w Hb) as [?|Hb']; [by left|]. right; right.
  apply Hk; [by apply ordered_step|done|done].
Qed.

Definition near (k : nat) (f : redis_frame) : Prop :=
  match f with
  | Listing _ => True
  | Sleeping => (2 <= k)%nat
  | Closing _ => (3 <= k)%nat
  | Subscribing | Messaging => (4 <= k)%nat
  | Yielding _ _ _ _ => (5 <= k)%nat
  | Finished | Raised _ => False
  end.

Lemma near_moves_on k : forall w,
  ordered w -> behind w -> near (S k) (rs_frame (red_sub w)) -> moves_on (S k) w.
Proof.
  induction k as [|k IH]; intros w Ho Hb Hn.
  { destruct (rs_frame (red_sub w)) eqn:Hf; simpl in Hn; try lia; try done. by eapply moves_on_listing. }
  destruct (rs_frame (red_sub w)) eqn:Hf; try done.
  { apply moves_on_more, IH; [done|done|by rewrite Hf]. }
  all: apply (moves_on_from _ (near (S k))); [done|done|exact IH|]; intros r Hr; cbv zeta;
    destruct w as [log [f n u] seen]; simpl in Hf; subst f; simpl; unfold ended, redis_step; simpl in *.
  - destruct (boundary event); simpl; [right; destruct inside; simpl; [right; lia|by left]|].
    destruct rest as [|e rest]; simpl; [right|left; rewrite length_app; simpl; lia].
    destruct over, inside; simpl; (right; lia) || by left.
  - right; right. destruct r; simpl; [done|lia|done].
  - right; right. destruct r; simpl; [done|lia|done].
  - right. destruct r, why; simpl; try done; try (by left); right; lia.
  - right; right. by destruct r.
Qed.
End Progress.

(** C8: a Redis subscriber depends on the durable log alone.  However
    emissions, polls and Redis failures interleave, the log stays numbered
    without gaps (no Redis failure loses an event); the subscriber has
    received the events after its cursor, each once and in order, and nothing
    after a boundary event unless closing Redis failed during the return; it
    returns only when the log holds a boundary event; and while it is behind
    the log, five steps bring the next event or the end of the subscription,
    although every notification may be lost and every Redis call fail. *)
Theorem redis_subscription_delivers rid (after : nat) acts sub :
  redis_subscribe (Z.of_nat after) = Ok sub ->
  let w0 := mk_redis_world ∅ sub [] in
  let w := redis_run rid acts w0 in
  let log := events_of (red_log w) rid in
  log_numbered rid log /\
  red_yielded w `prefix_of` drop after log /\
  (closes_cleanly rid acts w0 = true -> red_yielded w `prefix_of` until_boundary (drop after log)) /\
  (rs_frame (red_sub w) = Finished -> exists e, e ∈ log /\ boundary e = true) /\
  (forall replies, length replies = 5%nat -> Forall known replies -> ~ ended w ->
     (after + length (red_yielded w) < length log)%nat ->
     let w' := redis_run rid (map Step replies) w in
     (length (red_yielded w) < length (red_yielded w'))%nat \/ ended w').
Proof.
  intros Hsub w0 w log. unfold redis_subscribe in Hsub.
  destruct (Z.of_nat after <? 0) eqn:E; [done|]. injection Hsub as <-.
  assert (forall clean : Prop, (clean -> closes_cleanly rid acts w0 = true) -> redis_ok rid after clean w)
    as Hok by (intros; apply redis_run_ok; [apply redis_ok_start|done]).
  pose proof (Hok False ltac:(done)) as Ho. pose proof Ho as [Hlog Hs Hf].
  split_and!; [apply Hlog|done| | |].
  - intros Hc. pose proof (Hok True ltac:(done)) as [_ _ Hf'].
    assert (bounded_last (red_yielded w)) as (ys & zs & Hy & Hz & Hu).
    { unfold redis_frame_ok in Hf'. destruct (rs_frame (red_sub w)) as [| | | |[]| | |];
        try (apply unbounded_last; by apply Hf'); try (by apply Hf').
      destruct Hf' as (ys & Hy & Hu & _). exists ys, [event]. simpl. split_and!; [done|lia|by apply Hu]. }
    rewrite Hy in *. by apply prefix_until.
  - intros Hfin. unfold redis_frame_ok in Hf. rewrite Hfin in Hf. apply Hf.
  - intros replies Hl Hk He Hb. apply (near_moves_on rid after 4); try done.
    unfold ended in He. destruct (rs_frame (red_sub w)); simpl; try done; lia.
Qed.

Definition redis_amb : ambient := Ambient 1 (fun _ => 1) (fun _ => 1%N).
Definition emitted (ty : EventType) (r : reply) : redis_action := Emit redis_amb 7%N ty None r.

(** Redis is down throughout: the subscriber polls the durable log. *)
Definition outage : list redis_action :=
  [emitted EV_RUN_CREATED RedisFailed; Step Replied; Step Replied; Step RedisFailed; Step RedisFailed;
   emitted EV_RUN_COMPLETED RedisFailed; Step Replied; Step Replied].

Definition subscription_start : redis_world :=
  mk_redis_world ∅ (mk_RedisSubscription (Listing false) 1 false) [].

Lemma redis_subscription_delivers_witness :
  map ev_type (red_yielded (redis_run 7%N outage subscription_start)) = [EV_RUN_CREATED; EV_RUN_COMPLETED] /\
  red_yielded (redis_run 7%N outage subscription_start)
    `prefix_of` until_boundary (drop 0 (events_of (red_log (redis_run 7%N outage subscription_start)) 7%N)).
Proof.
  destruct (redis_subscription_delivers 7%N 0 outage (mk_RedisSubscription (Listing false) 1 false) eq_refl)
    as (_ & _ & Hc & _ & _).
  split; [vm_compute; reflexivity|]. exact (Hc eq_refl).
Defined.

(** A [RedisError] while the pubsub of a subscription is closed replaces the
    [return] (or a cancellation) that was on its way out, and the
    [except RedisError] clause goes on: the subscriber receives events after
    the boundary it stopped at. *)
Example failed_close_passes_boundary :
  map ev_type (red_yielded (redis_run 7%N
    [Step Replied; Step Replied; emitted EV_RUN_WAITING Replied; Step Replied; Step Replied;
     Step RedisFailed; emitted EV_RUN_STARTED Replied; Step Replied; Step Replied] subscription_start))
  = [EV_RUN_WAITING; EV_RUN_STARTED].
Proof. vm_compute. reflexivity. Qed.

Example failed_close_loses_cancellation :
  rs_frame (red_sub (redis_run 7%N
    [Step Replied; Step Replied; Step Replied; Step (Foreign (Exn ExCancelledError "")); Step RedisFailed]
    subscription_start)) = Sleeping.
Proof. vm_compute. reflexivity. Qed.
