(* ===== verification/Providers.v ===== *)
(** * Model providers ([src/base_agent/providers/cli.py],
    [src/base_agent/providers/openai_chat.py])

    The two adapters of the [ModelProvider] protocol: a local command line
    (Codex or Claude) and an OpenAI-compatible client.  The process, the
    client and [json.loads] are parameters; everything between the request
    and the parsed response is defined here. *)

From Stdlib Require Import QArith Qround.
From stdpp Require Import base gmap strings list pretty.
From S2P Require Import Prelude Json Models Sha256 Serial Runtime ModelTool React.

(** [json.loads]: [None] is [JSONDecodeError]. *)
Class JsonText := json_parse : string -> option json.

Definition invalid_response (parts : list string) : exn := Exn InvalidProviderResponseError (fstr parts).

(** [x or y] of optional texts. *)
Definition text_or (x y : option string) : option string := if falsy x then y else x.

(** [ToolCall(...)] and [ModelResponse(...)]. *)
Definition ToolCall_new (id name : string) (arguments : jdict) : outcome ToolCall :=
  checked (ToolCall_fields (mk_ToolCall id name arguments)) (fun _ => Ok tt) (mk_ToolCall id name arguments).

Definition ModelResponse_new (r : ModelResponse) : outcome ModelResponse :=
  let! _ := ModelResponse_validate r in Ok r.

(** [json.dumps(v, ensure_ascii=False)] with the given separators. *)
Section Dumps.
Context `{FloatRepr}.
Variables (item_separator key_separator : string).

Fixpoint json_text (j : json) : string :=
  match j with
  | JNull => "null"
  | JBool b => if b then "true" else "false"
  | JInt z => zstr z
  | JFloat q => float_repr q
  | JStr s => json_quote s
  | JArr l => "[" +:+ String.concat item_separator (map json_text l) +:+ "]"
  | JObj d =>
      "{" +:+ String.concat item_separator
        ((fix go d := match d with
                      | [] => []
                      | (k, v) :: d' => (json_quote k +:+ key_separator +:+ json_text v) :: go d'
                      end) d) +:+ "}"
  end.
End Dumps.

(** ** The command-line adapters *)

Record CLIProcessOutput := mk_CLIProcessOutput {
  out_returncode : Z;
  out_stdout : string;
  out_stderr : string;
}.

(** [_RESPONSE_SCHEMA]. *)
Definition RESPONSE_SCHEMA : json :=
  JObj [("type", JStr "object"); ("additionalProperties", JBool false);
        ("properties", JObj [
           ("content", JObj [("type", JArr [JStr "string"; JStr "null"])]);
           ("tool_calls", JObj [
              ("type", JStr "array");
              ("items", JObj [
                 ("type", JStr "object"); ("additionalProperties", JBool false);
                 ("properties", JObj [("name", JObj [("type", JStr "string")]);
                                      ("arguments_json", JObj [("type", JStr "string")])]);
                 ("required", JArr [JStr "name"; JStr "arguments_json"])])])]);
        ("required", JArr [JStr "content"; JStr "tool_calls"])].

Inductive CLIAdapter := CodexAdapter | ClaudeAdapter.

Definition adapter_name (a : CLIAdapter) : string :=
  match a with CodexAdapter => "codex-cli" | ClaudeAdapter => "claude-cli" end.

(** [type(self).__name__] of the provider. *)
Definition provider_class (a : CLIAdapter) : string :=
  match a with CodexAdapter => "CodexCLIProvider" | ClaudeAdapter => "ClaudeCLIProvider" end.

Record CLIModelProvider := mk_CLIModelProvider {
  cli_adapter : CLIAdapter;
  cli_executable : string;
  cli_model : option string;
  cli_timeout_seconds : seconds;
  cli_max_output_bytes : Z;
  cli_environment : option (list (string * string));
}.

(** [CLIModelProvider.__init__]. *)
Definition CLIModelProvider_new (p : CLIModelProvider) : outcome CLIModelProvider :=
  raise_when blank (cli_executable p) as value_error ["CLI executable must not be blank"] in
  raise_when match cli_model p with Some m => blank m | None => false end
    as value_error ["CLI model must not be blank"] in
  raise_when Qle_bool (cli_timeout_seconds p) 0
    as value_error ["CLI timeout_seconds must be greater than zero"] in
  raise_when (cli_max_output_bytes p <? 1)
    as value_error ["CLI max_output_bytes must be greater than zero"] in
  Ok p.

Section Cli.
Context `{FloatRepr} `{JsonText}.

(** [_request_prompt]; [exclude_none] drops the absent fields of a message. *)
Definition Message_dump_present (m : Message) : json :=
  JObj ([("role", JStr (MessageRole_value (msg_role m)))]
        ++ option_list ((fun c => ("content", JStr c)) <$> msg_content m)
        ++ [("tool_calls", jlist ToolCall_dump (msg_tool_calls m))]
        ++ option_list ((fun i => ("tool_call_id", JStr i)) <$> msg_tool_call_id m)).

Definition request_prompt (q : ModelRequest) : string :=
  let envelope :=
    JObj [("messages", jlist Message_dump_present (mq_messages q));
          ("tools", jlist ToolDefinition_dump (mq_tools q));
          ("tool_choice", JStr (ToolChoice_value (mq_tool_choice q)))] in
  fstr ["Act only as a model backend for another Agent runtime. ";
        "Do not inspect the host filesystem, run commands, call network services, or use your ";
        "own built-in tools. Read the request JSON below and return one JSON object matching the ";
        "provided response schema. Put a final answer in `content`. When an application Tool is ";
        "needed, put it in `tool_calls` with its exact declared name and encode its argument ";
        "object as compact JSON in `arguments_json`; do not execute that Tool yourself. Respect ";
        "`tool_choice`: `none` forbids tool calls and `required` requires at least one.";
        newline; newline; "REQUEST_JSON:"; newline; json_text ", " ": " envelope].

(** [_CodexAdapter.command] and [_ClaudeAdapter.command]. *)
Definition model_option (model : option string) : list string :=
  match model with Some m => ["--model"; m] | None => [] end.

Definition codex_command (executable : string) (model : option string) (schema_path : string) : list string :=
  [executable; "exec"; "--json"; "--color"; "never"; "--sandbox"; "read-only"; "--ephemeral";
   "--ignore-user-config"; "--skip-git-repo-check"; "--config";
   "shell_environment_policy.inherit=none"; "--output-schema"; schema_path]
  ++ model_option model ++ ["-"].

Definition claude_command (executable : string) (model : option string) (schema : string) : list string :=
  [executable; "--print"; "--output-format"; "json"; "--no-session-persistence";
   "--disable-slash-commands"; "--tools"; ""; "--json-schema"; schema] ++ model_option model.

Definition cli_command (a : CLIAdapter) (executable : string) (model : option string)
  (schema_path schema : string) : list string :=
  match a with
  | CodexAdapter => codex_command executable model schema_path
  | ClaudeAdapter => claude_command executable model schema
  end.

(** [_non_negative_int], [_token_usage]. *)
Definition non_negative_int (v : option json) : Z :=
  match v with Some (JInt z) => if 0 <=? z then z else 0 | _ => 0 end.

Definition cli_token_usage (v : option json) : outcome TokenUsage :=
  match v with
  | Some (JObj d) =>
      TokenUsage_new (non_negative_int (dget "input_tokens" d)) (non_negative_int (dget "output_tokens" d)) 0
  | _ => Ok TokenUsage_zero
  end.

(** [_event_error]. *)
Definition nonempty_str (v : option json) : option string :=
  match v with Some (JStr s) => if is_empty s then None else Some s | _ => None end.

Definition event_error (event : jdict) (provider : string) : string :=
  let nested := match dget "error" event with
                | Some (JObj e) => nonempty_str (dget "message" e)
                | _ => None
                end in
  let reason := match nested with
                | Some m => Some m
                | None => match nonempty_str (dget "error" event) with
                          | Some m => Some m
                          | None => nonempty_str (dget "result" event)
                          end
                end in
  match reason with
  | Some m => fstr [provider; " failed: "; m]
  | None => fstr [provider; " reported an error"]
  end.

(** [_compact_mapping]. *)
Definition compact_keys (d : jdict) (keys : list string) : jdict :=
  omap (fun k => match dget k d with
                 | Some JNull | None => None
                 | Some v => Some (k, v)
                 end) keys.

(** [_json_object], [_json_lines]. *)
Definition json_object (value provider : string) : outcome jdict :=
  match json_parse value with
  | None => Raise (invalid_response [provider; " response is not valid JSON"])
  | Some (JObj d) => Ok d
  | Some _ => Raise (invalid_response [provider; " response must be a JSON object"])
  end.

Fixpoint json_lines_from (provider : string) (n : Z) (lines : list string) : outcome (list jdict) :=
  match lines with
  | [] => Ok []
  | line :: lines' =>
      if blank line then json_lines_from provider (n + 1) lines'
      else
        match json_parse line with
        | None => Raise (invalid_response [provider; " emitted invalid JSONL on line "; zstr n])
        | Some (JObj d) => let! ds := json_lines_from provider (n + 1) lines' in Ok (d :: ds)
        | Some _ => Raise (invalid_response [provider; " JSONL line "; zstr n; " is not an object"])
        end
  end.

Definition json_lines (stdout provider : string) : outcome (list jdict) :=
  let! events := json_lines_from provider 1 (splitlines stdout) in
  raise_when bool_decide (length events = 0%nat)
    as invalid_response [provider; " emitted no JSON events"] in
  Ok events.

(** [_CodexAdapter.parse]. *)
Record CodexState := mk_CodexState {
  cx_final_text : option string;
  cx_usage : TokenUsage;
  cx_metadata : jdict;
}.

(** [event.get("type") == t]. *)
Definition type_is (t : string) (event : jdict) : bool :=
  match dget "type" event with Some (JStr s) => bool_decide (s = t) | _ => false end.

(** The type of a value no set may hold. *)
Definition unhashable (v : option json) : option string :=
  match v with Some (JArr _) => Some "list" | Some (JObj _) => Some "dict" | _ => None end.

Definition agent_message (event : jdict) : option string :=
  match dget "item" event with
  | Some (JObj item) =>
      if type_is "agent_message" item
      then match dget "text" item with Some (JStr s) => Some s | _ => None end
      else None
  | _ => None
  end.

Definition codex_event (event : jdict) (st : CodexState) : outcome CodexState :=
  let metadata :=
    match dget "thread_id" event with
    | Some JNull | None => cx_metadata st
    | Some v => if type_is "thread.started" event then dset "thread_id" v (cx_metadata st) else cx_metadata st
    end in
  let final :=
    if type_is "item.completed" event
    then match agent_message event with Some s => Some s | None => cx_final_text st end
    else cx_final_text st in
  let! usage := if type_is "turn.completed" event then cli_token_usage (dget "usage" event)
                else Ok (cx_usage st) in
  raise_when negb (falsy (unhashable (dget "type" event)))
    as Exn ExTypeError (fstr ["unhashable type: '"; default "" (unhashable (dget "type" event)); "'"]) in
  raise_when type_is "turn.failed" event || type_is "error" event
    as Exn CLIProcessError (event_error event "codex-cli") in
  Ok (mk_CodexState final usage metadata).

Fixpoint codex_events (events : list jdict) (st : CodexState) : outcome CodexState :=
  match events with
  | [] => Ok st
  | e :: events' => let! st' := codex_event e st in codex_events events' st'
  end.

Definition codex_parse (stdout : string) : outcome (jdict * TokenUsage * jdict) :=
  let! events := json_lines stdout "codex-cli" in
  let! st := codex_events events (mk_CodexState None TokenUsage_zero []) in
  match cx_final_text st with
  | None => Raise (invalid_response ["codex-cli output contains no completed agent message"])
  | Some text => let! payload := json_object text "codex-cli" in Ok (payload, cx_usage st, cx_metadata st)
  end.

(** [_ClaudeAdapter.parse]. *)
Definition claude_parse (stdout : string) : outcome (jdict * TokenUsage * jdict) :=
  let! outer := json_object stdout "claude-cli" in
  raise_when match dget "is_error" outer with Some (JBool true) => true | _ => false end
             || match dget "subtype" outer with Some (JStr s) => bool_decide (s = "error") | _ => false end
    as Exn CLIProcessError (event_error outer "claude-cli") in
  let! payload :=
    match dget "structured_output" outer with
    | Some (JObj d) => Ok d
    | _ =>
        match dget "result" outer with
        | Some (JStr s) => json_object s "claude-cli"
        | _ => Raise (invalid_response ["claude-cli output has no structured_output or string result"])
        end
    end in
  let metadata := compact_keys outer
    ["session_id"; "subtype"; "duration_ms"; "duration_api_ms"; "num_turns"; "total_cost_usd"] in
  let! usage := cli_token_usage (dget "usage" outer) in
  Ok (payload, usage, metadata).

Definition cli_parse (a : CLIAdapter) : string -> outcome (jdict * TokenUsage * jdict) :=
  match a with CodexAdapter => codex_parse | ClaudeAdapter => claude_parse end.

(** The loop over the calls of [_model_response]. *)
Definition cli_call (declared : list string) (index : Z) (raw : json) : outcome ToolCall :=
  match raw with
  | JObj d =>
      match dget "name" d, dget "arguments_json" d with
      | Some (JStr name), Some (JStr text) =>
          match json_parse text with
          | None => Raise (invalid_response ["CLI tool call '"; name; "' contains invalid arguments_json"])
          | Some (JObj arguments) =>
              raise_when negb (bool_decide (name ∈ declared))
                as invalid_response ["CLI returned undeclared tool call '"; name; "'"] in
              ToolCall_new (fstr ["cli-call-"; zstr index]) name arguments
          | Some _ =>
              Raise (invalid_response ["CLI tool call '"; name;
                                       "' arguments_json must decode to an object"])
          end
      | _, _ => Raise (invalid_response ["CLI tool call requires string name and arguments_json"])
      end
  | _ => Raise (invalid_response ["CLI tool call must be an object"])
  end.

Fixpoint cli_calls (declared : list string) (index : Z) (raws : list json) : outcome (list ToolCall) :=
  match raws with
  | [] => Ok []
  | raw :: raws' =>
      let! call := cli_call declared index raw in
      let! calls := cli_calls declared (index + 1) raws' in
      Ok (call :: calls)
  end.

(** [_model_response]. *)
Definition cli_model_response (payload : jdict) (usage : TokenUsage) (metadata : jdict) (q : ModelRequest)
  : outcome ModelResponse :=
  let! content := match dget "content" payload with
                  | None | Some JNull => Ok None
                  | Some (JStr s) => Ok (Some s)
                  | _ => Raise (invalid_response ["CLI response content must be a string or null"])
                  end in
  match dget "tool_calls" payload with
  | Some (JArr raws) =>
      raise_when bool_decide (mq_tool_choice q = TC_NONE) && negb (bool_decide (length raws = 0%nat))
        as invalid_response ["CLI returned tool calls when tool_choice='none'"] in
      raise_when bool_decide (mq_tool_choice q = TC_REQUIRED) && bool_decide (length raws = 0%nat)
        as invalid_response ["CLI returned no tool calls when tool_choice='required'"] in
      let! calls := cli_calls (map td_name (mq_tools q)) 1 raws in
      ModelResponse_new (mk_ModelResponse content calls
        (Some (if no_calls calls then "stop" else "tool_calls")) usage metadata)
  | _ => Raise (invalid_response ["CLI response tool_calls must be an array"])
  end.

(** [complete]: [directory] is the temporary directory, [run] the runner. *)
Definition cli_complete (p : CLIModelProvider) (directory : string)
  (run : list string -> string -> string -> outcome CLIProcessOutput) (q : ModelRequest)
  : outcome ModelResponse :=
  let name := adapter_name (cli_adapter p) in
  raise_when negb (bool_decide (length (mq_attachments q) = 0%nat))
    as Exn UnsupportedAttachmentError
         (fstr [provider_class (cli_adapter p);
                " does not map attachments; process them through Tools"]) in
  raise_when negb (bool_decide (length (mq_memories q) = 0%nat))
    as Exn UnsupportedMemoryError
         (fstr [provider_class (cli_adapter p);
                " does not map memories; retrieve them through Tools"]) in
  let command := cli_command (cli_adapter p) (cli_executable p) (text_or (mq_model q) (cli_model p))
    (fstr [directory; "/response-schema.json"]) (json_text ", " ": " RESPONSE_SCHEMA) in
  let! process := run command (request_prompt q) directory in
  raise_when negb (out_returncode process =? 0)
    as Exn CLIProcessError
         (fstr [name; " exited with status "; zstr (out_returncode process); ": ";
                if is_empty (strip (out_stderr process))
                then if is_empty (strip (out_stdout process)) then "no CLI error output"
                     else strip (out_stdout process)
                else strip (out_stderr process)]) in
  let! '(payload, usage, metadata) := cli_parse (cli_adapter p) (out_stdout process) in
  cli_model_response payload usage metadata q.
End Cli.

(** [_read_bounded]: the chunks of a stream up to its end, an empty chunk. *)
Fixpoint read_bounded (limit : Z) (stream_name : string) (size : Z) (chunks : list string) : outcome string :=
  match chunks with
  | [] => Ok EmptyString
  | chunk :: chunks' =>
      if is_empty chunk then Ok EmptyString
      else
        raise_when (limit <? size + slen chunk)
          as Exn CLIOutputLimitError (fstr ["CLI "; stream_name; " exceeded "; zstr limit; " bytes"]) in
        let! rest := read_bounded limit stream_name (size + slen chunk) chunks' in
        Ok (chunk +:+ rest)
  end.

(** ** The OpenAI-compatible adapter

    The SDK's response objects by their attributes; an attribute that is
    missing or [None] is [None] here. *)

Record SDKFunction := mk_SDKFunction { sf_name : string; sf_arguments : option string }.
Record SDKToolCall := mk_SDKToolCall { sc_id : string; sc_function : option SDKFunction }.
Record SDKMessage := mk_SDKMessage {
  sm_content : option string;
  sm_refusal : option string;
  sm_tool_calls : option (list SDKToolCall);
}.
Record SDKChoice := mk_SDKChoice { sch_message : option SDKMessage; sch_finish_reason : option string }.
Record SDKUsage := mk_SDKUsage {
  su_prompt_tokens : option Z;
  su_completion_tokens : option Z;
  su_total_tokens : option Z;
}.
Record SDKCompletion := mk_SDKCompletion {
  sk_choices : option (list SDKChoice);
  sk_usage : option SDKUsage;
  sk_id : option string;
  sk_model : option string;
  sk_request_id : option string;
  sk_system_fingerprint : option string;
}.

Record OpenAIChatProvider := mk_OpenAIChatProvider {
  oai_name : string;
  oai_model : string;
  oai_temperature : option Q;
  oai_max_completion_tokens : option Z;
  oai_timeout : option seconds;
  oai_max_retries : option Z;
}.

(** [OpenAIChatProvider.__init__]. *)
Definition OpenAIChatProvider_new (p : OpenAIChatProvider) : outcome OpenAIChatProvider :=
  raise_when is_empty (oai_model p) as value_error ["OpenAIChatProvider model must not be empty"] in
  raise_when match oai_timeout p with Some t => Qle_bool t 0 | None => false end
    as value_error ["timeout must be greater than zero"] in
  raise_when match oai_max_retries p with Some n => n <? 0 | None => false end
    as value_error ["max_retries must be non-negative"] in
  raise_when match oai_max_completion_tokens p with Some n => n <=? 0 | None => false end
    as value_error ["max_completion_tokens must be greater than zero"] in
  Ok p.

Section OpenAI.
Context `{FloatRepr} `{JsonText}.

(** [_message_to_openai]. *)
Definition call_to_openai (c : ToolCall) : json :=
  JObj [("id", JStr (call_id c)); ("type", JStr "function");
        ("function", JObj [("name", JStr (call_name c));
                           ("arguments", JStr (json_text "," ":" (JObj (call_arguments c))))])].

Definition message_to_openai (m : Message) : json :=
  match msg_role m with
  | ASSISTANT =>
      JObj ([("role", JStr "assistant"); ("content", jopt JStr (msg_content m))]
            ++ if no_calls (msg_tool_calls m) then []
               else [("tool_calls", jlist call_to_openai (msg_tool_calls m))])
  | TOOL =>
      JObj [("role", JStr "tool"); ("content", jopt JStr (msg_content m));
            ("tool_call_id", jopt JStr (msg_tool_call_id m))]
  | r => JObj [("role", JStr (MessageRole_value r)); ("content", jopt JStr (msg_content m))]
  end.

(** [_tool_to_openai]. *)
Definition tool_to_openai (t : ToolDefinition) : json :=
  JObj [("type", JStr "function");
        ("function", JObj [("name", JStr (td_name t)); ("description", JStr (td_description t));
                           ("parameters", JObj (td_input_schema t))])].

(** [_tool_call_from_openai]. *)
Definition tool_call_from_openai (call : SDKToolCall) : outcome ToolCall :=
  match sc_function call with
  | None => Raise (invalid_response ["tool call has no function payload"])
  | Some f =>
      match json_parse (if falsy (sf_arguments f) then "{}" else default "" (sf_arguments f)) with
      | None =>
          Raise (invalid_response ["tool call '"; sc_id call; "' contains invalid JSON arguments"])
      | Some (JObj arguments) => ToolCall_new (sc_id call) (sf_name f) arguments
      | Some _ => Raise (invalid_response ["tool call arguments must decode to a JSON object"])
      end
  end.

(** [_usage_from_openai]. *)
Definition usage_from_openai (u : option SDKUsage) : outcome TokenUsage :=
  match u with
  | None => Ok TokenUsage_zero
  | Some u => TokenUsage_new (default 0 (su_prompt_tokens u)) (default 0 (su_completion_tokens u))
                (default 0 (su_total_tokens u))
  end.

(** [_compact_mapping]. *)
Definition compact_mapping (l : list (string * option string)) : jdict :=
  omap (fun kv => (fun v => (kv.1, JStr v)) <$> kv.2) l.

(** [_response_from_openai]. *)
Definition response_from_openai (completion : SDKCompletion) : outcome ModelResponse :=
  match sk_choices completion with
  | None | Some [] => Raise (invalid_response ["OpenAI-compatible response has no choices"])
  | Some (choice :: _) =>
      match sch_message choice with
      | None => Raise (invalid_response ["OpenAI-compatible response choice has no message"])
      | Some message =>
          let! calls := traverse tool_call_from_openai (default [] (sm_tool_calls message)) in
          let content := match sm_content message with Some c => Some c | None => sm_refusal message end in
          raise_when bool_decide (content = None) && no_calls calls
            as invalid_response ["OpenAI-compatible response message has neither content nor tool_calls"] in
          let metadata := compact_mapping
            [("id", sk_id completion); ("model", sk_model completion);
             ("request_id", sk_request_id completion);
             ("system_fingerprint", sk_system_fingerprint completion); ("refusal", sm_refusal message)] in
          let! usage := usage_from_openai (sk_usage completion) in
          ModelResponse_new (mk_ModelResponse content calls (sch_finish_reason choice) usage metadata)
      end
  end.

(** The parameters [complete] gives to the client. *)
Definition openai_parameters (p : OpenAIChatProvider) (q : ModelRequest) : jdict :=
  [("model", JStr (default "" (text_or (mq_model q) (Some (oai_model p)))));
   ("messages", jlist message_to_openai (mq_messages q))]
  ++ (if bool_decide (length (mq_tools q) = 0%nat)
      then if bool_decide (mq_tool_choice q = TC_NONE) then [("tool_choice", JStr "none")] else []
      else [("tools", jlist tool_to_openai (mq_tools q));
            ("tool_choice", JStr (ToolChoice_value (mq_tool_choice q)))])
  ++ option_list ((fun t => ("temperature", JFloat t)) <$> oai_temperature p)
  ++ option_list ((fun n => ("max_completion_tokens", JInt n)) <$> oai_max_completion_tokens p).

(** [complete]; [create] is the client's call. *)
Definition openai_complete (p : OpenAIChatProvider) (create : jdict -> outcome SDKCompletion) (q : ModelRequest)
  : outcome ModelResponse :=
  raise_when negb (bool_decide (length (mq_attachments q) = 0%nat))
    as Exn UnsupportedAttachmentError
         (fstr ["OpenAIChatProvider does not map attachments; use an attachment-capable ";
                "Provider or process them through Tools"]) in
  raise_when negb (bool_decide (length (mq_memories q) = 0%nat))
    as Exn UnsupportedMemoryError
         (fstr ["OpenAIChatProvider does not map retrieved memories; use a memory-capable ";
                "Provider or retrieve them through Tools"]) in
  let! completion := create (openai_parameters p q) in
  response_from_openai completion.
End OpenAI.

(** ** What an accepted response guarantees *)

Lemma ToolCall_new_Ok id name args c :
  ToolCall_new id name args = Ok c -> c = mk_ToolCall id name args /\ ToolCall_fields c = true.
Proof. intros (Hf & _ & ->)%checked_Ok. done. Qed.

Lemma ModelResponse_new_Ok r r' : ModelResponse_new r = Ok r' -> r' = r /\ ModelResponse_validate r = Ok tt.
Proof. unfold ModelResponse_new. destruct (ModelResponse_validate r) as [[]|]; [|done]. by intros [= <-]. Qed.

(** A response the Runtime can append to its history as it is. *)
Definition appendable (r : ModelResponse) : Prop :=
  to_assistant_message r = Ok (mk_Message ASSISTANT (mr_content r) (mr_tool_calls r) None) /\
  TokenUsage_ok (mr_usage r).

Section CliFacts.
Context `{FloatRepr} `{JsonText}.

Lemma non_negative_int_ge v : 0 <= non_negative_int v.
Proof. destruct v as [[| |z| | | |]|]; simpl; try lia. case_match; reflect; lia. Qed.

Lemma TokenUsage_zero_ok : TokenUsage_ok TokenUsage_zero.
Proof. by repeat split. Qed.

Lemma cli_token_usage_ok v u : cli_token_usage v = Ok u -> TokenUsage_ok u.
Proof.
  destruct v as [[| | | | | |d]|]; simpl; try (by intros [= <-]; apply TokenUsage_zero_ok).
  apply TokenUsage_new_ok.
Qed.

Lemma codex_events_usage events : forall st st',
  TokenUsage_ok (cx_usage st) -> codex_events events st = Ok st' -> TokenUsage_ok (cx_usage st').
Proof.
  induction events as [|e events IH]; intros st st' Hst Hev; simpl in Hev; [by injection Hev as <-|].
  destruct (codex_event e st) as [st1|] eqn:E; [|done]. refine (IH st1 st' _ Hev).
  assert (exists u, (if type_is "turn.completed" e then cli_token_usage (dget "usage" e) else Ok (cx_usage st))
                    = Ok u /\ cx_usage st1 = u) as (u & Eu & ->).
  { unfold codex_event in E. destruct (if type_is "turn.completed" e then _ else _) as [u|]; [|done].
    exists u. split; [done|]. by raise_free E. }
  destruct (type_is _ _); [by eapply cli_token_usage_ok|by injection Eu as <-].
Qed.

Lemma cli_parse_usage a stdout payload usage metadata :
  cli_parse a stdout = Ok (payload, usage, metadata) -> TokenUsage_ok usage.
Proof.
  destruct a; simpl.
  - unfold codex_parse. destruct (json_lines _ _) as [events|]; [|done].
    destruct (codex_events _ _) as [st|] eqn:E; [|done].
    destruct (cx_final_text st) as [text|]; [|done].
    destruct (json_object text _) as [d|]; [|done]. intros [= <- <- <-].
    eapply codex_events_usage, E. apply TokenUsage_zero_ok.
  - unfold claude_parse. destruct (json_object stdout _) as [outer|]; [|done].
    case_match; [done|]. destruct (match dget "structured_output" outer with Some _ => _ | None => _ end);
      [|done].
    destruct (cli_token_usage _) as [u|] eqn:E; [|done]. intros [= <- <- <-]. by eapply cli_token_usage_ok.
Qed.

(** The identifiers of [n] calls from [index] on. *)
Definition cli_ids (index : Z) (n : nat) : list string :=
  map (fun i => fstr ["cli-call-"; zstr i]) (seqZ index (Z.of_nat n)).

Lemma cli_ids_NoDup index n : NoDup (cli_ids index n).
Proof.
  apply NoDup_fmap_2_strong; [|apply NoDup_seqZ]. intros i j _ _ Hij.
  unfold fstr in Hij. simpl in Hij. by simplify_eq.
Qed.

Lemma cli_calls_spec declared raws : forall index calls,
  cli_calls declared index raws = Ok calls ->
  map call_id calls = cli_ids index (length raws) /\
  Forall (fun c => call_name c ∈ declared /\ ToolCall_fields c = true) calls.
Proof.
  induction raws as [|raw raws IH]; intros index calls Hc; simpl in Hc; [by injection Hc as <-|].
  destruct (cli_call declared index raw) as [c|] eqn:E; [|done].
  destruct (cli_calls declared (index + 1) raws) as [cs|] eqn:Es; [|done]. injection Hc as <-.
  destruct (IH _ _ Es) as [Hids Hcs].
  assert (call_id c = fstr ["cli-call-"; zstr index] /\ call_name c ∈ declared /\ ToolCall_fields c = true)
    as (Hid & Hn & Hf).
  { unfold cli_call in E. repeat (case_match; try done). reflect.
    apply ToolCall_new_Ok in E as [-> ?]. done. }
  split; [|by constructor]. unfold cli_ids in *. cbn [map length].
  rewrite Hids, Hid, (seqZ_cons index) by lia. cbn [map].
  replace (Z.succ index) with (index + 1) by lia.
  by replace (Z.pred (Z.of_nat (S (length raws)))) with (Z.of_nat (length raws)) by lia.
Qed.

Lemma cli_model_response_spec payload usage metadata q r :
  cli_model_response payload usage metadata q = Ok r -> TokenUsage_ok usage ->
  appendable r /\
  map call_id (mr_tool_calls r) = cli_ids 1 (length (mr_tool_calls r)) /\
  Forall (fun c => call_name c ∈ map td_name (mq_tools q)) (mr_tool_calls r) /\
  (mq_tool_choice q = TC_NONE -> mr_tool_calls r = []) /\
  (mq_tool_choice q = TC_REQUIRED -> mr_tool_calls r <> []).
Proof.
  intros Hr Hu. unfold cli_model_response in Hr.
  destruct (match dget "content" payload with Some _ => _ | None => _ end) as [content|]; [|done].
  destruct (dget "tool_calls" payload) as [[| | | | |raws|]|]; try done.
  destruct (_ && negb _) eqn:E1 in Hr; [done|]. destruct (_ && _) eqn:E2 in Hr; [done|].
  destruct (cli_calls _ 1 raws) as [calls|] eqn:Ec; [|done].
  apply ModelResponse_new_Ok in Hr as [-> Hv]. simpl.
  destruct (cli_calls_spec _ _ _ _ Ec) as [Hids Hcs].
  assert (length raws = length calls) as Hl.
  { apply (f_equal length) in Hids. unfold cli_ids in Hids. rewrite !length_map, length_seqZ in Hids. lia. }
  assert (forallb ToolCall_fields calls = true) as Hf.
  { apply forallb_forall. intros c Hc%list_elem_of_In. rewrite Forall_forall in Hcs. by apply Hcs. }
  split_and!.
  - split; [by apply to_assistant_message_total|done].
  - by rewrite Hids, Hl.
  - eapply Forall_impl; [exact Hcs|]. by intros c [? _].
  - intros Hq. rewrite Hq in E1. simpl in E1. rewrite Hl in E1. by destruct calls.
  - intros Hq ->. rewrite Hq in E2. simpl in E2. by rewrite Hl in E2.
Qed.
End CliFacts.

(** C10: a local model answers within the request.  Whatever the command line
    prints, a response the CLI provider accepts can be appended to the
    history as it is: its calls name tools the request declared, under the
    distinct identifiers cli-call-1, cli-call-2, ..., there are none when the
    request forbids them and some when it requires them, and its token usage
    is consistent.  The request had neither attachments nor memories, and the
    process ended with status 0. *)
Theorem cli_response_within_request `{FloatRepr} `{JsonText} p directory run q r :
  cli_complete p directory run q = Ok r ->
  appendable r /\
  (forall c, c ∈ mr_tool_calls r -> call_name c ∈ map td_name (mq_tools q)) /\
  map call_id (mr_tool_calls r) = cli_ids 1 (length (mr_tool_calls r)) /\
  NoDup (map call_id (mr_tool_calls r)) /\
  (mq_tool_choice q = TC_NONE -> mr_tool_calls r = []) /\
  (mq_tool_choice q = TC_REQUIRED -> mr_tool_calls r <> []) /\
  mq_attachments q = [] /\ mq_memories q = [] /\
  exists command output, run command (request_prompt q) directory = Ok output /\ out_returncode output = 0.
Proof.
  intros Hr. unfold cli_complete in Hr.
  destruct (negb _) eqn:Ea in Hr; [done|]. destruct (negb _) eqn:Em in Hr; [done|].
  destruct (run _ _ _) as [output|] eqn:Erun; [|done].
  destruct (negb _) eqn:Ez in Hr; [done|].
  destruct (cli_parse _ _) as [[[payload usage] metadata]|] eqn:Ep; [|done].
  destruct (cli_model_response_spec _ _ _ _ _ Hr (cli_parse_usage _ _ _ _ _ Ep))
    as (Happ & Hids & Hn & Hnone & Hreq).
  reflect. split_and!; try done.
  - by apply Forall_forall.
  - rewrite Hids. apply cli_ids_NoDup.
  - by apply nil_length_inv.
  - by apply nil_length_inv.
  - by eexists _, output.
Qed.

(** ** Histories sent to an OpenAI-compatible service

    The message of a response as the service would send it back: the
    attributes the SDK reads from the JSON of a message. *)

Definition sdk_call_of (j : json) : option SDKToolCall :=
  match j with
  | JObj d =>
      match dget "id" d, dget "function" d with
      | Some (JStr id), Some (JObj f) =>
          match dget "name" f, dget "arguments" f with
          | Some (JStr name), Some (JStr arguments) =>
              Some (mk_SDKToolCall id (Some (mk_SDKFunction name (Some arguments))))
          | _, _ => None
          end
      | _, _ => None
      end
  | _ => None
  end.

Definition sdk_message_of (j : json) : option SDKMessage :=
  match j with
  | JObj d =>
      let content := match dget "content" d with Some (JStr s) => Some s | _ => None end in
      match dget "tool_calls" d with
      | None => Some (mk_SDKMessage content None None)
      | Some (JArr l) => (fun calls => mk_SDKMessage content None (Some calls)) <$> mapM sdk_call_of l
      | Some _ => None
      end
  | _ => None
  end.

Section OpenAIFacts.
Context `{FloatRepr} `{JsonText}.

(** [json.loads] reads back what [json.dumps] wrote of [arguments]. *)
Definition reads_back (arguments : jdict) : Prop :=
  json_parse (json_text "," ":" (JObj arguments)) = Some (JObj arguments).

Lemma tool_call_from_openai_Ok call c :
  tool_call_from_openai call = Ok c -> ToolCall_fields c = true.
Proof.
  unfold tool_call_from_openai. intros Hc. repeat (case_match; try done);
    by apply ToolCall_new_Ok in Hc as [-> ?].
Qed.

Lemma usage_from_openai_ok u u' : usage_from_openai u = Ok u' -> TokenUsage_ok u'.
Proof.
  destruct u as [u|]; simpl; [apply TokenUsage_new_ok|]. intros [= <-]. apply TokenUsage_zero_ok.
Qed.

Lemma json_text_obj_nonempty a b d : is_empty (json_text a b (JObj d)) = false.
Proof. done. Qed.

Lemma call_to_openai_reads c :
  ToolCall_fields c = true -> reads_back (call_arguments c) ->
  exists s, sdk_call_of (call_to_openai c) = Some s /\ tool_call_from_openai s = Ok c.
Proof.
  intros Hf Hr.
  exists (mk_SDKToolCall (call_id c) (Some (mk_SDKFunction (call_name c)
           (Some (json_text "," ":" (JObj (call_arguments c))))))).
  split; [done|]. unfold tool_call_from_openai. cbn [sc_function sf_arguments falsy default sc_id sf_name].
  rewrite json_text_obj_nonempty. cbn [from_option]. unfold id. rewrite Hr. unfold ToolCall_new, checked.
  destruct c as [i n a]. simpl in *. by rewrite Hf.
Qed.

Lemma calls_to_openai_read calls :
  Forall (fun c => ToolCall_fields c = true /\ reads_back (call_arguments c)) calls ->
  exists l, mapM sdk_call_of (map call_to_openai calls) = Some l /\
            traverse tool_call_from_openai l = Ok calls.
Proof.
  induction 1 as [|c calls [Hf Hr] _ (l & Hl & Ht)]; [by exists []|].
  destruct (call_to_openai_reads c Hf Hr) as (s & Hs & Hc). exists (s :: l). split.
  - change (mapM sdk_call_of (map call_to_openai (c :: calls)))
      with (s ← sdk_call_of (call_to_openai c); k ← mapM sdk_call_of (map call_to_openai calls); Some (s :: k)).
    by rewrite Hs; simpl; rewrite Hl.
  - simpl. by rewrite Hc, Ht.
Qed.

Lemma sdk_message_calls content l :
  sdk_message_of (JObj [("role", JStr "assistant"); ("content", jopt JStr content); ("tool_calls", JArr l)])
  = (fun calls => mk_SDKMessage content None (Some calls)) <$> mapM sdk_call_of l.
Proof. by destruct content. Qed.
End OpenAIFacts.

(** C11: what the OpenAI adapter receives it can send back.  A completion it
    accepts becomes a response the Runtime can append to the history as it is
    (calls with proper ids and names, or some content; consistent usage), and
    the message it then sends for that history entry, read again as the
    message of a completion, gives the same content and the same tool calls,
    whatever their arguments. *)
Theorem openai_history_roundtrip `{FloatRepr} `{JsonText} completion r :
  response_from_openai completion = Ok r ->
  (forall c, c ∈ mr_tool_calls r -> reads_back (call_arguments c)) ->
  appendable r /\
  exists m message again,
    to_assistant_message r = Ok m /\
    sdk_message_of (message_to_openai m) = Some message /\
    response_from_openai
      (mk_SDKCompletion (Some [mk_SDKChoice (Some message) None]) None None None None None) = Ok again /\
    mr_content again = mr_content r /\ mr_tool_calls again = mr_tool_calls r.
Proof.
  intros Hr Hback. unfold response_from_openai in Hr.
  destruct (sk_choices completion) as [[|choice ?]|]; try done.
  destruct (sch_message choice) as [message|]; [|done].
  destruct (traverse _ _) as [calls|] eqn:Et; [|done].
  set (content := match sm_content message with Some c => Some c | None => sm_refusal message end) in *.
  destruct (_ && _) eqn:En in Hr; [done|].
  destruct (usage_from_openai _) as [usage|] eqn:Eu; [|done].
  apply ModelResponse_new_Ok in Hr as [-> Hv]. simpl in Hback |- *.
  assert (Forall (fun c => ToolCall_fields c = true) calls) as Hf
    by (eapply traverse_Forall, Et; intros a b; apply tool_call_from_openai_Ok).
  assert (forallb ToolCall_fields calls = true) as Hfb.
  { apply forallb_forall. intros c Hc%list_elem_of_In. by rewrite Forall_forall in Hf; apply Hf. }
  pose proof (to_assistant_message_total _ Hv Hfb) as Hm. simpl in Hm.
  split; [split; [done|by eapply usage_from_openai_ok]|].
  destruct (calls_to_openai_read calls) as (back & Hl & Hb).
  { apply Forall_forall. intros c Hc. split; [by rewrite Forall_forall in Hf; apply Hf|by apply Hback]. }
  exists (mk_Message ASSISTANT content calls None).
  destruct (no_calls calls) eqn:Enc.
  - destruct calls; [|done]. exists (mk_SDKMessage content None None),
      (mk_ModelResponse content [] None TokenUsage_zero []).
    split_and!; [done| | |done|done].
    + unfold message_to_openai. simpl. by destruct content.
    + unfold response_from_openai. simpl. destruct content as [s|]; [done|].
      by rewrite andb_true_r, bool_decide_true in En by done.
  - exists (mk_SDKMessage content None (Some back)), (mk_ModelResponse content calls None TokenUsage_zero []).
    split_and!; [done| | |done|done].
    + unfold message_to_openai. cbn [msg_role msg_tool_calls msg_content]. rewrite Enc.
      unfold jlist. cbn [app]. by rewrite sdk_message_calls, Hl.
    + unfold response_from_openai. cbn [sk_choices sch_message sm_tool_calls default sk_usage].
      unfold from_option, id. rewrite Hb. cbn [sm_content sm_refusal]. rewrite Enc.
      replace (match content with Some c => Some c | None => None end) with content by (by destruct content).
      rewrite andb_false_r. cbn. unfold ModelResponse_new, ModelResponse_validate.
      cbn [mr_content mr_tool_calls]. by rewrite Enc, andb_false_r.
Qed.

(** *** Instances *)

#[local] Instance provider_repr : FloatRepr := fun _ => "0.0".

(** A reader of the compact texts of the given values. *)
Definition reader (samples : list json) : JsonText :=
  fun s => List.find (fun j => bool_decide (json_text "," ":" j = s)) samples.

Definition search_arguments : jdict := [("q", JStr "rocq")].
Definition search_payload : json :=
  JObj [("content", JNull);
        ("tool_calls", JArr [JObj [("name", JStr "search");
                                   ("arguments_json", JStr (json_text "," ":" (JObj search_arguments)))]])].

Definition codex_message (text : string) : json :=
  JObj [("type", JStr "item.completed");
        ("item", JObj [("type", JStr "agent_message"); ("text", JStr text)])].
Definition codex_turn : json :=
  JObj [("type", JStr "turn.completed");
        ("usage", JObj [("input_tokens", JInt 3); ("output_tokens", JInt 4)])].

Definition codex_reader : JsonText :=
  reader [JObj search_arguments; search_payload; codex_message (json_text "," ":" search_payload); codex_turn].

Definition codex_stdout : string :=
  String.concat newline [json_text "," ":" (codex_message (json_text "," ":" search_payload));
                         json_text "," ":" codex_turn].

Definition search_request : ModelRequest :=
  mk_ModelRequest [mk_Message USER (Some "find") [] None]
    [mk_ToolDefinition "search" "Search." [("type", JStr "object")]] TC_REQUIRED None [] [] [].

Definition example_cli : CLIModelProvider := mk_CLIModelProvider CodexAdapter "codex" None 300 4194304 None.

Definition search_response : ModelResponse :=
  mk_ModelResponse None [mk_ToolCall "cli-call-1" "search" search_arguments] (Some "tool_calls")
    (mk_TokenUsage 3 4 7) [].

Lemma cli_response_within_request_witness :
  CLIModelProvider_new example_cli = Ok example_cli /\
  NoDup (map call_id (mr_tool_calls search_response)) /\ mr_tool_calls search_response <> [].
Proof.
  split; [reflexivity|].
  destruct (cli_response_within_request (H0 := codex_reader) example_cli "/tmp/x"
    (fun _ _ _ => Ok (mk_CLIProcessOutput 0 codex_stdout "")) search_request search_response)
    as (_ & _ & _ & Hd & _ & Hq & _); [vm_compute; reflexivity|].
  split; [exact Hd|exact (Hq eq_refl)].
Defined.

Definition openai_completion : SDKCompletion :=
  mk_SDKCompletion
    (Some [mk_SDKChoice
       (Some (mk_SDKMessage (Some "searching") None
          (Some [mk_SDKToolCall "call_1"
                   (Some (mk_SDKFunction "search" (Some (json_text "," ":" (JObj search_arguments)))))])))
       (Some "tool_calls")])
    (Some (mk_SDKUsage (Some 5) (Some 2) (Some 7))) (Some "cmpl-1") (Some "gpt") None None.

Definition openai_response : ModelResponse :=
  mk_ModelResponse (Some "searching") [mk_ToolCall "call_1" "search" search_arguments] (Some "tool_calls")
    (mk_TokenUsage 5 2 7) [("id", JStr "cmpl-1"); ("model", JStr "gpt")].

Lemma openai_history_roundtrip_witness :
  response_from_openai (H0 := reader [JObj search_arguments]) openai_completion = Ok openai_response /\
  appendable openai_response.
Proof.
  assert (response_from_openai (H0 := reader [JObj search_arguments]) openai_completion = Ok openai_response)
    as Hr by (vm_compute; reflexivity).
  split; [exact Hr|].
  apply (openai_history_roundtrip (H0 := reader [JObj search_arguments]) openai_completion openai_response Hr).
  intros c Hc. apply list_elem_of_singleton in Hc as ->. vm_compute. reflexivity.
Defined.

(** [str.splitlines] cuts at characters that JSON strings may hold: an event
    whose text has a NEXT LINE is refused although every line the process
    wrote is JSON. *)
Definition next_line_message : json :=
  codex_message ("a" +:+ String (Ascii.ascii_of_N 133) "b").

Example next_line_refused :
  json_lines (H0 := reader [next_line_message]) (json_text "," ":" next_line_message) "codex-cli"
  = Raise (invalid_response ["codex-cli emitted invalid JSONL on line 1"]).
Proof. vm_compute. reflexivity. Qed.

(** A completion whose total counts more than prompt and completion tokens is
    refused as a whole. *)
Example other_total_refused :
  usage_from_openai (Some (mk_SDKUsage (Some 5) (Some 2) (Some 9)))
  = Raise (validation_error "total_tokens must equal input_tokens + output_tokens").
Proof. reflexivity. Qed.
