(* ===== verification/Calculator.v ===== *)
(** * The arithmetic tool ([src/base_agent/toolkits/utility.py])

    [calculate] evaluates the expression trees [ast.parse] gives.  Integers
    are exact; the floating-point operations are the record [FloatOps] of
    arbitrary functions, each with the results Python's may have. *)

From stdpp Require Import base strings list.
From S2P Require Import Prelude.

(** What an operation on floats gives: a float, a complex number, or one of
    the two exceptions of Python's float arithmetic. *)
Inductive float_result (F : Type) :=
  | IsFloat (f : F)
  | IsComplex
  | DividesByZero
  | Overflows.
Arguments IsFloat {F} f.
Arguments IsComplex {F}.
Arguments DividesByZero {F}.
Arguments Overflows {F}.

(** ** Syntax trees *)

Inductive ast_unaryop := UAdd | USub | Invert | Not.
Inductive ast_operator :=
  | Add | Sub | Mult | MatMult | Div | Mod | Pow | LShift | RShift | BitOr | BitXor | BitAnd | FloorDiv.

#[export] Instance ast_operator_eq_dec : EqDecision ast_operator.
Proof. solve_decision. Defined.

(** [float] and arithmetic on it. *)
Record FloatOps := mk_FloatOps {
  float_t : Type;
  float_of_int : Z -> option float_t;          (** [None] is [OverflowError]. *)
  float_arith : ast_operator -> float_t -> float_t -> float_result float_t;
  int_truediv : Z -> Z -> float_result float_t;  (** of a non-zero divisor *)
  float_neg : float_t -> float_t;
  float_abs_exceeds : float_t -> Z -> bool;    (** [abs(f) > n] *)
}.

Section Calculator.
Variable ops : FloatOps.

Inductive ast_constant :=
  | CInt (z : Z)
  | CFloat (f : float_t ops)
  | COther.

(** An [ast.expr]; [AstOther] is any other node. *)
Inductive ast_expr :=
  | AstConstant (value : ast_constant)
  | AstUnaryOp (op : ast_unaryop) (operand : ast_expr)
  | AstBinOp (lhs : ast_expr) (op : ast_operator) (rhs : ast_expr)
  | AstOther.

(** ** Numbers *)

Inductive number := NInt (z : Z) | NFloat (f : float_t ops).

(** What a Python operation gives before [_bounded] looks at it. *)
Inductive py_value := PyNumber (n : number) | PyComplex.

Definition _MAX_EXPRESSION_LENGTH : Z := 200.
Definition _MAX_ABSOLUTE_VALUE : Z := 10 ^ 100.
Definition _MAX_EXPONENT : Z := 100.

(** [abs(n) > bound]. *)
Definition abs_exceeds (n : number) (bound : Z) : bool :=
  match n with NInt z => bound <? Z.abs z | NFloat f => float_abs_exceeds ops f bound end.

(** [_bounded]. *)
Definition bounded (v : py_value) : outcome number :=
  match v with
  | PyComplex => Raise (value_error ["arithmetic result must be a real number"])
  | PyNumber n =>
      raise_when abs_exceeds n _MAX_ABSOLUTE_VALUE
        as value_error ["arithmetic result is too large"] in
      Ok n
  end.

(** ** The operators *)

Definition zero_division : exn := Exn ExZeroDivisionError "division by zero".
Definition overflow : exn := Exn ExOverflowError "arithmetic overflow".

Definition of_float (r : float_result (float_t ops)) : outcome py_value :=
  match r with
  | IsFloat f => Ok (PyNumber (NFloat f))
  | IsComplex => Ok PyComplex
  | DividesByZero => Raise zero_division
  | Overflows => Raise overflow
  end.

Definition to_float (n : number) : outcome (float_t ops) :=
  match n with
  | NFloat f => Ok f
  | NInt z => match float_of_int ops z with Some f => Ok f | None => Raise overflow end
  end.

Definition float_binary (op : ast_operator) (a b : number) : outcome py_value :=
  let! x := to_float a in
  let! y := to_float b in
  of_float (float_arith ops op x y).

(** [operator.add] ... [operator.pow] on two numbers. *)
Definition binary_operation (op : ast_operator) (a b : number) : outcome py_value :=
  match a, b with
  | NInt x, NInt y =>
      let int z := Ok (PyNumber (NInt z)) in
      match op with
      | Add => int (x + y)
      | Sub => int (x - y)
      | Mult => int (x * y)
      | Div => if y =? 0 then Raise zero_division else of_float (int_truediv ops x y)
      | FloorDiv => if y =? 0 then Raise zero_division else int (x / y)
      | Mod => if y =? 0 then Raise zero_division else int (x mod y)
      | Pow => if y <? 0 then float_binary Pow a b else int (x ^ y)
      | _ => float_binary op a b
      end
  | _, _ => float_binary op a b
  end.

(** [_BINARY_OPERATIONS] and [_UNARY_OPERATIONS]. *)
Definition supported_binary (op : ast_operator) : bool :=
  bool_decide (op ∈ [Add; Sub; Mult; Div; FloorDiv; Mod; Pow]).

Definition unary_operation (op : ast_unaryop) : option (number -> number) :=
  match op with
  | UAdd => Some id
  | USub => Some (fun n => match n with NInt z => NInt (- z) | NFloat f => NFloat (float_neg ops f) end)
  | _ => None
  end.

(** The [try] statement around an operation. *)
Definition contained (o : outcome py_value) : outcome number :=
  let r := let! v := o in bounded v in
  match r with
  | Ok n => Ok n
  | Raise e =>
      if isinstance e ExZeroDivisionError then Raise (value_error ["division by zero"])
      else if isinstance e ExOverflowError then Raise (value_error ["arithmetic result is too large"])
      else Raise e
  end.

(** The test of the exponent. *)
Definition exponent_too_large (op : ast_operator) (rhs : number) : bool :=
  bool_decide (op = Pow) && abs_exceeds rhs _MAX_EXPONENT.

(** [_evaluate]. *)
Fixpoint evaluate (node : ast_expr) : outcome number :=
  match node with
  | AstConstant (CInt z) => bounded (PyNumber (NInt z))
  | AstConstant (CFloat f) => bounded (PyNumber (NFloat f))
  | AstConstant COther => Raise (value_error ["only integer and floating-point constants are allowed"])
  | AstUnaryOp op operand =>
      match unary_operation op with
      | None => Raise (value_error ["unsupported unary operator"])
      | Some f => let! n := evaluate operand in bounded (PyNumber (f n))
      end
  | AstBinOp lhs op rhs =>
      raise_when negb (supported_binary op) as value_error ["unsupported binary operator"] in
      let! a := evaluate lhs in
      let! b := evaluate rhs in
      raise_when exponent_too_large op b
        as value_error ["exponent must be between -"; zstr _MAX_EXPONENT; " and "; zstr _MAX_EXPONENT] in
      contained (binary_operation op a b)
  | AstOther => Raise (value_error ["expression contains unsupported syntax"])
  end.

(** [calculate]; [parse] is [ast.parse], [None] a [SyntaxError]. *)
Definition calculate (parse : string -> option ast_expr) (expression : string) : outcome (string * number) :=
  raise_when blank expression as value_error ["expression must not be blank"] in
  raise_when (_MAX_EXPRESSION_LENGTH <? slen expression)
    as value_error ["expression exceeds "; zstr _MAX_EXPRESSION_LENGTH; " characters"] in
  match parse expression with
  | None => Raise (value_error ["invalid arithmetic expression"])
  | Some body => let! result := evaluate body in Ok (expression, result)
  end.

(** ** What an expression can make the tool do *)

(** The values its operations compute, before any of them is looked at. *)
Fixpoint computed (node : ast_expr) : list py_value :=
  match node with
  | AstBinOp lhs op rhs =>
      if negb (supported_binary op) then []
      else
        computed lhs ++
        match evaluate lhs with
        | Raise _ => []
        | Ok a =>
            computed rhs ++
            match evaluate rhs with
            | Raise _ => []
            | Ok b =>
                if exponent_too_large op b then []
                else match binary_operation op a b with Ok v => [v] | Raise _ => [] end
            end
        end
  | AstUnaryOp op operand =>
      match unary_operation op with
      | None => []
      | Some f =>
          computed operand ++
          match evaluate operand with Ok n => [PyNumber (f n)] | Raise _ => [] end
      end
  | _ => []
  end.

Definition within (bound : Z) (n : number) : Prop := abs_exceeds n bound = false.

(** Integers stay below [bound]. *)
Definition int_within (bound : Z) (v : py_value) : Prop :=
  match v with PyNumber (NInt z) => Z.abs z <= bound | _ => True end.

Lemma bounded_Ok v n : bounded v = Ok n -> within _MAX_ABSOLUTE_VALUE n.
Proof. destruct v as [m|]; simpl; [|done]. unfold within. destruct (abs_exceeds m _) eqn:E; [done|]. by intros [= <-]. Qed.

Lemma bounded_Raise v e : bounded v = Raise e -> exn_cls e = ExValueError.
Proof. destruct v as [m|]; simpl; [destruct (abs_exceeds _ _); [|done]|]; by intros [= <-]. Qed.

Lemma bounded_spec v :
  match bounded v with Ok n => within _MAX_ABSOLUTE_VALUE n | Raise e => exn_cls e = ExValueError end.
Proof. destruct (bounded v) eqn:E; eauto using bounded_Ok, bounded_Raise. Qed.

Lemma contained_Ok o n : contained o = Ok n -> within _MAX_ABSOLUTE_VALUE n.
Proof.
  unfold contained. destruct o as [v|e]; simpl; [|by repeat case_match].
  destruct (bounded v) as [m|e] eqn:E; [|by repeat case_match]. intros [= <-]. by eapply bounded_Ok.
Qed.

Lemma to_float_Raise n e : to_float n = Raise e -> e = overflow.
Proof. destruct n; simpl; [case_match|]; [done|by intros [= <-]|done]. Qed.

Lemma of_float_Raise r e : of_float r = Raise e -> e = zero_division \/ e = overflow.
Proof. destruct r; simpl; try done; intros [= <-]; auto. Qed.

Lemma binary_operation_Raise op a b e :
  binary_operation op a b = Raise e -> e = zero_division \/ e = overflow.
Proof.
  assert (forall op, float_binary op a b = Raise e -> e = zero_division \/ e = overflow) as Hf.
  { intros op'. unfold float_binary. destruct (to_float a) eqn:Ea; [|intros [= <-]; eauto using to_float_Raise].
    destruct (to_float b) eqn:Eb; [|intros [= <-]; eauto using to_float_Raise]. apply of_float_Raise. }
  unfold binary_operation. destruct a as [x|], b as [y|]; try apply Hf.
  destruct op; try apply Hf; try done; case_match; try done; try apply Hf; try apply of_float_Raise;
    intros [= <-]; auto.
Qed.

Lemma contained_Raise op a b e :
  contained (binary_operation op a b) = Raise e -> exn_cls e = ExValueError.
Proof.
  unfold contained. destruct (binary_operation op a b) as [v|e'] eqn:E.
  - destruct (bounded v) as [|e''] eqn:Eb; [done|]. apply bounded_Raise in Eb.
    destruct e'' as [c m]. simpl in Eb. subst c. by intros [= <-].
  - apply binary_operation_Raise in E as [->| ->]; by intros [= <-].
Qed.

Lemma evaluate_spec node :
  match evaluate node with
  | Ok n => within _MAX_ABSOLUTE_VALUE n
  | Raise e => exn_cls e = ExValueError
  end.
Proof.
  induction node as [[z|f|]|op operand IH|lhs IHl op rhs IHr|]; cbn [evaluate]; try done.
  - apply bounded_spec.
  - apply bounded_spec.
  - destruct (unary_operation op) as [f|]; [|done]. destruct (evaluate operand) as [n|]; [|done].
    apply bounded_spec.
  - destruct (supported_binary op); [|done]. simpl.
    destruct (evaluate lhs) as [a|]; [|done]. destruct (evaluate rhs) as [b|]; [|done].
    destruct (exponent_too_large op b); [done|].
    destruct (contained _) eqn:E; eauto using contained_Ok, contained_Raise.
Qed.

Lemma evaluate_Ok node n : evaluate node = Ok n -> within _MAX_ABSOLUTE_VALUE n.
Proof. intros E. pose proof (evaluate_spec node) as Hs. by rewrite E in Hs. Qed.

(** The largest integer an operation on numbers within the bound gives. *)
Definition largest : Z := _MAX_ABSOLUTE_VALUE ^ _MAX_EXPONENT.

Lemma pow_within bound x y : 1 <= bound -> Z.abs x <= bound -> 0 <= y -> Z.abs (x ^ y) <= bound ^ y.
Proof. intros Hb Hx Hy. rewrite Z.abs_pow. apply Z.pow_le_mono_l. lia. Qed.

Lemma float_binary_int op a b v bound : float_binary op a b = Ok v -> int_within bound v.
Proof.
  unfold float_binary. destruct (to_float a); [|done]. destruct (to_float b); [|done].
  unfold of_float. case_match; intros [= <-]; done.
Qed.

Lemma binary_operation_int op a b v :
  within _MAX_ABSOLUTE_VALUE a -> within _MAX_ABSOLUTE_VALUE b -> exponent_too_large op b = false ->
  binary_operation op a b = Ok v -> int_within largest v.
Proof.
  intros Ha Hb He. assert (1 < _MAX_ABSOLUTE_VALUE) as Hm by (vm_compute; reflexivity).
  assert (_MAX_ABSOLUTE_VALUE * _MAX_ABSOLUTE_VALUE <= largest) as Hsq.
  { rewrite <-Z.pow_2_r. apply Z.pow_le_mono_r; [lia|]. vm_compute. done. }
  unfold within, binary_operation in *.
  destruct a as [x|], b as [y|]; try apply float_binary_int. simpl in Ha, Hb. reflect.
  assert (forall z, Z.abs z <= _MAX_ABSOLUTE_VALUE * _MAX_ABSOLUTE_VALUE -> int_within largest (PyNumber (NInt z)))
    as Hz by (intros; simpl; lia).
  destruct op; try apply float_binary_int; try (case_match; [done|]); try (intros [= <-]; apply Hz; nia).
  - unfold of_float. case_match; intros [= <-]; done.
  - reflect. intros [= <-]. apply Hz. pose proof (Z.mod_bound_or x y) as Hmod. nia.
  - destruct (y <? 0) eqn:Hy; [apply float_binary_int|]. reflect. intros [= <-]. simpl.
    unfold exponent_too_large in He. simpl in He. reflect.
    etrans; [apply (pow_within _MAX_ABSOLUTE_VALUE); lia|]. apply Z.pow_le_mono_r; [lia|].
    unfold _MAX_EXPONENT in *. lia.
  - reflect. intros [= <-]. apply Hz. pose proof (Z.div_le_upper_bound (Z.abs x) (Z.abs y) (Z.abs x)) as Hd.
    assert (Z.abs (x / y) <= Z.abs x + 1); [|nia].
    pose proof (Z.div_mod x y) as Hdm. pose proof (Z.mod_bound_or x y) as Hmod. nia.
Qed.

Lemma computed_int node : Forall (int_within largest) (computed node).
Proof.
  induction node as [c|op operand IH|lhs IHl op rhs IHr|]; simpl; try constructor.
  - destruct (unary_operation op) as [f|] eqn:Ef; [|constructor]. apply Forall_app. split; [done|].
    destruct (evaluate operand) as [n|] eqn:E; [|constructor]. apply evaluate_Ok in E.
    apply Forall_singleton. assert (_MAX_ABSOLUTE_VALUE <= largest) as Hm.
    { rewrite <-(Z.pow_1_r _MAX_ABSOLUTE_VALUE) at 1. apply Z.pow_le_mono_r; vm_compute; done. }
    unfold within in E. destruct op; try done; injection Ef as <-; destruct n; simpl in *; try done; reflect; lia.
  - destruct (negb (supported_binary op)); [constructor|]. apply Forall_app. split; [done|].
    destruct (evaluate lhs) as [a|] eqn:Ea; [|constructor]. apply Forall_app. split; [done|].
    destruct (evaluate rhs) as [b|] eqn:Eb; [|constructor].
    destruct (exponent_too_large op b) eqn:Ee; [constructor|].
    destruct (binary_operation op a b) as [v|] eqn:E; [|constructor]. apply Forall_singleton.
    eapply binary_operation_int, E; eauto using evaluate_Ok.
Qed.

(** C18: the arithmetic tool is contained.  Whatever the expression, and
    whatever float arithmetic does, [calculate] gives back the expression
    with a real number whose absolute value does not exceed 10^100, or raises
    [ValueError] and nothing else; and no operation it performs on the way
    gives an integer above (10^100)^100, so that no expression of 200
    characters makes it compute for long. *)
Theorem calculate_contained parse expression :
  match calculate parse expression with
  | Ok (e, n) => e = expression /\ abs_exceeds n (10 ^ 100) = false
  | Raise e => exn_cls e = ExValueError
  end /\
  match parse expression with
  | Some body => Forall (int_within ((10 ^ 100) ^ 100)) (computed body)
  | None => True
  end.
Proof.
  split; [|case_match; [apply computed_int|done]]. unfold calculate.
  destruct (blank expression); [done|]. destruct (_ <? _); [done|].
  destruct (parse expression) as [body|]; [|done].
  pose proof (evaluate_spec body) as Hs. by destruct (evaluate body).
Qed.
End Calculator.

(** *** Instances *)

(** Floats that have no value. *)
Definition no_floats : FloatOps :=
  mk_FloatOps Empty_set (fun _ => None) (fun _ f => match f with end) (fun _ _ => Overflows)
    (fun f => f) (fun f => match f with end).

Definition int_constant (z : Z) : ast_expr no_floats := AstConstant _ (CInt _ z).

(** [2 ** 10 - 7 // 2 * -3]. *)
Example calculate_integers :
  calculate no_floats
    (fun _ => Some (AstBinOp _ (AstBinOp _ (int_constant 2) Pow (int_constant 10)) Sub
       (AstBinOp _ (AstBinOp _ (int_constant 7) FloorDiv (int_constant 2)) Mult
          (AstUnaryOp _ USub (int_constant 3))))) "2 ** 10 - 7 // 2 * -3"
  = Ok ("2 ** 10 - 7 // 2 * -3", NInt _ 1033).
Proof. vm_compute. reflexivity. Qed.

Example calculate_errors :
  map (fun body => calculate no_floats (fun _ => body) "x")
    [None; Some (AstOther _); Some (AstConstant _ (COther _));
     Some (AstBinOp _ (int_constant 1) Mod (int_constant 0));
     Some (AstBinOp _ (int_constant 2) Pow (int_constant 101));
     Some (AstBinOp _ (int_constant 2) LShift (int_constant 3));
     Some (AstBinOp _ (int_constant 10) Pow (int_constant 100));
     Some (AstBinOp _ (int_constant 11) Pow (int_constant 100))]
  = [Raise (value_error ["invalid arithmetic expression"]);
     Raise (value_error ["expression contains unsupported syntax"]);
     Raise (value_error ["only integer and floating-point constants are allowed"]);
     Raise (value_error ["division by zero"]);
     Raise (value_error ["exponent must be between -100 and 100"]);
     Raise (value_error ["unsupported binary operator"]);
     Ok ("x", NInt _ (10 ^ 100));
     Raise (value_error ["arithmetic result is too large"])].
Proof. vm_compute. reflexivity. Qed.
