(* ===== verification/MemoryStore.v ===== *)
(** * The in-memory memory store ([src/base_agent/memory/store.py])

    [InMemoryMemoryStore] ranks records by token overlap.  Scores are the
    rationals the divisions denote; for one query they share a denominator,
    so that floats order them alike. *)

From Stdlib Require Import QArith.
From stdpp Require Import base gmap strings list sorting.
From S2P Require Import Prelude Json Runtime.

(** [self._records]: by id, in insertion order. *)
Abbreviation memory_store := (list (uuid * MemoryRecord)) (only parsing).

(** [__init__], [add]. *)
Definition memory_add (r : MemoryRecord) (st : memory_store) : memory_store := dset (mem_id r) r st.

Definition InMemoryMemoryStore (records : list MemoryRecord) : memory_store :=
  fold_left (fun st r => memory_add r st) records [].

(** [re.findall(r"\w+", s)]; [word] is the word so far, in reverse. *)
Fixpoint words_from (word s : string) : list string :=
  let ended := if is_empty word then [] else [String.rev word] in
  match s with
  | EmptyString => ended
  | String a s' => if word_char a then words_from (String a word) s' else ended ++ words_from EmptyString s'
  end.

(** [_tokens]. *)
Definition tokens (value : string) : gset string := list_to_set (words_from EmptyString (casefold value)).

(** The tests that skip a record. *)
Definition record_admitted (q : MemoryQuery) (r : MemoryRecord) : bool :=
  match q_namespace q with Some n => bool_decide (mem_namespace r = n) | None => true end &&
  forallb (fun '(k, v) => json_eqb (default JNull (dget k (mem_metadata r))) v) (q_filters q).

Definition overlap (query : gset string) (r : MemoryRecord) : Z := Z.of_nat (size (query ∩ tokens (mem_content r))).

(** [len(query_tokens & record_tokens) / len(query_tokens)]. *)
Definition score_of (query : gset string) (r : MemoryRecord) : Q :=
  Qmake (overlap query r) (Pos.of_nat (size query)).

(** The loop over the records. *)
Fixpoint collect_matches (q : MemoryQuery) (query : gset string) (records : list MemoryRecord)
  : outcome (list MemoryMatch) :=
  match records with
  | [] => Ok []
  | r :: records' =>
      if negb (record_admitted q r) then collect_matches q query records'
      else
        raise_when bool_decide (size query = 0%nat) as Exn ExZeroDivisionError "division by zero" in
        let! l := collect_matches q query records' in
        if 0 <? overlap query r then Ok (mk_MemoryMatch r (score_of query r) :: l) else Ok l
  end.

(** The key: [(-score, -created_at, str(id))]. *)
Definition match_leb (a b : MemoryMatch) : bool :=
  match Qcompare (match_score b) (match_score a) with
  | Lt => true
  | Gt => false
  | Eq =>
      match Z.compare (mem_created_at (match_record b)) (mem_created_at (match_record a)) with
      | Lt => true
      | Gt => false
      | Eq => string_leb (uuid_str (mem_id (match_record a))) (uuid_str (mem_id (match_record b)))
      end
  end.

(** [search]. *)
Definition store_search (q : MemoryQuery) (st : memory_store) : outcome (list MemoryMatch) :=
  let! l := collect_matches q (tokens (q_text q)) (dvalues st) in
  Ok (take (Z.to_nat (q_limit q)) (sorted_by match_leb l)).

(** ** The order of matches *)

Lemma ascii_compare_trans a b c :
  Ascii.compare a b = Lt -> Ascii.compare b c = Lt -> Ascii.compare a c = Lt.
Proof. unfold Ascii.compare. rewrite !N.compare_lt_iff. lia. Qed.

Lemma ascii_compare_eq a b : Ascii.compare a b = Eq -> a = b.
Proof. by apply Ascii.compare_eq_iff. Qed.

Lemma string_leb_trans x : forall y z,
  string_leb x y = true -> string_leb y z = true -> string_leb x z = true.
Proof.
  unfold string_leb, String.leb. induction x as [|a x IH]; intros y z; [by destruct z|].
  destruct y as [|b y]; [done|]. destruct z as [|c z]; simpl.
  { by destruct (Ascii.compare b a) eqn:?. }
  destruct (Ascii.compare a b) eqn:Eab; [|intros _|done].
  - apply ascii_compare_eq in Eab as ->. destruct (Ascii.compare b c); [apply IH|done|done].
  - destruct (Ascii.compare b c) eqn:Ebc; [|intros _|done].
    + apply ascii_compare_eq in Ebc as ->. by rewrite Eab.
    + by rewrite (ascii_compare_trans _ _ _ Eab Ebc).
Qed.

Lemma match_leb_total a b : match_leb a b = true \/ match_leb b a = true.
Proof.
  unfold match_leb.
  rewrite <-(Qcompare_antisym (match_score b) (match_score a)),
    (Z.compare_antisym (mem_created_at (match_record b)) (mem_created_at (match_record a))).
  destruct (Qcompare _ _); simpl; [|by left|by right].
  destruct (Z.compare _ _); simpl; [apply String.leb_total|by left|by right].
Qed.

(** The comparison of the first components of a key. *)
Lemma match_leb_spec a b :
  match_leb a b = true <->
  (match_score b < match_score a)%Q \/
  ((match_score b == match_score a)%Q /\
   (mem_created_at (match_record b) < mem_created_at (match_record a) \/
    mem_created_at (match_record b) = mem_created_at (match_record a) /\
    string_leb (uuid_str (mem_id (match_record a))) (uuid_str (mem_id (match_record b))) = true)).
Proof.
  unfold match_leb. destruct (Qcompare_spec (match_score b) (match_score a)) as [E|E|E].
  - destruct (Z.compare_spec (mem_created_at (match_record b)) (mem_created_at (match_record a))) as [F|F|F].
    + split; [tauto|]. intros [Hc|[_ [Hc|[_ Hc]]]]; [by apply Qlt_not_eq in Hc|lia|done].
    + tauto.
    + split; [done|]. intros [Hc|[_ Hc]]; [by apply Qlt_not_eq in Hc|lia].
  - tauto.
  - split; [done|]. intros [Hc|[Hc _]]; [|symmetry in Hc; by apply Qlt_not_eq in E].
    exfalso. eapply Qlt_irrefl, Qlt_trans; eassumption.
Qed.

Lemma match_leb_trans a b c : match_leb a b = true -> match_leb b c = true -> match_leb a c = true.
Proof.
  rewrite !match_leb_spec. intros [H1|[E1 H1]] [H2|[E2 H2]].
  - left. by eapply Qlt_trans.
  - left. by rewrite E2.
  - left. by rewrite <-E1.
  - right. split; [by rewrite E2|]. destruct H1 as [H1|[F1 H1]], H2 as [H2|[F2 H2]]; try lia.
    right. split; [congruence|]. by eapply string_leb_trans.
Qed.

(** ** Identifiers *)

Lemma hex_digit_inj a b : (a < 16)%N -> (b < 16)%N -> hex_digit a = hex_digit b -> a = b.
Proof.
  unfold hex_digit. intros Ha Hb Hab. apply (f_equal Ascii.N_of_ascii) in Hab.
  repeat case_match; reflect; repeat match goal with
    | H : (_ <? _)%N = true |- _ => apply N.ltb_lt in H
    | H : (_ <? _)%N = false |- _ => apply N.ltb_ge in H end;
  rewrite !Ascii.N_ascii_embedding in Hab; lia.
Qed.

Lemma hex_digits_inj w : forall n m s t,
  (n < 16 ^ N.of_nat w)%N -> (m < 16 ^ N.of_nat w)%N ->
  hex_digits w n +:+ s = hex_digits w m +:+ t -> n = m /\ s = t.
Proof.
  induction w as [|w IH]; intros n m s t Hn Hm He; cbn [hex_digits] in He.
  { simpl in Hn, Hm. split; [lia|done]. }
  injection He as Hd He. rewrite Nat2N.inj_succ, N.pow_succ_r' in Hn, Hm.
  assert (16 ^ N.of_nat w <> 0)%N as H0 by (apply N.pow_nonzero; lia).
  apply hex_digit_inj in Hd; try (apply N.Div0.div_lt_upper_bound; lia).
  destruct (IH (n mod 16 ^ N.of_nat w) (m mod 16 ^ N.of_nat w) s t)%N as [Hr Hs];
    [by apply N.mod_lt|by apply N.mod_lt|done|].
  split; [|done]. rewrite (N.div_mod n (16 ^ N.of_nat w)), (N.div_mod m (16 ^ N.of_nat w)) by done. congruence.
Qed.

Lemma string_cons_inj a s t : String a s = String a t -> s = t.
Proof. by intros [= ->]. Qed.

(** A quotient from the coarser one and the digits between. *)
Lemma div_refine (u v b c : N) : (b <> 0)%N -> (c <> 0)%N ->
  (u / (b * c) = v / (b * c))%N -> ((u / b) mod c = (v / b) mod c)%N -> (u / b = v / b)%N.
Proof.
  intros Hb Hc Hd Hm. rewrite <-!N.Div0.div_div in Hd.
  rewrite (N.div_mod (u / b) c), (N.div_mod (v / b) c) by done. congruence.
Qed.

Lemma uuid_str_inj u v : (u < 2 ^ 128)%N -> (v < 2 ^ 128)%N -> uuid_str u = uuid_str v -> u = v.
Proof.
  intros Hu Hv. unfold uuid_str, fstr.
  change (16 ^ 8)%N with (2 ^ 32)%N in *.
  assert (forall x, (x < 2 ^ 128)%N -> (x / 2 ^ 96 < 16 ^ N.of_nat 8)%N) as H0.
  { intros x Hx. apply N.Div0.div_lt_upper_bound. exact Hx. }
  assert (forall x, (x mod 2 ^ 16 < 16 ^ N.of_nat 4)%N) as H1 by (intros; by apply N.mod_lt).
  assert (forall x, (x mod 2 ^ 48 < 16 ^ N.of_nat 12)%N) as H2 by (intros; by apply N.mod_lt).
  cbn [String.concat String.append]. intros He.
  apply hex_digits_inj in He as [E1 He]; [|by apply H0|by apply H0]. apply string_cons_inj in He.
  apply hex_digits_inj in He as [E2 He]; [|apply H1|apply H1]. apply string_cons_inj in He.
  apply hex_digits_inj in He as [E3 He]; [|apply H1|apply H1]. apply string_cons_inj in He.
  apply hex_digits_inj in He as [E4 He]; [|apply H1|apply H1]. apply string_cons_inj in He.
  rewrite <-(string_app_nil (hex_digits 12 (u mod _))), <-(string_app_nil (hex_digits 12 (v mod _))) in He.
  apply hex_digits_inj in He as [E5 _]; [|apply H2|apply H2].
  apply (div_refine u v (2 ^ 80) (2 ^ 16)) in E2; [|done|done|exact E1].
  apply (div_refine u v (2 ^ 64) (2 ^ 16)) in E3; [|done|done|exact E2].
  apply (div_refine u v (2 ^ 48) (2 ^ 16)) in E4; [|done|done|exact E3].
  rewrite (N.div_mod u (2 ^ 48)), (N.div_mod v (2 ^ 48)) by done. congruence.
Qed.

(** ** Searching *)

(** What [search] looks for: an admitted record that shares a token. *)
Definition relevant (q : MemoryQuery) (r : MemoryRecord) : bool :=
  record_admitted q r && (0 <? overlap (tokens (q_text q)) r).

Definition matched (q : MemoryQuery) (r : MemoryRecord) : MemoryMatch :=
  mk_MemoryMatch r (score_of (tokens (q_text q)) r).

Lemma collect_matches_spec q records :
  tokens (q_text q) <> ∅ ->
  collect_matches q (tokens (q_text q)) records = Ok (map (matched q) (List.filter (relevant q) records)).
Proof.
  intros Hq. assert (size (tokens (q_text q)) <> 0%nat) as Hs by (intros E; by apply size_empty_inv, leibniz_equiv in E).
  induction records as [|r records IH]; [done|]. simpl. unfold relevant at 1.
  destruct (record_admitted q r); simpl; [|done].
  rewrite bool_decide_false by done. rewrite IH. by destruct (0 <? _).
Qed.

(** Every stored record is under its own id. *)
Record memory_store_ok (st : memory_store) : Prop := {
  ms_keys : NoDup (dkeys st);
  ms_ids : Forall (fun kr => mem_id kr.2 = kr.1 /\ (kr.1 < 2 ^ 128)%N) st;
}.

Lemma memory_add_ok r st : (mem_id r < 2 ^ 128)%N -> memory_store_ok st -> memory_store_ok (memory_add r st).
Proof.
  intros Hr [Hk Hi]. split; [by apply dset_NoDup|]. unfold memory_add. clear Hk.
  induction Hi as [|[k x] st [Hx Hb] Hst IH]; simpl; [by repeat constructor|].
  destruct (decide (mem_id r = k)); apply Forall_cons; simpl; auto.
Qed.

Lemma InMemoryMemoryStore_ok records :
  Forall (fun r => mem_id r < 2 ^ 128)%N records -> memory_store_ok (InMemoryMemoryStore records).
Proof.
  intros Hr. unfold InMemoryMemoryStore. assert (memory_store_ok []) as Hs by (split; constructor).
  revert Hs. generalize (@nil (uuid * MemoryRecord)). induction Hr as [|r records Hr _ IH]; intros st Hs; [done|].
  simpl. by apply IH, memory_add_ok.
Qed.

Lemma matched_inj q r s :
  (mem_id r < 2 ^ 128)%N -> (mem_id s < 2 ^ 128)%N ->
  match_leb (matched q r) (matched q s) = true -> match_leb (matched q s) (matched q r) = true ->
  mem_id r = mem_id s.
Proof.
  intros Hr Hs. rewrite !match_leb_spec. intros [H1|[E1 H1]] [H2|[E2 H2]].
  - exfalso. eapply Qlt_irrefl, Qlt_trans; eassumption.
  - by apply Qlt_not_eq in H1.
  - by apply Qlt_not_eq in H2.
  - destruct H1 as [H1|[F1 H1]], H2 as [H2|[F2 H2]]; try lia.
    apply uuid_str_inj; [done|done|]. apply String.leb_antisym; [exact H1|exact H2].
Qed.

(** The records of a store, whatever the order they were added in. *)
Lemma store_values_inj (st : memory_store) r s :
  memory_store_ok st -> r ∈ dvalues st -> s ∈ dvalues st -> mem_id r = mem_id s -> r = s.
Proof.
  intros [Hk Hi] Hr Hs He. apply list_elem_of_fmap in Hr as ([k r'] & -> & Hr).
  apply list_elem_of_fmap in Hs as ([k' s'] & -> & Hs). simpl in *.
  rewrite Forall_forall in Hi. destruct (Hi _ Hr) as [Hkr _], (Hi _ Hs) as [Hks _]. simpl in *.
  apply elem_dget in Hr; [|done]. apply elem_dget in Hs; [|done]. congruence.
Qed.

Lemma overlap_le query r : overlap query r <= Z.of_nat (size query).
Proof. unfold overlap. apply inj_le, subseteq_size. set_solver. Qed.

Lemma score_of_range query r : query <> ∅ -> 0 < overlap query r -> (0 < score_of query r <= 1)%Q.
Proof.
  intros Hq Ho. pose proof (overlap_le query r) as Hle.
  assert (size query <> 0%nat) as Hs by (intros E; by apply size_empty_inv, leibniz_equiv in E).
  unfold score_of, Qlt, Qle. simpl. rewrite <-Znat.positive_nat_Z, Nat2Pos.id by done. lia.
Qed.

Section Search.
Variables (q : MemoryQuery) (st : memory_store).
Hypothesis Hok : memory_store_ok st.
Hypothesis Hq : tokens (q_text q) <> ∅.

(** All matches, ranked. *)
Definition ranking : list MemoryMatch :=
  sorted_by match_leb (map (matched q) (List.filter (relevant q) (dvalues st))).

Lemma store_search_eq : store_search q st = Ok (take (Z.to_nat (q_limit q)) ranking).
Proof using Hq. unfold store_search. by rewrite collect_matches_spec. Qed.

Lemma ranking_sorted : StronglySorted (fun a b => match_leb a b = true) ranking.
Proof. apply sorted_by_sorted; [apply match_leb_total|apply match_leb_trans]. Qed.

Lemma elem_ranking m :
  m ∈ ranking <-> exists r, r ∈ dvalues st /\ relevant q r = true /\ m = matched q r.
Proof.
  unfold ranking. rewrite (sorted_by_perm match_leb), list_elem_of_fmap. split.
  - intros (r & -> & Hr). rewrite list_elem_of_In, List.filter_In, <-list_elem_of_In in Hr.
    destruct Hr. by exists r.
  - intros (r & Hr & Hrel & ->). exists r. split; [done|].
    by rewrite list_elem_of_In, List.filter_In, <-list_elem_of_In.
Qed.

Lemma ids_NoDup : NoDup (map mem_id (dvalues st)).
Proof using Hok.
  destruct Hok as [Hk Hi]. clear Hok Hq. induction Hi as [|[k r] l [Hx _] Hi IH]; simpl in *; [constructor|].
  apply NoDup_cons in Hk as [Hn Hk]. constructor; [|by apply IH]. rewrite Hx. intros Hin. apply Hn.
  apply list_elem_of_fmap in Hin as (r' & Hr' & Hin). apply list_elem_of_fmap in Hin as ([k' r''] & -> & Hin).
  rewrite Forall_forall in Hi. destruct (Hi _ Hin) as [Hm _]. simpl in *. rewrite Hr', Hm.
  unfold dkeys. apply list_elem_of_fmap. by exists (k', r'').
Qed.

Lemma ranking_NoDup : NoDup ranking.
Proof using Hok.
  unfold ranking. rewrite (sorted_by_perm match_leb).
  apply (NoDup_fmap_1 (fun m => mem_id (match_record m))). rewrite <-list_fmap_compose. unfold compose. simpl.
  pose proof ids_NoDup as Hn. clear Hok. revert Hn. generalize (dvalues st). intros l.
  induction l as [|r l IH]; intros Hn; [constructor|]. simpl in *. apply NoDup_cons in Hn as [Hn Hl].
  destruct (relevant q r); [|by apply IH]. constructor; [|by apply IH]. intros Hin. apply Hn.
  apply list_elem_of_fmap in Hin as (r' & He & Hin). simpl in He.
  rewrite list_elem_of_In, List.filter_In, <-list_elem_of_In in Hin. destruct Hin as [Hin _].
  apply list_elem_of_fmap. by exists r'.
Qed.

(** What is left out comes after what is kept. *)
Lemma ranking_before n a b : a ∈ take n ranking -> b ∈ drop n ranking -> match_leb a b = true.
Proof.
  pose proof ranking_sorted as Hs. rewrite <-(take_drop n ranking) in Hs. revert Hs.
  generalize (take n ranking), (drop n ranking). intros l k Hs Ha Hb. induction l as [|x l IH]; [by apply not_elem_of_nil in Ha|].
  simpl in Hs. apply StronglySorted_inv in Hs as [Hs Hx]. apply elem_of_cons in Ha as [->|Ha].
  - rewrite Forall_forall in Hx. apply Hx. apply elem_of_app. by right.
  - apply IH; [exact Hs|exact Ha].
Qed.
End Search.

(** C20: a search gives the best matches.  On a store built by the
    constructor and [add], a query with at least one token returns at most
    [limit] distinct stored records; each is in the query's namespace, passes
    its filters and shares a token with it, with the share of the query's
    tokens it holds as a score between 0 and 1; they come in the order of
    score, age and id; and a matching record is left out only when [limit]
    records that rank no lower are returned. *)
Theorem memory_search_ranked q records added :
  let st := fold_left (fun st r => memory_add r st) added (InMemoryMemoryStore records) in
  Forall (fun r => mem_id r < 2 ^ 128)%N (records ++ added) ->
  tokens (q_text q) <> ∅ -> 0 <= q_limit q ->
  exists l, store_search q st = Ok l /\ Z.of_nat (length l) <= q_limit q /\ NoDup l /\
    StronglySorted (fun a b => match_leb a b = true) l /\
    (forall m, m ∈ l -> match_record m ∈ dvalues st /\ record_admitted q (match_record m) = true /\
       tokens (q_text q) ∩ tokens (mem_content (match_record m)) <> ∅ /\
       match_score m = score_of (tokens (q_text q)) (match_record m) /\ (0 < match_score m <= 1)%Q) /\
    (forall r, r ∈ dvalues st -> record_admitted q r = true ->
       tokens (q_text q) ∩ tokens (mem_content r) <> ∅ -> matched q r ∉ l ->
       Z.of_nat (length l) = q_limit q /\ Forall (fun m => match_leb m (matched q r) = true) l).
Proof.
  intros st Hids Hq Hlim. assert (memory_store_ok st) as Hok.
  { unfold st, InMemoryMemoryStore. rewrite <-fold_left_app. by apply InMemoryMemoryStore_ok. }
  assert (forall r, tokens (q_text q) ∩ tokens (mem_content r) <> ∅ <-> 0 < overlap (tokens (q_text q)) r) as Hov.
  { intros r. unfold overlap. split.
    - intros He. destruct (size _) eqn:E; [|lia]. by apply size_empty_inv, leibniz_equiv in E.
    - intros Ho He. rewrite He, size_empty in Ho. lia. }
  exists (take (Z.to_nat (q_limit q)) (ranking q st)). split_and!.
  - by apply store_search_eq.
  - rewrite length_take. lia.
  - pose proof (ranking_NoDup q st Hok) as Hn. rewrite <-(take_drop (Z.to_nat (q_limit q))) in Hn.
    by apply NoDup_app in Hn as [? _].
  - pose proof (ranking_sorted q st) as Hs. rewrite <-(take_drop (Z.to_nat (q_limit q))) in Hs.
    by apply StronglySorted_app_1_l in Hs.
  - intros m Hm. apply elem_of_take in Hm as (i & Hi & _). apply list_elem_of_lookup_2, elem_ranking in Hi.
    destruct Hi as (r & Hr & Hrel & ->). unfold relevant in Hrel. reflect. simpl.
    split_and!; [done|done|by apply Hov|done|by apply score_of_range|by apply score_of_range].
  - intros r Hr Ha Ho%Hov Hnot.
    assert (matched q r ∈ ranking q st) as Hin.
    { apply elem_ranking. exists r. split_and!; [done| |done]. unfold relevant. rewrite Ha. simpl. by apply Z.ltb_lt. }
    assert (matched q r ∈ drop (Z.to_nat (q_limit q)) (ranking q st)) as Hd.
    { rewrite <-(take_drop (Z.to_nat (q_limit q)) (ranking q st)), elem_of_app in Hin. by destruct Hin. }
    split.
    + rewrite length_take. destruct (decide (Z.to_nat (q_limit q) <= length (ranking q st))%nat); [lia|].
      rewrite drop_ge in Hd by lia. by apply not_elem_of_nil in Hd.
    + apply Forall_forall. intros m Hm. by eapply ranking_before.
Qed.

(** ** The order of insertion *)

Lemma InMemoryMemoryStore_values records :
  NoDup (map mem_id records) -> dvalues (InMemoryMemoryStore records) = records.
Proof.
  intros Hn. unfold InMemoryMemoryStore.
  assert (forall rs st, NoDup (dkeys st ++ map mem_id rs) ->
            dvalues (fold_left (fun st r => memory_add r st) rs st) = dvalues st ++ rs) as Hadd;
    [|by rewrite (Hadd records [])].
  induction rs as [|r rs IH]; intros st Hst; simpl in *; [by rewrite app_nil_r|].
  assert (mem_id r ∉ dkeys st) as Hf.
  { intros Hin. apply NoDup_app in Hst as (_ & Hd & _). apply (Hd _ Hin). by left. }
  unfold memory_add at 2. rewrite dset_fresh by done. rewrite IH.
  - unfold dvalues. by rewrite map_app, <-app_assoc.
  - unfold dkeys in *. by rewrite map_app, <-app_assoc.
Qed.

Lemma collect_without_tokens q records :
  tokens (q_text q) = ∅ ->
  collect_matches q (tokens (q_text q)) records =
    if existsb (record_admitted q) records then Raise (Exn ExZeroDivisionError "division by zero") else Ok [].
Proof.
  intros Hq. rewrite Hq. induction records as [|r records IH]; [done|]. simpl.
  by destruct (record_admitted q r).
Qed.

Lemma existsb_perm {A} (f : A -> bool) l l' : l ≡ₚ l' -> existsb f l = existsb f l'.
Proof.
  induction 1 as [|x l l' _ IH|x y l|l1 l2 l3 _ IH1 _ IH2]; simpl; [done|by rewrite IH| |congruence].
  by destruct (f x), (f y).
Qed.

Lemma filter_perm {A} (f : A -> bool) l l' : l ≡ₚ l' -> List.filter f l ≡ₚ List.filter f l'.
Proof.
  induction 1 as [|x l l' _ IH|x y l|l1 l2 l3 _ IH1 _ IH2]; simpl; [done| | |by etrans].
  - destruct (f x); [by constructor|done].
  - destruct (f x), (f y); try done. by constructor.
Qed.

(** The order of insertion does not matter.  Two stores of the same
    records, with distinct ids, answer every query alike - the same matches
    in the same order, or the same error - however the records were ordered
    when the stores were built, since score, age and id rank any two matches
    strictly. *)
Theorem memory_search_order_free q records records' :
  records ≡ₚ records' -> NoDup (map mem_id records) ->
  Forall (fun r => mem_id r < 2 ^ 128)%N records ->
  store_search q (InMemoryMemoryStore records) = store_search q (InMemoryMemoryStore records').
Proof.
  intros Hp Hn Hids. unfold store_search.
  assert (NoDup (map mem_id records')) as Hn' by (by rewrite <-Hp).
  rewrite !InMemoryMemoryStore_values by done.
  destruct (decide (tokens (q_text q) = ∅)) as [Hq|Hq].
  { rewrite !collect_without_tokens by done. by rewrite (existsb_perm _ _ _ Hp). }
  rewrite !collect_matches_spec by done. do 2 f_equal.
  apply (StronglySorted_unique_strong (fun a b => match_leb a b = true)).
  - intros a b Ha Hb Hab Hba. rewrite sorted_by_perm in Ha, Hb.
    apply list_elem_of_fmap in Ha as (r & -> & Hr). apply list_elem_of_fmap in Hb as (s & -> & Hs).
    rewrite list_elem_of_In, List.filter_In, <-list_elem_of_In in Hr.
    rewrite list_elem_of_In, List.filter_In, <-list_elem_of_In in Hs.
    destruct Hr as [Hr _], Hs as [Hs _]. rewrite <-Hp in Hs. rewrite Forall_forall in Hids.
    f_equal. apply (store_values_inj (InMemoryMemoryStore records)).
    + apply InMemoryMemoryStore_ok. by apply Forall_forall.
    + by rewrite InMemoryMemoryStore_values.
    + by rewrite InMemoryMemoryStore_values.
    + apply (matched_inj q); auto.
  - apply sorted_by_sorted; [apply match_leb_total|apply match_leb_trans].
  - apply sorted_by_sorted; [apply match_leb_total|apply match_leb_trans].
  - rewrite !sorted_by_perm. apply Permutation_map. by apply filter_perm.
Qed.

(** *** Instances *)

Definition memory_record (id : uuid) (content : string) (created : time) : MemoryRecord :=
  mk_MemoryRecord id content "default" created [].

Definition example_memories : list MemoryRecord :=
  [memory_record 1 "Rocq proofs are checked" 10; memory_record 2 "Python runs the agent" 20;
   memory_record 3 "The agent keeps ROCQ notes" 30].

Definition example_query (text : string) : MemoryQuery := mk_MemoryQuery text 2 None None None [].

Lemma memory_search_ranked_witness :
  exists l, store_search (example_query "rocq agent") (InMemoryMemoryStore example_memories) = Ok l /\
    map (fun m => mem_id (match_record m)) l = [3; 2]%N /\ Z.of_nat (length l) <= 2.
Proof.
  destruct (memory_search_ranked (example_query "rocq agent") example_memories []) as (l & Hl & Hlen & _).
  - repeat constructor.
  - intros E. assert (size (tokens (q_text (example_query "rocq agent"))) = 2%nat) as Hs by (vm_compute; reflexivity).
    rewrite E in Hs. discriminate.
  - done.
  - exists l. split; [exact Hl|]. split; [|exact Hlen].
    assert (match store_search (example_query "rocq agent") (InMemoryMemoryStore example_memories) with
            | Ok l => map (fun m => mem_id (match_record m)) l = [3; 2]%N | Raise _ => False end) as Hx
      by (vm_compute; reflexivity).
    simpl fold_left in Hl. rewrite Hl in Hx. exact Hx.
Defined.

Lemma memory_search_order_free_witness :
  store_search (example_query "rocq agent") (InMemoryMemoryStore example_memories)
  = store_search (example_query "rocq agent") (InMemoryMemoryStore (rev example_memories)).
Proof.
  apply memory_search_order_free.
  - apply Permutation_rev.
  - apply (bool_decide_unpack _). vm_compute. exact I.
  - repeat constructor.
Defined.

(** A query that is not blank may have no token; searching with it divides by
    zero as soon as a record is admitted. *)
Example query_without_tokens :
  MemoryQuery_new (example_query "???") = Ok (example_query "???") /\
  store_search (example_query "???") (InMemoryMemoryStore example_memories)
  = Raise (Exn ExZeroDivisionError "division by zero").
Proof. split; vm_compute; reflexivity. Qed.
