(* ===== verification/Sandbox.v ===== *)
(** * The Docker sandbox ([src/base_agent/sandbox/docker.py])

    One disposable container: its configuration, the confinement of paths to
    its workspace, the bounded capture of a command's output, and the session
    operations.  The Docker client is the record [Docker] of arbitrary
    functions on its own state.  The operations are codes whose waits - for
    the lock and for threads - are explicit; [sandbox_step] interleaves any
    number of them with threads, timeouts and cancellations. *)

From Stdlib Require Import QArith.
From stdpp Require Import base strings list.
From S2P Require Import Prelude Models Sha256.

(** ** [PurePosixPath]

    A path is its root ([""], ["/"] or ["//"]) and its parts; empty and ["."]
    components disappear. *)

Record PurePath := mk_PurePath { pp_root : string; pp_parts : list string }.

Definition slash : Ascii.ascii := Ascii.ascii_of_N 47.

(** [s.split("/")]; [part] is the part so far, in reverse. *)
Fixpoint split_slash (part s : string) : list string :=
  match s with
  | EmptyString => [String.rev part]
  | String a s' => if bool_decide (a = slash) then String.rev part :: split_slash EmptyString s'
                   else split_slash (String a part) s'
  end.

Definition path_root (s : string) : string :=
  if String.prefix "//" s && negb (String.prefix "///" s) then "//"
  else if String.prefix "/" s then "/" else "".

Definition path_of (s : string) : PurePath :=
  mk_PurePath (path_root s)
    (List.filter (fun p => negb (is_empty p) && negb (bool_decide (p = "."))) (split_slash EmptyString s)).

Definition path_str (p : PurePath) : string :=
  let s := pp_root p +:+ String.concat "/" (pp_parts p) in if is_empty s then "." else s.

Definition is_absolute (p : PurePath) : bool := negb (is_empty (pp_root p)).

(** [p.relative_to(base)]: [None] is [ValueError]. *)
Fixpoint parts_after (base parts : list string) : option (list string) :=
  match base, parts with
  | [], _ => Some parts
  | b :: base', p :: parts' => if bool_decide (b = p) then parts_after base' parts' else None
  | _ :: _, [] => None
  end.

Definition relative_to (p base : PurePath) : option PurePath :=
  if bool_decide (pp_root p = pp_root base)
  then mk_PurePath "" <$> parts_after (pp_parts base) (pp_parts p) else None.

(** [base.joinpath(p)] of a relative [p], and [p.parent]. *)
Definition joinpath (base p : PurePath) : PurePath := mk_PurePath (pp_root base) (pp_parts base ++ pp_parts p).
Definition parent (p : PurePath) : PurePath := mk_PurePath (pp_root p) (removelast (pp_parts p)).

Example paths :
  map (fun s => path_str (path_of s)) [""; "/"; "//a"; "///a//b/./c/"; "./x/../y"]
  = ["."; "/"; "//a"; "/a/b/c"; "x/../y"].
Proof. vm_compute. reflexivity. Qed.

(** ** Configuration *)

Record DockerSandboxConfig := mk_DockerSandboxConfig {
  sb_image : string;
  sb_working_dir : string;
  sb_user : string;
  sb_network_enabled : bool;
  sb_read_only_root : bool;
  sb_memory_limit : string + Z;
  sb_nano_cpus : Z;
  sb_pids_limit : Z;
  sb_workspace_size_mb : Z;
  sb_command_timeout_seconds : seconds;
  sb_max_output_bytes : Z;
  sb_max_file_bytes : Z;
}.

Definition DockerSandboxConfig_fields (c : DockerSandboxConfig) : bool :=
  (1 <=? slen (sb_image c)) && (1 <=? sb_nano_cpus c) && (1 <=? sb_pids_limit c)
  && (1 <=? sb_workspace_size_mb c) && (sb_workspace_size_mb c <=? 4096)
  && negb (Qle_bool (sb_command_timeout_seconds c) 0) && Qle_bool (sb_command_timeout_seconds c) 3600
  && (1024 <=? sb_max_output_bytes c) && (sb_max_output_bytes c <=? 20000000)
  && (1 <=? sb_max_file_bytes c) && (sb_max_file_bytes c <=? 20000000).

(** [validate_container_boundary]. *)
Definition DockerSandboxConfig_validate (c : DockerSandboxConfig) : outcome unit :=
  let workspace := path_of (sb_working_dir c) in
  raise_when negb (is_absolute workspace) || bool_decide (path_str workspace = "/")
             || bool_decide (".." ∈ pp_parts workspace)
    as validation_error "working_dir must be an absolute non-root container path" in
  raise_when blank (sb_image c) as validation_error "image must not be blank" in
  raise_when blank (sb_user c) as validation_error "user must not be blank" in
  Ok tt.

Definition DockerSandboxConfig_new (c : DockerSandboxConfig) : outcome DockerSandboxConfig :=
  checked (DockerSandboxConfig_fields c) DockerSandboxConfig_validate c.

(** ** The output of a command *)

Abbreviation bytes := (list Ascii.ascii) (only parsing).

(** [s.encode("utf-8")]. *)
Definition encode (s : string) : bytes := String.list_ascii_of_string (utf8 s).

(** [_append_available]: the bytes kept and whether some were lost; [None]
    and [b""] are no chunk. *)
Definition append_available (target : bytes) (chunk : option bytes) (available : Z) : bytes * bool :=
  match chunk with
  | None | Some [] => (target, false)
  | Some chunk => (target ++ take (Z.to_nat available) chunk, available <? Z.of_nat (length chunk))
  end.

Definition available (limit : Z) (stdout stderr : bytes) : Z :=
  Z.max 0 (limit - Z.of_nat (length stdout) - Z.of_nat (length stderr)).

(** The loop of [_execute_sync] over the stream. *)
Fixpoint capture (limit : Z) (stream : list (option bytes * option bytes)) (stdout stderr : bytes)
  (truncated : bool) : bytes * bytes * bool :=
  match stream with
  | [] => (stdout, stderr, truncated)
  | (out_chunk, err_chunk) :: stream' =>
      let '(stdout, lost) := append_available stdout out_chunk (available limit stdout stderr) in
      let '(stderr, lost') := append_available stderr err_chunk (available limit stdout stderr) in
      capture limit stream' stdout stderr (truncated || lost || lost')
  end.

(** ** The session *)

Record SandboxCommandResult := mk_SandboxCommandResult {
  scr_exit_code : Z;
  scr_stdout : string;
  scr_stderr : string;
  scr_truncated : bool;
}.

Record SandboxFileContent := mk_SandboxFileContent {
  sfc_path : string;
  sfc_content : string;
  sfc_truncated : bool;
}.

Abbreviation output := (list (option bytes * option bytes)) (only parsing).

(** The Docker client: [docker_exec] runs an argv in a directory with an
    environment, [_execute_sync] up to its loop. *)
Record Docker (X : Type) := mk_Docker {
  docker_exec : list string -> string -> list (string * string) -> X -> X * outcome (Z * output);
  docker_remove : X -> X * outcome unit;
  docker_close : X -> X * outcome unit;
}.
Arguments docker_exec {X}.
Arguments docker_remove {X}.
Arguments docker_close {X}.

Inductive shutdown_call := Remove | CloseClient.

Inductive docker_call :=
  | Exec (argv : list string) (cwd : string) (environment : list (string * string))
  | Shut (c : shutdown_call).

(** How the wait for a command ends: with its reply, or before it. *)
Inductive exec_reply :=
  | Ended (exit_code : Z) (stream : output)
  | TimedOut
  | Cancelled
  | Broken (e : exn).

(** The code of a method: what it does to the session, in order.  Only the
    waits - for the lock, and for a thread - let other tasks run; a wait that
    is cancelled gives [false], [Cancelled] or a [CancelledError]. *)
Inductive code (A : Type) : Type :=
  | Ret (o : outcome A)
  | IsClosed (k : bool -> code A)
  | MarkClosed (k : bool -> code A)
  | Acquire (k : bool -> code A)
  | Release (k : code A)
  | Command (argv : list string) (cwd : string) (environment : list (string * string))
      (k : exec_reply -> code A)
  | Shutdown (c : shutdown_call) (k : outcome unit -> code A).
Arguments Ret {A}.
Arguments IsClosed {A}.
Arguments MarkClosed {A}.
Arguments Acquire {A}.
Arguments Release {A}.
Arguments Command {A}.
Arguments Shutdown {A}.

(** [k] after [m], whatever [m] gives. *)
Fixpoint after_code {A B} (m : code A) (k : outcome A -> code B) : code B :=
  match m with
  | Ret o => k o
  | IsClosed f => IsClosed (fun b => after_code (f b) k)
  | MarkClosed f => MarkClosed (fun b => after_code (f b) k)
  | Acquire f => Acquire (fun b => after_code (f b) k)
  | Release m => Release (after_code m k)
  | Command argv cwd environment f => Command argv cwd environment (fun r => after_code (f r) k)
  | Shutdown c f => Shutdown c (fun o => after_code (f o) k)
  end.

Section Session.
Variable config : DockerSandboxConfig.
(** [bytes.decode("utf-8", errors="replace")] and [base64.b64encode]. *)
Variable decode : bytes -> string.
Variable base64 : bytes -> string.

Definition workspace : PurePath := path_of (sb_working_dir config).

(** [_resolve_path]. *)
Definition resolve_path (path : string) : outcome PurePath :=
  let candidate := path_of path in
  let outside := Exn SandboxPathError "path must stay inside the Sandbox workspace" in
  let! relative := if is_absolute candidate
                   then match relative_to candidate workspace with Some r => Ok r | None => Raise outside end
                   else Ok candidate in
  raise_when bool_decide (".." ∈ pp_parts relative) as outside in
  Ok (joinpath workspace relative).

Definition closed_error : exn := Exn SandboxClosedError "Sandbox session is closed".

(** [close]: the client is closed whatever removing the container gives. *)
Definition session_close : code unit :=
  MarkClosed (fun was_closed =>
    if was_closed then Ret (Ok tt)
    else Shutdown Remove (fun removed =>
      Shutdown CloseClient (fun closed =>
        Ret (match closed with Raise e => Raise e | Ok _ => removed end)))).

(** The [except] clauses of [execute]. *)
Definition session_abandon {A} (e : exn) : code A :=
  after_code session_close (fun o => Ret (match o with Ok _ => Raise e | Raise e' => Raise e' end)).

Definition cancelled_error : exn := Exn ExCancelledError "".

(** [execute]: whether the session is open is asked before the lock is
    waited for; a command that times out or is cancelled, and a cancelled
    wait for the lock, close the session. *)
Definition session_execute (argv : list string) (cwd : string) (environment : list (string * string))
  : code SandboxCommandResult :=
  IsClosed (fun closed =>
    if closed then Ret (Raise closed_error)
    else if bool_decide (argv = []) || existsb is_empty argv
    then Ret (Raise (value_error ["argv must contain one or more non-empty strings"]))
    else
      match resolve_path cwd with
      | Raise e => Ret (Raise e)
      | Ok resolved =>
          Acquire (fun acquired =>
            if negb acquired then session_abandon cancelled_error
            else Command argv (path_str resolved) environment (fun r => Release
              match r with
              | Ended exit_code stream =>
                  let '(stdout, stderr, truncated) := capture (sb_max_output_bytes config) stream [] [] false in
                  Ret (Ok (mk_SandboxCommandResult exit_code (decode stdout) (decode stderr) truncated))
              | TimedOut => session_abandon (Exn ExTimeoutError "")
              | Cancelled => session_abandon cancelled_error
              | Broken e =>
                  if isinstance e ExTimeoutError || isinstance e ExCancelledError
                  then session_abandon e else Ret (Raise e)
              end))
      end).

(** [result.stderr or f"could not {what} '{path}'"]. *)
Definition file_error (r : SandboxCommandResult) (what path : string) : exn :=
  Exn SandboxFileError
    (if is_empty (scr_stderr r) then fstr ["could not "; what; " '"; path; "'"] else scr_stderr r).

(** A command of a file operation, which must exit with 0. *)
Definition file_command (argv : list string) (environment : list (string * string)) (what path : string)
  : code SandboxCommandResult :=
  after_code (session_execute argv "." environment) (fun o => Ret (
    let! r := o in
    if scr_exit_code r =? 0 then Ok r else Raise (file_error r what path))).

(** [read_text]. *)
Definition session_read_text (path : string) : code SandboxFileContent :=
  match resolve_path path with
  | Raise e => Ret (Raise e)
  | Ok resolved =>
      after_code (file_command ["/bin/cat"; path_str resolved] [] "read" path) (fun o => Ret (
        let! r := o in Ok (mk_SandboxFileContent path (scr_stdout r) (scr_truncated r))))
  end.

(** The payload of an appending [write_text]: after the text the file has. *)
Definition appended (path : string) (payload : bytes) : code bytes :=
  after_code (session_read_text path) (fun o => Ret
    match o with
    | Ok existing =>
        raise_when sfc_truncated existing
          as Exn SandboxFileError "cannot append to a file larger than the read limit" in
        Ok (encode (sfc_content existing) ++ payload)
    | Raise e => if isinstance e SandboxFileError then Ok payload else Raise e
    end).

Definition write_script : string :=
  "printf " +:+ String dquote "%s" +:+ String dquote " " +:+ String dquote "$BASE_AGENT_CONTENT"
  +:+ String dquote " | base64 -d > " +:+ String dquote "$BASE_AGENT_PATH" +:+ String dquote "".

(** The end of [write_text]: the directory is made and the payload written. *)
Definition write_payload (path : string) (resolved : PurePath) (payload : bytes) : code unit :=
  if sb_max_file_bytes config <? Z.of_nat (length payload)
  then Ret (Raise (Exn SandboxFileError (fstr ["file exceeds max_file_bytes=";
                                               zstr (sb_max_file_bytes config)])))
  else
    let directory := path_str (parent resolved) in
    after_code (file_command ["/bin/mkdir"; "-p"; directory] [] "create" directory) (fun o =>
      match o with
      | Raise e => Ret (Raise e)
      | Ok _ =>
          after_code (file_command ["/bin/sh"; "-c"; write_script]
                        [("BASE_AGENT_CONTENT", base64 payload);
                         ("BASE_AGENT_PATH", path_str resolved)] "write" path)
            (fun o => Ret (let! _ := o in Ok tt))
      end).

(** [write_text]. *)
Definition session_write_text (path content : string) (append : bool) : code unit :=
  IsClosed (fun closed =>
    if closed then Ret (Raise closed_error)
    else
      match resolve_path path with
      | Raise e => Ret (Raise e)
      | Ok resolved =>
          after_code (if append then appended path (encode content) else Ret (Ok (encode content))) (fun o =>
            match o with
            | Raise e => Ret (Raise e)
            | Ok payload => write_payload path resolved payload
            end)
      end).

(** A call of a session, whatever it returns. *)
Inductive sandbox_call :=
  | CallExecute (argv : list string) (cwd : string) (environment : list (string * string))
  | CallReadText (path : string)
  | CallWriteText (path content : string) (append : bool)
  | CallClose.

Definition ignoring {A} (m : code A) : code unit := after_code m (fun o => Ret (let! _ := o in Ok tt)).

Definition sandbox_code (c : sandbox_call) : code unit :=
  match c with
  | CallExecute argv cwd environment => ignoring (session_execute argv cwd environment)
  | CallReadText path => ignoring (session_read_text path)
  | CallWriteText path content append => session_write_text path content append
  | CallClose => session_close
  end.
End Session.

(** ** Calls that overlap *)

Inductive docker_reply :=
  | ExecReply (o : outcome (Z * output))
  | ShutReply (o : outcome unit).

(** A call handed to a thread ([asyncio.to_thread]): it runs some time, also
    when nobody waits for it any more. *)
Record job := mk_job { job_call : docker_call; job_reply : option docker_reply }.

(** The session with the threads started for it and the calls Docker got. *)
Record SandboxSession (X : Type) := mk_SandboxSession {
  ss_closed : bool;
  ss_locked : bool;
  ss_jobs : list job;
  ss_calls : list docker_call;
  ss_docker : X;
}.
Arguments mk_SandboxSession {X}.
Arguments ss_closed {X}.
Arguments ss_locked {X}.
Arguments ss_jobs {X}.
Arguments ss_calls {X}.
Arguments ss_docker {X}.

(** A task: the rest of its code, and the thread it waits for. *)
Abbreviation task := (code unit * option nat)%type.

Record SandboxWorld (X : Type) := mk_SandboxWorld {
  sw_session : SandboxSession X;
  sw_tasks : list task;
}.
Arguments mk_SandboxWorld {X}.
Arguments sw_session {X}.
Arguments sw_tasks {X}.

(** What happens next: a call is made, a task does its next step, a thread
    runs, the time of a command is over, a task is cancelled. *)
Inductive sandbox_event :=
  | Begin (c : sandbox_call)
  | Turn (t : nat)
  | Thread (j : nat)
  | Expire (t : nat)
  | Cancel (t : nat).

Section Interleaving.
Context {X : Type}.
Variable docker : Docker X.
Variable config : DockerSandboxConfig.
Variable decode : bytes -> string.
Variable base64 : bytes -> string.

Abbreviation world := (SandboxWorld X).

Definition run_docker (c : docker_call) (x : X) : X * docker_reply :=
  match c with
  | Exec argv cwd environment => let '(x, o) := docker_exec docker argv cwd environment x in (x, ExecReply o)
  | Shut Remove => let '(x, o) := docker_remove docker x in (x, ShutReply o)
  | Shut CloseClient => let '(x, o) := docker_close docker x in (x, ShutReply o)
  end.

Definition set_closed (s : SandboxSession X) : SandboxSession X :=
  mk_SandboxSession true (ss_locked s) (ss_jobs s) (ss_calls s) (ss_docker s).
Definition set_locked (b : bool) (s : SandboxSession X) : SandboxSession X :=
  mk_SandboxSession (ss_closed s) b (ss_jobs s) (ss_calls s) (ss_docker s).
Definition submit (c : docker_call) (s : SandboxSession X) : SandboxSession X :=
  mk_SandboxSession (ss_closed s) (ss_locked s) (ss_jobs s ++ [mk_job c None]) (ss_calls s) (ss_docker s).

(** The thread [j] makes its call, once. *)
Definition run_job (j : nat) (s : SandboxSession X) : SandboxSession X :=
  match ss_jobs s !! j with
  | Some (mk_job c None) =>
      let '(x, r) := run_docker c (ss_docker s) in
      mk_SandboxSession (ss_closed s) (ss_locked s) (<[j := mk_job c (Some r)]> (ss_jobs s))
        (ss_calls s ++ [c]) x
  | _ => s
  end.

Definition replied (s : SandboxSession X) (j : nat) : option docker_reply :=
  match ss_jobs s !! j with Some b => job_reply b | None => None end.

(** The next step of a task. *)
Definition task_step (p : task) (s : SandboxSession X) : SandboxSession X * task :=
  match p with
  | (IsClosed k, _) => (s, (k (ss_closed s), None))
  | (MarkClosed k, _) => (set_closed s, (k (ss_closed s), None))
  | (Acquire k, _) => if ss_locked s then (s, p) else (set_locked true s, (k true, None))
  | (Release m, _) => (set_locked false s, (m, None))
  | (Command argv cwd environment k, None) => (submit (Exec argv cwd environment) s, (p.1, Some (length (ss_jobs s))))
  | (Command argv cwd environment k, Some j) =>
      match replied s j with
      | Some (ExecReply (Ok (exit_code, stream))) => (s, (k (Ended exit_code stream), None))
      | Some (ExecReply (Raise e)) => (s, (k (Broken e), None))
      | _ => (s, p)
      end
  | (Shutdown c k, None) => (submit (Shut c) s, (p.1, Some (length (ss_jobs s))))
  | (Shutdown c k, Some j) =>
      match replied s j with
      | Some (ShutReply o) => (s, (k o, None))
      | _ => (s, p)
      end
  | (Ret _, _) => (s, p)
  end.

(** [asyncio.timeout] around the wait for a command. *)
Definition task_expired (p : task) : task :=
  match p with
  | (Command _ _ _ k, Some _) => (k TimedOut, None)
  | _ => p
  end.

(** A cancelled task, at the wait it is in. *)
Definition task_cancelled (p : task) : task :=
  match p with
  | (Command _ _ _ k, Some _) => (k Cancelled, None)
  | (Shutdown _ k, Some _) => (k (Raise cancelled_error), None)
  | (Acquire k, _) => (k false, None)
  | _ => p
  end.

Definition sandbox_step (w : world) (e : sandbox_event) : world :=
  match e with
  | Begin c => mk_SandboxWorld (sw_session w) (sw_tasks w ++ [(sandbox_code config decode base64 c, None)])
  | Turn t =>
      match sw_tasks w !! t with
      | Some p => let '(s, p') := task_step p (sw_session w) in mk_SandboxWorld s (<[t := p']> (sw_tasks w))
      | None => w
      end
  | Thread j => mk_SandboxWorld (run_job j (sw_session w)) (sw_tasks w)
  | Expire t => mk_SandboxWorld (sw_session w) (alter task_expired t (sw_tasks w))
  | Cancel t => mk_SandboxWorld (sw_session w) (alter task_cancelled t (sw_tasks w))
  end.

Definition sandbox_run (w : world) (es : list sandbox_event) : world := fold_left sandbox_step es w.

(** [create]: a new session, of which no call was made. *)
Definition opened (x : X) : world := mk_SandboxWorld (mk_SandboxSession false false [] [] x) [].
End Interleaving.

(** ** The bound on captured output *)

Definition chunk_bytes (c : option bytes) : bytes := default [] c.
Definition produced (stream : list (option bytes * option bytes)) : bytes * bytes :=
  (mjoin (map (fun c => chunk_bytes c.1) stream), mjoin (map (fun c => chunk_bytes c.2) stream)).

Definition size_of (a b : bytes) : Z := Z.of_nat (length a) + Z.of_nat (length b).

Lemma append_available_spec target chunk n :
  0 <= n ->
  append_available target chunk n =
    (target ++ take (Z.to_nat n) (chunk_bytes chunk), n <? Z.of_nat (length (chunk_bytes chunk))).
Proof.
  intros Hn. assert ((n <? Z.of_nat 0) = false) as Hz by (apply Z.ltb_ge; lia).
  destruct chunk as [[|b c]|]; simpl; [|done|]; by rewrite take_nil, app_nil_r, Hz.
Qed.

(** Keeping a chunk within the limit, after [lost] bytes were already lost. *)
Lemma append_within limit kept other chunk target lost :
  size_of kept other <= limit -> (lost = true -> size_of kept other = limit) ->
  target = take (Z.to_nat (Z.max 0 (limit - size_of kept other))) chunk ->
  let size := size_of kept other + Z.of_nat (length chunk) in
  let lost' := lost || (Z.max 0 (limit - size_of kept other) <? Z.of_nat (length chunk)) in
  size_of (kept ++ target) other = Z.min limit size /\
  (lost' = true -> size_of (kept ++ target) other = limit) /\
  lost' = lost || (limit <? size) /\ target `prefix_of` chunk /\
  (lost' = false -> target = chunk) /\ (lost = true -> target = []).
Proof.
  intros Hk Hl -> size lost'. unfold size_of in *. rewrite length_app, length_take.
  assert ((Z.max 0 (limit - (Z.of_nat (length kept) + Z.of_nat (length other))) <? Z.of_nat (length chunk))
          = (limit <? size)) as E.
  { unfold size. destruct (Z.ltb_spec limit (Z.of_nat (length kept) + Z.of_nat (length other) + Z.of_nat (length chunk)));
      [apply Z.ltb_lt|apply Z.ltb_ge]; lia. }
  unfold lost'. rewrite E. split_and!; [unfold size; lia| |done|apply prefix_take| |].
  - intros Hl'. apply orb_true_iff in Hl' as [Hl'|Hl'].
    + specialize (Hl Hl'). lia.
    + apply Z.ltb_lt in Hl'. unfold size in Hl'. lia.
  - intros Hl'. apply orb_false_iff in Hl' as [_ Hl']. apply Z.ltb_ge in Hl'. unfold size in Hl'.
    apply take_ge. lia.
  - intros Hl'. specialize (Hl Hl'). replace (Z.to_nat _) with 0%nat by lia. done.
Qed.

Lemma size_of_comm a b : size_of a b = size_of b a.
Proof. unfold size_of. lia. Qed.

Lemma available_eq limit a b : available limit a b = Z.max 0 (limit - size_of a b).
Proof. unfold available, size_of. lia. Qed.

Lemma capture_cons limit c1 c2 stream so se t :
  let n1 := Z.max 0 (limit - size_of so se) in
  let k1 := take (Z.to_nat n1) (chunk_bytes c1) in
  let n2 := Z.max 0 (limit - size_of se (so ++ k1)) in
  let k2 := take (Z.to_nat n2) (chunk_bytes c2) in
  capture limit ((c1, c2) :: stream) so se t =
    capture limit stream (so ++ k1) (se ++ k2)
      (t || (n1 <? Z.of_nat (length (chunk_bytes c1))) || (n2 <? Z.of_nat (length (chunk_bytes c2)))).
Proof.
  cbv zeta. cbn [capture]. rewrite append_available_spec by (unfold available; lia).
  rewrite append_available_spec by (unfold available; lia). rewrite !available_eq.
  by rewrite (size_of_comm (so ++ _) se).
Qed.

Lemma capture_spec limit stream : forall stdout stderr truncated,
  size_of stdout stderr <= limit -> (truncated = true -> size_of stdout stderr = limit) ->
  exists out err lost,
    capture limit stream stdout stderr truncated = (stdout ++ out, stderr ++ err, lost) /\
    out `prefix_of` (produced stream).1 /\ err `prefix_of` (produced stream).2 /\
    size_of (stdout ++ out) (stderr ++ err) = Z.min limit (size_of stdout stderr + size_of (produced stream).1 (produced stream).2) /\
    lost = truncated || (limit <? size_of stdout stderr + size_of (produced stream).1 (produced stream).2) /\
    (truncated = true -> out = [] /\ err = []).
Proof.
  induction stream as [|[c1 c2] stream IH]; intros so se t Hle Ht.
  { exists [], [], t. rewrite !app_nil_r. unfold size_of in *. simpl. split_and!; try done; [lia|].
    replace (limit <? _) with false by (symmetry; apply Z.ltb_ge; lia). by rewrite orb_false_r. }
  rewrite capture_cons. cbv zeta.
  destruct (append_within limit so se (chunk_bytes c1) _ t Hle Ht eq_refl) as (E1 & F1 & L1 & P1 & A1 & N1).
  set (k1 := take _ (chunk_bytes c1)) in *. set (t1 := t || _) in *.
  rewrite size_of_comm in E1, F1.
  assert (size_of se (so ++ k1) <= limit) as H1 by lia.
  destruct (append_within limit se (so ++ k1) (chunk_bytes c2) _ t1 H1 F1 eq_refl) as (E2 & F2 & L2 & P2 & A2 & N2).
  set (k2 := take _ (chunk_bytes c2)) in *. set (t2 := t1 || _) in *.
  rewrite size_of_comm in E2, F2.
  destruct (IH (so ++ k1) (se ++ k2) t2) as (o & e & l & Hc & Ho & He & Hs & Hl & Hn); [lia|done|].
  exists (k1 ++ o), (k2 ++ e), l. rewrite Hc, !app_assoc. unfold produced in *. cbn [map mjoin list_join fst snd] in *.
  set (out := mjoin (map (fun c => chunk_bytes c.1) stream)) in *.
  set (err := mjoin (map (fun c => chunk_bytes c.2) stream)) in *.
  assert (size_of (so ++ k1) (se ++ k2) + size_of out err >= 0) as Hpos by (unfold size_of; lia).
  assert (forall a b x y, size_of (a ++ x) (b ++ y) = size_of a b + size_of x y) as Happ.
  { intros. unfold size_of. rewrite !length_app. lia. }
  split_and!; [done| | | | |].
  - destruct t2 eqn:E.
    + destruct (Hn eq_refl) as [-> _]. rewrite app_nil_r. etrans; [exact P1|]. by apply prefix_app_r.
    + unfold t2 in E. apply orb_false_iff in E as [E _]. rewrite (A1 E). by apply prefix_app.
  - destruct t2 eqn:E.
    + destruct (Hn eq_refl) as [_ ->]. rewrite app_nil_r. etrans; [exact P2|]. by apply prefix_app_r.
    + rewrite (A2 eq_refl). by apply prefix_app.
  - rewrite Hs, E2. unfold size_of in *. rewrite !length_app in *. lia.
  - rewrite Hl, L2, L1, E2. destruct t; [done|]. simpl. unfold size_of in *. rewrite !length_app in *.
    repeat match goal with |- context [?a <? ?b] => destruct (Z.ltb_spec a b) end; simpl; try done; lia.
  - intros ->. unfold t2 in Hn. simpl in Hn. destruct (Hn eq_refl) as [-> ->].
    split; [by rewrite (N1 eq_refl)|]. rewrite N2; [done|]. by unfold t1.
Qed.

(** C19: the output of a sandboxed command is bounded and honestly reported.
    Whatever chunks the container streams, the two captured outputs together
    hold exactly as many bytes as were produced, or [max_output_bytes] when
    that is less; each is a prefix of what its stream produced, and the
    result says [truncated] exactly when bytes were lost. *)
Theorem captured_output_bounded c stream :
  DockerSandboxConfig_new c = Ok c ->
  let '(stdout, stderr, truncated) := capture (sb_max_output_bytes c) stream [] [] false in
  let '(out, err) := produced stream in
  Z.of_nat (length stdout) + Z.of_nat (length stderr)
    = Z.min (sb_max_output_bytes c) (Z.of_nat (length out) + Z.of_nat (length err)) /\
  stdout `prefix_of` out /\ stderr `prefix_of` err /\
  (truncated = true <-> stdout <> out \/ stderr <> err).
Proof.
  intros Hc. assert (0 <= sb_max_output_bytes c) as Hlim.
  { unfold DockerSandboxConfig_new, checked in Hc. destruct (DockerSandboxConfig_fields c) eqn:E; [|done].
    unfold DockerSandboxConfig_fields in E. reflect. lia. }
  destruct (capture_spec (sb_max_output_bytes c) stream [] [] false) as (o & e & l & -> & Ho & He & Hs & Hl & _);
    [done|done|].
  destruct (produced stream) as [out err]. simpl in *. unfold size_of in *. simpl in *.
  split_and!; [done|done|done|]. subst l. rewrite Z.ltb_lt. destruct Ho as [x ->], He as [y ->].
  rewrite !length_app in *. split.
  - intros Hlt. destruct x; [|by left; intros E%(f_equal length); rewrite length_app in E; simpl in E; lia].
    right. intros E%(f_equal length). rewrite length_app in E. simpl in *. lia.
  - intros [Hne|Hne].
    + destruct x; [by rewrite app_nil_r in Hne|]. simpl in *. lia.
    + destruct y; [by rewrite app_nil_r in Hne|]. simpl in *. lia.
Qed.

(** ** What a session asks of its container *)

Section Contained.
Context {X : Type}.
Variable docker : Docker X.
Variable config : DockerSandboxConfig.
Variable decode : bytes -> string.
Variable base64 : bytes -> string.
Hypothesis config_ok : DockerSandboxConfig_new config = Ok config.

Abbreviation world := (SandboxWorld X).

(** A path at or below the workspace, without [".."]. *)
Definition inside (p : PurePath) : Prop :=
  exists rest, p = joinpath (workspace config) (mk_PurePath "" rest) /\ ".." ∉ pp_parts p.

Lemma workspace_clean : ".." ∉ pp_parts (workspace config).
Proof using config_ok.
  unfold DockerSandboxConfig_new, checked in config_ok. destruct (DockerSandboxConfig_fields config); [|done].
  simpl in config_ok. destruct (DockerSandboxConfig_validate config) as [[]|] eqn:E; [|done].
  unfold DockerSandboxConfig_validate in E. destruct (_ || _) eqn:Eb in E; [done|]. reflect. done.
Qed.

Lemma resolve_path_inside path p : resolve_path config path = Ok p -> inside p.
Proof using config_ok.
  unfold resolve_path. intros Hp.
  destruct (if is_absolute _ then _ else _) as [r|]; [|done].
  destruct (bool_decide _) eqn:E; [done|]. reflect. injection Hp as <-. exists (pp_parts r). split; [done|].
  simpl. intros [H|H]%elem_of_app; [by apply workspace_clean|done].
Qed.

(** The commands a call may give to the container. *)
Definition file_call (argv : list string) (environment : list (string * string)) : Prop :=
  exists p, inside p /\
    (argv = ["/bin/cat"; path_str p] /\ environment = [] \/
     argv = ["/bin/mkdir"; "-p"; path_str (parent p)] /\ environment = [] \/
     exists payload, argv = ["/bin/sh"; "-c"; write_script] /\
       environment = [("BASE_AGENT_CONTENT", base64 payload); ("BASE_AGENT_PATH", path_str p)] /\
       Z.of_nat (length payload) <= sb_max_file_bytes config).

Definition issued_by (c : sandbox_call) (argv : list string) (cwd : string)
  (environment : list (string * string)) : Prop :=
  (exists p, inside p /\ cwd = path_str p) /\
  match c with
  | CallExecute argv' _ environment' => argv = argv' /\ environment = environment'
  | CallReadText _ | CallWriteText _ _ _ => file_call argv environment
  | CallClose => False
  end.

(** *** What a code asks

    [asks P l may m]: the commands of [m] satisfy [P]; [l] is what it still
    has to do of closing the session; and when the session is closed by now,
    it gives a command only if [may], and then one. *)
Fixpoint asks {A} (P : list string -> string -> list (string * string) -> Prop) (l : list shutdown_call)
  (may : bool) (m : code A) : Prop :=
  match m with
  | Ret _ => l = []
  | IsClosed k => asks P l false (k true) /\ asks P l true (k false)
  | MarkClosed k => l = [] /\ asks P [] may (k true) /\ asks P [Remove; CloseClient] may (k false)
  | Acquire k => forall b, asks P l may (k b)
  | Release m => asks P l may m
  | Command argv cwd environment k =>
      may = true /\ P argv cwd environment /\ forall r, asks P l false (k r)
  | Shutdown c k => exists l', l = c :: l' /\ forall o, asks P l' may (k o)
  end.

Lemma asks_may {A} P (m : code A) : forall l, asks P l false m -> asks P l true m.
Proof.
  induction m as [o|k IH|k IH|k IH|m IH|argv cwd env k IH|c k IH]; simpl; intros l; try naive_solver.
Qed.

Lemma asks_after {A B} P (m : code A) (k : outcome A -> code B) : forall l may,
  asks P l may m -> (forall o, asks P [] false (k o)) -> asks P l may (after_code m k).
Proof.
  induction m as [o|f IH|f IH|f IH|m IH|argv cwd env f IH|c f IH]; simpl; intros l may Hm Hk.
  - subst l. destruct may; [apply asks_may|]; apply Hk.
  - destruct Hm. split; by apply IH.
  - destruct Hm as (-> & ? & ?). split_and!; [done|by apply IH..].
  - intros b. by apply IH.
  - by apply IH.
  - destruct Hm as (-> & ? & ?). split_and!; [done..|]. intros r. by apply IH.
  - destruct Hm as (l' & -> & ?). exists l'. split; [done|]. intros o. by apply IH.
Qed.

Lemma asks_close P may : asks P [] may session_close.
Proof. simpl. split_and!; [done|done|]. eexists. split; [done|]. intros _. by eexists. Qed.

Lemma asks_session_abandon {A} P may e : asks P [] may (session_abandon e : code A).
Proof. unfold session_abandon. apply asks_after; [apply asks_close|done]. Qed.

Lemma asks_execute argv cwd environment (P : list string -> string -> list (string * string) -> Prop) :
  (forall p, inside p -> P argv (path_str p) environment) ->
  asks P [] false (session_execute config decode argv cwd environment).
Proof using config_ok.
  intros HP. unfold session_execute. simpl. split; [done|]. destruct (_ || _); [done|].
  destruct (resolve_path config cwd) as [p|] eqn:Ep; [|done]. simpl. intros [].
  2: apply asks_session_abandon.
  simpl. split_and!; [done|by eapply HP, resolve_path_inside|].
  intros [code stream| | |e]; [|apply asks_session_abandon..|].
  - by destruct (capture _ _ _ _ _) as [[? ?] ?].
  - destruct (_ || _); [apply asks_session_abandon|done].
Qed.

Lemma asks_file_command argv environment what path c :
  file_call argv environment -> match c with CallReadText _ | CallWriteText _ _ _ => True | _ => False end ->
  asks (issued_by c) [] false (file_command config decode argv environment what path).
Proof using config_ok.
  intros Hf Hc. apply asks_after; [|done]. apply asks_execute. intros p Hp. split; [by exists p|by destruct c].
Qed.

Lemma asks_read_text path c :
  match c with CallReadText _ | CallWriteText _ _ _ => True | _ => False end ->
  asks (issued_by c) [] false (session_read_text config decode path).
Proof using config_ok.
  intros Hc. unfold session_read_text. destruct (resolve_path config path) as [p|] eqn:Ep; [|done].
  apply asks_after; [|done]. apply asks_file_command; [|done]. exists p.
  split; [by eapply resolve_path_inside|by left].
Qed.

Lemma asks_write_payload path resolved payload c :
  inside resolved -> match c with CallWriteText _ _ _ => True | _ => False end ->
  asks (issued_by c) [] false (write_payload config decode base64 path resolved payload).
Proof using config_ok.
  intros Hin Hc. unfold write_payload. destruct (_ <? _) eqn:Es; [done|]. reflect.
  apply asks_after.
  { apply asks_file_command; [|by destruct c]. exists resolved. split; [done|by right; left]. }
  intros [u|e]; [|done]. apply asks_after; [|done]. apply asks_file_command; [|by destruct c].
  exists resolved. split; [done|]. right; right. by exists payload.
Qed.

(** Each call asks what it may, and has nothing to close at its start. *)
Lemma asks_call c : asks (issued_by c) [] false (sandbox_code config decode base64 c).
Proof using config_ok.
  destruct c as [argv cwd environment|path|path content append|]; simpl sandbox_code.
  - apply asks_after; [|done]. apply asks_execute. intros p Hp. split; [by exists p|done].
  - apply asks_after; [|done]. by apply asks_read_text.
  - unfold session_write_text. simpl. split; [done|].
    destruct (resolve_path config path) as [p|] eqn:Ep; [|done]. apply resolve_path_inside in Ep.
    apply asks_may, asks_after.
    + destruct append; [|done]. apply asks_after; [|done]. by apply asks_read_text.
    + intros [payload|e]; [|done]. by apply asks_write_payload.
  - apply asks_close.
Qed.

(** A task that waits for a thread has handed its call over. *)
Definition task_asks P l may (p : code unit * option nat) : Prop :=
  match p with
  | (Command _ _ _ k, Some _) => forall r, asks P l may (k r)
  | (Shutdown _ k, Some _) => forall o, asks P l may (k o)
  | (m, _) => asks P l may m
  end.

Lemma asks_task P l may m : asks P l may m -> task_asks P l may (m, None).
Proof. by destruct m. Qed.
End Contained.

(** *** The calls Docker gets *)

Definition shuts (l : list docker_call) : list shutdown_call :=
  omap (fun c => match c with Shut c => Some c | _ => None end) l.

Definition is_exec (c : docker_call) : bool := match c with Exec _ _ _ => true | _ => false end.
Definition job_done (b : job) : bool := match job_reply b with Some _ => true | None => false end.
Definition pending_exec (b : job) : bool := negb (job_done b) && is_exec (job_call b).
Definition returned (p : code unit * option nat) : bool := match p.1 with Ret _ => true | _ => false end.

Definition count {A} (f : A -> bool) (l : list A) : nat := length (List.filter f l).

Lemma count_app {A} (f : A -> bool) l1 l2 : count f (l1 ++ l2) = (count f l1 + count f l2)%nat.
Proof. unfold count. by rewrite List.filter_app, length_app. Qed.

Lemma count_cons {A} (f : A -> bool) a l : count f (a :: l) = (Nat.b2n (f a) + count f l)%nat.
Proof. unfold count. simpl. by destruct (f a). Qed.

Lemma count_insert {A} (f : A -> bool) l t a a' :
  l !! t = Some a -> (count f (<[t := a']> l) + Nat.b2n (f a) = count f l + Nat.b2n (f a'))%nat.
Proof.
  intros Ht. pose proof (lookup_lt_Some _ _ _ Ht) as Hlt.
  rewrite <-(take_drop_middle l t a Ht) at 2. rewrite insert_take_drop by done.
  rewrite !count_app, !count_cons. lia.
Qed.

Lemma done_insert jobs j c r :
  jobs !! j = Some (mk_job c None) ->
  map job_call (List.filter job_done (<[j := mk_job c (Some r)]> jobs))
  ≡ₚ c :: map job_call (List.filter job_done jobs).
Proof.
  intros Hj. pose proof (lookup_lt_Some _ _ _ Hj) as Hlt.
  rewrite <-(take_drop_middle jobs j _ Hj) at 2. rewrite insert_take_drop by done.
  rewrite !List.filter_app, !map_app. simpl. by rewrite Permutation_middle.
Qed.

(** *** The invariant *)

(** Who closes the session: nobody, or one task, once. *)
Definition closing (closed : bool) (submitted : list shutdown_call) (owed : list (list shutdown_call)) : Prop :=
  if closed then
    exists t l, submitted ++ l = [Remove; CloseClient] /\ owed !! t = Some l /\
      forall t' l', owed !! t' = Some l' -> t' <> t -> l' = []
  else submitted = [] /\ forall t l, owed !! t = Some l -> l = [].

Section Invariant.
Context {X : Type}.
Variable docker : Docker X.
Variable config : DockerSandboxConfig.
Variable decode : bytes -> string.
Variable base64 : bytes -> string.
Hypothesis config_ok : DockerSandboxConfig_new config = Ok config.

Abbreviation world := (SandboxWorld X).
Abbreviation step := (sandbox_step docker config decode base64).
Abbreviation issued c := (issued_by config base64 c).

(** What the tasks still owe to the closing, and whether they may give one
    more command. *)
Abbreviation ghost := (list (list shutdown_call * bool)).

Record contained (calls : list sandbox_call) (w : world) (g : ghost) : Prop := {
  ct_tasks : Forall2 (fun p a => exists c, c ∈ calls /\ task_asks (issued c) a.1 a.2 p) (sw_tasks w) g;
  ct_jobs : forall argv cwd env, Exec argv cwd env ∈ map job_call (ss_jobs (sw_session w)) ->
    exists c, c ∈ calls /\ issued c argv cwd env;
  ct_closing : closing (ss_closed (sw_session w)) (shuts (map job_call (ss_jobs (sw_session w)))) (map fst g);
  ct_calls : ss_calls (sw_session w) ≡ₚ map job_call (List.filter job_done (ss_jobs (sw_session w)));
}.

(** The commands that a closed session may still give, and those it gave. *)
Definition allowance (w : world) (g : ghost) : nat :=
  count is_exec (ss_calls (sw_session w)) + count pending_exec (ss_jobs (sw_session w)) + count snd g.

(** One step: the invariant holds, and once the session is closed no more
    commands are allowed than before. *)
Definition advances (calls : list sandbox_call) (w w' : world) (g : ghost) : Prop :=
  exists g', contained calls w' g' /\
    (ss_closed (sw_session w) = true ->
     ss_closed (sw_session w') = true /\ (allowance w' g' <= allowance w g)%nat) /\
    exists more, ss_calls (sw_session w') = ss_calls (sw_session w) ++ more.

Lemma advances_same calls w g : contained calls w g -> advances calls w w g.
Proof. intros Hc. exists g. split_and!; [done|done|]. exists []. by rewrite app_nil_r. Qed.

Lemma closing_same closed submitted ls t l :
  closing closed submitted ls -> ls !! t = Some l -> closing closed submitted (<[t := l]> ls).
Proof. intros Hc Ht. by rewrite list_insert_id. Qed.

Lemma ghost_of calls w g t p :
  contained calls w g -> sw_tasks w !! t = Some p ->
  exists l may, g !! t = Some (l, may) /\ exists c, c ∈ calls /\ task_asks (issued c) l may p.
Proof.
  intros Hc Ht. destruct (Forall2_lookup_l _ _ _ _ _ (ct_tasks _ _ _ Hc) Ht) as ([l may] & Hg & Hp).
  by exists l, may.
Qed.

(** A task goes on; neither Docker nor the closing is concerned. *)
Lemma advances_quiet calls w g t l may may' p' locked c :
  contained calls w g -> g !! t = Some (l, may) -> c ∈ calls -> task_asks (issued c) l may' p' ->
  (ss_closed (sw_session w) = true -> may' = true -> may = true) ->
  advances calls w (mk_SandboxWorld (set_locked locked (sw_session w)) (<[t := p']> (sw_tasks w))) g.
Proof.
  intros [C1 C2 C3 C4] Hg Hc Hp Hm. exists (<[t := (l, may')]> g). split_and!.
  - split; [|done| |done]; simpl.
    + apply Forall2_insert; [done|]. by exists c.
    + rewrite list_fmap_insert. apply closing_same; [done|]. by rewrite list_lookup_fmap, Hg.
  - intros Hcl. split; [done|]. unfold allowance. simpl.
    pose proof (count_insert snd g t _ (l, may') Hg) as Hn. simpl in Hn.
    specialize (Hm Hcl). destruct may', may; simpl in Hn; [lia|by specialize (Hm eq_refl)|lia|lia].
  - exists []. by rewrite app_nil_r.
Qed.

Lemma set_locked_id (s : SandboxSession X) : set_locked (ss_locked s) s = s.
Proof. by destruct s. Qed.

Lemma advances_quiet_same calls w g t l may may' p' c :
  contained calls w g -> g !! t = Some (l, may) -> c ∈ calls -> task_asks (issued c) l may' p' ->
  (ss_closed (sw_session w) = true -> may' = true -> may = true) ->
  advances calls w (mk_SandboxWorld (sw_session w) (<[t := p']> (sw_tasks w))) g.
Proof.
  intros Hc Hg Hin Hp Hm. rewrite <-(set_locked_id (sw_session w)). by eapply advances_quiet.
Qed.

(** The first to close the session owes its end. *)
Lemma advances_mark calls w g t may p' c :
  contained calls w g -> g !! t = Some ([], may) -> c ∈ calls -> ss_closed (sw_session w) = false ->
  task_asks (issued c) [Remove; CloseClient] may p' ->
  advances calls w (mk_SandboxWorld (set_closed (sw_session w)) (<[t := p']> (sw_tasks w))) g.
Proof.
  intros [C1 C2 C3 C4] Hg Hc Hcl Hp. exists (<[t := ([Remove; CloseClient], may)]> g). split_and!.
  - split; [|done| |done]; simpl.
    + apply Forall2_insert; [done|]. by exists c.
    + rewrite Hcl in C3. destruct C3 as [-> Hall]. exists t, [Remove; CloseClient]. split; [done|].
      rewrite list_fmap_insert. split.
      * rewrite list_lookup_insert_eq; [done|]. rewrite length_map. by eapply lookup_lt_Some.
      * intros t' l' Ht' Hne. rewrite list_lookup_insert_ne in Ht' by done. by eapply Hall.
  - congruence.
  - exists []. by rewrite app_nil_r.
Qed.

(** A command is handed to a thread. *)
Lemma advances_command calls w g t l p' argv cwd env c :
  contained calls w g -> g !! t = Some (l, true) -> c ∈ calls -> issued c argv cwd env ->
  task_asks (issued c) l false p' ->
  advances calls w (mk_SandboxWorld (submit (Exec argv cwd env) (sw_session w)) (<[t := p']> (sw_tasks w))) g.
Proof.
  intros [C1 C2 C3 C4] Hg Hc Hi Hp. exists (<[t := (l, false)]> g). split_and!.
  - split; simpl.
    + apply Forall2_insert; [done|]. by exists c.
    + intros argv' cwd' env'. rewrite map_app, elem_of_app. intros [Hj|Hj]; [by apply C2|].
      simpl in Hj. apply list_elem_of_singleton in Hj. injection Hj as -> -> ->. by exists c.
    + rewrite list_fmap_insert, map_app. unfold shuts. rewrite omap_app. simpl. rewrite app_nil_r.
      apply closing_same; [done|]. by rewrite list_lookup_fmap, Hg.
    + by rewrite List.filter_app, app_nil_r.
  - intros Hcl. split; [done|]. unfold allowance. simpl. rewrite count_app. cbn.
    pose proof (count_insert snd g t _ (l, false) Hg) as Hn. simpl in Hn. lia.
  - exists []. by rewrite app_nil_r.
Qed.

(** A call of the closing is handed to a thread. *)
Lemma advances_shutdown calls w g t k l may p' c :
  contained calls w g -> g !! t = Some (k :: l, may) -> c ∈ calls -> task_asks (issued c) l may p' ->
  advances calls w (mk_SandboxWorld (submit (Shut k) (sw_session w)) (<[t := p']> (sw_tasks w))) g.
Proof.
  intros [C1 C2 C3 C4] Hg Hc Hp. exists (<[t := (l, may)]> g).
  assert (map fst g !! t = Some (k :: l)) as Ho by by rewrite list_lookup_fmap, Hg.
  split_and!.
  - split; simpl.
    + apply Forall2_insert; [done|]. by exists c.
    + intros argv' cwd' env'. rewrite map_app, elem_of_app. intros [Hj|Hj]; [by apply C2|].
      simpl in Hj. by apply list_elem_of_singleton in Hj.
    + rewrite list_fmap_insert, map_app. unfold shuts. rewrite omap_app. simpl.
      destruct (ss_closed (sw_session w)); [|by destruct C3 as [_ Hall]; specialize (Hall t _ Ho)].
      destruct C3 as (t0 & l0 & Hl & Ht0 & Hall).
      destruct (decide (t = t0)) as [->|Hne]; [|by specialize (Hall t _ Ho Hne)].
      rewrite Ho in Ht0. injection Ht0 as <-. exists t0, l. split; [by rewrite <-app_assoc|].
      split; [rewrite list_lookup_insert_eq; [done|by eapply lookup_lt_Some]|].
      intros t' l' Ht' Hne. rewrite list_lookup_insert_ne in Ht' by done. by eapply Hall.
    + by rewrite List.filter_app, app_nil_r.
  - intros Hcl. split; [done|]. unfold allowance. simpl. rewrite count_app. cbn.
    pose proof (count_insert snd g t _ (l, may) Hg) as Hn. simpl in Hn. lia.
  - exists []. by rewrite app_nil_r.
Qed.

Lemma advances_thread calls w g j :
  contained calls w g -> advances calls w (step w (Thread j)) g.
Proof.
  intros Hc. simpl. unfold run_job.
  destruct (ss_jobs (sw_session w) !! j) as [[c [r|]]|] eqn:Hj;
    [destruct w; by apply advances_same| |destruct w; by apply advances_same].
  destruct Hc as [C1 C2 C3 C4]. destruct (run_docker docker c _) as [x r]. exists g.
  assert (map job_call (<[j := mk_job c (Some r)]> (ss_jobs (sw_session w)))
          = map job_call (ss_jobs (sw_session w))) as Hmap.
  { rewrite list_fmap_insert. apply list_insert_id. by rewrite list_lookup_fmap, Hj. }
  split_and!.
  - split; simpl; [done|by rewrite Hmap|by rewrite Hmap|].
    rewrite done_insert by done. by rewrite C4, Permutation_app_comm.
  - intros Hcl. split; [done|]. unfold allowance. simpl. rewrite count_app, count_cons.
    pose proof (count_insert pending_exec _ j _ (mk_job c (Some r)) Hj) as Hn. cbn in Hn |- *. lia.
  - by exists [c].
Qed.

Lemma advances_goes_on calls w g t l may may' m locked c :
  contained calls w g -> g !! t = Some (l, may) -> c ∈ calls -> asks (issued c) l may' m ->
  (ss_closed (sw_session w) = true -> may' = true -> may = true) ->
  advances calls w (mk_SandboxWorld (set_locked locked (sw_session w)) (<[t := (m, None)]> (sw_tasks w))) g.
Proof. intros Hc Hg Hin Hm Hmay. eapply advances_quiet; try done. by apply asks_task. Qed.

Lemma advances_turn calls w g t :
  contained calls w g -> advances calls w (step w (Turn t)) g.
Proof.
  intros Hc. simpl. destruct (sw_tasks w !! t) as [p|] eqn:Ht; [|by apply advances_same].
  destruct (ghost_of _ _ _ _ _ Hc Ht) as (l & may & Hg & c & Hin & Hp).
  assert (forall m may', asks (issued c) l may' m ->
            (ss_closed (sw_session w) = true -> may' = true -> may = true) ->
            advances calls w (mk_SandboxWorld (sw_session w) (<[t := (m, None)]> (sw_tasks w))) g) as Hon.
  { intros m may' Hm Hmay. rewrite <-(set_locked_id (sw_session w)). by eapply advances_goes_on. }
  assert (advances calls w (mk_SandboxWorld (sw_session w) (<[t := p]> (sw_tasks w))) g) as Hsame
    by by eapply advances_quiet_same.
  destruct p as [[o|k|k|k|m|argv cwd env k|k f] [j|]]; cbn beta iota delta [task_step]; try exact Hsame;
    simpl in Hp.
  1,2: destruct Hp as [Hp1 Hp2]; destruct (ss_closed (sw_session w)) eqn:Ecl;
       [by apply (Hon _ false)|by apply (Hon _ true)].
  1,2: destruct Hp as (-> & Hp1 & Hp2); destruct (ss_closed (sw_session w)) eqn:Ecl;
       [replace (set_closed (sw_session w)) with (sw_session w)
          by (unfold set_closed; rewrite <-Ecl; by destruct (sw_session w)); by apply (Hon _ may)
       |eapply advances_mark; try done; by apply asks_task].
  1,2: destruct (ss_locked (sw_session w)); [exact Hsame|by eapply advances_goes_on].
  1,2: by eapply advances_goes_on.
  - destruct (replied _ j) as [[[[ec st]|e]|o]|]; try exact Hsame; by apply (Hon _ may).
  - destruct Hp as (-> & Hi & Hk). by eapply advances_command.
  - destruct (replied _ j) as [[o|o]|]; try exact Hsame. by apply (Hon _ may).
  - destruct Hp as (l' & -> & Hk). by eapply advances_shutdown.
Qed.

Lemma advances_alter calls w g t f :
  contained calls w g ->
  (forall P l may p, task_asks P l may p -> task_asks P l may (f p)) ->
  advances calls w (mk_SandboxWorld (sw_session w) (alter f t (sw_tasks w))) g.
Proof.
  intros Hc Hf. exists g. destruct Hc as [C1 C2 C3 C4]. split_and!.
  - split; [|done..]. simpl. apply Forall2_alter_l; [done|]. intros p a _ _ (c & Hc & Hp). exists c. auto.
  - done.
  - exists []. by rewrite app_nil_r.
Qed.

Lemma expired_asks P l may p : task_asks P l may p -> task_asks P l may (task_expired p).
Proof. destruct p as [[] []]; simpl; intros Hp; first [exact Hp|by apply asks_task]. Qed.

Lemma cancelled_asks P l may p : task_asks P l may p -> task_asks P l may (task_cancelled p).
Proof. destruct p as [[] []]; simpl; intros Hp; first [exact Hp|by apply asks_task]. Qed.

Lemma contained_more calls c w g : contained calls w g -> contained (calls ++ [c]) w g.
Proof.
  intros [C1 C2 C3 C4]. split; [|intros argv cwd env Hj|done|done].
  - eapply Forall2_impl; [exact C1|]. intros p a (c' & Hc & Hp). exists c'. split; [|done].
    apply elem_of_app. by left.
  - destruct (C2 _ _ _ Hj) as (c' & Hc & Hi). exists c'. split; [|done]. apply elem_of_app. by left.
Qed.

Lemma advances_begin calls w g c :
  contained calls w g -> advances (calls ++ [c]) w (step w (Begin c)) g.
Proof using config_ok.
  intros Hc. apply (contained_more _ c) in Hc. destruct Hc as [C1 C2 C3 C4].
  exists (g ++ [([], false)]). split_and!.
  - split; [|done| |done]; simpl.
    + apply Forall2_app; [done|]. constructor; [|constructor]. exists c.
      split; [apply elem_of_app; right; by left|]. pose proof (asks_call config decode base64 config_ok c) as Ha.
      by apply asks_task.
    + rewrite map_app. simpl. unfold closing in *.
      assert (forall t l', (map fst g ++ [[]]) !! t = Some l' -> map fst g !! t = Some l' \/ l' = []) as Hlook.
      { intros t l' Hl. apply lookup_app_Some in Hl as [Hl|[_ Hl]]; [by left|right].
        destruct (t - length (map fst g))%nat; [by injection Hl as <-|done]. }
      destruct (ss_closed (sw_session w)).
      * destruct C3 as (t0 & l0 & Hs & Ht0 & Hall). exists t0, l0. split; [done|].
        split; [by apply lookup_app_l_Some|]. intros t' l' Hl Hne. destruct (Hlook _ _ Hl); [by eapply Hall|done].
      * destruct C3 as [Hs Hall]. split; [done|]. intros t l' Hl. destruct (Hlook _ _ Hl); [by eapply Hall|done].
  - intros Hcl. split; [done|]. unfold allowance. simpl. rewrite count_app. cbn. lia.
  - exists []. by rewrite app_nil_r.
Qed.

Definition begun (es : list sandbox_event) : list sandbox_call :=
  omap (fun e => match e with Begin c => Some c | _ => None end) es.

Lemma step_advances es w g e :
  contained (begun es) w g -> advances (begun (es ++ [e])) w (step w e) g.
Proof using config_ok.
  intros Hc. unfold begun. rewrite omap_app. fold (begun es). destruct e as [c|t|j|t|t]; simpl omap;
    rewrite ?app_nil_r.
  - by apply advances_begin.
  - by apply advances_turn.
  - by apply advances_thread.
  - apply advances_alter; [done|]. intros. by apply expired_asks.
  - apply advances_alter; [done|]. intros. by apply cancelled_asks.
Qed.

Lemma run_advances es' : forall es w g,
  contained (begun es) w g -> advances (begun (es ++ es')) w (sandbox_run docker config decode base64 w es') g.
Proof using config_ok.
  induction es' as [|e es' IH]; intros es w g Hc; [rewrite app_nil_r; by apply advances_same|].
  destruct (step_advances es w g e Hc) as (g1 & Hc1 & Ha1 & more1 & Hm1).
  destruct (IH (es ++ [e]) _ g1 Hc1) as (g2 & Hc2 & Ha2 & more2 & Hm2). rewrite <-app_assoc in Hc2.
  exists g2. split_and!; [done| |].
  - intros Hcl. destruct (Ha1 Hcl) as [Hcl1 Hle1]. destruct (Ha2 Hcl1) as [Hcl2 Hle2].
    split; [done|]. etrans; [exact Hle2|exact Hle1].
  - exists (more1 ++ more2). simpl. by rewrite Hm2, Hm1, app_assoc.
Qed.

Lemma opened_contained x : contained (begun []) (opened x) [].
Proof.
  split; simpl; [constructor|by intros ? ? ? ?%elem_of_nil| |done]. split; [done|]. by intros t l.
Qed.
End Invariant.

(** ** Properties *)

Section Guarantees.
Context {X : Type}.
Variable docker : Docker X.
Variable config : DockerSandboxConfig.
Variable decode : bytes -> string.
Variable base64 : bytes -> string.
Hypothesis config_ok : DockerSandboxConfig_new config = Ok config.

Abbreviation world := (SandboxWorld X).
Abbreviation run := (sandbox_run docker config decode base64).

(** The calls that have not returned, and the commands that a thread has
    still to give. *)
Definition under_way (w : world) : nat :=
  count (fun p => negb (returned p)) (sw_tasks w) + count pending_exec (ss_jobs (sw_session w)).

(** Every call has returned and every thread has run. *)
Definition at_rest (w : world) : Prop :=
  Forall (fun p => returned p = true) (sw_tasks w) /\
  Forall (fun b => job_done b = true) (ss_jobs (sw_session w)).

(** A call that returned gives no command. *)
Lemma returned_ghost calls (w : world) g :
  contained config base64 calls w g ->
  exists g', contained config base64 calls w g' /\
    (count snd g' <= count (fun p => negb (returned p)) (sw_tasks w))%nat.
Proof.
  intros [C1 C2 C3 C4].
  exists (zip_with (fun p (a : list shutdown_call * bool) => (a.1, negb (returned p) && a.2)) (sw_tasks w) g).
  assert (map fst (zip_with (fun p (a : list shutdown_call * bool) => (a.1, negb (returned p) && a.2)) (sw_tasks w) g)
          = map fst g) as Hfst.
  { clear C2 C3 C4. revert g C1. induction (sw_tasks w) as [|p ps IH]; intros g C1.
    - by apply Forall2_nil_inv_l in C1 as ->.
    - apply Forall2_cons_inv_l in C1 as (a & g' & _ & C1 & ->). simpl. by rewrite IH. }
  split; [split; [|done|by rewrite Hfst|done]|]; clear -C1; revert g C1; induction (sw_tasks w) as [|p ps IH];
    intros g C1.
  - constructor.
  - apply Forall2_cons_inv_l in C1 as (a & g' & (c & Hc & Hp) & C1 & ->). simpl. constructor; [|by apply IH].
    exists c. split; [done|]. simpl. destruct p as [[] []]; exact Hp.
  - unfold count. simpl. lia.
  - apply Forall2_cons_inv_l in C1 as (a & g' & _ & C1 & ->). simpl zip_with. rewrite !count_cons.
    specialize (IH g' C1). simpl. destruct (returned p), a.2; simpl; lia.
Qed.

Lemma closing_due closed submitted owed :
  closing closed submitted owed ->
  exists rest, submitted ++ rest = (if closed then [Remove; CloseClient] else []) /\
    ((forall t l, owed !! t = Some l -> l = []) -> rest = []).
Proof.
  unfold closing. destruct closed; [intros (t & l & Hs & Hl & _); exists l|intros [-> _]; by exists []].
  split; [done|]. intros Hall. by apply (Hall t).
Qed.

(** The calls Docker got and those it still gets. *)
Lemma jobs_split (jobs : list job) :
  map job_call jobs ≡ₚ map job_call (List.filter job_done jobs)
    ++ map job_call (List.filter (fun b => negb (job_done b)) jobs).
Proof.
  induction jobs as [|b jobs IH]; [done|]. simpl. destruct (job_done b); simpl; [by rewrite IH|].
  by rewrite IH, Permutation_middle.
Qed.

Lemma shuts_app l1 l2 : shuts (l1 ++ l2) = shuts l1 ++ shuts l2.
Proof. apply omap_app. Qed.

Lemma shuts_perm l1 l2 : l1 ≡ₚ l2 -> shuts l1 ≡ₚ shuts l2.
Proof.
  unfold shuts. induction 1 as [|c l1 l2 _ IH|c1 c2 l|l1 l2 l3 _ IH1 _ IH2]; simpl.
  - done.
  - destruct c; [done|by constructor].
  - destruct c1, c2; try done. constructor.
  - by etrans.
Qed.

Lemma at_rest_owes calls (w : world) g :
  contained config base64 calls w g -> at_rest w -> forall t l, map fst g !! t = Some l -> l = [].
Proof.
  intros Hc [Hr _] t l Hl. apply list_lookup_fmap_Some in Hl as ([l' may] & -> & Hg).
  destruct (Forall2_lookup_r _ _ _ _ _ (ct_tasks _ _ _ _ _ Hc) Hg) as (p & Hp & c & _ & Ha).
  rewrite Forall_lookup in Hr. specialize (Hr _ _ Hp). destruct p as [[] []]; done.
Qed.

(** C9: a sandbox session is contained.  Whatever calls are made of it, also
    at the same time, however their steps interleave, commands expire and
    calls are cancelled, and whatever Docker answers: every command given to
    the container runs in the workspace and was asked for by [execute] as it
    is, or is one of the three commands of the file operations, on a path at
    or below the workspace without [".."] (or the directory above it, for
    mkdir), writing at most [max_file_bytes].  Only a closed session removes
    the container and closes the client, each once, and has done so when
    every call returned and every thread ran.  Once the session is closed -
    by [close], a timeout or a cancellation - it gives no command but those
    that were under way: at most one for each call that had not returned, and
    those already handed to a thread. *)
Theorem sandbox_session_contained (x : X) es es' :
  let w := run (opened x) es in
  let w' := run w es' in
  let s := sw_session w in
  (forall argv cwd env, Exec argv cwd env ∈ ss_calls s ->
     exists c, Begin c ∈ es /\ issued_by config base64 c argv cwd env) /\
  (exists rest, shuts (ss_calls s) ++ rest ≡ₚ (if ss_closed s then [Remove; CloseClient] else []) /\
     (at_rest w -> rest = [])) /\
  (ss_closed s = true ->
     ss_closed (sw_session w') = true /\
     exists more, ss_calls (sw_session w') = ss_calls s ++ more /\ (count is_exec more <= under_way w)%nat).
Proof using config_ok.
  intros w w' s.
  destruct (run_advances docker config decode base64 config_ok es [] _ _ (opened_contained _ _ x))
    as (g & Hc & _ & _). simpl app in Hc. fold w in Hc. split; [|split].
  - intros argv cwd env Hin. pose proof (ct_calls _ _ _ _ _ Hc) as Hperm. fold s in Hperm. rewrite Hperm in Hin. apply list_elem_of_fmap in Hin as (b & Hb & Hin).
    destruct (ct_jobs _ _ _ _ _ Hc argv cwd env) as (c & Hcs & Hi).
    { rewrite Hb. apply list_elem_of_fmap_2. apply list_elem_of_In, filter_In in Hin as [Hin _].
      by apply list_elem_of_In. }
    exists c. split; [|done]. apply list_elem_of_omap in Hcs as ([] & He & [= ->]). done.
  - destruct (closing_due _ _ _ (ct_closing _ _ _ _ _ Hc)) as (rest & Hrest & Hdone).
    exists (shuts (map job_call (List.filter (fun b => negb (job_done b)) (ss_jobs s))) ++ rest). split.
    + pose proof (shuts_perm _ _ (ct_calls _ _ _ _ _ Hc)) as Hperm. fold s in Hperm.
      rewrite Hperm, app_assoc, <-shuts_app.
      rewrite <-(shuts_perm _ _ (jobs_split _)). fold s in Hrest. by rewrite Hrest.
    + intros Hrw. rewrite (Hdone (at_rest_owes _ _ _ Hc Hrw)), app_nil_r. destruct Hrw as [_ Hjobs].
      assert (List.filter (fun b => negb (job_done b)) (ss_jobs s) = []) as Hnone.
      { fold s in Hjobs. induction Hjobs as [|b bs Hb _ IH]; [done|]. simpl. by rewrite Hb. }
      by rewrite Hnone.
  - intros Hcl. destruct (returned_ghost _ _ _ Hc) as (g0 & Hc0 & Hn).
    destruct (run_advances docker config decode base64 config_ok es' es w g0 Hc0) as (g' & _ & Ha & more & Hm).
    destruct (Ha Hcl) as [Hcl' Hle]. split; [done|]. exists more. split; [done|].
    unfold allowance in Hle. fold w' in Hle, Hm. rewrite Hm, count_app in Hle. unfold under_way. fold s in Hle |- *. lia.
Qed.
End Guarantees.

(** *** Instances *)

Definition sandbox_config : DockerSandboxConfig :=
  mk_DockerSandboxConfig "python:3.12" "/workspace" "65534:65534" false true (inl "512m") 1000000000 128 64
    60 1024 1000000.

(** A container that answers every command. *)
Definition willing : Docker nat :=
  mk_Docker nat (fun _ _ _ n => (S n, Ok (0, [(Some [Ascii.ascii_of_N 111], None)])))
    (fun n => (n, Ok tt)) (fun n => (n, Ok tt)).

Definition plain_decode (b : bytes) : string := String.string_of_list_ascii b.

Lemma captured_output_bounded_witness :
  DockerSandboxConfig_new sandbox_config = Ok sandbox_config /\
  (let '(stdout, stderr, truncated) :=
     capture (sb_max_output_bytes sandbox_config)
       [(Some (repeat (Ascii.ascii_of_N 111) 1000), Some (repeat (Ascii.ascii_of_N 101) 30)); (Some (repeat (Ascii.ascii_of_N 111) 5), None)] [] [] false in
   Z.of_nat (length stdout) + Z.of_nat (length stderr) = 1024 /\ truncated = true).
Proof.
  assert (DockerSandboxConfig_new sandbox_config = Ok sandbox_config) as Hc by (vm_compute; reflexivity).
  split; [exact Hc|].
  pose proof (captured_output_bounded sandbox_config
    [(Some (repeat (Ascii.ascii_of_N 111) 1000), Some (repeat (Ascii.ascii_of_N 101) 30)); (Some (repeat (Ascii.ascii_of_N 111) 5), None)] Hc) as Hb.
  destruct (capture _ _ _ _ _) as [[stdout stderr] truncated] eqn:E.
  destruct (produced _) as [out err] eqn:Ep. destruct Hb as (Hlen & _ & _ & _).
  split; [|by vm_compute in E; injection E as _ _ <-].
  vm_compute in Ep. injection Ep as <- <-. rewrite Hlen. vm_compute. reflexivity.
Defined.

(** A reading, a rejected path, and a writing whose last command expires,
    one call after the other. *)
Definition sandbox_events : list sandbox_event :=
  [Begin (CallReadText "notes/a.txt"); Turn 0; Turn 0; Turn 0; Thread 0; Turn 0; Turn 0;
   Begin (CallReadText "../etc/passwd"); Turn 1;
   Begin (CallWriteText "/workspace/b.txt" "hi" false); Turn 2; Turn 2; Turn 2; Turn 2; Thread 1; Turn 2; Turn 2;
   Turn 2; Turn 2; Turn 2; Thread 2; Expire 2; Turn 2; Turn 2; Turn 2; Thread 3; Turn 2; Turn 2; Thread 4; Turn 2]%nat.

Definition sandbox_example (es : list sandbox_event) : SandboxWorld nat :=
  sandbox_run willing sandbox_config plain_decode plain_decode (opened 0%nat) es.

(** Two commands are asked for at the same time and both find the session
    open; the first is cancelled, which closes the session; the second one
    gets the lock after that and runs. *)
Definition queued_events : list sandbox_event :=
  [Begin (CallExecute ["sleep"; "9"] "." []); Begin (CallExecute ["rm"; "x"] "." []); Turn 0; Turn 1; Turn 0; Turn 0;
   Thread 0; Cancel 0; Turn 0; Turn 0; Turn 0; Thread 1; Turn 0; Turn 0; Thread 2; Turn 0]%nat.

Example queued_command_runs_after_close :
  ss_closed (sw_session (sandbox_example queued_events)) = true /\
  ss_calls (sw_session (sandbox_example (queued_events ++ [Turn 1; Turn 1; Thread 3]%nat))) =
    [Exec ["sleep"; "9"] "/workspace" []; Shut Remove; Shut CloseClient; Exec ["rm"; "x"] "/workspace" []].
Proof. vm_compute. done. Qed.

Lemma sandbox_session_contained_witness :
  ss_calls (sw_session (sandbox_example sandbox_events)) =
    [Exec ["/bin/cat"; "/workspace/notes/a.txt"] "/workspace" [];
     Exec ["/bin/mkdir"; "-p"; "/workspace"] "/workspace" [];
     Exec ["/bin/sh"; "-c"; write_script] "/workspace"
       [("BASE_AGENT_CONTENT", "hi"); ("BASE_AGENT_PATH", "/workspace/b.txt")];
     Shut Remove; Shut CloseClient] /\
  under_way (sandbox_example sandbox_events) = 0%nat /\
  under_way (sandbox_example queued_events) = 1%nat /\
  exists more, ss_calls (sw_session (sandbox_example (queued_events ++ [Turn 1; Turn 1; Thread 3]%nat))) =
      ss_calls (sw_session (sandbox_example queued_events)) ++ more /\ (count is_exec more <= 1)%nat.
Proof.
  split; [vm_compute; reflexivity|]. split; [vm_compute; reflexivity|]. split; [vm_compute; reflexivity|].
  destruct (sandbox_session_contained willing sandbox_config plain_decode plain_decode eq_refl 0%nat queued_events
              [Turn 1; Turn 1; Thread 3]%nat) as (_ & _ & Hclosed).
  destruct (Hclosed eq_refl) as (_ & more & Hm & Hle). exists more. split; [|exact Hle].
  etransitivity; [|exact Hm]. vm_compute. reflexivity.
Defined.
