(* ===== verification/SqlGuard.v ===== *)
(** * The SQL guard of the data source
    ([src/base_agent/data_sources/mtbi_cli.py])

    [_bounded_select] decides which SQL text reaches the query service.  It is
    compared here with the lexical structure of SQL: the text outside quotes,
    its statements, comments and words. *)

From stdpp Require Import base strings list.
From S2P Require Import Prelude Sha256 Texts.

Definition sql_char (n : N) : Ascii.ascii := Ascii.ascii_of_N n.
Abbreviation semicolon := (sql_char 59) (only parsing).
Abbreviation dash := (sql_char 45) (only parsing).
Abbreviation slash := (sql_char 47) (only parsing).
Abbreviation star := (sql_char 42) (only parsing).

(** [_FORBIDDEN_QUERY_WORDS], which the source lists in order. *)
Definition FORBIDDEN_QUERY_WORDS : list string :=
  ["alter"; "attach"; "cache"; "call"; "comment"; "copy"; "create"; "delete"; "detach"; "drop";
   "execute"; "grant"; "insert"; "load"; "merge"; "msck"; "optimize"; "refresh"; "repair";
   "replace"; "revoke"; "set"; "truncate"; "uncache"; "unload"; "update"; "use"; "vacuum"].

(** [str.isalnum] and [str.isalpha] on the characters below 256. *)
Definition py_isalnum (a : Ascii.ascii) : bool := word_char a && negb (Ascii.N_of_ascii a =? 95)%N.

Definition py_isalpha (a : Ascii.ascii) : bool :=
  let n := Ascii.N_of_ascii a in
  py_isalnum a && negb ((48 <=? n) && (n <=? 57) || bool_decide (n ∈ [178; 179; 185; 188; 189; 190]))%N.

(** The single quote, the double quote and the backtick. *)
Definition is_quote (a : Ascii.ascii) : bool :=
  bool_decide (Ascii.N_of_ascii a ∈ [39; 34; 96]%N).

(** Where a word begins and goes on. *)
Definition word_start (a : Ascii.ascii) : bool := py_isalpha a || (Ascii.N_of_ascii a =? 95)%N.
Definition word_part (a : Ascii.ascii) : bool :=
  py_isalnum a || (Ascii.N_of_ascii a =? 95)%N || (Ascii.N_of_ascii a =? 36)%N.

(** [--] or [/*] at the character [a], followed by [s]. *)
Definition starts_comment (a : Ascii.ascii) (s : string) : bool :=
  match s with
  | String b _ => bool_decide (a = dash) && bool_decide (b = dash)
                  || bool_decide (a = slash) && bool_decide (b = star)
  | EmptyString => false
  end.

Definition one_statement_only : exn :=
  Exn ExPermissionError "MTBI DataSource accepts one SQL statement only".
Definition no_comments : exn :=
  Exn ExPermissionError "SQL comments are not accepted by MTBI DataSource".

(** The loop of [_scan_sql_words]: [quote] is the source's, and [InWord]
    its inner loop, with the characters read so far in reverse. *)
Inductive scan_state := InCode | InWord (read : string) | InText (quote : Ascii.ascii).

Fixpoint scan (st : scan_state) (sql : string) : outcome (list string) :=
  match sql with
  | EmptyString =>
      match st with
      | InCode => Ok []
      | InWord w => Ok [casefold (String.rev w)]
      | InText _ => Raise (value_error ["SQL contains an unterminated quoted value"])
      end
  | String a sql' =>
      let in_code (_ : unit) :=
        if is_quote a then scan (InText a) sql'
        else
          raise_when bool_decide (a = semicolon) as one_statement_only in
          raise_when starts_comment a sql' as no_comments in
          if word_start a then scan (InWord (String a EmptyString)) sql' else scan InCode sql' in
      match st with
      | InCode => in_code tt
      | InWord w =>
          if word_part a then scan (InWord (String a w)) sql'
          else let! ws := in_code tt in Ok (casefold (String.rev w) :: ws)
      | InText q =>
          if bool_decide (a = q)
          then match sql' with
               | String b sql'' => if bool_decide (b = q) then scan (InText q) sql'' else scan InCode sql'
               | EmptyString => scan InCode sql'
               end
          else if bool_decide (a = backslash)
          then match sql' with
               | String _ sql'' => scan (InText q) sql''
               | EmptyString => scan (InText q) sql'
               end
          else scan (InText q) sql'
      end
  end.

Definition scan_sql_words (sql : string) : outcome (list string) := scan InCode sql.

(** [normalized[:-1].rstrip()] when [normalized.endswith(";")]. *)
Definition drop_final_semicolon (s : string) : string :=
  match String.rev s with
  | String a r => if bool_decide (a = semicolon) then rstrip (String.rev r) else s
  | EmptyString => s
  end.

Definition bounded_text (normalized : string) (limit : Z) : string :=
  fstr ["SELECT * FROM ("; newline; normalized; newline; ") AS base_agent_bounded_query LIMIT ";
        zstr (limit + 1)].

(** [_bounded_select]. *)
Definition bounded_select (sql : string) (limit max_characters : Z) : outcome string :=
  let normalized := strip sql in
  raise_when is_empty normalized as value_error ["SQL must not be blank"] in
  raise_when max_characters <? slen normalized
    as value_error ["SQL exceeds "; zstr max_characters; " characters"] in
  raise_when has_char (sql_char 0) normalized
    as value_error ["SQL must not contain NUL characters"] in
  let normalized := drop_final_semicolon normalized in
  let! words := scan_sql_words normalized in
  raise_when match words with
             | [] => true
             | w :: _ => negb (bool_decide (w ∈ ["select"; "with"]))
             end
    as Exn ExPermissionError "MTBI DataSource accepts SELECT/WITH queries only" in
  let forbidden := List.filter (fun w => bool_decide (w ∈ words)) FORBIDDEN_QUERY_WORDS in
  raise_when negb (bool_decide (length forbidden = 0%nat))
    as Exn ExPermissionError
         (fstr ["MTBI DataSource rejected SQL keyword(s): "; String.concat ", " forbidden]) in
  Ok (bounded_text normalized limit).

Example bounded_select_examples :
  bounded_select " with a as (select 1) select * from a ; " 2 1000
  = Ok (bounded_text "with a as (select 1) select * from a" 2) /\
  bounded_select "DELETE FROM t" 2 1000
  = Raise (Exn ExPermissionError "MTBI DataSource accepts SELECT/WITH queries only") /\
  bounded_select "select 1; select 2" 2 1000 = Raise one_statement_only /\
  bounded_select "select 1 -- x" 2 1000 = Raise no_comments /\
  bounded_select "select 'a;''--b' as c" 2 1000 = Ok (bounded_text "select 'a;''--b' as c" 2) /\
  bounded_select "select * from (drop table t, CREATE)" 2 1000
  = Raise (Exn ExPermissionError "MTBI DataSource rejected SQL keyword(s): create, drop").
Proof. vm_compute. repeat split. Qed.

(** ** The lexical structure of SQL

    Quotes open at a quote character outside quotes and close at the next of
    the same kind, so that a doubled one closes and opens again.  With
    [escapes], a backslash inside quotes hides the character after it, as in
    Spark and Doris; without, as in standard SQL and Presto, it is a
    character like others. *)

Inductive lexical := Outside | Inside (quote : Ascii.ascii) | Hidden (quote : Ascii.ascii).

#[export] Instance lexical_eq_dec : EqDecision lexical.
Proof. solve_decision. Defined.

Definition lex (escapes : bool) (st : lexical) (a : Ascii.ascii) : lexical :=
  match st with
  | Outside => if is_quote a then Inside a else Outside
  | Inside q =>
      if bool_decide (a = q) then Outside
      else if escapes && bool_decide (a = backslash) then Hidden q else Inside q
  | Hidden q => Inside q
  end.

(** The character as far as it is not quoted, else a space. *)
Definition unquoted (st : lexical) (a : Ascii.ascii) : Ascii.ascii :=
  match st with
  | Outside => a
  | Inside q => if bool_decide (a = q) then a else sql_char 32
  | Hidden _ => sql_char 32
  end.

Fixpoint lex_all (escapes : bool) (st : lexical) (s : string) : lexical :=
  match s with
  | EmptyString => st
  | String a s' => lex_all escapes (lex escapes st a) s'
  end.

Fixpoint code_of (escapes : bool) (st : lexical) (s : string) : string :=
  match s with
  | EmptyString => EmptyString
  | String a s' => String (unquoted st a) (code_of escapes (lex escapes st a) s')
  end.

(** The characters [a] and [b] side by side. *)
Fixpoint adjacent (a b : Ascii.ascii) (s : string) : bool :=
  match s with
  | String c (String d _ as s') => bool_decide (c = a) && bool_decide (d = b) || adjacent a b s'
  | _ => false
  end.

(** Neither a statement's end nor a comment. *)
Definition uninterrupted (code : string) : bool :=
  negb (has_char semicolon code) && negb (adjacent dash dash code) && negb (adjacent slash star code).

(** The words of a text without quotes, [read] the one being read. *)
Fixpoint words_from (read : string) (code : string) : list string :=
  match code with
  | EmptyString => if is_empty read then [] else [String.rev read]
  | String a code' =>
      if is_empty read
      then if word_start a then words_from (String a EmptyString) code' else words_from EmptyString code'
      else if word_part a then words_from (String a read) code'
      else String.rev read :: words_from EmptyString code'
  end.

Definition words_of (code : string) : list string := words_from EmptyString code.

(** A text that is one statement: every quote is closed, and its unquoted
    part is neither ended nor commented. *)
Definition one_statement (escapes : bool) (s : string) : bool :=
  bool_decide (lex_all escapes Outside s = Outside) && uninterrupted (code_of escapes Outside s).

Definition sql_words (escapes : bool) (s : string) : list string :=
  map casefold (words_of (code_of escapes Outside s)).

(** ** The guard accepts exactly the texts of one statement *)

Definition ok_of {A} (o : outcome A) : option A :=
  match o with Ok a => Some a | Raise _ => None end.

Lemma ok_of_Some {A} (o : outcome A) a : ok_of o = Some a <-> o = Ok a.
Proof. destruct o; simpl; split; congruence. Qed.

Lemma uninterrupted_cons a code :
  uninterrupted (String a code)
  = negb (bool_decide (a = semicolon)) && negb (starts_comment a code) && uninterrupted code.
Proof.
  unfold uninterrupted. destruct code as [|b code]; [simpl; by case_bool_decide|].
  change (has_char semicolon (String a (String b code)))
    with (bool_decide (a = semicolon) || has_char semicolon (String b code)).
  change (adjacent dash dash (String a (String b code)))
    with (bool_decide (a = dash) && bool_decide (b = dash) || adjacent dash dash (String b code)).
  change (adjacent slash star (String a (String b code)))
    with (bool_decide (a = slash) && bool_decide (b = star) || adjacent slash star (String b code)).
  unfold starts_comment.
  destruct (bool_decide (a = semicolon)), (has_char _ _), (bool_decide (a = dash) && _),
    (bool_decide (a = slash) && _), (adjacent dash dash _), (adjacent slash star _); reflexivity.
Qed.

(** Quotes and spaces interrupt nothing and are no part of a word; the
    characters of words are no quotes. *)
Record inert (a : Ascii.ascii) : Prop := {
  inert_semicolon : bool_decide (a = semicolon) = false;
  inert_comment : forall s, starts_comment a s = false;
  inert_part : word_part a = false;
  inert_start : word_start a = false;
}.

Lemma inert_quote q : is_quote q = true -> inert q.
Proof.
  intros Hq. split; destruct q as [[] [] [] [] [] [] [] []]; try done; intros []; done.
Qed.

Lemma inert_space : inert (sql_char 32).
Proof. split; try done. intros []; done. Qed.

Lemma word_part_plain a :
  word_part a = true ->
  is_quote a = false /\ bool_decide (a = semicolon) = false /\ forall s, starts_comment a s = false.
Proof.
  intros Ha. destruct a as [[] [] [] [] [] [] [] []]; try discriminate Ha; repeat split; intros []; done.
Qed.

Lemma word_start_part a : word_part a = false -> word_start a = false.
Proof.
  unfold word_part, word_start, py_isalpha. intros [[-> ->]%orb_false_iff _]%orb_false_iff. done.
Qed.

(** What the guard should answer, from a state of the lexer on. *)
Definition guarded (escapes : bool) (st : lexical) (read s : string) : option (list string) :=
  let code := code_of escapes st s in
  if bool_decide (lex_all escapes st s = Outside) && uninterrupted code
  then Some (map casefold (words_from read code)) else None.

Lemma guarded_inert escapes st read a s :
  inert (unquoted st a) -> read = "" ->
  guarded escapes st read (String a s) = guarded escapes (lex escapes st a) "" s.
Proof.
  intros [Hs Hc _ Hw] ->. unfold guarded. simpl. by rewrite uninterrupted_cons, Hs, Hc, Hw.
Qed.

(** The head of a text outside quotes is code. *)
Lemma starts_comment_code escapes a s : starts_comment a (code_of escapes Outside s) = starts_comment a s.
Proof. by destruct s. Qed.

Lemma quote_not_backslash q : is_quote q = true -> bool_decide (backslash = q) = false.
Proof. by destruct q as [[] [] [] [] [] [] [] []]. Qed.

Section Scan.
Variable n : nat.
Hypothesis IHcode : forall s, (String.length s < n)%nat -> ok_of (scan InCode s) = guarded true Outside "" s.
Hypothesis IHword : forall w s, (String.length s < n)%nat -> is_empty w = false ->
  ok_of (scan (InWord w) s) = guarded true Outside w s.
Hypothesis IHtext : forall q s, (String.length s < n)%nat -> is_quote q = true ->
  ok_of (scan (InText q) s) = guarded true (Inside q) "" s.

Lemma scan_code_step a s :
  (String.length s < n)%nat -> ok_of (scan InCode (String a s)) = guarded true Outside "" (String a s).
Proof using IHcode IHword IHtext.
  intros Hn. cbn [scan]. destruct (is_quote a) eqn:Hq.
  { rewrite IHtext by done. rewrite guarded_inert by first [done|by apply inert_quote]. simpl. by rewrite Hq. }
  unfold guarded at 1. cbn [code_of lex_all lex unquoted words_from is_empty].
  rewrite Hq, uninterrupted_cons, starts_comment_code.
  destruct (bool_decide (a = semicolon)); [by rewrite andb_false_r|].
  destruct (starts_comment a s); [by rewrite andb_false_r|].
  destruct (word_start a); [by rewrite IHword|by rewrite IHcode].
Qed.

Lemma scan_word_step w a s :
  (String.length s < n)%nat -> is_empty w = false ->
  ok_of (scan (InWord w) (String a s)) = guarded true Outside w (String a s).
Proof using IHcode IHword IHtext.
  intros Hn Hw. destruct (word_part a) eqn:Hp.
  - cbn [scan]. rewrite Hp, IHword by done. destruct (word_part_plain a Hp) as (Hq & Hs & Hc).
    unfold guarded. cbn [code_of lex_all lex unquoted words_from]. by rewrite Hw, Hp, Hq, uninterrupted_cons, Hs, Hc.
  - assert (scan (InWord w) (String a s)
            = let! ws := scan InCode (String a s) in Ok (casefold (String.rev w) :: ws)) as ->
      by (cbn [scan]; by rewrite Hp).
    pose proof (scan_code_step a s Hn) as Hcode.
    assert (guarded true Outside w (String a s)
            = (fun ws => casefold (String.rev w) :: ws) <$> guarded true Outside "" (String a s)) as ->.
    { unfold guarded. cbn [code_of lex_all unquoted words_from is_empty].
      rewrite Hw, Hp, (word_start_part a Hp). by destruct (_ && _). }
    rewrite <-Hcode. by destruct (scan InCode (String a s)).
Qed.

Lemma scan_text_step q a s :
  (String.length s < n)%nat -> is_quote q = true ->
  ok_of (scan (InText q) (String a s)) = guarded true (Inside q) "" (String a s).
Proof using IHcode IHtext.
  intros Hn Hq. cbn [scan]. destruct (bool_decide (a = q)) eqn:Ha.
  { assert (guarded true (Inside q) "" (String a s) = guarded true Outside "" s) as ->.
    { rewrite guarded_inert; [|simpl; rewrite Ha; apply bool_decide_eq_true_1 in Ha; subst; by apply inert_quote|done].
      simpl. by rewrite Ha. }
    destruct s as [|b s]; [done|]. destruct (bool_decide (b = q)) eqn:Hb; [|by apply IHcode].
    apply bool_decide_eq_true_1 in Hb as ->. simpl in Hn. rewrite IHtext by first [done|lia].
    rewrite guarded_inert by first [done|by apply inert_quote]. simpl. by rewrite Hq. }
  rewrite guarded_inert by first [done|simpl; rewrite Ha; exact inert_space]. simpl lex. rewrite Ha.
  destruct (bool_decide (a = backslash)) eqn:Hb; [|by apply IHtext].
  destruct s as [|b s]; [done|]. simpl in Hn.
  rewrite (guarded_inert _ (Hidden q)) by first [done|exact inert_space]. apply IHtext; [lia|done].
Qed.
End Scan.

Lemma scan_guarded n : forall s, (String.length s < n)%nat ->
  ok_of (scan InCode s) = guarded true Outside "" s /\
  (forall w, is_empty w = false -> ok_of (scan (InWord w) s) = guarded true Outside w s) /\
  (forall q, is_quote q = true -> ok_of (scan (InText q) s) = guarded true (Inside q) "" s).
Proof.
  induction n as [|n IH]; intros s Hs; [lia|]. destruct s as [|a s].
  { split; [done|]. split; [intros w Hw|done]. unfold guarded. simpl. by rewrite Hw. }
  simpl in Hs. assert (String.length s < n)%nat as Hn by lia.
  split; [|split]; intros; [eapply scan_code_step|eapply scan_word_step|eapply scan_text_step];
    try exact Hn; try done; intros; by apply IH.
Qed.

Lemma guarded_Some escapes s ws :
  guarded escapes Outside "" s = Some ws <-> one_statement escapes s = true /\ ws = sql_words escapes s.
Proof.
  unfold guarded, one_statement, sql_words, words_of.
  destruct (_ && _); split; [by intros [= <-]|by intros [_ ->]|done|by intros [Hf _]].
Qed.

Lemma scan_sql_words_guarded s : ok_of (scan_sql_words s) = guarded true Outside "" s.
Proof. apply (scan_guarded (S (String.length s))). lia. Qed.

(** Without a backslash both readings of quotes agree. *)
Lemma escapes_agree s : has_char backslash s = false -> forall st,
  (forall q, st <> Hidden q) ->
  lex_all true st s = lex_all false st s /\ code_of true st s = code_of false st s.
Proof.
  induction s as [|a s IH]; simpl; [done|]. intros [Ha Hs]%orb_false_iff st Hst.
  assert (lex true st a = lex false st a) as E.
  { destruct st as [|q|q]; simpl; [done| |done]. by rewrite Ha. }
  rewrite E. destruct (IH Hs (lex false st a)) as [-> ->]; [|done].
  intros q. destruct st as [|q'|q']; simpl; repeat case_match; congruence.
Qed.

Lemma one_statement_no_backslash s :
  has_char backslash s = false -> one_statement false s = one_statement true s /\ sql_words false s = sql_words true s.
Proof.
  intros Hs. destruct (escapes_agree s Hs Outside) as [E1 E2]; [done|].
  unfold one_statement, sql_words. by rewrite E1, E2.
Qed.

(** ** The text that is sent *)

Lemma lex_all_app escapes s t : forall st,
  lex_all escapes st (s +:+ t) = lex_all escapes (lex_all escapes st s) t.
Proof. induction s as [|a s IH]; intros st; [done|]. simpl. apply IH. Qed.

Lemma code_of_app escapes s t : forall st,
  code_of escapes st (s +:+ t) = code_of escapes st s +:+ code_of escapes (lex_all escapes st s) t.
Proof.
  induction s as [|a s IH]; intros st; [done|].
  change (String a s +:+ t) with (String a (s +:+ t)). simpl. by rewrite IH.
Qed.

(** A line end separates what may interrupt, and words. *)
Lemma uninterrupted_line x y :
  uninterrupted (x +:+ newline +:+ y) = uninterrupted x && uninterrupted y.
Proof.
  induction x as [|a x IH].
  - change (EmptyString +:+ newline +:+ y) with (String (sql_char 10) y). rewrite uninterrupted_cons.
    by destruct y.
  - change (String a x +:+ newline +:+ y) with (String a (x +:+ newline +:+ y)).
    rewrite !uninterrupted_cons, IH, <-!andb_assoc. f_equal. f_equal. f_equal.
    destruct x as [|b x]; [|done]. destruct a as [[] [] [] [] [] [] [] []]; reflexivity.
Qed.

Lemma words_from_apart i x y : word_part i = false -> forall read,
  words_from read (x +:+ String i y) = words_from read x ++ words_of y.
Proof.
  intros Hi. induction x as [|a x IH]; intros read.
  - change (EmptyString +:+ String i y) with (String i y). simpl.
    rewrite Hi, word_start_part by done. by destruct (is_empty read).
  - change (String a x +:+ String i y) with (String a (x +:+ String i y)). simpl.
    destruct (is_empty read).
    + destruct (word_start a); apply IH.
    + destruct (word_part a); [apply IH|]. simpl. by rewrite IH.
Qed.

Lemma words_from_line x y read : words_from read (x +:+ newline +:+ y) = words_from read x ++ words_of y.
Proof. by apply words_from_apart. Qed.

(** Characters that begin no interruption. *)
Definition harmless (a : Ascii.ascii) : bool :=
  negb (bool_decide (a = semicolon)) && negb (bool_decide (a = dash)) && negb (bool_decide (a = slash)).

Lemma uninterrupted_harmless s d : all_chars harmless s = true -> uninterrupted (s +:+ d) = uninterrupted d.
Proof.
  induction s as [|a s IH]; [done|]. intros [Ha Hs]%andb_true_iff.
  change (String a s +:+ d) with (String a (s +:+ d)). rewrite uninterrupted_cons, IH by done.
  unfold harmless in Ha. reflect. unfold starts_comment.
  rewrite !bool_decide_false by done. by destruct (s +:+ d).
Qed.

(** Numbers are neither quotes nor comments nor words. *)
Lemma digits_inert escapes s :
  all_chars is_digit_char s = true ->
  lex_all escapes Outside s = Outside /\ code_of escapes Outside s = s /\
  uninterrupted s = true /\ words_of s = [].
Proof.
  induction s as [|a s IH]; [done|]. simpl. intros [Ha Hs]%andb_true_iff.
  destruct (IH Hs) as (E1 & E2 & E3 & E4).
  assert (is_quote a = false /\ inert a \/ is_quote a = false /\ word_start a = false /\
          bool_decide (a = semicolon) = false /\ forall t, starts_comment a t = false) as Hd.
  { right. destruct a as [[] [] [] [] [] [] [] []]; try discriminate Ha; repeat split; intros []; done. }
  destruct Hd as [[Hq [H1 H2 H3 H4]]|(Hq & H4 & H1 & H2)];
    rewrite Hq, E1, E2, uninterrupted_cons, H1, H2; unfold words_of in *; simpl; by rewrite H4.
Qed.

Definition opening_line : string := "SELECT * FROM (".
Definition closing_line : string := ") AS base_agent_bounded_query LIMIT ".

(** The closing line with its number. *)
Lemma closing_code escapes limit : 0 <= limit ->
  let closing := closing_line +:+ zstr (limit + 1) in
  lex_all escapes Outside closing = Outside /\ uninterrupted (code_of escapes Outside closing) = true /\
  words_of (code_of escapes Outside closing) = ["AS"; "base_agent_bounded_query"; "LIMIT"].
Proof.
  intros Hl closing. destruct (zstr_digits (limit + 1) ltac:(lia)) as [Hd _].
  unfold token in Hd. apply andb_true_iff in Hd as [_ Hd].
  destruct (digits_inert escapes _ Hd) as (E1 & E2 & E3 & E4).
  unfold closing, closing_line. rewrite lex_all_app, code_of_app.
  assert (lex_all escapes Outside ") AS base_agent_bounded_query LIMIT " = Outside) as -> by (by destruct escapes).
  assert (code_of escapes Outside ") AS base_agent_bounded_query LIMIT " = ") AS base_agent_bounded_query LIMIT ")
    as -> by (by destruct escapes).
  rewrite E1, E2. split; [done|]. revert E3 E4. generalize (zstr (limit + 1)) as d. intros d E3 E4. split.
  - by rewrite uninterrupted_harmless.
  - change (words_of (") AS base_agent_bounded_query LIMIT" +:+ String (sql_char 32) d)
            = ["AS"; "base_agent_bounded_query"; "LIMIT"]).
    unfold words_of at 1. rewrite words_from_apart, E4 by done. done.
Qed.

Lemma bounded_text_lines inner limit :
  bounded_text inner limit
  = opening_line +:+ newline +:+ inner +:+ newline +:+ closing_line +:+ zstr (limit + 1).
Proof.
  unfold bounded_text, fstr, opening_line, closing_line. generalize (zstr (limit + 1)) as d. intros d.
  cbn [String.concat]. reflexivity.
Qed.

Lemma newline_code escapes s :
  lex_all escapes Outside (newline +:+ s) = lex_all escapes Outside s /\
  code_of escapes Outside (newline +:+ s) = newline +:+ code_of escapes Outside s.
Proof. done. Qed.

Lemma bounded_text_code escapes inner limit :
  0 <= limit -> lex_all escapes Outside inner = Outside ->
  let text := bounded_text inner limit in
  lex_all escapes Outside text = Outside /\
  uninterrupted (code_of escapes Outside text) = uninterrupted (code_of escapes Outside inner) /\
  words_of (code_of escapes Outside text)
  = ["SELECT"; "FROM"] ++ words_of (code_of escapes Outside inner) ++ ["AS"; "base_agent_bounded_query"; "LIMIT"].
Proof.
  intros Hl Hin text. destruct (closing_code escapes limit Hl) as (E1 & E2 & E3). cbv zeta in *.
  unfold text. rewrite bounded_text_lines.
  revert E1 E2 E3. generalize (closing_line +:+ zstr (limit + 1)) as closing. intros closing E1 E2 E3. clear text Hl.
  assert (lex_all escapes Outside opening_line = Outside /\ code_of escapes Outside opening_line = opening_line)
    as [Ho1 Ho2] by (by destruct escapes).
  rewrite lex_all_app, code_of_app, Ho1, Ho2. destruct (newline_code escapes (inner +:+ newline +:+ closing)) as [-> ->].
  rewrite lex_all_app, code_of_app, Hin. destruct (newline_code escapes closing) as [-> ->].
  rewrite E1, !uninterrupted_line, E2, andb_true_r. split; [done|]. split; [done|].
  unfold words_of at 1. rewrite words_from_line. unfold words_of at 1. rewrite words_from_line, E3. done.
Qed.

(** Trimming takes characters off the ends. *)
Lemma has_char_app c x y : has_char c (x +:+ y) = has_char c x || has_char c y.
Proof.
  induction x as [|a x IH]; [done|]. change (String a x +:+ y) with (String a (x +:+ y)). simpl.
  by rewrite IH, orb_assoc.
Qed.

Definition within (s t : string) : Prop := exists x y, t = x +:+ s +:+ y.

Lemma within_trans s t u : within s t -> within t u -> within s u.
Proof.
  intros (x & y & ->) (x' & y' & ->). exists (x' +:+ x), (y +:+ y'). by rewrite !string_app_assoc.
Qed.

Lemma within_lstrip s : within (lstrip s) s.
Proof.
  induction s as [|a s (x & y & E)]; [by exists "", ""|]. simpl.
  destruct (py_isspace a); [|by exists "", ""; rewrite string_app_nil].
  exists (String a x), y. by rewrite E at 1.
Qed.

Lemma within_rev s t : within s t -> within (String.rev s) (String.rev t).
Proof. intros (x & y & ->). exists (String.rev y), (String.rev x). by rewrite !string_rev_app, string_app_assoc. Qed.

Lemma within_rstrip s : within (rstrip s) s.
Proof.
  unfold rstrip. pose proof (within_rev _ _ (within_lstrip (String.rev s))) as H.
  by rewrite string_rev_involutive in H.
Qed.

Lemma within_drop t : within (drop_final_semicolon t) t.
Proof.
  unfold drop_final_semicolon. destruct (String.rev t) as [|a r] eqn:E; [by exists "", ""; rewrite string_app_nil|].
  case_bool_decide; [|by exists "", ""; rewrite string_app_nil].
  eapply within_trans; [apply within_rstrip|].
  rewrite <-(string_rev_involutive t), E, string_rev_cons. by exists "", (String a "").
Qed.

Lemma within_normalized s : within (drop_final_semicolon (strip s)) s.
Proof.
  eapply within_trans; [apply within_drop|]. change (strip s) with (rstrip (lstrip s)).
  eapply within_trans; [apply within_rstrip|apply within_lstrip].
Qed.

Lemma within_no_char c s t : within s t -> has_char c t = false -> has_char c s = false.
Proof. intros (x & y & ->). rewrite !has_char_app. by intros [_ [? _]%orb_false_iff]%orb_false_iff. Qed.

Lemma within_length s t : within s t -> slen s <= slen t.
Proof. intros (x & y & ->). unfold slen. rewrite !length_string_app. lia. Qed.

(** A text the service may get: one statement that selects, and no word of
    it is forbidden. *)
Definition read_only_text (escapes : bool) (text : string) : Prop :=
  one_statement escapes text = true /\
  head (sql_words escapes text) = Some "select" /\
  Forall (fun w => w ∉ FORBIDDEN_QUERY_WORDS) (sql_words escapes text).

Lemma filter_none {A} (p : A -> bool) l : length (List.filter p l) = 0%nat -> Forall (fun x => p x = false) l.
Proof.
  induction l as [|x l IH]; simpl; [done|]. destruct (p x) eqn:E; simpl; [done|]. intros H. by constructor; [|apply IH].
Qed.

(** Closed lists of words that are not forbidden. *)
Ltac not_forbidden :=
  repeat (apply Forall_cons; split; [refine (bool_decide_eq_false_1 _ _); vm_compute; reflexivity|]);
  apply Forall_nil; exact I.

Lemma bounded_text_read_only escapes inner limit :
  0 <= limit -> one_statement escapes inner = true ->
  Forall (fun w => w ∉ sql_words escapes inner) FORBIDDEN_QUERY_WORDS ->
  read_only_text escapes (bounded_text inner limit) /\
  sql_words escapes (bounded_text inner limit)
  = ["select"; "from"] ++ sql_words escapes inner ++ ["as"; "base_agent_bounded_query"; "limit"].
Proof.
  intros Hl H1 Hf. apply andb_true_iff in H1 as [Hin%bool_decide_eq_true_1 Hu].
  destruct (bounded_text_code escapes inner limit Hl Hin) as (E1 & E2 & E3). cbv zeta in *.
  assert (sql_words escapes (bounded_text inner limit)
          = ["select"; "from"] ++ sql_words escapes inner ++ ["as"; "base_agent_bounded_query"; "limit"]) as E.
  { unfold sql_words. by rewrite E3, !map_app. }
  split; [|exact E]. unfold read_only_text. rewrite E. split; [|split; [done|]].
  { unfold one_statement. by rewrite E1, E2, Hu. }
  rewrite !Forall_app. split; [|split].
  - not_forbidden.
  - rewrite Forall_forall in Hf |- *. intros w Hw Hin'. by eapply Hf.
  - not_forbidden.
Qed.

Lemma bounded_select_Ok sql limit max_characters text :
  bounded_select sql limit max_characters = Ok text ->
  let inner := drop_final_semicolon (strip sql) in
  text = bounded_text inner limit /\ slen inner <= max_characters /\
  exists w ws, scan_sql_words inner = Ok (w :: ws) /\ w ∈ ["select"; "with"] /\
    Forall (fun v => v ∉ w :: ws) FORBIDDEN_QUERY_WORDS.
Proof.
  unfold bounded_select. cbv zeta. intros H.
  destruct (is_empty (strip sql)); [done|]. destruct (_ <? _) eqn:Hlen; [done|].
  destruct (has_char _ _); [done|].
  destruct (scan_sql_words _) as [ws|e] eqn:Hscan; [|done].
  destruct ws as [|w ws]; [done|]. destruct (negb (bool_decide (w ∈ _))) eqn:Hw; [done|].
  destruct (negb _) eqn:Hf in H; [done|]. injection H as <-. reflect. apply filter_none in Hf.
  split; [done|]. split.
  - etransitivity; [|exact Hlen]. apply within_length, within_drop.
  - exists w, ws. split; [done|]. split; [done|]. eapply Forall_impl; [exact Hf|]. intros v Hv.
    by apply bool_decide_eq_false_1 in Hv.
Qed.

(** Whatever SQL text is given, the text [_bounded_select] lets through
    is one statement, a SELECT with a row limit of its own around it, and
    holds none of the forbidden words outside quotes: with backslash escapes
    always, and under the quoting of standard SQL when the text has no
    backslash. *)
Theorem bounded_select_read_only sql limit max_characters text :
  0 <= limit -> bounded_select sql limit max_characters = Ok text ->
  exists inner, text = bounded_text inner limit /\ slen inner <= max_characters /\
    forall escapes, escapes = true \/ has_char backslash sql = false \/ has_char backslash inner = false ->
      read_only_text escapes text /\
      sql_words escapes text
      = ["select"; "from"] ++ sql_words escapes inner ++ ["as"; "base_agent_bounded_query"; "limit"] /\
      exists w, head (sql_words escapes inner) = Some w /\ w ∈ ["select"; "with"].
Proof.
  intros Hl H. apply bounded_select_Ok in H as (-> & Hlen & w & ws & Hscan & Hw & Hf).
  exists (drop_final_semicolon (strip sql)). split; [done|]. split; [exact Hlen|]. intros escapes He.
  assert (one_statement escapes (drop_final_semicolon (strip sql)) = true /\
          w :: ws = sql_words escapes (drop_final_semicolon (strip sql))) as [H1 Hws].
  { apply ok_of_Some in Hscan. rewrite scan_sql_words_guarded in Hscan. apply guarded_Some in Hscan as [H1 H2].
    destruct escapes; [done|]. destruct He as [?|Hb]; [done|].
    destruct (one_statement_no_backslash (drop_final_semicolon (strip sql))) as [-> ->]; [|done].
    destruct Hb as [Hb|Hb]; [|done]. by eapply within_no_char; [apply within_normalized|]. }
  destruct (bounded_text_read_only escapes (drop_final_semicolon (strip sql)) limit Hl H1) as [Hr Hsql];
    [by rewrite <-Hws|].
  split; [done|]. split; [done|]. exists w. by rewrite <-Hws.
Qed.

(** C14: the scanner of [_scan_sql_words] accepts exactly the texts that are
    one statement - every quote closed, no statement end and no comment
    outside quotes - and gives exactly the case-folded words outside quotes:
    with backslash escapes for every text, and under the quoting of standard
    SQL for every text without a backslash. *)
Theorem sql_scanner_exact s ws :
  (scan_sql_words s = Ok ws <-> one_statement true s = true /\ ws = sql_words true s) /\
  (has_char backslash s = false ->
   (scan_sql_words s = Ok ws <-> one_statement false s = true /\ ws = sql_words false s)).
Proof.
  assert (scan_sql_words s = Ok ws <-> one_statement true s = true /\ ws = sql_words true s) as Hex
    by (by rewrite <-ok_of_Some, scan_sql_words_guarded, guarded_Some).
  split; [exact Hex|]. intros Hb. by destruct (one_statement_no_backslash s Hb) as [-> ->].
Qed.

Lemma sql_scanner_exact_witness :
  has_char backslash "select a from t" = false /\
  scan_sql_words "select a from t" = Ok (sql_words false "select a from t").
Proof.
  split; [reflexivity|]. apply (sql_scanner_exact "select a from t"); [reflexivity|].
  split; [vm_compute|]; reflexivity.
Defined.

Example bounded_select_example :
  exists text, bounded_select "select ';' from t;" 10 100 = Ok text /\ read_only_text false text.
Proof.
  exists (bounded_text "select ';' from t" 10).
  assert (bounded_select "select ';' from t;" 10 100 = Ok (bounded_text "select ';' from t" 10)) as H
    by (vm_compute; reflexivity).
  split; [exact H|].
  destruct (bounded_select_read_only "select ';' from t;" 10 100 _ ltac:(lia) H) as (inner & _ & _ & Hr).
  apply (Hr false). right. left. reflexivity.
Qed.

(** The guard reads a backslash as an escape for every engine.  Presto, the
    default, does not: there this text is three statements, one of them a
    [DROP], and all that follows the dashes a comment. *)
Example backslash_hides_statement :
  let sql := "SELECT '\') AS a; DROP TABLE t; SELECT * FROM (SELECT 1 -- '" in
  bounded_select sql 10 100 = Ok (bounded_text sql 10) /\
  one_statement false (bounded_text sql 10) = false /\
  "drop" ∈ sql_words false (bounded_text sql 10).
Proof.
  split; [vm_compute; reflexivity|]. split; [vm_compute; reflexivity|].
  refine (bool_decide_eq_true_1 _ _). vm_compute. reflexivity.
Qed.
