(* ===== verification/DataSources.v ===== *)
(** * Read-only data sources ([src/base_agent/data_sources/models.py],
    [data_sources/protocol.py], [data_sources/tools.py])

    The values of a catalog and of a query, the protocol a source implements
    (a class), and the three tools an Agent gets over a source.  The tools
    bound what a source gives: a result too large for a message becomes an
    artifact of the Run, and a reference to it with a sample. *)

From stdpp Require Import base gmap strings list.
From S2P Require Import Prelude Json Models Sha256 Plan StateMachine ConversationStore RunStore EventStore FlowModels Program Serial Runtime RuntimeLogic Artifacts ModelTool React Providers.

(** ** Catalog and query values *)

Inductive DataObjectKind := DK_TABLE | DK_VIEW.

Definition DataObjectKind_value (k : DataObjectKind) : string :=
  match k with DK_TABLE => "table" | DK_VIEW => "view" end.

(** [Field(default=None, max_length=n)]. *)
Definition at_most (n : Z) (s : option string) : bool :=
  match s with Some s => slen s <=? n | None => true end.

Record DataTable := mk_DataTable {
  dt_name : string;
  dt_schema_name : option string;
  dt_catalog_name : option string;
  dt_kind : DataObjectKind;
  dt_description : option string;
}.

Definition DataTable_fields (t : DataTable) : bool :=
  len_between 1 512 (dt_name t) && at_most 512 (dt_schema_name t) && at_most 512 (dt_catalog_name t)
  && at_most 4000 (dt_description t).

Definition DataTable_new (t : DataTable) : outcome DataTable :=
  checked (DataTable_fields t) (fun _ => Ok tt) t.

Definition DataTable_dump (t : DataTable) : json :=
  JObj [("name", JStr (dt_name t)); ("schema_name", jopt JStr (dt_schema_name t));
        ("catalog_name", jopt JStr (dt_catalog_name t));
        ("kind", JStr (DataObjectKind_value (dt_kind t)));
        ("description", jopt JStr (dt_description t))].

Record DataColumn := mk_DataColumn {
  dc_name : string;
  dc_data_type : string;
  dc_nullable : bool;
  dc_description : option string;
}.

Definition DataColumn_fields (c : DataColumn) : bool :=
  len_between 1 512 (dc_name c) && len_between 1 512 (dc_data_type c) && at_most 4000 (dc_description c).

Definition DataColumn_new (c : DataColumn) : outcome DataColumn :=
  checked (DataColumn_fields c) (fun _ => Ok tt) c.

Definition DataColumn_dump (c : DataColumn) : json :=
  JObj [("name", JStr (dc_name c)); ("data_type", JStr (dc_data_type c));
        ("nullable", JBool (dc_nullable c)); ("description", jopt JStr (dc_description c))].

Record DataTableSchema := mk_DataTableSchema {
  ds_table : DataTable;
  ds_columns : list DataColumn;
  ds_primary_key : list string;
}.

Definition DataTableSchema_new (s : DataTableSchema) : outcome DataTableSchema :=
  checked ((length (ds_columns s) <=? 2000)%nat && (length (ds_primary_key s) <=? 128)%nat)
    (fun _ => Ok tt) s.

Definition DataTableSchema_items (s : DataTableSchema) : jdict :=
  [("table", DataTable_dump (ds_table s)); ("columns", jlist DataColumn_dump (ds_columns s));
   ("primary_key", jlist JStr (ds_primary_key s))].

Record DataCatalogPage := mk_DataCatalogPage {
  dp_tables : list DataTable;
  dp_has_more : bool;
}.

Definition DataCatalogPage_new (p : DataCatalogPage) : outcome DataCatalogPage :=
  checked (length (dp_tables p) <=? 1000)%nat (fun _ => Ok tt) p.

Record DataQueryResult := mk_DataQueryResult {
  dq_columns : list string;
  dq_rows : list jdict;
  dq_total_rows : option Z;
  dq_has_more : bool;
}.

Definition DataQueryResult_fields (r : DataQueryResult) : bool :=
  (Z.of_nat (length (dq_columns r)) <=? 2000) && (Z.of_nat (length (dq_rows r)) <=? 10001)
  && match dq_total_rows r with Some n => 0 <=? n | None => true end.

(** [set(row) == set(columns)]. *)
Definition same_keys (row : jdict) (columns : list string) : bool :=
  forallb (fun k => bool_decide (k ∈ columns)) (dkeys row)
  && forallb (fun c => bool_decide (c ∈ dkeys row)) columns.

(** [DataQueryResult.validate_rows]. *)
Definition DataQueryResult_validate (r : DataQueryResult) : outcome unit :=
  raise_when negb (bool_decide (NoDup (dq_columns r)))
    as validation_error "query result column names must be unique" in
  raise_when negb (forallb (fun row => same_keys row (dq_columns r)) (dq_rows r))
    as validation_error "every query result row must match the declared columns" in
  raise_when match dq_total_rows r with Some n => n <? Z.of_nat (length (dq_rows r)) | None => false end
    as validation_error "total_rows cannot be smaller than returned rows" in
  Ok tt.

Definition DataQueryResult_new (r : DataQueryResult) : outcome DataQueryResult :=
  checked (DataQueryResult_fields r) DataQueryResult_validate r.

(** ** [ReadOnlyDataSource] *)

(** The protocol; its methods await, and may do anything to the state. *)
Class ReadOnlyDataSource (X : Type) := {
  source_name : string;
  source_list_tables : option string -> option string -> Z -> prog (World X) DataCatalogPage;
  source_describe_table : string -> option string -> option string -> prog (World X) DataTableSchema;
  source_query : string -> Z -> prog (World X) DataQueryResult;
}.

(** ** The tools *)

(** [json.dumps(payload, ensure_ascii=False, separators=(",", ":"))] and its
    bytes; the values of a payload are all JSON. *)
Section Bytes.
Context `{FloatRepr}.

Definition json_bytes (j : json) : string := utf8 (json_text "," ":" j).
Definition json_size (j : json) : Z := slen (json_bytes j).

(** The loop of [_append_bounded_items], and what follows it. *)
Definition with_items (field truncated_field : string) (items : list json) (total : Z) (payload : jdict) : jdict :=
  dset truncated_field (JBool (Z.of_nat (length items) <? total)) (dset field (JArr items) payload).

Fixpoint append_loop (field truncated_field : string) (limit total : Z)
  (payload : jdict) (selected items : list json) : jdict * list json :=
  match items with
  | [] => (payload, selected)
  | item :: items' =>
      let candidate := selected ++ [item] in
      let payload := with_items field truncated_field candidate total payload in
      if limit <? json_size (JObj payload) then (payload, selected)
      else append_loop field truncated_field limit total payload candidate items'
  end.

Definition append_bounded_items (payload : jdict) (field truncated_field : string) (items : list json)
  (limit : Z) (total_items : option Z) : jdict :=
  let total := default (Z.of_nat (length items)) total_items in
  let '(payload, selected) := append_loop field truncated_field limit total payload [] items in
  with_items field truncated_field selected total payload.
End Bytes.

(** The arguments of [data_source_tools]. *)
Record DataLimits := mk_DataLimits {
  max_tables : Z;
  max_rows : Z;
  max_inline_bytes : Z;
  max_artifact_bytes : Z;
  artifact_sample_rows : Z;
}.

(** The checks of [data_source_tools]; the name of the source, stripped. *)
Definition data_source_tools (name : string) (l : DataLimits) : outcome string :=
  raise_when (max_tables l <? 1) || (1000 <? max_tables l)
    as value_error ["max_tables must be between 1 and 1000"] in
  raise_when (max_rows l <? 1) || (10000 <? max_rows l)
    as value_error ["max_rows must be between 1 and 10000"] in
  raise_when (max_inline_bytes l <? 512) as value_error ["max_inline_bytes must be at least 512"] in
  raise_when (max_artifact_bytes l <? max_inline_bytes l)
    as value_error ["max_artifact_bytes must be at least max_inline_bytes"] in
  raise_when (artifact_sample_rows l <? 0) || (max_rows l <? artifact_sample_rows l)
    as value_error ["artifact_sample_rows must be between 0 and max_rows"] in
  let source_name := strip name in
  raise_when is_empty source_name || (128 <? slen source_name)
    as value_error ["DataSource name must contain between 1 and 128 characters"] in
  Ok source_name.

(** [data_source_bundle]: the names of the tools and the permissions they need. *)
Definition data_tool_names : list string := ["data_list_tables"; "data_describe_table"; "data_query"].
Definition data_tool_permissions (tool : string) : gset string := {["data:read"]}.
Definition required_permissions : gset string := ⋃ map data_tool_permissions data_tool_names.

Section Tools.
Context {X : Type} `{!ArtifactAccess X} `{!ReadOnlyDataSource X} `{FloatRepr}.
Variable env : nat -> ambient.
Variable source : string.
Variable limits : DataLimits.

Abbreviation M := (prog (World X)).

(** [raise_when] in a program. *)
Definition guard_that (b : bool) (e : exn) : M unit := if b then throw e else ret tt.

(** [list_tables]. *)
Definition list_tables_tool (catalog_name schema_name : option string) (limit : Z) : M jdict :=
  do* guard_that ((limit <? 1) || (max_tables limits <? limit))
        (value_error ["limit must be between 1 and "; zstr (max_tables limits)]) in
  let* page := source_list_tables catalog_name schema_name limit in
  let selected := take (Z.to_nat limit) (dp_tables page) in
  ret [("source", JStr source); ("tables", jlist DataTable_dump selected);
       ("table_count", JInt (Z.of_nat (length selected)));
       ("has_more", JBool (dp_has_more page || (length selected <? length (dp_tables page))%nat))].

(** [describe_table]. *)
Definition describe_table_tool (table_name : string) (catalog_name schema_name : option string) : M jdict :=
  let* schema := source_describe_table table_name catalog_name schema_name in
  ret (("source", JStr source) :: DataTableSchema_items schema).

(** The payload of [query], and the reference in its place. *)
Definition query_payload (r : DataQueryResult) (selected : list jdict) (has_more : bool) : jdict :=
  [("source", JStr source); ("columns", jlist JStr (dq_columns r)); ("rows", jlist JObj selected);
   ("returned_row_count", JInt (Z.of_nat (length selected)));
   ("total_rows", jopt JInt (dq_total_rows r)); ("has_more", JBool has_more); ("externalized", JBool false)].

Definition reference_envelope (r : DataQueryResult) (selected : list jdict) (has_more : bool) (a : Artifact)
  : jdict :=
  [("source", JStr source); ("columns", JArr []);
   ("column_count", JInt (Z.of_nat (length (dq_columns r))));
   ("columns_truncated", JBool (negb (bool_decide (length (dq_columns r) = 0%nat))));
   ("sample", JArr []); ("sample_truncated", JBool (negb (bool_decide (length selected = 0%nat))));
   ("returned_row_count", JInt (Z.of_nat (length selected)));
   ("total_rows", jopt JInt (dq_total_rows r)); ("has_more", JBool has_more);
   ("externalized", JBool true); ("artifact_id", JStr (uuid_str (art_id a)));
   ("artifact_name", JStr (art_name a)); ("artifact_size_bytes", JInt (art_size_bytes a))].

Definition artifact_reference (r : DataQueryResult) (selected : list jdict) (has_more : bool) (a : Artifact)
  : jdict :=
  let reference := append_bounded_items (reference_envelope r selected has_more a)
    "columns" "columns_truncated" (map JStr (dq_columns r)) (max_inline_bytes limits) None in
  append_bounded_items reference "sample" "sample_truncated"
    (map JObj (take (Z.to_nat (artifact_sample_rows limits)) selected))
    (max_inline_bytes limits) (Some (Z.of_nat (length selected))).

(** [uuid4().hex[:12]]. *)
Definition draw_hex12 : M string :=
  call_store env (fun amb w => Ok (w, hex_digits 12 ((amb_uuid amb 0 / 2 ^ 80) mod 2 ^ 48)%N)).

(** [query] after the source has answered. *)
Definition bounded_result (r : DataQueryResult) (limit : Z) : M jdict :=
  let selected := take (Z.to_nat limit) (dq_rows r) in
  let has_more := dq_has_more r || (length selected <? length (dq_rows r))%nat in
  let payload := query_payload r selected has_more in
  let serialized := json_bytes (JObj payload) in
  if slen serialized <=? max_inline_bytes limits then ret payload
  else
    do* guard_that (max_artifact_bytes limits <? slen serialized)
          (value_error ["bounded query result exceeds Artifact limit of ";
                        zstr (max_artifact_bytes limits); " bytes"]) in
    let* hex := draw_hex12 in
    let* artifact := manager_create env (fstr ["data-query-"; hex; ".json"]) "application/json" serialized
      (Some [("source", JStr source); ("returned_row_count", JInt (Z.of_nat (length selected)));
             ("has_more", JBool has_more)]) in
    let reference := artifact_reference r selected has_more artifact in
    do* guard_that (max_inline_bytes limits <? json_size (JObj reference))
          (Exn ExRuntimeError "DataSource Artifact reference exceeded its configured budget") in
    ret reference.

(** [query]. *)
Definition query_tool (sql : string) (limit : Z) : M jdict :=
  do* guard_that ((limit <? 1) || (max_rows limits <? limit))
        (value_error ["limit must be between 1 and "; zstr (max_rows limits)]) in
  do* guard_that (blank sql) (value_error ["sql must not be blank"]) in
  let* r := source_query sql limit in
  bounded_result r limit.
End Tools.

(** ** What fits *)

Section Items.
Context {K V : Type} `{EqDecision K}.

Lemma dset_dset (k : K) (v w : V) d : dset k v (dset k w d) = dset k v d.
Proof.
  induction d as [|[j u] d IH]; simpl; [by rewrite decide_True|].
  case_decide; simpl; [by rewrite decide_True|]. by rewrite decide_False, IH.
Qed.

Lemma dset_comm (k j : K) (v w : V) d : k <> j -> k ∈ dkeys d -> dset k v (dset j w d) = dset j w (dset k v d).
Proof.
  intros Hne. induction d as [|[i u] d IH]; [by intros ?%elem_of_nil|].
  change (dkeys ((i, u) :: d)) with (i :: dkeys d). rewrite elem_of_cons. intros Hk.
  cbn [dset]. destruct (decide (j = i)) as [->|Hj], (decide (k = i)) as [->|Hi]; cbn [dset].
  - done.
  - rewrite decide_False, decide_True by done. done.
  - rewrite decide_True, decide_False by done. done.
  - rewrite !decide_False by done. rewrite IH; [done|]. by destruct Hk.
Qed.
End Items.

Section Fits.
Context `{FloatRepr}.
Variables (field truncated_field : string) (limit total : Z).
Hypothesis Hfields : field <> truncated_field.

Lemma with_items_again l m payload :
  with_items field truncated_field l total (with_items field truncated_field m total payload)
  = with_items field truncated_field l total payload.
Proof using Hfields.
  unfold with_items. rewrite (dset_comm field truncated_field); [|done|apply dkeys_dset_elem; by left]. by rewrite !dset_dset.
Qed.

Definition fits (payload : jdict) (l : list json) : Prop :=
  json_size (JObj (with_items field truncated_field l total payload)) <= limit.

(** The items taken are the longest prefix every prefix of which fits. *)
Record bounded_prefix (payload : jdict) (kept rest : list json) : Prop := {
  bp_fits : kept = [] \/ fits payload kept;
  bp_maximal : rest = [] \/ exists item rest', rest = item :: rest' /\ ~ fits payload (kept ++ [item]);
}.

Lemma append_loop_spec payload0 items : forall payload selected,
  (forall l, with_items field truncated_field l total payload = with_items field truncated_field l total payload0) ->
  selected = [] \/ fits payload0 selected ->
  exists payload' kept rest,
    append_loop field truncated_field limit total payload selected items = (payload', selected ++ kept) /\
    items = kept ++ rest /\ bounded_prefix payload0 (selected ++ kept) rest /\
    forall l, with_items field truncated_field l total payload' = with_items field truncated_field l total payload0.
Proof using Hfields.
  induction items as [|item items IH]; intros payload selected Hp Hs; cbn [append_loop].
  - exists payload, [], []. rewrite app_nil_r. split; [done|]. split; [done|]. split; [|done]. split; [done|by left].
  - rewrite Hp. destruct (limit <? _) eqn:E.
    + eexists _, [], (item :: items). rewrite app_nil_r. split; [done|]. split; [done|]. split.
      * split; [done|]. right. exists item, items. split; [done|]. unfold fits. reflect. lia.
      * intros l. apply with_items_again.
    + edestruct (IH (with_items field truncated_field (selected ++ [item]) total payload0) (selected ++ [item]))
        as (payload' & kept & rest & -> & -> & Hb & Hp').
      * intros l. apply with_items_again.
      * right. unfold fits. by apply Z.ltb_ge in E.
      * exists payload', (item :: kept), rest. rewrite <-app_assoc in Hb |- *. done.
Qed.
End Fits.

Lemma append_bounded_items_spec `{FloatRepr} payload field truncated_field items limit total :
  field <> truncated_field ->
  let total' := default (Z.of_nat (length items)) total in
  exists kept rest, items = kept ++ rest /\
    append_bounded_items payload field truncated_field items limit total
    = with_items field truncated_field kept total' payload /\
    bounded_prefix field truncated_field limit total' payload kept rest.
Proof.
  intros Hf total'. unfold append_bounded_items. fold total'.
  destruct (append_loop_spec field truncated_field limit total' Hf payload items payload [])
    as (payload' & kept & rest & E & -> & Hb & Hp); [done|by left|].
  exists kept, rest. split; [done|]. fold total' in E. rewrite E. simpl. by rewrite Hp.
Qed.

(** Nothing is added that does not fit. *)
Lemma bounded_prefix_fits `{FloatRepr} field truncated_field limit total payload kept rest :
  bounded_prefix field truncated_field limit total payload kept rest ->
  fits field truncated_field limit total payload [] -> fits field truncated_field limit total payload kept.
Proof. by intros [[->|Hk] _]. Qed.

Section Reference.
Context {X : Type} `{!ArtifactAccess X} `{!ReadOnlyDataSource X} `{FloatRepr}.
Variable env : nat -> ambient.
Variable source : string.
Variable limits : DataLimits.
Variables (r : DataQueryResult) (selected : list jdict) (has_more : bool) (a : Artifact).

(** The reference that shows [columns] and the rows [sample]. *)
Definition reference_shown (columns : list string) (sample : list jdict) : jdict :=
  [("source", JStr source); ("columns", jlist JStr columns);
   ("column_count", JInt (Z.of_nat (length (dq_columns r))));
   ("columns_truncated", JBool (Z.of_nat (length columns) <? Z.of_nat (length (dq_columns r))));
   ("sample", jlist JObj sample);
   ("sample_truncated", JBool (Z.of_nat (length sample) <? Z.of_nat (length selected)));
   ("returned_row_count", JInt (Z.of_nat (length selected)));
   ("total_rows", jopt JInt (dq_total_rows r)); ("has_more", JBool has_more);
   ("externalized", JBool true); ("artifact_id", JStr (uuid_str (art_id a)));
   ("artifact_name", JStr (art_name a)); ("artifact_size_bytes", JInt (art_size_bytes a))].

Definition shown_fits (columns : list string) (sample : list jdict) : Prop :=
  json_size (JObj (reference_shown columns sample)) <= max_inline_bytes limits.

Lemma nonempty_ltb {A} (l : list A) : negb (bool_decide (length l = 0%nat)) = (0 <? Z.of_nat (length l)).
Proof. by destruct l. Qed.

Lemma reference_envelope_shown : reference_envelope source r selected has_more a = reference_shown [] [].
Proof. unfold reference_envelope, reference_shown. by rewrite !nonempty_ltb. Qed.

Lemma shown_columns columns columns' sample :
  with_items "columns" "columns_truncated" (map JStr columns) (Z.of_nat (length (dq_columns r)))
    (reference_shown columns' sample) = reference_shown columns sample.
Proof. unfold with_items. by rewrite length_map. Qed.

Lemma shown_sample columns sample sample' :
  with_items "sample" "sample_truncated" (map JObj sample) (Z.of_nat (length selected))
    (reference_shown columns sample') = reference_shown columns sample.
Proof. unfold with_items. by rewrite length_map. Qed.

(** What a reference shows is a prefix of the columns and of the sample,
    each the longest that fits, the columns first. *)
Record shows (columns : list string) (sample : list jdict) : Prop := {
  sh_columns : columns `prefix_of` dq_columns r;
  sh_sample : sample `prefix_of` take (Z.to_nat (artifact_sample_rows limits)) selected;
  sh_fits : columns = [] /\ sample = [] \/ shown_fits columns sample;
  sh_columns_maximal : columns = dq_columns r \/
    exists c, columns ++ [c] `prefix_of` dq_columns r /\ ~ shown_fits (columns ++ [c]) [];
  sh_sample_maximal : sample = take (Z.to_nat (artifact_sample_rows limits)) selected \/
    exists row, sample ++ [row] `prefix_of` take (Z.to_nat (artifact_sample_rows limits)) selected /\
      ~ shown_fits columns (sample ++ [row]);
}.

(** A prefix of injected items. *)
Lemma map_prefix {A B} (f : A -> B) (l : list A) kept rest :
  map f l = kept ++ rest -> exists l1 l2, l = l1 ++ l2 /\ kept = map f l1 /\ rest = map f l2.
Proof. intros E. apply map_eq_app in E as (l1 & l2 & -> & <- & <-). by exists l1, l2. Qed.

Lemma artifact_reference_shows :
  exists columns sample, shows columns sample /\
    artifact_reference source limits r selected has_more a = reference_shown columns sample.
Proof.
  unfold artifact_reference. rewrite reference_envelope_shown.
  destruct (append_bounded_items_spec (reference_shown [] []) "columns" "columns_truncated"
              (map JStr (dq_columns r)) (max_inline_bytes limits) None) as (k & t & E & -> & Hc); [done|].
  apply map_prefix in E as (columns & columns' & E & -> & ->).
  simpl default in Hc |- *. rewrite length_map in Hc |- *. rewrite shown_columns.
  destruct (append_bounded_items_spec (reference_shown columns []) "sample" "sample_truncated"
              (map JObj (take (Z.to_nat (artifact_sample_rows limits)) selected)) (max_inline_bytes limits)
              (Some (Z.of_nat (length selected)))) as (k & t & E' & -> & Hs); [done|].
  apply map_prefix in E' as (sample & sample' & E' & -> & ->). simpl default in Hs |- *.
  rewrite shown_sample. exists columns, sample. split; [|done].
  assert (forall l, fits "columns" "columns_truncated" (max_inline_bytes limits) (Z.of_nat (length (dq_columns r)))
            (reference_shown [] []) (map JStr l) <-> shown_fits l []) as Hfc
    by (intros l; unfold fits, shown_fits; rewrite shown_columns; reflexivity).
  assert (forall l, fits "sample" "sample_truncated" (max_inline_bytes limits) (Z.of_nat (length selected))
            (reference_shown columns []) (map JObj l) <-> shown_fits columns l) as Hfs
    by (intros l; unfold fits, shown_fits; rewrite shown_sample; reflexivity).
  destruct Hc as [Hc1 Hc2], Hs as [Hs1 Hs2]. split.
  - by exists columns'.
  - by exists sample'.
  - destruct sample as [|row sample].
    + destruct columns as [|c columns]; [by left|right].
      destruct Hc1 as [Hc1|Hc1]; [discriminate Hc1|exact (proj1 (Hfc (c :: columns)) Hc1)].
    + right. destruct Hs1 as [Hs1|Hs1]; [discriminate Hs1|exact (proj1 (Hfs (row :: sample)) Hs1)].
  - destruct columns' as [|c columns']; [left; by rewrite E, app_nil_r|right].
    destruct Hc2 as [Hc2|(i & rest & [= <- _] & Hn)]; [discriminate Hc2|]. exists c. split.
    + exists columns'. by rewrite E, <-app_assoc.
    + intros Hf. apply Hn. pose proof (proj2 (Hfc (columns ++ [c])) Hf) as Hf'. rewrite map_app in Hf'. exact Hf'.
  - destruct sample' as [|row sample']; [left; by rewrite E', app_nil_r|right].
    destruct Hs2 as [Hs2|(i & rest & [= <- _] & Hn)]; [discriminate Hs2|]. exists row. split.
    + exists sample'. by rewrite E', <-app_assoc.
    + intros Hf. apply Hn. pose proof (proj2 (Hfs (sample ++ [row])) Hf) as Hf'. rewrite map_app in Hf'. exact Hf'.
Qed.
End Reference.

(** ** The query tool *)

Section Query.
Context {X : Type} `{!ArtifactAccess X} `{!ReadOnlyDataSource X} `{FloatRepr}.
Variable env : nat -> ambient.
Variable source : string.
Variable limits : DataLimits.

Lemma guard_that_run b e st :
  guard_that (X := X) b e st = Some (st, if b then Raise e else Ok tt).
Proof. by destruct b. Qed.

Definition selected_rows (r : DataQueryResult) (limit : Z) : list jdict := take (Z.to_nat limit) (dq_rows r).
Definition more_rows (r : DataQueryResult) (limit : Z) : bool :=
  dq_has_more r || (length (selected_rows r limit) <? length (dq_rows r))%nat.
Definition full_payload (r : DataQueryResult) (limit : Z) : jdict :=
  query_payload source r (selected_rows r limit) (more_rows r limit).

(** An artifact the tool creates: the JSON of the whole bounded payload. *)
Definition creates_artifact (r : DataQueryResult) (limit : Z) (st : sys (World X))
  (out : option (sys (World X) * outcome Artifact)) : Prop :=
  exists hex, out = manager_create env (fstr ["data-query-"; hex; ".json"]) "application/json"
    (json_bytes (JObj (full_payload r limit)))
    (Some [("source", JStr source); ("returned_row_count", JInt (Z.of_nat (length (selected_rows r limit))));
           ("has_more", JBool (more_rows r limit))]) (mk_sys (sys_w st) (S (sys_tick st))).

(** What [bounded_result] makes of the source's answer. *)
Inductive bounded_outcome (r : DataQueryResult) (limit : Z) (st : sys (World X)) :
  sys (World X) -> outcome jdict -> Prop :=
  | result_inline :
      json_size (JObj (full_payload r limit)) <= max_inline_bytes limits ->
      bounded_outcome r limit st st (Ok (full_payload r limit))
  | result_too_large :
      max_artifact_bytes limits < json_size (JObj (full_payload r limit)) ->
      bounded_outcome r limit st st
        (Raise (value_error ["bounded query result exceeds Artifact limit of ";
                             zstr (max_artifact_bytes limits); " bytes"]))
  | result_refused st' e :
      max_inline_bytes limits < json_size (JObj (full_payload r limit)) <= max_artifact_bytes limits ->
      creates_artifact r limit st (Some (st', Raise e)) ->
      bounded_outcome r limit st st' (Raise e)
  | result_externalized st' a columns sample :
      max_inline_bytes limits < json_size (JObj (full_payload r limit)) <= max_artifact_bytes limits ->
      creates_artifact r limit st (Some (st', Ok a)) ->
      shows source limits r (selected_rows r limit) (more_rows r limit) a columns sample ->
      json_size (JObj (reference_shown source r (selected_rows r limit) (more_rows r limit) a columns sample))
      <= max_inline_bytes limits ->
      bounded_outcome r limit st st'
        (Ok (reference_shown source r (selected_rows r limit) (more_rows r limit) a columns sample))
  | result_no_room st' a :
      max_inline_bytes limits < json_size (JObj (full_payload r limit)) <= max_artifact_bytes limits ->
      creates_artifact r limit st (Some (st', Ok a)) ->
      max_inline_bytes limits
      < json_size (JObj (reference_envelope source r (selected_rows r limit) (more_rows r limit) a)) ->
      bounded_outcome r limit st st'
        (Raise (Exn ExRuntimeError "DataSource Artifact reference exceeded its configured budget")).

Lemma bounded_result_outcome r limit st st' o :
  bounded_result env source limits r limit st = Some (st', o) -> bounded_outcome r limit st st' o.
Proof.
  unfold bounded_result. fold (selected_rows r limit). fold (more_rows r limit).
  fold (full_payload r limit). fold (json_size (JObj (full_payload r limit))).
  destruct (json_size (JObj (full_payload r limit)) <=? max_inline_bytes limits) eqn:Ei.
  { intros [= <- <-]. apply result_inline. by apply Z.leb_le. }
  apply Z.leb_gt in Ei. unfold bind at 1. rewrite guard_that_run.
  destruct (max_artifact_bytes limits <? json_size (JObj (full_payload r limit))) eqn:Ea.
  { intros [= <- <-]. apply result_too_large. by apply Z.ltb_lt. }
  apply Z.ltb_ge in Ea. unfold bind at 1, draw_hex12, call_store at 1. unfold bind at 1.
  set (hex := hex_digits 12 _). destruct (manager_create _ _ _ _ _ _) as [[st1 [a|e]]|] eqn:Ec; [| |discriminate].
  2: { intros [= <- <-]. apply result_refused; [lia|]. by exists hex. }
  assert (creates_artifact r limit st (Some (st1, Ok a))) as Hc by (by exists hex).
  unfold bind at 1. rewrite guard_that_run.
  destruct (artifact_reference_shows source limits r (selected_rows r limit) (more_rows r limit) a)
    as (columns & sample & Hs & Er). rewrite Er.
  destruct (max_inline_bytes limits <? _) eqn:Ef; intros [= <- <-].
  - apply Z.ltb_lt in Ef. eapply result_no_room; [lia|exact Hc|]. rewrite reference_envelope_shown.
    destruct (sh_fits _ _ _ _ _ _ _ _ Hs) as [[-> ->]|Hfit]; [exact Ef|]. unfold shown_fits in Hfit. lia.
  - apply Z.ltb_ge in Ef. eapply result_externalized; [lia|exact Hc|exact Hs|exact Ef].
Qed.

(** What a call of the tool can lead to. *)
Inductive query_outcome (sql : string) (limit : Z) (st : sys (World X)) :
  sys (World X) -> outcome jdict -> Prop :=
  | query_bad_limit : ~ 1 <= limit <= max_rows limits ->
      query_outcome sql limit st st
        (Raise (value_error ["limit must be between 1 and "; zstr (max_rows limits)]))
  | query_blank : blank sql = true ->
      query_outcome sql limit st st (Raise (value_error ["sql must not be blank"]))
  | query_failed st' e : 1 <= limit <= max_rows limits ->
      source_query sql limit st = Some (st', Raise e) -> query_outcome sql limit st st' (Raise e)
  | query_answered st1 r st' o : 1 <= limit <= max_rows limits ->
      source_query sql limit st = Some (st1, Ok r) -> bounded_outcome r limit st1 st' o ->
      query_outcome sql limit st st' o.

(** C15: whatever the source answers, [data_query] returns within the
    inline limit: the bounded payload when that fits, else - if it is within
    the artifact limit, and only then - a reference to an artifact that holds
    exactly that payload, showing the longest prefixes of the columns and of
    the sample that fit.  Nothing else is stored, and the tool runs out of
    room only when the reference without any column or row is too large. *)
Theorem data_query_bounded sql limit st st' o :
  query_tool env source limits sql limit st = Some (st', o) ->
  query_outcome sql limit st st' o /\
  forall d, o = Ok d -> json_size (JObj d) <= max_inline_bytes limits.
Proof.
  intros Hq. assert (query_outcome sql limit st st' o) as Ho.
  { unfold query_tool in Hq. unfold bind at 1 in Hq. rewrite guard_that_run in Hq.
    destruct ((limit <? 1) || (max_rows limits <? limit)) eqn:El.
    { injection Hq as <- <-. apply query_bad_limit. intros [H1 H2]. apply orb_true_iff in El as [El|El]; reflect; lia. }
    reflect. unfold bind at 1 in Hq. rewrite guard_that_run in Hq.
    destruct (blank sql) eqn:Eb; [injection Hq as <- <-; by apply query_blank|].
    unfold bind in Hq. destruct (source_query sql limit st) as [[st1 [r|e]]|] eqn:Es; [| |discriminate Hq].
    - apply bounded_result_outcome in Hq. by eapply query_answered.
    - injection Hq as <- <-. by apply query_failed. }
  split; [exact Ho|]. intros d ->. inversion Ho as [| | |st1 r st2 o2 _ _ Hb E1 E2]; subst.
  inversion Hb; subst; assumption.
Qed.
End Query.

(** ** An example: a result too large for a message *)

#[local] Instance store_itself : ArtifactAccess ArtifactStore := {
  artifact_store_of x := x;
  with_artifact_store x _ := x;
}.

(** A text of [n] characters [x]. *)
Fixpoint xs (n : nat) : string := match n with O => EmptyString | S n' => String (Ascii.ascii_of_N 120) (xs n') end.

#[local] Instance warehouse : ReadOnlyDataSource ArtifactStore := {
  source_name := "warehouse";
  source_list_tables _ _ _ := ret (mk_DataCatalogPage [] false);
  source_describe_table name _ _ := ret (mk_DataTableSchema (mk_DataTable name None None DK_TABLE None) [] []);
  source_query _ _ := ret (mk_DataQueryResult ["metric"; "value"]
    [[("metric", JStr "daily_active_users"); ("value", JStr (xs 200))];
     [("metric", JStr "revenue"); ("value", JStr (xs 200))]] None false);
}.

#[local] Instance no_floats : FloatRepr := fun _ => EmptyString.

Definition small_limits : DataLimits := mk_DataLimits 200 1000 512 10000000 1.

Definition warehouse_state : sys (World ArtifactStore) :=
  mk_sys (mk_World example_waiting ∅ ∅ ∅ (mk_ConversationStore ∅ ∅) (mk_ResourceScope SCOPE_CREATED [] [])
            artifact_store_empty) 0.

Definition warehouse_env (n : nat) : ambient := Ambient 0 (fun _ => 0) (fun _ => N.of_nat (n + 1)).

Definition large_query : option (sys (World ArtifactStore) * outcome jdict) :=
  query_tool warehouse_env "warehouse" small_limits "SELECT metric, value FROM metrics" 10 warehouse_state.

(** What the caller and the store have afterwards. *)
Definition large_query_seen : option (option json * option json * option (list Z)) :=
  match large_query with
  | Some (st', Ok d) =>
      Some (dget "externalized" d, dget "columns" d,
            Some (map (fun a => art_size_bytes a.2) (as_artifacts (w_ext (sys_w st')))))
  | _ => None
  end.

Lemma data_query_bounded_witness :
  large_query_seen = Some (Some (JBool true), Some (JArr [JStr "metric"; JStr "value"]), Some [614]) /\
  exists st' d, large_query = Some (st', Ok d) /\ json_size (JObj d) <= 512.
Proof.
  split; [vm_compute; reflexivity|].
  assert (exists st' d, large_query = Some (st', Ok d)) as (st' & d & E)
    by (eexists _, _; vm_compute; reflexivity).
  exists st', d. split; [exact E|].
  destruct (data_query_bounded warehouse_env "warehouse" small_limits "SELECT metric, value FROM metrics" 10
              warehouse_state st' (Ok d) E) as [_ Hd].
  exact (Hd d eq_refl).
Defined.
