(* ===== verification/MtbiSource.v ===== *)
(** * The MTBI data source ([src/base_agent/data_sources/mtbi_cli.py])

    A [ReadOnlyDataSource] over a command-line program: the commands it
    gives, and the tables it reads from the JSON texts it gets.  The process
    is an arbitrary program [runner], [json.loads] the class [JsonText]. *)

From Stdlib Require Import QArith.
From stdpp Require Import base gmap strings list.
From S2P Require Import Prelude Json Models Sha256 Texts Plan StateMachine ConversationStore RunStore EventStore FlowModels Program Serial Runtime RuntimeLogic Artifacts ModelTool React Providers SqlGuard DataSources.

(** ** Reading JSON *)

Definition mtbi_invalid (parts : list string) : exn := Exn InvalidMtbiCliResponseError (fstr parts).

(** [_as_mapping]. *)
Definition as_mapping (value : json) (label : string) : outcome jdict :=
  match value with
  | JObj d => Ok d
  | _ => Raise (mtbi_invalid ["MTBI "; label; " must be a JSON object"])
  end.

(** [_optional_string]. *)
Fixpoint optional_string (item : jdict) (keys : list string) : option string :=
  match keys with
  | [] => None
  | key :: keys' =>
      match dget key item with
      | Some (JStr s) => if blank s then optional_string item keys' else Some (strip s)
      | _ => optional_string item keys'
      end
  end.

(** The boolean of one value, [None] when the loop goes on. *)
Definition boolean_of (value : option json) : option bool :=
  match value with
  | Some (JBool b) => Some b
  | Some (JInt z) => if z =? 0 then Some false else if z =? 1 then Some true else None
  | Some (JStr s) =>
      let normalized := casefold (strip s) in
      if bool_decide (normalized ∈ ["true"; "yes"; "1"]) then Some true
      else if bool_decide (normalized ∈ ["false"; "no"; "0"]) then Some false else None
  | _ => None
  end.

(** [_optional_boolean]. *)
Fixpoint optional_boolean (item : jdict) (keys : list string) (default_value : bool) : bool :=
  match keys with
  | [] => default_value
  | key :: keys' =>
      match boolean_of (dget key item) with
      | Some b => b
      | None => optional_boolean item keys' default_value
      end
  end.

(** [f] of the value under [k]: a lookup the recursive readers may use. *)
Section Lookup.
Context {A : Type} (f : json -> A) (k : string).
Fixpoint dget_with (d : jdict) : option A :=
  match d with
  | [] => None
  | (k', v) :: d' => if decide (k = k') then Some (f v) else dget_with d'
  end.
End Lookup.

(** The first list, and the first integer, under one of the keys. *)
Fixpoint first_list (d : jdict) (keys : list string) : option (list json) :=
  match keys with
  | [] => None
  | key :: keys' => match dget key d with Some (JArr l) => Some l | _ => first_list d keys' end
  end.

Fixpoint first_integer (d : jdict) (keys : list string) : option Z :=
  match keys with
  | [] => None
  | key :: keys' => match dget key d with Some (JInt z) => Some z | _ => first_integer d keys' end
  end.

(** [x] of a call that found something, else [y]. *)
Definition found_or {A} (x : option (option A)) (y : option A) : option A :=
  match x with Some (Some a) => Some a | _ => y end.

(** [_find_sequence]. *)
Fixpoint find_sequence (keys : list string) (payload : json) : option (list json) :=
  match payload with
  | JArr l => Some l
  | JObj d =>
      match first_list d keys with
      | Some l => Some l
      | None =>
          found_or (dget_with (find_sequence keys) "data" d)
            (found_or (dget_with (find_sequence keys) "result" d) None)
      end
  | _ => None
  end.

(** [_find_integer]. *)
Fixpoint find_integer (keys : list string) (payload : json) : option Z :=
  match payload with
  | JObj d =>
      match first_integer d keys with
      | Some z => Some z
      | None =>
          found_or (dget_with (find_integer keys) "data" d)
            (found_or (dget_with (find_integer keys) "result" d)
               (found_or (dget_with (find_integer keys) "page" d) None))
      end
  | _ => None
  end.

(** [_find_mapping] of a mapping; a list or a scalar under a key is passed
    over. *)
Fixpoint find_mapping_in (payload : json) : option jdict :=
  match payload with
  | JObj d =>
      found_or (dget_with find_mapping_in "data" d)
        (found_or (dget_with find_mapping_in "result" d) (Some d))
  | _ => None
  end.

Definition find_mapping (payload : json) : outcome jdict :=
  match find_mapping_in payload with
  | Some d => Ok d
  | None => Raise (mtbi_invalid ["MTBI response must be a JSON object"])
  end.

(** [_find_query_container] of a mapping; a list under [data] or [result] is
    the rows. *)
Fixpoint query_container_in (payload : json) : option jdict :=
  match payload with
  | JObj d =>
      if bool_decide ("records" ∈ dkeys d) || bool_decide ("rows" ∈ dkeys d) then Some d
      else
        let nested (v : json) :=
          match v with JArr l => Some [("records", JArr l)] | _ => query_container_in v end in
        found_or (dget_with nested "data" d) (found_or (dget_with nested "result" d) (Some d))
  | _ => None
  end.

Definition find_query_container (payload : json) : outcome jdict :=
  match payload with
  | JArr _ => Ok []
  | _ => match query_container_in payload with
         | Some d => Ok d
         | None => Raise (mtbi_invalid ["MTBI query response must be a JSON object"])
         end
  end.

(** ** Names and metadata *)

(** [_required_text]. *)
Definition required_text (value field : string) : outcome string :=
  let normalized := strip value in
  raise_when is_empty normalized as value_error [field; " must not be blank"] in
  Ok normalized.

Definition dot : Ascii.ascii := Ascii.ascii_of_N 46.

(** [s.split(".")]. *)
Fixpoint split_dots (s : string) : list string :=
  match s with
  | EmptyString => [EmptyString]
  | String a s' =>
      if bool_decide (a = dot) then EmptyString :: split_dots s'
      else match split_dots s' with
           | part :: parts => String a part :: parts
           | [] => [String a EmptyString]
           end
  end.

(** [s.rsplit(".", maxsplit=1)[-1]]. *)
Definition after_last_dot (s : string) : string := List.last (split_dots s) EmptyString.

(** [_qualified_table_name]. *)
Definition qualified_table_name (table_name : string) (catalog_name schema_name : option string)
  : outcome string :=
  let! table := required_text table_name "table_name" in
  if has_char dot table then
    raise_when negb (bool_decide (catalog_name = None)) || negb (bool_decide (schema_name = None))
      as value_error ["catalog_name/schema_name cannot accompany a qualified table_name"] in
    Ok table
  else
    let! catalog := match catalog_name with
                    | Some c => let! c' := required_text c "catalog_name" in Ok [c']
                    | None => Ok []
                    end in
    let! schema := match schema_name with
                   | Some s => let! s' := required_text s "schema_name" in Ok [s']
                   | None => Ok []
                   end in
    Ok (String.concat "." (catalog ++ schema ++ [table])).

(** [sub in s]. *)
Fixpoint contains (sub s : string) : bool :=
  starts sub s || match s with String _ s' => contains sub s' | EmptyString => false end.

(** [_parse_table]. *)
Definition parse_table (value : json) (fallback_name fallback_catalog fallback_schema : option string)
  : outcome DataTable :=
  let! item := as_mapping value "table" in
  let full_name := optional_string item ["fullTableName"; "full_name"] in
  let table_name :=
    text_or (text_or (optional_string item ["tableName"; "table_name"; "name"]) fallback_name)
      (if falsy full_name then None else after_last_dot <$> full_name) in
  match table_name with
  | None => Raise (mtbi_invalid ["MTBI table metadata is missing tableName"])
  | Some name =>
      let table_type :=
        casefold (default "table" (optional_string item ["tableType"; "table_type"; "type"])) in
      let kind := if contains "view" table_type then DK_VIEW else DK_TABLE in
      let catalog := text_or (optional_string item ["databaseName"; "catalogName"; "database"]) fallback_catalog in
      let schema := text_or (optional_string item ["schemaName"; "schema_name"]) fallback_schema in
      let parts := match full_name with Some f => split_dots f | None => [] end in
      let catalog := match catalog with
                     | None => if (2 <=? length parts)%nat then head parts else None
                     | c => c
                     end in
      let schema := match schema with
                    | None => if (3 <=? length parts)%nat then parts !! (length parts - 2)%nat else None
                    | s => s
                    end in
      DataTable_new (mk_DataTable name schema catalog kind (optional_string item ["description"; "comment"]))
  end.

(** [_parse_column]. *)
Definition parse_column (value : json) : outcome DataColumn :=
  let! item := as_mapping value "column" in
  match optional_string item ["name"; "columnName"; "column_name"],
        optional_string item ["type"; "dataType"; "data_type"] with
  | Some name, Some data_type =>
      DataColumn_new (mk_DataColumn name data_type (optional_boolean item ["nullable"] true)
                        (optional_string item ["description"; "comment"]))
  | _, _ => Raise (mtbi_invalid ["MTBI column metadata requires name and type"])
  end.

(** [_parse_key_name]. *)
Definition parse_key_name (value : json) : outcome string :=
  let from_mapping (_ : unit) :=
    let! item := as_mapping value "primary key" in
    match optional_string item ["name"; "columnName"; "column_name"] with
    | Some name => Ok name
    | None => Raise (mtbi_invalid ["MTBI primary key is missing its name"])
    end in
  match value with
  | JStr s => if blank s then from_mapping tt else Ok (strip s)
  | _ => from_mapping tt
  end.

(** ** Query rows *)

(** [_parse_declared_columns]. *)
Definition column_name (raw_column : json) : outcome string :=
  let! name := match raw_column with
               | JStr s => Ok (strip s)
               | _ => let! item := as_mapping raw_column "query column" in
                      Ok (default "" (optional_string item ["name"; "columnName"]))
               end in
  raise_when is_empty name as mtbi_invalid ["MTBI query column is missing its name"] in
  Ok name.

Definition parse_declared_columns (value : option json) : outcome (list string) :=
  match value with
  | None | Some JNull => Ok []
  | Some (JArr raw) =>
      let! columns := traverse column_name raw in
      raise_when negb (bool_decide (NoDup columns)) as mtbi_invalid ["MTBI query columns must be unique"] in
      Ok columns
  | Some _ => Raise (mtbi_invalid ["MTBI query columns must be a list"])
  end.

(** The loops over the rows of [_parse_query_rows]. *)
Definition mapping_row (columns : list string) (raw_row : json) : outcome jdict :=
  let! row := as_mapping raw_row "query row" in
  raise_when negb (same_keys row columns)
    as mtbi_invalid ["MTBI query rows do not share one column schema"] in
  Ok (dmerge [] (map (fun c => (c, default JNull (dget c row))) columns)).

Definition array_row (columns : list string) (raw_row : json) : outcome jdict :=
  match raw_row with
  | JArr cells =>
      raise_when negb (length cells =? length columns)%nat
        as mtbi_invalid ["array-shaped MTBI row does not match declared columns"] in
      Ok (dmerge [] (zip columns cells))
  | _ => Raise (mtbi_invalid ["array-shaped MTBI row does not match declared columns"])
  end.

Definition is_mapping (j : json) : bool := match j with JObj _ => true | _ => false end.

(** [raw_rows] of [_parse_query_rows]. *)
Definition raw_rows_of (container : jdict) (payload : json) : option json :=
  let raw_rows := match dget "records" container with Some v => Some v | None => dget "rows" container end in
  match raw_rows, payload with
  | (None | Some JNull), JArr _ => Some payload
  | _, _ => raw_rows
  end.

(** [_parse_query_rows]. *)
Definition parse_query_rows (payload : json) : outcome (list string * list jdict) :=
  let! container := find_query_container payload in
  let! declared_columns := parse_declared_columns (dget "columns" container) in
  match raw_rows_of container payload with
  | Some (JArr []) => Ok (declared_columns, [])
  | Some (JArr ((first :: _) as rows)) =>
      if forallb is_mapping rows then
        let! first_row := as_mapping first "query row" in
        let columns := if bool_decide (length declared_columns = 0%nat) then dkeys first_row
                       else declared_columns in
        let! parsed := traverse (mapping_row columns) rows in
        Ok (columns, parsed)
      else
        raise_when bool_decide (length declared_columns = 0%nat)
          as mtbi_invalid ["array-shaped MTBI rows require declared columns"] in
        let! parsed := traverse (array_row declared_columns) rows in
        Ok (declared_columns, parsed)
  | _ => Raise (mtbi_invalid ["mtbi-cli onesql did not return a JSON row list"])
  end.

(** ** [MtbiCliDataSource] *)

Inductive MtbiEngine := PRESTO | SPARK | DORIS.

Definition MtbiEngine_value (e : MtbiEngine) : string :=
  match e with PRESTO => "PRESTO" | SPARK => "SPARK" | DORIS => "DORIS" end.

(** [str.upper] on the characters whose upper case is below 256. *)
Fixpoint upper (s : string) : string :=
  match s with
  | EmptyString => EmptyString
  | String a s' =>
      let n := Ascii.N_of_ascii a in
      if (n =? 223)%N then "SS" +:+ upper s'
      else if ((97 <=? n) && (n <=? 122) || (224 <=? n) && (n <=? 254) && negb (n =? 247))%N
           then String (Ascii.ascii_of_N (n - 32)) (upper s')
           else String a (upper s')
  end.

(** [MtbiEngine(text)]. *)
Definition MtbiEngine_of (text : string) : option MtbiEngine :=
  List.find (fun e => bool_decide (MtbiEngine_value e = text)) [PRESTO; SPARK; DORIS].

Record MtbiCliDataSource := mk_MtbiCliDataSource {
  mt_executable : string;
  mt_engine : MtbiEngine;
  mt_region : option string;
  mt_cwd : string;
  mt_timeout_seconds : seconds;
  mt_max_output_bytes : Z;
  mt_max_sql_characters : Z;
  mt_environment : option (list (string * string));
}.

(** [__init__]; [is_dir] tells the existing directories, [engine] is a
    member or a text. *)
Definition MtbiCliDataSource_new (is_dir : string -> bool) (executable : string)
  (engine : MtbiEngine + string) (region : option string) (cwd : string) (timeout_seconds : seconds)
  (max_output_bytes max_sql_characters : Z) (environment : option (list (string * string)))
  : outcome MtbiCliDataSource :=
  let normalized_executable := strip executable in
  raise_when is_empty normalized_executable as value_error ["MTBI CLI executable must not be blank"] in
  let! normalized_engine :=
    match engine with
    | inl e => Ok e
    | inr text => match MtbiEngine_of (upper (strip text)) with
                  | Some e => Ok e
                  | None => Raise (value_error ["MTBI engine must be PRESTO, SPARK, or DORIS"])
                  end
    end in
  let normalized_region := strip <$> region in
  raise_when match normalized_region with Some r => is_empty r | None => false end
    as value_error ["MTBI region must not be blank"] in
  raise_when Qle_bool timeout_seconds 0
    as value_error ["MTBI timeout_seconds must be greater than zero"] in
  raise_when max_output_bytes <? 1
    as value_error ["MTBI max_output_bytes must be greater than zero"] in
  raise_when max_sql_characters <? 1
    as value_error ["MTBI max_sql_characters must be greater than zero"] in
  raise_when negb (is_dir cwd)
    as value_error ["MTBI CLI working directory must be an existing directory"] in
  Ok (mk_MtbiCliDataSource normalized_executable normalized_engine normalized_region cwd timeout_seconds
        max_output_bytes max_sql_characters environment).

Example MtbiCliDataSource_engines :
  map (fun t => MtbiEngine_of (upper (strip t))) [" spark "; "Doris"; "hive"] = [Some SPARK; Some DORIS; None].
Proof. vm_compute. reflexivity. Qed.

(** What the runner is called with. *)
Record CLICall := mk_CLICall {
  cc_command : list string;
  cc_input_text : string;
  cc_cwd : string;
  cc_timeout_seconds : seconds;
  cc_max_output_bytes : Z;
  cc_environment : option (list (string * string));
}.

(** [l[:n]]. *)
Definition py_take {A} (n : Z) (l : list A) : list A :=
  take (Z.to_nat (if n <? 0 then Z.of_nat (length l) + n else n)) l.

Section Source.
Context {X : Type} `{JsonText}.
Variable runner : CLICall -> prog (World X) CLIProcessOutput.
Variable self : MtbiCliDataSource.

Abbreviation M := (prog (World X)).

(** [_run_json]. *)
Definition run_json_call (arguments : list string) (input_text : string) : CLICall :=
  let command := mt_executable self :: arguments in
  let command := match mt_region self with Some r => command ++ ["--region"; r] | None => command end in
  mk_CLICall command input_text (mt_cwd self) (mt_timeout_seconds self) (mt_max_output_bytes self)
    (mt_environment self).

Definition json_of_output (output : CLIProcessOutput) : outcome json :=
  raise_when negb (out_returncode output =? 0)
    as (let detail := String.substring 0 2000
                        (if is_empty (strip (out_stderr output)) then strip (out_stdout output)
                         else strip (out_stderr output)) in
        Exn MtbiCliError
          (fstr ["mtbi-cli exited with status "; zstr (out_returncode output); ": ";
                 if is_empty detail then "no error detail" else detail])) in
  match json_parse (out_stdout output) with
  | Some j => Ok j
  | None => Raise (mtbi_invalid ["mtbi-cli did not return valid JSON"])
  end.

Definition run_json (arguments : list string) (input_text : string) : M json :=
  let* output := runner (run_json_call arguments input_text) in
  of_outcome (json_of_output output).

(** [list_tables]: its command, and what it makes of the answer. *)
Definition named_option (option_name field : string) (value : option string) : outcome (list string) :=
  match value with
  | Some v => let! t := required_text v field in Ok [option_name; t]
  | None => Ok []
  end.

Definition search_arguments (catalog_name schema_name : option string) (limit : Z) : outcome (list string) :=
  let! db := named_option "--db" "catalog_name" catalog_name in
  let! schema := named_option "--schema" "schema_name" schema_name in
  Ok (["meta"; "search"; "--format"; "json"; "--page-size"; zstr limit] ++ db ++ schema).

Definition catalog_page (catalog_name schema_name : option string) (limit : Z) (payload : json)
  : outcome DataCatalogPage :=
  match find_sequence ["list"; "records"; "tables"] payload with
  | None => Raise (mtbi_invalid ["mtbi-cli meta search did not return a table list"])
  | Some raw_tables =>
      let! tables := traverse (fun item => parse_table item None catalog_name schema_name)
                       (py_take limit raw_tables) in
      DataCatalogPage_new (mk_DataCatalogPage tables
        match find_integer ["total"; "totalCount"; "count"] payload with
        | Some total => Z.of_nat (length tables) <? total
        | None => limit <? Z.of_nat (length raw_tables)
        end)
  end.

Definition mtbi_list_tables (catalog_name schema_name : option string) (limit : Z) : M DataCatalogPage :=
  let* arguments := of_outcome (search_arguments catalog_name schema_name limit) in
  let* payload := run_json arguments EmptyString in
  of_outcome (catalog_page catalog_name schema_name limit payload).

(** [describe_table]. *)
Definition table_schema (table_name : string) (catalog_name schema_name : option string) (payload : json)
  : outcome DataTableSchema :=
  let! info := find_mapping payload in
  match find_sequence ["columns"] (JObj info) with
  | None => Raise (mtbi_invalid ["mtbi-cli meta info did not return a column list"])
  | Some raw_columns =>
      let! columns := traverse parse_column raw_columns in
      let! primary_keys := traverse parse_key_name
                             (default [] (find_sequence ["primaryKeys"; "primary_keys"] (JObj info))) in
      let! table := parse_table (JObj info) (Some (after_last_dot table_name)) catalog_name schema_name in
      DataTableSchema_new (mk_DataTableSchema table columns primary_keys)
  end.

Definition mtbi_describe_table (table_name : string) (catalog_name schema_name : option string)
  : M DataTableSchema :=
  let* qualified_name := of_outcome (qualified_table_name table_name catalog_name schema_name) in
  let* payload := run_json ["meta"; "info"; qualified_name; "--format"; "json"] EmptyString in
  of_outcome (table_schema table_name catalog_name schema_name payload).

(** [query]. *)
Definition query_result (limit : Z) (payload : json) : outcome DataQueryResult :=
  let! '(columns, rows) := parse_query_rows payload in
  DataQueryResult_new (mk_DataQueryResult columns (py_take limit rows) None
                         (limit <? Z.of_nat (length rows))).

Definition query_arguments : list string :=
  ["onesql"; "--file"; "-"; "--engine"; MtbiEngine_value (mt_engine self); "--format"; "json"; "--no-progress"].

Definition mtbi_query (sql : string) (limit : Z) : M DataQueryResult :=
  let* bounded_sql := of_outcome (bounded_select sql limit (mt_max_sql_characters self)) in
  let* payload := run_json query_arguments bounded_sql in
  of_outcome (query_result limit payload).

(** The adapter as a data source. *)
Definition mtbi_source : ReadOnlyDataSource X := {|
  source_name := "mtbi-cli-onesql";
  source_list_tables := mtbi_list_tables;
  source_describe_table := mtbi_describe_table;
  source_query := mtbi_query;
|}.
End Source.

(** ** A parsed result is the payload's table *)

Lemma json_wf_dget (d : jdict) k v : json_wf (JObj d) -> dget k d = Some v -> json_wf v.
Proof.
  induction d as [|[k' a] d IH]; [done|]. intros [Ha Hd]%json_wf_obj_cons. simpl. case_decide; [|by apply IH].
  by intros [= <-].
Qed.

Lemma json_wf_elem l v : json_wf (JArr l) -> v ∈ l -> json_wf v.
Proof.
  induction l as [|a l IH]; [by intros _ ?%elem_of_nil|]. intros [Ha Hl] [->|Hv]%elem_of_cons; [done|by apply IH].
Qed.

Lemma dget_with_spec {A} (f : json -> A) k d : dget_with f k d = f <$> dget k d.
Proof. induction d as [|[k' v] d IH]; [done|]. simpl. by case_decide. Qed.

Lemma dget_snd (k : string) (v : json) d : dget k d = Some v -> v ∈ map snd d.
Proof. intros Hk%dget_elem. apply list_elem_of_fmap. by exists (k, v). Qed.

Lemma found_or_Some {A} (x : option (option A)) y a :
  found_or x y = Some a -> x = Some (Some a) \/ y = Some a.
Proof. destruct x as [[b|]|]; simpl; [left; by f_equal|by right|by right]. Qed.

Lemma query_container_wf payload : json_wf payload ->
  forall d, query_container_in payload = Some d -> json_wf (JObj d).
Proof.
  revert payload. apply (json_rect_deep (fun payload => json_wf payload ->
    forall d, query_container_in payload = Some d -> json_wf (JObj d))); try done.
  intros d IH Hwf d' H. cbn [query_container_in] in H.
  destruct (bool_decide _ || bool_decide _); [by injection H as <-|].
  rewrite !dget_with_spec in H.
  set (nested := fun v => match v with JArr l => Some [("records", JArr l)] | _ => query_container_in v end) in H.
  assert (forall k, nested <$> dget k d = Some (Some d') -> json_wf (JObj d')) as Hn.
  { intros k Hk. apply fmap_Some in Hk as (v & Hv & Hd'). pose proof (json_wf_dget _ _ _ Hwf Hv) as Hwv.
    apply dget_snd in Hv. rewrite Forall_forall in IH.
    destruct v as [| | | | |l|e]; try discriminate Hd'.
    - injection Hd' as ->. split; [by apply NoDup_singleton|by split].
    - by apply (IH _ Hv Hwv). }
  apply found_or_Some in H as [H|H]; [by eapply Hn|]. apply found_or_Some in H as [H|H]; [by eapply Hn|].
  by injection H as <-.
Qed.

Lemma raw_rows_wf payload container rows :
  json_wf payload -> find_query_container payload = Ok container ->
  raw_rows_of container payload = Some (JArr rows) -> json_wf (JArr rows).
Proof.
  intros Hwf Hc Hr. assert (json_wf (JObj container)) as Hwc.
  { unfold find_query_container in Hc. destruct payload as [| | | | |l|d]; try discriminate Hc.
    - injection Hc as <-. split; [apply NoDup_nil_2|done].
    - destruct (query_container_in (JObj d)) as [e|] eqn:E; [|done]. injection Hc as <-.
      by eapply query_container_wf. }
  unfold raw_rows_of in Hr.
  assert (forall v, match dget "records" container with Some v => Some v | None => dget "rows" container end = Some v ->
            json_wf v) as Hg.
  { intros v. destruct (dget "records" container) as [u|] eqn:E; [intros [= <-]|intros E']; by eapply json_wf_dget. }
  destruct (match dget "records" container with Some v => Some v | None => dget "rows" container end) as [v|].
  - specialize (Hg v eq_refl). destruct v, payload; try (by injection Hr as ->); try discriminate Hr.
  - destruct payload; try discriminate Hr. by injection Hr as ->.
Qed.

(** [row] is [raw] over [columns]. *)
Definition row_of (columns : list string) (raw : json) (row : jdict) : Prop :=
  dkeys row = columns /\
  match raw with
  | JObj d => forall c, dget c row = dget c d
  | JArr cells => dvalues row = cells
  | _ => False
  end.

Lemma same_keys_spec row columns :
  same_keys row columns = true <-> forall c, c ∈ dkeys row <-> c ∈ columns.
Proof.
  unfold same_keys. rewrite andb_true_iff, !forallb_Forall_bool, !Forall_forall. split.
  - intros [H1 H2] c. split; intros Hc; [apply H1 in Hc|apply H2 in Hc]; by apply bool_decide_eq_true_1 in Hc.
  - intros H. split; intros c Hc; apply bool_decide_eq_true_2; by apply H.
Qed.

Lemma dkeys_comprehension {A} (f : A -> json) (key : A -> string) l :
  dkeys (map (fun a => (key a, f a)) l) = map key l.
Proof. unfold dkeys. rewrite map_map. done. Qed.

Lemma dget_comprehension (f : string -> json) c columns :
  dget c (map (fun a => (a, f a)) columns) = if bool_decide (c ∈ columns) then Some (f c) else None.
Proof.
  induction columns as [|a columns IH]; [done|]. simpl. rewrite IH.
  destruct (decide (c = a)) as [->|Hne]; [by rewrite bool_decide_true by (by left)|].
  assert (c ∈ a :: columns <-> c ∈ columns) as E by (rewrite elem_of_cons; naive_solver).
  by rewrite (bool_decide_ext _ _ E).
Qed.

Lemma mapping_row_Ok columns raw row :
  NoDup columns -> mapping_row columns raw = Ok row -> row_of columns raw row.
Proof.
  intros Hnd H. destruct raw as [| | | | | |d]; try discriminate H. unfold mapping_row in H. simpl in H.
  destruct (same_keys d columns) eqn:E; [|discriminate H]. injection H as <-. rewrite same_keys_spec in E.
  rewrite dmerge_nil by (by rewrite map_map, map_id).
  split; [by rewrite (dkeys_comprehension _ (fun c => c)), map_id|].
  intros c. rewrite dget_comprehension. case_bool_decide as Hc.
  - apply E in Hc. destruct (dget c d) eqn:Ed; [done|]. by apply dget_None in Ed.
  - symmetry. apply dget_None. by rewrite E.
Qed.

Lemma array_row_Ok columns raw row :
  NoDup columns -> array_row columns raw = Ok row -> row_of columns raw row.
Proof.
  intros Hnd H. destruct raw as [| | | | |cells|]; try discriminate H. unfold array_row in H.
  destruct (length cells =? length columns)%nat eqn:E; [|discriminate H]. injection H as <-.
  apply Nat.eqb_eq in E. assert (map fst (zip columns cells) = columns) as Ek by (apply fst_zip; lia).
  rewrite dmerge_nil by (by rewrite Ek). split; [done|]. apply snd_zip. lia.
Qed.

Lemma declared_columns_NoDup v columns : parse_declared_columns v = Ok columns -> NoDup columns.
Proof.
  destruct v as [[| | | | |raw|]|]; simpl; try discriminate; try (intros [= <-]; apply NoDup_nil_2).
  destruct (traverse column_name raw); [|discriminate]. destruct (negb _) eqn:E; [discriminate|].
  intros [= <-]. by reflect.
Qed.

Lemma traverse_rows f columns raws rows :
  (forall raw row, f raw = Ok row -> row_of columns raw row) -> traverse f raws = Ok rows ->
  Forall2 (row_of columns) raws rows.
Proof. intros Hf H%traverse_Forall2. eapply Forall2_impl; [exact H|]. apply Hf. Qed.

Lemma parse_query_rows_table payload columns rows :
  json_wf payload -> parse_query_rows payload = Ok (columns, rows) ->
  NoDup columns /\ exists container raws, find_query_container payload = Ok container /\
    raw_rows_of container payload = Some (JArr raws) /\ Forall2 (row_of columns) raws rows.
Proof.
  intros Hwf H. unfold parse_query_rows in H.
  destruct (find_query_container payload) as [container|] eqn:Ec; [|discriminate H].
  destruct (parse_declared_columns _) as [declared|] eqn:Ed; [|discriminate H].
  apply declared_columns_NoDup in Ed.
  destruct (raw_rows_of container payload) as [[| | | | |[|first raws]|]|] eqn:Er; try discriminate H.
  { injection H as <- <-. split; [done|]. by exists container, []. }
  pose proof (raw_rows_wf _ _ _ Hwf Ec Er) as [Hfirst _].
  assert (exists f, (forall raw row, f raw = Ok row -> row_of columns raw row) /\
            traverse f (first :: raws) = Ok rows /\ NoDup columns) as (f & Hf & Ht & Hnd).
  { destruct (forallb is_mapping (first :: raws)).
    - destruct (as_mapping first "query row") as [d|] eqn:Ef; [|discriminate H].
      destruct first; try discriminate Ef. injection Ef as ->.
      set (cols := if bool_decide _ then _ else _) in H.
      destruct (traverse (mapping_row cols) _) as [parsed|] eqn:Ep; [|discriminate H]. injection H as <- <-.
      assert (NoDup cols) as Hnd by (unfold cols; case_bool_decide; [apply Hfirst|done]).
      exists (mapping_row cols). split; [|done]. intros raw row. by apply mapping_row_Ok.
    - destruct (bool_decide _); [discriminate H|].
      destruct (traverse (array_row declared) _) as [parsed|] eqn:Ep; [|discriminate H]. injection H as <- <-.
      exists (array_row declared). split; [|done]. intros raw row. by apply array_row_Ok. }
  split; [done|]. exists container, (first :: raws). split; [done|]. split; [done|].
  eapply traverse_rows; [exact Hf|exact Ht].
Qed.

Lemma row_of_same_keys columns raw row : row_of columns raw row -> same_keys row columns = true.
Proof. intros [Hk _]. apply same_keys_spec. by rewrite Hk. Qed.

Lemma rows_validate columns raws rows more :
  NoDup columns -> Forall2 (row_of columns) raws rows ->
  DataQueryResult_validate (mk_DataQueryResult columns rows None more) = Ok tt.
Proof.
  intros Hnd Hr. unfold DataQueryResult_validate. simpl. rewrite (bool_decide_true _ Hnd). simpl.
  enough (forallb (fun row => same_keys row columns) rows = true) as -> by done.
  apply forallb_Forall_bool. induction Hr; constructor; [by eapply row_of_same_keys|done].
Qed.

(** C16: the result of a query is the table of the answer.  Whatever JSON the
    command prints, the rows given are the first [limit] of its row list, in
    order, each with the declared columns - or those of the first row - as
    its keys in that order and with the values it has there; [has_more] tells
    whether rows were left out; and once the answer is read as a table, only
    the size limits of [DataQueryResult] can refuse it, never its check of
    the rows. *)
Theorem query_result_is_table limit payload :
  0 <= limit -> json_wf payload ->
  (forall r, query_result limit payload = Ok r ->
     NoDup (dq_columns r) /\
     exists container raws, find_query_container payload = Ok container /\
       raw_rows_of container payload = Some (JArr raws) /\
       Forall2 (row_of (dq_columns r)) (take (Z.to_nat limit) raws) (dq_rows r) /\
       (dq_has_more r = true <-> limit < Z.of_nat (length raws))) /\
  (forall columns rows, parse_query_rows payload = Ok (columns, rows) ->
     Z.of_nat (length columns) <= 2000 -> limit <= 10001 -> is_ok (query_result limit payload)).
Proof.
  intros Hl Hwf. unfold query_result.
  destruct (parse_query_rows payload) as [[columns rows]|e] eqn:Ep; [|by split; intros].
  destruct (parse_query_rows_table _ _ _ Hwf Ep) as (Hnd & container & raws & Hc & Hr & Hrows).
  assert (py_take limit rows = take (Z.to_nat limit) rows) as Et
    by (unfold py_take; by rewrite (proj2 (Z.ltb_ge limit 0) Hl)).
  assert (Forall2 (row_of columns) (take (Z.to_nat limit) raws) (take (Z.to_nat limit) rows)) as Htake
    by (by apply Forall2_take).
  rewrite Et. split.
  - intros r (_ & _ & ->)%checked_Ok. split; [done|]. exists container, raws. split; [done|]. split; [done|].
    split; [done|]. simpl. by rewrite Z.ltb_lt, (Forall2_length _ _ _ Hrows).
  - intros columns' rows' [= <- <-] Hn Hm. unfold DataQueryResult_new, checked.
    rewrite (rows_validate _ _ _ _ Hnd Htake). unfold DataQueryResult_fields. simpl.
    rewrite (proj2 (Z.leb_le _ 2000) Hn), (proj2 (Z.leb_le _ 10001)); [by eexists|].
    rewrite length_take. lia.
Qed.

(** ** What a session does *)

(** The calls a model can make of the three tools. *)
Inductive data_call :=
  | CallListTables (catalog_name schema_name : option string) (limit : Z)
  | CallDescribeTable (table_name : string) (catalog_name schema_name : option string)
  | CallQuery (sql : string) (limit : Z).

Section Session.
Context {X : Type} `{!ArtifactAccess X} `{JsonText} `{FloatRepr}.
Variable env : nat -> ambient.
Variable runner : CLICall -> prog (World X) CLIProcessOutput.
Variable self : MtbiCliDataSource.
Variable source : string.
Variable limits : DataLimits.

Abbreviation M := (prog (World X)).

Definition run_data_call (c : data_call) : M jdict :=
  let mtbi := mtbi_source runner self in
  match c with
  | CallListTables catalog schema limit =>
      list_tables_tool (ReadOnlyDataSource0 := mtbi) source limits catalog schema limit
  | CallDescribeTable table catalog schema =>
      describe_table_tool (ReadOnlyDataSource0 := mtbi) source table catalog schema
  | CallQuery sql limit => query_tool (ReadOnlyDataSource0 := mtbi) env source limits sql limit
  end.

(** One call after the other, whatever each comes to. *)
Fixpoint data_session (calls : list data_call) : M unit :=
  match calls with
  | [] => ret tt
  | c :: calls' =>
      do* try_except (do* run_data_call c in ret tt) (fun _ => Some (ret tt)) in data_session calls'
  end.

(** Whether an engine takes a backslash inside quotes for an escape, as Spark
    does and Presto does not. *)
Variable backslash_escapes : MtbiEngine -> bool.

(** The commands a session may give: a search or a description in the
    catalog with nothing on the standard input, or the query command with one
    limited SELECT statement there: as quotes with backslash escapes are read,
    and as the engine reads them unless that reading has no escapes and the
    text a backslash. *)
Inductive read_only_command : list string -> string -> Prop :=
  | search_command catalog schema limit arguments :
      1 <= limit <= max_tables limits -> search_arguments catalog schema limit = Ok arguments ->
      read_only_command arguments EmptyString
  | info_command table catalog schema qualified :
      qualified_table_name table catalog schema = Ok qualified ->
      read_only_command ["meta"; "info"; qualified; "--format"; "json"] EmptyString
  | select_command inner limit :
      1 <= limit <= max_rows limits -> slen inner <= mt_max_sql_characters self ->
      read_only_text true (bounded_text inner limit) ->
      (backslash_escapes (mt_engine self) = true \/ has_char backslash inner = false ->
       read_only_text (backslash_escapes (mt_engine self)) (bounded_text inner limit)) ->
      read_only_command (query_arguments self) (bounded_text inner limit).

Definition read_only_call (c : CLICall) : Prop :=
  exists arguments input, c = run_json_call self arguments input /\ read_only_command arguments input.

(** [p] keeps [I]. *)
Definition preserves (I : sys (World X) -> Prop) {A} (p : M A) : Prop :=
  forall st st' o, I st -> p st = Some (st', o) -> I st'.

Section Preserves.
Variable I : sys (World X) -> Prop.

Lemma preserves_of_outcome {A} (o : outcome A) : preserves I (of_outcome o).
Proof. by intros st st' o' Hi [= <- _]. Qed.

Lemma preserves_ret {A} (a : A) : preserves I (ret a).
Proof. by intros st st' o' Hi [= <- _]. Qed.

Lemma preserves_bind {A B} (p : M A) (k : A -> M B) :
  preserves I p -> (forall a, preserves I (k a)) -> preserves I (bind p k).
Proof.
  intros Hp Hk st st' o Hi E. unfold bind in E. destruct (p st) as [[st1 [a|e]]|] eqn:Ep; [| |discriminate E].
  - eapply Hk; [|exact E]. by eapply Hp.
  - injection E as <- _. by eapply Hp.
Qed.

(** A check, and what follows when it passes. *)
Lemma preserves_guard {A} (b : bool) e (k : M A) :
  (b = false -> preserves I k) -> preserves I (do* guard_that b e in k).
Proof. intros Hk. destruct b; [by intros st st' o Hi [= <- _]|]. exact (Hk eq_refl). Qed.

Lemma preserves_checked {A B} (o : outcome A) (k : A -> M B) :
  (forall a, o = Ok a -> preserves I (k a)) -> preserves I (let* a := of_outcome o in k a).
Proof. intros Hk. destruct o as [a|e]; [exact (Hk a eq_refl)|]. by intros st st' o' Hi [= <- _]. Qed.

Lemma preserves_try {A} (p : M A) q : preserves I p -> preserves I q -> preserves I (try_except p (fun _ => Some q)).
Proof.
  intros Hp Hq st st' o Hi E. unfold try_except in E.
  destruct (p st) as [[st1 [a|e]]|] eqn:Ep; [| |discriminate E].
  - injection E as <- _. by eapply Hp.
  - eapply Hq; [|exact E]. by eapply Hp.
Qed.
End Preserves.

Section Contained.
Variable I : sys (World X) -> Prop.
Hypothesis runner_keeps : forall c, read_only_call c -> preserves I (runner c).
Hypothesis reading_keeps : forall w n, I (mk_sys w n) -> I (mk_sys w (S n)).
Hypothesis create_keeps : forall name content metadata,
  slen content <= max_artifact_bytes limits ->
  preserves I (manager_create env name "application/json" content metadata).

Lemma run_json_keeps arguments input :
  read_only_command arguments input -> preserves I (run_json runner self arguments input).
Proof using runner_keeps.
  intros Hc. apply preserves_bind; [|intros; apply preserves_of_outcome].
  apply runner_keeps. by exists arguments, input.
Qed.

Lemma list_tables_keeps catalog schema limit :
  1 <= limit <= max_tables limits -> preserves I (mtbi_list_tables runner self catalog schema limit).
Proof using runner_keeps.
  intros Hl. apply preserves_checked. intros arguments Ha.
  apply preserves_bind; [|intros; apply preserves_of_outcome].
  apply run_json_keeps. by eapply search_command.
Qed.

Lemma describe_table_keeps table catalog schema :
  preserves I (mtbi_describe_table runner self table catalog schema).
Proof using runner_keeps.
  apply preserves_checked. intros qualified Hq.
  apply preserves_bind; [|intros; apply preserves_of_outcome].
  apply run_json_keeps. by eapply info_command.
Qed.

Lemma query_keeps sql limit :
  1 <= limit <= max_rows limits -> preserves I (mtbi_query runner self sql limit).
Proof using runner_keeps.
  intros Hl. apply preserves_checked. intros text Ht.
  destruct (bounded_select_read_only sql limit _ text ltac:(lia) Ht) as (inner & -> & Hn & Hr).
  apply preserves_bind; [|intros; apply preserves_of_outcome].
  apply run_json_keeps. apply select_command; [done|done|apply Hr; by left|].
  intros He. apply Hr. destruct He as [He|He]; [by left|by right; right].
Qed.

Lemma draw_keeps : preserves I (draw_hex12 env).
Proof using reading_keeps. intros [w n] st' o Hi [= <- _]. by apply reading_keeps. Qed.

Lemma bounded_result_keeps r limit : preserves I (bounded_result env source limits r limit).
Proof using reading_keeps create_keeps.
  unfold bounded_result. destruct (_ <=? _); [apply preserves_ret|].
  apply preserves_guard. intros Ha. apply Z.ltb_ge in Ha.
  apply preserves_bind; [apply draw_keeps|intros hex].
  apply preserves_bind; [by apply create_keeps|intros a].
  apply preserves_guard. intros _. apply preserves_ret.
Qed.

Lemma run_data_call_keeps c : preserves I (run_data_call c).
Proof using runner_keeps reading_keeps create_keeps.
  destruct c as [catalog schema limit|table catalog schema|sql limit]; simpl.
  - apply preserves_guard. intros [H1 H2]%orb_false_iff. reflect.
    apply preserves_bind; [by apply list_tables_keeps|intros; apply preserves_ret].
  - apply preserves_bind; [apply describe_table_keeps|intros; apply preserves_ret].
  - apply preserves_guard. intros [H1 H2]%orb_false_iff. reflect. apply preserves_guard. intros _.
    apply preserves_bind; [by apply query_keeps|intros; apply bounded_result_keeps].
Qed.

Lemma run_json_ends (runner_ends : forall c, ends (runner c)) arguments input : ends (run_json runner self arguments input).
Proof. apply ends_bind; [apply runner_ends|intros; apply ends_of_outcome]. Qed.

Lemma manager_create_ends name media_type content metadata :
  ends (manager_create (X := X) env name media_type content metadata).
Proof.
  intros st. destruct (quiet_manager_create env 0%N name media_type content metadata st) as (st' & o & E & _).
  by exists st', o.
Qed.

Lemma guard_ends {A} (b : bool) e (k : M A) : ends k -> ends (do* guard_that b e in k).
Proof. intros Hk. intros st. destruct b; [by eexists _, _|exact (Hk st)]. Qed.

Lemma draw_ends : ends (draw_hex12 (X := X) env).
Proof. intros st. by eexists _, _. Qed.

Lemma bounded_result_ends r limit : ends (bounded_result env source limits r limit).
Proof.
  unfold bounded_result. destruct (_ <=? _); [apply ends_ret|]. apply guard_ends.
  apply ends_bind; [apply draw_ends|intros hex]. apply ends_bind; [apply manager_create_ends|intros a].
  apply guard_ends, ends_ret.
Qed.

Lemma run_data_call_ends (runner_ends : forall c, ends (runner c)) c : ends (run_data_call c).
Proof.
  destruct c as [catalog schema limit|table catalog schema|sql limit]; simpl.
  - apply guard_ends. apply ends_bind; [|intros; apply ends_ret].
    apply ends_bind; [apply ends_of_outcome|intros arguments].
    apply ends_bind; [by apply run_json_ends|intros; apply ends_of_outcome].
  - apply ends_bind; [|intros; apply ends_ret].
    apply ends_bind; [apply ends_of_outcome|intros qualified].
    apply ends_bind; [by apply run_json_ends|intros; apply ends_of_outcome].
  - apply guard_ends, guard_ends. apply ends_bind; [|intros; apply bounded_result_ends].
    apply ends_bind; [apply ends_of_outcome|intros text].
    apply ends_bind; [by apply run_json_ends|intros; apply ends_of_outcome].
Qed.

Lemma data_session_ends (runner_ends : forall c, ends (runner c)) calls : ends (data_session calls).
Proof.
  induction calls as [|c calls IH]; [apply ends_ret|]. apply ends_bind; [|intros; exact IH].
  apply ends_try; [|intros e q [= <-]; apply ends_ret].
  apply ends_bind; [by apply run_data_call_ends|intros; apply ends_ret].
Qed.

Lemma data_session_keeps calls : preserves I (data_session calls).
Proof using runner_keeps reading_keeps create_keeps.
  induction calls as [|c calls IH]; [apply preserves_ret|].
  apply preserves_bind; [|intros; exact IH]. apply preserves_try; [|apply preserves_ret].
  apply preserves_bind; [apply run_data_call_keeps|intros; apply preserves_ret].
Qed.

(** C13: what a session of data-source tools over the MTBI command line may
    do.  Whatever tool calls a model makes and whatever the command prints,
    all that happens are catalog commands without input, query commands whose
    input is one limited SELECT statement without forbidden words, and the
    creation of JSON artifacts within the limit: what these leave intact, the
    session leaves intact; and when every run of the command ends, the session
    ends.  That the input is such a statement holds as quotes with backslash
    escapes are read, and as the engine reads them when it reads them so or
    the text has no backslash: on an engine with standard quoting, such as
    the default one, a backslash can hide a second statement from the guard
    ([backslash_hides_statement]). *)
Theorem data_session_read_only calls st :
  I st ->
  (forall st' o, data_session calls st = Some (st', o) -> I st') /\
  ((forall c, ends (runner c)) -> exists st' o, data_session calls st = Some (st', o)).
Proof using runner_keeps reading_keeps create_keeps.
  intros Hi. split; [intros st' o E; by eapply data_session_keeps|].
  intros Hends. destruct (data_session_ends Hends calls st) as (st' & o & E). by exists st', o.
Qed.
End Contained.
End Session.

(** ** An example: a session with a logging command line *)

#[local] Instance no_artifacts : ArtifactAccess (list CLICall) := {
  artifact_store_of _ := artifact_store_empty;
  with_artifact_store _ x := x;
}.

#[local] Instance two_rows : JsonText := fun _ =>
  Some (JObj [("data", JArr [JObj [("metric", JStr "dau"); ("value", JInt 100)];
                             JObj [("value", JInt 42); ("metric", JStr "revenue")]])]).

#[local] Instance floats_unused : FloatRepr := fun _ => EmptyString.

Definition logging_runner (c : CLICall) : prog (World (list CLICall)) CLIProcessOutput := fun st =>
  Some (mk_sys (set_ext (w_ext (sys_w st) ++ [c]) (sys_w st)) (sys_tick st),
        Ok (mk_CLIProcessOutput 0 "[]" "")).

Definition spark_source : MtbiCliDataSource :=
  mk_MtbiCliDataSource "mtbi-cli" SPARK (Some "volc_cn") "/" 300 10000000 100000 None.

Definition session_limits : DataLimits := mk_DataLimits 200 1000 64000 10000000 20.

Definition session_state : sys (World (list CLICall)) :=
  mk_sys (mk_World example_waiting ∅ ∅ ∅ (mk_ConversationStore ∅ ∅) (mk_ResourceScope SCOPE_CREATED [] []) []) 0.

Definition session_env (n : nat) : ambient := Ambient 0 (fun _ => 0) (fun _ => N.of_nat n).

Definition session_calls : list data_call :=
  [CallQuery "select metric, value from t" 2; CallQuery "drop table t" 2;
   CallDescribeTable "t" (Some "warehouse") None].

Definition logged (st : sys (World (list CLICall))) : list CLICall := w_ext (sys_w st).

Lemma logging_create_keeps P name media_type content metadata :
  preserves (fun st => P (logged st)) (manager_create (X := list CLICall) session_env name media_type content metadata).
Proof.
  unfold manager_create. apply preserves_bind; [by intros st st' o Hi [= <- _]|intros c].
  apply preserves_bind.
  { intros st st' o Hi E. unfold call_artifacts, call_store in E.
    destruct (create_artifact _ _ _ _ _ _ _) as [[s a]|e]; by injection E as <- _. }
  intros a. apply preserves_bind; [by intros st st' o Hi [= <- _]|intros _].
  apply preserves_bind; [|intros; apply preserves_ret].
  intros st st' o Hi E. unfold emit_event, call_store in E.
  destruct (emit _ _ _ _ _) as [[evs ev]|e]; by injection E as <- _.
Qed.

(** Spark escapes, Presto and Doris are read by the standard. *)
Definition spark_escapes (e : MtbiEngine) : bool := match e with SPARK => true | _ => false end.

(** Of the three calls two reach the command line, and both are read-only. *)
Lemma data_session_read_only_witness :
  exists st' o,
    data_session (H := two_rows) session_env logging_runner spark_source "mtbi" session_limits session_calls session_state
    = Some (st', o) /\
    Forall (read_only_call spark_source session_limits spark_escapes) (logged st').
Proof.
  destruct (data_session_read_only (H := two_rows) session_env logging_runner spark_source "mtbi" session_limits
            spark_escapes (fun st => Forall (read_only_call spark_source session_limits spark_escapes) (logged st)))
    with (calls := session_calls) (st := session_state) as [Hkeeps Hends].
  - intros c Hc st st' o Hi [= <- _]. unfold logged in *. simpl. apply Forall_app. by repeat constructor.
  - done.
  - intros name content metadata _. apply (logging_create_keeps (Forall (read_only_call spark_source session_limits spark_escapes))).
  - apply Forall_nil_2.
  - destruct Hends as (st' & o & E); [intros c st; by eexists _, _|].
    exists st', o. split; [exact E|]. by eapply Hkeeps.
Defined.

Example session_log :
  (fun r => map (fun c => (cc_command c, cc_input_text c)) (logged r.1)) <$>
    data_session (H := two_rows) session_env logging_runner spark_source "mtbi" session_limits session_calls session_state
  = Some [(["mtbi-cli"; "onesql"; "--file"; "-"; "--engine"; "SPARK"; "--format"; "json"; "--no-progress";
            "--region"; "volc_cn"], bounded_text "select metric, value from t" 2);
          (["mtbi-cli"; "meta"; "info"; "warehouse.t"; "--format"; "json"; "--region"; "volc_cn"], "")].
Proof. vm_compute. reflexivity. Qed.

Lemma query_result_is_table_witness :
  exists r, query_result 1 (default JNull (two_rows "")) = Ok r /\
    dq_rows r = [[("metric", JStr "dau"); ("value", JInt 100)]] /\ dq_has_more r = true.
Proof.
  assert (json_wf (default JNull (two_rows ""))) as Hwf.
  { simpl. repeat split; repeat constructor; rewrite ?elem_of_cons, ?elem_of_nil; intros Hin; by naive_solver. }
  destruct (query_result_is_table 1 (default JNull (two_rows "")) ltac:(lia) Hwf) as [_ Hok].
  destruct (Hok ["metric"; "value"]
              [[("metric", JStr "dau"); ("value", JInt 100)]; [("metric", JStr "revenue"); ("value", JInt 42)]])
    as [r Hr]; [vm_compute; reflexivity|done|done|].
  exists r. split; [exact Hr|]. vm_compute in Hr. injection Hr as <-. done.
Defined.
