(* ===== verification/ServerEvents.v ===== *)
(** * The event stream of the Run server ([src/base_agent/server/app.py])

    Events are sent to HTTP clients as server-sent events.  The stream is
    modelled to its bytes, and read back by the client of the HTML standard,
    which reconnects after a cut with the id of the last event it got. *)

From Stdlib Require Import QArith.
From stdpp Require Import base gmap strings list pretty.
From S2P Require Import Prelude Json Models Sha256 Texts Plan EventStore FlowModels Serial ModelTool React Providers.

(** ** The server *)

(** [event.model_dump(mode="json")]. *)
Definition RuntimeEvent_dump (e : RuntimeEvent) : json :=
  JObj [("id", juuid (ev_id e)); ("run_id", juuid (ev_run_id e)); ("sequence", JInt (ev_sequence e));
        ("type", JStr (EventType_value (ev_type e))); ("timestamp", datetime_json (ev_timestamp e));
        ("data", JObj (ev_data e))].

Section Frames.
Context `{FloatRepr}.

(** The data of an event: [json.dumps(..., ensure_ascii=False, separators=(",", ":"))]. *)
Definition event_data (e : RuntimeEvent) : string := json_text "," ":" (RuntimeEvent_dump e).

(** One chunk of [_sse_events]. *)
Definition sse_frame (e : RuntimeEvent) : string :=
  utf8 (fstr ["id: "; zstr (ev_sequence e); newline; "event: "; EventType_value (ev_type e); newline;
              "data: "; event_data e; newline; newline]).

(** [_sse_events] over the events a subscription yields. *)
Definition sse_events (events : list RuntimeEvent) : string := fstr (map sse_frame events).
End Frames.

(** [HTTPException(status_code, detail)]. *)
Record HTTPException := mk_HTTPException { http_status : Z; http_detail : string }.

(** [int(text)]: whitespace around, a sign, digits with single underscores
    between them. *)
Fixpoint int_digits (after_digit : bool) (acc : Z) (s : string) : option Z :=
  match s with
  | EmptyString => if after_digit then Some acc else None
  | String a s' =>
      if is_digit_char a then int_digits true (acc * 10 + (Z.of_N (Ascii.N_of_ascii a) - 48)) s'
      else if (Ascii.N_of_ascii a =? 95)%N && after_digit then int_digits false acc s' else None
  end.

Definition py_int (text : string) : option Z :=
  match strip text with
  | String a s =>
      if (Ascii.N_of_ascii a =? 45)%N then Z.opp <$> int_digits false 0 s
      else if (Ascii.N_of_ascii a =? 43)%N then int_digits false 0 s
      else int_digits false 0 (String a s)
  | EmptyString => None
  end.

Example py_int_examples :
  map py_int [" 42 "; "-7"; "+1_000"; "1__0"; "_1"; "1_"; ""; "x"] =
  [Some 42; Some (-7); Some 1000; None; None; None; None; None].
Proof. vm_compute. reflexivity. Qed.

(** [_event_cursor]. *)
Definition event_cursor (after_sequence : Z) (last_event_id : option string) : HTTPException + Z :=
  match last_event_id with
  | None => inr after_sequence
  | Some text =>
      match py_int text with
      | None => inl (mk_HTTPException 400 "Last-Event-ID must be an integer")
      | Some header_cursor =>
          if header_cursor <? 0 then inl (mk_HTTPException 400 "Last-Event-ID must be non-negative")
          else inr (Z.max after_sequence header_cursor)
      end
  end.

(** ** The client of the HTML standard

    It reads characters into lines, ended by a line feed, a carriage return
    or both; a line sets a field, an empty one dispatches the message.  What
    was not dispatched when the stream ends is lost. *)

Record sse_message := mk_sse_message {
  sm_id : string;
  sm_event : string;
  sm_data : string;
}.

(** [client_line] is the line so far, in reverse; [client_data] the data
    lines so far. *)
Record sse_client := mk_sse_client {
  client_line : string;
  client_after_cr : bool;
  client_id : string;
  client_event : string;
  client_data : list string;
  client_messages : list sse_message;
}.

(** A new connection, after the id [last]. *)
Definition client_connected (last : string) : sse_client := mk_sse_client "" false last "" [] [].

Definition sse_colon : Ascii.ascii := Ascii.ascii_of_N 58.

(** Field name and value of a line. *)
Definition sse_field (line : string) : string * string :=
  let '(name, rest) := span (fun a => negb (bool_decide (a = sse_colon))) line in
  (name, match rest with
         | String _ (String b value as v) => if (Ascii.N_of_ascii b =? 32)%N then value else v
         | _ => ""
         end).

(** The end of the line [line]. *)
Definition sse_line (line : string) (c : sse_client) : sse_client :=
  if is_empty line then
    mk_sse_client "" (client_after_cr c) (client_id c) "" []
      (match client_data c with
       | [] => client_messages c
       | data => client_messages c
                 ++ [mk_sse_message (client_id c) (client_event c) (String.concat newline data)]
       end)
  else
    let '(name, value) := sse_field line in
    mk_sse_client "" (client_after_cr c)
      (if bool_decide (name = "id") then value else client_id c)
      (if bool_decide (name = "event") then value else client_event c)
      (if bool_decide (name = "data") then client_data c ++ [value] else client_data c)
      (client_messages c).

Definition set_after_cr (b : bool) (c : sse_client) : sse_client :=
  mk_sse_client (client_line c) b (client_id c) (client_event c) (client_data c) (client_messages c).

(** One character. *)
Definition sse_char (c : sse_client) (a : Ascii.ascii) : sse_client :=
  let n := Ascii.N_of_ascii a in
  if (n =? 10)%N then
    if client_after_cr c then set_after_cr false c else sse_line (String.rev (client_line c)) c
  else if (n =? 13)%N then set_after_cr true (sse_line (String.rev (client_line c)) c)
  else mk_sse_client (String a (client_line c)) false (client_id c) (client_event c) (client_data c)
         (client_messages c).

Fixpoint sse_read (c : sse_client) (s : string) : sse_client :=
  match s with
  | EmptyString => c
  | String a s' => sse_read (sse_char c a) s'
  end.

(** The messages of a stream, and the id to reconnect with. *)
Definition sse_receive (last : string) (stream : string) : list sse_message :=
  client_messages (sse_read (client_connected last) stream).

Definition last_id (last : string) (messages : list sse_message) : string :=
  List.last (map sm_id messages) last.

(** ** Reading *)

Lemma sse_read_app s t : forall c, sse_read c (s +:+ t) = sse_read (sse_read c s) t.
Proof. induction s as [|a s IH]; intros c; [done|]. simpl. apply IH. Qed.

(** Messages are only added. *)
Lemma sse_char_messages c a : client_messages c `prefix_of` client_messages (sse_char c a).
Proof.
  assert (forall line d, client_messages d `prefix_of` client_messages (sse_line line d)) as Hline.
  { intros line d. unfold sse_line. destruct (is_empty line); simpl.
    - destruct (client_data d); [done|by eexists].
    - by destruct (sse_field line). }
  unfold sse_char. destruct (_ =? 10)%N; [destruct (client_after_cr c); [done|apply Hline]|].
  destruct (_ =? 13)%N; [apply Hline|done].
Qed.

Lemma sse_read_messages s : forall c, client_messages c `prefix_of` client_messages (sse_read c s).
Proof.
  induction s as [|a s IH]; intros c; [done|]. etransitivity; [apply sse_char_messages|apply IH].
Qed.

(** Characters that end no line. *)
Definition no_eol (a : Ascii.ascii) : bool :=
  negb (Ascii.N_of_ascii a =? 10)%N && negb (Ascii.N_of_ascii a =? 13)%N.

Lemma sse_read_plain s : all_chars no_eol s = true -> forall c, client_after_cr c = false ->
  sse_read c s = mk_sse_client (String.rev s +:+ client_line c) false (client_id c) (client_event c)
                   (client_data c) (client_messages c).
Proof.
  induction s as [|a s IH]; simpl; intros Hs c Hc; [destruct c; simpl in *; by subst|].
  apply andb_true_iff in Hs as [Ha Hs]. unfold no_eol in Ha. reflect.
  unfold sse_char. rewrite (proj2 (N.eqb_neq _ _)), (proj2 (N.eqb_neq _ _)) by done.
  rewrite IH by done. simpl. by rewrite string_rev_cons, string_app_assoc.
Qed.

(** A line without line ends, and its end. *)
Lemma sse_read_line line c :
  all_chars no_eol line = true -> client_line c = "" -> client_after_cr c = false ->
  sse_read c (line +:+ newline) = sse_line line c.
Proof.
  intros Hl Hc Hcr. rewrite sse_read_app, (sse_read_plain line) by done. rewrite Hc, string_app_nil.
  cbn [sse_read newline]. unfold sse_char. simpl. rewrite string_rev_involutive.
  unfold sse_line. simpl. rewrite Hcr. by destruct (is_empty line), (sse_field line).
Qed.

Lemma no_eol_utf8 s : all_chars no_eol s = true -> all_chars no_eol (utf8 s) = true.
Proof.
  induction s as [|a s IH]; [done|]. simpl. intros [Ha Hs]%andb_true_iff. specialize (IH Hs).
  destruct (Ascii.N_of_ascii a <? 128)%N; simpl; rewrite IH; [by rewrite Ha|]. rewrite andb_true_r.
  clear. by destruct a as [[] [] [] [] [] [] [] []].
Qed.

Lemma no_eol_escape s : all_chars no_eol (json_escape s) = true.
Proof.
  induction s as [|a s IH]; [done|]. cbn [json_escape]. revert IH. generalize (json_escape s). intros t Ht.
  by destruct a as [[] [] [] [] [] [] [] []]; simpl; rewrite ?Ht.
Qed.

Lemma no_eol_quote s : all_chars no_eol (json_quote s) = true.
Proof. unfold json_quote. rewrite all_chars_app. cbn [all_chars]. by rewrite no_eol_escape. Qed.

Lemma no_eol_concat sep l :
  all_chars no_eol sep = true -> Forall (fun s => all_chars no_eol s = true) l ->
  all_chars no_eol (String.concat sep l) = true.
Proof.
  intros Hsep Hl. induction Hl as [|s l Hs Hl IH]; [done|]. destruct l as [|s' l]; [exact Hs|].
  change (all_chars no_eol (s +:+ sep +:+ String.concat sep (s' :: l)) = true).
  by rewrite !all_chars_app, Hs, Hsep, IH.
Qed.

Lemma digit_no_eol a : is_digit_char a = true -> no_eol a = true.
Proof. by destruct a as [[] [] [] [] [] [] [] []]. Qed.

Lemma no_eol_zstr z : all_chars no_eol (zstr z) = true.
Proof.
  destruct (Z.le_gt_cases 0 z) as [Hz|Hz].
  - destruct (zstr_digits z Hz) as [Ht _]. unfold token in Ht. apply andb_true_iff in Ht as [_ Ht].
    by eapply all_chars_mono, Ht; apply digit_no_eol.
  - destruct z as [|p|p]; [lia|lia|].
    change (zstr (Z.neg p)) with ("-" +:+ zstr (Z.pos p)).
    destruct (zstr_digits (Z.pos p) ltac:(lia)) as [Ht _]. unfold token in Ht. apply andb_true_iff in Ht as [_ Ht].
    rewrite all_chars_app. apply andb_true_iff. split; [done|]. by eapply all_chars_mono, Ht; apply digit_no_eol.
Qed.

Section Frame.
Context `{FloatRepr}.
Hypothesis float_no_eol : forall q, all_chars no_eol (float_repr q) = true.

Lemma no_eol_json j : all_chars no_eol (json_text "," ":" j) = true.
Proof using float_no_eol.
  revert j. apply (json_rect_deep (fun j => all_chars no_eol (json_text "," ":" j) = true)).
  - done.
  - by intros [].
  - apply no_eol_zstr.
  - exact float_no_eol.
  - apply no_eol_quote.
  - intros l Hl. cbn [json_text]. rewrite !all_chars_app. apply andb_true_iff. split; [done|].
    apply andb_true_iff. split; [|done]. apply no_eol_concat; [done|]. by apply Forall_map.
  - intros d Hd. cbn [json_text]. rewrite !all_chars_app. apply andb_true_iff. split; [done|].
    apply andb_true_iff. split; [|done]. apply no_eol_concat; [done|].
    induction d as [|[k v] d IH]; [constructor|]. simpl in Hd. apply Forall_cons in Hd as [Hv Hd].
    constructor; [|by apply IH]. by rewrite !all_chars_app, no_eol_quote, Hv.
Qed.

(** The message of an event. *)
Definition message_of (e : RuntimeEvent) : sse_message :=
  mk_sse_message (zstr (ev_sequence e)) (EventType_value (ev_type e)) (utf8 (event_data e)).

(** The lines of a frame. *)
Definition id_line (e : RuntimeEvent) : string := "id: " +:+ zstr (ev_sequence e).
Definition event_line (e : RuntimeEvent) : string := "event: " +:+ EventType_value (ev_type e).
Definition data_line (e : RuntimeEvent) : string := "data: " +:+ utf8 (event_data e).
Definition frame_body (e : RuntimeEvent) : string :=
  (id_line e +:+ newline) +:+ (event_line e +:+ newline) +:+ (data_line e +:+ newline).

Lemma ascii_zstr z : 0 <= z -> utf8 (zstr z) = zstr z.
Proof.
  intros Hz. destruct (zstr_digits z Hz) as [Ht _]. unfold token in Ht. apply andb_true_iff in Ht as [_ Ht].
  apply utf8_ascii. eapply all_chars_mono; [|exact Ht]. by intros [[] [] [] [] [] [] [] []].
Qed.

Lemma sse_frame_body e : 0 <= ev_sequence e -> sse_frame e = frame_body e +:+ newline.
Proof.
  intros He. unfold sse_frame, fstr, frame_body, id_line, event_line, data_line.
  cbn [String.concat]. rewrite !utf8_app, ascii_zstr by done.
  assert (utf8 (EventType_value (ev_type e)) = EventType_value (ev_type e)) as -> by (by destruct (ev_type e)).
  change (utf8 newline) with newline. change (utf8 "id: ") with "id: ".
  change (utf8 "event: ") with "event: ". change (utf8 "data: ") with "data: ".
  by rewrite !string_app_assoc.
Qed.

Lemma frame_body_read e last messages :
  sse_read (mk_sse_client "" false last "" [] messages) (frame_body e)
  = mk_sse_client "" false (zstr (ev_sequence e)) (EventType_value (ev_type e)) [utf8 (event_data e)] messages.
Proof using float_no_eol.
  unfold frame_body. rewrite sse_read_app, (sse_read_line (id_line e)).
  2: { unfold id_line. by rewrite all_chars_app, no_eol_zstr. }
  2, 3: done.
  assert (sse_line (id_line e) (mk_sse_client "" false last "" [] messages)
          = mk_sse_client "" false (zstr (ev_sequence e)) "" [] messages) as -> by done.
  rewrite sse_read_app, (sse_read_line (event_line e)).
  2: { unfold event_line. rewrite all_chars_app. by destruct (ev_type e). }
  2, 3: done.
  assert (sse_line (event_line e) (mk_sse_client "" false (zstr (ev_sequence e)) "" [] messages)
          = mk_sse_client "" false (zstr (ev_sequence e)) (EventType_value (ev_type e)) [] messages) as -> by done.
  rewrite sse_read_line; [done| |done|done].
  unfold data_line. rewrite all_chars_app. apply andb_true_iff. split; [done|].
  apply no_eol_utf8, no_eol_json.
Qed.

Lemma sse_frame_read e last messages :
  0 <= ev_sequence e ->
  sse_read (mk_sse_client "" false last "" [] messages) (sse_frame e)
  = mk_sse_client "" false (zstr (ev_sequence e)) "" [] (messages ++ [message_of e]).
Proof using float_no_eol.
  intros He. by rewrite sse_frame_body, sse_read_app, frame_body_read.
Qed.
End Frame.

(** ** Cut streams *)

(** The first [n] characters. *)
Fixpoint string_take (n : nat) (s : string) : string :=
  match n, s with
  | S n', String a s' => String a (string_take n' s')
  | _, _ => EmptyString
  end.

Lemma string_take_split n : forall s, exists lost, s = string_take n s +:+ lost /\
  ((String.length s <= n)%nat -> lost = "").
Proof.
  induction n as [|n IH]; intros [|a s]; simpl.
  - by exists "".
  - exists (String a s). split; [done|lia].
  - by exists "".
  - destruct (IH s) as (lost & E & Hl). exists lost. split; [by rewrite E at 1|]. intros Hn. apply Hl. lia.
Qed.

(** Two ways to cut a text. *)
Lemma string_cut a b : forall c d, a +:+ b = c +:+ d ->
  (exists x, c = a +:+ x /\ b = x +:+ d) \/ (exists x, a = c +:+ x /\ d = x +:+ b).
Proof.
  induction a as [|p a IH]; intros c d E; [left; by exists c|].
  destruct c as [|q c]; [right; by exists (String p a)|].
  injection E as -> E. destruct (IH c d E) as [(x & -> & ->)|(x & -> & ->)]; [left|right]; by exists x.
Qed.

(** A text that ends in a line feed, cut. *)
Lemma cut_last s got x : s +:+ newline = got +:+ x -> x = "" \/ exists x', s = got +:+ x'.
Proof.
  intros E. destruct (string_cut _ _ _ _ E) as [(y & -> & Ey)|(y & -> & _)]; [|right; by exists y].
  destruct y as [|p y]; [right; exists ""; by rewrite !string_app_nil|].
  destruct x as [|q x]; [by left|]. exfalso. injection Ey as _ Ey. by destruct y.
Qed.

Section Stream.
Context `{FloatRepr}.
Hypothesis float_no_eol : forall q, all_chars no_eol (float_repr q) = true.

Lemma sse_read_cut_frame e last messages got x :
  0 <= ev_sequence e -> sse_frame e = got +:+ x -> x <> "" ->
  client_messages (sse_read (mk_sse_client "" false last "" [] messages) got) = messages.
Proof using float_no_eol.
  intros He E Hx. rewrite sse_frame_body in E by done. apply cut_last in E as [E|[x' E]]; [done|].
  pose proof (frame_body_read float_no_eol e last messages) as Hb. rewrite E, sse_read_app in Hb.
  set (c := sse_read (mk_sse_client "" false last "" [] messages) got) in *.
  assert (messages `prefix_of` client_messages c) as Hp
    by (exact (sse_read_messages got (mk_sse_client "" false last "" [] messages))).
  assert (client_messages c `prefix_of` messages) as Hq.
  { pose proof (sse_read_messages x' c) as Hq. by rewrite Hb in Hq. }
  by apply (anti_symm prefix).
Qed.

(** Of a cut stream the whole frames are received. *)
Lemma sse_read_cut events : forall last messages got lost,
  Forall (fun e => 0 <= ev_sequence e) events -> sse_events events = got +:+ lost ->
  exists k, (k <= length events)%nat /\ (lost = "" -> k = length events) /\
    client_messages (sse_read (mk_sse_client "" false last "" [] messages) got)
    = messages ++ map message_of (take k events).
Proof using float_no_eol.
  induction events as [|e events IH]; intros last messages got lost Hs E.
  - exists 0%nat. assert (got = "") as -> by (by destruct got). simpl. by rewrite app_nil_r.
  - apply Forall_cons in Hs as [He Hs].
    assert (sse_events (e :: events) = sse_frame e +:+ sse_events events) as Ef.
    { unfold sse_events, fstr. simpl. destruct events as [|e' events]; [simpl; by rewrite string_app_nil|done]. }
    rewrite Ef in E. destruct (string_cut _ _ _ _ E) as [(x & -> & Ex)|(x & Ex & ->)].
    + destruct (IH (zstr (ev_sequence e)) (messages ++ [message_of e]) x lost Hs Ex) as (k & Hk & Hl & Hr).
      exists (S k). split; [simpl; lia|]. split; [intros Hlost; simpl; by rewrite Hl|].
      rewrite sse_read_app, sse_frame_read by done. rewrite Hr. simpl. by rewrite <-app_assoc.
    + destruct (decide (x = "")) as [->|Hx].
      * rewrite string_app_nil in Ex. subst got.
        destruct (IH (zstr (ev_sequence e)) (messages ++ [message_of e]) "" (sse_events events) Hs eq_refl)
          as (k & Hk & Hl & Hr).
        exists (S k). split; [simpl; lia|]. split; [intros Hlost; simpl; by rewrite Hl|].
        rewrite sse_frame_read by done. simpl in Hr |- *. rewrite Hr, <-app_assoc. done.
      * exists 0%nat. split; [lia|]. split.
        { intros Hlost. destruct x; [done|]. by destruct (sse_events events). }
        simpl. rewrite app_nil_r. by eapply sse_read_cut_frame.
Qed.

Lemma sse_receive_cut events last cut :
  Forall (fun e => 0 <= ev_sequence e) events ->
  exists k, (k <= length events)%nat /\
    sse_receive last (string_take cut (sse_events events)) = map message_of (take k events) /\
    ((String.length (sse_events events) <= cut)%nat -> k = length events).
Proof using float_no_eol.
  intros Hs. destruct (string_take_split cut (sse_events events)) as (lost & E & Hl).
  destruct (sse_read_cut events last [] _ _ Hs E) as (k & Hk & Hlost & Hr).
  exists k. split; [done|]. split; [exact Hr|]. intros Hn. by apply Hlost, Hl.
Qed.
End Stream.

(** ** Reconnecting *)

(** The header of a reconnection. *)
Definition last_event_header (last : string) : option string := if is_empty last then None else Some last.

(** One connection: what is emitted and polled during it, and after how many
    bytes it is cut; then the next one. *)
Record sse_connection := mk_sse_connection {
  cn_acts : list event_action;
  cn_cut : nat;
}.

Section Reconnect.
Context `{FloatRepr}.
Variable rid : uuid.

(** What a client with the messages [received] has after the connections,
    and the log then; [None] when the server answers with an error. *)
Fixpoint reconnects (connections : list sse_connection) (log : event_log) (received : list sse_message)
  : option (event_log * list sse_message) :=
  match connections with
  | [] => Some (log, received)
  | cn :: connections' =>
      match event_cursor 0 (last_event_header (last_id "" received)) with
      | inl _ => None
      | inr cursor =>
          match subscribe cursor with
          | Raise _ => None
          | Ok sub =>
              let w := event_run rid (cn_acts cn) (mk_event_world log sub []) in
              let stream := string_take (cn_cut cn) (sse_events (ew_yielded w)) in
              reconnects connections' (ew_log w) (received ++ sse_receive (last_id "" received) stream)
          end
      end
  end.
End Reconnect.

(** *** The cursor of a reconnection *)

Lemma int_digits_value s : all_chars is_digit_char s = true -> forall acc,
  int_digits true acc s = Some (digits_value acc s).
Proof.
  induction s as [|a s IH]; [done|]. simpl. intros [-> Hs]%andb_true_iff acc. by apply IH.
Qed.

Lemma lstrip_digits s : all_chars is_digit_char s = true -> lstrip s = s.
Proof. destruct s as [|a s]; [done|]. simpl. intros [Ha _]%andb_true_iff. by destruct a as [[] [] [] [] [] [] [] []]. Qed.

Lemma all_chars_rev p s : all_chars p (String.rev s) = all_chars p s.
Proof.
  induction s as [|a s IH]; [done|]. rewrite string_rev_cons, all_chars_app, IH. simpl.
  by rewrite andb_true_r, andb_comm.
Qed.

Lemma strip_digits s : all_chars is_digit_char s = true -> strip s = s.
Proof.
  intros Hs. unfold strip. rewrite (lstrip_digits s Hs), lstrip_digits by (by rewrite all_chars_rev).
  apply string_rev_involutive.
Qed.

Lemma py_int_zstr z : 0 <= z -> py_int (zstr z) = Some z.
Proof.
  intros Hz. destruct (zstr_digits z Hz) as [Ht Hv]. unfold token in Ht. apply andb_true_iff in Ht as [He Hd].
  unfold py_int. rewrite strip_digits by done. destruct (zstr z) as [|a s]; [done|]. simpl in Hd, Hv.
  apply andb_true_iff in Hd as [Ha Hd]. simpl. rewrite Ha, int_digits_value, Hv by done.
  assert ((Ascii.N_of_ascii a =? 45)%N = false /\ (Ascii.N_of_ascii a =? 43)%N = false) as [-> ->]; [|done].
  clear -Ha. destruct a as [[] [] [] [] [] [] [] []]; by split.
Qed.

Lemma zstr_nonempty z : 0 <= z -> is_empty (zstr z) = false.
Proof.
  intros Hz. destruct (zstr_digits z Hz) as [Ht _]. unfold token in Ht. apply andb_true_iff in Ht as [He _].
  by apply negb_true_iff in He.
Qed.

Section Delivery.
Context `{FloatRepr}.
Hypothesis float_no_eol : forall q, all_chars no_eol (float_repr q) = true.
Variable rid : uuid.

(** The first [k] events of a Run have been received. *)
Definition received_first (k : nat) (log : event_log) (received : list sse_message) : Prop :=
  (k <= length (events_of log rid))%nat /\ received = map message_of (take k (events_of log rid)).

Lemma last_id_received k log received :
  log_ok log -> received_first k log received ->
  event_cursor 0 (last_event_header (last_id "" received)) = inr (Z.of_nat k).
Proof.
  intros Hlog [Hk ->]. destruct k as [|k].
  { by rewrite take_0. }
  destruct (lookup_lt_is_Some_2 (events_of log rid) k) as [e He]; [lia|].
  rewrite (take_S_r _ _ _ He), map_app. unfold last_id. simpl. rewrite map_app. simpl.
  rewrite last_last. destruct (Hlog rid k e He) as [Hs _]. rewrite Hs.
  unfold last_event_header, event_cursor. rewrite zstr_nonempty, py_int_zstr by lia.
  rewrite (proj2 (Z.ltb_ge _ 0)) by lia. f_equal. lia.
Qed.

Lemma event_run_log r acts : forall w, log_ok (ew_log w) ->
  events_of (ew_log w) r `prefix_of` events_of (ew_log (event_run rid acts w)) r.
Proof.
  induction acts as [|a acts IH]; intros w Hw; [done|].
  assert (log_ok (ew_log (event_act rid a w)) /\
          events_of (ew_log w) r `prefix_of` events_of (ew_log (event_act rid a w)) r) as [Hok Hp].
  { destruct a as [amb r' ty data|]; simpl.
    - destruct (emit amb r' ty data (ew_log w)) as [[log' e]|] eqn:E; [|done].
      destruct (emit_log_ok _ _ _ _ _ _ _ Hw E) as [Hok Hp]. split; [exact Hok|apply Hp].
    - by destruct (poll rid (ew_sub w) (ew_log w)). }
  etransitivity; [exact Hp|]. by apply IH.
Qed.

(** One connection. *)
Lemma connection_step k log received cn :
  log_ok log -> received_first k log received ->
  let w := event_run rid (cn_acts cn) (mk_event_world log (AtLoop (Z.of_nat k + 1)) []) in
  let got := sse_receive (last_id "" received) (string_take (cn_cut cn) (sse_events (ew_yielded w))) in
  world_ok rid k w /\
  exists n, received_first (k + n) (ew_log w) (received ++ got) /\ (n <= length (ew_yielded w))%nat /\
    ((String.length (sse_events (ew_yielded w)) <= cn_cut cn)%nat -> n = length (ew_yielded w)).
Proof using float_no_eol.
  intros Hlog [Hk Hr] w got.
  assert (world_ok rid k (mk_event_world log (AtLoop (Z.of_nat k + 1)) [])) as Hw0.
  { split_and!; simpl; [done|by apply prefix_nil|]. split; [simpl; lia|constructor]. }
  pose proof (event_run_ok rid k (cn_acts cn) _ Hw0) as Hw. fold w in Hw. split; [exact Hw|].
  destruct (event_run_log rid (cn_acts cn) (mk_event_world log (AtLoop (Z.of_nat k + 1)) []) Hlog) as [more Hmore].
  fold w in Hmore. simpl in Hmore. destruct Hw as (Hlog' & [rest Hrest] & _).
  assert (Forall (fun e => 0 <= ev_sequence e) (ew_yielded w)) as Hseq.
  { apply Forall_lookup. intros i e Hi.
    destruct (Hlog' rid (k + i)%nat e) as [-> _]; [|lia].
    rewrite <-lookup_drop, Hrest. by apply lookup_app_l_Some. }
  destruct (sse_receive_cut float_no_eol _ (last_id "" received) (cn_cut cn) Hseq) as (n & Hn & Hgot & Hall).
  exists n. split; [|by split]. split.
  - assert (length (drop k (events_of (ew_log w) rid)) = length (ew_yielded w ++ rest)) as Hlen by (by rewrite Hrest).
    rewrite length_drop, length_app in Hlen. rewrite Hmore, length_app in Hlen |- *. lia.
  - unfold got. rewrite Hgot, Hr, <-map_app, <-take_take_drop, Hrest, take_app_le by done.
    by rewrite Hmore, take_app_le.
Qed.

Lemma reconnects_run connections : forall k log received,
  log_ok log -> received_first k log received ->
  exists k' log' received', reconnects rid connections log received = Some (log', received') /\
    log_ok log' /\ (k <= k')%nat /\ received_first k' log' received'.
Proof using float_no_eol.
  induction connections as [|cn connections IH]; intros k log received Hlog Hk.
  { by exists k, log, received. }
  destruct (connection_step k log received cn Hlog Hk) as (Hw & n & Hn & _).
  cbn [reconnects]. rewrite (last_id_received k log received Hlog Hk). unfold subscribe.
  rewrite (proj2 (Z.ltb_ge _ 0)) by lia.
  destruct (IH (k + n)%nat _ _ (proj1 Hw) Hn) as (k' & log' & received' & E & Hlog' & Hk' & Hr').
  exists k', log', received'. split; [exact E|]. split; [done|]. split; [lia|done].
Qed.

Lemma reconnects_app conns1 conns2 : forall log received,
  reconnects rid (conns1 ++ conns2) log received
  = match reconnects rid conns1 log received with
    | Some (log', received') => reconnects rid conns2 log' received'
    | None => None
    end.
Proof.
  induction conns1 as [|cn conns1 IH]; intros log received; [done|]. simpl.
  destruct (event_cursor _ _); [done|]. destruct (subscribe _); [apply IH|done].
Qed.
End Delivery.

(** C12: exactly-once delivery over HTTP.  Connections to a Run's event
    stream are cut after any number of bytes, events are emitted before,
    between and during them, and the client reconnects with the id of the
    last message it got: no connection is refused, and what it has received
    is at any time the first [k] events of the log, in order, each once, id,
    type and data unchanged.  A connection that is not cut, whose subscription
    has nothing more to yield, leaves it with the whole log. *)
Theorem sse_exactly_once `{FloatRepr} rid connections :
  (forall q, all_chars no_eol (float_repr q) = true) ->
  exists k log, reconnects rid connections ∅ [] = Some (log, map message_of (take k (events_of log rid))) /\
    (k <= length (events_of log rid))%nat /\
    forall acts cut, let w := event_run rid acts (mk_event_world log (AtLoop (Z.of_nat k + 1)) []) in
      (String.length (sse_events (ew_yielded w)) <= cut)%nat ->
      snd (poll rid (ew_sub w) (ew_log w)) = Waiting ->
      reconnects rid (connections ++ [mk_sse_connection acts cut]) ∅ []
      = Some (ew_log w, map message_of (events_of (ew_log w) rid)).
Proof.
  intros Hfloat. assert (received_first rid 0 ∅ []) as H0 by (split; [lia|done]).
  destruct (reconnects_run Hfloat rid connections 0 ∅ [] log_ok_empty H0)
    as (k & log & received & E & Hlog & _ & Hk). pose proof Hk as [Hle ->].
  exists k, log. split; [exact E|]. split; [exact Hle|]. intros acts cut w Hcut Hwait.
  destruct (connection_step Hfloat rid k log _ (mk_sse_connection acts cut) Hlog Hk) as (Hw & n & Hn & _ & Hall).
  simpl in Hw, Hn, Hall. fold w in Hw, Hn, Hall. specialize (Hall Hcut). subst n.
  destruct (waiting_drained rid k w Hw Hwait) as [Hd _]. destruct Hn as [_ Hn].
  rewrite (take_ge (events_of (ew_log w) rid)) in Hn by exact Hd.
  rewrite reconnects_app, E. cbn [reconnects]. rewrite (last_id_received rid k log _ Hlog Hk). unfold subscribe.
  rewrite (proj2 (Z.ltb_ge _ 0)) by lia. simpl. fold w. by rewrite Hn.
Qed.

(** ** An example *)

#[local] Instance float_zero : FloatRepr := fun _ => "0.0".

Definition feed_amb : ambient := Ambient 1 (fun _ => 1) (fun _ => 1%N).

(** Two events; the stream is cut in the data of the second. *)
Definition first_connection : sse_connection :=
  mk_sse_connection [DoEmit feed_amb 7%N EV_RUN_CREATED None; DoPoll;
                     DoEmit feed_amb 7%N EV_RUN_STARTED None; DoPoll] 300.

Definition second_connection : sse_connection := mk_sse_connection [DoPoll; DoPoll] 1000.

Lemma sse_exactly_once_witness :
  option_map (fun r => map sm_event r.2) (reconnects 7%N [first_connection] ∅ []) = Some ["run.created"] /\
  option_map (fun r => map sm_event r.2) (reconnects 7%N [first_connection; second_connection] ∅ [])
  = Some ["run.created"; "run.started"] /\
  exists k log, reconnects 7%N [first_connection; second_connection] ∅ []
    = Some (log, map message_of (take k (events_of log 7%N))).
Proof.
  split; [vm_compute; reflexivity|]. split; [vm_compute; reflexivity|].
  destruct (sse_exactly_once 7%N [first_connection; second_connection]) as (k & log & E & _); [done|].
  exists k, log. exact E.
Defined.
