(* ===== verification/Server.v ===== *)
(** * The Run server ([src/base_agent/server/app.py], [server/schemas.py])

    The HTTP routes over an Agent: each is a program that answers or refuses
    with an HTTP status.  Routing, request parsing and rendering are FastAPI's,
    logging is left out; starting the task of a Run ([RunTaskManager.start])
    is an argument, and resuming is [Agent.resume], which the server shields
    from a lost connection. *)

From Stdlib Require Import QArith.
From stdpp Require Import base gmap strings list.
From S2P Require Import Prelude Json Models Sha256 Texts Plan StateMachine ConversationStore RunStore EventStore FlowModels SideEffects Program Serial Runtime Resources Supervision ToolExecutor ModelTool Engine RuntimeLogic Artifacts EngineRun RunHandle React Skills Agent Providers ServerEvents.

(** ** Requests and responses *)

Record StartRunRequest := mk_StartRunRequest {
  sr_prompt : string;
  sr_conversation_id : option uuid;
  sr_skills : list string;
  sr_attachment_ids : list uuid;
  sr_plan : option ExecutionPlan;
  sr_planning : bool;
}.

Definition StartRunRequest_fields (q : StartRunRequest) : bool := 1 <=? slen (sr_prompt q).

Record StartRunResponse := mk_StartRunResponse {
  rs_run_id : uuid;
  rs_status : RunStatus;
  rs_conversation_id : option uuid;
  rs_turn_sequence : option Z;
}.

(** A response with content, its media type and headers. *)
Record ContentResponse := mk_ContentResponse {
  cr_content : string;
  cr_media_type : string;
  cr_headers : list (string * string);
}.

(** [create_app]: the prefix of the routes. *)
Definition route_prefix (prefix : string) : outcome string :=
  raise_when negb (starts "/" prefix)
             || (1 <? slen prefix) && starts "/" (String.rev prefix)
    as value_error ["prefix must start with '/' and must not end with '/'"] in
  Ok (if bool_decide (prefix = "/") then "" else prefix).

(** [_REQUEST_ID.fullmatch], and the id of a request. *)
Definition request_id_ok (s : string) : bool :=
  len_between 1 128 s && all_chars (fun c => is_alnum c || has_char c "._:-") s.

Definition request_id (supplied : string) (fresh : uuid) : string :=
  if request_id_ok supplied then supplied else uuid_str fresh.

(** [urllib.parse.quote(name, safe="")]: all but letters, digits and [_.-~]
    is percent-encoded, byte by byte. *)
Definition unreserved (a : Ascii.ascii) : bool := is_alnum a || has_char a "_.-~".

Definition upper_hex (d : N) : Ascii.ascii := Ascii.ascii_of_N (if d <? 10 then 48 + d else 55 + d)%N.

Fixpoint quote_bytes (s : string) : string :=
  match s with
  | EmptyString => EmptyString
  | String a s' =>
      if unreserved a then String a (quote_bytes s')
      else String (Ascii.ascii_of_N 37)
             (String (upper_hex (Ascii.N_of_ascii a / 16)) (String (upper_hex (Ascii.N_of_ascii a mod 16))
                (quote_bytes s')))
  end.

Definition quote (name : string) : string := quote_bytes (utf8 name).

Section Routes.
Context `{JsonFloat} `{FloatRepr} `{Validators} `{SkillFiles} {X : Type} `{!ArtifactAccess X}.
Variable env : nat -> ambient.
Variable agent : Agent X.

Abbreviation M := (prog (World X)).
Abbreviation R A := (M (HTTPException + A)).

(** [try: ... except c as exc: raise HTTPException(status, str(exc))]. *)
Definition except_http {A} (clauses : list (exn_class * Z)) (p : M A) : R A :=
  try_except (let* a := p in ret (inr a))
    (fun e => (fun clause => ret (inl (mk_HTTPException clause.2 (exn_str e)))) <$>
                List.find (fun clause => isinstance e clause.1) clauses).

(** What follows in a handler. *)
Definition then_http {A B} (p : R A) (k : A -> R B) : R B :=
  let* r := p in match r with inl e => ret (inl e) | inr a => k a end.

(** [_get_run]. *)
Definition server_run (rid : uuid) : R Run := except_http [(RunNotFoundError, 404)] (get_run env rid).

(** [_artifact_for_run]. *)
Definition artifact_for_run (rid aid : uuid) : R Artifact :=
  then_http (except_http [(ArtifactNotFoundError, 404)] (read_artifacts env (get_artifact aid)))
    (fun artifact =>
       if negb (bool_decide (art_run_id artifact = rid))
       then ret (inl (mk_HTTPException 404 "artifact was not found for this Run"))
       else ret (inr artifact)).

(** [cancel_run], [resume_run]. *)
Definition cancel_run_route (rid : uuid) : R Run :=
  except_http [(RunNotFoundError, 404); (RunNotCancellableError, 409)] (agent_cancel env rid).

Definition resume_run_route (fuel : nat) (rid : uuid) (input : string) : R AgentResult :=
  except_http [(RunNotFoundError, 404); (ExValueError, 409)] (agent_resume env agent fuel rid input).

(** [list_events]. *)
Definition list_events_route (rid : uuid) (after_sequence : Z) : R (list RuntimeEvent) :=
  then_http (server_run rid) (fun _ =>
    let* events := call_store env (fun _ w => Ok (w, event_list rid (w_events w))) in
    ret (inr (List.filter (fun e => after_sequence <? ev_sequence e) events))).

(** [stream_events]: the subscription it hands to [_sse_events]. *)
Definition stream_events_route (rid : uuid) (after_sequence : Z) (last_event_id : option string)
  : R Subscription :=
  then_http (server_run rid) (fun _ =>
    match event_cursor after_sequence last_event_id with
    | inl e => ret (inl e)
    | inr cursor => let* sub := of_outcome (subscribe cursor) in ret (inr sub)
    end).

(** [list_artifacts], [get_artifact], [get_artifact_content]. *)
Definition list_artifacts_route (rid : uuid) : R (list Artifact) :=
  then_http (server_run rid) (fun _ =>
    let* l := read_artifacts env (fun s => Ok (list_artifacts rid s)) in ret (inr l)).

Definition get_artifact_route (rid aid : uuid) : R Artifact :=
  then_http (server_run rid) (fun _ => artifact_for_run rid aid).

Definition content_response (artifact : Artifact) (content : string) : ContentResponse :=
  mk_ContentResponse content (art_media_type artifact)
    [("Content-Disposition", fstr ["attachment; filename*=UTF-8''"; quote (art_name artifact)]);
     ("X-Content-Type-Options", "nosniff")].

Definition get_artifact_content_route (rid aid : uuid) : R ContentResponse :=
  then_http (server_run rid) (fun _ =>
    then_http (artifact_for_run rid aid) (fun artifact =>
      let* content := read_artifacts env (read_content (art_id artifact)) in
      ret (inr (content_response artifact content)))).

(** The conversation routes. *)
Definition get_conversation_route (cid : uuid) : R Conversation :=
  except_http [(ConversationNotFoundError, 404)]
    (call_store env (fun _ w => let! c := get_conversation cid (w_conversations w) in Ok (w, c))).

Definition list_turns_route (cid : uuid) : R (list ConversationTurn) :=
  except_http [(ConversationNotFoundError, 404)]
    (call_store env (fun _ w => let! l := list_turns cid (w_conversations w) in Ok (w, l))).

Definition list_messages_route (cid : uuid) : R (list Message) :=
  except_http [(ConversationNotFoundError, 404)]
    (call_store env (fun _ w => let! l := conversation_messages cid (w_conversations w) in Ok (w, l))).

Definition create_conversation_route (metadata : jdict) : M Conversation :=
  agent_create_conversation env agent (Some metadata).

(** [start_run_from_payload]; [start] begins the task of a Run and gives its
    id once the Run is stored. *)
Fixpoint get_attachments (ids : list uuid) : M (list Attachment) :=
  match ids with
  | [] => ret []
  | id :: ids' =>
      let* a := read_artifacts env (get_attachment id) in
      let* l := get_attachments ids' in
      ret (a :: l)
  end.

Definition start_run_from_payload (start : Request -> M uuid) (payload : StartRunRequest)
  (conversation_id : option uuid) : R StartRunResponse :=
  let resolved := match conversation_id with Some c => Some c | None => sr_conversation_id payload end in
  if match conversation_id, sr_conversation_id payload with
     | Some c, Some c' => negb (bool_decide (c = c'))
     | _, _ => false
     end
  then ret (inl (mk_HTTPException 422 "path and payload conversation_id must match"))
  else
    except_http [(AttachmentNotFoundError, 404); (ConversationNotFoundError, 404);
                 (ConversationBusyError, 409); (ConversationProfileMismatchError, 409); (ExValueError, 422)]
      (let* attachments := get_attachments (sr_attachment_ids payload) in
       let* rid := start (mk_Request (sr_prompt payload) None resolved (sr_skills payload) (sr_plan payload)
                            (sr_planning payload) attachments []) in
       let* run := get_run env rid in
       ret (mk_StartRunResponse rid (run_status run) (run_conversation_id run) (run_turn_sequence run))).
End Routes.

(** ** File names in headers *)

(** The value of an upper-case hexadecimal digit. *)
Definition hex_value (a : Ascii.ascii) : option N :=
  let n := Ascii.N_of_ascii a in
  if ((48 <=? n) && (n <=? 57))%N then Some (n - 48)%N
  else if ((65 <=? n) && (n <=? 70))%N then Some (n - 55)%N else None.

(** Percent-decoding, as a client does it. *)
Fixpoint unquote (s : string) : string :=
  match s with
  | EmptyString => EmptyString
  | String a s' =>
      if (Ascii.N_of_ascii a =? 37)%N then
        match s' with
        | String h (String l s'') =>
            match hex_value h, hex_value l with
            | Some x, Some y => String (Ascii.ascii_of_N (16 * x + y)) (unquote s'')
            | _, _ => String a (unquote s')
            end
        | _ => String a (unquote s')
        end
      else String a (unquote s')
  end.

(** What a header may hold after [UTF-8'']: nothing that ends a value or a
    line. *)
Definition header_char (a : Ascii.ascii) : bool := unreserved a || (Ascii.N_of_ascii a =? 37)%N.

Lemma quote_byte_roundtrip a s :
  unquote (quote_bytes (String a s)) = String a (unquote (quote_bytes s)) /\
  all_chars header_char (quote_bytes (String a s)) = all_chars header_char (quote_bytes s).
Proof.
  cbn [quote_bytes]. generalize (quote_bytes s) as t. intros t.
  destruct a as [[] [] [] [] [] [] [] []]; split; reflexivity.
Qed.

Lemma quote_roundtrip s : unquote (quote_bytes s) = s /\ all_chars header_char (quote_bytes s) = true.
Proof.
  induction s as [|a s [IH1 IH2]]; [done|]. destruct (quote_byte_roundtrip a s) as [-> ->]. by rewrite IH1.
Qed.

(** ** What the routes give away *)

Section Isolation.
Context `{JsonFloat} `{FloatRepr} `{Validators} `{SkillFiles} {X : Type} `{!ArtifactAccess X}.
Variable env : nat -> ambient.

Abbreviation store_of w := (artifact_store_of (w_ext w)).

(** A handler that only reads: it ends, with a response or an HTTP error,
    and leaves the world as it was. *)
Definition answers {A} (p : prog (World X) (HTTPException + A)) (w : World X) (r : HTTPException + A) : Prop :=
  forall n, exists m, p (mk_sys w n) = Some (mk_sys w m, Ok r).

Lemma then_http_answers {A B} (p : prog (World X) (HTTPException + A)) (k : A -> prog (World X) (HTTPException + B)) w r s :
  answers p w r -> match r with inl e => s = inl e | inr a => answers (k a) w s end ->
  answers (then_http p k) w s.
Proof.
  intros Hp Hk n. destruct (Hp n) as [m E]. unfold then_http. unfold bind at 1. rewrite E. destruct r as [e|a].
  - subst. by exists m.
  - apply Hk.
Qed.

(** A read of the stores with its [except] clauses. *)
Lemma except_http_reads {A} clauses (p : prog (World X) A) (o : outcome A) w r :
  (forall n, exists m, p (mk_sys w n) = Some (mk_sys w m, o)) ->
  match o with
  | Ok a => r = inr a
  | Raise e => exists clause, List.find (fun clause => isinstance e clause.1) clauses = Some clause /\
                 r = inl (mk_HTTPException clause.2 (exn_str e))
  end -> answers (except_http clauses p) w r.
Proof.
  intros Hp Hr n. destruct (Hp n) as [m E]. unfold except_http, try_except. unfold bind. rewrite E.
  destruct o as [a|e]; [subst; by exists m|]. destruct Hr as (clause & -> & ->). by exists m.
Qed.

Definition run_stored (rid : uuid) (w : World X) : Prop := is_Some (w_runs w !! rid).

(** What a handler answers when [shown] holds of the values it may give. *)
Definition gives {A} (p : prog (World X) (HTTPException + A)) (w : World X) (shown : A -> Prop) : Prop :=
  exists r, answers p w r /\
    match r with
    | inl e => http_status e = 404 /\ ~ exists a, shown a
    | inr a => shown a
    end.

Lemma gives_then {A B} (p : prog (World X) (HTTPException + A)) (k : A -> prog (World X) (HTTPException + B)) w
  (P : A -> Prop) (Q : B -> Prop) :
  gives p w P -> (forall a, P a -> gives (k a) w Q) -> (forall b, Q b -> exists a, P a) ->
  gives (then_http p k) w Q.
Proof.
  intros ([e|a] & Hp & Hr) Hk Hq.
  - exists (inl e). split; [by eapply then_http_answers|]. destruct Hr as [Hr Hn]. split; [done|].
    intros [b Hb]. apply Hn. by apply (Hq b).
  - destruct (Hk a Hr) as (r & Hs & Hspec). exists r. split; [by eapply then_http_answers|done].
Qed.

Lemma gives_read {A} (o : World X -> outcome A) w (Q : A -> Prop) a :
  o w = Ok a -> Q a ->
  gives (let* a := call_store env (fun _ w => let! a := o w in Ok (w, a)) in ret (inr a)) w Q.
Proof.
  intros Ho Hq. exists (inr a). split; [|done]. intros n. exists (S n). unfold bind, call_store. simpl. by rewrite Ho.
Qed.

Lemma server_run_gives rid w : gives (server_run env rid) w (fun r => w_runs w !! rid = Some r).
Proof.
  unfold gives, server_run. destruct (w_runs w !! rid) as [run|] eqn:E.
  - exists (inr run). split; [|done]. apply except_http_reads with (o := Ok run); [|done].
    intros n. exists (S n). unfold get_run, call_store, run_get. simpl. by rewrite E.
  - eexists. split.
    + apply except_http_reads with (o := Raise (run_not_found rid)); [|by eexists].
      intros n. exists (S n). unfold get_run, call_store, run_get. simpl. by rewrite E.
    + split; [done|]. by intros [? ?].
Qed.

Lemma artifact_for_run_gives rid aid w :
  gives (artifact_for_run env rid aid) w (fun a => get_artifact aid (store_of w) = Ok a /\ art_run_id a = rid).
Proof.
  apply gives_then with (P := fun a => get_artifact aid (store_of w) = Ok a).
  - unfold gives, get_artifact. destruct (dget aid (as_artifacts (store_of w))) as [a|] eqn:E.
    + exists (inr a). split; [|done]. apply except_http_reads with (o := Ok a); [|done].
      intros n. exists (S n). rewrite read_artifacts_run. simpl. unfold get_artifact. by rewrite E.
    + eexists. split.
      * apply except_http_reads with (o := get_artifact aid (store_of w));
          [|unfold get_artifact; rewrite E; by eexists].
        intros n. exists (S n). by rewrite read_artifacts_run.
      * split; [done|]. by intros [? ?].
  - intros a Ha. destruct (decide (art_run_id a = rid)) as [Hid|Hid].
    + exists (inr a). split; [|done]. intros n. exists n. cbv beta. by rewrite (bool_decide_true _ Hid).
    + eexists. split; [intros n; exists n; cbv beta; rewrite (bool_decide_false _ Hid); reflexivity|].
      split; [done|]. intros (a' & Ha' & Hid'). congruence.
  - intros b [Hb _]. by exists b.
Qed.

(** The artifact of a Run the server may show. *)
Definition shown_artifact (rid aid : uuid) (w : World X) (a : Artifact) : Prop :=
  run_stored rid w /\ get_artifact aid (store_of w) = Ok a /\ art_run_id a = rid.

Lemma gives_for_run {A} rid w (k : Run -> prog (World X) (HTTPException + A)) (Q : A -> Prop) :
  (run_stored rid w -> forall run, gives (k run) w Q) -> (forall a, Q a -> run_stored rid w) ->
  gives (then_http (server_run env rid) k) w Q.
Proof.
  intros Hk Hq. eapply gives_then; [apply server_run_gives| |].
  - intros run Hrun. apply Hk. exact (ex_intro _ run Hrun).
  - intros a Ha. destruct (Hq a Ha) as [run Hrun]. by exists run.
Qed.

Lemma gives_equiv {A} (p : prog (World X) (HTTPException + A)) w (P Q : A -> Prop) :
  (forall a, P a <-> Q a) -> gives p w P -> gives p w Q.
Proof.
  intros Hpq (r & Hr & Hs). exists r. split; [done|]. destruct r as [e|a]; [|by apply Hpq].
  destruct Hs as [Hs Hn]. split; [done|]. intros [a Ha]. apply Hn. exists a. by apply Hpq.
Qed.

(** The response with the content of an artifact: what was stored, with its
    digest, under the name it was given. *)
Definition shown_content (rid aid : uuid) (w : World X) (c : ContentResponse) : Prop :=
  exists a name, shown_artifact rid aid w a /\ cr_media_type c = art_media_type a /\
    read_content aid (store_of w) = Ok (cr_content c) /\
    art_checksum_sha256 a = sha256_hex (cr_content c) /\ art_size_bytes a = slen (cr_content c) /\
    cr_headers c = [("Content-Disposition", "attachment; filename*=UTF-8''" +:+ name);
                    ("X-Content-Type-Options", "nosniff")] /\
    all_chars header_char name = true /\ unquote name = utf8 (art_name a).

(** C17: the server shows of a Run's artifacts what is that Run's, and only
    that.  In any state whose artifact store is consistent, the three artifact
    routes change nothing and answer: with the artifacts of the Run named in
    the path, the artifact asked for if it is one of them, its very content -
    under a file name that is the artifact's, percent-encoded without any
    character that could end the header - and 404 in every other case; an
    artifact of another Run is not told from one that does not exist. *)
Theorem server_confines_artifacts rid aid w :
  references_ok (store_of w) ->
  gives (get_artifact_route env rid aid) w (shown_artifact rid aid w) /\
  gives (get_artifact_content_route env rid aid) w (shown_content rid aid w) /\
  gives (list_artifacts_route env rid) w
    (fun l => run_stored rid w /\ forall a, a ∈ l <-> a ∈ dvalues (as_artifacts (store_of w)) /\ art_run_id a = rid).
Proof.
  intros Hok. split; [|split].
  - apply gives_for_run; [|by intros a [Ha _]]. intros Hst _.
    eapply gives_equiv, artifact_for_run_gives. intros a. unfold shown_artifact. tauto.
  - apply gives_for_run; [|by intros c (a & name & [Hst _] & _)]. intros Hst _.
    eapply gives_then; [apply artifact_for_run_gives| |].
    + intros a [Ha Hid]. unfold get_artifact in Ha.
      destruct (dget aid (as_artifacts (store_of w))) as [a'|] eqn:E; [|discriminate Ha]. injection Ha as ->.
      destruct (ro_artifacts _ Hok aid a E) as [Haid (content & Hc & Hsize & Hdigest)%read_told].
      destruct (quote_roundtrip (utf8 (art_name a))) as [Hu Hh].
      exists (inr (content_response a content)). split.
      * intros n. exists (S n). unfold bind at 1. rewrite read_artifacts_run. simpl. by rewrite Haid, Hc.
      * exists a, (quote (art_name a)). split_and!; try done.
        unfold shown_artifact, get_artifact. by rewrite E.
    + intros c (a & name & [_ Ha] & _). by exists a.
  - apply gives_for_run; [|by intros l [Hl _]]. intros Hst _.
    exists (inr (list_artifacts rid (store_of w))). split.
    + intros n. exists (S n). unfold bind at 1. by rewrite read_artifacts_run.
    + split; [done|]. intros a. unfold list_artifacts.
      rewrite !list_elem_of_In, filter_In, bool_decide_eq_true. done.
Qed.
End Isolation.

(** ** An example *)

#[local] Instance own_store : ArtifactAccess ArtifactStore := {
  artifact_store_of x := x;
  with_artifact_store x _ := x;
}.

Definition stored_run (rid : uuid) : Run :=
  mk_Run rid "p" None None COMPLETED 0 0 TokenUsage_zero [] None None false 0 0 [] [] [].

(** Run 7 made artifact 11; Run 8 is stored too. *)
Definition shop_store : ArtifactStore := artifact_trace report_calls artifact_store_empty.
Definition shop : World ArtifactStore :=
  mk_World example_waiting {[7%N := stored_run 7; 8%N := stored_run 8]} ∅ ∅ (mk_ConversationStore ∅ ∅)
    (mk_ResourceScope SCOPE_CREATED [] []) shop_store.
Definition shop_env (n : nat) : ambient := Ambient 0 (fun _ => 0) (fun _ => 0%N).

Definition response_of {A} (p : prog (World ArtifactStore) (HTTPException + A)) : option (HTTPException + A) :=
  match p (mk_sys shop 0) with Some (_, Ok r) => Some r | _ => None end.

Example shop_responses :
  option_map (fun r => match r with inr c => Some (cr_content c) | inl _ => None end)
    (response_of (get_artifact_content_route shop_env 7 11)) = Some (Some "abc") /\
  response_of (get_artifact_content_route shop_env 8 11)
  = Some (inl (mk_HTTPException 404 "artifact was not found for this Run")) /\
  quote "a b.txt" = "a%20b.txt".
Proof. vm_compute. repeat split. Qed.

Lemma shop_fresh : artifacts_fresh report_calls artifact_store_empty.
Proof. split; [reflexivity|exact I]. Qed.

Lemma shop_ok : references_ok (artifact_store_of (w_ext shop)).
Proof. change (references_ok shop_store). exact (proj1 (artifact_trace_ok report_calls artifact_store_empty references_empty shop_fresh)). Qed.

Lemma server_confines_artifacts_witness :
  references_ok (artifact_store_of (w_ext shop)) /\
  gives (get_artifact_content_route shop_env 7 11) shop (shown_content 7 11 shop).
Proof.
  split; [exact shop_ok|]. exact (proj1 (proj2 (server_confines_artifacts shop_env 7 11 shop shop_ok))).
Defined.
