(* ===== verification/PostgresFlow.v ===== *)
(** * The PostgreSQL Flow repository
      ([src/base_agent/stores/postgres/flow_repository.py])

    [PostgresFlowRepository] keeps a Flow Run in three tables: a row with the
    snapshot as a JSONB payload, the event rows keyed by run and sequence,
    and at most one lease row.  A method that writes is one transaction
    ([engine.begin()]): a tree of SQL statements [tx] whose continuations are
    the code between two statements.  PostgreSQL is the parameter
    [FlowDatabase]; its documented behaviour is [FlowDatabaseLaws]: it holds
    three tables, on which a transaction with nothing else going on acts as
    [exec], all or nothing.  PostgresSessions.v interleaves several.  The
    theorem relates the database to the in-memory repository of
    FlowRepository.v, call by call.

    Pydantic's dump and validation of a payload are the parameters of
    [FlowPayloads]; [FlowPayloadLaws] is what the code relies on.  The
    identifiers in the UNIQUE columns [event_id] and [token] are results of
    [uuid4()], taken to be new: those two constraints are not modelled, the
    primary and foreign keys are. *)

From Stdlib Require Import QArith.
From stdpp Require Import base gmap strings list sorting.
From S2P Require Import Prelude Json Models FlowModels FlowLifecycle FlowRepository.

(** ** Payloads *)

(** [_model_payload] and [model_validate] on a JSONB column. *)
Class FlowPayloads (P : Type) := {
  dump_state : FlowRunState -> P;
  load_state : P -> outcome FlowRunState;
  dump_event : RuntimeEvent -> P;
  load_event : P -> outcome RuntimeEvent;
}.

(** The scalar fields of a snapshot. *)
Definition flow_header (s : FlowRunState) :=
  (fr_run_id s, fr_definition_id s, fr_definition_version s, fr_definition_fingerprint s,
   fr_budget s, fr_deadline_at s, fr_revision s, fr_status s, fr_created_at s).

(** A valid snapshot comes back valid, with the same scalar fields (JSONB may
    reorder the members of the objects inside it); a valid event comes back. *)
Class FlowPayloadLaws (P : Type) `{FlowPayloads P} := {
  load_dump_state : forall s, is_ok (FlowRunState_new s) ->
    exists s', load_state (dump_state s) = Ok s' /\ flow_header s' = flow_header s;
  load_dump_event : forall e, RuntimeEvent_fields e = true -> is_ok (load_event (dump_event e));
}.

(** ** Tables *)

Record flow_row (P : Type) := mk_flow_row {
  row_revision : Z;
  row_status : string;
  row_updated_at : time;
  row_payload : P;
}.
Arguments mk_flow_row {P}.
Arguments row_revision {P}.
Arguments row_payload {P}.

Record event_row (P : Type) := mk_event_row {
  erow_event_id : uuid;
  erow_event_type : string;
  erow_created_at : time;
  erow_payload : P;
}.
Arguments mk_event_row {P}.
Arguments erow_payload {P}.

Record lease_row := mk_lease_row {
  lrow_token : uuid;
  lrow_owner_id : string;
  lrow_attempt : Z;
  lrow_active : bool;
  lrow_acquired_at : time;
  lrow_heartbeat_at : time;
  lrow_expires_at : time;
}.

(** [flow_runs] by [id], [flow_events] by [(run_id, sequence)], [flow_leases]
    by [run_id]. *)
Record flow_tables (P : Type) := mk_flow_tables {
  t_runs : gmap uuid (flow_row P);
  t_events : gmap (uuid * Z) (event_row P);
  t_leases : gmap uuid lease_row;
}.
Arguments mk_flow_tables {P}.
Arguments t_runs {P}.
Arguments t_events {P}.
Arguments t_leases {P}.

(** [sqlalchemy.exc.IntegrityError]: a key that exists, a missing parent. *)
Definition integrity_error : exn := Exn (UserException "IntegrityError") "".

(** ** Writes *)

(** The rows a statement stores. *)
Inductive write (P : Type) :=
  | WRun (rid : uuid) (row : flow_row P)
  | WEvent (key : uuid * Z) (row : event_row P)
  | WLease (rid : uuid) (row : lease_row).
Arguments WRun {P}.
Arguments WEvent {P}.
Arguments WLease {P}.

Definition apply_write {P} (db : flow_tables P) (w : write P) : flow_tables P :=
  match w with
  | WRun rid row => mk_flow_tables (<[rid := row]> (t_runs db)) (t_events db) (t_leases db)
  | WEvent key row => mk_flow_tables (t_runs db) (<[key := row]> (t_events db)) (t_leases db)
  | WLease rid row => mk_flow_tables (t_runs db) (t_events db) (<[rid := row]> (t_leases db))
  end.

Definition apply_writes {P} (ws : list (write P)) (db : flow_tables P) : flow_tables P :=
  fold_left apply_write ws db.

(** ** Queries *)

Definition run_sequences {P} (rid : uuid) (db : flow_tables P) : list Z :=
  map (fun p => snd (fst p)) (List.filter (fun p => bool_decide (fst (fst p) = rid))
                                (map_to_list (t_events db))).

(** [select(func.max(sequence)).where(run_id == rid)]. *)
Definition select_max_sequence {P} (rid : uuid) (db : flow_tables P) : option Z :=
  match run_sequences rid db with
  | [] => None
  | k :: ks => Some (foldr Z.max k ks)
  end.

(** [select(payload).where(run_id == rid).order_by(sequence)]. *)
Definition select_events {P} (rid : uuid) (db : flow_tables P) : list P :=
  map (fun p => erow_payload (snd p))
    (sorted_by (fun p q => snd (fst p) <=? snd (fst q))
       (List.filter (fun p => bool_decide (fst (fst p) = rid)) (map_to_list (t_events db)))).

(** ** Transactions *)

(** The statements of a transaction, each with what the code does with its
    result: [select ... with_for_update()] of a snapshot and of a lease row,
    the greatest sequence, a guarded update with its row count, the inserts,
    and an update of the lease row. *)
Inductive tx (P A : Type) :=
  | TxRet (a : A)
  | TxRaise (e : exn)
  | TxSelectRun (rid : uuid) (k : option P -> tx P A)
  | TxSelectLease (rid : uuid) (k : option lease_row -> tx P A)
  | TxMaxSequence (rid : uuid) (k : option Z -> tx P A)
  | TxUpdateRun (rid : uuid) (revision : Z) (row : flow_row P) (k : Z -> tx P A)
  | TxInsertRun (rid : uuid) (row : flow_row P) (k : tx P A)
  | TxInsertEvents (rows : list ((uuid * Z) * event_row P)) (k : tx P A)
  | TxInsertLease (rid : uuid) (row : lease_row) (k : tx P A)
  | TxUpdateLease (rid : uuid) (set : lease_row -> lease_row) (k : tx P A).
Arguments TxRet {P A}.
Arguments TxRaise {P A}.
Arguments TxSelectRun {P A}.
Arguments TxSelectLease {P A}.
Arguments TxMaxSequence {P A}.
Arguments TxUpdateRun {P A}.
Arguments TxInsertRun {P A}.
Arguments TxInsertEvents {P A}.
Arguments TxInsertLease {P A}.
Arguments TxUpdateLease {P A}.

Fixpoint tx_bind {P A B} (t : tx P A) (f : A -> tx P B) : tx P B :=
  match t with
  | TxRet a => f a
  | TxRaise e => TxRaise e
  | TxSelectRun rid k => TxSelectRun rid (fun x => tx_bind (k x) f)
  | TxSelectLease rid k => TxSelectLease rid (fun x => tx_bind (k x) f)
  | TxMaxSequence rid k => TxMaxSequence rid (fun x => tx_bind (k x) f)
  | TxUpdateRun rid v row k => TxUpdateRun rid v row (fun x => tx_bind (k x) f)
  | TxInsertRun rid row k => TxInsertRun rid row (tx_bind k f)
  | TxInsertEvents rows k => TxInsertEvents rows (tx_bind k f)
  | TxInsertLease rid row k => TxInsertLease rid row (tx_bind k f)
  | TxUpdateLease rid set k => TxUpdateLease rid set (tx_bind k f)
  end.

Notation "'do' x <- t 'in' k" := (tx_bind t (fun x => k))
  (at level 10, x name, t at level 200, k at level 200) : py_scope.
Notation "'tx_raise' e 'when' b 'in' k" := (if b then TxRaise e else k)
  (at level 10, b at level 99, e at level 99, k at level 200) : py_scope.

(** A computation of the code between two statements. *)
Definition tx_of {P A} (o : outcome A) : tx P A :=
  match o with Ok a => TxRet a | Raise e => TxRaise e end.

(** One statement on the tables as it sees them: the rows it stores and what
    the transaction does next, [None] at its end. *)
Definition key_free {P} (db : flow_tables P) (p : (uuid * Z) * event_row P) : bool :=
  bool_decide (is_Some (t_runs db !! fst (fst p))) && bool_decide (t_events db !! fst p = None).

Definition statement {P A} (t : tx P A) (db : flow_tables P)
  : option (list (write P) * tx P A) :=
  match t with
  | TxRet _ | TxRaise _ => None
  | TxSelectRun rid k => Some ([], k (row_payload <$> t_runs db !! rid))
  | TxSelectLease rid k => Some ([], k (t_leases db !! rid))
  | TxMaxSequence rid k => Some ([], k (select_max_sequence rid db))
  | TxUpdateRun rid revision row k =>
      Some (match t_runs db !! rid with
            | Some r => if row_revision r =? revision then ([WRun rid row], k 1) else ([], k 0)
            | None => ([], k 0)
            end)
  | TxInsertRun rid row k =>
      Some (if bool_decide (is_Some (t_runs db !! rid)) then ([], TxRaise integrity_error)
            else ([WRun rid row], k))
  | TxInsertEvents rows k =>
      Some (if forallb (key_free db) rows && bool_decide (NoDup (map fst rows))
            then (map (fun p => WEvent (fst p) (snd p)) rows, k)
            else ([], TxRaise integrity_error))
  | TxInsertLease rid row k =>
      Some (if bool_decide (is_Some (t_runs db !! rid)) && bool_decide (t_leases db !! rid = None)
            then ([WLease rid row], k) else ([], TxRaise integrity_error))
  | TxUpdateLease rid set k =>
      Some (match t_leases db !! rid with
            | Some r => ([WLease rid (set r)], k)
            | None => ([], k)
            end)
  end.

(** [async with engine.begin()]: the statements in turn, each seeing the
    writes of those before it; COMMIT at the end, ROLLBACK on an exception. *)
Fixpoint exec {P A} (t : tx P A) (db : flow_tables P) : outcome (flow_tables P * A) :=
  match t with
  | TxRet a => Ok (db, a)
  | TxRaise e => Raise e
  | TxSelectRun rid k => exec (k (row_payload <$> t_runs db !! rid)) db
  | TxSelectLease rid k => exec (k (t_leases db !! rid)) db
  | TxMaxSequence rid k => exec (k (select_max_sequence rid db)) db
  | TxUpdateRun rid revision row k =>
      match t_runs db !! rid with
      | Some r =>
          if row_revision r =? revision then exec (k 1) (apply_writes [WRun rid row] db)
          else exec (k 0) db
      | None => exec (k 0) db
      end
  | TxInsertRun rid row k =>
      if bool_decide (is_Some (t_runs db !! rid)) then Raise integrity_error
      else exec k (apply_writes [WRun rid row] db)
  | TxInsertEvents rows k =>
      if forallb (key_free db) rows && bool_decide (NoDup (map fst rows))
      then exec k (apply_writes (map (fun p => WEvent (fst p) (snd p)) rows) db)
      else Raise integrity_error
  | TxInsertLease rid row k =>
      if bool_decide (is_Some (t_runs db !! rid)) && bool_decide (t_leases db !! rid = None)
      then exec k (apply_writes [WLease rid row] db) else Raise integrity_error
  | TxUpdateLease rid set k =>
      match t_leases db !! rid with
      | Some r => exec k (apply_writes [WLease rid (set r)] db)
      | None => exec k db
      end
  end.

(** [exec] is the statements one after the other. *)
Lemma exec_statement {P A} (t : tx P A) db ws t' :
  statement t db = Some (ws, t') -> exec t db = exec t' (apply_writes ws db).
Proof.
  destruct t; simpl; intros E; try discriminate E.
  - by injection E as <- <-.
  - by injection E as <- <-.
  - by injection E as <- <-.
  - destruct (t_runs db !! rid) as [r|]; [destruct (row_revision r =? revision)|];
      by injection E as <- <-.
  - destruct (bool_decide _); by injection E as <- <-.
  - destruct (forallb _ _ && _); by injection E as <- <-.
  - destruct (bool_decide _ && _); by injection E as <- <-.
  - destruct (t_leases db !! rid); by injection E as <- <-.
Qed.

(** ** The database *)

(** What the repository asks of PostgreSQL: to run a transaction, and two
    queries on a connection of their own. *)
Class FlowDatabase (P D : Type) := {
  db_transaction : forall A, tx P A -> D -> outcome (D * A);
  db_select_run : uuid -> D -> option P;
  db_select_events : uuid -> D -> list P;
}.
Arguments db_transaction {P D _ A}.

(** Two results that differ in the representation of the database only. *)
Definition same_outcome {D D' A} (R : D -> D' -> Prop) (o : outcome (D * A))
  (o' : outcome (D' * A)) : Prop :=
  match o, o' with
  | Ok (d, a), Ok (d', a') => a = a' /\ R d d'
  | Raise e, Raise e' => e = e'
  | _, _ => False
  end.

(** Its documented behaviour: it holds the three tables, and a transaction
    with nothing else going on acts on them as [exec] says. *)
Class FlowDatabaseLaws (P D : Type) `{!FlowDatabase P D} := {
  db_tables : D -> flow_tables P;
  law_transaction : forall A (t : tx P A) d,
    same_outcome (fun d' ts => db_tables d' = ts) (db_transaction t d) (exec t (db_tables d));
  law_select_run : forall rid d,
    db_select_run rid d = row_payload <$> t_runs (db_tables d) !! rid;
  law_select_events : forall rid d, db_select_events rid d = select_events rid (db_tables d);
}.

(** The tables themselves are such a database. *)
#[export] Instance tables_database {P} : FlowDatabase P (flow_tables P) := {
  db_transaction A := exec;
  db_select_run rid db := row_payload <$> t_runs db !! rid;
  db_select_events := select_events;
}.

#[export, refine] Instance tables_database_laws {P} : FlowDatabaseLaws P (flow_tables P) := {
  db_tables db := db;
}.
Proof.
  - intros A t d. simpl. by destruct (exec t d) as [[d' a]|e].
  - done.
  - done.
Defined.

(** ** The repository *)

Section Repository.
Context {P D : Type} `{!FlowPayloads P} `{!FlowDatabase P D}.

(** [_flow_values]. *)
Definition flow_values (s : FlowRunState) : flow_row P :=
  mk_flow_row (fr_revision s) (RunStatus_value (fr_status s)) (fr_updated_at s) (dump_state s).

(** The row of [_insert_events] of one event. *)
Definition event_values (e : RuntimeEvent) : (uuid * Z) * event_row P :=
  ((ev_run_id e, ev_sequence e),
   mk_event_row (ev_id e) (EventType_value (ev_type e)) (ev_timestamp e) (dump_event e)).

(** [_lease_values]. *)
Definition lease_values (l : FlowExecutionLease) (active : bool) : lease_row :=
  mk_lease_row (lease_token l) (lease_owner_id l) (lease_attempt l) active (lease_acquired_at l)
    (lease_heartbeat_at l) (lease_expires_at l).

(** [_lease_from_row]. *)
Definition lease_from_row (rid : uuid) (r : lease_row) : outcome FlowExecutionLease :=
  let l := mk_FlowExecutionLease rid (lrow_token r) (lrow_owner_id r) (lrow_attempt r)
             (lrow_acquired_at r) (lrow_heartbeat_at r) (lrow_expires_at r) in
  checked (FlowExecutionLease_fields l) (fun _ => Ok tt) l.

(** [_insert_events]. *)
Definition insert_events {A} (es : list RuntimeEvent) (k : tx P A) : tx P A :=
  TxInsertEvents (map event_values es) k.

(** [_lock_state]. *)
Definition lock_state (rid : uuid) : tx P FlowRunState :=
  TxSelectRun rid (fun payload =>
    match payload with
    | None => TxRaise (flow_run_not_found rid)
    | Some p => tx_of (load_state p)
    end).

(** [_next_sequence]. *)
Definition next_sequence (rid : uuid) : tx P Z :=
  TxMaxSequence rid (fun current => TxRet (default 0 current + 1)).

(** [_lease_row]. *)
Definition lease_row_of (rid : uuid) : tx P (option lease_row) := TxSelectLease rid TxRet.

(** [_validate_execution_token]. *)
Definition pg_validate_token (rid : uuid) (token : option uuid) (now : time) : tx P unit :=
  do row <- lease_row_of rid in
  match row with
  | None =>
      tx_raise Exn FlowLeaseLostError
                 (fstr ["Flow Run '"; uuid_str rid; "' has no execution lease"])
        when negb (is_none token) in
      TxRet tt
  | Some row =>
      tx_raise Exn FlowLeaseLostError
                 (fstr ["Flow execution lease for '"; uuid_str rid; "' is not valid"])
        when is_none token || negb (lrow_active row)
             || negb (bool_decide (Some (lrow_token row) = token)) || (lrow_expires_at row <=? now) in
      TxRet tt
  end.

(** The transaction of [create]. *)
Definition create_tx (s : FlowRunState) (es : list RuntimeEvent) : tx P (list RuntimeEvent) :=
  TxInsertRun (fr_run_id s) (flow_values s) (insert_events es (TxRet es)).

(** [except IntegrityError] of [create]. *)
Definition already_exists {A} (s : FlowRunState) (o : outcome A) : outcome A :=
  match o with
  | Raise e =>
      if bool_decide (exn_cls e = exn_cls integrity_error)
      then Raise (Exn FlowRunAlreadyExistsError
                    (fstr ["Flow Run '"; uuid_str (fr_run_id s); "' already exists"]))
      else Raise e
  | o => o
  end.

(** [get]. *)
Definition pg_get (rid : uuid) (d : D) : outcome FlowRunState :=
  match db_select_run rid d with
  | None => Raise (flow_run_not_found rid)
  | Some payload => load_state payload
  end.

(** The transaction of [commit]. *)
Definition commit_tx (amb : ambient) (s : FlowRunState) (expected : Z)
  (drafts : list FlowEventDraft) (token : option uuid) : tx P (list RuntimeEvent) :=
  do current <- lock_state (fr_run_id s) in
  do _u <- pg_validate_token (fr_run_id s) token (amb_clock amb) in
  do _u <- tx_of (validate_flow_replacement current s expected) in
  do start <- next_sequence (fr_run_id s) in
  do es <- tx_of (materialize_events amb (fr_run_id s) drafts start) in
  TxUpdateRun (fr_run_id s) expected (flow_values s) (fun rowcount =>
    tx_raise Exn FlowRevisionConflictError
               (fstr ["Flow Run '"; uuid_str (fr_run_id s); "' changed while committing"])
      when negb (rowcount =? 1) in
    insert_events es (TxRet es)).

(** The transaction of [append_events]. *)
Definition append_tx (amb : ambient) (rid : uuid) (expected : Z) (drafts : list FlowEventDraft)
  (token : option uuid) : tx P (list RuntimeEvent) :=
  do current <- lock_state rid in
  do _u <- pg_validate_token rid token (amb_clock amb) in
  tx_raise Exn FlowRevisionConflictError
             (fstr ["Flow Run '"; uuid_str rid; "' revision conflict: expected ";
                    zstr expected; ", found "; zstr (fr_revision current)])
    when negb (fr_revision current =? expected) in
  do start <- next_sequence rid in
  do es <- tx_of (materialize_events amb rid drafts start) in
  insert_events es (TxRet es).

(** [events]: two statements of a connection, on what is committed. *)
Definition pg_events (rid : uuid) (d : D) : outcome (list RuntimeEvent) :=
  raise_when is_none (db_select_run rid d) as flow_run_not_found rid in
  foldr (fun p acc => let! e := load_event p in let! es := acc in Ok (e :: es)) (Ok [])
    (db_select_events rid d).

(** The transaction of [acquire_execution]. *)
Definition acquire_tx (amb : ambient) (rid : uuid) (owner_id : string) (ttl : seconds)
  (now : option time) : tx P FlowExecutionLease :=
  let acquired_at := default (amb_clock amb) now in
  do s <- lock_state rid in
  tx_raise Exn FlowLeaseUnavailableError
             (fstr ["terminal Flow Run '"; uuid_str rid; "' cannot be claimed"])
    when is_terminal_flow (fr_status s) in
  do prior <- lease_row_of rid in
  tx_raise Exn FlowLeaseUnavailableError
             (fstr ["Flow Run '"; uuid_str rid; "' is leased by '";
                    match prior with Some r => lrow_owner_id r | None => "" end; "'"])
    when match prior with
         | Some r => lrow_active r && (acquired_at <? lrow_expires_at r)
         | None => false
         end in
  let l := mk_FlowExecutionLease rid (amb_uuid amb 0) owner_id
             (match prior with Some r => lrow_attempt r + 1 | None => 1 end)
             acquired_at acquired_at (acquired_at + timedelta ttl) in
  do lease <- tx_of (checked (FlowExecutionLease_fields l) (fun _ => Ok tt) l) in
  match prior with
  | None => TxInsertLease rid (lease_values lease true) (TxRet lease)
  | Some _ => TxUpdateLease rid (fun _ => lease_values lease true) (TxRet lease)
  end.

(** The transaction of [renew_execution]. *)
Definition renew_tx (amb : ambient) (lease : FlowExecutionLease) (ttl : seconds)
  (now : option time) : tx P FlowExecutionLease :=
  let heartbeat_at := default (amb_clock amb) now in
  do _s <- lock_state (lease_run_id lease) in
  do row <- lease_row_of (lease_run_id lease) in
  match row with
  | None => TxRaise (lease_lost (lease_run_id lease))
  | Some r =>
      tx_raise lease_lost (lease_run_id lease)
        when negb (lrow_active r) || negb (bool_decide (lrow_token r = lease_token lease))
             || (lrow_expires_at r <=? heartbeat_at) in
      do current <- tx_of (lease_from_row (lease_run_id lease) r) in
      let renewed := mk_FlowExecutionLease (lease_run_id current) (lease_token current)
        (lease_owner_id current) (lease_attempt current) (lease_acquired_at current)
        heartbeat_at (heartbeat_at + timedelta ttl) in
      TxUpdateLease (lease_run_id lease) (fun _ => lease_values renewed true) (TxRet renewed)
  end.

(** [values(active=False)]. *)
Definition deactivate (r : lease_row) : lease_row :=
  mk_lease_row (lrow_token r) (lrow_owner_id r) (lrow_attempt r) false (lrow_acquired_at r)
    (lrow_heartbeat_at r) (lrow_expires_at r).

(** The transaction of [release_execution]. *)
Definition release_tx (lease : FlowExecutionLease) : tx P unit :=
  do _s <- lock_state (lease_run_id lease) in
  do row <- lease_row_of (lease_run_id lease) in
  match row with
  | None => TxRaise (lease_lost (lease_run_id lease))
  | Some r =>
      tx_raise lease_lost (lease_run_id lease)
        when negb (bool_decide (lrow_token r = lease_token lease)) in
      if lrow_active r then TxUpdateLease (lease_run_id lease) deactivate (TxRet tt) else TxRet tt
  end.

(** ** The calls *)

(** What a call returns. *)
Inductive reply :=
  | REvents (es : list RuntimeEvent)
  | RLease (l : FlowExecutionLease)
  | RDone.

(** The code of a method before its transaction: argument checks, and the
    transaction it opens. *)
Definition call_tx (c : repo_call) : outcome (tx P reply) :=
  match c with
  | CallCreate amb s drafts =>
      raise_when negb (fr_revision s =? 1)
        as value_error ["a new Flow Run must start at revision 1"] in
      raise_when no_drafts drafts
        as value_error ["creating a Flow Run requires at least one event"] in
      let! es := materialize_events amb (fr_run_id s) drafts 1 in
      Ok (tx_bind (create_tx s es) (fun es => TxRet (REvents es)))
  | CallCommit amb s expected drafts token =>
      raise_when no_drafts drafts
        as value_error ["committing a Flow Run requires at least one event"] in
      Ok (tx_bind (commit_tx amb s expected drafts token) (fun es => TxRet (REvents es)))
  | CallAppend amb rid expected drafts token =>
      raise_when no_drafts drafts
        as value_error ["appending Flow events requires at least one event"] in
      Ok (tx_bind (append_tx amb rid expected drafts token) (fun es => TxRet (REvents es)))
  | CallAcquire amb rid owner_id ttl now =>
      let! _ := validate_lease_arguments owner_id ttl in
      Ok (tx_bind (acquire_tx amb rid owner_id ttl now) (fun l => TxRet (RLease l)))
  | CallRenew amb lease ttl now =>
      let! _ := validate_lease_arguments (lease_owner_id lease) ttl in
      Ok (tx_bind (renew_tx amb lease ttl now) (fun l => TxRet (RLease l)))
  | CallRelease lease => Ok (tx_bind (release_tx lease) (fun _ => TxRet RDone))
  end.

(** What the caller sees of the end of its transaction. *)
Definition call_result {A} (c : repo_call) (o : outcome A) : outcome A :=
  match c with
  | CallCreate _ s _ => already_exists s o
  | _ => o
  end.

(** A whole method, nothing else going on. *)
Definition pg_call (c : repo_call) (d : D) : outcome (D * reply) :=
  let! t := call_tx c in
  call_result c (db_transaction t d).
End Repository.

(** The same calls on the in-memory repository, with their results. *)
Definition fm_call (c : repo_call) (w : InMemoryFlowRepository)
  : outcome (InMemoryFlowRepository * reply) :=
  let events (r : InMemoryFlowRepository * list RuntimeEvent) := (fst r, REvents (snd r)) in
  let lease (r : InMemoryFlowRepository * FlowExecutionLease) := (fst r, RLease (snd r)) in
  match c with
  | CallCreate amb s drafts => let! r := fm_create amb s drafts w in Ok (events r)
  | CallCommit amb s expected drafts token =>
      let! r := fm_commit amb s expected drafts token w in Ok (events r)
  | CallAppend amb rid expected drafts token =>
      let! r := fm_append amb rid expected drafts token w in Ok (events r)
  | CallAcquire amb rid owner_id ttl now =>
      let! r := fm_acquire amb rid owner_id ttl now w in Ok (lease r)
  | CallRenew amb l ttl now => let! r := fm_renew amb l ttl now w in Ok (lease r)
  | CallRelease l => let! w' := fm_release l w in Ok (w', RDone)
  end.

(** ** Rows of one Run *)

(** The event rows of [rid]. *)
Definition event_slice {P} (rid : uuid) (db : flow_tables P) : list ((uuid * Z) * event_row P) :=
  List.filter (fun p => bool_decide (fst (fst p) = rid)) (map_to_list (t_events db)).

#[export] Instance list_filter_perm {A} (f : A -> bool) :
  Proper (Permutation ==> Permutation) (List.filter f).
Proof.
  intros l l' Hp. induction Hp as [|x l l' _ IH|x y l|l1 l2 l3 _ IH1 _ IH2]; simpl.
  - done.
  - by destruct (f x); rewrite IH.
  - destruct (f x), (f y); first [done|constructor].
  - by etrans.
Qed.

Lemma event_slice_insert {P} rid (db : flow_tables P) key row :
  t_events db !! key = None ->
  event_slice rid (apply_write db (WEvent key row)) ≡ₚ
  (if bool_decide (fst key = rid) then [(key, row)] else []) ++ event_slice rid db.
Proof.
  intros Hk. unfold event_slice. simpl. rewrite map_to_list_insert by done. simpl.
  by case_bool_decide.
Qed.

Lemma events_free_after {P} (db : flow_tables P) key row rows :
  key ∉ map fst rows -> forallb (key_free db) rows = true ->
  forallb (key_free (apply_write db (WEvent key row))) rows = true.
Proof.
  intros Hn Hf. rewrite List.forallb_forall in *. intros p Hp. specialize (Hf p Hp).
  unfold key_free in *. simpl. apply andb_true_iff in Hf as [H1 H2]. apply andb_true_iff.
  split; [done|]. rewrite lookup_insert_ne; [done|]. intros ->. apply Hn.
  apply list_elem_of_In, in_map, Hp.
Qed.

Definition event_writes {P} (rows : list ((uuid * Z) * event_row P)) : list (write P) :=
  map (fun p => WEvent (fst p) (snd p)) rows.

Lemma event_writes_tables {P} rows : forall db : flow_tables P,
  t_runs (apply_writes (event_writes rows) db) = t_runs db /\
  t_leases (apply_writes (event_writes rows) db) = t_leases db.
Proof. induction rows as [|p rows IH]; intros db; [done|]. exact (IH (apply_write db (WEvent (fst p) (snd p)))). Qed.

Lemma event_writes_slice {P} rid rows : forall db : flow_tables P,
  NoDup (map fst rows) -> forallb (key_free db) rows = true ->
  event_slice rid (apply_writes (event_writes rows) db) ≡ₚ
  event_slice rid db ++ List.filter (fun p => bool_decide (fst (fst p) = rid)) rows.
Proof.
  induction rows as [|[key row] rows IH]; intros db Hn Hf; [by rewrite app_nil_r|].
  simpl in Hn, Hf. apply NoDup_cons in Hn as [Hk Hn]. apply andb_true_iff in Hf as [Hfree Hf].
  change (apply_writes (event_writes ((key, row) :: rows)) db) with
    (apply_writes (event_writes rows) (apply_write db (WEvent key row))).
  rewrite IH by (done || by apply events_free_after). rewrite event_slice_insert.
  - simpl. case_bool_decide; simpl; [|done]. by rewrite <-Permutation_middle.
  - unfold key_free in Hfree. reflect. done.
Qed.

Lemma filter_keeps_all {A} (f : A -> bool) l : (forall x, x ∈ l -> f x = true) -> List.filter f l = l.
Proof.
  induction l as [|x l IH]; intros H; [done|]. simpl. rewrite (H x) by apply list_elem_of_here.
  f_equal. apply IH. intros y Hy. apply H. by apply list_elem_of_further.
Qed.

Lemma filter_drops_all {A} (f : A -> bool) l : (forall x, x ∈ l -> f x = false) -> List.filter f l = [].
Proof.
  induction l as [|x l IH]; intros H; [done|]. simpl. rewrite (H x) by apply list_elem_of_here.
  apply IH. intros y Hy. apply H. by apply list_elem_of_further.
Qed.

(** A log numbered 1, 2, ... for [rid]. *)
Definition numbered_log (rid : uuid) (log : list RuntimeEvent) : Prop :=
  map (fun e => (ev_run_id e, ev_sequence e)) log =
    map (fun k => (rid, k)) (seqZ 1 (Z.of_nat (length log))).

Lemma numbered_log_elem rid log e :
  numbered_log rid log -> e ∈ log ->
  ev_run_id e = rid /\ 1 <= ev_sequence e <= Z.of_nat (length log).
Proof.
  intros Hn He.
  assert ((ev_run_id e, ev_sequence e) ∈ map (fun e => (ev_run_id e, ev_sequence e)) log) as Hin
    by (apply list_elem_of_fmap; by exists e).
  rewrite Hn in Hin. apply list_elem_of_fmap in Hin as (k & [= -> ->] & Hk).
  apply elem_of_seqZ in Hk. lia.
Qed.

Lemma numbered_log_sequences rid log :
  numbered_log rid log -> map ev_sequence log = seqZ 1 (Z.of_nat (length log)).
Proof.
  intros Hn. apply (f_equal (map snd)) in Hn. rewrite !map_map in Hn. simpl in Hn.
  etrans; [exact Hn|]. apply map_id.
Qed.

Lemma foldr_max_perm (k : Z) ks ks' : ks ≡ₚ ks' -> foldr Z.max k ks = foldr Z.max k ks'.
Proof. induction 1; simpl; lia. Qed.

Lemma foldr_max_init x ks : 0 <= x -> foldr Z.max x ks = foldr Z.max 0 (x :: ks).
Proof. intros Hx. simpl. induction ks as [|k ks IH]; simpl; lia. Qed.

Lemma foldr_max_seqZ (n : nat) : forall m, 1 <= m ->
  foldr Z.max 0 (seqZ m (Z.of_nat n)) = if (n =? 0)%nat then 0 else m + Z.of_nat n - 1.
Proof.
  induction n as [|n IH]; intros m Hm; [done|]. rewrite Nat2Z.inj_succ, seqZ_cons by lia. simpl.
  rewrite Z.pred_succ, IH by lia. destruct n; simpl; lia.
Qed.

(** Where the slice of a Run is its log, the greatest sequence is its length
    and the ordered query gives the log's rows in order. *)
Section Slices.
Context {P : Type} `{!FlowPayloads P}.
Variables (rid : uuid) (db : flow_tables P) (log : list RuntimeEvent).
Hypothesis slice_log : event_slice rid db ≡ₚ map event_values log.
Hypothesis log_numbered : numbered_log rid log.

Lemma select_max_sequence_log :
  default 0 (select_max_sequence rid db) = Z.of_nat (length log).
Proof.
  assert (run_sequences rid db ≡ₚ seqZ 1 (Z.of_nat (length log))) as Hp.
  { unfold run_sequences. change (List.filter _ _) with (event_slice rid db).
    rewrite slice_log, map_map, <-(numbered_log_sequences _ _ log_numbered). done. }
  pose proof (foldr_max_perm 0 _ _ Hp) as Hm. rewrite foldr_max_seqZ in Hm by lia.
  unfold select_max_sequence. destruct (run_sequences rid db) as [|k ks] eqn:E; simpl.
  - apply Permutation_nil_l in Hp. destruct log; [done|]. by rewrite seqZ_cons in Hp by (simpl; lia).
  - rewrite foldr_max_init, Hm.
    + destruct (length log); simpl; lia.
    + assert (k ∈ seqZ 1 (Z.of_nat (length log))) as Hk by (rewrite <-Hp; apply list_elem_of_here).
      apply elem_of_seqZ in Hk. lia.
Qed.

Lemma select_events_log : select_events rid db = map dump_event log.
Proof.
  unfold select_events. change (List.filter _ _) with (event_slice rid db).
  set (leb := fun p q : (uuid * Z) * event_row P => snd (fst p) <=? snd (fst q)).
  assert (sorted_by leb (event_slice rid db) = map event_values log) as ->;
    [|by rewrite map_map].
  apply (StronglySorted_unique_strong (fun p q => leb p q = true)).
  - intros p q Hp Hq Hpq Hqp. rewrite sorted_by_perm, slice_log in Hp. 
    apply list_elem_of_fmap in Hp as (e & -> & He), Hq as (f & -> & Hf).
    unfold leb in *. simpl in *. reflect.
    assert (e = f) as ->; [|done].
    apply list_elem_of_lookup in He as [i Hi], Hf as [j Hj].
    assert (forall i e, log !! i = Some e -> ev_sequence e = 1 + Z.of_nat i) as Hnum.
    { intros i' e' He'. assert (map ev_sequence log !! i' = Some (ev_sequence e')) as Hx
        by (by rewrite list_lookup_fmap, He').
      rewrite (numbered_log_sequences _ _ log_numbered) in Hx. apply lookup_seqZ in Hx. lia. }
    rewrite (Hnum _ _ Hi), (Hnum _ _ Hj) in *. assert (i = j) as -> by lia. congruence.
  - apply sorted_by_sorted; unfold leb.
    + intros x y. rewrite !Z.leb_le. lia.
    + intros x y z. rewrite !Z.leb_le. lia.
  - assert (StronglySorted Z.lt (map ev_sequence log)) as Hs.
    { rewrite (numbered_log_sequences _ _ log_numbered). generalize 1. generalize (length log).
      induction n as [|n IH]; intros z; [by constructor|].
      rewrite Nat2Z.inj_succ, seqZ_cons by lia. rewrite Z.pred_succ. constructor; [apply IH|].
      apply Forall_forall. intros x Hx. apply elem_of_seqZ in Hx. lia. }
    clear -Hs. induction log as [|e l IH]; simpl; [constructor|].
    apply StronglySorted_inv in Hs as [Hs Hl]. constructor; [by apply IH|].
    rewrite Forall_forall in Hl. apply Forall_forall. intros p Hp.
    apply list_elem_of_fmap in Hp as (f & -> & Hf). unfold leb. simpl. apply Z.leb_le.
    assert (ev_sequence f ∈ map ev_sequence l) as Hx by (apply list_elem_of_fmap; by exists f).
    apply Hl in Hx. lia.
  - rewrite sorted_by_perm. exact slice_log.
Qed.
End Slices.

(** ** The tables hold the in-memory repository *)

Section Refinement.
Context {P : Type} `{!FlowPayloads P} `{!FlowPayloadLaws P}.

Definition log_of (w : InMemoryFlowRepository) (rid : uuid) : list RuntimeEvent :=
  default [] (fm_events w !! rid).

Record pg_refines (db : flow_tables P) (w : InMemoryFlowRepository) : Prop := {
  ref_ok : fm_ok w;
  ref_valid : forall rid s, fm_states w !! rid = Some s -> is_ok (FlowRunState_new s);
  ref_runs : t_runs db = flow_values <$> fm_states w;
  ref_events : forall rid, event_slice rid db ≡ₚ map event_values (log_of w rid);
  ref_leases : t_leases db = (fun p => lease_values (fst p) (snd p)) <$> fm_leases w;
  ref_lease : forall rid l a, fm_leases w !! rid = Some (l, a) ->
    lease_run_id l = rid /\ FlowExecutionLease_fields l = true /\ is_Some (fm_states w !! rid);
}.

(** The snapshot a call stores is a validated instance. *)
Definition call_valid (c : repo_call) : Prop :=
  match c with
  | CallCreate _ s _ | CallCommit _ s _ _ _ => is_ok (FlowRunState_new s)
  | _ => True
  end.

Definition flow_tables_empty : flow_tables P := mk_flow_tables ∅ ∅ ∅.

Lemma pg_refines_empty : pg_refines flow_tables_empty flow_repository_empty.
Proof.
  split; simpl; try done.
  apply fm_ok_empty.
Qed.

Section Calls.
Variables (db : flow_tables P) (w : InMemoryFlowRepository).
Hypothesis R : pg_refines db w.

Lemma ref_run rid : t_runs db !! rid = flow_values <$> fm_states w !! rid.
Proof. by rewrite (ref_runs _ _ R), lookup_fmap. Qed.

Lemma ref_lease_row rid :
  t_leases db !! rid = (fun p => lease_values (fst p) (snd p)) <$> fm_leases w !! rid.
Proof. by rewrite (ref_leases _ _ R), lookup_fmap. Qed.

Lemma ref_log rid : numbered_log rid (log_of w rid).
Proof.
  unfold log_of. destruct (fm_events w !! rid) as [log|] eqn:Hl; [|done]. simpl.
  destruct (proj2 (proj1 (ref_ok _ _ R) rid)) as [s Hs]; [by eexists|].
  eapply (proj2 (ref_ok _ _ R) rid s log). unfold fm_view. by rewrite Hs, Hl.
Qed.

Lemma ref_states_log rid s : fm_states w !! rid = Some s -> fm_events w !! rid = Some (log_of w rid).
Proof.
  intros Hs. destruct (proj1 (proj1 (ref_ok _ _ R) rid)) as [log Hl]; [by eexists|].
  unfold log_of. by rewrite Hl.
Qed.

Lemma exec_tx_of {A B} (o : outcome A) (f : A -> tx P B) :
  exec (tx_bind (tx_of o) f) db = match o with Ok a => exec (f a) db | Raise e => Raise e end.
Proof. by destruct o. Qed.

Lemma exec_lock_state {B} rid (f : FlowRunState -> tx P B) :
  match fm_states w !! rid with
  | None => exec (tx_bind (lock_state rid) f) db = Raise (flow_run_not_found rid)
  | Some s => exists s', flow_header s' = flow_header s /\
                exec (tx_bind (lock_state rid) f) db = exec (f s') db
  end.
Proof.
  unfold lock_state. simpl. rewrite ref_run. destruct (fm_states w !! rid) as [s|] eqn:Hs; [|done].
  destruct (load_dump_state s (ref_valid _ _ R _ _ Hs)) as (s' & Hl & Hh). exists s'.
  split; [done|]. simpl. by rewrite Hl.
Qed.

Lemma exec_validate_token {B} rid token now (f : unit -> tx P B) :
  exec (tx_bind (pg_validate_token rid token now) f) db =
  match validate_execution_token rid token now w with
  | Ok _ => exec (f tt) db
  | Raise e => Raise e
  end.
Proof.
  unfold pg_validate_token, lease_row_of, validate_execution_token, is_expired. simpl.
  rewrite ref_lease_row. destruct (fm_leases w !! rid) as [[l a]|]; simpl.
  - by destruct (is_none token || negb a || _ || _).
  - by destruct (negb (is_none token)).
Qed.

Lemma exec_next_sequence {B} rid (f : Z -> tx P B) :
  exec (tx_bind (next_sequence rid) f) db = exec (f (Z.of_nat (length (log_of w rid)) + 1)) db.
Proof.
  unfold next_sequence. simpl. f_equal. f_equal. f_equal.
  apply select_max_sequence_log; [apply (ref_events _ _ R)|apply ref_log].
Qed.

(** The new events of a Run, numbered on from its log, are accepted. *)
Lemma new_events_free rid drafts es row :
  events_for rid (Z.of_nat (length (log_of w rid)) + 1) drafts es ->
  let db1 := apply_write db (WRun rid row) in
  forallb (key_free db1) (map event_values es) = true /\ NoDup (map fst (map event_values es)).
Proof.
  intros [Hn _] db1. split.
  - apply List.forallb_forall. intros p Hp. apply list_elem_of_In, list_elem_of_fmap in Hp.
    destruct Hp as (e & -> & He). unfold key_free. simpl.
    assert ((ev_run_id e, ev_sequence e) ∈ map (fun e => (ev_run_id e, ev_sequence e)) es) as Hin
      by (apply list_elem_of_fmap; by exists e).
    rewrite Hn in Hin. apply list_elem_of_fmap in Hin as (k & [= -> ->] & Hk).
    apply elem_of_seqZ in Hk. rewrite lookup_insert_eq. apply andb_true_iff. split; [apply bool_decide_eq_true_2; by eexists|].
    apply bool_decide_eq_true_2. apply eq_None_not_Some. intros [r Hr].
    assert (((rid, k), r) ∈ event_slice rid db) as Hs.
    { apply list_elem_of_In, List.filter_In. split; [|by apply bool_decide_eq_true_2].
      apply list_elem_of_In. by apply elem_of_map_to_list. }
    rewrite (ref_events _ _ R) in Hs. apply list_elem_of_fmap in Hs as (f & [= _ Hseq _] & Hf).
    apply (numbered_log_elem _ _ _ (ref_log rid)) in Hf. lia.
  - rewrite map_map.
    change (map (fun x => fst (event_values x)) es)
      with (map (fun e => (ev_run_id e, ev_sequence e)) es).
    rewrite Hn. apply NoDup_fmap_2; [by intros ? ? [=]|]. apply NoDup_seqZ.
Qed.

(** ** One call *)

Lemma validate_flow_replacement_header cur cur' s expected :
  flow_header cur' = flow_header cur ->
  validate_flow_replacement cur' s expected = validate_flow_replacement cur s expected.
Proof.
  unfold flow_header, validate_flow_replacement. intros [= -> -> -> -> -> -> -> _ ->]. done.
Qed.

Lemma exec_map {A B} (t : tx P A) (g : A -> B) : forall db0,
  exec (tx_bind t (fun a => TxRet (g a))) db0 =
  match exec t db0 with Ok (db', a) => Ok (db', g a) | Raise e => Raise e end.
Proof.
  induction t as [a|e|rid k IH|rid k IH|rid k IH|rid v row k IH|rid row k IH|rows k IH|rid row k IH
                 |rid set k IH]; intros db0; simpl; try done.
  - destruct (t_runs db0 !! rid) as [r|]; [destruct (row_revision r =? v)|]; apply IH.
  - destruct (bool_decide _); [done|apply IH].
  - destruct (forallb _ _ && _); [apply IH|done].
  - destruct (bool_decide _ && _); [apply IH|done].
  - destruct (t_leases db0 !! rid); apply IH.
Qed.

(** The tables after a Run's row and new events are stored. *)
Definition stored (rid : uuid) (s : FlowRunState) (es : list RuntimeEvent) : flow_tables P :=
  apply_writes (event_writes (map event_values es)) (apply_write db (WRun rid (flow_values s))).

Lemma exec_insert_events {A} rid s drafts es (k : tx P A) :
  events_for rid (Z.of_nat (length (log_of w rid)) + 1) drafts es ->
  exec (insert_events es k) (apply_write db (WRun rid (flow_values s))) = exec k (stored rid s es).
Proof.
  intros Hes. destruct (new_events_free rid drafts es (flow_values s) Hes) as [Hf Hn].
  unfold insert_events. cbn [exec]. rewrite Hf, bool_decide_eq_true_2 by done. done.
Qed.

Lemma stored_refines rid s drafts es :
  events_for rid (Z.of_nat (length (log_of w rid)) + 1) drafts es ->
  is_ok (FlowRunState_new s) ->
  let w' := mk_InMemoryFlowRepository (<[rid := s]> (fm_states w))
              (<[rid := log_of w rid ++ es]> (fm_events w)) (fm_leases w) in
  fm_ok w' -> pg_refines (stored rid s es) w'.
Proof.
  intros Hes Hs w' Hok. destruct (new_events_free rid drafts es (flow_values s) Hes) as [Hf Hn].
  destruct (event_writes_tables (map event_values es) (apply_write db (WRun rid (flow_values s))))
    as [Hr Hl].
  split; [done| | | | |].
  - intros r s' Hlk. simpl in Hlk. apply lookup_insert_Some in Hlk as [[_ <-]|[_ Hlk]]; [done|].
    by apply (ref_valid _ _ R r).
  - unfold stored. rewrite Hr. simpl. rewrite (ref_runs _ _ R). by rewrite fmap_insert.
  - intros r. unfold stored. rewrite event_writes_slice by done.
    change (event_slice r (apply_write db (WRun rid (flow_values s)))) with (event_slice r db).
    rewrite (ref_events _ _ R). unfold log_of at 2. simpl.
    assert (forall e, e ∈ es -> ev_run_id e = rid) as Hrid.
    { intros e He.
      assert ((ev_run_id e, ev_sequence e) ∈ map (fun e => (ev_run_id e, ev_sequence e)) es) as Hin
        by (apply list_elem_of_fmap; by exists e).
      rewrite (proj1 Hes) in Hin. by apply list_elem_of_fmap in Hin as (k & [= -> _] & _). }
    rewrite lookup_insert. case_decide as Hd.
    + subst r. simpl. rewrite map_app, filter_keeps_all; [done|]. intros p Hp.
      apply list_elem_of_fmap in Hp as (e & -> & He). apply bool_decide_eq_true_2. by apply Hrid.
    + rewrite filter_drops_all; [by rewrite app_nil_r|]. intros p Hp.
      apply list_elem_of_fmap in Hp as (e & -> & He). apply bool_decide_eq_false_2. simpl.
      by rewrite (Hrid e).
  - unfold stored. rewrite Hl. apply (ref_leases _ _ R).
  - intros r l a Hlk. destruct (ref_lease _ _ R _ _ _ Hlk) as (H1 & H2 & H3).
    split_and!; [done|done|]. simpl. rewrite lookup_insert. case_decide; [by eexists|done].
Qed.

Lemma lease_refines rid l a :
  lease_run_id l = rid -> FlowExecutionLease_fields l = true -> is_Some (fm_states w !! rid) ->
  pg_refines (apply_write db (WLease rid (lease_values l a))) (fm_set_lease rid l a w).
Proof.
  intros H1 H2 H3. split; simpl.
  - apply (ref_ok _ _ R).
  - apply (ref_valid _ _ R).
  - apply (ref_runs _ _ R).
  - apply (ref_events _ _ R).
  - rewrite (ref_leases _ _ R). by rewrite fmap_insert.
  - intros r l' a' Hlk. apply lookup_insert_Some in Hlk as [[<- [= <- <-]]|[_ Hlk]]; [done|].
    by apply (ref_lease _ _ R _ _ a').
Qed.

Lemma run_row_kept rid s :
  fm_states w !! rid = Some s -> apply_write db (WRun rid (flow_values s)) = db.
Proof.
  intros Hs. pose proof (ref_run rid) as Hr. rewrite Hs in Hr. clear R.
  destruct db as [runs events leases]. simpl in *. f_equal. by apply insert_id.
Qed.

(** A result of the tables against the in-memory one; [E] relates the
    exceptions. *)
Definition agrees {A} (E : exn -> exn -> Prop) (o : outcome (InMemoryFlowRepository * A))
  (o' : outcome (flow_tables P * A)) : Prop :=
  match o, o' with
  | Ok (w', a), Ok (db', a') => a' = a /\ pg_refines db' w'
  | Raise e, Raise e' => E e e'
  | _, _ => False
  end.

Lemma create_agrees amb s drafts :
  is_ok (FlowRunState_new s) -> fr_revision s = 1 -> no_drafts drafts = false ->
  exists es, materialize_events amb (fr_run_id s) drafts 1 = Ok es /\
    agrees (fun e e' => e' = e) (fm_create amb s drafts w)
      (already_exists s (exec (create_tx s es) db)).
Proof.
  intros Hs Hrev Hd. destruct (materialize_events_spec amb (fr_run_id s) drafts 1) as (es & Hes & Hf);
    [lia|]. exists es. split; [done|].
  pose proof (proj1 (fm_after_ok (CallCreate amb s drafts) w (ref_ok _ _ R))) as Hok.
  cbn [fm_after] in Hok. unfold fm_create, create_tx in *. rewrite Hrev, Hd, Hes in *.
  cbn [exec] in *. rewrite ref_run. destruct (fm_states w !! fr_run_id s) as [cur|] eqn:Hst.
  - rewrite !bool_decide_eq_true_2 by by eexists. done.
  - rewrite !bool_decide_eq_false_2 in * by (by intros [? ?]). change (negb (1 =? 1)) with false in *. cbn [on_Ok fst] in *.
    assert (log_of w (fr_run_id s) = []) as Hlog.
    { unfold log_of. destruct (fm_events w !! fr_run_id s) eqn:He; [|done].
      destruct (proj2 (proj1 (ref_ok _ _ R) (fr_run_id s))); [by eexists|congruence]. }
    change (apply_writes [WRun (fr_run_id s) (flow_values s)] db)
      with (apply_write db (WRun (fr_run_id s) (flow_values s))).
    assert (events_for (fr_run_id s) (Z.of_nat (length (log_of w (fr_run_id s))) + 1) drafts es) as Hf'
      by (by rewrite Hlog).
    rewrite (exec_insert_events _ _ _ _ _ Hf'). split; [done|].
    pose proof (stored_refines _ s _ _ Hf' Hs) as Hr. cbv zeta in Hr. rewrite Hlog in Hr. by apply Hr.
Qed.

Lemma commit_agrees amb s expected drafts token :
  is_ok (FlowRunState_new s) -> no_drafts drafts = false ->
  agrees (fun e e' => e' = e) (fm_commit amb s expected drafts token w)
    (exec (commit_tx amb s expected drafts token) db).
Proof.
  intros Hs Hd.
  pose proof (proj1 (fm_after_ok (CallCommit amb s expected drafts token) w (ref_ok _ _ R))) as Hok.
  cbn [fm_after] in Hok. unfold fm_commit, commit_tx in *. rewrite Hd in *. unfold fm_get in *.
  match goal with |- context [tx_bind (lock_state _) ?f] => pose proof (exec_lock_state (fr_run_id s) f) as Hl end.
  destruct (fm_states w !! fr_run_id s) as [cur|] eqn:Hst; [|by rewrite Hl].
  destruct Hl as (cur' & Hh & ->). rewrite exec_validate_token.
  destruct (validate_execution_token _ _ _ w) as [[]|]; [|done].
  rewrite (validate_flow_replacement_header _ _ _ _ Hh), exec_tx_of.
  destruct (validate_flow_replacement cur s expected) as [[]|] eqn:Hv; [|done].
  rewrite exec_next_sequence, exec_tx_of. unfold fm_log in *. rewrite (ref_states_log _ _ Hst) in *.
  destruct (materialize_events_spec amb (fr_run_id s) drafts
              (Z.of_nat (length (log_of w (fr_run_id s))) + 1)) as (es & Hes & Hf); [lia|].
  rewrite Hes in *. cbn [exec]. rewrite ref_run, Hst. cbn [fmap option_fmap option_map].
  apply validate_flow_replacement_Ok in Hv as (Hexp & _). cbn [row_revision flow_values].
  rewrite Hexp, Z.eqb_refl. change (negb (1 =? 1)) with false. cbv iota.
  change (apply_writes [WRun (fr_run_id s) (flow_values s)] db)
    with (apply_write db (WRun (fr_run_id s) (flow_values s))).
  rewrite (exec_insert_events _ _ _ _ _ Hf). split; [done|].
  eapply stored_refines; [exact Hf|done|exact Hok].
Qed.

Lemma append_agrees amb rid expected drafts token :
  no_drafts drafts = false ->
  agrees (fun e e' => e' = e) (fm_append amb rid expected drafts token w)
    (exec (append_tx amb rid expected drafts token) db).
Proof.
  intros Hd.
  pose proof (proj1 (fm_after_ok (CallAppend amb rid expected drafts token) w (ref_ok _ _ R))) as Hok.
  cbn [fm_after] in Hok. unfold fm_append, append_tx in *. rewrite Hd in *. unfold fm_get in *.
  match goal with |- context [tx_bind (lock_state _) ?f] => pose proof (exec_lock_state rid f) as Hl end.
  destruct (fm_states w !! rid) as [cur|] eqn:Hst; [|by rewrite Hl].
  destruct Hl as (cur' & Hh & ->). rewrite exec_validate_token.
  destruct (validate_execution_token _ _ _ w) as [[]|]; [|done].
  assert (fr_revision cur' = fr_revision cur) as -> by (unfold flow_header in Hh; congruence).
  destruct (fr_revision cur =? expected); [|done]. cbn [negb] in *.
  rewrite exec_next_sequence, exec_tx_of. unfold fm_log in *. rewrite (ref_states_log _ _ Hst) in *.
  destruct (materialize_events_spec amb rid drafts (Z.of_nat (length (log_of w rid)) + 1))
    as (es & Hes & Hf); [lia|].
  rewrite Hes in *. rewrite <-(run_row_kept rid cur Hst) at 1.
  rewrite (exec_insert_events _ _ _ _ _ Hf). split; [done|].
  pose proof (stored_refines _ cur _ _ Hf (ref_valid _ _ R _ _ Hst)) as Hr. cbv zeta in Hr.
  rewrite insert_id in Hr by done. by apply Hr.
Qed.

Lemma acquire_agrees amb rid owner ttl now :
  validate_lease_arguments owner ttl = Ok tt ->
  agrees (fun e e' => e' = e) (fm_acquire amb rid owner ttl now w)
    (exec (acquire_tx amb rid owner ttl now) db).
Proof.
  intros Ha. unfold fm_acquire, acquire_tx. rewrite Ha. unfold fm_get.
  match goal with |- context [tx_bind (lock_state _) ?f] => pose proof (exec_lock_state rid f) as Hl end.
  destruct (fm_states w !! rid) as [s|] eqn:Hst; [|by rewrite Hl].
  destruct Hl as (s' & Hh & ->).
  assert (fr_status s' = fr_status s) as -> by (unfold flow_header in Hh; congruence).
  destruct (is_terminal_flow (fr_status s)); [done|].
  unfold lease_row_of. cbn [tx_bind exec]. rewrite ref_lease_row.
  set (acquired_at := default (amb_clock amb) now).
  destruct (fm_leases w !! rid) as [[l a]|] eqn:Hlease; cbn [fmap option_fmap option_map fst snd].
  - unfold is_expired. cbn [lrow_active lrow_expires_at lrow_owner_id lrow_attempt lease_values].
    rewrite Z.ltb_antisym. destruct (a && negb (lease_expires_at l <=? acquired_at)); [done|].
    rewrite exec_tx_of. destruct (checked _ _ _) as [lease|] eqn:Hc; [|done].
    cbn [exec]. rewrite ref_lease_row, Hlease. cbn [fmap option_fmap option_map].
    apply checked_Ok in Hc as (Hf & _ & ->). split; [done|]. apply lease_refines; [done|done|by eexists].
  - rewrite exec_tx_of. destruct (checked _ _ _) as [lease|] eqn:Hc; [|done].
    cbn [exec]. rewrite ref_run, Hst, ref_lease_row, Hlease. cbn [fmap option_fmap option_map].
    apply checked_Ok in Hc as (Hf & _ & ->).
    rewrite !bool_decide_eq_true_2 by (done || by eexists). split; [done|].
    apply lease_refines; [done|done|by eexists].
Qed.

(** A lost lease, or one that never was: the in-memory repository looks for
    the lease, the tables for the Run first, then for the lease. *)
Definition lease_error (e e' : exn) : Prop :=
  e' = e \/
  exn_cls e = FlowLeaseLostError /\
  (exn_cls e' = FlowLeaseLostError \/ exn_cls e' = FlowRunNotFoundError).

Lemma renew_agrees amb lease ttl now :
  validate_lease_arguments (lease_owner_id lease) ttl = Ok tt ->
  agrees lease_error (fm_renew amb lease ttl now w) (exec (renew_tx amb lease ttl now) db).
Proof.
  intros Ha. unfold fm_renew, renew_tx, fm_require_lease, lease_row_of. rewrite Ha.
  set (rid := lease_run_id lease).
  match goal with |- context [tx_bind (lock_state _) ?f] => pose proof (exec_lock_state rid f) as Hl end.
  destruct (fm_leases w !! rid) as [[cur a]|] eqn:Hlease.
  - destruct (ref_lease _ _ R _ _ _ Hlease) as (Hrid & Hf & [s Hst]). rewrite Hst in Hl.
    destruct Hl as (s' & _ & ->). cbn [tx_bind exec]. rewrite ref_lease_row, Hlease.
    cbn [fmap option_fmap option_map fst snd lrow_active lrow_token lrow_expires_at lease_values].
    unfold is_expired. destruct (negb a || _ || _); [by left|]. rewrite exec_tx_of.
    unfold lease_from_row. cbn [lrow_token lrow_owner_id lrow_attempt lrow_acquired_at
      lrow_heartbeat_at lrow_expires_at lease_values].
    assert (mk_FlowExecutionLease rid (lease_token cur) (lease_owner_id cur) (lease_attempt cur)
              (lease_acquired_at cur) (lease_heartbeat_at cur) (lease_expires_at cur) = cur) as ->
      by (rewrite <-Hrid; by destruct cur).
    unfold checked. rewrite Hf. cbn [negb exec]. rewrite ref_lease_row, Hlease.
    cbn [fmap option_fmap option_map]. split; [done|]. apply lease_refines; [done|exact Hf|by eexists].
  - destruct (fm_states w !! rid) as [s|].
    + destruct Hl as (s' & _ & ->). cbn [tx_bind exec]. rewrite ref_lease_row, Hlease. right.
      split; [done|]. by left.
    + rewrite Hl. right. split; [done|]. by right.
Qed.

Lemma release_agrees lease :
  match fm_release lease w, exec (release_tx lease) db with
  | Ok w', Ok (db', tt) => pg_refines db' w'
  | Raise e, Raise e' => lease_error e e'
  | _, _ => False
  end.
Proof.
  unfold fm_release, release_tx, fm_require_lease, lease_row_of. set (rid := lease_run_id lease).
  match goal with |- context [tx_bind (lock_state _) ?f] => pose proof (exec_lock_state rid f) as Hl end.
  destruct (fm_leases w !! rid) as [[cur a]|] eqn:Hlease.
  - destruct (ref_lease _ _ R _ _ _ Hlease) as (Hrid & Hf & [s Hst]). rewrite Hst in Hl.
    destruct Hl as (s' & _ & ->). cbn [tx_bind exec]. rewrite ref_lease_row, Hlease.
    cbn [fmap option_fmap option_map fst snd lrow_active lrow_token lease_values].
    destruct (negb _); [by left|]. destruct a; [|done]. cbn [exec]. rewrite ref_lease_row, Hlease.
    cbn [fmap option_fmap option_map fst snd].
    apply (lease_refines rid cur false); [done|done|by eexists].
  - destruct (fm_states w !! rid) as [s|].
    + destruct Hl as (s' & _ & ->). cbn [tx_bind exec]. rewrite ref_lease_row, Hlease. right.
      split; [done|]. by left.
    + rewrite Hl. right. split; [done|]. by right.
Qed.

(** How the exceptions of a call correspond. *)
Definition same_error (c : repo_call) : exn -> exn -> Prop :=
  match c with
  | CallRenew _ _ _ _ | CallRelease _ => lease_error
  | _ => fun e e' => e' = e
  end.

Lemma call_agrees c : call_valid c -> agrees (same_error c) (fm_call c w) (pg_call c db).
Proof.
  intros Hc. unfold pg_call. cbn [db_transaction tables_database].
  destruct c; cbn [fm_call call_tx call_result same_error].
  - destruct (fr_revision s =? 1) eqn:Hr; cbn [negb]; [|by unfold fm_create; rewrite Hr].
    destruct (no_drafts drafts) eqn:Hd; [by unfold fm_create; rewrite Hr, Hd|]. reflect.
    destruct (create_agrees amb s drafts Hc Hr Hd) as (es & -> & Ha). rewrite exec_map.
    destruct (fm_create amb s drafts w) as [[w' es']|], (exec (create_tx s es) db) as [[db' es'']|];
      cbn [already_exists] in *; try destruct (bool_decide _); cbn in *; try done.
    by destruct Ha as [-> ?].
  - destruct (no_drafts drafts) eqn:Hd; [by unfold fm_commit; rewrite Hd|].
    pose proof (commit_agrees amb s expected drafts token Hc Hd) as Ha. rewrite exec_map.
    destruct (fm_commit _ _ _ _ _ w) as [[w' es']|], (exec _ db) as [[db' es'']|]; cbn in *; try done.
    by destruct Ha as [-> ?].
  - destruct (no_drafts drafts) eqn:Hd; [by unfold fm_append; rewrite Hd|].
    pose proof (append_agrees amb rid expected drafts token Hd) as Ha. rewrite exec_map.
    destruct (fm_append _ _ _ _ _ w) as [[w' es']|], (exec _ db) as [[db' es'']|]; cbn in *; try done.
    by destruct Ha as [-> ?].
  - destruct (validate_lease_arguments owner_id ttl) as [[]|] eqn:Hv;
      [|by unfold fm_acquire; rewrite Hv].
    pose proof (acquire_agrees amb rid owner_id ttl now Hv) as Ha. rewrite exec_map.
    destruct (fm_acquire _ _ _ _ _ w) as [[w' l']|], (exec _ db) as [[db' l'']|]; cbn in *; try done.
    by destruct Ha as [-> ?].
  - destruct (validate_lease_arguments (lease_owner_id lease) ttl) as [[]|] eqn:Hv;
      [|by unfold fm_renew; rewrite Hv; left].
    pose proof (renew_agrees amb lease ttl now Hv) as Ha. rewrite exec_map.
    destruct (fm_renew _ _ _ _ w) as [[w' l']|], (exec _ db) as [[db' l'']|]; cbn in *; try done.
    by destruct Ha as [-> ?].
  - pose proof (release_agrees lease) as Ha. rewrite exec_map.
    destruct (fm_release _ w) as [w'|], (exec _ db) as [[db' []]|]; cbn in *; done.
Qed.

(** The readers. *)
Lemma get_agrees rid :
  pg_get rid db = match fm_get rid w with
                  | Ok s => load_state (dump_state s)
                  | Raise e => Raise e
                  end.
Proof. unfold pg_get, fm_get. simpl. rewrite ref_run. by destruct (fm_states w !! rid). Qed.

Lemma events_agree rid :
  pg_events rid db =
  match fm_list_events rid w with
  | Ok log => foldr (fun e acc => let! e' := load_event (dump_event e) in
                                  let! es := acc in Ok (e' :: es)) (Ok []) log
  | Raise e => Raise e
  end.
Proof.
  unfold pg_events, fm_list_events, fm_get, fm_log. cbn [db_select_run db_select_events tables_database].
  rewrite ref_run.
  destruct (fm_states w !! rid) as [s|] eqn:Hst; [|done]. cbn [fmap option_fmap option_map is_none].
  rewrite (ref_states_log _ _ Hst).
  rewrite (select_events_log rid db (log_of w rid)) by (apply (ref_events _ _ R) || apply ref_log).
  induction (log_of w rid) as [|e log IH]; [done|]. cbn. by rewrite IH.
Qed.
End Calls.

(** ** Histories *)

Definition pg_after {D} `{!FlowDatabase P D} (c : repo_call) (d : D) : D :=
  on_Ok (pg_call c d) fst d.

Definition pg_trace {D} `{!FlowDatabase P D} (cs : list repo_call) (d : D) : D :=
  fold_left (fun d c => pg_after c d) cs d.

Lemma fm_after_call c w : fm_after c w = on_Ok (fm_call c w) fst w.
Proof.
  destruct c; cbn [fm_after fm_call].
  - by destruct (fm_create _ _ _ w) as [[? ?]|].
  - by destruct (fm_commit _ _ _ _ _ w) as [[? ?]|].
  - by destruct (fm_append _ _ _ _ _ w) as [[? ?]|].
  - by destruct (fm_acquire _ _ _ _ _ w) as [[? ?]|].
  - by destruct (fm_renew _ _ _ _ w) as [[? ?]|].
  - by destruct (fm_release _ w).
Qed.

Lemma pg_after_refines (db : flow_tables P) w c :
  pg_refines db w -> call_valid c -> pg_refines (pg_after c db) (fm_after c w).
Proof.
  intros R Hc. pose proof (call_agrees db w R c Hc) as Ha. rewrite fm_after_call. unfold pg_after.
  destruct (fm_call c w) as [[w' r]|], (pg_call c db) as [[db' r']|]; cbn in *; try done. apply Ha.
Qed.

Lemma pg_trace_refines cs : forall (db : flow_tables P) w,
  pg_refines db w -> Forall call_valid cs -> pg_refines (pg_trace cs db) (fm_trace cs w).
Proof.
  induction cs as [|c cs IH]; intros db w R Hcs; [done|].
  apply Forall_cons in Hcs as [Hc Hcs]. apply IH; [|done]. by apply pg_after_refines.
Qed.

(** A database does to its tables what the tables do by themselves. *)
Section Database.
Context {D : Type} `{!FlowDatabase P D} `{!FlowDatabaseLaws P D}.

Lemma pg_call_tables c (d : D) :
  same_outcome (fun d' ts => db_tables d' = ts) (pg_call c d) (pg_call c (db_tables d)).
Proof.
  unfold pg_call. cbn [db_transaction tables_database].
  destruct (call_tx c) as [t|e]; [|done]. pose proof (law_transaction _ t d) as Hl.
  destruct (db_transaction t d) as [[d' r]|e], (exec t (db_tables d)) as [[ts r']|e'];
    cbn in Hl; try done; [by destruct c|].
  subst e'. destruct c; cbn; try done. by destruct (bool_decide _).
Qed.

Lemma pg_after_tables c (d : D) : db_tables (pg_after c d) = pg_after c (db_tables d).
Proof.
  pose proof (pg_call_tables c d) as Hc. unfold pg_after.
  destruct (pg_call c d) as [[d' r]|], (pg_call c (db_tables d)) as [[ts r']|]; cbn in *; try done.
  by destruct Hc.
Qed.

Lemma pg_trace_tables cs : forall d : D,
  db_tables (pg_trace cs d) = pg_trace cs (db_tables d).
Proof.
  induction cs as [|c cs IH]; intros d; [done|].
  change (db_tables (pg_trace cs (pg_after c d)) = pg_trace cs (pg_after c (db_tables d))).
  by rewrite IH, pg_after_tables.
Qed.

Lemma pg_get_tables rid (d : D) : pg_get rid d = pg_get rid (db_tables d).
Proof. unfold pg_get. by rewrite law_select_run. Qed.

Lemma pg_events_tables rid (d : D) : pg_events rid d = pg_events rid (db_tables d).
Proof. unfold pg_events. by rewrite law_select_run, law_select_events. Qed.

(** C35: the PostgreSQL repository is the in-memory one.  After the same calls
    on a database whose tables are empty, every call has the same result on both (the same
    events or lease, or the same exception; only for a lease that is not
    there may the exceptions of [renew] and [release] differ), [get] returns
    the in-memory snapshot read back from its payload, and [events] returns
    the in-memory log read back in order, never failing to load it. *)
Theorem postgres_flow_refines_memory (d0 : D) (cs : list repo_call) :
  db_tables d0 = flow_tables_empty -> Forall call_valid cs ->
  let db := pg_trace cs d0 in
  let w := fm_trace cs flow_repository_empty in
  (forall c, call_valid c ->
     match fm_call c w, pg_call c db with
     | Ok (_, r), Ok (_, r') => r' = r
     | Raise e, Raise e' => same_error c e e'
     | _, _ => False
     end) /\
  (forall rid s log, fm_view w rid = Some (s, log) ->
     exists s' es, pg_get rid db = Ok s' /\ flow_header s' = flow_header s /\
       pg_events rid db = Ok es /\ Forall2 (fun e e' => load_event (dump_event e) = Ok e') log es) /\
  (forall rid, fm_view w rid = None ->
     pg_get rid db = Raise (flow_run_not_found rid) /\
     pg_events rid db = Raise (flow_run_not_found rid)).
Proof.
  intros Hd0 Hcs db w.
  assert (pg_refines (db_tables db) w) as R.
  { unfold db. rewrite pg_trace_tables, Hd0. apply pg_trace_refines; [apply pg_refines_empty|done]. }
  split_and!.
  - intros c Hc. pose proof (call_agrees _ w R c Hc) as Ha. pose proof (pg_call_tables c db) as Ht.
    destruct (fm_call c w) as [[w' r]|], (pg_call c (db_tables db)) as [[db' r']|],
      (pg_call c db) as [[d' r'']|]; cbn in *; try done; naive_solver.
  - intros rid s log Hv. pose proof (ref_log _ w R rid) as Hn.
    destruct (fm_view_Some _ _ _ _ Hv) as [Hs Hl]. unfold log_of in Hn. rewrite Hl in Hn.
    destruct (load_dump_state s (ref_valid _ _ R _ _ Hs)) as (s' & Hld & Hh).
    rewrite pg_get_tables, pg_events_tables, (get_agrees _ w R), (events_agree _ w R). unfold fm_list_events, fm_get, fm_log.
    rewrite Hs, Hl. assert (forall e, e ∈ log -> RuntimeEvent_fields e = true) as Hf.
    { intros e He. apply (numbered_log_elem _ _ _ Hn) in He. unfold RuntimeEvent_fields.
      apply Z.leb_le. lia. }
    clear Hv Hl Hn. exists s'.
    assert (exists es, foldr (fun e acc => let! e' := load_event (dump_event e) in
                 let! es := acc in Ok (e' :: es)) (Ok []) log = Ok es /\
              Forall2 (fun e e' => load_event (dump_event e) = Ok e') log es) as (es & He & Hfa).
    { induction log as [|e log IH]; simpl; [exists []; by split|].
      destruct (load_dump_event e (Hf e (list_elem_of_here _ _))) as [e' He'].
      destruct IH as (es & Hes & Hfa); [intros; apply Hf; by apply list_elem_of_further|].
      rewrite He', Hes. exists (e' :: es). split; [done|]. by constructor. }
    by exists es.
  - intros rid Hv. rewrite pg_get_tables, pg_events_tables, (get_agrees _ w R), (events_agree _ w R).
    unfold fm_list_events, fm_get. destruct (fm_states w !! rid) as [s|] eqn:Hs; [|done].
    destruct (fm_wf_view _ _ _ (proj1 (ref_ok _ _ R)) Hs) as (log & _ & Hw). congruence.
Qed.
End Database.
End Refinement.

(** ** A concrete history *)

(** Payloads that are the dumped values themselves. *)
#[export] Instance example_payloads : FlowPayloads (FlowRunState + RuntimeEvent) := {
  dump_state := inl;
  load_state p := match p with inl s => Ok s | inr _ => Raise (validation_error "state") end;
  dump_event := inr;
  load_event p := match p with inr e => Ok e | inl _ => Raise (validation_error "event") end;
}.

#[export] Instance example_payload_laws : FlowPayloadLaws (FlowRunState + RuntimeEvent).
Proof.
  split.
  - intros s _. by exists s.
  - intros e _. by exists e.
Qed.

Lemma example_history_valid : Forall call_valid example_history.
Proof. repeat constructor; vm_compute; by eexists. Qed.

Definition example_pg : flow_tables (FlowRunState + RuntimeEvent) :=
  pg_trace example_history flow_tables_empty.

Lemma postgres_flow_refines_memory_witness :
  Forall call_valid example_history /\
  exists es, pg_events 7%N example_pg = Ok es /\ map ev_sequence es = [1; 2; 3].
Proof.
  split; [exact example_history_valid|].
  assert (fm_view example_repo 7%N = Some (example_started, example_log)) as Hv
    by (vm_compute; reflexivity).
  destruct (postgres_flow_refines_memory (P := FlowRunState + RuntimeEvent)
              (FlowDatabaseLaws0 := tables_database_laws) flow_tables_empty
              example_history eq_refl example_history_valid) as (_ & Hview & _).
  destruct (Hview _ _ _ Hv) as (s' & es & _ & _ & He & Hf). exists es. split; [exact He|].
  assert (map ev_sequence example_log = [1; 2; 3]) as <- by (vm_compute; reflexivity).
  clear -Hf. induction Hf as [|e e' l l' [= ->] _ IH]; [reflexivity|]. simpl. by rewrite IH.
Defined.

(** The executed queries agree. *)
Example example_pg_events :
  match pg_events 7%N example_pg with Ok es => es = example_log | Raise _ => False end.
Proof. vm_compute. reflexivity. Qed.
