(* ===== verification/PostgresSessions.v ===== *)
(** * Concurrent sessions on the PostgreSQL Flow tables

    Each method of [PostgresFlowRepository] that writes is one transaction on
    its own connection, at the default READ COMMITTED isolation.  Here any
    number of them run at once, one SQL statement at a time, in any order of
    turns: a statement sees what is committed and what its own transaction
    wrote, it waits while another transaction holds a row it locks, and a
    transaction keeps its row locks to its end.  The theorems say that the
    [SELECT ... FOR UPDATE] of the Run's row, with which every method but
    [create] begins, is enough: whatever the turns, the committed tables and
    every result are those of the in-memory repository called in some order,
    and the sessions can always be run to their ends. *)

From Stdlib Require Import QArith.
From stdpp Require Import base gmap strings list sorting fin_sets.
From S2P Require Import Prelude Json Models FlowModels FlowLifecycle FlowRepository PostgresFlow.

(** ** Row locks *)

(** The row of a Run in [flow_runs], or its row in [flow_leases]. *)
Abbreviation row_lock := (uuid + uuid)%type (only parsing).
Definition run_lock (rid : uuid) : row_lock := inl rid.
Definition lease_lock (rid : uuid) : row_lock := inr rid.

(** The rows a statement locks: those it selects [FOR UPDATE], updates or
    inserts, and the parent row of a foreign key (whose key-share lock is
    counted as a lock of the row). *)
Definition locks_needed {P A : Type} (t : tx P A) (db : flow_tables P) : gset row_lock :=
  match t with
  | TxRet _ | TxRaise _ | TxMaxSequence _ _ => ∅
  | TxSelectRun rid _ => if bool_decide (is_Some (t_runs db !! rid)) then {[run_lock rid]} else ∅
  | TxSelectLease rid _ | TxUpdateLease rid _ _ =>
      if bool_decide (is_Some (t_leases db !! rid)) then {[lease_lock rid]} else ∅
  | TxUpdateRun rid revision _ _ =>
      match t_runs db !! rid with
      | Some r => if row_revision r =? revision then {[run_lock rid]} else ∅
      | None => ∅
      end
  | TxInsertRun rid _ _ =>
      if bool_decide (is_Some (t_runs db !! rid)) then ∅ else {[run_lock rid]}
  | TxInsertEvents rows _ => list_to_set (map (fun p => run_lock (fst (fst p))) rows)
  | TxInsertLease rid _ _ => {[run_lock rid; lease_lock rid]}
  end.

(** ** Sessions *)

(** A session: what its transaction still does, what it wrote (uncommitted)
    and the rows it locked. *)
Record session (P : Type) := mk_session {
  ss_code : tx P reply;
  ss_writes : list (write P);
  ss_locks : gset row_lock;
}.
Arguments mk_session {P}.
Arguments ss_code {P}.
Arguments ss_writes {P}.
Arguments ss_locks {P}.

(** The committed tables, the open sessions, and the ended ones with their
    outcomes, in the order they ended. *)
Record sessions (P : Type) := mk_sessions {
  sw_db : flow_tables P;
  sw_open : gmap nat (session P);
  sw_ended : list (nat * outcome reply);
}.
Arguments mk_sessions {P}.
Arguments sw_db {P}.
Arguments sw_open {P}.
Arguments sw_ended {P}.

(** No other session holds one of the rows. *)
Definition rows_free {P : Type} (j : nat) (need : gset row_lock) (open : gmap nat (session P)) : bool :=
  forallb (fun p => bool_decide (fst p = j) || bool_decide (ss_locks (snd p) ∩ need = ∅))
    (map_to_list open).

(** The turn of session [j]: COMMIT or ROLLBACK at its end, else its next
    statement; nothing while it waits for a row. *)
Definition turn {P : Type} (st : sessions P) (j : nat) : sessions P :=
  match sw_open st !! j with
  | None => st
  | Some s =>
      let seen := apply_writes (ss_writes s) (sw_db st) in
      match ss_code s with
      | TxRet r => mk_sessions seen (delete j (sw_open st)) (sw_ended st ++ [(j, Ok r)])
      | TxRaise e =>
          mk_sessions (sw_db st) (delete j (sw_open st)) (sw_ended st ++ [(j, Raise e)])
      | t =>
          match statement t seen with
          | None => st
          | Some (ws, t') =>
              let need := locks_needed t seen in
              if rows_free j need (sw_open st)
              then mk_sessions (sw_db st)
                     (<[j := mk_session t' (ss_writes s ++ ws) (ss_locks s ∪ need)]> (sw_open st))
                     (sw_ended st)
              else st
          end
      end
  end.

Definition run_turns {P : Type} (js : list nat) (st : sessions P) : sessions P := fold_left turn js st.

(** All transactions opened, none has run a statement. *)
Definition open_sessions {P : Type} (progs : gmap nat (tx P reply)) (db : flow_tables P) : sessions P :=
  mk_sessions db ((fun t => mk_session t [] ∅) <$> progs) [].

(** The transactions of [order], one after the other. *)
Definition replay_one {P : Type} (progs : gmap nat (tx P reply))
  (acc : flow_tables P * list (nat * outcome reply)) (j : nat)
  : flow_tables P * list (nat * outcome reply) :=
  match progs !! j with
  | None => acc
  | Some t =>
      match exec t (fst acc) with
      | Ok (db', r) => (db', snd acc ++ [(j, Ok r)])
      | Raise e => (fst acc, snd acc ++ [(j, Raise e)])
      end
  end.

Definition replay {P : Type} (progs : gmap nat (tx P reply)) (order : list nat) (db : flow_tables P)
  : flow_tables P * list (nat * outcome reply) :=
  fold_left (replay_one progs) order (db, []).

(** ** Transactions about one Run *)

(** Every statement is about the rows of [rid]. *)
Fixpoint about {P A : Type} (rid : uuid) (t : tx P A) : Prop :=
  match t with
  | TxRet _ | TxRaise _ => True
  | TxSelectRun r k => r = rid /\ forall x, about rid (k x)
  | TxSelectLease r k => r = rid /\ forall x, about rid (k x)
  | TxMaxSequence r k => r = rid /\ forall x, about rid (k x)
  | TxUpdateRun r _ _ k => r = rid /\ forall x, about rid (k x)
  | TxInsertRun r _ k => r = rid /\ about rid k
  | TxInsertEvents rows k => Forall (fun p => fst (fst p) = rid) rows /\ about rid k
  | TxInsertLease r _ k => r = rid /\ about rid k
  | TxUpdateLease r _ k => r = rid /\ about rid k
  end.

(** It starts by locking the Run's row (and gives up when there is none) or
    by inserting it. *)
Definition locks_first {P A : Type} (rid : uuid) (t : tx P A) : Prop :=
  match t with
  | TxSelectRun r k => r = rid /\ (exists e, k None = TxRaise e) /\ forall p, about rid (k (Some p))
  | TxInsertRun r _ k => r = rid /\ about rid k
  | _ => False
  end.

(** Tables with the same rows of [rid]. *)
Record same_rows {P : Type} (rid : uuid) (db db' : flow_tables P) : Prop := {
  same_run : t_runs db !! rid = t_runs db' !! rid;
  same_event : forall k, t_events db !! (rid, k) = t_events db' !! (rid, k);
  same_lease : t_leases db !! rid = t_leases db' !! rid;
}.

#[export] Instance same_rows_equivalence {P : Type} rid : Equivalence (@same_rows P rid).
Proof.
  split.
  - by intros db.
  - intros db db' [H1 H2 H3]. by split.
  - intros a b c [H1 H2 H3] [G1 G2 G3]. split; [by etrans|intros k; by rewrite H2|by etrans].
Qed.

Definition write_about {P : Type} (rid : uuid) (w : write P) : Prop :=
  match w with
  | WRun r _ => r = rid
  | WEvent key _ => fst key = rid
  | WLease r _ => r = rid
  end.

#[export] Instance apply_write_same {P : Type} rid : Proper (same_rows rid ==> eq ==> same_rows rid) (@apply_write P).
Proof.
  intros db db' [H1 H2 H3] w _ <-. destruct w as [r row|key row|r row]; split; simpl; try done.
  - rewrite !lookup_insert. by case_decide.
  - intros k. rewrite !lookup_insert. by case_decide.
  - rewrite !lookup_insert. by case_decide.
Qed.

Lemma apply_writes_same {P : Type} rid (ws : list (write P)) : forall db db',
  same_rows rid db db' -> same_rows rid (apply_writes ws db) (apply_writes ws db').
Proof.
  induction ws as [|w ws IH]; intros db db' Hs; [done|]. apply IH. by apply apply_write_same.
Qed.

Lemma apply_writes_other {P : Type} rid rid' (ws : list (write P)) : forall db,
  rid' <> rid -> Forall (write_about rid') ws -> same_rows rid (apply_writes ws db) db.
Proof.
  induction ws as [|w ws IH]; intros db Hne Hws; [done|]. apply Forall_cons in Hws as [Hw Hws].
  etrans; [by apply IH|]. destruct w as [r row|[r k] row|r row]; simpl in Hw; subst; split; simpl;
    intros; try done; rewrite lookup_insert_ne; congruence.
Qed.

Lemma apply_writes_app {P : Type} (ws ws' : list (write P)) db :
  apply_writes (ws ++ ws') db = apply_writes ws' (apply_writes ws db).
Proof. apply fold_left_app. Qed.

Lemma rows_free_spec {P : Type} j need (open : gmap nat (session P)) :
  rows_free j need open = true <->
  forall i s, open !! i = Some s -> i <> j -> ss_locks s ## need.
Proof.
  unfold rows_free. rewrite List.forallb_forall. split.
  - intros H i s Hi Hne. specialize (H (i, s) ltac:(apply list_elem_of_In; by apply elem_of_map_to_list)).
    apply orb_true_iff in H as [H|H]; reflect; [done|]. simpl in H. set_solver.
  - intros H [i s] Hin. apply list_elem_of_In, elem_of_map_to_list in Hin. apply orb_true_iff. simpl.
    destruct (decide (i = j)) as [->|Hne]; [left; by apply bool_decide_eq_true_2|right].
    apply bool_decide_eq_true_2. specialize (H i s Hin Hne). set_solver.
Qed.

(** The greatest sequence depends on the rows of the Run only. *)
Lemma foldr_max_spec (k : Z) ks :
  foldr Z.max k ks ∈ k :: ks /\ forall x, x ∈ k :: ks -> x <= foldr Z.max k ks.
Proof.
  induction ks as [|x ks [IH1 IH2]]; simpl.
  - split; [apply list_elem_of_here|]. intros x Hx. apply list_elem_of_singleton in Hx. lia.
  - split.
    + destruct (Z.max_spec x (foldr Z.max k ks)) as [[_ ->]|[_ ->]]; [|set_solver].
      clear IH2. set_solver.
    + intros y Hy. assert (y = x \/ y ∈ k :: ks) as [->|Hin] by (clear -Hy; set_solver); [lia|].
      specialize (IH2 y Hin). lia.
Qed.

Lemma select_max_same {P : Type} rid (db db' : flow_tables P) :
  same_rows rid db db' -> select_max_sequence rid db = select_max_sequence rid db'.
Proof.
  intros Hs. assert (forall k, k ∈ run_sequences rid db <-> k ∈ run_sequences rid db') as Hiff.
  { assert (forall (d : flow_tables P) k, k ∈ run_sequences rid d <-> is_Some (t_events d !! (rid, k))) as H.
    { intros d k. unfold run_sequences. rewrite list_elem_of_fmap. split.
      - intros ([[r k'] row] & -> & Hin). apply list_elem_of_In, List.filter_In in Hin as [Hin Hr].
        reflect. simpl in Hr. subst r. exists row. simpl. by apply elem_of_map_to_list, list_elem_of_In.
      - intros [row Hr]. exists ((rid, k), row). split; [done|].
        apply list_elem_of_In, List.filter_In. split; [|by apply bool_decide_eq_true_2].
        apply list_elem_of_In. by apply elem_of_map_to_list. }
    intros k. by rewrite !H, (same_event _ _ _ Hs). }
  unfold select_max_sequence.
  destruct (run_sequences rid db) as [|k ks], (run_sequences rid db') as [|k' ks'].
  - done.
  - by pose proof (proj2 (Hiff k') (list_elem_of_here _ _)) as []%not_elem_of_nil.
  - by pose proof (proj1 (Hiff k) (list_elem_of_here _ _)) as []%not_elem_of_nil.
  - destruct (foldr_max_spec k ks) as [H1 H2], (foldr_max_spec k' ks') as [H1' H2']. f_equal.
    apply Z.le_antisymm; [apply H2'; by apply Hiff|apply H2; by apply Hiff].
Qed.

Lemma forallb_ext_elem {A : Type} (f g : A -> bool) l :
  (forall x, x ∈ l -> f x = g x) -> forallb f l = forallb g l.
Proof.
  induction l as [|x l IH]; intros H; [done|]. simpl. rewrite (H x) by apply list_elem_of_here.
  f_equal. apply IH. intros y Hy. apply H. by apply list_elem_of_further.
Qed.

(** A statement about [rid] sees only its rows. *)
Lemma statement_same {P A : Type} rid (t : tx P A) db db' :
  about rid t -> same_rows rid db db' -> statement t db = statement t db'.
Proof.
  intros Ha Hs. destruct t; simpl in *; try done; try (destruct Ha as [<- Ha]).
  - by rewrite (same_run _ _ _ Hs).
  - by rewrite (same_lease _ _ _ Hs).
  - by rewrite (select_max_same _ _ _ Hs).
  - by rewrite (same_run _ _ _ Hs).
  - by rewrite (same_run _ _ _ Hs).
  - destruct Ha as [Ha _]. assert (forallb (key_free db) rows = forallb (key_free db') rows) as ->;
      [|done].
    apply forallb_ext_elem. intros [[r k] row] Hin.
    rewrite Forall_forall in Ha. specialize (Ha _ Hin). simpl in Ha. subst r.
    unfold key_free. simpl. by rewrite (same_run _ _ _ Hs), (same_event _ _ _ Hs).
  - by rewrite (same_run _ _ _ Hs), (same_lease _ _ _ Hs).
  - by rewrite (same_lease _ _ _ Hs).
Qed.

(** It writes and locks rows of [rid] only, and what follows is about it. *)
Lemma statement_about {P A : Type} rid (t : tx P A) db ws t' :
  about rid t -> statement t db = Some (ws, t') ->
  Forall (write_about rid) ws /\ about rid t' /\
  locks_needed t db ⊆ {[run_lock rid; lease_lock rid]}.
Proof.
  intros Ha Hst. destruct t; simpl in *; try discriminate Hst; try (destruct Ha as [<- Ha]).
  - injection Hst as <- <-. split_and!; [done|done|]. case_bool_decide; set_solver.
  - injection Hst as <- <-. split_and!; [done|done|]. case_bool_decide; set_solver.
  - injection Hst as <- <-. split_and!; [done|done|]. set_solver.
  - destruct (t_runs db !! rid0) as [r|]; [destruct (row_revision r =? revision)|];
      injection Hst as <- <-; split_and!; try done; try set_solver. by repeat constructor.
  - case_bool_decide; injection Hst as <- <-; split_and!; try done; try set_solver.
    by repeat constructor.
  - destruct Ha as [Hr Ha].
    assert (list_to_set (map (fun p => run_lock (fst (fst p))) rows) ⊆
            ({[run_lock rid; lease_lock rid]} : gset row_lock)) as Hl.
    { intros x Hx. apply elem_of_list_to_set, list_elem_of_fmap in Hx as (p & -> & Hp).
      rewrite Forall_forall in Hr. rewrite (Hr _ Hp). set_solver. }
    destruct (_ && _); injection Hst as <- <-; split_and!; try done.
    apply Forall_forall. intros x Hx. apply list_elem_of_fmap in Hx as (p & -> & Hp).
    rewrite Forall_forall in Hr. by apply Hr.
  - destruct (_ && _); injection Hst as <- <-; split_and!; try done; by repeat constructor.
  - destruct (t_leases db !! rid0); injection Hst as <- <-; split_and!; try done;
      try (case_bool_decide; set_solver). by repeat constructor.
Qed.

(** ** Linearization *)

Lemma NoDup_add {A : Type} (l : list A) x : NoDup l -> x ∉ l -> NoDup (l ++ [x]).
Proof. intros Hl Hx. apply NoDup_app. split_and!; [done|set_solver|apply NoDup_singleton]. Qed.

Lemma replay_snoc {P : Type} (progs : gmap nat (tx P reply)) order j db :
  replay progs (order ++ [j]) db = replay_one progs (replay progs order db) j.
Proof. unfold replay. by rewrite fold_left_app. Qed.

Lemma replay_elem {P : Type} (progs : gmap nat (tx P reply)) db j o : forall order,
  (j, o) ∈ snd (replay progs order db) ->
  exists before after p, order = before ++ j :: after /\ progs !! j = Some p /\
    o = match exec p (fst (replay progs before db)) with Ok (_, r) => Ok r | Raise e => Raise e end.
Proof.
  intros order. induction order as [|i order IH] using rev_ind; intros Hin.
  - by apply not_elem_of_nil in Hin.
  - rewrite replay_snoc in Hin. unfold replay_one in Hin.
    assert (forall x, (j, o) ∈ snd (replay progs order db) ++ [(i, x)] ->
              (exists before after p, order ++ [i] = before ++ j :: after /\ progs !! j = Some p /\
                 o = match exec p (fst (replay progs before db)) with
                     | Ok (_, r) => Ok r | Raise e => Raise e end) \/ (j = i /\ o = x)) as Hcase.
    { intros x Hx. apply elem_of_app in Hx as [Hx|Hx].
      - left. destruct (IH Hx) as (before & after & p & -> & Hp & Ho).
        exists before, (after ++ [i]), p. by rewrite <-app_assoc.
      - right. apply list_elem_of_singleton in Hx. by injection Hx. }
    destruct (progs !! i) as [p|] eqn:Hp.
    + destruct (exec p (fst (replay progs order db))) as [[db' r]|e] eqn:He; cbn in Hin;
        (destruct (Hcase _ Hin) as [H|[-> ->]]; [done|]); exists order, [], p; by rewrite He.
    + destruct (IH Hin) as (before & after & p & -> & Hp' & Ho).
      exists before, (after ++ [i]), p. by rewrite <-app_assoc.
Qed.

Section Linearization.
Context {P : Type} (progs : gmap nat (tx P reply)) (db0 : flow_tables P).
Hypothesis progs_lock : forall j p, progs !! j = Some p -> exists rid, locks_first rid p.

(** A session past its first statement: it owns the rows of its Run, and has
    done the first part of what its transaction does alone. *)
Record holds (rid : uuid) (p : tx P reply) (db : flow_tables P) (s : session P) : Prop := {
  h_lock : run_lock rid ∈ ss_locks s;
  h_locks : ss_locks s ⊆ {[run_lock rid; lease_lock rid]};
  h_about : about rid (ss_code s);
  h_writes : Forall (write_about rid) (ss_writes s);
  h_exec : forall d, same_rows rid d db ->
    exec p d = exec (ss_code s) (apply_writes (ss_writes s) d);
}.

(** [order]: the transactions that took effect so far; a session that gave
    up at its first statement already has. *)
Inductive session_ok (order : list nat) (res : list (nat * outcome reply)) (db : flow_tables P)
  (j : nat) (s : session P) : Prop :=
  | Fresh p : progs !! j = Some p -> s = mk_session p [] ∅ -> j ∉ order -> session_ok order res db j s
  | Holding p rid : progs !! j = Some p -> holds rid p db s -> j ∉ order -> session_ok order res db j s
  | Doomed e : ss_code s = TxRaise e -> ss_locks s = ∅ -> (j, Raise e) ∈ res ->
      session_ok order res db j s.

Record world_ok (order : list nat) (st : sessions P) : Prop := {
  wo_nodup : NoDup order;
  wo_progs : forall j, j ∈ order -> is_Some (progs !! j);
  wo_replay : fst (replay progs order db0) = sw_db st;
  wo_ended : forall x, x ∈ sw_ended st -> x ∈ snd (replay progs order db0);
  wo_open : forall j s, sw_open st !! j = Some s ->
    session_ok order (snd (replay progs order db0)) (sw_db st) j s;
  wo_locks : forall i j s s', i <> j -> sw_open st !! i = Some s -> sw_open st !! j = Some s' ->
    ss_locks s ## ss_locks s';
  wo_all : forall j, is_Some (progs !! j) ->
    is_Some (sw_open st !! j) \/ exists o, (j, o) ∈ sw_ended st;
}.

Lemma open_sessions_ok : world_ok [] (open_sessions progs db0).
Proof.
  split; simpl.
  - constructor.
  - intros j Hj. by apply not_elem_of_nil in Hj.
  - done.
  - done.
  - intros j s Hs. rewrite lookup_fmap in Hs. apply fmap_Some in Hs as (p & Hp & ->).
    eapply Fresh; [done|done|]. apply not_elem_of_nil.
  - intros i j s s' _ Hs _. rewrite lookup_fmap in Hs. apply fmap_Some in Hs as (p & _ & ->).
    simpl. set_solver.
  - intros j [p Hp]. left. rewrite lookup_fmap, Hp. by eexists.
Qed.

Lemma session_ok_mono order res db i j x s :
  session_ok order res db i s -> i <> j -> session_ok (order ++ [j]) (res ++ [x]) db i s.
Proof.
  intros Hs Hne. assert (i ∉ order -> i ∉ order ++ [j]) as Hn by set_solver.
  destruct Hs as [p Hp He Ho|p rid Hp Hh Ho|e He Hl Hr].
  - eapply Fresh; eauto.
  - eapply Holding; eauto.
  - eapply Doomed; eauto. apply elem_of_app. by left.
Qed.

(** The session goes on, the order is the same. *)
Lemma world_step order st j s s' :
  world_ok order st -> sw_open st !! j = Some s ->
  session_ok order (snd (replay progs order db0)) (sw_db st) j s' ->
  (forall i si, i <> j -> sw_open st !! i = Some si -> ss_locks si ## ss_locks s') ->
  world_ok order (mk_sessions (sw_db st) (<[j := s']> (sw_open st)) (sw_ended st)).
Proof.
  intros W Hj Hs Hd. split; simpl; try apply W.
  - intros i si Hi. apply lookup_insert_Some in Hi as [[<- <-]|[_ Hi]]; [done|]. by apply W.
  - intros i i' si si' Hne Hi Hi'. apply lookup_insert_Some in Hi as [[<- <-]|[Hn Hi]],
      Hi' as [[<- <-]|[Hn' Hi']].
    + done.
    + symmetry. by apply (Hd i').
    + by apply (Hd i).
    + by apply (wo_locks _ _ W i i').
  - intros i Hi. destruct (wo_all _ _ W i Hi) as [[si Hsi]|He]; [left|by right].
    destruct (decide (i = j)) as [->|Hne]; [rewrite lookup_insert_eq; by eexists|].
    rewrite lookup_insert_ne by done. by eexists.
Qed.

(** A transaction takes effect: it is replayed after the others. *)
Lemma replay_next order st j p :
  world_ok order st -> progs !! j = Some p ->
  replay progs (order ++ [j]) db0 =
  match exec p (sw_db st) with
  | Ok (db', r) => (db', snd (replay progs order db0) ++ [(j, Ok r)])
  | Raise e => (sw_db st, snd (replay progs order db0) ++ [(j, Raise e)])
  end.
Proof.
  intros W Hp. rewrite replay_snoc. unfold replay_one. rewrite Hp, (wo_replay _ _ W). done.
Qed.

(** It gives up: its effect is none, its session may still be open. *)
Lemma world_doom order st j s p e :
  world_ok order st -> sw_open st !! j = Some s -> progs !! j = Some p -> j ∉ order ->
  exec p (sw_db st) = Raise e ->
  world_ok (order ++ [j])
    (mk_sessions (sw_db st) (<[j := mk_session (TxRaise e) [] ∅]> (sw_open st)) (sw_ended st)).
Proof.
  intros W Hj Hp Ho He. pose proof (replay_next _ _ _ _ W Hp) as Hr. rewrite He in Hr.
  split; simpl; rewrite ?Hr; simpl.
  - apply NoDup_add; [apply W|done].
  - intros i Hi. apply elem_of_app in Hi as [Hi|Hi]; [by apply W|].
    apply list_elem_of_singleton in Hi as ->. by eexists.
  - done.
  - intros x Hx. apply elem_of_app. left. by apply W.
  - intros i si Hi. apply lookup_insert_Some in Hi as [[<- <-]|[Hne Hi]].
    + eapply Doomed; [done|done|]. set_solver.
    + apply session_ok_mono; [by apply W|done].
  - intros i i' si si' Hne Hi Hi'. apply lookup_insert_Some in Hi as [[<- <-]|[Hn Hi]],
      Hi' as [[<- <-]|[Hn' Hi']]; simpl; try set_solver. by apply (wo_locks _ _ W i i').
  - intros i Hi. destruct (wo_all _ _ W i Hi) as [[si Hsi]|Hen]; [left|by right].
    destruct (decide (i = j)) as [->|Hne]; [rewrite lookup_insert_eq; by eexists|].
    rewrite lookup_insert_ne by done. by eexists.
Qed.

(** A session ends. *)
Lemma world_close order order' st j o db' :
  world_ok order st ->
  NoDup order' -> (forall i, i ∈ order' -> is_Some (progs !! i)) ->
  fst (replay progs order' db0) = db' ->
  (forall x, x ∈ (j, o) :: snd (replay progs order db0) -> x ∈ snd (replay progs order' db0)) ->
  (forall i s, i <> j -> sw_open st !! i = Some s ->
     session_ok order' (snd (replay progs order' db0)) db' i s) ->
  world_ok order' (mk_sessions db' (delete j (sw_open st)) (sw_ended st ++ [(j, o)])).
Proof.
  intros W Hn Hp Hdb Hres Hopen. split; simpl; try done.
  - intros x Hx. apply Hres. apply elem_of_app in Hx as [Hx|Hx].
    + apply list_elem_of_further. by apply W.
    + apply list_elem_of_singleton in Hx as ->. apply list_elem_of_here.
  - intros i s Hi. apply lookup_delete_Some in Hi as [Hne Hi]. by apply Hopen.
  - intros i i' si si' Hne Hi Hi'. apply lookup_delete_Some in Hi as [_ Hi].
    apply lookup_delete_Some in Hi' as [_ Hi']. by apply (wo_locks _ _ W i i').
  - intros i Hi. destruct (decide (i = j)) as [->|Hne].
    + right. exists o. apply elem_of_app. right. by apply list_elem_of_singleton.
    + rewrite lookup_delete_ne by done. destruct (wo_all _ _ W i Hi) as [Hs|[o' Ho']]; [by left|].
      right. exists o'. apply elem_of_app. by left.
Qed.

Lemma session_ok_commit order res db db' i s :
  session_ok order res db i s ->
  (forall rid p, holds rid p db s -> same_rows rid db' db) ->
  session_ok order res db' i s.
Proof.
  intros Hs Hsame. destruct Hs as [p Hp He Ho|p rid Hp Hh Ho|e He Hl Hr].
  - by eapply Fresh.
  - eapply Holding; [done| |done]. specialize (Hsame _ _ Hh). destruct Hh as [H1 H2 H3 H4 H5].
    split; try done. intros d Hd. apply H5. by etrans.
  - by eapply Doomed.
Qed.

Lemma holds_step rid p db s ws t' :
  holds rid p db s ->
  statement (ss_code s) (apply_writes (ss_writes s) db) = Some (ws, t') ->
  holds rid p db (mk_session t' (ss_writes s ++ ws)
    (ss_locks s ∪ locks_needed (ss_code s) (apply_writes (ss_writes s) db))).
Proof.
  intros [H1 H2 H3 H4 H5] Hst. destruct (statement_about _ _ _ _ _ H3 Hst) as (Hw & Ha & Hl).
  split; simpl.
  - set_solver.
  - set_solver.
  - done.
  - by apply Forall_app.
  - intros d Hd. rewrite H5, apply_writes_app by done. apply exec_statement.
    rewrite <-Hst. by apply (statement_same rid); [|apply apply_writes_same].
Qed.

Lemma statement_final {A : Type} (t : tx P A) db :
  statement t db = None -> (exists a, t = TxRet a) \/ (exists e, t = TxRaise e).
Proof. destruct t; simpl; intros E; try discriminate E; [left|right]; by eexists. Qed.

Lemma turn_statement (st : sessions P) j s ws t' :
  sw_open st !! j = Some s ->
  statement (ss_code s) (apply_writes (ss_writes s) (sw_db st)) = Some (ws, t') ->
  turn st j =
    if rows_free j (locks_needed (ss_code s) (apply_writes (ss_writes s) (sw_db st))) (sw_open st)
    then mk_sessions (sw_db st)
           (<[j := mk_session t' (ss_writes s ++ ws)
                     (ss_locks s ∪ locks_needed (ss_code s) (apply_writes (ss_writes s) (sw_db st)))]>
              (sw_open st)) (sw_ended st)
    else st.
Proof.
  unfold turn. intros -> Hst. destruct (ss_code s) eqn:Hc; try discriminate Hst; by rewrite Hst.
Qed.

(** The first statement: the row of the Run is locked, or the transaction
    gives up. *)
Lemma fresh_step (p : tx P reply) rid db ws t' :
  locks_first rid p -> statement p db = Some (ws, t') ->
  (holds rid p db (mk_session t' ([] ++ ws) (∅ ∪ locks_needed p db))) \/
  (exists e, t' = TxRaise e /\ ws = [] /\ locks_needed p db = ∅ /\ exec p db = Raise e).
Proof.
  intros Hp Hst. destruct p; simpl in Hp; try done.
  - destruct Hp as (-> & [e He] & Ha). simpl in *. injection Hst as <- <-.
    destruct (t_runs db !! rid) as [row|] eqn:Hrow; simpl.
    + left. split; simpl; [set_solver|set_solver|apply Ha|done|].
      intros d Hd. by rewrite (same_run _ _ _ Hd), Hrow.
    + right. exists e. by rewrite He.
  - destruct Hp as (-> & Ha). simpl in *. injection Hst as Hst.
    case_bool_decide as Hrow; injection Hst as <- <-; simpl.
    + right. by exists integrity_error.
    + left. split; simpl; [set_solver|set_solver|done|by repeat constructor|].
      intros d Hd. rewrite (same_run _ _ _ Hd), bool_decide_eq_false_2 by done. done.
Qed.

Lemma fresh_not_final (p : tx P reply) rid db : locks_first rid p -> is_Some (statement p db).
Proof. destruct p; simpl; try done; intros _; by eexists. Qed.

Lemma turn_ok order st j :
  world_ok order st -> exists order', world_ok order' (turn st j).
Proof.
  intros W. destruct (sw_open st !! j) as [s|] eqn:Hj; [|exists order; unfold turn; by rewrite Hj].
  pose proof (wo_open _ _ W _ _ Hj) as [p Hp He Ho|p rid Hp Hh Ho|e He Hl Hr].
  - subst s. destruct (progs_lock _ _ Hp) as [rid Hf].
    destruct (fresh_not_final _ _ (sw_db st) Hf) as [[ws t'] Hst].
    rewrite (turn_statement _ _ _ ws t' Hj Hst). simpl ss_code. simpl ss_writes. simpl ss_locks.
    change (apply_writes [] (sw_db st)) with (sw_db st).
    destruct (rows_free _ _ _) eqn:Hfree; [|by exists order].
    destruct (fresh_step _ _ _ _ _ Hf Hst) as [Hh|(e & -> & -> & Hn & Hex)].
    + exists order. eapply world_step; [done|done|by eapply Holding|].
      intros i si Hne Hi. simpl. rewrite (left_id_L ∅ (∪)).
      by apply (proj1 (rows_free_spec _ _ _) Hfree i).
    + exists (order ++ [j]). rewrite Hn. simpl. rewrite (left_id_L ∅ (∪)).
      by eapply world_doom.
  - destruct (statement (ss_code s) (apply_writes (ss_writes s) (sw_db st))) as [[ws t']|] eqn:Hst.
    + rewrite (turn_statement _ _ _ ws t' Hj Hst). destruct (rows_free _ _ _) eqn:Hfree; [|by exists order].
      exists order. eapply world_step; [done|done|eapply Holding; [done| |done]; by apply holds_step|].
      intros i si Hne Hi. simpl. pose proof (wo_locks _ _ W _ _ _ _ Hne Hi Hj).
      pose proof (proj1 (rows_free_spec _ _ _) Hfree i si Hi Hne). set_solver.
    + assert (exec p (sw_db st) = exec (ss_code s) (apply_writes (ss_writes s) (sw_db st))) as Hex
        by (by apply (h_exec _ _ _ _ Hh)).
      assert (NoDup (order ++ [j])) as Hnd by (apply NoDup_add; [apply W|done]).
      assert (forall i, i ∈ order ++ [j] -> is_Some (progs !! i)) as Hpr.
      { intros i Hi. apply elem_of_app in Hi as [Hi|Hi]; [by apply W|].
        apply list_elem_of_singleton in Hi as ->. by eexists. }
      pose proof (replay_next _ _ _ _ W Hp) as Hre. rewrite Hex in Hre. exists (order ++ [j]).
      unfold turn. rewrite Hj. apply statement_final in Hst as [[r Hc]|[e Hc]];
        rewrite Hc in *; simpl in Hre.
      * eapply world_close; [done|done|done|by rewrite Hre| |].
        -- rewrite Hre. simpl. intros x Hx. clear -Hx. set_solver.
        -- intros i si Hne Hi. rewrite Hre. simpl. apply session_ok_mono; [|done].
           eapply session_ok_commit; [by apply W|]. intros rid' p' Hh'.
           apply (apply_writes_other rid' rid); [|apply Hh]. intros ->.
           pose proof (wo_locks _ _ W _ _ _ _ Hne Hi Hj). pose proof (h_lock _ _ _ _ Hh).
           pose proof (h_lock _ _ _ _ Hh'). set_solver.
      * eapply world_close; [done|done|done|by rewrite Hre| |].
        -- rewrite Hre. simpl. intros x Hx. clear -Hx. set_solver.
        -- intros i si Hne Hi. rewrite Hre. simpl. apply session_ok_mono; [|done]. by apply W.
  - exists order. unfold turn. rewrite Hj, He. eapply world_close; [done|apply W|apply W|apply W| |].
    + intros x Hx. apply elem_of_cons in Hx as [->|Hx]; done.
    + intros i si _ Hi. by apply W.
Qed.

Lemma run_turns_ok js : forall order st,
  world_ok order st -> exists order', world_ok order' (run_turns js st).
Proof.
  induction js as [|j js IH]; intros order st W; [by exists order|].
  destruct (turn_ok _ _ j W) as [order1 W1]. by apply (IH order1).
Qed.

(** ** Running to the end *)

(** A transaction has finitely many statements left, whatever they return. *)
Inductive ends {A : Type} : tx P A -> Prop :=
  | ends_intro t : (forall db ws t', statement t db = Some (ws, t') -> ends t') -> ends t.

Lemma tx_ends {A : Type} (t : tx P A) : ends t.
Proof.
  assert (forall e, ends (TxRaise e : tx P A)) as Hr by (intros e; constructor; intros; discriminate).
  induction t as [a|e|rid k IH|rid k IH|rid k IH|rid v row k IH|rid row k IH|rows k IH|rid row k IH
                 |rid set k IH]; constructor; intros db ws t' Hs; simpl in Hs; try discriminate Hs.
  - by injection Hs as <- <-.
  - by injection Hs as <- <-.
  - by injection Hs as <- <-.
  - destruct (t_runs db !! rid) as [r|]; [destruct (row_revision r =? v)|]; by injection Hs as <- <-.
  - destruct (bool_decide _); by injection Hs as <- <-.
  - destruct (forallb _ _ && _); by injection Hs as <- <-.
  - destruct (bool_decide _ && _); by injection Hs as <- <-.
  - destruct (t_leases db !! rid); by injection Hs as <- <-.
Qed.

(** While no other session holds a row of its Run, a session runs to its
    end, and the others are where they were. *)
Lemma run_alone rid t : ends t -> forall (st : sessions P) j s,
  sw_open st !! j = Some s -> ss_code s = t -> about rid t ->
  (forall i si, i <> j -> sw_open st !! i = Some si ->
     ss_locks si ## {[run_lock rid; lease_lock rid]}) ->
  exists n, sw_open (run_turns (replicate n j) st) = delete j (sw_open st).
Proof.
  intros He. induction He as [t _ IH]. intros st j s Hj Hc Ha Hfree.
  destruct (statement t (apply_writes (ss_writes s) (sw_db st))) as [[ws t']|] eqn:Hst.
  - destruct (statement_about _ _ _ _ _ Ha Hst) as (_ & Ha' & Hl).
    assert (rows_free j (locks_needed t (apply_writes (ss_writes s) (sw_db st))) (sw_open st) = true)
      as Hrows.
    { apply rows_free_spec. intros i si Hi Hne. specialize (Hfree i si Hne Hi). set_solver. }
    set (s' := mk_session t' (ss_writes s ++ ws)
                 (ss_locks s ∪ locks_needed t (apply_writes (ss_writes s) (sw_db st)))).
    set (st' := mk_sessions (sw_db st) (<[j := s']> (sw_open st)) (sw_ended st)).
    assert (turn st j = st') as Ht.
    { rewrite <-Hc in Hst, Hrows. rewrite (turn_statement _ _ _ _ _ Hj Hst), Hrows.
      unfold st', s'. by rewrite Hc. }
    destruct (IH _ _ _ Hst st' j s') as [n Hn].
    + simpl. apply lookup_insert_eq.
    + done.
    + done.
    + intros i si Hne Hi. simpl in Hi. rewrite lookup_insert_ne in Hi by done. by apply (Hfree i).
    + exists (S n). simpl. change (fold_left turn (replicate n j) (turn st j))
        with (run_turns (replicate n j) (turn st j)). rewrite Ht, Hn. simpl. apply delete_insert_eq.
  - exists 1%nat. simpl. unfold turn. rewrite Hj, Hc.
    by apply statement_final in Hst as [[r ->]|[e ->]].
Qed.

Lemma locks_first_about (p : tx P reply) rid : locks_first rid p -> about rid p.
Proof.
  destruct p; simpl; try done. intros (-> & [e He] & Ha). split; [done|].
  intros [x|]; [apply Ha|by rewrite He].
Qed.

(** Some open session is not waiting. *)
Lemma world_progress order st :
  world_ok order st -> sw_open st <> ∅ ->
  exists j s rid, sw_open st !! j = Some s /\ about rid (ss_code s) /\
    forall i si, i <> j -> sw_open st !! i = Some si ->
      ss_locks si ## {[run_lock rid; lease_lock rid]}.
Proof.
  intros W Hne. destruct (decide (map_Forall (fun _ s => ss_locks s = ∅) (sw_open st))) as [Hall|Hsome].
  - destruct (map_choose _ Hne) as (j & s & Hj).
    assert (exists rid, about rid (ss_code s)) as [rid Ha].
    { pose proof (wo_open _ _ W _ _ Hj) as [p Hp He Ho|p rid Hp Hh Ho|e He Hl Hr].
      - subst s. destruct (progs_lock _ _ Hp) as [rid Hf]. exists rid. by apply locks_first_about.
      - exists rid. apply Hh.
      - exists 0%N. by rewrite He. }
    exists j, s, rid. split_and!; [done|done|]. intros i si _ Hi. rewrite (Hall i si Hi). set_solver.
  - apply map_not_Forall in Hsome as (j & s & Hj & Hl); [|intros; apply _].
    pose proof (wo_open _ _ W _ _ Hj) as [p Hp He Ho|p rid Hp Hh Ho|e He Hl' Hr]; [by subst s| |done].
    exists j, s, rid. split_and!; [done|apply Hh|]. intros i si Hi Hsi.
    pose proof (wo_locks _ _ W _ _ _ _ Hi Hsi Hj) as Hd. pose proof (h_lock _ _ _ _ Hh) as Hmine.
    pose proof (wo_open _ _ W _ _ Hsi) as [p' Hp' He' Ho'|p' rid' Hp' Hh' Ho'|e He' Hl' Hr'].
    + subst si. simpl. set_solver.
    + pose proof (h_locks _ _ _ _ Hh') as Hsub. pose proof (h_lock _ _ _ _ Hh') as Htheirs.
      assert (rid' <> rid) as Hrid by (intros ->; set_solver).
      apply elem_of_disjoint. intros x Hx Hx'. apply Hsub in Hx.
      apply elem_of_union in Hx as [->%elem_of_singleton| ->%elem_of_singleton];
        apply elem_of_union in Hx' as [H%elem_of_singleton|H%elem_of_singleton];
        unfold run_lock, lease_lock in H; congruence.
    + rewrite Hl'. set_solver.
Qed.

Lemma world_finishes n : forall order st,
  world_ok order st -> size (sw_open st) = n -> exists js, sw_open (run_turns js st) = ∅.
Proof.
  induction n as [|n IH]; intros order st W Hn.
  - exists []. by apply map_size_empty_inv.
  - destruct (world_progress _ _ W) as (j & s & rid & Hj & Ha & Hfree);
      [intros He; by rewrite He, map_size_empty in Hn|].
    destruct (run_alone rid _ (tx_ends (ss_code s)) st j s Hj eq_refl Ha Hfree) as [m Hm].
    destruct (run_turns_ok (replicate m j) _ _ W) as [order' W'].
    destruct (IH order' _ W') as [js Hjs].
    + rewrite Hm, map_size_delete_Some by by eexists. by rewrite Hn.
    + exists (replicate m j ++ js). unfold run_turns in *. by rewrite fold_left_app.
Qed.
End Linearization.

(** ** The calls of the repository *)

Section CallSessions.
Context {P : Type} `{!FlowPayloads P} `{!FlowPayloadLaws P}.

Lemma about_bind {A B : Type} rid (t : tx P A) (f : A -> tx P B) :
  about rid t -> (forall a, about rid (f a)) -> about rid (tx_bind t f).
Proof. intros Ht Hf. induction t; simpl in *; naive_solver. Qed.

Lemma about_tx_of {A : Type} rid (o : outcome A) : about rid (tx_of (P := P) o).
Proof. by destruct o. Qed.

Lemma materialize_about amb rid drafts start es :
  materialize_events amb rid drafts start = Ok es ->
  Forall (fun p => fst (fst p) = rid) (map (event_values (P := P)) es).
Proof.
  unfold materialize_events. generalize 0%nat. revert start es.
  induction drafts as [|d drafts IH]; intros start es k He; simpl in He.
  - by injection He as <-.
  - destruct (checked _ _ _) as [e|] eqn:Hc; [|done].
    apply checked_Ok in Hc as (_ & _ & ->). destruct (materialize_from _ _ _ _ _) as [es'|] eqn:Hm; [|done].
    injection He as <-. simpl. constructor; [done|]. by eapply IH.
Qed.

Lemma about_bind_of {A B : Type} rid (o : outcome A) (f : A -> tx P B) :
  (forall a, o = Ok a -> about rid (f a)) -> about rid (tx_bind (tx_of o) f).
Proof. intros Hf. destruct o; simpl; [by apply Hf|done]. Qed.

Ltac about_steps :=
  repeat lazymatch goal with
         | |- about _ (tx_bind (tx_of _) _) => apply about_bind_of; intros ? ?
         | |- about _ (TxSelectLease _ _) => split; [reflexivity|intros ?]
         | |- about _ (TxMaxSequence _ _) => split; [reflexivity|intros ?]
         | |- about _ (tx_bind (TxRet _) _) => cbn [tx_bind]
         | |- about _ (tx_bind _ _) => apply about_bind; [|intros ?]
         | |- about _ (if ?b then _ else _) => destruct b
         | |- about _ (match ?x with _ => _ end) => destruct x
         | |- about _ (TxRaise _) => exact I
         | |- about _ (TxRet _) => exact I
         | |- about _ (TxUpdateRun _ _ _ _) => split; [reflexivity|intros ?]
         | |- about _ (TxInsertLease _ _ _) => split; [reflexivity|]
         | |- about _ (TxUpdateLease _ _ _) => split; [reflexivity|]
         | |- about _ (insert_events _ _) => split; [by eapply materialize_about|]
         end.

(** Every method that writes locks the row of its Run first. *)
Lemma call_locks_first c t : call_tx (P := P) c = Ok t -> exists rid, locks_first rid t.
Proof.
  destruct c; cbn [call_tx]; intros Ht.
  - destruct (negb _); [done|]. destruct (no_drafts _); [done|].
    destruct (materialize_events _ _ _ _) as [es|] eqn:Hm; [|done]. injection Ht as <-.
    exists (fr_run_id s). simpl. split; [done|]. split; [|done]. by eapply materialize_about.
  - destruct (no_drafts _); [done|]. injection Ht as <-. exists (fr_run_id s).
    split; [done|]. split; [by eexists|]. intros p. about_steps.
  - destruct (no_drafts _); [done|]. injection Ht as <-. exists rid.
    split; [done|]. split; [by eexists|]. intros p. about_steps.
  - destruct (validate_lease_arguments _ _); [|done]. injection Ht as <-. exists rid.
    split; [done|]. split; [by eexists|]. intros p. about_steps.
  - destruct (validate_lease_arguments _ _); [|done]. injection Ht as <-. exists (lease_run_id lease).
    split; [done|]. split; [by eexists|]. intros p. about_steps.
  - injection Ht as <-. exists (lease_run_id lease).
    split; [done|]. split; [by eexists|]. intros p. about_steps.
Qed.

(** The transactions of concurrent calls; a call with invalid arguments
    raises before it opens one. *)
Definition call_programs (calls : gmap nat repo_call) : gmap nat (tx P reply) :=
  omap (fun c => match call_tx c with Ok t => Some t | Raise _ => None end) calls.

Definition calls_in (calls : gmap nat repo_call) (order : list nat) : list repo_call :=
  omap (fun j => calls !! j) order.

Lemma call_programs_lookup calls j t :
  call_programs calls !! j = Some t -> exists c, calls !! j = Some c /\ call_tx c = Ok t.
Proof.
  unfold call_programs. rewrite lookup_omap. intros H. apply bind_Some in H as (c & Hc & H).
  exists c. destruct (call_tx c) as [t'|]; [|done]. by injection H as ->.
Qed.

Lemma call_programs_lock calls j t :
  call_programs calls !! j = Some t -> exists rid, locks_first rid t.
Proof. intros (c & _ & Hc)%call_programs_lookup. by apply call_locks_first in Hc. Qed.

Section Calls.
Variables (calls : gmap nat repo_call) (db : flow_tables P) (w : InMemoryFlowRepository).
Hypothesis valid : forall j c, calls !! j = Some c -> call_valid c.
Hypothesis R : pg_refines db w.

Lemma replay_refines order :
  (forall j, j ∈ order -> is_Some (call_programs calls !! j)) ->
  pg_refines (fst (replay (call_programs calls) order db)) (fm_trace (calls_in calls order) w).
Proof.
  induction order as [|j order IH] using rev_ind; intros Hp; [exact R|].
  destruct (Hp j) as [t Ht]; [set_solver|].
  destruct (call_programs_lookup _ _ _ Ht) as (c & Hc & Htx).
  specialize (IH ltac:(intros i Hi; apply Hp; set_solver)).
  rewrite replay_snoc. unfold replay_one. rewrite Ht.
  pose proof (pg_after_refines _ _ c IH (valid _ _ Hc)) as Hr.
  unfold pg_after, pg_call in Hr. rewrite Htx in Hr. cbn [db_transaction tables_database] in Hr.
  assert (calls_in calls (order ++ [j]) = calls_in calls order ++ [c]) as ->
    by (unfold calls_in; rewrite omap_app; simpl; by rewrite Hc).
  unfold fm_trace at 1. rewrite fold_left_app. cbn [fold_left].
  destruct (exec t _) as [[db' r]|e]; cbn [fst]; [by destruct c|].
  destruct c; cbn in Hr; try exact Hr. by destruct (bool_decide _).
Qed.

Lemma replay_result order j o :
  (forall i, i ∈ order -> is_Some (call_programs calls !! i)) ->
  (j, o) ∈ snd (replay (call_programs calls) order db) ->
  exists before after c, order = before ++ j :: after /\ calls !! j = Some c /\
    match fm_call c (fm_trace (calls_in calls before) w), call_result c o with
    | Ok (_, r), Ok r' => r' = r
    | Raise e, Raise e' => same_error c e e'
    | _, _ => False
    end.
Proof.
  intros Hp Hin. apply replay_elem in Hin as (before & after & t & -> & Ht & ->).
  destruct (call_programs_lookup _ _ _ Ht) as (c & Hc & Htx).
  assert (pg_refines (fst (replay (call_programs calls) before db))
            (fm_trace (calls_in calls before) w)) as Hr
    by (apply replay_refines; intros i Hi; apply Hp; set_solver).
  pose proof (call_agrees _ _ Hr c (valid _ _ Hc)) as Ha. unfold pg_call in Ha. rewrite Htx in Ha.
  cbn [db_transaction tables_database] in Ha.
  exists before, after, c. split_and!; [done|done|].
  destruct (fm_call c _) as [[w' r]|], (exec t _) as [[db' r']|]; destruct c; cbn in *;
    try case_bool_decide; cbn in *; naive_solver.
Qed.
End Calls.

(** C36: concurrent calls are as if made one after the other.  Whatever the
    calls, and whatever the order in which their sessions take turns at the
    database, statement by statement, there is an order of calls such that
    the committed tables are those of the in-memory repository after these
    calls, and every session that ended returned (or raised) what its call
    returns (or raises) at its place in that order. *)
Theorem postgres_sessions_linearizable calls (db : flow_tables P) w js :
  pg_refines db w -> (forall j c, calls !! j = Some c -> call_valid c) ->
  let st := run_turns js (open_sessions (call_programs calls) db) in
  exists order, NoDup order /\
    pg_refines (sw_db st) (fm_trace (calls_in calls order) w) /\
    forall j o, (j, o) ∈ sw_ended st ->
      exists before after c, order = before ++ j :: after /\ calls !! j = Some c /\
        match fm_call c (fm_trace (calls_in calls before) w), call_result c o with
        | Ok (_, r), Ok r' => r' = r
        | Raise e, Raise e' => same_error c e e'
        | _, _ => False
        end.
Proof.
  intros R Hv. cbv zeta.
  destruct (run_turns_ok _ _ (call_programs_lock calls) js _ _ (open_sessions_ok _ db (call_programs_lock calls)))
    as [order W].
  exists order. split_and!; [apply W| |].
  - rewrite <-(wo_replay _ _ _ _ W). apply replay_refines; [done|done|apply W].
  - intros j o Hin. apply (replay_result calls db w Hv R); [apply W|]. by apply (wo_ended _ _ _ _ W).
Qed.

(** Sessions never deadlock.  Wherever the sessions are, some further
    turns bring all of them to their ends, each with an outcome. *)
Theorem postgres_sessions_finish calls (db : flow_tables P) js :
  exists js',
    let st := run_turns (js ++ js') (open_sessions (call_programs calls) db) in
    sw_open st = ∅ /\
    forall j, is_Some (call_programs calls !! j) -> exists o, (j, o) ∈ sw_ended st.
Proof.
  set (st0 := open_sessions (call_programs calls) db).
  destruct (run_turns_ok _ _ (call_programs_lock calls) js _ _ (open_sessions_ok _ db (call_programs_lock calls)))
    as [order W].
  destruct (world_finishes _ _ (call_programs_lock calls) _ _ _ W eq_refl) as [js' Hjs].
  exists js'. unfold run_turns in *. rewrite fold_left_app. split; [done|].
  destruct (run_turns_ok _ _ (call_programs_lock calls) js' _ _ W) as [order' W'].
  unfold run_turns in W'. intros j Hj. destruct (wo_all _ _ _ _ W' j Hj) as [[s Hs]|Ho]; [|done].
  rewrite Hjs, lookup_empty in Hs. done.
Qed.
End CallSessions.

(** ** A race *)

(** Two workers commit the same revision of a Run, turn by turn. *)
Definition example_race_calls : gmap nat repo_call :=
  let commit := CallCommit example_flow_ambient example_started 1 [example_draft] None in
  {[ 0%nat := commit; 1%nat := commit ]}.

Definition example_pg_created : flow_tables (FlowRunState + RuntimeEvent) :=
  pg_trace (take 1 example_history) flow_tables_empty.

Definition example_race : sessions (FlowRunState + RuntimeEvent) :=
  run_turns (concat (repeat [1; 0] 8))%nat
    (open_sessions (call_programs example_race_calls) example_pg_created).

Lemma example_race_valid j c : example_race_calls !! j = Some c -> call_valid c.
Proof.
  assert (call_valid (CallCommit example_flow_ambient example_started 1 [example_draft] None)) as H
    by (vm_compute; by eexists).
  unfold example_race_calls. intros Hc.
  apply lookup_insert_Some in Hc as [[_ <-]|[_ Hc]]; [exact H|].
  by apply lookup_singleton_Some in Hc as [_ <-].
Qed.

Lemma example_pg_created_refines : pg_refines example_pg_created example_repo_created.
Proof.
  apply pg_trace_refines; [apply pg_refines_empty|]. repeat constructor. vm_compute. by eexists.
Qed.

(** Session 1 locks the row first; session 0 waits for it, then finds the
    revision changed. *)
Example example_race_ended :
  map (fun p => (fst p, on_Ok (snd p) (fun _ => None) (match snd p with
                                                       | Raise e => Some (exn_cls e)
                                                       | Ok _ => None
                                                       end))) (sw_ended example_race) =
  [(1, None); (0, Some FlowRevisionConflictError)]%nat.
Proof. vm_compute. reflexivity. Qed.

Lemma postgres_sessions_linearizable_witness :
  (exists o, (1%nat, o) ∈ sw_ended example_race) /\
  exists order, NoDup order /\
    pg_refines (sw_db example_race)
      (fm_trace (calls_in example_race_calls order) example_repo_created).
Proof.
  split.
  - destruct (sw_ended example_race) as [|[j o] l] eqn:E;
      [apply (f_equal length) in E; vm_compute in E; discriminate E|].
    assert (match sw_ended example_race with (j, _) :: _ => j | [] => 0%nat end = 1%nat) as Hj
      by (vm_compute; reflexivity).
    rewrite E in Hj. subst j. exists o. apply list_elem_of_here.
  - destruct (postgres_sessions_linearizable example_race_calls example_pg_created
                example_repo_created (concat (repeat [1; 0] 8))%nat example_pg_created_refines
                example_race_valid) as (order & Hn & Hr & _).
    exists order. split; [exact Hn|exact Hr].
Defined.
